(* ===== verification/_CoqProject ===== *)
-Q . S2P
Prelude.v
HttpRequest.v
HttpRequestLine.v
NgxHash.v
HttpHeaderLine.v
HttpStatusLine.v
HttpChunked.v
HttpRequestBody.v
HttpUri.v
NgxNumber.v
NgxBase64.v
NgxEscape.v
NgxUtf8.v
GmWord.v
Sm4.v
Sm4Modes.v
GmGf128.v
GmGhash.v
Sm4Gcm.v
Sm3.v
NgxStore.v
NgxRbtree.v
RbTree.v
RbInsert.v
RbWalk.v
RbDelete.v
NgxEventTimer.v
NgxQueue.v
NgxRadix.v
RadixRepr.v
RadixMap.v
HuffTables.v
HpackHuffman.v
HpackString.v
HpackTable.v
NgxSprintf.v
NgxInet.v
InetCidr.v
InetText.v
InetPort.v
HttpTime.v
NgxParseTime.v
Spread.v
HttpRoundRobin.v
HttpRrConns.v
NgxStrings.v
HttpArgs.v
Sm2Bn.v
Sm2Fp.v
Sm2Fn.v
Sm2Prime.v
Sm2Point.v
Sm2Group.v
Sm2Octets.v
