(* ===== verification/Prelude.v ===== *)
(** Verification of parts of nginx 1.24.0 (src/nginx/nginx-1.24.0) and of
    GmSSL 3.1.1 (src/gmssl/GmSSL-3.1.1): the parsing of requests, HPACK, the
    linked data structures and timers, the string functions, dates and the
    upstream balancing of the first; SM2, SM3 and SM4 of the second.  Paths
    below are relative to src/ of the first and to the root of the second.

    * The program's parts

    A read handler of nginx receives bytes into a buffer and calls a parser,
    which walks the unread bytes with a state machine, keeps its state in the
    request between calls, and answers [NGX_AGAIN] when the bytes run out:
    the request line, then the header lines, and for an upstream the status
    line.  From the request line's positions the URI is processed: the path
    is used as it is, or decoded and normalised into memory of the request's
    pool.  A request body goes through a filter that counts its length or
    decodes the chunked transfer coding, in place, with its own resumable
    parser.  A request over HTTP/2 has its header compressed with HPACK:
    integers and strings, the Huffman code, and a dynamic table of the
    headers seen before.  All of them rest on the string functions of the
    core: numbers, escaping, base64, UTF-8, hashing, searches, formatting,
    dates.  Events wait in a red-black tree of timers; modules keep queues,
    and radix trees of address prefixes; a request to an upstream picks a
    server by weighted round robin.

    GmSSL's SM4 is a block cipher with key schedules, modes of operation on top
    of it, and incremental contexts that cut a stream of any pieces into
    blocks; SM3 is a hash function with such a context, GHASH another one in a
    field of 2^128 elements, which authenticates SM4's Galois/counter mode. SM2
    is an elliptic curve: arithmetic of eight 32-bit words modulo the prime and
    modulo the order, points in Jacobian coordinates, and points as bytes.

    * Files

    - Prelude: characters and bytes, the memory ([mem], a byte at every
      address) and buffers, the byte machines that model the parsers' loops
      ([run], [run_buf]), the interface [Resumable] between a parser and its
      callers with its consequence [feed_whole], return codes, positional
      numbers and other lemmas shared by all files.
    - HttpRequest: the fields of [ngx_http_request_t] and their setters.
    - HttpRequestLine, HttpHeaderLine, HttpStatusLine: the parsers
      [ngx_http_parse_request_line], [ngx_http_parse_header_line] and
      [ngx_http_parse_status_line] (http/ngx_http_parse.c), one definition per
      case of the switch, each an instance of [Resumable]; NgxHash: the hash
      functions of core/ngx_hash.c that header names go through.
    - HttpChunked: [ngx_http_parse_chunked]; HttpRequestBody: the filters of
      http/ngx_http_request_body.c that call it or count a content length.
    - HttpUri: [ngx_http_parse_uri], [ngx_http_parse_complex_uri] and
      [ngx_http_process_request_uri] (http/ngx_http_request.c); HttpArgs: the
      rest of http/ngx_http_parse.c, [ngx_http_parse_unsafe_uri],
      [ngx_http_arg] and the values in header lines.
    - NgxNumber, NgxBase64, NgxEscape, NgxUtf8, NgxStrings, NgxSprintf:
      core/ngx_string.c and core/ngx_parse.c; HttpTime, NgxParseTime:
      core/ngx_parse_time.c, core/ngx_times.c and [ngx_parse_time].
    - NgxInet: core/ngx_inet.c without the resolution of names, with InetCidr,
      InetText and InetPort about it.
    - NgxStore: programs on a store of structs, with loads, stores and
      dangling pointers; on it NgxRbtree (core/ngx_rbtree.c) with RbTree,
      RbInsert, RbWalk and RbDelete about it, NgxEventTimer
      (event/ngx_event_timer.c), NgxQueue (core/ngx_queue.c), and NgxRadix
      (core/ngx_radix_tree.c) with RadixRepr and RadixMap.
    - HuffTables, HpackHuffman, HpackString, HpackTable:
      http/ngx_http_huff_decode.c and http/ngx_http_huff_encode.c, the
      integers and strings of http/v2, and http/v2/ngx_http_v2_table.c.
    - HttpRoundRobin, HttpRrConns: http/ngx_http_upstream_round_robin.c, with
      Spread, the arithmetic that keeps its weights in a machine word.
    - GmWord: 32-bit words and byte buffers (include/gmssl/endian.h); Sm4: the
      block cipher and its key schedules (src/sm4_common.c, src/sm4_lcl.h,
      src/sm4_setkey.c, src/sm4_enc.c) and the interface [BlockCipher];
      Sm4Modes: src/sm4_modes.c; Sm3: src/sm3.c; GmGf128: src/gf128.c, with
      the interface [CommRing]; GmGhash: src/gcm.c; Sm4Gcm: the Galois/counter
      mode of src/sm4_modes.c and src/aead.c.
    - Sm2Bn, Sm2Fp, Sm2Fn, Sm2Point, Sm2Octets: src/sm2_alg.c, from the words
      up to encoded points; Sm2Prime: that the prime and the order are prime;
      Sm2Group: the group of the curve and that the points compute it.

    * How code is modelled

    Pointers are addresses, [NULL] is 0, and a parser reads [mem]; what writes
    memory returns the new one, so that reading and writing the same buffer
    (the chunked filter, the URI's rewriting, [ngx_unescape_uri] in place)
    is in the model.  Linked structs live in a [store]: a program of NgxStore
    fails when it follows a pointer to nothing, so a theorem that gives its
    result says that it does not.  Functions whose output never overlaps the
    input are functions from lists of bytes to lists of bytes.  Machine
    integers are [Z]; where the code can wrap around, the wrap-around is
    written out (hash keys, words, counters, weights, the 64-bit limbs of SM2;
    signed words wrap too, [s64], and the theorems exclude it), and
    where it tests a bound before a multiplication, a theorem says that the
    test is enough.  An error return is a constructor or the C code; a failed
    [assert] and a read out of bounds have no result.  The configuration is
    the one of a 64-bit Unix, without NGX_WIN32 and NGX_DEBUG.  The memory
    pool is a parameter: an allocation function that may fail, or the list of
    the answers it is going to give.

    * What the theorems show

    - Cutting the input: however the bytes of a request line, header line or
      status line arrive, the result is that of a single parse of all of
      them ([request_line_any_split], [header_line_any_split],
      [status_line_any_split], [parse_int_any_split]); however a message is
      cut, the SM3 and SM4 contexts compute what one call computes
      ([sm3_stream], [sm4_cbc_stream], [sm4_ctr_stream]).
    - Safety and bounds: the parsers read nothing outside the buffer, record
      positions inside it and in order ([request_line_positions],
      [status_line_bounds]), index the 32-byte buffer inside its bounds
      ([header_line_index_in_bounds]), and do not overflow
      ([chunked_no_overflow], [parse_time_exact]); formatted output stays in
      its buffer ([vslprintf_in_bounds]), the Huffman decoder too
      ([huff_decode_fits]); a rewritten URI never leaves the root
      ([process_request_uri_clean], [unsafe_uri_safe]).
    - Against specifications: a URI is rewritten to the decoded segments of
      its path with "." and ".." removed ([process_request_uri_rewrites]);
      the chunked filter's buffers hold the body the transfer coding encodes
      ([request_body_chunked_decoded]); numbers, base64, UTF-8 and dates are
      accepted exactly when they are well-formed and denote the right value
      ([base64_decode_exact], [parse_http_time_exact], ...); the Huffman
      decoder decodes exactly the code of RFC 7541 ([huff_decode_exact]), the
      dynamic table is the list of its section 2.3 ([hpack_table_refines]).
    - Data structures: insertion and deletion keep the red-black tree sorted,
      balanced and well linked ([rbtree_insert_correct],
      [rbtree_delete_correct]); timers fire in order, all of those that are
      due and no others ([expire_timers_fires], [add_timer_correct]); a queue
      is sorted stably ([queue_sort_correct]); the radix trees are maps from
      prefixes with the longest prefix as the answer ([radix32_refines],
      [radix128_refines], [radix_create_ok]).
    - Addresses: a list of CIDR blocks matches exactly the addresses with one
      of the prefixes its texts give ([cidr_match_prefixes]); addresses and
      ports are read back from the texts that are written, and which ones are
      not ([inet_text_round_trip], [addr_port_round_trip]).
    - Authentication: the field's product is the one of polynomials and GHASH
      evaluates one ([gf128_ring], [ghash_stream]); decryption accepts exactly
      what encryption gives, at once and in pieces ([sm4_gcm_accepts],
      [sm4_gcm_stream]).
    - Balancing: over a round every server is picked as often as its weight
      says ([round_robin_fair]), and the weights and connection counts stay
      consistent ([round_robin_invariant]), for weights whose sum times the
      number of servers is below 2^63: then they never overflow.
    - SM3 is the function of GB/T 32905 ([sm3_stream]), decryption inverts
      encryption ([sm4_decrypt_encrypt]).  The limbs of SM2 compute exactly
      modulo the prime and the order ([sm2_fp_exact], [sm2_fn_exact]), which
      are primes ([sm2_inverses]); the points compute the group of the curve
      ([sm2_point_refines_group], [sm2_mul_refines], [sm2_point_ops_encode]),
      and octets of points round trip ([sm2_octets_round_trip]).
    - Round trips: base64, escaping, hexadecimal, dates, HPACK strings and
      Huffman code, SM4 and its modes, points.

    * Fuel and bounds

    Loops over a buffer recurse on its length.  [ngx_http_parse_complex_uri]
    visits a byte once, or twice for the last digit of an escape: [cu_fuel]
    is twice the URI's length and three, and [process_request_uri_rewrites]
    shows a result for every input.  The loops of the body filters call the
    parser, which may consume nothing once per buffer: the length of the
    buffer and one is enough, which [request_body_chunked_decoded] and
    [discard_loop_correct] show by giving their result.  [ctr_loop] and
    [utf8_count] take at least a byte per iteration, and so do the loops over
    a date, a list of header values ([multi_line_fuel]) and a
    string that is searched.  A walk over linked structs has as many steps as
    there are structs and one ([room]); the walks of a radix tree have as
    many as a key has bits and one.  The loop over a format recurses on it, so
    [vslprintf_in_bounds] has a result for all arguments that suit the format.  An HPACK integer is written in at most
    ten octets.  The fast reduction of SM2 subtracts the prime at most 14
    times, the Barrett reduction the order at most twice: [sm2_fp_exact] and
    [sm2_fn_exact] show that this is enough.  The rounds of
    [sm2_point_from_hash] are not bounded by the code, so its fuel is an
    argument.

    * Not modelled

    Connections, sockets, processes, shared memory and its locks, the
    configuration, the modules' handlers, the streams of HTTP/2, the mail and
    stream proxies: what they do is mostly calls of the operating system and
    of each other through function pointers.  Pools, lists, arrays, hash
    tables and the slab allocator are seen only through the answers that
    they give.  Of GmSSL, the other ciphers and hashes, pairings (SM9),
    ASN.1, certificates, CMS and TLS are left out.  The group law of the
    curve is a definition here: that it is associative is not proved, so
    [smul] is double-and-add and not an iterated sum.  The demonstration
    programs around libev and the documents have no logic of their own. *)
From Stdlib Require Export ZArith Lia String Ascii List Bool.
From stdpp Require Export base list numbers tactics.

#[global] Open Scope Z_scope.

(** ** Characters and bytes *)

(** [chr "A"] is the code of the character, as a numeral. *)
Notation "'chr' c" :=
  (ltac:(let v := eval vm_compute in (Z.of_N (N_of_ascii c%char)) in exact v))
  (at level 1, c at level 0, only parsing).

(** [str "GET"] is the list of the codes of a string's characters. *)
Notation "'str' s" :=
  (ltac:(let v := eval vm_compute in
           (List.map (fun c => Z.of_N (N_of_ascii c)) (list_ascii_of_string s%string)) in
         exact v))
  (at level 1, s at level 0, only parsing).

Abbreviation CR := 13 (only parsing).
Abbreviation LF := 10 (only parsing).
Abbreviation DQUOTE := 34 (only parsing).

Definition byte (b : Z) : Prop := 0 <= b < 256.

(** Return codes of [ngx_core.h]. *)
Definition NGX_OK : Z := 0.
Definition NGX_ERROR : Z := -1.
Definition NGX_BUSY : Z := -3.
Definition NGX_AGAIN : Z := -2.
Definition NGX_DONE : Z := -4.
Definition NGX_DECLINED : Z := -5.

(** Machine limits of the 64-bit Unix configuration; the four types have the
    same greatest value. *)
Definition NGX_MAX_INT_T_VALUE : Z := 9223372036854775807.
Definition NGX_MAX_SIZE_T_VALUE : Z := 9223372036854775807.
Definition NGX_MAX_OFF_T_VALUE : Z := 9223372036854775807.
Definition NGX_MAX_TIME_T_VALUE : Z := 9223372036854775807.

(** Unsigned 64-bit words ([ngx_uint_t], [size_t]) wrap around. *)
Definition u64 (z : Z) : Z := z mod 2 ^ 64.

(** Signed ones ([ngx_int_t], [time_t]) as the processor computes them; C leaves
    an overflow open, and where it matters the theorems exclude it. *)
Definition s64 (z : Z) : Z := (z + 2 ^ 63) mod 2 ^ 64 - 2 ^ 63.

Lemma s64_small z : - 2 ^ 63 <= z < 2 ^ 63 -> s64 z = z.
Proof. intros H. unfold s64. rewrite Z.mod_small; lia. Qed.

Lemma u64_small z : 0 <= z < 2 ^ 64 -> u64 z = z.
Proof. apply Z.mod_small. Qed.

(** The number a big-endian sequence of digits denotes. *)
Definition horner (base : Z) (l : list Z) : Z := List.fold_left (fun acc d => acc * base + d) l 0.

(** ** Reflection over the 256 byte values *)

Definition all_bytes : list Z := List.map Z.of_nat (List.seq 0 256).

Definition forall_bytes (P : Z -> bool) : bool := List.forallb P all_bytes.

(** ** Memory

    The address space a parser works on: a byte at every address.  Pointers
    are addresses and [NULL] is 0.  Safety is stated as which addresses a
    result depends on, and which addresses an operation changes. *)

Definition mem : Type := Z -> Z.

Definition NULL : Z := 0.

Definition upd (M : mem) (a v : Z) : mem := fun x => if x =? a then v else M x.

(** The [n] bytes that start at [a]. *)
Fixpoint bytes_at (M : mem) (a : Z) (n : nat) : list Z :=
  match n with
  | O => []
  | S n' => M a :: bytes_at M (a + 1) n'
  end.

(** The bytes of the half-open range [a, b). *)
Definition range (M : mem) (a b : Z) : list Z := bytes_at M a (Z.to_nat (b - a)).

(** Memory [M] holds the bytes [l] from address [a] on. *)
Fixpoint holds (M : mem) (a : Z) (l : list Z) : Prop :=
  match l with
  | [] => True
  | c :: l' => M a = c /\ holds M (a + 1) l'
  end.

(** [M] after the bytes [l] were stored from [a] on. *)
Fixpoint write (M : mem) (a : Z) (l : list Z) : mem :=
  match l with
  | [] => M
  | c :: l' => write (upd M a c) (a + 1) l'
  end.

(** [ngx_memmove(dst, src, n)] *)
Definition memmove (M : mem) (dst src : Z) (n : nat) : mem := write M dst (bytes_at M src n).

(** [while (n--) { *dst++ = *src++; }]: a byte at a time, in ascending order. *)
Fixpoint copy_forward (M : mem) (dst src : Z) (n : nat) : mem :=
  match n with
  | O => M
  | S n' => copy_forward (upd M dst (M src)) (dst + 1) (src + 1) n'
  end.

(** A memory with [l] at [a] and zeros elsewhere. *)
Definition mem_of (a : Z) (l : list Z) : mem :=
  fun x => if a <=? x then List.nth (Z.to_nat (x - a)) l 0 else 0.

Definition agree (M M' : mem) (a b : Z) : Prop := forall x, a <= x < b -> M x = M' x.

(** [ngx_buf_t]: the unread part of a buffer is [pos, last). *)
Record ngx_buf := mk_buf { pos : Z; last : Z }.

(** [ngx_str_t] *)
Record ngx_str := mk_str { len : Z; data : Z }.

(** ** Byte machines

    The loop shared by the character-at-a-time parsers:
    [for (p = b->pos; p < b->last; p++) { ch = *p; switch (state) ... }].
    A step either continues with a new state or leaves the loop with a value,
    without moving past the current byte. *)

Inductive step_out (St X : Type) :=
| Next (s : St)
| Stop (x : X).

Inductive run_out (St X : Type) :=
| Ran (s : St) (p : Z)
| Halted (x : X) (p : Z).

Arguments Next {St X} s.
Arguments Stop {St X} x.
Arguments Ran {St X} s p.
Arguments Halted {St X} x p.

(** How a parser's body leaves its loop: by [goto done] or by [return rc]. *)
Inductive leave (R : Type) :=
| Done (r : R)
| Return (rc : Z) (r : R).

Arguments Done {R} r.
Arguments Return {R} rc r.

Section Machine.
Context {St X : Type} (step : mem -> Z -> St -> step_out St X).

Fixpoint run (n : nat) (M : mem) (p : Z) (s : St) : run_out St X :=
  match n with
  | O => Ran s p
  | S n' =>
      match step M p s with
      | Next s' => run n' M (p + 1) s'
      | Stop x => Halted x p
      end
  end.

Definition run_buf (M : mem) (b : ngx_buf) (s : St) : run_out St X :=
  run (Z.to_nat (last b - pos b)) M (pos b) s.

End Machine.

(** ** Resumable parsers

    The contract between a parser and the read handlers that call it: a parse
    that runs out of input answers [NGX_AGAIN] with the buffer consumed, and
    calling it again once more bytes have been appended to the same memory
    gives what one call over all the bytes gives.  [ok] is what the parser's
    saved state satisfies and [view] what the caller observes of a result. *)
Class Resumable {R V : Type} (parse : mem -> R -> ngx_buf -> Z * R * ngx_buf)
  (ok : R -> Prop) (view : Z * R * ngx_buf -> V) : Prop := {
  again_pos M r a b r' b' :
    a <= b -> parse M r (mk_buf a b) = (NGX_AGAIN, r', b') -> b' = mk_buf b b;
  again_ok M r b r' b' : ok r -> parse M r b = (NGX_AGAIN, r', b') -> ok r';
  again_resume M r a m b r' b' :
    ok r -> a <= m <= b ->
    parse M r (mk_buf a m) = (NGX_AGAIN, r', b') ->
    view (parse M r' (mk_buf m b)) = view (parse M r (mk_buf a b));
  halt_stable M r a m b rc r' b' :
    ok r -> a <= m <= b ->
    parse M r (mk_buf a m) = (rc, r', b') -> rc <> NGX_AGAIN ->
    view (rc, r', b') = view (parse M r (mk_buf a b))
}.

(** The read handlers' loop: parse, and on [NGX_AGAIN] receive some more bytes
    into the buffer and parse again.  [arrivals] are the sizes received. *)
Fixpoint feed {R : Type} (parse : mem -> R -> ngx_buf -> Z * R * ngx_buf)
  (M : mem) (r : R) (b : ngx_buf) (arrivals : list nat) : Z * R * ngx_buf :=
  match parse M r b with
  | (rc, r', b') =>
      if rc =? NGX_AGAIN then
        match arrivals with
        | [] => (rc, r', b')
        | n :: rest => feed parse M r' (mk_buf (pos b') (last b' + Z.of_nat n)) rest
        end
      else (rc, r', b')
  end.

Definition total (arrivals : list nat) : Z := Z.of_nat (List.list_sum arrivals).

(** ** Lemmas *)

Lemma forall_bytes_spec (P : Z -> bool) :
  forall_bytes P = true -> forall b, byte b -> P b = true.
Proof.
  unfold forall_bytes, byte. intros H b Hb.
  rewrite List.forallb_forall in H. apply H.
  unfold all_bytes. apply List.in_map_iff.
  exists (Z.to_nat b). split; [lia |]. apply List.in_seq. lia.
Qed.

(** Solves a goal [forall b, byte b -> ...] about closed boolean functions:
    the hypothesis is the computed check over the 256 values. *)
Ltac byte_cases f := apply (forall_bytes_spec f); vm_compute; reflexivity.

(** Positional numbers. *)
Lemma horner_acc base acc l :
  List.fold_left (fun acc d => acc * base + d) l acc =
  acc * base ^ Z.of_nat (List.length l) + horner base l.
Proof.
  unfold horner. revert acc. induction l as [|d l IH]; intros acc; cbn [List.fold_left List.length]; [lia |].
  rewrite (IH (acc * base + d)), (IH (0 * base + d)), Nat2Z.inj_succ, Z.pow_succ_r by lia. ring.
Qed.

Lemma horner_cons base d l :
  horner base (d :: l) = d * base ^ Z.of_nat (List.length l) + horner base l.
Proof. unfold horner at 1. cbn [List.fold_left]. now rewrite horner_acc. Qed.

(** The test of one bit. *)
Lemma land_bit_zero a i : 0 <= i -> (Z.land a (Z.shiftl 1 i) =? 0) = negb (Z.testbit a i).
Proof.
  intros Hi. destruct (Z.testbit a i) eqn:Hb; cbn [negb].
  - apply Z.eqb_neq. intros E. assert (Z.testbit (Z.land a (Z.shiftl 1 i)) i = true) as Q.
    { rewrite Z.land_spec, Hb, Z.shiftl_spec, Z.sub_diag by lia. done. }
    rewrite E, Z.bits_0 in Q. done.
  - apply Z.eqb_eq. apply Z.bits_inj'. intros k Hk. rewrite Z.land_spec, Z.bits_0, Z.shiftl_spec by lia.
    destruct (Z.eq_dec k i) as [-> | Hne]; [now rewrite Hb |].
    assert (Z.testbit 1 (k - i) = false) as ->; [| now rewrite andb_false_r].
    destruct (Z.ltb_spec (k - i) 0); [now apply Z.testbit_neg_r |]. apply (Z.bits_above_log2 1); cbn; lia.
Qed.

Lemma horner_range base l :
  0 < base -> Forall (fun d => 0 <= d < base) l ->
  0 <= horner base l < base ^ Z.of_nat (List.length l).
Proof.
  intros Hb H. induction H as [|d l Hd _ IH]; [cbn; lia |].
  rewrite horner_cons. cbn [List.length]. rewrite Nat2Z.inj_succ, Z.pow_succ_r by lia. nia.
Qed.

Lemma horner_inj base l l' :
  0 < base -> Forall (fun d => 0 <= d < base) l -> Forall (fun d => 0 <= d < base) l' ->
  List.length l = List.length l' -> horner base l = horner base l' -> l = l'.
Proof.
  intros Hb H. revert l'. induction H as [|d l Hd H IH]; intros [|d' l'] H' Hlen E; try done.
  apply Forall_cons_1 in H' as [Hd' H']. injection Hlen as Hlen. rewrite !horner_cons, <- Hlen in E.
  pose proof (horner_range base l Hb H). pose proof (horner_range base l' Hb H') as G. rewrite <- Hlen in G.
  assert (d = d') as -> by nia. f_equal. apply IH; [done | done | lia].
Qed.

(** A disjunction of disjoint bits is a sum. *)
Lemma lor_shiftl_add a b k : 0 <= k -> 0 <= b < 2 ^ k -> Z.lor (Z.shiftl a k) b = a * 2 ^ k + b.
Proof.
  intros Hk Hb. rewrite <- Z.add_lor_land, Z.shiftl_mul_pow2 by done.
  replace (Z.land (a * 2 ^ k) b) with 0; [lia |]. symmetry. apply Z.bits_inj'. intros i Hi.
  rewrite Z.land_spec, Z.bits_0. destruct (Z.ltb_spec i k).
  - now rewrite Z.mul_pow2_bits_low.
  - rewrite <- (Z.mod_small b (2 ^ k)), Z.mod_pow2_bits_high, andb_false_r by lia. done.
Qed.

Lemma land_low a k : 0 <= k -> Z.land a (Z.ones k) = a mod 2 ^ k.
Proof. intros. now rewrite Z.land_ones. Qed.

Lemma length_bytes_at M a n : List.length (bytes_at M a n) = n.
Proof. revert a. induction n; intros; simpl; auto. Qed.

Lemma bytes_at_app M a n m :
  bytes_at M a (n + m) = bytes_at M a n ++ bytes_at M (a + Z.of_nat n) m.
Proof.
  revert a. induction n as [|n IH]; intros a; simpl.
  - now rewrite Z.add_0_r.
  - rewrite IH. do 3 f_equal. lia.
Qed.

Lemma bytes_at_ext M M' a n :
  agree M M' a (a + Z.of_nat n) -> bytes_at M a n = bytes_at M' a n.
Proof.
  unfold agree. revert a. induction n as [|n IH]; intros a H; simpl; [done |].
  rewrite (H a) by lia. f_equal. apply IH. intros x Hx. apply H. lia.
Qed.

Lemma range_app M a b c :
  a <= b <= c -> range M a c = range M a b ++ range M b c.
Proof.
  intros. unfold range.
  replace (Z.to_nat (c - a)) with (Z.to_nat (b - a) + Z.to_nat (c - b))%nat by lia.
  rewrite bytes_at_app. do 2 f_equal. lia.
Qed.

Lemma range_snoc M a b :
  a <= b -> range M a (b + 1) = range M a b ++ [M b].
Proof.
  intros. rewrite (range_app M a b (b + 1)) by lia. f_equal.
  unfold range. now replace (Z.to_nat (b + 1 - b)) with 1%nat by lia.
Qed.

Lemma range_cons M a b : a < b -> range M a b = M a :: range M (a + 1) b.
Proof.
  intros. unfold range.
  now replace (Z.to_nat (b - a)) with (S (Z.to_nat (b - (a + 1)))) by lia.
Qed.

Lemma range_nil M a b : b <= a -> range M a b = [].
Proof. intros. unfold range. now replace (Z.to_nat (b - a)) with 0%nat by lia. Qed.

Lemma length_range M a b : List.length (range M a b) = Z.to_nat (b - a).
Proof. apply length_bytes_at. Qed.

Lemma range_ext M M' a b : agree M M' a b -> range M a b = range M' a b.
Proof.
  intros H. destruct (Z_lt_le_dec a b).
  - apply bytes_at_ext. intros x Hx. apply H. lia.
  - now rewrite !range_nil by lia.
Qed.

Lemma range_lookup M a b i :
  (i < Z.to_nat (b - a))%nat -> range M a b !! i = Some (M (a + Z.of_nat i)).
Proof.
  unfold range. generalize (Z.to_nat (b - a)) as n. intros n. revert a i.
  induction n as [|n IH]; intros a i Hi; [lia |].
  destruct i as [|i]; simpl; [do 2 f_equal; lia |].
  rewrite IH by lia. do 2 f_equal. lia.
Qed.

Lemma agree_sub M M' a b c d : agree M M' a b -> a <= c -> d <= b -> agree M M' c d.
Proof. unfold agree. intros H ? ? x ?. apply H. lia. Qed.

Lemma agree_sym M M' a b : agree M M' a b -> agree M' M a b.
Proof. unfold agree. intros H x Hx. now rewrite H. Qed.

Lemma agree_upd M a b x v : ~ (a <= x < b) -> agree (upd M x v) M a b.
Proof. unfold agree, upd. intros H y Hy. destruct (Z.eqb_spec y x); [lia | done]. Qed.

Lemma upd_eq M a v : upd M a v a = v.
Proof. unfold upd. now rewrite Z.eqb_refl. Qed.

Lemma upd_ne M a v x : x <> a -> upd M a v x = M x.
Proof. unfold upd. intros. destruct (Z.eqb_spec x a); [lia | done]. Qed.

Lemma agree_trans M1 M2 M3 a b : agree M1 M2 a b -> agree M2 M3 a b -> agree M1 M3 a b.
Proof. unfold agree. intros H1 H2 x Hx. now rewrite H1, H2. Qed.

(** A store changes no byte outside the stored range. *)
Lemma write_outside M a l x :
  x < a \/ a + Z.of_nat (List.length l) <= x -> write M a l x = M x.
Proof.
  revert M a. induction l as [|c l IH]; intros M a H; simpl in *; [done |].
  rewrite IH, upd_ne by lia. done.
Qed.

Lemma write_app M a l1 l2 :
  write M a (l1 ++ l2) = write (write M a l1) (a + Z.of_nat (List.length l1)) l2.
Proof.
  revert M a. induction l1 as [|c l1 IH]; intros M a; cbn [List.app write List.length].
  - now rewrite Z.add_0_r.
  - rewrite IH. f_equal. lia.
Qed.

Lemma agree_write M a l b c :
  c <= a \/ a + Z.of_nat (List.length l) <= b -> agree (write M a l) M b c.
Proof. intros H x Hx. apply write_outside. lia. Qed.

Lemma range_write M a l : range (write M a l) a (a + Z.of_nat (List.length l)) = l.
Proof.
  revert M a. induction l as [|c l IH]; intros M a; simpl List.length; [now rewrite range_nil by lia |].
  rewrite range_cons by lia. simpl write. rewrite write_outside, upd_eq by lia. f_equal.
  replace (a + Z.of_nat (S (List.length l))) with (a + 1 + Z.of_nat (List.length l)) by lia.
  apply IH.
Qed.

(** Copying downwards in ascending order is [memmove] even when the ranges
    overlap. *)
Lemma copy_forward_memmove M dst src n :
  dst <= src -> copy_forward M dst src n = memmove M dst src n.
Proof.
  unfold memmove. revert M dst src. induction n as [|n IH]; intros M dst src H; simpl; [done |].
  rewrite IH by lia. f_equal. apply bytes_at_ext, agree_upd. lia.
Qed.

Lemma range_upd_snoc M a b v :
  a <= b -> range (upd M b v) a (b + 1) = range M a b ++ [v].
Proof.
  intros. rewrite range_snoc, upd_eq by lia. f_equal.
  apply range_ext, agree_upd. lia.
Qed.

Lemma holds_app M a l1 l2 :
  holds M a (l1 ++ l2) <-> holds M a l1 /\ holds M (a + Z.of_nat (List.length l1)) l2.
Proof.
  revert a. induction l1 as [|c l1 IH]; intros a; simpl.
  - rewrite Z.add_0_r. tauto.
  - rewrite IH. replace (a + 1 + Z.of_nat (List.length l1)) with
      (a + Z.of_nat (S (List.length l1))) by lia. tauto.
Qed.

Lemma holds_lookup M a l i c :
  holds M a l -> l !! i = Some c -> M (a + Z.of_nat i) = c.
Proof.
  revert a i. induction l as [|d l IH]; intros a i H Hi; [done |].
  destruct H as [H1 H2]. destruct i as [|i]; simpl in Hi.
  - simplify_eq. now rewrite Z.add_0_r.
  - rewrite <- (IH _ _ H2 Hi). f_equal. lia.
Qed.

Lemma holds_range M a b l :
  holds M a l -> b = a + Z.of_nat (List.length l) -> range M a b = l.
Proof.
  intros H ->. unfold range.
  replace (Z.to_nat _) with (List.length l) by lia.
  revert a H. induction l as [|c l IH]; intros a; simpl; [done |].
  intros [-> H]. f_equal. now apply IH.
Qed.

Lemma range_holds M a b : holds M a (range M a b).
Proof.
  unfold range. generalize (Z.to_nat (b - a)) as n. intros n. revert a.
  induction n; simpl; auto.
Qed.

Lemma mem_of_holds a l : holds (mem_of a l) a l.
Proof.
  assert (G : forall l2 l1, holds (mem_of a (l1 ++ l2)) (a + Z.of_nat (List.length l1)) l2).
  { induction l2 as [|c l2 IH]; intros l1; simpl; [done |]. split.
    - unfold mem_of. destruct (Z.leb_spec a (a + Z.of_nat (List.length l1))); [|lia].
      replace (Z.to_nat _) with (List.length l1) by lia. now rewrite List.nth_middle.
    - specialize (IH (l1 ++ [c])). rewrite <- app_assoc, List.length_app in IH.
      simpl in IH. replace (a + _ + 1) with (a + Z.of_nat (List.length l1 + 1)) by lia.
      exact IH. }
  specialize (G l []). simpl in G. now rewrite Z.add_0_r in G.
Qed.

Lemma mem_of_byte a l x :
  List.forallb (fun c => (0 <=? c) && (c <? 256)) l = true -> byte (mem_of a l x).
Proof.
  unfold mem_of, byte. intros H. destruct (a <=? x); [|done]. rewrite List.forallb_forall in H.
  destruct (Nat.lt_ge_cases (Z.to_nat (x - a)) (List.length l)) as [Hx | Hx].
  - specialize (H _ (List.nth_In l 0 Hx)). lia.
  - rewrite List.nth_overflow by done. done.
Qed.

Section MachineFacts.
Context {St X : Type} (step : mem -> Z -> St -> step_out St X).

(** Running over [n + m] bytes is running over [n] bytes and resuming: what
    makes a parser independent of how its input is cut into buffers. *)
Lemma run_plus n m M p s :
  run step (n + m) M p s =
  match run step n M p s with
  | Ran s' p' => run step m M p' s'
  | Halted x p' => Halted x p'
  end.
Proof.
  revert p s. induction n as [|n IH]; intros p s; simpl; [done |].
  destruct (step M p s); [apply IH | done].
Qed.

Lemma run_ran_pos n M p s s' p' :
  run step n M p s = Ran s' p' -> p' = p + Z.of_nat n.
Proof.
  revert p s. induction n as [|n IH]; intros p s; simpl.
  - intros; simplify_eq. lia.
  - destruct (step M p s); [|done]. intros H%IH. lia.
Qed.

(** Rule induction for the loop: an invariant that every continuing step
    keeps holds where the loop ends, whichever way it ends. *)
Lemma run_invariant (I : Z -> St -> Prop) n M p s :
  I p s ->
  (forall q t t', p <= q < p + Z.of_nat n -> I q t -> step M q t = Next t' -> I (q + 1) t') ->
  match run step n M p s with
  | Ran s' p' => I p' s' /\ p' = p + Z.of_nat n
  | Halted x q => exists t, I q t /\ step M q t = Stop x /\ p <= q < p + Z.of_nat n
  end.
Proof.
  revert p s. induction n as [|n IH]; intros p s HI Hstep; simpl.
  - split; [done | lia].
  - destruct (step M p s) as [t | x] eqn:E.
    + assert (HI' : I (p + 1) t) by (eapply Hstep; eauto; lia).
      assert (Hk : forall q u u', p + 1 <= q < p + 1 + Z.of_nat n -> I q u ->
                     step M q u = Next u' -> I (q + 1) u')
        by (intros q u u' Hq; apply Hstep; lia).
      specialize (IH (p + 1) t HI' Hk).
      destruct (run step n M (p + 1) t) as [s' p' | y q].
      * destruct IH as [? ->]. split; [done | lia].
      * destruct IH as (u & ? & ? & ?). exists u. repeat split; auto; lia.
    + exists s. repeat split; auto; lia.
Qed.

(** The loop's result depends only on the memory its steps read. *)
Lemma run_ext (I : Z -> St -> Prop) n M M' p s :
  I p s ->
  (forall q t t', p <= q < p + Z.of_nat n -> I q t -> step M q t = Next t' -> I (q + 1) t') ->
  (forall q t, p <= q < p + Z.of_nat n -> I q t -> step M q t = step M' q t) ->
  run step n M p s = run step n M' p s.
Proof.
  revert p s. induction n as [|n IH]; intros p s HI Hk Heq; simpl; [done |].
  rewrite <- (Heq p s) by (auto; lia).
  destruct (step M p s) as [t|] eqn:E; [|done].
  apply IH.
  - eapply Hk; eauto. lia.
  - intros q u u' Hq. apply Hk. lia.
  - intros q u Hq. apply Heq. lia.
Qed.

Lemma run_halted n M p s x q :
  run step n M p s = Halted x q ->
  exists t, step M q t = Stop x /\ p <= q < p + Z.of_nat n.
Proof.
  intros E. pose proof (run_invariant (fun _ _ => True) n M p s I ltac:(auto)) as H.
  rewrite E in H. destruct H as (t & _ & ? & ?). eauto.
Qed.

Lemma run_next n M p s s' :
  step M p s = Next s' -> run step (S n) M p s = run step n M (p + 1) s'.
Proof. simpl. now intros ->. Qed.

(** A stretch of bytes on which the machine stays in one state. *)
Lemma run_stay n k M p s :
  (forall q, p <= q < p + Z.of_nat k -> step M q s = Next s) ->
  run step (k + n) M p s = run step n M (p + Z.of_nat k) s.
Proof.
  revert p. induction k as [|k IH]; intros p H; simpl.
  - now rewrite Z.add_0_r.
  - rewrite (H p) by lia. rewrite IH; [f_equal; lia |].
    intros q Hq. apply H. lia.
Qed.

(** A stretch of bytes that each update the state by [f]. *)
Lemma run_fold (f : St -> Z -> St) n l M p s :
  holds M p l ->
  (forall i c t, l !! i = Some c ->
     t = List.fold_left f (take i l) s ->
     step M (p + Z.of_nat i) t = Next (f t c)) ->
  run step (List.length l + n) M p s =
  run step n M (p + Z.of_nat (List.length l)) (List.fold_left f l s).
Proof.
  revert p s. induction l as [|c l IH]; intros p s Hl H; simpl.
  - now rewrite Z.add_0_r.
  - destruct Hl as [Hc Hl].
    assert (E : step M p s = Next (f s c)).
    { rewrite <- (Z.add_0_r p). now apply (H 0%nat). }
    rewrite E, IH; [f_equal; lia | done |].
    intros i d t Hi Ht. specialize (H (S i) d t Hi Ht).
    rewrite <- H. f_equal. lia.
Qed.

(** Resuming with more bytes appended to the same buffer. *)
Lemma run_buf_resume M a m b s s' :
  a <= m <= b ->
  run_buf step M (mk_buf a m) s = Ran s' m ->
  run_buf step M (mk_buf a b) s = run_buf step M (mk_buf m b) s'.
Proof.
  unfold run_buf. simpl. intros Hm H.
  replace (Z.to_nat (b - a)) with (Z.to_nat (m - a) + Z.to_nat (b - m))%nat by lia.
  rewrite run_plus, H. done.
Qed.

Lemma run_buf_halt M a m b s x q :
  a <= m <= b ->
  run_buf step M (mk_buf a m) s = Halted x q ->
  run_buf step M (mk_buf a b) s = Halted x q.
Proof.
  unfold run_buf. simpl. intros Hm H.
  replace (Z.to_nat (b - a)) with (Z.to_nat (m - a) + Z.to_nat (b - m))%nat by lia.
  rewrite run_plus, H. done.
Qed.

End MachineFacts.

(** However the input is cut into arrivals, the read loop gives what a single
    call over all of it gives. *)
Lemma feed_whole `{Resumable R V parse ok view} M r a m arrivals :
  ok r -> a <= m ->
  view (feed parse M r (mk_buf a m) arrivals) =
  view (parse M r (mk_buf a (m + total arrivals))).
Proof.
  unfold total. revert r a m. induction arrivals as [|n rest IH]; intros r a m Hok Ham; simpl.
  - rewrite Z.add_0_r. destruct (parse M r (mk_buf a m)) as [[rc r'] b'].
    now destruct (rc =? NGX_AGAIN).
  - destruct (parse M r (mk_buf a m)) as [[rc r'] b'] eqn:E.
    destruct (Z.eqb_spec rc NGX_AGAIN) as [-> | Hne].
    + pose proof (again_pos _ _ _ _ _ _ Ham E) as ->. simpl.
      assert (Hok' : ok r') by (eapply again_ok; eauto).
      rewrite IH by (auto; lia).
      replace (m + Z.of_nat n + Z.of_nat (list_sum rest))
        with (m + Z.of_nat (n + list_sum rest)) by lia.
      eapply again_resume; [exact Hok | lia | exact E].
    + eapply halt_stable; eauto. lia.
Qed.

(** Stepping along known bytes: [run] over [length l + n] bytes when [l] is in
    memory, one byte or one stretch at a time. *)
Section Walk.
Context {St X : Type} (step : mem -> Z -> St -> step_out St X).

Lemma walk_cons n (c : Z) l M p s s' :
  step M p s = Next s' ->
  run step (List.length (c :: l) + n) M p s = run step (List.length l + n) M (p + 1) s'.
Proof. simpl. now intros ->. Qed.

Lemma walk_app n (l1 l2 : list Z) M p s :
  run step (List.length (l1 ++ l2) + n) M p s =
  run step (List.length l1 + (List.length l2 + n)) M p s.
Proof. rewrite List.length_app. f_equal. lia. Qed.

(** A stretch of bytes during which the state stays in [I], which may depend
    on the position. *)
Lemma walk_inv_at (I : Z -> St -> Prop) n l M p s :
  holds M p l -> I p s ->
  (forall q t, p <= q < p + Z.of_nat (List.length l) -> In (M q) l -> I q t ->
     exists t', step M q t = Next t' /\ I (q + 1) t') ->
  exists s', I (p + Z.of_nat (List.length l)) s' /\
    run step (List.length l + n) M p s = run step n M (p + Z.of_nat (List.length l)) s'.
Proof.
  revert p s. induction l as [|c l IH]; intros p s Hl HI Hstep; simpl.
  - exists s. now rewrite Z.add_0_r.
  - destruct Hl as [Hc Hl]. simpl in Hstep.
    destruct (Hstep p s) as (t & Et & It); [lia | now left; rewrite Hc | done |].
    destruct (IH (p + 1) t Hl It) as (s' & Hs' & E).
    + intros q u Hq Hin Hu. apply Hstep; [lia | now right | done].
    + exists s'. replace (p + _) with (p + 1 + Z.of_nat (List.length l)) by lia.
      split; [done |]. now rewrite Et, E.
Qed.

Lemma walk_inv (I : St -> Prop) n l M p s :
  holds M p l -> I s ->
  (forall q t, p <= q < p + Z.of_nat (List.length l) -> In (M q) l -> I t ->
     exists t', step M q t = Next t' /\ I t') ->
  exists s', I s' /\
    run step (List.length l + n) M p s = run step n M (p + Z.of_nat (List.length l)) s'.
Proof. apply (walk_inv_at (fun _ => I)). Qed.

End Walk.

(** [holds] of a concatenation, position by position. *)
Ltac split_holds H :=
  repeat (rewrite holds_app in H; let H1 := fresh H in destruct H as [H1 H]);
  simpl in H; destruct_and? H.

(** Case analysis of a handler's nested conditionals, hypothesis [H] being the
    handler's result; [cases_of_eq] keeps what each condition says. *)
Ltac cases_of H :=
  repeat match type of H with
  | (if ?b then _ else _) = _ => destruct b
  | (match ?x with _ => _ end) = _ => destruct x
  end.

Ltac cases_of_eq H :=
  repeat match type of H with
  | (if ?b then _ else _) = _ => destruct b eqn:?
  | (match ?x with _ => _ end) = _ => destruct x eqn:?
  end.

(** ** Byte machines are resumable

    A parser that loads its state from the request, runs a byte machine over
    the buffer and either saves the state (out of input) or finishes.  The
    saved request may differ from the one in the loop in the fields that hold
    the saved state, hence the relation [eqv] the steps must respect. *)
Section MachineParser.
Context {St X R V : Type}.
Context (step : mem -> Z -> St -> step_out St X).
Context (load : R -> St) (save : St -> R) (fin : X -> Z -> ngx_buf -> Z * R * ngx_buf).
Context (view : Z * R * ngx_buf -> V).
Context (eqv : St -> St -> Prop) (eqx : X -> X -> Prop).

Definition machine_parse (M : mem) (r : R) (b : ngx_buf) : Z * R * ngx_buf :=
  match run_buf step M b (load r) with
  | Ran s p => (NGX_AGAIN, save s, mk_buf p (last b))
  | Halted x p => fin x p b
  end.

(** [view] does not see where the buffer ends, only how far it was consumed. *)
Context (step_eqv : forall M p s s', eqv s s' ->
  match step M p s, step M p s' with
  | Next t, Next t' => eqv t t'
  | Stop x, Stop x' => eqx x x'
  | _, _ => False
  end).
Context (load_save : forall s, eqv (load (save s)) s).
Context (eqx_refl : forall M p s x, step M p s = Stop x -> eqx x x).
Context (view_fin : forall x x' p b b', eqx x x' -> view (fin x p b) = view (fin x' p b')).
Context (view_save : forall s s' p e,
  eqv s s' -> view (NGX_AGAIN, save s, mk_buf p e) = view (NGX_AGAIN, save s', mk_buf p e)).
Context (fin_rc : forall M p s x b r' b',
  step M p s = Stop x -> fin x p b <> (NGX_AGAIN, r', b')).

Lemma run_eqv n M p s s' :
  eqv s s' ->
  match run step n M p s, run step n M p s' with
  | Ran t q, Ran t' q' => eqv t t' /\ q = q'
  | Halted x q, Halted x' q' => eqx x x' /\ q = q'
  | _, _ => False
  end.
Proof using step_eqv.
  revert p s s'. induction n as [|n IH]; intros p s s' H; simpl; [done |].
  specialize (step_eqv M p s s' H).
  destruct (step M p s), (step M p s'); try done. now apply IH.
Qed.

Lemma machine_resumable : Resumable machine_parse (fun _ => True) view.
Proof using All.
  constructor; unfold machine_parse.
  - intros M r a b r' b' Hab. destruct (run_buf _ _ _ _) as [s q | x q] eqn:E.
    + intros; simplify_eq. apply run_ran_pos in E. simpl in *. f_equal. lia.
    + intros Hf. apply run_halted in E as (t & Ht & _). exfalso; eapply fin_rc; eauto.
  - done.
  - intros M r a m b r' b' _ Hm E.
    destruct (run_buf step M (mk_buf a m) (load r)) as [s q | x q] eqn:Er.
    2:{ apply run_halted in Er as (t & Ht & _). exfalso; eapply fin_rc; eauto. }
    simplify_eq. pose proof (run_ran_pos _ _ _ _ _ _ _ Er) as Hq. simpl in Hq.
    assert (q = m) as -> by lia.
    rewrite (run_buf_resume step M a m b _ s Hm Er).
    pose proof (run_eqv (Z.to_nat (b - m)) M m _ _ (load_save s)) as G.
    unfold run_buf. simpl.
    destruct (run step _ M m (load (save s))), (run step _ M m s); try done.
    + destruct G as [G ->]. now apply view_save.
    + destruct G as [G ->]. now apply view_fin.
  - intros M r a m b rc r' b' _ Hm E Hrc.
    destruct (run_buf step M (mk_buf a m) (load r)) as [s q | x q] eqn:Er; simplify_eq.
    rewrite (run_buf_halt step M a m b _ x q Hm Er), <- E.
    apply run_halted in Er as (t & Ht & _). eapply view_fin, eqx_refl, Ht.
Qed.

End MachineParser.

Create Rewrite HintDb len.

#[export] Hint Rewrite @List.length_app @List.length_map @List.length_rev length_range
  length_bytes_at : len.

(** ** Trailing padding *)

Lemma repeat_snoc {A} (x : A) n : List.repeat x (S n) = List.repeat x n ++ [x].
Proof. apply List.repeat_cons. Qed.

(** A list is determined by itself padded with any number of [x]. *)
Lemma pad_unique {A} (x : A) l1 l2 a b :
  list.last l1 <> Some x -> list.last l2 <> Some x ->
  l1 ++ List.repeat x a = l2 ++ List.repeat x b -> l1 = l2.
Proof.
  revert b. induction a as [|a IH]; intros [|b] H1 H2; rewrite ?repeat_snoc, ?app_assoc.
  - now rewrite !app_nil_r.
  - simpl. rewrite app_nil_r. intros ->. now rewrite last_snoc in H1.
  - simpl. rewrite app_nil_r. intros <-. now rewrite last_snoc in H2.
  - intros [E _]%List.app_inj_tail. eauto.
Qed.

Lemma holds_repeat M p c k :
  holds M p (List.repeat c k) -> forall q, p <= q < p + Z.of_nat k -> M q = c.
Proof.
  revert p. induction k as [|k IH]; intros p; simpl; [lia |].
  intros [H HM] q Hq. destruct (Z.eq_dec q p) as [-> |]; [done |]. apply (IH (p + 1)); [done | lia].
Qed.

Lemma range_repeat M a b x :
  (forall y, a <= y < b -> M y = x) -> range M a b = List.repeat x (Z.to_nat (b - a)).
Proof.
  unfold range. intros H. assert (G : forall y, a <= y < a + Z.of_nat (Z.to_nat (b - a)) -> M y = x)
    by (intros; apply H; lia).
  clear H. revert G. generalize (Z.to_nat (b - a)) as n. intros n.
  revert a. induction n as [|n IH]; intros a G.
  - done.
  - simpl. rewrite (G a) by lia. f_equal. apply IH. intros. apply G. lia.
Qed.
