(* ===== verification/HttpRequest.v ===== *)
(** The parsing state of an HTTP request.

    The fields of [ngx_http_request_t] (src/http/ngx_http_request.h) that the
    parsers of src/http/ngx_http_parse.c read and write, with one setter per
    field, the return codes and method bits of the parsers, the table [usual]
    of characters that need no attention in a URI, and [ngx_hash]. *)
From S2P Require Import Prelude.

(** ** Codes of ngx_http_request.h *)

Definition NGX_HTTP_LC_HEADER_LEN : Z := 32.

Definition NGX_HTTP_GET : Z := 0x2.
Definition NGX_HTTP_HEAD : Z := 0x4.
Definition NGX_HTTP_POST : Z := 0x8.
Definition NGX_HTTP_PUT : Z := 0x10.
Definition NGX_HTTP_DELETE : Z := 0x20.
Definition NGX_HTTP_MKCOL : Z := 0x40.
Definition NGX_HTTP_COPY : Z := 0x80.
Definition NGX_HTTP_MOVE : Z := 0x100.
Definition NGX_HTTP_OPTIONS : Z := 0x200.
Definition NGX_HTTP_PROPFIND : Z := 0x400.
Definition NGX_HTTP_PROPPATCH : Z := 0x800.
Definition NGX_HTTP_LOCK : Z := 0x1000.
Definition NGX_HTTP_UNLOCK : Z := 0x2000.
Definition NGX_HTTP_PATCH : Z := 0x4000.
Definition NGX_HTTP_TRACE : Z := 0x8000.
Definition NGX_HTTP_CONNECT : Z := 0x10000.

Definition NGX_HTTP_PARSE_HEADER_DONE : Z := 1.
Definition NGX_HTTP_PARSE_INVALID_METHOD : Z := 10.
Definition NGX_HTTP_PARSE_INVALID_REQUEST : Z := 11.
Definition NGX_HTTP_PARSE_INVALID_VERSION : Z := 12.
Definition NGX_HTTP_PARSE_INVALID_09_METHOD : Z := 13.
Definition NGX_HTTP_PARSE_INVALID_HEADER : Z := 14.

(** ** The request *)

(** The parsing fields of [ngx_http_request_t].  Pointers are addresses
    ([NULL] is 0), one-bit fields are booleans, [upstream] records whether
    [r->upstream] is set, and [http_protocol_data] is [r->http_protocol.data]. *)
Record request := mk_request {
  upstream : bool;
  method : Z;
  http_version : Z;
  uri : ngx_str;
  args : ngx_str;
  exten : ngx_str;
  unparsed_uri : ngx_str;
  http_protocol_data : Z;
  complex_uri : bool;
  quoted_uri : bool;
  plus_in_uri : bool;
  empty_path_in_uri : bool;
  invalid_header : bool;
  valid_unparsed_uri : bool;
  state : Z;
  header_hash : Z;
  lowcase_index : Z;
  lowcase_header : list Z;
  header_name_start : Z;
  header_name_end : Z;
  header_start : Z;
  header_end : Z;
  uri_start : Z;
  uri_end : Z;
  uri_ext : Z;
  args_start : Z;
  request_start : Z;
  request_end : Z;
  method_end : Z;
  schema_start : Z;
  schema_end : Z;
  host_start : Z;
  host_end : Z;
  port_end : Z;
  http_minor : Z;
  http_major : Z
}.

(** [upd_field (f r) v r] is [r] with field [f] replaced by [v]. *)
Ltac upd_field old v r :=
  let e := constr:(mk_request
    (upstream r) (method r) (http_version r) (uri r) (args r) (exten r) (unparsed_uri r)
    (http_protocol_data r) (complex_uri r) (quoted_uri r) (plus_in_uri r)
    (empty_path_in_uri r) (invalid_header r) (valid_unparsed_uri r) (state r)
    (header_hash r) (lowcase_index r) (lowcase_header r) (header_name_start r)
    (header_name_end r) (header_start r) (header_end r) (uri_start r) (uri_end r)
    (uri_ext r) (args_start r) (request_start r) (request_end r) (method_end r)
    (schema_start r) (schema_end r) (host_start r) (host_end r) (port_end r) (http_minor
    r) (http_major r)) in
  match eval pattern old in e with
  | ?f _ => let e' := eval cbv beta in (f v) in exact e'
  end.

Definition set_upstream (v : bool) (r : request) : request :=
  ltac:(upd_field (upstream r) v r).
Definition set_method (v : Z) (r : request) : request :=
  ltac:(upd_field (method r) v r).
Definition set_http_version (v : Z) (r : request) : request :=
  ltac:(upd_field (http_version r) v r).
Definition set_uri (v : ngx_str) (r : request) : request :=
  ltac:(upd_field (uri r) v r).
Definition set_args (v : ngx_str) (r : request) : request :=
  ltac:(upd_field (args r) v r).
Definition set_exten (v : ngx_str) (r : request) : request :=
  ltac:(upd_field (exten r) v r).
Definition set_unparsed_uri (v : ngx_str) (r : request) : request :=
  ltac:(upd_field (unparsed_uri r) v r).
Definition set_http_protocol_data (v : Z) (r : request) : request :=
  ltac:(upd_field (http_protocol_data r) v r).
Definition set_complex_uri (v : bool) (r : request) : request :=
  ltac:(upd_field (complex_uri r) v r).
Definition set_quoted_uri (v : bool) (r : request) : request :=
  ltac:(upd_field (quoted_uri r) v r).
Definition set_plus_in_uri (v : bool) (r : request) : request :=
  ltac:(upd_field (plus_in_uri r) v r).
Definition set_empty_path_in_uri (v : bool) (r : request) : request :=
  ltac:(upd_field (empty_path_in_uri r) v r).
Definition set_invalid_header (v : bool) (r : request) : request :=
  ltac:(upd_field (invalid_header r) v r).
Definition set_valid_unparsed_uri (v : bool) (r : request) : request :=
  ltac:(upd_field (valid_unparsed_uri r) v r).
Definition set_state (v : Z) (r : request) : request :=
  ltac:(upd_field (state r) v r).
Definition set_header_hash (v : Z) (r : request) : request :=
  ltac:(upd_field (header_hash r) v r).
Definition set_lowcase_index (v : Z) (r : request) : request :=
  ltac:(upd_field (lowcase_index r) v r).
Definition set_lowcase_header (v : list Z) (r : request) : request :=
  ltac:(upd_field (lowcase_header r) v r).
Definition set_header_name_start (v : Z) (r : request) : request :=
  ltac:(upd_field (header_name_start r) v r).
Definition set_header_name_end (v : Z) (r : request) : request :=
  ltac:(upd_field (header_name_end r) v r).
Definition set_header_start (v : Z) (r : request) : request :=
  ltac:(upd_field (header_start r) v r).
Definition set_header_end (v : Z) (r : request) : request :=
  ltac:(upd_field (header_end r) v r).
Definition set_uri_start (v : Z) (r : request) : request :=
  ltac:(upd_field (uri_start r) v r).
Definition set_uri_end (v : Z) (r : request) : request :=
  ltac:(upd_field (uri_end r) v r).
Definition set_uri_ext (v : Z) (r : request) : request :=
  ltac:(upd_field (uri_ext r) v r).
Definition set_args_start (v : Z) (r : request) : request :=
  ltac:(upd_field (args_start r) v r).
Definition set_request_start (v : Z) (r : request) : request :=
  ltac:(upd_field (request_start r) v r).
Definition set_request_end (v : Z) (r : request) : request :=
  ltac:(upd_field (request_end r) v r).
Definition set_method_end (v : Z) (r : request) : request :=
  ltac:(upd_field (method_end r) v r).
Definition set_schema_start (v : Z) (r : request) : request :=
  ltac:(upd_field (schema_start r) v r).
Definition set_schema_end (v : Z) (r : request) : request :=
  ltac:(upd_field (schema_end r) v r).
Definition set_host_start (v : Z) (r : request) : request :=
  ltac:(upd_field (host_start r) v r).
Definition set_host_end (v : Z) (r : request) : request :=
  ltac:(upd_field (host_end r) v r).
Definition set_port_end (v : Z) (r : request) : request :=
  ltac:(upd_field (port_end r) v r).
Definition set_http_minor (v : Z) (r : request) : request :=
  ltac:(upd_field (http_minor r) v r).
Definition set_http_major (v : Z) (r : request) : request :=
  ltac:(upd_field (http_major r) v r).

(** A zeroed request, as [ngx_pcalloc] returns it, with or without an upstream. *)
Definition request0 (up : bool) : request :=
  mk_request up 0 0 (mk_str 0 NULL) (mk_str 0 NULL) (mk_str 0 NULL) (mk_str 0 NULL) 0 false false false false false false 0 0 0 (List.repeat 0 32) 0 0 0 0 0 0 0 0 0 0 0 0 0 0 0 0 0 0.

(** ** Character classes *)

(** The bitmap of the characters the URI states skip at once (the variant
    without [NGX_WIN32]). *)
Definition usual : list Z :=
  [0x00000000; 0x7fff37d6; 0xffffffff; 0x7fffffff;
   0xffffffff; 0xffffffff; 0xffffffff; 0xffffffff].

(** [usual[ch >> 5] & (1U << (ch & 0x1f))] *)
Definition is_usual (ch : Z) : bool :=
  negb (Z.land (List.nth (Z.to_nat (Z.shiftr ch 5)) usual 0)
               (Z.shiftl 1 (Z.land ch 0x1f)) =? 0).

(** [c = (u_char) (ch | 0x20); c >= 'a' && c <= 'z'] *)
Definition is_alpha (ch : Z) : bool :=
  (chr "a" <=? Z.lor ch 0x20) && (Z.lor ch 0x20 <=? chr "z").

(** [ch >= '0' && ch <= '9'] *)
Definition is_digit (ch : Z) : bool := (chr "0" <=? ch) && (ch <=? chr "9").

(** [c = (u_char) (ch | 0x20); c >= 'a' && c <= 'f'] *)
Definition is_hex_alpha (ch : Z) : bool :=
  (chr "a" <=? Z.lor ch 0x20) && (Z.lor ch 0x20 <=? chr "f").

(** [ngx_hash(key, c)]: [(ngx_uint_t) key * 31 + c], on 64 bits. *)
Definition ngx_hash (key c : Z) : Z := (key * 31 + c) mod 2 ^ 64.
