(* ===== verification/HttpRequestLine.v ===== *)
(** The request line parser, [ngx_http_parse_request_line]
    (src/http/ngx_http_parse.c), one definition per state of its switch.

    A state handler takes the address [p] of the current byte, the byte [ch]
    and the request; [Next] is a [break] out of the switch, [Stop (Return rc)]
    a [return rc] and [Stop Done] the [goto done]. *)
From S2P Require Import Prelude HttpRequest.

Module RequestLine.

(** The enum of the parser's states; [r->state] stores the enum's number. *)
Inductive rl_state :=
| sw_start
| sw_method
| sw_spaces_before_uri
| sw_schema
| sw_schema_slash
| sw_schema_slash_slash
| sw_host_start
| sw_host
| sw_host_end
| sw_host_ip_literal
| sw_port
| sw_after_slash_in_uri
| sw_check_uri
| sw_uri
| sw_http_09
| sw_http_H
| sw_http_HT
| sw_http_HTT
| sw_http_HTTP
| sw_first_major_digit
| sw_major_digit
| sw_first_minor_digit
| sw_minor_digit
| sw_spaces_after_digit
| sw_almost_done.

Definition rl_states : list rl_state :=
  [sw_start; sw_method; sw_spaces_before_uri; sw_schema; sw_schema_slash;
   sw_schema_slash_slash; sw_host_start; sw_host; sw_host_end; sw_host_ip_literal;
   sw_port; sw_after_slash_in_uri; sw_check_uri; sw_uri; sw_http_09; sw_http_H;
   sw_http_HT; sw_http_HTT; sw_http_HTTP; sw_first_major_digit; sw_major_digit;
   sw_first_minor_digit; sw_minor_digit; sw_spaces_after_digit; sw_almost_done].

#[global] Instance rl_state_eq_dec : EqDecision rl_state.
Proof. solve_decision. Defined.

(** The number C gives the enum constant. *)
Definition rl_num (s : rl_state) : Z :=
  match s with
  | sw_start => 0 | sw_method => 1 | sw_spaces_before_uri => 2 | sw_schema => 3
  | sw_schema_slash => 4 | sw_schema_slash_slash => 5 | sw_host_start => 6
  | sw_host => 7 | sw_host_end => 8 | sw_host_ip_literal => 9 | sw_port => 10
  | sw_after_slash_in_uri => 11 | sw_check_uri => 12 | sw_uri => 13
  | sw_http_09 => 14 | sw_http_H => 15 | sw_http_HT => 16 | sw_http_HTT => 17
  | sw_http_HTTP => 18 | sw_first_major_digit => 19 | sw_major_digit => 20
  | sw_first_minor_digit => 21 | sw_minor_digit => 22
  | sw_spaces_after_digit => 23 | sw_almost_done => 24
  end.

Definition rl_of_num (z : Z) : rl_state :=
  List.nth (Z.to_nat z) rl_states sw_start.

Definition rl_out : Type := step_out (rl_state * request) (leave request).

Definition go (s : rl_state) (r : request) : rl_out := Next (s, r).
Definition fail (rc : Z) (r : request) : rl_out := Stop (Return rc r).
Definition done (r : request) : rl_out := Stop (Done r).

(** [(ch < 'A' || ch > 'Z') && ch != '_' && ch != '-'] *)
Definition not_method_char (ch : Z) : bool :=
  ((ch <? chr "A") || (chr "Z" <? ch)) && negb (ch =? chr "_") && negb (ch =? chr "-").

(** [case sw_start] *)
Definition rl_start (p ch : Z) (r : request) : rl_out :=
  let r := set_request_start p r in
  if (ch =? CR) || (ch =? LF) then go sw_start r
  else if not_method_char ch then fail NGX_HTTP_PARSE_INVALID_METHOD r
  else go sw_method r.

(** [m[0] == c0 && m[1] == c1 && ...]: the portable forms of the macros
    [ngx_str3_cmp] to [ngx_str9cmp]. *)
Fixpoint ngx_strcmp_at (M : mem) (m : Z) (cs : list Z) : bool :=
  match cs with
  | [] => true
  | c :: cs' => (M m =? c) && ngx_strcmp_at M (m + 1) cs'
  end.

(** [ngx_str3Ocmp]: the second character is known to be 'O'. *)
Definition ngx_str3Ocmp (M : mem) (m c0 c2 c3 : Z) : bool :=
  (M m =? c0) && (M (m + 2) =? c2) && (M (m + 3) =? c3).

(** [switch (p - m)]: the method of the token [m, p); 0 when no case sets it. *)
Definition rl_method_of (M : mem) (m p : Z) : option Z :=
  if p - m =? 3 then
    if ngx_strcmp_at M m (str "GET") then Some NGX_HTTP_GET
    else if ngx_strcmp_at M m (str "PUT") then Some NGX_HTTP_PUT
    else None
  else if p - m =? 4 then
    if M (m + 1) =? chr "O" then
      if ngx_str3Ocmp M m (chr "P") (chr "S") (chr "T") then Some NGX_HTTP_POST
      else if ngx_str3Ocmp M m (chr "C") (chr "P") (chr "Y") then Some NGX_HTTP_COPY
      else if ngx_str3Ocmp M m (chr "M") (chr "V") (chr "E") then Some NGX_HTTP_MOVE
      else if ngx_str3Ocmp M m (chr "L") (chr "C") (chr "K") then Some NGX_HTTP_LOCK
      else None
    else if ngx_strcmp_at M m (str "HEAD") then Some NGX_HTTP_HEAD
    else None
  else if p - m =? 5 then
    if ngx_strcmp_at M m (str "MKCOL") then Some NGX_HTTP_MKCOL
    else if ngx_strcmp_at M m (str "PATCH") then Some NGX_HTTP_PATCH
    else if ngx_strcmp_at M m (str "TRACE") then Some NGX_HTTP_TRACE
    else None
  else if p - m =? 6 then
    if ngx_strcmp_at M m (str "DELETE") then Some NGX_HTTP_DELETE
    else if ngx_strcmp_at M m (str "UNLOCK") then Some NGX_HTTP_UNLOCK
    else None
  else if p - m =? 7 then
    let m7 := if ngx_strcmp_at M m (str "OPTIONS") then Some NGX_HTTP_OPTIONS else None in
    if ngx_strcmp_at M m (str "CONNECT") then Some NGX_HTTP_CONNECT else m7
  else if p - m =? 8 then
    if ngx_strcmp_at M m (str "PROPFIND") then Some NGX_HTTP_PROPFIND else None
  else if p - m =? 9 then
    if ngx_strcmp_at M m (str "PROPPATCH") then Some NGX_HTTP_PROPPATCH else None
  else None.

(** [case sw_method] *)
Definition rl_method (M : mem) (p ch : Z) (r : request) : rl_out :=
  if ch =? chr " " then
    let r := set_method_end (p - 1) r in
    let r := match rl_method_of M (request_start r) p with
             | Some m => set_method m r
             | None => r
             end in
    go sw_spaces_before_uri r
  else if not_method_char ch then fail NGX_HTTP_PARSE_INVALID_METHOD r
  else go sw_method r.

(** [case sw_spaces_before_uri] *)
Definition rl_spaces_before_uri (p ch : Z) (r : request) : rl_out :=
  if ch =? chr "/" then go sw_after_slash_in_uri (set_uri_start p r)
  else if is_alpha ch then go sw_schema (set_schema_start p r)
  else if ch =? chr " " then go sw_spaces_before_uri r
  else fail NGX_HTTP_PARSE_INVALID_REQUEST r.

(** [case sw_schema] *)
Definition rl_schema (p ch : Z) (r : request) : rl_out :=
  if is_alpha ch then go sw_schema r
  else if is_digit ch || (ch =? chr "+") || (ch =? chr "-") || (ch =? chr ".")
  then go sw_schema r
  else if ch =? chr ":" then go sw_schema_slash (set_schema_end p r)
  else fail NGX_HTTP_PARSE_INVALID_REQUEST r.

(** The states that expect one character: [sw_schema_slash] to [sw_http_HTTP]. *)
Definition rl_expect (c : Z) (next : rl_state) (ch : Z) (r : request) : rl_out :=
  if ch =? c then go next r else fail NGX_HTTP_PARSE_INVALID_REQUEST r.

(** [case sw_host_end] *)
Definition rl_host_end (p ch : Z) (r : request) : rl_out :=
  let r := set_host_end p r in
  if ch =? chr ":" then go sw_port r
  else if ch =? chr "/" then go sw_after_slash_in_uri (set_uri_start p r)
  else if ch =? chr "?" then
    go sw_uri (set_empty_path_in_uri true (set_args_start (p + 1) (set_uri_start p r)))
  else if ch =? chr " " then
    go sw_http_09 (set_uri_end (schema_end r + 2) (set_uri_start (schema_end r + 1) r))
  else fail NGX_HTTP_PARSE_INVALID_REQUEST r.

(** [case sw_host], which falls through to [sw_host_end]. *)
Definition rl_host (p ch : Z) (r : request) : rl_out :=
  if is_alpha ch then go sw_host r
  else if is_digit ch || (ch =? chr ".") || (ch =? chr "-") then go sw_host r
  else rl_host_end p ch r.

(** [case sw_host_start], which falls through to [sw_host]. *)
Definition rl_host_start (p ch : Z) (r : request) : rl_out :=
  let r := set_host_start p r in
  if ch =? chr "[" then go sw_host_ip_literal r
  else rl_host p ch r.

(** The unreserved characters and sub-delims of [case sw_host_ip_literal]. *)
Definition ip_literal_char (ch : Z) : bool :=
  List.existsb (Z.eqb ch) (str "-._~!$&'()*+,;=").

(** [case sw_host_ip_literal] *)
Definition rl_host_ip_literal (ch : Z) (r : request) : rl_out :=
  if is_digit ch then go sw_host_ip_literal r
  else if is_alpha ch then go sw_host_ip_literal r
  else if ch =? chr ":" then go sw_host_ip_literal r
  else if ch =? chr "]" then go sw_host_end r
  else if ip_literal_char ch then go sw_host_ip_literal r
  else fail NGX_HTTP_PARSE_INVALID_REQUEST r.

(** [case sw_port] *)
Definition rl_port (p ch : Z) (r : request) : rl_out :=
  if is_digit ch then go sw_port r
  else if ch =? chr "/" then go sw_after_slash_in_uri (set_uri_start p (set_port_end p r))
  else if ch =? chr "?" then
    go sw_uri (set_empty_path_in_uri true
                 (set_args_start (p + 1) (set_uri_start p (set_port_end p r))))
  else if ch =? chr " " then
    let r := set_port_end p r in
    go sw_http_09 (set_uri_end (schema_end r + 2) (set_uri_start (schema_end r + 1) r))
  else fail NGX_HTTP_PARSE_INVALID_REQUEST r.

(** [ch < 0x20 || ch == 0x7f] *)
Definition is_ctl (ch : Z) : bool := (ch <? 0x20) || (ch =? 0x7f).

(** [case sw_after_slash_in_uri] *)
Definition rl_after_slash_in_uri (p ch : Z) (r : request) : rl_out :=
  if is_usual ch then go sw_check_uri r
  else if ch =? chr " " then go sw_http_09 (set_uri_end p r)
  else if ch =? CR then go sw_almost_done (set_http_minor 9 (set_uri_end p r))
  else if ch =? LF then done (set_http_minor 9 (set_uri_end p r))
  else if ch =? chr "." then go sw_uri (set_complex_uri true r)
  else if ch =? chr "%" then go sw_uri (set_quoted_uri true r)
  else if ch =? chr "/" then go sw_uri (set_complex_uri true r)
  else if ch =? chr "?" then go sw_uri (set_args_start (p + 1) r)
  else if ch =? chr "#" then go sw_uri (set_complex_uri true r)
  else if ch =? chr "+" then go sw_after_slash_in_uri (set_plus_in_uri true r)
  else if is_ctl ch then fail NGX_HTTP_PARSE_INVALID_REQUEST r
  else go sw_check_uri r.

(** [case sw_check_uri] *)
Definition rl_check_uri (p ch : Z) (r : request) : rl_out :=
  if is_usual ch then go sw_check_uri r
  else if ch =? chr "/" then go sw_after_slash_in_uri (set_uri_ext NULL r)
  else if ch =? chr "." then go sw_check_uri (set_uri_ext (p + 1) r)
  else if ch =? chr " " then go sw_http_09 (set_uri_end p r)
  else if ch =? CR then go sw_almost_done (set_http_minor 9 (set_uri_end p r))
  else if ch =? LF then done (set_http_minor 9 (set_uri_end p r))
  else if ch =? chr "%" then go sw_uri (set_quoted_uri true r)
  else if ch =? chr "?" then go sw_uri (set_args_start (p + 1) r)
  else if ch =? chr "#" then go sw_uri (set_complex_uri true r)
  else if ch =? chr "+" then go sw_check_uri (set_plus_in_uri true r)
  else if is_ctl ch then fail NGX_HTTP_PARSE_INVALID_REQUEST r
  else go sw_check_uri r.

(** [case sw_uri] *)
Definition rl_uri (p ch : Z) (r : request) : rl_out :=
  if is_usual ch then go sw_uri r
  else if ch =? chr " " then go sw_http_09 (set_uri_end p r)
  else if ch =? CR then go sw_almost_done (set_http_minor 9 (set_uri_end p r))
  else if ch =? LF then done (set_http_minor 9 (set_uri_end p r))
  else if ch =? chr "#" then go sw_uri (set_complex_uri true r)
  else if is_ctl ch then fail NGX_HTTP_PARSE_INVALID_REQUEST r
  else go sw_uri r.

(** [case sw_http_09] *)
Definition rl_http_09 (p ch : Z) (r : request) : rl_out :=
  if ch =? chr " " then go sw_http_09 r
  else if ch =? CR then go sw_almost_done (set_http_minor 9 r)
  else if ch =? LF then done (set_http_minor 9 r)
  else if ch =? chr "H" then go sw_http_H (set_http_protocol_data p r)
  else fail NGX_HTTP_PARSE_INVALID_REQUEST r.

(** [case sw_first_major_digit] *)
Definition rl_first_major_digit (ch : Z) (r : request) : rl_out :=
  if (ch <? chr "1") || (chr "9" <? ch) then fail NGX_HTTP_PARSE_INVALID_REQUEST r
  else
    let r := set_http_major (ch - chr "0") r in
    if 1 <? http_major r then fail NGX_HTTP_PARSE_INVALID_VERSION r
    else go sw_major_digit r.

(** [case sw_major_digit] *)
Definition rl_major_digit (ch : Z) (r : request) : rl_out :=
  if ch =? chr "." then go sw_first_minor_digit r
  else if negb (is_digit ch) then fail NGX_HTTP_PARSE_INVALID_REQUEST r
  else
    let r := set_http_major (http_major r * 10 + (ch - chr "0")) r in
    if 1 <? http_major r then fail NGX_HTTP_PARSE_INVALID_VERSION r
    else go sw_major_digit r.

(** [case sw_first_minor_digit] *)
Definition rl_first_minor_digit (ch : Z) (r : request) : rl_out :=
  if negb (is_digit ch) then fail NGX_HTTP_PARSE_INVALID_REQUEST r
  else go sw_minor_digit (set_http_minor (ch - chr "0") r).

(** [case sw_minor_digit] *)
Definition rl_minor_digit (ch : Z) (r : request) : rl_out :=
  if ch =? CR then go sw_almost_done r
  else if ch =? LF then done r
  else if ch =? chr " " then go sw_spaces_after_digit r
  else if negb (is_digit ch) then fail NGX_HTTP_PARSE_INVALID_REQUEST r
  else if 99 <? http_minor r then fail NGX_HTTP_PARSE_INVALID_REQUEST r
  else go sw_minor_digit (set_http_minor (http_minor r * 10 + (ch - chr "0")) r).

(** [case sw_spaces_after_digit] *)
Definition rl_spaces_after_digit (ch : Z) (r : request) : rl_out :=
  if ch =? chr " " then go sw_spaces_after_digit r
  else if ch =? CR then go sw_almost_done r
  else if ch =? LF then done r
  else fail NGX_HTTP_PARSE_INVALID_REQUEST r.

(** [case sw_almost_done] *)
Definition rl_almost_done (p ch : Z) (r : request) : rl_out :=
  let r := set_request_end (p - 1) r in
  if ch =? LF then done r else fail NGX_HTTP_PARSE_INVALID_REQUEST r.

(** [switch (state)] *)
Definition rl_step (M : mem) (p : Z) (sr : rl_state * request) : rl_out :=
  let '(s, r) := sr in
  let ch := M p in
  match s with
  | sw_start => rl_start p ch r
  | sw_method => rl_method M p ch r
  | sw_spaces_before_uri => rl_spaces_before_uri p ch r
  | sw_schema => rl_schema p ch r
  | sw_schema_slash => rl_expect (chr "/") sw_schema_slash_slash ch r
  | sw_schema_slash_slash => rl_expect (chr "/") sw_host_start ch r
  | sw_host_start => rl_host_start p ch r
  | sw_host => rl_host p ch r
  | sw_host_end => rl_host_end p ch r
  | sw_host_ip_literal => rl_host_ip_literal ch r
  | sw_port => rl_port p ch r
  | sw_after_slash_in_uri => rl_after_slash_in_uri p ch r
  | sw_check_uri => rl_check_uri p ch r
  | sw_uri => rl_uri p ch r
  | sw_http_09 => rl_http_09 p ch r
  | sw_http_H => rl_expect (chr "T") sw_http_HT ch r
  | sw_http_HT => rl_expect (chr "T") sw_http_HTT ch r
  | sw_http_HTT => rl_expect (chr "P") sw_http_HTTP ch r
  | sw_http_HTTP => rl_expect (chr "/") sw_first_major_digit ch r
  | sw_first_major_digit => rl_first_major_digit ch r
  | sw_major_digit => rl_major_digit ch r
  | sw_first_minor_digit => rl_first_minor_digit ch r
  | sw_minor_digit => rl_minor_digit ch r
  | sw_spaces_after_digit => rl_spaces_after_digit ch r
  | sw_almost_done => rl_almost_done p ch r
  end.

(** The code after [done:]. *)
Definition rl_done (p : Z) (b : ngx_buf) (r : request) : Z * request * ngx_buf :=
  let b := mk_buf (p + 1) (last b) in
  let r := if request_end r =? NULL then set_request_end p r else r in
  let r := set_http_version (http_major r * 1000 + http_minor r) r in
  let r := set_state (rl_num sw_start) r in
  if (http_version r =? 9) && negb (method r =? NGX_HTTP_GET)
  then (NGX_HTTP_PARSE_INVALID_09_METHOD, r, b)
  else (NGX_OK, r, b).

(** A [return rc] leaves the buffer alone, [goto done] runs [rl_done]. *)
Definition rl_leave (x : leave request) (p : Z) (b : ngx_buf) : Z * request * ngx_buf :=
  match x with
  | Return rc r => (rc, r, b)
  | Done r => rl_done p b r
  end.

(** [state = r->state] and [r->state = state]. *)
Definition rl_load (r : request) : rl_state * request := (rl_of_num (state r), r).
Definition rl_save (t : rl_state * request) : request := set_state (rl_num (fst t)) (snd t).

Definition ngx_http_parse_request_line (M : mem) (r : request) (b : ngx_buf)
  : Z * request * ngx_buf :=
  match run_buf rl_step M b (rl_load r) with
  | Ran t p => (NGX_AGAIN, rl_save t, mk_buf p (last b))
  | Halted x p => rl_leave x p b
  end.


(** ** Specification *)

(** What the callers use of a result: the code, and unless the request is to
    be rejected, the request and how far the buffer was consumed. *)
Definition rl_view (x : Z * request * ngx_buf) : Z * option (request * Z) :=
  let '(rc, r, b) := x in
  if (rc =? NGX_OK) || (rc =? NGX_AGAIN) || (rc =? NGX_HTTP_PARSE_INVALID_09_METHOD)
  then (rc, Some (r, pos b)) else (rc, None).

(** The methods with a code, by name. *)
Definition method_table : list (list Z * Z) :=
  [(str "GET", NGX_HTTP_GET); (str "HEAD", NGX_HTTP_HEAD); (str "POST", NGX_HTTP_POST);
   (str "PUT", NGX_HTTP_PUT); (str "DELETE", NGX_HTTP_DELETE); (str "MKCOL", NGX_HTTP_MKCOL);
   (str "COPY", NGX_HTTP_COPY); (str "MOVE", NGX_HTTP_MOVE); (str "OPTIONS", NGX_HTTP_OPTIONS);
   (str "PROPFIND", NGX_HTTP_PROPFIND); (str "PROPPATCH", NGX_HTTP_PROPPATCH);
   (str "LOCK", NGX_HTTP_LOCK); (str "UNLOCK", NGX_HTTP_UNLOCK); (str "PATCH", NGX_HTTP_PATCH);
   (str "TRACE", NGX_HTTP_TRACE); (str "CONNECT", NGX_HTTP_CONNECT)].

Fixpoint list_eqb (l l' : list Z) : bool :=
  match l, l' with
  | [], [] => true
  | c :: l, c' :: l' => (c =? c') && list_eqb l l'
  | _, _ => false
  end.

Definition method_code (name : list Z) : option Z :=
  option_map snd (List.find (fun e => list_eqb name (fst e)) method_table).

(** A byte that may stand in a URI of a request line. *)
Definition uri_char (c : Z) : Prop := 0x20 < c < 256 /\ c <> 0x7f.

(** What the recorded positions satisfy when the byte at [q] is next, for a
    line that starts at [a] or later. *)
Definition rl_inv (a q : Z) (t : rl_state * request) : Prop :=
  let '(s, r) := t in
  a <= q /\ request_end r = 0 /\
  match s with
  | sw_start => args_start r = 0 /\ uri_ext r = 0
  | sw_method => args_start r = 0 /\ uri_ext r = 0 /\ a <= request_start r < q
  | _ =>
    a <= request_start r <= method_end r /\ method_end r < q /\
    match s with
    | sw_spaces_before_uri => args_start r = 0 /\ uri_ext r = 0
    | sw_schema =>
        args_start r = 0 /\ uri_ext r = 0 /\ method_end r < schema_start r < q
    | sw_schema_slash =>
        args_start r = 0 /\ uri_ext r = 0 /\
        method_end r < schema_start r < schema_end r /\ schema_end r < q
    | sw_schema_slash_slash =>
        args_start r = 0 /\ uri_ext r = 0 /\
        method_end r < schema_start r < schema_end r /\ schema_end r + 1 < q
    | sw_host_start | sw_host | sw_host_end | sw_host_ip_literal | sw_port =>
        args_start r = 0 /\ uri_ext r = 0 /\
        method_end r < schema_start r < schema_end r /\ schema_end r + 2 < q
    | sw_after_slash_in_uri | sw_check_uri | sw_uri =>
        method_end r < uri_start r < q /\
        (args_start r = 0 \/ uri_start r < args_start r <= q) /\
        (uri_ext r = 0 \/ uri_start r < uri_ext r <= q)
    | _ =>
        method_end r < uri_start r < uri_end r /\ uri_end r <= q /\
        (args_start r = 0 \/ uri_start r < args_start r <= uri_end r) /\
        (uri_ext r = 0 \/ uri_start r < uri_ext r <= uri_end r) /\
        (s = sw_almost_done -> uri_end r < q)
    end
  end.

(** The HTTP version a state has seen so far. *)
Definition rl_version_inv (t : rl_state * request) : Prop :=
  let '(s, r) := t in
  match s with
  | sw_major_digit | sw_first_minor_digit => http_major r = 1
  | sw_minor_digit | sw_spaces_after_digit => http_major r = 1 /\ 0 <= http_minor r <= 999
  | sw_almost_done =>
      (http_major r = 0 /\ http_minor r = 9) \/
      (http_major r = 1 /\ 0 <= http_minor r <= 999)
  | _ => http_major r = 0
  end.

(** ** Lemmas *)

Ltac rl_unfold :=
  unfold rl_step, rl_start, rl_method, rl_spaces_before_uri, rl_schema, rl_expect,
    rl_host_start, rl_host, rl_host_end, rl_host_ip_literal, rl_port,
    rl_after_slash_in_uri, rl_check_uri, rl_uri, rl_http_09, rl_first_major_digit,
    rl_major_digit, rl_first_minor_digit, rl_minor_digit, rl_spaces_after_digit,
    rl_almost_done, go, fail, done;
  cbv beta iota zeta.

Lemma rl_of_num_num s : rl_of_num (rl_num s) = s.
Proof. now destruct s. Qed.

(** Requests that differ at most in [r->state]. *)
Definition same_but_state (r r' : request) : Prop := exists v, r' = set_state v r.

Definition rl_eqv (t t' : rl_state * request) : Prop :=
  fst t = fst t' /\ same_but_state (snd t) (snd t').

Definition leave_eqv (x x' : leave request) : Prop :=
  match x, x' with
  | Done r, Done r' => same_but_state r r'
  | Return rc r, Return rc' r' => rc = rc' /\ 10 <= rc <= 12 /\ same_but_state r r'
  | _, _ => False
  end.

Lemma same_but_state_refl r : same_but_state r r.
Proof. exists (state r). now destruct r. Qed.

Lemma rl_step_rc M p t rc r : rl_step M p t = Stop (Return rc r) -> 10 <= rc <= 12.
Proof.
  destruct t as [s r0]. destruct s; rl_unfold; intros H; cases_of H; now simplify_eq.
Qed.

Lemma rl_step_eqv M p t t' :
  rl_eqv t t' ->
  match rl_step M p t, rl_step M p t' with
  | Next u, Next u' => rl_eqv u u'
  | Stop x, Stop x' => leave_eqv x x'
  | _, _ => False
  end.
Proof.
  destruct t as [s r], t' as [s' r']. intros [Hs [v Hr]]. simpl in *. subst s' r'.
  destruct s; rl_unfold; cbn -[Z.mul Z.add]; repeat case_match; simplify_eq;
    try done; repeat first [now exists v | split; [done |]].
Qed.

Lemma rl_leave_rc M p t x b r' b' :
  rl_step M p t = Stop x -> rl_leave x p b <> (NGX_AGAIN, r', b').
Proof.
  destruct x as [r1 | rc r1]; intros H.
  - simpl. unfold rl_done. cbv beta iota zeta. case_match; discriminate.
  - apply rl_step_rc in H. simpl. intros E. injection E as -> _ _. unfold NGX_AGAIN in H. lia.
Qed.

Lemma rl_view_fin x x' p b b' :
  leave_eqv x x' -> rl_view (rl_leave x p b) = rl_view (rl_leave x' p b').
Proof.
  destruct x as [r | rc r], x' as [r' | rc' r']; try done.
  - intros [v ->]. simpl. unfold rl_done.
    cbn -[Z.mul Z.add]. destruct (request_end r =? NULL); cbn -[Z.mul Z.add];
      now destruct (_ && _).
  - intros (-> & Hrc & _). simpl. unfold rl_view.
    replace ((rc' =? NGX_OK) || (rc' =? NGX_AGAIN) ||
             (rc' =? NGX_HTTP_PARSE_INVALID_09_METHOD)) with false; [done |].
    unfold NGX_OK, NGX_AGAIN, NGX_HTTP_PARSE_INVALID_09_METHOD. lia.
Qed.

#[export] Instance request_line_resumable :
  Resumable ngx_http_parse_request_line (fun _ => True) rl_view.
Proof.
  apply (machine_resumable rl_step rl_load rl_save rl_leave rl_view rl_eqv leave_eqv).
  - apply rl_step_eqv.
  - intros [s r]. split; simpl; [apply rl_of_num_num |].
    exists (state r). now destruct r.
  - intros M p t [r | rc r] H; simpl; [apply same_but_state_refl |].
    eauto using rl_step_rc, same_but_state_refl.
  - apply rl_view_fin.
  - intros [s r] [s' r'] p e [Hs [v Hr]]. simpl in *. now subst.
  - apply rl_leave_rc.
Qed.

(** *** Positions *)

Lemma rl_inv_step M a q t t' :
  0 < a -> rl_inv a q t -> rl_step M q t = Next t' -> rl_inv a (q + 1) t'.
Proof.
  intros Ha. destruct t as [s r], t' as [s' r']. destruct s; rl_unfold; intros Hi Hs;
    repeat match type of Hs with
    | (if ?b then _ else _) = _ => destruct b
    | context [match ?o with Some _ => _ | None => _ end] => destruct o
    end; try discriminate Hs; injection Hs as <- <-;
    cbn -[Z.mul Z.add] in *; unfold NULL; destruct_and?; repeat (split; [lia |]); lia.
Qed.

(** What holds of the request when the line is done at the byte [q]. *)
Definition rl_positions (a q : Z) (r : request) : Prop :=
  a <= request_start r /\ request_start r <= method_end r /\
  method_end r < uri_start r /\ uri_start r < uri_end r /\ uri_end r <= q /\
  (args_start r = 0 \/ uri_start r < args_start r <= uri_end r) /\
  (uri_ext r = 0 \/ uri_start r < uri_ext r <= uri_end r) /\
  (request_end r = 0 \/ uri_end r <= request_end r < q).

Lemma rl_inv_done M a q t r :
  0 < a -> rl_inv a q t -> rl_step M q t = Stop (Done r) -> rl_positions a q r.
Proof.
  intros Ha. destruct t as [s r0]. unfold rl_positions. destruct s; rl_unfold; intros Hi Hs;
    cases_of Hs; try discriminate Hs; injection Hs as <-;
    cbn -[Z.mul Z.add] in *; destruct_and?;
    repeat match goal with H : ?x = ?x -> _ |- _ => specialize (H eq_refl) end;
    repeat (split; [lia |]); lia.
Qed.

(** *** Versions *)

Lemma rl_version_step M q t t' :
  rl_version_inv t -> rl_step M q t = Next t' -> rl_version_inv t'.
Proof.
  destruct t as [s r], t' as [s' r']. destruct s; rl_unfold; unfold is_digit; intros Hi Hs;
    repeat match type of Hs with
    | (if ?b then _ else _) = _ => destruct b eqn:?
    | context [match ?o with Some _ => _ | None => _ end] => destruct o
    end; try discriminate Hs; injection Hs as <- <-; cbn -[Z.mul Z.add] in *; lia.
Qed.

Lemma rl_version_done M q t r :
  rl_version_inv t -> rl_step M q t = Stop (Done r) ->
  (http_major r = 0 /\ http_minor r = 9) \/ (http_major r = 1 /\ 0 <= http_minor r <= 999).
Proof.
  destruct t as [s r0]. destruct s; rl_unfold; intros Hi Hs;
    cases_of Hs; try discriminate Hs; injection Hs as <-; cbn -[Z.mul Z.add] in *; lia.
Qed.

(** *** Memory *)

Lemma ngx_strcmp_at_ext M M' m cs :
  agree M M' m (m + Z.of_nat (List.length cs)) ->
  ngx_strcmp_at M m cs = ngx_strcmp_at M' m cs.
Proof.
  revert m. induction cs as [|c cs IH]; intros m H; simpl; [done |].
  rewrite (H m) by (simpl; lia). f_equal. apply IH.
  eapply agree_sub; [exact H | lia | simpl; lia].
Qed.

Lemma rl_method_of_ext M M' a b m p :
  agree M M' a b -> a <= m -> p <= b -> rl_method_of M m p = rl_method_of M' m p.
Proof.
  intros H Ha Hb. unfold rl_method_of, ngx_str3Ocmp.
  assert (G : forall cs, m + Z.of_nat (List.length cs) <= p ->
                ngx_strcmp_at M m cs = ngx_strcmp_at M' m cs).
  { intros cs Hcs. apply ngx_strcmp_at_ext. eapply agree_sub; [exact H | lia | lia]. }
  repeat match goal with |- context [p - m =? ?k] => destruct (Z.eqb_spec (p - m) k) end;
    try done; try (now rewrite !G by (simpl; lia)).
  rewrite (H m), (H (m + 1)), (H (m + 2)), (H (m + 3)) by lia.
  now rewrite G by (simpl; lia).
Qed.

Lemma rl_step_ext M M' a b q t :
  agree M M' a b -> q < b -> rl_inv a q t -> rl_step M q t = rl_step M' q t.
Proof.
  intros H Hq Hi. destruct t as [s r].
  assert (E : M q = M' q) by (apply H; destruct Hi; lia).
  destruct s; unfold rl_step; rewrite <- E; try done.
  unfold rl_method. simpl in Hi.
  rewrite (rl_method_of_ext M M' a b) by (auto; simpl; lia). done.
Qed.

(** *** Functional correctness *)

Lemma ngx_strcmp_at_spec M m name cs :
  holds M m name -> List.length cs = List.length name ->
  ngx_strcmp_at M m cs = list_eqb name cs.
Proof.
  revert m cs. induction name as [|n name IH]; intros m [|c cs] H Hl; try done.
  destruct H as [Hn H]. simpl. rewrite Hn.
  now rewrite (IH (m + 1) cs) by (auto; simpl in Hl; lia).
Qed.

Lemma list_eqb_eq l l' : list_eqb l l' = true <-> l = l'.
Proof.
  revert l'. induction l as [|c l IH]; intros [|c' l']; simpl; try done.
  rewrite andb_true_iff, Z.eqb_eq, IH. split; [intros [-> ->] | intros; simplify_eq]; done.
Qed.

Lemma list_eqb_length l l' : List.length l <> List.length l' -> list_eqb l l' = false.
Proof. intros H. apply not_true_iff_false. rewrite list_eqb_eq. now intros ->. Qed.

Lemma ngx_str3Ocmp_spec M m name c0 c2 c3 :
  holds M m name -> List.length name = 4%nat ->
  list_eqb name [c0; chr "O"; c2; c3] = (M (m + 1) =? chr "O") && ngx_str3Ocmp M m c0 c2 c3.
Proof.
  intros H Hl. destruct name as [|a [|b [|c [|d [|]]]]]; try done.
  simpl in H. destruct H as (<- & <- & <- & <- & _).
  unfold ngx_str3Ocmp, list_eqb.
  replace (m + 1 + 1) with (m + 2) by lia. replace (m + 2 + 1) with (m + 3) by lia.
  destruct (M m =? c0), (M (m + 1) =? 79), (M (m + 2) =? c2), (M (m + 3) =? c3); done.
Qed.

(** The nested comparisons of the switch look the token up in the table. *)
Lemma rl_method_of_spec M m name :
  holds M m name -> rl_method_of M m (m + Z.of_nat (List.length name)) = method_code name.
Proof.
  intros H. unfold rl_method_of, method_code. rewrite Z.add_simpl_l. unfold method_table.
  cbn [List.find fst snd].
  pose proof (ngx_strcmp_at_spec M m name) as E.
  pose proof (fun c0 c2 c3 => ngx_str3Ocmp_spec M m name c0 c2 c3 H) as E4.
  repeat match goal with
  | |- context [Z.of_nat (List.length name) =? ?k] =>
      destruct (Z.eqb_spec (Z.of_nat (List.length name)) k)
  end; try lia;
  repeat match goal with
  | |- context [list_eqb name ?l] => rewrite (list_eqb_length name l) by (simpl; lia)
  end; try done; rewrite ?E by (done || (simpl; lia)); try (rewrite !E4 by lia);
  repeat case_match; try done;
  repeat match goal with
  | H : list_eqb _ _ = true |- _ => apply list_eqb_eq in H; subst name; try discriminate
  end; rewrite ?andb_true_r, ?andb_false_r in *; simplify_eq;
  simpl in H; lia.
Qed.

(** Over the bytes of a URI the parser stays in the URI states and records
    only flags, the extension and the arguments. *)
Definition in_uri (r0 : request) (t : rl_state * request) : Prop :=
  (fst t = sw_after_slash_in_uri \/ fst t = sw_check_uri \/ fst t = sw_uri) /\
  (request_start (snd t), method_end (snd t), method (snd t), uri_start (snd t),
   request_end (snd t), http_major (snd t)) =
  (request_start r0, method_end r0, method r0, uri_start r0, request_end r0, http_major r0).

Lemma in_uri_step M q r0 t :
  uri_char (M q) -> in_uri r0 t -> exists t', rl_step M q t = Next t' /\ in_uri r0 t'.
Proof.
  destruct t as [s r]. unfold uri_char, in_uri. simpl. intros Hc [Hs Hr].
  destruct Hs as [-> | [-> | ->]]; rl_unfold; unfold is_ctl;
    repeat match goal with
    | |- context [if ?b then _ else _] => destruct b eqn:?
    end; try lia; eexists; (split; [reflexivity |]); simpl; auto.
Qed.

Lemma in_uri_space M q r0 t :
  M q = chr " " -> in_uri r0 t ->
  rl_step M q t = Next (sw_http_09, set_uri_end q (snd t)).
Proof.
  destruct t as [s r]. unfold in_uri. simpl. intros Hc [Hs _].
  destruct Hs as [-> | [-> | ->]]; rl_unfold; rewrite Hc; reflexivity.
Qed.

(** The method token: the first byte starts it, the others extend it. *)
Definition method_char (c : Z) : Prop := chr "A" <= c <= chr "Z" \/ c = chr "_" \/ c = chr "-".

Lemma not_method_char_false c : method_char c -> not_method_char c = false.
Proof. unfold method_char, not_method_char. lia. Qed.

Lemma walk_method n M a name r :
  holds M a name -> Forall method_char name -> name <> [] ->
  run rl_step (List.length name + n) M a (sw_start, r) =
  run rl_step n M (a + Z.of_nat (List.length name)) (sw_method, set_request_start a r).
Proof.
  destruct name as [|c name]; [done |]. intros [Hc Hn] Hall _.
  inversion_clear Hall as [| ? ? Hc' Hall'].
  assert (E1 : rl_step M a (sw_start, r) = Next (sw_method, set_request_start a r)).
  { rl_unfold. rewrite Hc, not_method_char_false by done.
    unfold method_char in Hc'. now replace ((c =? 13) || (c =? 10)) with false by lia. }
  rewrite (walk_cons _ _ _ _ _ _ _ _ E1).
  destruct (walk_inv rl_step (fun t => t = (sw_method, set_request_start a r)) n name M
              (a + 1) _ Hn eq_refl) as (t & -> & E).
  - intros q t _ Hin ->. eexists. split; [|done]. rewrite List.Forall_forall in Hall'.
    apply Hall' in Hin. rl_unfold. rewrite not_method_char_false by done.
    now replace (M q =? 32) with false by (unfold method_char in Hin; lia).
  - rewrite E. f_equal. simpl. lia.
Qed.

Lemma walk_uri n M p uri r r0 :
  holds M p uri -> Forall uri_char uri -> in_uri r0 r ->
  exists r', in_uri r0 r' /\
    run rl_step (List.length uri + n) M p r =
    run rl_step n M (p + Z.of_nat (List.length uri)) r'.
Proof.
  intros Hu Hall Hi. apply walk_inv; [done | done |].
  intros q t _ Hin Ht. rewrite List.Forall_forall in Hall. now apply in_uri_step; auto.
Qed.

Definition rl_version_end (p minor : Z) (r : request) : request :=
  set_request_end (p + 8)
    (set_http_minor (minor - chr "0") (set_http_major 1 (set_http_protocol_data p r))).

(** One step over a byte whose value is known. *)
Ltac rl_exec :=
  match goal with
  | |- context [rl_step ?M ?p ?t] =>
      let E := fresh in
      eassert (E : rl_step M p t = _)
        by (rl_unfold; match goal with H : M p = _ |- _ => rewrite H end;
            cbn -[Z.add Z.mul]; reflexivity);
      rewrite E; clear E
  end.

(** The version and the end of the line, after the URI's space. *)
Lemma walk_version n M p minor r :
  is_digit minor = true -> http_major r = 0 ->
  holds M p (str "HTTP/1." ++ [minor; CR; LF]) ->
  exists r', run rl_step (List.length (str "HTTP/1." ++ [minor; CR; LF]) + n) M p (sw_http_09, r)
             = Halted (Done r') (p + 9) /\
    r' = rl_version_end p minor r.
Proof.
  intros Hd Hm H. simpl in H. destruct_and? H.
  assert (Hr : 48 <= minor <= 57) by (unfold is_digit in Hd; lia).
  eexists. split; [|reflexivity]. cbn [run List.length app Nat.add].
  do 6 rl_exec. change (49 - 48) with 1. change (1 <? 1) with false. cbv iota.
  do 2 rl_exec. rewrite Hd. cbn [negb]. do 2 rl_exec.
  unfold rl_version_end. f_equal; [do 2 f_equal |]; lia.
Qed.

(** The request line theorem's data: the bytes of [name uri HTTP/1.minor CR LF]. *)
Definition request_line_bytes (name uri : list Z) (minor : Z) : list Z :=
  name ++ [chr " "] ++ uri ++ [chr " "] ++ str "HTTP/1." ++ [minor; CR; LF].

Lemma holds_cons M a c l : holds M a (c :: l) <-> M a = c /\ holds M (a + 1) l.
Proof. done. Qed.

(** C3: however a request line arrives, cut into any pieces, the read loop's
    outcome is that of parsing it in one buffer. *)
Theorem request_line_any_split M r a m arrivals :
  a <= m ->
  rl_view (feed ngx_http_parse_request_line M r (mk_buf a m) arrivals) =
  rl_view (ngx_http_parse_request_line M r (mk_buf a (m + total arrivals))).
Proof. intros H. now apply feed_whole. Qed.

(** C36: the ranges an accepted request line hands to its callers are ordered and
    lie inside the consumed input: method, URI, end of the line, and the
    arguments and extension, when present, inside the URI. *)
Theorem request_line_positions M up a b r' b' :
  0 < a <= b ->
  ngx_http_parse_request_line M (request0 up) (mk_buf a b) = (NGX_OK, r', b') ->
  a <= request_start r' <= method_end r' /\
  method_end r' < uri_start r' < uri_end r' /\
  uri_end r' <= request_end r' < pos b' /\ pos b' <= b /\ last b' = b /\
  (args_start r' = NULL \/ uri_start r' < args_start r' <= uri_end r') /\
  (uri_ext r' = NULL \/ uri_start r' < uri_ext r' <= uri_end r').
Proof.
  intros Hab H. unfold ngx_http_parse_request_line, run_buf in H. simpl in H.
  pose proof (run_invariant rl_step (rl_inv a) (Z.to_nat (b - a)) M a (rl_load (request0 up)))
    as G.
  specialize (G ltac:(simpl; lia) ltac:(intros; eapply rl_inv_step; eauto; lia)).
  destruct (run _ _ _ _ _) as [t q | [r | rc r] q]; [done | | ].
  - destruct G as (t & Ht & Hs & Hq). apply (rl_inv_done M a q t r) in Hs; [|lia | done].
    unfold rl_positions in Hs. simpl in H. unfold rl_done in H.
    destruct (Z.eqb_spec (request_end r) NULL) as [E | E]; unfold NULL in *;
      destruct (_ && _); simplify_eq; cbn -[Z.mul Z.add]; lia.
  - simpl in H. destruct G as (t & _ & Hs & _). apply rl_step_rc in Hs.
    simplify_eq. unfold NGX_OK in Hs. lia.
Qed.

(** the parser reads no byte outside the buffer: two memories that agree on
    [pos, last) give the same result, although the method comparison and the
    host and URI states look back at bytes already read. *)
Theorem request_line_reads_input M M' up a b :
  0 < a <= b -> agree M M' a b ->
  ngx_http_parse_request_line M (request0 up) (mk_buf a b) =
  ngx_http_parse_request_line M' (request0 up) (mk_buf a b).
Proof.
  intros Hab H. unfold ngx_http_parse_request_line, run_buf. cbn [pos last].
  rewrite (run_ext rl_step (rl_inv a) _ M M'); [done | | |].
  - simpl. lia.
  - intros. eapply rl_inv_step; eauto. lia.
  - intros q t Hq Hi. eapply rl_step_ext; eauto. lia.
Qed.

(** an accepted request line is HTTP/1.x with a version of at most 1.999, or
    the HTTP/0.9 form, which is accepted for GET only. *)
Theorem request_line_version M up b r' b' :
  ngx_http_parse_request_line M (request0 up) b = (NGX_OK, r', b') ->
  (http_version r' = 9 /\ method r' = NGX_HTTP_GET) \/ 1000 <= http_version r' <= 1999.
Proof.
  intros H. unfold ngx_http_parse_request_line, run_buf in H.
  pose proof (run_invariant rl_step (fun _ => rl_version_inv) (Z.to_nat (last b - pos b)) M
                (pos b) (rl_load (request0 up)) eq_refl) as G.
  specialize (G ltac:(intros; eapply rl_version_step; eauto)).
  destruct (run _ _ _ _ _) as [t q | [r | rc r] q]; [done | | ].
  - destruct G as (t & Ht & Hs & _). apply (rl_version_done M q t r Ht) in Hs.
    simpl in H. unfold rl_done in H.
    destruct (request_end r =? NULL); cbn -[Z.mul Z.add] in H;
      destruct (Z.eqb_spec (http_major r * 1000 + http_minor r) 9) as [E | E];
      destruct (Z.eqb_spec (method r) NGX_HTTP_GET); simpl in H; simplify_eq;
      cbn -[Z.mul Z.add]; auto; lia.
  - simpl in H. destruct G as (t & _ & Hs & _). apply rl_step_rc in Hs.
    simplify_eq. unfold NGX_OK in Hs. lia.
Qed.

(** The request as the loop leaves it on such a line; [v] is where the version
    starts. *)
Lemma walk_line n M a name uri minor r0 :
  name <> [] -> Forall method_char name -> Forall uri_char uri -> is_digit minor = true ->
  http_major r0 = 0 -> method r0 = 0 -> request_end r0 = 0 ->
  holds M a (request_line_bytes name (chr "/" :: uri) minor) ->
  let u := a + Z.of_nat (List.length name) + 1 in
  let v := u + Z.of_nat (List.length (chr "/" :: uri)) + 1 in
  exists r3,
    run rl_step (List.length (request_line_bytes name (chr "/" :: uri) minor) + n) M a
      (sw_start, r0) = Halted (Done (rl_version_end v minor (set_uri_end (v - 1) r3))) (v + 9) /\
    request_start r3 = a /\ method_end r3 = u - 2 /\ uri_start r3 = u /\
    method r3 = default 0 (method_code name).
Proof.
  intros Hne Hname Huri Hd Hmaj Hmeth Hend HM u v.
  assert (Eu : u = a + Z.of_nat (List.length name) + 1) by done.
  assert (Ev : v = u + Z.of_nat (List.length uri) + 2) by (subst v; simpl List.length; lia).
  clearbody u v.
  unfold request_line_bytes in *.
  apply holds_app in HM as [Hn HM]. apply holds_app in HM as [[Hsp _] HM].
  apply holds_app in HM as [[Hsl Hu] HM]. apply holds_app in HM as [[Hsp2 _] Hv].
  replace (a + Z.of_nat (List.length name) + Z.of_nat (List.length [32])) with u in * by (simpl List.length; lia).
  replace (u + Z.of_nat (List.length (47 :: uri)) + Z.of_nat (List.length [32])) with v in *
    by (simpl List.length; lia).
  rewrite walk_app, walk_method, walk_app by done.
  set (r1 := set_request_start a r0).
  assert (E1 : exists r2, rl_step M (a + Z.of_nat (List.length name)) (sw_method, r1) =
                 Next (sw_spaces_before_uri, r2) /\ request_start r2 = a /\
                 method_end r2 = u - 2 /\ method r2 = default 0 (method_code name) /\
                 http_major r2 = 0).
  { rl_unfold. rewrite Hsp. 
    match goal with |- context [rl_method_of M ?x _] => change x with a end. rewrite rl_method_of_spec by done.
    eexists. split; [reflexivity |]. destruct (method_code name); simpl; repeat split; auto; lia. }
  destruct E1 as (r2 & E1 & R1 & R2 & R3 & R4).
  erewrite walk_cons by exact E1. cbn [List.length Nat.add].
  replace (a + Z.of_nat (List.length name) + 1) with u by lia.
  rewrite walk_app.
  assert (E2 : rl_step M u (sw_spaces_before_uri, r2) =
                 Next (sw_after_slash_in_uri, set_uri_start u r2)) by (rl_unfold; now rewrite Hsl).
  erewrite walk_cons by exact E2.
  destruct (walk_uri (List.length (str " " ++ str "HTTP/1." ++ [minor; 13; 10]) + n) M (u + 1) uri
              (sw_after_slash_in_uri, set_uri_start u r2) (set_uri_start u r2))
    as (t & Ht & E3); [done | done | now split; auto |].
  rewrite E3, walk_app. replace (u + 1 + Z.of_nat (List.length uri)) with (v - 1) by lia.
  rewrite (walk_cons _ _ _ _ _ _ _ _ (in_uri_space M (v - 1) _ t
    ltac:(rewrite <- Hsp2; f_equal; simpl List.length; lia) Ht)).
  replace (v - 1 + 1) with v by lia. cbn [List.length Nat.add].
  destruct Ht as [_ Ht]. simpl in Ht. injection Ht as T1 T2 T3 T4 T5 T6.
  destruct (walk_version n M v minor (set_uri_end (v - 1) (snd t))) as (r' & E4 & ->);
    [done | simpl; congruence | done |].
  exists (snd t). rewrite E4. intuition congruence.
Qed.

(** a line "METHOD /uri HTTP/1.m" is accepted: the ranges handed on are
    exactly the method and the URI, the method code is the one of the table, the
    version is the number written, and the buffer is left after the line. *)
Theorem request_line_parses M up a b name uri minor :
  0 < a ->
  name <> [] -> Forall method_char name ->
  Forall uri_char uri ->
  is_digit minor = true ->
  holds M a (request_line_bytes name (chr "/" :: uri) minor) ->
  a + Z.of_nat (List.length (request_line_bytes name (chr "/" :: uri) minor)) <= b ->
  exists r',
    ngx_http_parse_request_line M (request0 up) (mk_buf a b) =
      (NGX_OK, r', mk_buf (a + Z.of_nat (List.length
                             (request_line_bytes name (chr "/" :: uri) minor))) b) /\
    range M (request_start r') (method_end r' + 1) = name /\
    range M (uri_start r') (uri_end r') = chr "/" :: uri /\
    range M (request_start r') (request_end r' + 2) =
      request_line_bytes name (chr "/" :: uri) minor /\
    method r' = default 0 (method_code name) /\
    http_version r' = 1000 + (minor - chr "0").
Proof.
  intros Ha Hne Hname Huri Hd HM Hb.
  set (n := (Z.to_nat (b - a) -
             List.length (request_line_bytes name (chr "/" :: uri) minor))%nat).
  destruct (walk_line n M a name uri minor (request0 up)) as (r3 & E & Hr); try done.
  unfold ngx_http_parse_request_line, run_buf. cbn [pos last].
  replace (Z.to_nat (b - a)) with
    (List.length (request_line_bytes name (chr "/" :: uri) minor) + n)%nat by lia.
  change (rl_load (request0 up)) with (sw_start, request0 up). rewrite E.
  destruct Hr as (R1 & R2 & R3 & R4).
  set (L := List.length (request_line_bytes name (chr "/" :: uri) minor)) in *.
  set (u := a + Z.of_nat (List.length name) + 1) in *.
  set (v := u + Z.of_nat (List.length (chr "/" :: uri)) + 1) in *.
  assert (HL : v + 10 = a + Z.of_nat L).
  { unfold L, v, u, request_line_bytes. autorewrite with len. simpl List.length. lia. }
  assert (Hv : v - 1 > u) by (unfold v; simpl List.length; lia).
  pose proof HM as Hall. unfold request_line_bytes in Hall.
  apply holds_app in Hall as [Hn Hall]. apply holds_app in Hall as [_ Hall].
  apply holds_app in Hall as [Hu _].
  simpl. unfold rl_done. cbn -[Z.mul Z.add Z.sub].
  replace (v + 8 =? NULL) with false by (unfold NULL; lia).
  cbn -[Z.mul Z.add Z.sub].
  replace (1 * 1000 + (minor - 48) =? 9) with false by (unfold is_digit in Hd; lia).
  eexists. split; [do 2 f_equal; lia |]. cbn -[Z.mul Z.add Z.sub request_line_bytes].
  rewrite R1, R2, R3, R4. repeat split.
  - apply holds_range; [done | lia].
  - apply holds_range; [|unfold v; lia].
    unfold u. replace (a + Z.of_nat (List.length name) + 1) with
      (a + Z.of_nat (List.length name) + Z.of_nat (List.length [32])) by (simpl List.length; lia).
    done.
  - apply holds_range; [done | fold L; lia].
Qed.

(** ** Witnesses *)

Definition ex_line : list Z := str "GET /a/b.html?x=1 HTTP/1.1" ++ [CR; LF].

Definition ex_mem : mem := mem_of 100 ex_line.

Definition ex_result : Z * request * ngx_buf :=
  Eval vm_compute in ngx_http_parse_request_line ex_mem (request0 false) (mk_buf 100 128).

Lemma request_line_any_split_witness :
  rl_view (feed ngx_http_parse_request_line ex_mem (request0 false) (mk_buf 100 102)
             [7; 0; 12; 7]%nat) =
  rl_view (ngx_http_parse_request_line ex_mem (request0 false) (mk_buf 100 128)) /\
  fst (rl_view ex_result) = NGX_OK.
Proof.
  split; [|reflexivity].
  apply (request_line_any_split ex_mem (request0 false) 100 102 [7; 0; 12; 7]%nat). lia.
Defined.

Lemma request_line_positions_witness :
  let r := snd (fst ex_result) in
  100 <= request_start r <= method_end r /\
  method_end r < uri_start r < uri_end r /\
  uri_end r <= request_end r < 128 /\ 128 <= 128 /\ 128 = 128 /\
  (args_start r = NULL \/ uri_start r < args_start r <= uri_end r) /\
  (uri_ext r = NULL \/ uri_start r < uri_ext r <= uri_end r).
Proof.
  apply (request_line_positions ex_mem false 100 128 _ (mk_buf 128 128));
    [lia | vm_compute; reflexivity].
Defined.

Lemma request_line_reads_input_witness :
  ngx_http_parse_request_line (upd ex_mem 99 7) (request0 false) (mk_buf 100 128) =
  ngx_http_parse_request_line ex_mem (request0 false) (mk_buf 100 128).
Proof.
  apply (request_line_reads_input (upd ex_mem 99 7) ex_mem false 100 128); [lia |].
  apply agree_upd. lia.
Defined.

Lemma request_line_version_witness :
  let r := snd (fst ex_result) in
  (http_version r = 9 /\ method r = NGX_HTTP_GET) \/ 1000 <= http_version r <= 1999.
Proof.
  apply (request_line_version ex_mem false (mk_buf 100 128) _ (mk_buf 128 128)).
  vm_compute. reflexivity.
Defined.

Lemma request_line_parses_witness :
  exists r',
    ngx_http_parse_request_line ex_mem (request0 false) (mk_buf 100 128) =
      (NGX_OK, r', mk_buf 128 128) /\
    range ex_mem (request_start r') (method_end r' + 1) = str "GET" /\
    range ex_mem (uri_start r') (uri_end r') = str "/a/b.html?x=1" /\
    range ex_mem (request_start r') (request_end r' + 2) = ex_line /\
    method r' = NGX_HTTP_GET /\ http_version r' = 1001.
Proof.
  apply (request_line_parses ex_mem false 100 128 (str "GET") (str "a/b.html?x=1") (chr "1")).
  - lia.
  - discriminate.
  - repeat constructor; unfold method_char; lia.
  - repeat constructor; lia.
  - reflexivity.
  - vm_compute. tauto.
  - vm_compute. discriminate.
Defined.

End RequestLine.
