(* ===== verification/NgxHash.v ===== *)
(** Hash keys of src/core/ngx_hash.c and the lower-casing they go with
    (src/core/ngx_string.c, src/core/ngx_string.h). *)
From S2P Require Import Prelude HttpRequest.

(** [ngx_tolower(c)] *)
Definition ngx_tolower (c : Z) : Z :=
  if (chr "A" <=? c) && (c <=? chr "Z") then Z.lor c 0x20 else c.

(** [ngx_toupper(c)]; [c & ~0x20] on a byte. *)
Definition ngx_toupper (c : Z) : Z :=
  if (chr "a" <=? c) && (c <=? chr "z") then Z.land c 0xdf else c.

(** [ngx_strlow(dst, src, n)]: the bytes written to [dst]. *)
Definition ngx_strlow (src : list Z) : list Z := List.map ngx_tolower src.

(** [ngx_hash_key(data, len)] *)
Definition ngx_hash_key (data : list Z) : Z := List.fold_left ngx_hash data 0.

(** [ngx_hash_key_lc(data, len)] *)
Definition ngx_hash_key_lc (data : list Z) : Z :=
  List.fold_left (fun key c => ngx_hash key (ngx_tolower c)) data 0.

(** [ngx_hash_strlow(dst, src, n)]: the key returned and the bytes written. *)
Fixpoint ngx_hash_strlow_from (key : Z) (src : list Z) : Z * list Z :=
  match src with
  | [] => (key, [])
  | c :: src' =>
      let d := ngx_tolower c in
      let '(key', dst) := ngx_hash_strlow_from (ngx_hash key d) src' in
      (key', d :: dst)
  end.

Definition ngx_hash_strlow (src : list Z) : Z * list Z := ngx_hash_strlow_from 0 src.

Lemma ngx_hash_range key c : 0 <= ngx_hash key c < 2 ^ 64.
Proof. apply Z.mod_pos_bound. done. Qed.

Lemma ngx_hash_strlow_from_spec src key :
  ngx_hash_strlow_from key src = (List.fold_left ngx_hash (ngx_strlow src) key, ngx_strlow src).
Proof.
  revert key. induction src as [|c src IH]; intros key; simpl; [done |]. now rewrite IH.
Qed.

Lemma ngx_hash_key_lc_spec data : ngx_hash_key_lc data = ngx_hash_key (ngx_strlow data).
Proof.
  unfold ngx_hash_key_lc, ngx_hash_key. generalize 0 as k.
  induction data as [|c data IH]; intros k; simpl; auto.
Qed.

Lemma ngx_strlow_app a b : ngx_strlow (a ++ b) = ngx_strlow a ++ ngx_strlow b.
Proof. apply List.map_app. Qed.

Lemma ngx_hash_key_snoc l c : ngx_hash_key (l ++ [c]) = ngx_hash (ngx_hash_key l) c.
Proof. unfold ngx_hash_key. now rewrite List.fold_left_app. Qed.
