(* ===== verification/HttpHeaderLine.v ===== *)
(** The header line parser, [ngx_http_parse_header_line]
    (src/http/ngx_http_parse.c), and the lower-cased header key its caller
    [ngx_http_process_request_headers] (src/http/ngx_http_request.c) keeps. *)
From S2P Require Import Prelude HttpRequest NgxHash.

Module HeaderLine.

Inductive hl_state :=
| sw_start
| sw_name
| sw_space_before_value
| sw_value
| sw_space_after_value
| sw_ignore_line
| sw_almost_done
| sw_header_almost_done.

Definition hl_states : list hl_state :=
  [sw_start; sw_name; sw_space_before_value; sw_value; sw_space_after_value;
   sw_ignore_line; sw_almost_done; sw_header_almost_done].

Definition hl_num (s : hl_state) : Z :=
  match s with
  | sw_start => 0 | sw_name => 1 | sw_space_before_value => 2 | sw_value => 3
  | sw_space_after_value => 4 | sw_ignore_line => 5 | sw_almost_done => 6
  | sw_header_almost_done => 7
  end.

Definition hl_of_num (z : Z) : hl_state := List.nth (Z.to_nat z) hl_states sw_start.

(** The local variables [state], [hash] and [i], and the request. *)
Record hl_vars := mk_hl { hl_s : hl_state; hl_hash : Z; hl_i : Z; hl_r : request }.

(** The three ways out of the loop. *)
Inductive hl_leave :=
| HlDone (v : hl_vars)
| HlHeaderDone (v : hl_vars)
| HlReturn (rc : Z) (v : hl_vars).

Definition hl_out : Type := step_out hl_vars hl_leave.

(** The table [lowcase]: letters in lower case, digits and '-' themselves,
    0 for the other bytes. *)
Definition lowcase : list Z :=
  List.repeat 0 32 ++
  List.repeat 0 13 ++ str "-" ++ [0; 0] ++ str "0123456789" ++ List.repeat 0 6 ++
  [0] ++ str "abcdefghijklmnopqrstuvwxyz" ++ List.repeat 0 5 ++
  [0] ++ str "abcdefghijklmnopqrstuvwxyz" ++ List.repeat 0 5 ++
  List.repeat 0 128.

Definition lowcase_of (ch : Z) : Z := List.nth (Z.to_nat ch) lowcase 0.

(** [r->lowcase_header[i] = c] *)
Definition put_lowcase (i c : Z) (r : request) : request :=
  set_lowcase_header (<[Z.to_nat i := c]> (lowcase_header r)) r.

Definition hl_invalid (s : hl_state) (hash i p : Z) (r : request) : hl_out :=
  Stop (HlReturn NGX_HTTP_PARSE_INVALID_HEADER (mk_hl s hash i (set_header_end p r))).

(** [case sw_start] *)
Definition hl_start (au : bool) (p ch : Z) (v : hl_vars) : hl_out :=
  let r := set_invalid_header false (set_header_name_start p (hl_r v)) in
  if ch =? CR then Next (mk_hl sw_header_almost_done (hl_hash v) (hl_i v) (set_header_end p r))
  else if ch =? LF then Stop (HlHeaderDone (mk_hl sw_start (hl_hash v) (hl_i v) (set_header_end p r)))
  else
    let c := lowcase_of ch in
    if negb (c =? 0) then Next (mk_hl sw_name (ngx_hash 0 c) 1 (put_lowcase 0 c r))
    else if ch =? chr "_" then
      if au then Next (mk_hl sw_name (ngx_hash 0 ch) 1 (put_lowcase 0 ch r))
      else Next (mk_hl sw_name 0 0 (set_invalid_header true r))
    else if (ch <=? 0x20) || (ch =? 0x7f) || (ch =? chr ":") then
      hl_invalid sw_name (hl_hash v) (hl_i v) p r
    else Next (mk_hl sw_name 0 0 (set_invalid_header true r)).

(** [ngx_strncmp(r->header_name_start, "HTTP", 4) == 0] *)
Definition starts_HTTP (M : mem) (a : Z) : bool :=
  (M a =? chr "H") && (M (a + 1) =? chr "T") && (M (a + 2) =? chr "T") && (M (a + 3) =? chr "P").

(** [r->lowcase_header[i++] = c; i &= (NGX_HTTP_LC_HEADER_LEN - 1);] after
    [hash = ngx_hash(hash, c);] *)
Definition hl_push (c : Z) (v : hl_vars) : hl_vars :=
  mk_hl sw_name (ngx_hash (hl_hash v) c)
    (Z.land (hl_i v + 1) (NGX_HTTP_LC_HEADER_LEN - 1)) (put_lowcase (hl_i v) c (hl_r v)).

(** [case sw_name] *)
Definition hl_name (M : mem) (au : bool) (p ch : Z) (v : hl_vars) : hl_out :=
  let '(mk_hl _ hash i r) := v in
  let c := lowcase_of ch in
  if negb (c =? 0) then Next (hl_push c v)
  else if ch =? chr "_" then
    if au then Next (hl_push ch v)
    else Next (mk_hl sw_name hash i (set_invalid_header true r))
  else if ch =? chr ":" then
    Next (mk_hl sw_space_before_value hash i (set_header_name_end p r))
  else if ch =? CR then
    Next (mk_hl sw_almost_done hash i
            (set_header_end p (set_header_start p (set_header_name_end p r))))
  else if ch =? LF then
    Stop (HlDone (mk_hl sw_name hash i
            (set_header_end p (set_header_start p (set_header_name_end p r)))))
  else if (ch =? chr "/") && upstream r && (p - header_name_start r =? 4)
          && starts_HTTP M (header_name_start r)
  then Next (mk_hl sw_ignore_line hash i r)
  else if (ch <=? 0x20) || (ch =? 0x7f) then hl_invalid sw_name hash i p r
  else Next (mk_hl sw_name hash i (set_invalid_header true r)).

(** [case sw_space_before_value] *)
Definition hl_space_before_value (p ch : Z) (v : hl_vars) : hl_out :=
  let '(mk_hl _ hash i r) := v in
  if ch =? chr " " then Next (mk_hl sw_space_before_value hash i r)
  else if ch =? CR then
    Next (mk_hl sw_almost_done hash i (set_header_end p (set_header_start p r)))
  else if ch =? LF then
    Stop (HlDone (mk_hl sw_space_before_value hash i (set_header_end p (set_header_start p r))))
  else if ch =? 0 then hl_invalid sw_space_before_value hash i p r
  else Next (mk_hl sw_value hash i (set_header_start p r)).

(** [case sw_value] *)
Definition hl_value (p ch : Z) (v : hl_vars) : hl_out :=
  let '(mk_hl _ hash i r) := v in
  if ch =? chr " " then Next (mk_hl sw_space_after_value hash i (set_header_end p r))
  else if ch =? CR then Next (mk_hl sw_almost_done hash i (set_header_end p r))
  else if ch =? LF then Stop (HlDone (mk_hl sw_value hash i (set_header_end p r)))
  else if ch =? 0 then hl_invalid sw_value hash i p r
  else Next (mk_hl sw_value hash i r).

(** [case sw_space_after_value] *)
Definition hl_space_after_value (p ch : Z) (v : hl_vars) : hl_out :=
  let '(mk_hl _ hash i r) := v in
  if ch =? chr " " then Next (mk_hl sw_space_after_value hash i r)
  else if ch =? CR then Next (mk_hl sw_almost_done hash i r)
  else if ch =? LF then Stop (HlDone v)
  else if ch =? 0 then hl_invalid sw_space_after_value hash i p r
  else Next (mk_hl sw_value hash i r).

(** [case sw_ignore_line] *)
Definition hl_ignore_line (ch : Z) (v : hl_vars) : hl_out :=
  let '(mk_hl _ hash i r) := v in
  if ch =? LF then Next (mk_hl sw_start hash i r) else Next (mk_hl sw_ignore_line hash i r).

(** [case sw_almost_done] *)
Definition hl_almost_done (ch : Z) (v : hl_vars) : hl_out :=
  if ch =? LF then Stop (HlDone v)
  else if ch =? CR then Next v
  else Stop (HlReturn NGX_HTTP_PARSE_INVALID_HEADER v).

(** [case sw_header_almost_done] *)
Definition hl_header_almost_done (ch : Z) (v : hl_vars) : hl_out :=
  if ch =? LF then Stop (HlHeaderDone v)
  else Stop (HlReturn NGX_HTTP_PARSE_INVALID_HEADER v).

(** [switch (state)]; [au] is [allow_underscores]. *)
Definition hl_step (au : bool) (M : mem) (p : Z) (v : hl_vars) : hl_out :=
  let ch := M p in
  match hl_s v with
  | sw_start => hl_start au p ch v
  | sw_name => hl_name M au p ch v
  | sw_space_before_value => hl_space_before_value p ch v
  | sw_value => hl_value p ch v
  | sw_space_after_value => hl_space_after_value p ch v
  | sw_ignore_line => hl_ignore_line ch v
  | sw_almost_done => hl_almost_done ch v
  | sw_header_almost_done => hl_header_almost_done ch v
  end.

Definition hl_load (r : request) : hl_vars :=
  mk_hl (hl_of_num (state r)) (header_hash r) (lowcase_index r) r.

(** [r->state = state; r->header_hash = hash; r->lowcase_index = i;] *)
Definition hl_save (v : hl_vars) : request :=
  set_lowcase_index (hl_i v) (set_header_hash (hl_hash v)
    (set_state (hl_num (hl_s v)) (hl_r v))).

(** The code after the labels [done] and [header_done]. *)
Definition hl_finish (x : hl_leave) (p : Z) (b : ngx_buf) : Z * request * ngx_buf :=
  match x with
  | HlDone v =>
      (NGX_OK,
       set_lowcase_index (hl_i v) (set_header_hash (hl_hash v)
         (set_state (hl_num sw_start) (hl_r v))),
       mk_buf (p + 1) (last b))
  | HlHeaderDone v =>
      (NGX_HTTP_PARSE_HEADER_DONE, set_state (hl_num sw_start) (hl_r v), mk_buf (p + 1) (last b))
  | HlReturn rc v => (rc, hl_r v, b)
  end.

Definition ngx_http_parse_header_line (au : bool) (M : mem) (r : request) (b : ngx_buf)
  : Z * request * ngx_buf :=
  match run_buf (hl_step au) M b (hl_load r) with
  | Ran v p => (NGX_AGAIN, hl_save v, mk_buf p (last b))
  | Halted x p => hl_finish x p b
  end.

(** The lower-cased key [ngx_http_process_request_headers] stores in
    [h->lowcase_key] for a parsed line. *)
Definition header_lowcase_key (M : mem) (r : request) : list Z :=
  let key := range M (header_name_start r) (header_name_end r) in
  if Z.of_nat (List.length key) =? lowcase_index r
  then take (List.length key) (lowcase_header r)
  else ngx_strlow key.

(** ** Specification *)

(** What the callers use of a result.  The end of the header carries no header
    line, so its hash and lower-cased name are not looked at. *)
Definition hl_view (x : Z * request * ngx_buf) : Z * option (request * Z) :=
  let '(rc, r, b) := x in
  if (rc =? NGX_OK) || (rc =? NGX_AGAIN) then (rc, Some (r, pos b))
  else if rc =? NGX_HTTP_PARSE_HEADER_DONE then
    (rc, Some (set_lowcase_index 0 (set_header_hash 0 r), pos b))
  else (rc, None).

(** Requests that differ at most in the saved loop variables. *)
Definition hl_same (r r' : request) : Prop :=
  exists s h i, r' = set_lowcase_index i (set_header_hash h (set_state s r)).

Definition hl_eqv (v v' : hl_vars) : Prop :=
  hl_s v' = hl_s v /\ hl_hash v' = hl_hash v /\ hl_i v' = hl_i v /\ hl_same (hl_r v) (hl_r v').

Definition hl_leave_eqv (x x' : hl_leave) : Prop :=
  match x, x' with
  | HlDone v, HlDone v' => hl_eqv v v'
  | HlHeaderDone v, HlHeaderDone v' => hl_eqv v v'
  | HlReturn rc v, HlReturn rc' v' => rc' = rc /\ rc = NGX_HTTP_PARSE_INVALID_HEADER
  | _, _ => False
  end.

(** The index into the 32 bytes of [r->lowcase_header] is in bounds, the one
    in use and the one saved by an earlier call. *)
Definition hl_index_ok (v : hl_vars) : Prop :=
  0 <= hl_i v < 32 /\ 0 <= lowcase_index (hl_r v) < 32 /\ List.length (lowcase_header (hl_r v)) = 32%nat.

(** The name read so far, [name], against the hash and the saved prefix: [k]
    of its characters were valid. *)
Definition hl_name_inv (name : list Z) (v : hl_vars) : Prop :=
  exists k : nat,
    (k <= List.length name)%nat /\ hl_i v = Z.of_nat k mod 32 /\
    (k = List.length name -> (k < 32)%nat ->
       take k (lowcase_header (hl_r v)) = ngx_strlow name) /\
    (invalid_header (hl_r v) = false ->
       k = List.length name /\ hl_hash v = ngx_hash_key (ngx_strlow name)).

Definition hl_inv (M : mem) (q : Z) (v : hl_vars) : Prop :=
  List.length (lowcase_header (hl_r v)) = 32%nat /\
  match hl_s v with
  | sw_start | sw_ignore_line | sw_header_almost_done => True
  | sw_name =>
      header_name_start (hl_r v) < q /\
      hl_name_inv (range M (header_name_start (hl_r v)) q) v
  | _ =>
      header_name_start (hl_r v) < header_name_end (hl_r v) /\
      hl_name_inv (range M (header_name_start (hl_r v)) (header_name_end (hl_r v))) v
  end.

(** ** Lemmas *)

Arguments lowcase_of : simpl never.
Arguments ngx_hash : simpl never.

Ltac hl_unfold :=
  unfold hl_step, hl_start, hl_name, hl_space_before_value, hl_value, hl_space_after_value,
    hl_ignore_line, hl_almost_done, hl_header_almost_done, hl_invalid, hl_push;
  cbv beta iota zeta.

Lemma hl_same_refl r : hl_same r r.
Proof. exists (state r), (header_hash r), (lowcase_index r). now destruct r. Qed.

Lemma hl_step_eqv au M p v v' :
  hl_eqv v v' ->
  match hl_step au M p v, hl_step au M p v' with
  | Next u, Next u' => hl_eqv u u'
  | Stop x, Stop x' => hl_leave_eqv x x'
  | _, _ => False
  end.
Proof.
  destruct v as [s h i r], v' as [s' h' i' r']. intros (Hs & Hh & Hi & (a & b & c & Hr)).
  simpl in *. subst s' h' i' r'. destruct s; hl_unfold; cbn [hl_s hl_i hl_hash hl_r];
    change (upstream (set_lowcase_index c _)) with (upstream r);
    change (header_name_start (set_lowcase_index c _)) with (header_name_start r);
    repeat match goal with |- context [if ?b then _ else _] => destruct b end;
    try done; repeat split; now exists a, b, c.
Qed.

Lemma hl_leave_rc au M p v x b r' b' :
  hl_step au M p v = Stop x -> hl_finish x p b <> (NGX_AGAIN, r', b').
Proof.
  destruct x as [u | u | rc u]; try done. intros H. simpl.
  assert (rc = NGX_HTTP_PARSE_INVALID_HEADER) as ->; [|done].
  destruct v as [s h i r]. destruct s; revert H; hl_unfold; cbn [hl_s hl_i hl_hash hl_r];
    intros H; cases_of H; now simplify_eq.
Qed.

Lemma hl_step_refl au M p v x : hl_step au M p v = Stop x -> hl_leave_eqv x x.
Proof.
  intros H. pose proof (hl_step_eqv au M p v v) as G. rewrite H in G. apply G.
  repeat split. apply hl_same_refl.
Qed.

Lemma hl_view_fin x x' p b b' :
  hl_leave_eqv x x' -> hl_view (hl_finish x p b) = hl_view (hl_finish x' p b').
Proof.
  destruct x as [[s h i r] | [s h i r] | rc u], x' as [[s' h' i' r'] | [s' h' i' r'] | rc' u'];
    try done.
  - intros (Hs & Hh & Hi & (a & c & d & Hr)). simpl in *. now subst.
  - intros (Hs & Hh & Hi & (a & c & d & Hr)). simpl in *. now subst.
  - now intros (-> & ->).
Qed.

#[export] Instance header_line_resumable au :
  Resumable (ngx_http_parse_header_line au) (fun _ => True) hl_view.
Proof.
  apply (machine_resumable (hl_step au) hl_load hl_save hl_finish hl_view hl_eqv hl_leave_eqv).
  - apply hl_step_eqv.
  - intros [s h i r]. repeat split; simpl; [now destruct s |].
    exists (state r), (header_hash r), (lowcase_index r). now destruct r.
  - apply hl_step_refl.
  - apply hl_view_fin.
  - intros [s h i r] [s' h' i' r'] p e (Hs & Hh & Hi & (a & b & c & Hr)). simpl in *. now subst.
  - apply hl_leave_rc.
Qed.

Lemma hl_index_step au M p v v' :
  hl_index_ok v -> hl_step au M p v = Next v' -> hl_index_ok v'.
Proof.
  unfold hl_index_ok. destruct v as [s h i r]. intros (Hi & Hx & Hl).
  assert (G : 0 <= Z.land (i + 1) (NGX_HTTP_LC_HEADER_LEN - 1) < 32).
  { change (NGX_HTTP_LC_HEADER_LEN - 1) with (Z.ones 5).
    rewrite Z.land_ones by lia. apply Z.mod_pos_bound. lia. }
  destruct s; hl_unfold; cbn [hl_s hl_i hl_hash hl_r] in *; intros H; cases_of H;
    try discriminate H; injection H as <-; cbn -[Z.land NGX_HTTP_LC_HEADER_LEN];
    rewrite ?length_insert; (split; [done || lia | split; done]).
Qed.

Lemma hl_stop_index au M p v x :
  hl_index_ok v -> hl_step au M p v = Stop x ->
  match x with HlDone u | HlHeaderDone u | HlReturn _ u => hl_index_ok u end.
Proof.
  unfold hl_index_ok. destruct v as [s h i r].
  destruct s; hl_unfold; cbn [hl_s hl_i hl_hash hl_r] in *; intros Hi H; cases_of H;
    try discriminate H; injection H as <-; exact Hi.
Qed.

Lemma lowcase_tolower ch : byte ch -> lowcase_of ch <> 0 -> lowcase_of ch = ngx_tolower ch.
Proof.
  intros Hb Hc. assert (G : (lowcase_of ch =? 0) || (lowcase_of ch =? ngx_tolower ch) = true).
  { revert ch Hb Hc. intros ch Hb _. revert ch Hb.
    byte_cases (fun ch => (lowcase_of ch =? 0) || (lowcase_of ch =? ngx_tolower ch)). }
  lia.
Qed.

(** Reading a valid name character. *)
Lemma hl_push_inv name v c d :
  List.length (lowcase_header (hl_r v)) = 32%nat ->
  hl_name_inv name v -> d = ngx_tolower c -> hl_name_inv (name ++ [c]) (hl_push d v).
Proof.
  intros Hl (k & Hk & Hi & Hpre & Hval) ->. exists (S k).
  rewrite List.length_app. simpl List.length. split; [lia |]. split; [|split].
  - unfold hl_push. cbn [hl_i]. change (NGX_HTTP_LC_HEADER_LEN - 1) with (Z.ones 5).
    rewrite Z.land_ones, Hi by lia. change (2 ^ 5) with 32.
    rewrite Z.add_mod_idemp_l by lia. f_equal. lia.
  - intros E Hlt. simpl. rewrite Hi, Z.mod_small, Nat2Z.id by lia.
    rewrite (take_S_r _ _ (ngx_tolower c)) by (apply list_lookup_insert_eq; lia).
    rewrite take_insert_ge, Hpre, ngx_strlow_app by lia. done.
  - intros E. apply Hval in E as [Ek E]. split; [lia |].
    unfold hl_push. cbn [hl_hash]. rewrite E, ngx_strlow_app.
    change (ngx_strlow [c]) with [ngx_tolower c]. now rewrite ngx_hash_key_snoc.
Qed.

(** A character that is not counted: the line is marked invalid. *)
Lemma hl_skip_inv name v c s r' :
  hl_name_inv name v -> invalid_header r' = true ->
  lowcase_header r' = lowcase_header (hl_r v) ->
  hl_name_inv (name ++ [c]) (mk_hl s (hl_hash v) (hl_i v) r').
Proof.
  intros (k & Hk & Hi & Hpre & Hval) Hinv Hlow. exists k.
  rewrite List.length_app. simpl. split; [lia |]. split; [done |].
  split; [lia | congruence].
Qed.

Lemma hl_first_inv (c d : Z) h s r :
  List.length (lowcase_header r) = 32%nat -> d = ngx_tolower c -> h = ngx_hash 0 d ->
  hl_name_inv [c] (mk_hl s h 1 (put_lowcase 0 d r)).
Proof.
  intros Hl -> ->. exists 1%nat. simpl. split; [lia |]. split; [done |]. split; [|done].
  intros _ _. destruct (lowcase_header r); done.
Qed.

Lemma hl_none_inv c s h r : invalid_header r = true -> hl_name_inv [c] (mk_hl s h 0 r).
Proof.
  intros Hr. exists 0%nat. simpl List.length. split; [lia |]. split; [done |].
  split; [lia |]. simpl. congruence.
Qed.

Lemma length_put_lowcase i c r :
  List.length (lowcase_header (put_lowcase i c r)) = List.length (lowcase_header r).
Proof. apply length_insert. Qed.

Lemma tolower_underscore c : (c =? chr "_") = true -> c = ngx_tolower c.
Proof. intros ->%Z.eqb_eq. done. Qed.

Lemma hl_inv_step au M q v v' :
  (forall x, byte (M x)) -> hl_inv M q v -> hl_step au M q v = Next v' -> hl_inv M (q + 1) v'.
Proof.
  intros Hb. unfold hl_inv. destruct v as [s h i r]. cbn [hl_s hl_i hl_hash hl_r].
  intros [Hl Hs] H.
  pose proof (fun E => lowcase_tolower (M q) (Hb q) (proj1 (Z.eqb_neq _ _) E)) as Hlow.
  assert (Hone : range M q (q + 1) = [M q]) by now rewrite range_snoc, range_nil by lia.
  destruct s; revert H; hl_unfold; cbn [hl_s hl_i hl_hash hl_r]; intros H;
    cases_of_eq H; try discriminate H; injection H as <-; cbn [hl_s hl_i hl_hash hl_r].
  all: try match goal with E : negb _ = true |- _ => apply negb_true_iff, Hlow in E end.
  all: try match goal with E : (_ =? 95) = true |- _ => apply tolower_underscore in E end.
  all: try (split; [done | exact Hs || exact I]).
  all: split; [rewrite ?length_put_lowcase; exact Hl |].
  1-4: change (header_name_start _) with q; rewrite Hone; split; [lia |];
    now (apply hl_first_inv || apply hl_none_inv).
  all: destruct Hs as [Hlt Hs].
  1-4: change (header_name_start _) with (header_name_start r); split; [lia |];
    rewrite range_snoc by lia.
  - now apply (hl_push_inv _ (mk_hl sw_name h i r)).
  - now apply (hl_push_inv _ (mk_hl sw_name h i r)).
  - now apply (hl_skip_inv _ (mk_hl sw_name h i r)).
  - now apply (hl_skip_inv _ (mk_hl sw_name h i r)).
Qed.

Lemma hl_done_inv au M q t v :
  hl_inv M q t -> hl_step au M q t = Stop (HlDone v) ->
  List.length (lowcase_header (hl_r v)) = 32%nat /\
  header_name_start (hl_r v) < header_name_end (hl_r v) /\
  hl_name_inv (range M (header_name_start (hl_r v)) (header_name_end (hl_r v))) v.
Proof.
  unfold hl_inv. destruct t as [s h i r]. cbn [hl_s hl_r]. intros [Hl Hs].
  destruct s; hl_unfold; cbn [hl_s hl_i hl_hash hl_r]; intros H; cases_of H;
    try discriminate H; injection H as <-; split; done.
Qed.

(** The branch of the caller that copies the saved prefix does so only when
    the whole name is in it. *)
Lemma key_of_name_inv M v :
  let r := hl_r v in
  let name := range M (header_name_start r) (header_name_end r) in
  List.length (lowcase_header r) = 32%nat -> hl_name_inv name v ->
  header_lowcase_key M (set_lowcase_index (hl_i v) (set_header_hash (hl_hash v)
    (set_state 0 r))) = ngx_strlow name.
Proof.
  intros r name Hl (k & Hk & Hi & Hpre & _). unfold header_lowcase_key.
  cbn [header_name_start header_name_end lowcase_index lowcase_header].
  change (header_name_start _) with (header_name_start r).
  change (header_name_end _) with (header_name_end r). fold name.
  change (lowcase_header _) with (lowcase_header r). change (lowcase_index _) with (hl_i v).
  destruct (Z.eqb_spec (Z.of_nat (List.length name)) (hl_i v)) as [E|]; [|done].
  pose proof (Z.mod_pos_bound (Z.of_nat k) 32 ltac:(lia)) as Hm.
  pose proof (Z.mod_le (Z.of_nat k) 32 ltac:(lia) ltac:(lia)) as Hle.
  assert (k = List.length name) as -> by lia. apply Hpre; [done | lia].
Qed.

Lemma header_done au M r b r' b' :
  (forall x, byte (M x)) -> state r = 0 -> List.length (lowcase_header r) = 32%nat ->
  ngx_http_parse_header_line au M r b = (NGX_OK, r', b') ->
  let name := range M (header_name_start r') (header_name_end r') in
  name <> [] /\ header_lowcase_key M r' = ngx_strlow name /\
  (invalid_header r' = false -> header_hash r' = ngx_hash_key (ngx_strlow name)).
Proof.
  intros Hb Hs Hl. unfold ngx_http_parse_header_line, run_buf.
  pose proof (run_invariant (hl_step au) (hl_inv M) (Z.to_nat (last b - pos b)) M (pos b)
    (hl_load r)) as G.
  destruct (run _ _ _ _ _) as [v p | x p]; [discriminate |].
  destruct G as (t & Ht & E & _).
  { unfold hl_inv, hl_load. rewrite Hs. done. }
  { intros q u u' _. now apply hl_inv_step. }
  destruct x as [v | v | rc v]; cbn [hl_finish]; intros H; try discriminate H.
  2:{ assert (rc = NGX_OK) as -> by now injection H.
      exfalso. destruct t as [s h i r0]. destruct s; revert E; hl_unfold; cbn [hl_s hl_i hl_hash hl_r];
      intros E; cases_of E; discriminate E. }
  injection H as <- _. destruct (hl_done_inv au M p t v Ht E) as (Hl' & Hlt & Hn).
  split; [|split].
  - change (range M _ _ <> []) with (range M (header_name_start (hl_r v)) (header_name_end (hl_r v)) <> []).
    now rewrite range_cons by lia.
  - exact (key_of_name_inv M v Hl' Hn).
  - destruct Hn as (k & _ & _ & _ & Hv). exact (fun Hi => proj2 (Hv Hi)).
Qed.

(** The part of the result the round trip is about, while the name is read. *)
Definition hl_in_name (a : Z) (v : hl_vars) : Prop :=
  hl_s v = sw_name /\ header_name_start (hl_r v) = a /\ invalid_header (hl_r v) = false.

Definition name_char (au : bool) (c : Z) : Prop :=
  lowcase_of c <> 0 \/ (c = chr "_" /\ au = true).

Lemma walk_name au n M a name r :
  state r = 0 -> name <> [] -> Forall (name_char au) name -> holds M a name ->
  exists v, hl_in_name a v /\
    run (hl_step au) (List.length name + n) M a (hl_load r) =
    run (hl_step au) n M (a + Z.of_nat (List.length name)) v.
Proof.
  intros Hs Hne Hf HM. destruct name as [|c name]; [done |].
  apply Forall_cons_1 in Hf as [Hc Hf]. destruct HM as [Hm HM].
  assert (E : exists v, hl_step au M a (hl_load r) = Next v /\ hl_in_name a v).
  { unfold hl_load. rewrite Hs. change (hl_of_num 0) with sw_start.
    hl_unfold. cbn [hl_s hl_r hl_hash hl_i]. rewrite Hm.
    assert (c <> CR /\ c <> LF) as [H1 H2] by (split; intros ->; destruct Hc as [Hc | [Hc _]]; done).
    rewrite (proj2 (Z.eqb_neq _ _) H1), (proj2 (Z.eqb_neq _ _) H2).
    destruct (Z.eqb_spec (lowcase_of c) 0) as [H0 | H0]; simpl negb; cbv iota.
    - destruct Hc as [Hc | [-> ->]]; [done |]. eexists; split; [reflexivity | done].
    - eexists; split; [reflexivity | done]. }
  destruct E as (v & E & Hv). simpl. rewrite E.
  destruct (walk_inv (hl_step au) (hl_in_name a) n name M (a + 1) v HM Hv) as (v' & Hv' & G).
  { intros q [s h i r'] _ Hin (Hs' & Ha & Hi). cbn in Hs', Ha, Hi. subst s.
    rewrite List.Forall_forall in Hf. specialize (Hf _ Hin).
    hl_unfold. cbn [hl_s hl_r hl_hash hl_i].
    destruct (Z.eqb_spec (lowcase_of (M q)) 0) as [H0 | H0]; simpl negb; cbv iota.
    - destruct Hf as [Hf | [-> ->]]; [done |]. eexists; split; [reflexivity | done].
    - eexists; split; [reflexivity | done]. }
  exists v'. split; [done |]. rewrite G. f_equal. lia.
Qed.

(** A value: no line end, no NUL, no space at either end. *)
Definition value_ok (value : list Z) : Prop :=
  Forall (fun c => c <> CR /\ c <> LF /\ c <> 0) value /\
  List.hd 0 value <> chr " " /\ list.last value <> Some (chr " ").

(** In the value, from [v0] on: [header_end] is where the run of spaces that
    ends at [q] began, if there is one. *)
Definition hl_in_value (M : mem) (v0 h i : Z) (r0 : request) (q : Z) (v : hl_vars) : Prop :=
  exists e s, v = mk_hl s h i (set_header_end e r0) /\ v0 < q /\
    ((s = sw_value /\ M (q - 1) <> chr " ") \/
     (s = sw_space_after_value /\ v0 < e < q /\ M (e - 1) <> chr " " /\
      forall x, e <= x < q -> M x = chr " ")).

Lemma hl_in_value_step au M v0 h i r0 q v :
  M q <> CR -> M q <> LF -> M q <> 0 -> hl_in_value M v0 h i r0 q v ->
  exists v', hl_step au M q v = Next v' /\ hl_in_value M v0 h i r0 (q + 1) v'.
Proof.
  intros H1 H2 H3 (e & s & -> & Hq & Hs).
  assert (Hq1 : M (q + 1 - 1) = M q) by (f_equal; lia).
  destruct Hs as [[-> Hp] | (-> & He & Hp & Hsp)]; hl_unfold; cbn [hl_s hl_r hl_hash hl_i];
    rewrite (proj2 (Z.eqb_neq _ _) H1), (proj2 (Z.eqb_neq _ _) H2), (proj2 (Z.eqb_neq _ _) H3);
    destruct (Z.eqb_spec (M q) (chr " ")) as [E | E]; eexists; (split; [reflexivity |]).
  - exists q, sw_space_after_value. split; [reflexivity |]. split; [lia |]. right.
    split; [done |]. split; [lia |]. split; [done |]. intros x Hx. now replace x with q by lia.
  - exists e, sw_value. split; [reflexivity |]. split; [lia |]. left. now rewrite Hq1.
  - exists e, sw_space_after_value. split; [reflexivity |]. split; [lia |]. right.
    split; [done |]. split; [lia |]. split; [done |]. intros x Hx.
    destruct (Z.eq_dec x q) as [-> | ]; [done | apply Hsp; lia].
  - exists e, sw_value. split; [reflexivity |]. split; [lia |]. left. now rewrite Hq1.
Qed.

(** At the end of the line [header_end] is past the last character of the
    value that is not a space. *)
Lemma hl_value_cr au M v0 h i r0 q v :
  M q = CR -> hl_in_value M v0 h i r0 q v ->
  exists e, hl_step au M q v = Next (mk_hl sw_almost_done h i (set_header_end e r0)) /\
    v0 < e <= q /\ M (e - 1) <> chr " " /\ (forall x, e <= x < q -> M x = chr " ").
Proof.
  intros H (e & s & -> & Hq & Hs).
  destruct Hs as [[-> Hp] | (-> & He & Hp & Hsp)]; hl_unfold; cbn [hl_s hl_r hl_hash hl_i];
    rewrite H; cbn [Z.eqb Pos.eqb]; eexists; (split; [reflexivity |]).
  - split; [lia |]. split; [done |]. lia.
  - split; [lia |]. done.
Qed.

Definition header_line_bytes (name : list Z) (k : nat) (value : list Z) (j : nat) : list Z :=
  name ++ [chr ":"] ++ List.repeat (chr " ") k ++ value ++ List.repeat (chr " ") j ++ [CR; LF].

(** Spaces before the value. *)
Lemma walk_spaces au n k M p h i r :
  holds M p (List.repeat (chr " ") k) ->
  run (hl_step au) (k + n) M p (mk_hl sw_space_before_value h i r) =
  run (hl_step au) n M (p + Z.of_nat k) (mk_hl sw_space_before_value h i r).
Proof.
  intros HM. apply run_stay. intros q Hq.
  pose proof (holds_repeat _ _ _ _ HM q Hq) as E.
  hl_unfold. cbn [hl_s hl_r hl_hash hl_i]. now rewrite E.
Qed.

Lemma walk_line_end au n M p h i r :
  holds M p [CR; LF] ->
  run (hl_step au) (2 + n) M p (mk_hl sw_space_before_value h i r) =
  Halted (HlDone (mk_hl sw_almost_done h i (set_header_end p (set_header_start p r)))) (p + 1).
Proof.
  intros (H1 & H2 & _). simpl run. hl_unfold. cbn [hl_s hl_r hl_hash hl_i]. rewrite H1.
  cbn [Z.eqb Pos.eqb hl_s]. now rewrite H2.
Qed.

Lemma walk_value au n M p h i r value j :
  value_ok value -> holds M p (value ++ List.repeat (chr " ") j ++ [CR; LF]) ->
  exists w e,
    run (hl_step au) (List.length (value ++ List.repeat (chr " ") j ++ [CR; LF]) + n) M p
      (mk_hl sw_space_before_value h i r) =
    Halted (HlDone (mk_hl sw_almost_done h i (set_header_end e (set_header_start w r))))
      (p + Z.of_nat (List.length (value ++ List.repeat (chr " ") j)) + 1) /\
    w <= e /\ range M w e = value.
Proof.
  intros (Hf & Hhd & Hlast) HM. destruct value as [|c value].
  - simpl in HM. apply holds_app in HM as [Hsp HM]. rewrite List.repeat_length in HM.
    exists (p + Z.of_nat j), (p + Z.of_nat j). split; [| split; [lia | now rewrite range_nil by lia]].
    rewrite !app_nil_l, List.length_app, List.repeat_length.
    rewrite <- Nat.add_assoc, walk_spaces by done. now apply walk_line_end.
  - rewrite app_assoc in HM |- *. rewrite walk_app.
    set (l := (c :: value) ++ List.repeat 32 j) in *. apply holds_app in HM as [Hl HM].
    set (q := p + Z.of_nat (List.length l)) in *.
    assert (Hin : forall x, In x l -> x <> CR /\ x <> LF /\ x <> 0).
    { intros x [Hx | Hx]%List.in_app_or.
      - rewrite List.Forall_forall in Hf. auto.
      - apply List.repeat_spec in Hx as ->. done. }
    set (l' := value ++ List.repeat 32 j). assert (El : l = c :: l') by done.
    pose proof Hl as Hl0. rewrite El in Hl. destruct Hl as [Hc Hl].
    destruct (Hin c) as (C1 & C2 & C3); [rewrite El; now left |]. simpl in Hhd.
    assert (E : hl_step au M p (mk_hl sw_space_before_value h i r) =
                Next (mk_hl sw_value h i (set_header_start p r))).
    { hl_unfold. cbn [hl_s hl_r hl_hash hl_i]. rewrite Hc.
      now rewrite !(proj2 (Z.eqb_neq _ _)) by done. }
    rewrite El. simpl List.length. simpl Nat.add. rewrite (run_next _ _ _ _ _ _ E).
    destruct (walk_inv_at (hl_step au) (hl_in_value M p h i (set_header_start p r))
      (S (S n)) l' M (p + 1) (mk_hl sw_value h i (set_header_start p r)) Hl) as (v & Hv & G).
    { exists (header_end r), sw_value. split; [now destruct r |]. split; [lia |]. left.
      split; [done |]. replace (p + 1 - 1) with p by lia. congruence. }
    { intros x t _ Hx Ht. destruct (Hin (M x)) as (D1 & D2 & D3); [rewrite El; now right |].
      now apply hl_in_value_step. }
    rewrite G. destruct HM as (Hcr & Hlf & _).
    replace (p + 1 + Z.of_nat (List.length l')) with q in *
      by (unfold q; rewrite El; simpl List.length; lia).
    destruct (hl_value_cr au M p h i _ q v Hcr Hv) as (e & Ev & He & Hne & Hsp).
    exists p, e. split; [|split; [lia |]].
    + rewrite (run_next _ _ _ _ _ _ Ev).
      simpl run. hl_unfold. cbn [hl_s hl_r hl_hash hl_i]. rewrite Hlf.
      cbn [Z.eqb Pos.eqb]. reflexivity.
    + apply (pad_unique (chr " ") _ _ (Z.to_nat (q - e)) j).
      * rewrite <- (Z.sub_add 1 e), range_snoc, last_snoc by lia. congruence.
      * done.
      * rewrite <- (range_repeat M e q 32), <- range_app by (done || lia).
        now apply holds_range.
Qed.

(** ** Properties *)

(** However a header line arrives, cut into any pieces, the read loop's
    outcome is that of parsing it in one buffer: the saved state, hash and
    lower-case index lose nothing. *)
Theorem header_line_any_split au M r a m arrivals :
  a <= m ->
  hl_view (feed (ngx_http_parse_header_line au) M r (mk_buf a m) arrivals) =
  hl_view (ngx_http_parse_header_line au M r (mk_buf a (m + total arrivals))).
Proof. intros H. now apply feed_whole. Qed.

(** C33: the index into the 32 bytes of [r->lowcase_header] that is saved
    between calls and used for the next write stays below 32, for every input
    and whatever the outcome: the loop keeps it in bounds at every byte. *)
Theorem header_line_index_in_bounds au M r b rc r' b' :
  0 <= lowcase_index r < 32 -> List.length (lowcase_header r) = 32%nat ->
  ngx_http_parse_header_line au M r b = (rc, r', b') ->
  0 <= lowcase_index r' < 32 /\ List.length (lowcase_header r') = 32%nat.
Proof.
  intros Hi Hl H. unfold ngx_http_parse_header_line, run_buf in H.
  pose proof (run_invariant (hl_step au) (fun _ => hl_index_ok) (Z.to_nat (last b - pos b)) M
    (pos b) (hl_load r) (conj Hi (conj Hi Hl))) as G.
  specialize (G ltac:(intros; eapply hl_index_step; eauto)).
  destruct (run _ _ _ _ _) as [v p | x p].
  - destruct G as [(G1 & _ & G3) _]. injection H as <- <- <-. exact (conj G1 G3).
  - destruct G as (t & Ht & E & _). apply (hl_stop_index au M p t x Ht) in E.
    destruct x, E as (E1 & E2 & E3); injection H as <- <- <-;
      [exact (conj E1 E3) | exact (conj E2 E3) ..].
Qed.

(** when a line is complete, in however many pieces it came, the key the
    caller stores is the whole name in lower case (whether it copies the saved
    prefix or lower-cases the name again), and the hash of a valid name is the
    hash of that key, the one the header handlers are looked up by. *)
Theorem header_key_of_name au M r a m arrivals r' b' :
  (forall x, byte (M x)) -> state r = 0 -> List.length (lowcase_header r) = 32%nat ->
  a <= m ->
  feed (ngx_http_parse_header_line au) M r (mk_buf a m) arrivals = (NGX_OK, r', b') ->
  range M (header_name_start r') (header_name_end r') <> [] /\
  header_lowcase_key M r' = ngx_strlow (range M (header_name_start r') (header_name_end r')) /\
  (invalid_header r' = false -> header_hash r' = ngx_hash_key (header_lowcase_key M r')).
Proof.
  intros Hb Hs Hl Ham H.
  pose proof (feed_whole (parse := ngx_http_parse_header_line au) M r a m arrivals I Ham) as E.
  rewrite H in E.
  destruct (ngx_http_parse_header_line au M r _) as [[rc r1] b1] eqn:P.
  assert (rc = NGX_OK /\ r1 = r') as [-> ->].
  { revert E. unfold hl_view. destruct (Z.eqb_spec rc NGX_OK) as [-> |]; [now injection 1 |].
    destruct (rc =? NGX_AGAIN); [injection 1; congruence |].
    destruct (rc =? NGX_HTTP_PARSE_HEADER_DONE); injection 1; congruence. }
  destruct (header_done au M r _ r' b1 Hb Hs Hl P) as (H1 & H2 & H3).
  split; [done |]. split; [done |]. intros Hi. rewrite H2. now apply H3.
Qed.

(** a header line "name: value" of valid name characters, any spaces
    around the value, is accepted; the ranges handed to the caller are exactly
    the name and the value without the surrounding spaces, and the buffer is
    left right after the line. *)
Theorem header_line_parses au M r a b name k value j :
  state r = 0 -> name <> [] -> Forall (name_char au) name -> value_ok value ->
  holds M a (header_line_bytes name k value j) ->
  a + Z.of_nat (List.length (header_line_bytes name k value j)) <= b ->
  exists r',
    ngx_http_parse_header_line au M r (mk_buf a b) =
      (NGX_OK, r', mk_buf (a + Z.of_nat (List.length (header_line_bytes name k value j))) b) /\
    range M (header_name_start r') (header_name_end r') = name /\
    range M (header_start r') (header_end r') = value /\
    invalid_header r' = false /\ state r' = 0.
Proof.
  intros Hs Hne Hname Hval HM Hb. unfold header_line_bytes in *.
  set (rest := value ++ List.repeat 32 j ++ [CR; LF]) in *.
  apply holds_app in HM as [Hn HM]. apply holds_app in HM as [[Hcol _] HM].
  apply holds_app in HM as [Hsp HM]. rewrite List.repeat_length in HM.
  set (q := a + Z.of_nat (List.length name)) in *.
  change (q + Z.of_nat (List.length [58])) with (q + 1) in *.
  assert (HL : List.length (name ++ [58] ++ List.repeat 32 k ++ rest) =
               (List.length name + (1 + (k + List.length rest)))%nat).
  { rewrite !List.length_app, List.repeat_length. done. }
  rewrite HL in *.
  set (n := (Z.to_nat (b - a) - (List.length name + (1 + (k + List.length rest))))%nat).
  destruct (walk_name au (1 + (k + (List.length rest + n))) M a name r Hs Hne Hname Hn)
    as ([s h i r1] & (Es & Ea & Ei) & E). cbn [hl_s hl_r] in Es, Ea, Ei. subst s.
  unfold ngx_http_parse_header_line, run_buf. cbn [pos last].
  replace (Z.to_nat (b - a)) with (List.length name + (1 + (k + (List.length rest + n))))%nat by lia.
  rewrite E.
  assert (Ec : hl_step au M q (mk_hl sw_name h i r1) =
               Next (mk_hl sw_space_before_value h i (set_header_name_end q r1))).
  { hl_unfold. cbn [hl_s hl_r hl_hash hl_i]. now rewrite Hcol. }
  change (1 + (k + (List.length rest + n)))%nat with (S (k + (List.length rest + n))).
  fold q. rewrite (run_next _ _ _ _ _ _ Ec), walk_spaces by done.
  destruct (walk_value au n M (q + 1 + Z.of_nat k) h i (set_header_name_end q r1) value j
    Hval HM) as (w & e & G & Hwe & Hr). fold rest in G. rewrite G.
  cbn [hl_finish hl_i hl_hash hl_r last]. eexists. split; [|split; [|split; [|split]]].
  - do 2 f_equal. unfold q, rest. rewrite !List.length_app. simpl List.length. lia.
  - change (header_name_start _) with (header_name_start r1).
    change (header_name_end _) with q. rewrite Ea. now apply holds_range.
  - exact Hr.
  - exact Ei.
  - reflexivity.
Qed.

(** ** Witnesses *)

Definition ex_header : list Z :=
  header_line_bytes (str "Content-Type") 1 (str "text/html; q=1") 2.
Definition ex_mem : mem := mem_of 100 ex_header.

Lemma ex_mem_byte x : byte (ex_mem x).
Proof. now apply mem_of_byte. Qed.

Lemma header_line_any_split_witness :
  hl_view (feed (ngx_http_parse_header_line false) ex_mem (request0 false) (mk_buf 100 102)
             [9; 0; 12; 9]%nat) =
  hl_view (ngx_http_parse_header_line false ex_mem (request0 false) (mk_buf 100 132)) /\
  fst (hl_view (ngx_http_parse_header_line false ex_mem (request0 false) (mk_buf 100 132))) = NGX_OK.
Proof.
  split; [|reflexivity].
  apply (header_line_any_split false ex_mem (request0 false) 100 102 [9; 0; 12; 9]%nat). lia.
Defined.

Lemma header_line_index_in_bounds_witness :
  let x := ngx_http_parse_header_line false ex_mem (request0 false) (mk_buf 100 132) in
  0 <= lowcase_index (snd (fst x)) < 32 /\ List.length (lowcase_header (snd (fst x))) = 32%nat.
Proof.
  apply (header_line_index_in_bounds false ex_mem (request0 false) (mk_buf 100 132) NGX_OK _
           (mk_buf 132 132)); [easy | reflexivity | vm_compute; reflexivity].
Defined.

Lemma header_key_of_name_witness :
  let r := snd (fst (feed (ngx_http_parse_header_line false) ex_mem (request0 false)
                       (mk_buf 100 102) [9; 0; 12; 9]%nat)) in
  header_lowcase_key ex_mem r = str "content-type" /\
  header_hash r = ngx_hash_key (str "content-type").
Proof.
  destruct (header_key_of_name false ex_mem (request0 false) 100 102 [9; 0; 12; 9]%nat
    (snd (fst (feed (ngx_http_parse_header_line false) ex_mem (request0 false)
                       (mk_buf 100 102) [9; 0; 12; 9]%nat))) (mk_buf 132 132)) as (_ & H & G).
  - apply ex_mem_byte.
  - reflexivity.
  - reflexivity.
  - lia.
  - vm_compute. reflexivity.
  - split; [exact (eq_trans H eq_refl) | exact (eq_trans (G eq_refl) (f_equal ngx_hash_key H))].
Defined.

Lemma header_line_parses_witness :
  exists r',
    ngx_http_parse_header_line false ex_mem (request0 false) (mk_buf 100 132) =
      (NGX_OK, r', mk_buf 132 132) /\
    range ex_mem (header_name_start r') (header_name_end r') = str "Content-Type" /\
    range ex_mem (header_start r') (header_end r') = str "text/html; q=1" /\
    invalid_header r' = false /\ state r' = 0.
Proof.
  apply (header_line_parses false ex_mem (request0 false) 100 132
           (str "Content-Type") 1 (str "text/html; q=1") 2).
  - reflexivity.
  - discriminate.
  - repeat constructor; vm_compute; discriminate.
  - split; [repeat constructor; discriminate |]. split; discriminate.
  - apply mem_of_holds.
  - vm_compute. discriminate.
Defined.

End HeaderLine.
