(* ===== verification/HttpStatusLine.v ===== *)
(** The parser of an upstream's status line, [ngx_http_parse_status_line]
    (src/http/ngx_http_parse.c), one definition per state of its switch. *)
From S2P Require Import Prelude HttpRequest.

Module StatusLine.

Inductive sl_state :=
| sw_start
| sw_H
| sw_HT
| sw_HTT
| sw_HTTP
| sw_first_major_digit
| sw_major_digit
| sw_first_minor_digit
| sw_minor_digit
| sw_status
| sw_space_after_status
| sw_status_text
| sw_almost_done.

Definition sl_states : list sl_state :=
  [sw_start; sw_H; sw_HT; sw_HTT; sw_HTTP; sw_first_major_digit; sw_major_digit;
   sw_first_minor_digit; sw_minor_digit; sw_status; sw_space_after_status; sw_status_text;
   sw_almost_done].

Definition sl_num (s : sl_state) : Z :=
  match s with
  | sw_start => 0 | sw_H => 1 | sw_HT => 2 | sw_HTT => 3 | sw_HTTP => 4
  | sw_first_major_digit => 5 | sw_major_digit => 6 | sw_first_minor_digit => 7
  | sw_minor_digit => 8 | sw_status => 9 | sw_space_after_status => 10
  | sw_status_text => 11 | sw_almost_done => 12
  end.

Definition sl_of_num (z : Z) : sl_state := List.nth (Z.to_nat z) sl_states sw_start.

(** [ngx_http_status_t] *)
Record status := mk_status {
  st_http_version : Z;
  code : Z;
  count : Z;
  start : Z;
  st_end : Z
}.

Definition set_st_end (z : Z) (st : status) : status :=
  mk_status (st_http_version st) (code st) (count st) (start st) z.

(** The local [state], the request and the status being filled. *)
Record sl_vars := mk_sl { sl_s : sl_state; sl_r : request; sl_st : status }.

Definition sl_out : Type := step_out sl_vars (leave sl_vars).

Definition sl_goto (s : sl_state) (v : sl_vars) : sl_out := Next (mk_sl s (sl_r v) (sl_st v)).
Definition sl_error (v : sl_vars) : sl_out := Stop (Return NGX_ERROR v).

(** A state that accepts one character: [sw_start], [sw_H], [sw_HT],
    [sw_HTT] and [sw_HTTP]. *)
Definition sl_expect (c : Z) (s : sl_state) (ch : Z) (v : sl_vars) : sl_out :=
  if ch =? c then sl_goto s v else sl_error v.

(** [case sw_first_major_digit] *)
Definition sl_first_major_digit (ch : Z) (v : sl_vars) : sl_out :=
  if (ch <? chr "1") || (chr "9" <? ch) then sl_error v
  else Next (mk_sl sw_major_digit (set_http_major (ch - chr "0") (sl_r v)) (sl_st v)).

(** [case sw_major_digit] *)
Definition sl_major_digit (ch : Z) (v : sl_vars) : sl_out :=
  if ch =? chr "." then sl_goto sw_first_minor_digit v
  else if (ch <? chr "0") || (chr "9" <? ch) then sl_error v
  else if 99 <? http_major (sl_r v) then sl_error v
  else
    Next (mk_sl sw_major_digit
      (set_http_major (http_major (sl_r v) * 10 + (ch - chr "0")) (sl_r v)) (sl_st v)).

(** [case sw_first_minor_digit] *)
Definition sl_first_minor_digit (ch : Z) (v : sl_vars) : sl_out :=
  if (ch <? chr "0") || (chr "9" <? ch) then sl_error v
  else Next (mk_sl sw_minor_digit (set_http_minor (ch - chr "0") (sl_r v)) (sl_st v)).

(** [case sw_minor_digit] *)
Definition sl_minor_digit (ch : Z) (v : sl_vars) : sl_out :=
  if ch =? chr " " then sl_goto sw_status v
  else if (ch <? chr "0") || (chr "9" <? ch) then sl_error v
  else if 99 <? http_minor (sl_r v) then sl_error v
  else
    Next (mk_sl sw_minor_digit
      (set_http_minor (http_minor (sl_r v) * 10 + (ch - chr "0")) (sl_r v)) (sl_st v)).

(** [case sw_status] *)
Definition sl_status (p ch : Z) (v : sl_vars) : sl_out :=
  if ch =? chr " " then Next v
  else if (ch <? chr "0") || (chr "9" <? ch) then sl_error v
  else
    let st := sl_st v in
    let code' := code st * 10 + (ch - chr "0") in
    let count' := count st + 1 in
    if count' =? 3 then
      Next (mk_sl sw_space_after_status (sl_r v)
        (mk_status (st_http_version st) code' count' (p - 2) (st_end st)))
    else
      Next (mk_sl sw_status (sl_r v)
        (mk_status (st_http_version st) code' count' (start st) (st_end st))).

(** [case sw_space_after_status] *)
Definition sl_space_after_status (ch : Z) (v : sl_vars) : sl_out :=
  if (ch =? chr " ") || (ch =? chr ".") then sl_goto sw_status_text v
  else if ch =? CR then sl_goto sw_almost_done v
  else if ch =? LF then Stop (Done v)
  else sl_error v.

(** [case sw_status_text] *)
Definition sl_status_text (ch : Z) (v : sl_vars) : sl_out :=
  if ch =? CR then sl_goto sw_almost_done v
  else if ch =? LF then Stop (Done v)
  else Next v.

(** [case sw_almost_done] *)
Definition sl_almost_done (p ch : Z) (v : sl_vars) : sl_out :=
  let v' := mk_sl (sl_s v) (sl_r v) (set_st_end (p - 1) (sl_st v)) in
  if ch =? LF then Stop (Done v') else sl_error v'.

Definition sl_step (M : mem) (p : Z) (v : sl_vars) : sl_out :=
  let ch := M p in
  match sl_s v with
  | sw_start => sl_expect (chr "H") sw_H ch v
  | sw_H => sl_expect (chr "T") sw_HT ch v
  | sw_HT => sl_expect (chr "T") sw_HTT ch v
  | sw_HTT => sl_expect (chr "P") sw_HTTP ch v
  | sw_HTTP => sl_expect (chr "/") sw_first_major_digit ch v
  | sw_first_major_digit => sl_first_major_digit ch v
  | sw_major_digit => sl_major_digit ch v
  | sw_first_minor_digit => sl_first_minor_digit ch v
  | sw_minor_digit => sl_minor_digit ch v
  | sw_status => sl_status p ch v
  | sw_space_after_status => sl_space_after_status ch v
  | sw_status_text => sl_status_text ch v
  | sw_almost_done => sl_almost_done p ch v
  end.

Definition sl_load (x : request * status) : sl_vars :=
  mk_sl (sl_of_num (state (fst x))) (fst x) (snd x).

Definition sl_save (v : sl_vars) : request * status :=
  (set_state (sl_num (sl_s v)) (sl_r v), sl_st v).

(** The code after the label [done]. *)
Definition sl_finish (x : leave sl_vars) (p : Z) (b : ngx_buf) : Z * (request * status) * ngx_buf :=
  match x with
  | Return rc v => (rc, (sl_r v, sl_st v), b)
  | Done v =>
      let r := sl_r v in
      let st := if st_end (sl_st v) =? NULL then set_st_end p (sl_st v) else sl_st v in
      (NGX_OK,
       (set_state (sl_num sw_start) r,
        mk_status (http_major r * 1000 + http_minor r) (code st) (count st) (start st) (st_end st)),
       mk_buf (p + 1) (last b))
  end.

Definition ngx_http_parse_status_line (M : mem) (x : request * status) (b : ngx_buf)
  : Z * (request * status) * ngx_buf :=
  match run_buf sl_step M b (sl_load x) with
  | Ran v p => (NGX_AGAIN, sl_save v, mk_buf p (last b))
  | Halted x p => sl_finish x p b
  end.

(** ** Specification *)

(** What the callers use: on an error only the code. *)
Definition sl_view (x : Z * (request * status) * ngx_buf)
  : Z * option (request * status * Z) :=
  let '(rc, rs, b) := x in
  if rc =? NGX_ERROR then (rc, None) else (rc, Some (rs, pos b)).

Definition sl_eqv (v v' : sl_vars) : Prop :=
  sl_s v' = sl_s v /\ sl_st v' = sl_st v /\ exists s, sl_r v' = set_state s (sl_r v).

Definition sl_leave_eqv (x x' : leave sl_vars) : Prop :=
  match x, x' with
  | Done v, Done v' => sl_eqv v v'
  | Return rc _, Return rc' _ => rc = NGX_ERROR /\ rc' = NGX_ERROR
  | _, _ => False
  end.

(** The status read so far in each state: how many digits, and their range. *)
Definition sl_code_inv (v : sl_vars) : Prop :=
  let st := sl_st v in
  match sl_s v with
  | sw_start | sw_H | sw_HT | sw_HTT | sw_HTTP | sw_first_major_digit => code st = 0 /\ count st = 0
  | sw_major_digit => code st = 0 /\ count st = 0 /\ 1 <= http_major (sl_r v) <= 999
  | sw_first_minor_digit => code st = 0 /\ count st = 0 /\ 1 <= http_major (sl_r v) <= 999
  | sw_minor_digit =>
      code st = 0 /\ count st = 0 /\ 1 <= http_major (sl_r v) <= 999 /\
      0 <= http_minor (sl_r v) <= 999
  | sw_status =>
      ((count st = 0 /\ code st = 0) \/ (count st = 1 /\ 0 <= code st < 10) \/
       (count st = 2 /\ 0 <= code st < 100)) /\ 1 <= http_major (sl_r v) <= 999 /\
      0 <= http_minor (sl_r v) <= 999
  | _ =>
      count st = 3 /\ 0 <= code st < 1000 /\ 1 <= http_major (sl_r v) <= 999 /\
      0 <= http_minor (sl_r v) <= 999
  end.

(** ** Lemmas *)

Ltac sl_unfold :=
  unfold sl_step, sl_expect, sl_first_major_digit, sl_major_digit, sl_first_minor_digit,
    sl_minor_digit, sl_status, sl_space_after_status, sl_status_text, sl_almost_done, sl_goto,
    sl_error; cbv beta iota zeta; cbn [sl_s sl_r sl_st].

Lemma sl_step_eqv M p v v' :
  sl_eqv v v' ->
  match sl_step M p v, sl_step M p v' with
  | Next u, Next u' => sl_eqv u u'
  | Stop x, Stop x' => sl_leave_eqv x x'
  | _, _ => False
  end.
Proof.
  destruct v as [s r st], v' as [s' r' st']. intros (Hs & Ht & (z & Hr)).
  simpl in *. subst s' st' r'. destruct s; sl_unfold;
    change (http_major (set_state z r)) with (http_major r);
    change (http_minor (set_state z r)) with (http_minor r);
    repeat match goal with |- context [if ?b then _ else _] => destruct b end;
    repeat split; now exists z.
Qed.

Lemma sl_leave_rc M p v x b r' b' :
  sl_step M p v = Stop x -> sl_finish x p b <> (NGX_AGAIN, r', b').
Proof.
  destruct x as [u | rc u]; [done |]. intros H E. injection E as -> _ _. revert H.
  destruct v as [s r st]. destruct s; sl_unfold; intros H; cases_of H; discriminate H.
Qed.

Lemma sl_leave_err M p v rc u : sl_step M p v = Stop (Return rc u) -> rc = NGX_ERROR.
Proof.
  destruct v as [s r st]. destruct s; sl_unfold; intros H; cases_of H; congruence.
Qed.

#[export] Instance status_line_resumable :
  Resumable ngx_http_parse_status_line (fun _ => True) sl_view.
Proof.
  apply (machine_resumable sl_step sl_load sl_save sl_finish sl_view sl_eqv sl_leave_eqv).
  - apply sl_step_eqv.
  - intros [s r st]. repeat split; simpl; [now destruct s |]. exists (state r). now destruct r.
  - intros M p v x H. pose proof (sl_step_eqv M p v v) as G. rewrite H in G. apply G.
    repeat split. exists (state (sl_r v)). now destruct (sl_r v).
  - intros [[s r st] | rc u] [[s' r' st'] | rc' u'] p b b'; try done.
    + intros (Hs & Ht & (z & Hr)). simpl in *. now subst.
    + now intros [-> ->].
  - intros [s r st] [s' r' st'] p e (Hs & Ht & (z & Hr)). simpl in *. now subst.
  - apply sl_leave_rc.
Qed.

Lemma sl_code_step M p v v' : sl_code_inv v -> sl_step M p v = Next v' -> sl_code_inv v'.
Proof.
  unfold sl_code_inv. destruct v as [s r st]. cbn [sl_s sl_r sl_st].
  destruct s; sl_unfold; intros Hi H; cases_of_eq H; try discriminate H; injection H as <-;
    cbn -[Z.mul Z.add Z.pow]; try lia; try tauto.
Qed.

Lemma sl_code_done M p v u :
  sl_code_inv v -> sl_step M p v = Stop (Done u) ->
  count (sl_st u) = 3 /\ 0 <= code (sl_st u) < 1000 /\ 1 <= http_major (sl_r u) <= 999 /\
  0 <= http_minor (sl_r u) <= 999.
Proof.
  unfold sl_code_inv. destruct v as [s r st]. cbn [sl_s sl_r sl_st].
  destruct s; sl_unfold; intros Hi H; cases_of_eq H; try discriminate H; injection H as <-;
    exact Hi.
Qed.

Definition status0 : status := mk_status 0 0 0 NULL NULL.

Definition text_ok (text : list Z) : Prop := Forall (fun c => c <> CR /\ c <> LF) text.

Definition status_line_bytes (minor d1 d2 d3 : Z) (text : list Z) : list Z :=
  str "HTTP/1." ++ [minor; chr " "; d1; d2; d3; chr " "] ++ text ++ [CR; LF].

(** The version and the three digits. *)
Lemma walk_status n M a minor d1 d2 d3 r st :
  is_digit minor = true -> is_digit d1 = true -> is_digit d2 = true -> is_digit d3 = true ->
  count st = 0 -> code st = 0 ->
  holds M a (str "HTTP/1." ++ [minor; chr " "; d1; d2; d3; chr " "]) ->
  run sl_step (13 + n) M a (mk_sl sw_start r st) =
  run sl_step n M (a + 13)
    (mk_sl sw_status_text (set_http_minor (minor - chr "0") (set_http_major 1 r))
       (mk_status (st_http_version st) (((d1 - 48) * 10 + (d2 - 48)) * 10 + (d3 - 48)) 3
          (a + 9) (st_end st))).
Proof.
  unfold is_digit. intros Hm H1 H2 H3 Hc Hd HM. simpl in HM. destruct_and? HM.
  rewrite !andb_true_iff in *.
  simpl Nat.add.
  do 13 (erewrite run_next;
    [| sl_unfold;
       match goal with E : M ?x = _ |- context [M ?x] => rewrite E end;
       cbn -[Z.mul Z.add Z.sub Z.ltb Z.eqb]; rewrite ?Hc, ?Hd;
       repeat match goal with
         | |- context [?x =? ?y] =>
             first [replace (x =? y) with true by lia | replace (x =? y) with false by lia]
         | |- context [?x <? ?y] =>
             first [replace (x <? y) with true by lia | replace (x <? y) with false by lia]
         end; cbn -[Z.mul Z.add Z.sub]; reflexivity]).
  replace (a + 13) with (a + 1 + 1 + 1 + 1 + 1 + 1 + 1 + 1 + 1 + 1 + 1 + 1 + 1) by lia.
  do 3 f_equal; lia.
Qed.

Lemma walk_text n M p r st text :
  text_ok text -> holds M p (text ++ [CR; LF]) ->
  run sl_step (List.length (text ++ [CR; LF]) + n) M p (mk_sl sw_status_text r st) =
  Halted (Done (mk_sl sw_almost_done r (set_st_end (p + Z.of_nat (List.length text)) st)))
    (p + Z.of_nat (List.length text) + 1).
Proof.
  intros Hf HM. apply holds_app in HM as [Ht (Hcr & Hlf & _)].
  rewrite walk_app.
  destruct (walk_inv sl_step (fun v => v = mk_sl sw_status_text r st)
    (List.length [CR; LF] + n) text M p (mk_sl sw_status_text r st) Ht eq_refl) as (v & -> & E).
  { intros q t _ Hin ->. unfold text_ok in Hf. rewrite List.Forall_forall in Hf.
    destruct (Hf _ Hin) as [H1 H2]. eexists. split; [|reflexivity]. sl_unfold.
    now rewrite !(proj2 (Z.eqb_neq _ _)) by done. }
  rewrite E. simpl. sl_unfold. rewrite Hcr. simpl. sl_unfold. rewrite Hlf. simpl.
  do 4 f_equal. lia.
Qed.

(** ** Properties *)

(** however an upstream's status line arrives, cut into any pieces, the
    read loop's outcome is that of parsing it in one buffer, the status
    structure filled over several calls included. *)
Theorem status_line_any_split M x a m arrivals :
  a <= m ->
  sl_view (feed ngx_http_parse_status_line M x (mk_buf a m) arrivals) =
  sl_view (ngx_http_parse_status_line M x (mk_buf a (m + total arrivals))).
Proof. intros H. now apply feed_whole. Qed.

(** an accepted status line has a code of exactly three digits and a
    version whose parts are at most three digits each, so neither computation
    overflows; for any input and any arrival pattern. *)
Theorem status_line_bounds M r a m arrivals r' st' b' :
  state r = 0 -> a <= m ->
  feed ngx_http_parse_status_line M (r, status0) (mk_buf a m) arrivals = (NGX_OK, (r', st'), b') ->
  count st' = 3 /\ 0 <= code st' <= 999 /\ 1000 <= st_http_version st' <= 999999.
Proof.
  intros Hr Ham H.
  pose proof (feed_whole (parse := ngx_http_parse_status_line) M (r, status0) a m arrivals I Ham)
    as E.
  rewrite H in E. unfold ngx_http_parse_status_line, run_buf in E.
  pose proof (run_invariant sl_step (fun _ => sl_code_inv)
    (Z.to_nat (last (mk_buf a (m + total arrivals)) - pos (mk_buf a (m + total arrivals)))) M
    (pos (mk_buf a (m + total arrivals))) (sl_load (r, status0))) as G.
  unfold sl_load in G at 1. cbn [fst snd] in G. rewrite Hr in G. specialize (G (conj eq_refl eq_refl)).
  specialize (G ltac:(intros; eapply sl_code_step; eauto)).
  destruct (run _ _ _ _ _) as [v p | x p]; [done |].
  destruct G as (t & Ht & Es & _). destruct x as [u | rc u].
  - apply (sl_code_done M p t u Ht) in Es as (G1 & G2 & G3 & G4).
    unfold sl_view, sl_finish in E. cbn -[Z.mul Z.add] in E. injection E as _ -> _.
    cbn -[Z.mul Z.add]. destruct (st_end (sl_st u) =? NULL); cbn -[Z.mul Z.add]; lia.
  - exfalso. apply (sl_leave_err M p t rc u) in Es as ->. done.
Qed.

(** "HTTP/1.m ddd text" is accepted: the code and the version are the
    numbers written, and the range handed to the caller is the code followed by
    the reason text, without the line end. *)
Theorem status_line_parses M a b minor d1 d2 d3 text r :
  0 < a -> state r = 0 ->
  is_digit minor = true -> is_digit d1 = true -> is_digit d2 = true -> is_digit d3 = true ->
  text_ok text ->
  holds M a (status_line_bytes minor d1 d2 d3 text) ->
  a + Z.of_nat (List.length (status_line_bytes minor d1 d2 d3 text)) <= b ->
  exists r' st',
    ngx_http_parse_status_line M (r, status0) (mk_buf a b) =
      (NGX_OK, (r', st'),
       mk_buf (a + Z.of_nat (List.length (status_line_bytes minor d1 d2 d3 text))) b) /\
    code st' = 100 * (d1 - chr "0") + 10 * (d2 - chr "0") + (d3 - chr "0") /\
    st_http_version st' = 1000 + (minor - chr "0") /\
    range M (start st') (st_end st') = [d1; d2; d3; chr " "] ++ text.
Proof.
  intros Ha Hr Hm H1 H2 H3 Htext HM Hb. unfold status_line_bytes in *.
  change (str "HTTP/1." ++ [minor; 32; d1; d2; d3; 32] ++ text ++ [CR; LF]) with
    ((str "HTTP/1." ++ [minor; 32; d1; d2; d3; 32]) ++ text ++ [CR; LF]) in *.
  set (l := str "HTTP/1." ++ [minor; 32; d1; d2; d3; 32]) in *.
  assert (HL : List.length (l ++ text ++ [CR; LF]) = (13 + List.length (text ++ [CR; LF]))%nat)
    by apply List.length_app.
  rewrite HL in *. set (n := (Z.to_nat (b - a) - (13 + List.length (text ++ [CR; LF])))%nat).
  apply holds_app in HM as [Hl HM]. change (Z.of_nat (List.length l)) with 13 in HM.
  unfold ngx_http_parse_status_line, run_buf. cbn [pos last].
  replace (Z.to_nat (b - a)) with (13 + (List.length (text ++ [CR; LF]) + n))%nat by lia.
  unfold sl_load. cbn [fst snd]. rewrite Hr. change (sl_of_num 0) with sw_start.
  rewrite (walk_status _ M a minor d1 d2 d3) by done. rewrite walk_text by done.
  cbn [sl_finish sl_st set_st_end st_end sl_r].
  rewrite (proj2 (Z.eqb_neq (a + 13 + Z.of_nat (List.length text)) NULL)) by (unfold NULL; lia).
  eexists _, _. split; [|split; [|split]].
  - do 2 f_equal. rewrite List.length_app. simpl List.length. lia.
  - cbn -[Z.mul Z.add Z.sub]. lia.
  - cbn -[Z.mul Z.add Z.sub]. lia.
  - cbn -[Z.mul Z.add Z.sub range List.app]. apply holds_range; [|cbn [List.length List.app]; lia].
    apply holds_app. split; [|simpl List.length].
    + change l with (str "HTTP/1." ++ [minor; 32] ++ [d1; d2; d3; 32]) in Hl.
      do 2 apply holds_app in Hl as [_ Hl]. simpl List.length in Hl.
      now replace (a + 9) with (a + Z.of_nat 7 + Z.of_nat 2) by lia.
    + apply holds_app in HM as [Ht _]. now replace (a + 9 + Z.of_nat 4) with (a + 13) by lia.
Qed.

(** ** Witnesses *)

Definition ex_mem : mem := mem_of 100 (status_line_bytes (chr "1") (chr "4") (chr "0") (chr "4")
  (str "Not Found")).

Lemma status_line_any_split_witness :
  sl_view (feed ngx_http_parse_status_line ex_mem (request0 true, status0) (mk_buf 100 103)
             [7; 0; 14]%nat) =
  sl_view (ngx_http_parse_status_line ex_mem (request0 true, status0) (mk_buf 100 124)).
Proof.
  apply (status_line_any_split ex_mem (request0 true, status0) 100 103 [7; 0; 14]%nat). lia.
Defined.

Lemma status_line_bounds_witness :
  let st := snd (snd (fst (feed ngx_http_parse_status_line ex_mem (request0 true, status0)
             (mk_buf 100 103) [7; 0; 14]%nat))) in
  count st = 3 /\ 0 <= code st <= 999 /\ 1000 <= st_http_version st <= 999999.
Proof.
  apply (status_line_bounds ex_mem (request0 true) 100 103 [7; 0; 14]%nat
    (fst (snd (fst (feed ngx_http_parse_status_line ex_mem (request0 true, status0)
             (mk_buf 100 103) [7; 0; 14]%nat)))) _ (mk_buf 124 124));
    [reflexivity | lia | vm_compute; reflexivity].
Defined.

Lemma status_line_parses_witness :
  exists r' st',
    ngx_http_parse_status_line ex_mem (request0 true, status0) (mk_buf 100 124) =
      (NGX_OK, (r', st'), mk_buf 124 124) /\
    code st' = 404 /\ st_http_version st' = 1001 /\
    range ex_mem (start st') (st_end st') = str "404 Not Found".
Proof.
  apply (status_line_parses ex_mem 100 124 (chr "1") (chr "4") (chr "0") (chr "4")
    (str "Not Found") (request0 true)); try reflexivity.
  - repeat constructor; discriminate.
  - apply mem_of_holds.
Defined.

(** Spaces are skipped between the digits of the code as well as before them;
    [start] is then two bytes before the last digit, inside the code. *)
Example status_digits_apart :
  let x := ngx_http_parse_status_line (mem_of 100 (str "HTTP/1.1 2 0 0 OK" ++ [CR; LF]))
             (request0 true, status0) (mk_buf 100 119) in
  fst (fst x) = NGX_OK /\ code (snd (snd (fst x))) = 200 /\ start (snd (snd (fst x))) = 111.
Proof. vm_compute. auto. Qed.

End StatusLine.
