(* ===== verification/HttpChunked.v ===== *)
(** The chunked transfer decoder, [ngx_http_parse_chunked]
    (src/http/ngx_http_parse.c), against the protocol read a byte at a time;
    the loops that call it are in HttpRequestBody.v. *)
From S2P Require Import Prelude HttpRequest.

Module Chunked.

Inductive ck_state :=
| sw_chunk_start
| sw_chunk_size
| sw_chunk_extension
| sw_chunk_extension_almost_done
| sw_chunk_data
| sw_after_data
| sw_after_data_almost_done
| sw_last_chunk_extension
| sw_last_chunk_extension_almost_done
| sw_trailer
| sw_trailer_almost_done
| sw_trailer_header
| sw_trailer_header_almost_done.

#[export] Instance ck_state_eq : EqDecision ck_state.
Proof. solve_decision. Defined.


(** [ngx_http_chunked_t]; [state] is kept as the enum's constructor. *)
Record chunked := mk_chunked { c_state : ck_state; size : Z; c_length : Z }.

(** A zeroed [ngx_http_chunked_t]. *)
Definition chunked0 : chunked := mk_chunked sw_chunk_start 0 0.

(** The local [state] and [ctx->size]. *)
Definition ck_vars : Type := ck_state * Z.

(** [goto data], [goto done] and [goto invalid]. *)
Inductive ck_leave :=
| CkData (v : ck_vars)
| CkDone (v : ck_vars)
| CkInvalid (v : ck_vars).

Definition ck_out : Type := step_out ck_vars ck_leave.

(** The value of a hexadecimal digit as the two size states compute it:
    [ch - '0'], or [c - 'a' + 10] for [c = (u_char) (ch | 0x20)]. *)
Definition hex_value (ch : Z) : option Z :=
  if (chr "0" <=? ch) && (ch <=? chr "9") then Some (ch - chr "0")
  else
    let c := Z.lor ch 0x20 in
    if (chr "a" <=? c) && (c <=? chr "f") then Some (c - chr "a" + 10) else None.

(** [case sw_chunk_start] *)
Definition ck_chunk_start (ch : Z) (v : ck_vars) : ck_out :=
  match hex_value ch with
  | Some d => Next (sw_chunk_size, d)
  | None => Stop (CkInvalid v)
  end.

(** [case sw_chunk_size] *)
Definition ck_chunk_size (ch size : Z) : ck_out :=
  if NGX_MAX_OFF_T_VALUE / 16 <? size then Stop (CkInvalid (sw_chunk_size, size))
  else
    match hex_value ch with
    | Some d => Next (sw_chunk_size, size * 16 + d)
    | None =>
        if size =? 0 then
          if ch =? CR then Next (sw_last_chunk_extension_almost_done, size)
          else if ch =? LF then Next (sw_trailer, size)
          else if (ch =? chr ";") || (ch =? chr " ") || (ch =? 9) then
            Next (sw_last_chunk_extension, size)
          else Stop (CkInvalid (sw_chunk_size, size))
        else
          if ch =? CR then Next (sw_chunk_extension_almost_done, size)
          else if ch =? LF then Next (sw_chunk_data, size)
          else if (ch =? chr ";") || (ch =? chr " ") || (ch =? 9) then
            Next (sw_chunk_extension, size)
          else Stop (CkInvalid (sw_chunk_size, size))
    end.

(** A state that waits for the end of its line and ignores the rest:
    [sw_chunk_extension], [sw_last_chunk_extension] and [sw_trailer_header]. *)
Definition ck_until_eol (cr lf : ck_state) (ch : Z) (v : ck_vars) : ck_out :=
  if ch =? CR then Next (cr, snd v)
  else if ch =? LF then Next (lf, snd v)
  else Next v.

(** A state that follows a CR: [sw_chunk_extension_almost_done],
    [sw_after_data_almost_done], [sw_last_chunk_extension_almost_done] and
    [sw_trailer_header_almost_done]. *)
Definition ck_expect_lf (lf : ck_state) (ch : Z) (v : ck_vars) : ck_out :=
  if ch =? LF then Next (lf, snd v) else Stop (CkInvalid v).

(** [case sw_after_data] *)
Definition ck_after_data (ch : Z) (v : ck_vars) : ck_out :=
  if ch =? CR then Next (sw_after_data_almost_done, snd v)
  else if ch =? LF then Next (sw_chunk_start, snd v)
  else Stop (CkInvalid v).

(** [case sw_trailer] *)
Definition ck_trailer (ch : Z) (v : ck_vars) : ck_out :=
  if ch =? CR then Next (sw_trailer_almost_done, snd v)
  else if ch =? LF then Stop (CkDone v)
  else Next (sw_trailer_header, snd v).

(** [case sw_trailer_almost_done] *)
Definition ck_trailer_almost_done (ch : Z) (v : ck_vars) : ck_out :=
  if ch =? LF then Stop (CkDone v) else Stop (CkInvalid v).

(** [switch (state)] *)
Definition ck_switch (ch : Z) (v : ck_vars) : ck_out :=
  match fst v with
  | sw_chunk_start => ck_chunk_start ch v
  | sw_chunk_size => ck_chunk_size ch (snd v)
  | sw_chunk_extension => ck_until_eol sw_chunk_extension_almost_done sw_chunk_data ch v
  | sw_chunk_extension_almost_done => ck_expect_lf sw_chunk_data ch v
  | sw_chunk_data => Stop (CkData v)
  | sw_after_data => ck_after_data ch v
  | sw_after_data_almost_done => ck_expect_lf sw_chunk_start ch v
  | sw_last_chunk_extension =>
      ck_until_eol sw_last_chunk_extension_almost_done sw_trailer ch v
  | sw_last_chunk_extension_almost_done => ck_expect_lf sw_trailer ch v
  | sw_trailer => ck_trailer ch v
  | sw_trailer_almost_done => ck_trailer_almost_done ch v
  | sw_trailer_header => ck_until_eol sw_trailer_header_almost_done sw_trailer ch v
  | sw_trailer_header_almost_done => ck_expect_lf sw_trailer ch v
  end.

Definition ck_step (M : mem) (p : Z) (v : ck_vars) : ck_out := ck_switch (M p) v.

(** The second [switch (state)]: [ctx->length], the least number of bytes that
    can complete the body. *)
Definition ck_length (s : ck_state) (size : Z) : Z :=
  match s with
  | sw_chunk_start => 3
  | sw_chunk_size => 1 + (if size =? 0 then 1 else size + 4)
  | sw_chunk_extension | sw_chunk_extension_almost_done => 1 + size + 4
  | sw_chunk_data => size + 4
  | sw_after_data | sw_after_data_almost_done => 4
  | sw_last_chunk_extension | sw_last_chunk_extension_almost_done => 2
  | sw_trailer | sw_trailer_almost_done => 1
  | sw_trailer_header | sw_trailer_header_almost_done => 2
  end.

(** [if (state == sw_chunk_data && ctx->size == 0) state = sw_after_data;] *)
Definition ck_load (ctx : chunked) : ck_vars :=
  (if decide (c_state ctx = sw_chunk_data) then
     if size ctx =? 0 then sw_after_data else sw_chunk_data
   else c_state ctx, size ctx).

(** The code after the label [data]. *)
Definition ck_data (rc : Z) (v : ck_vars) (p : Z) (ctx : chunked) (b : ngx_buf)
  : Z * chunked * ngx_buf :=
  let '(s, sz) := v in
  let b' := mk_buf p (last b) in
  if NGX_MAX_OFF_T_VALUE - 5 <? sz then (NGX_ERROR, mk_chunked s sz (c_length ctx), b')
  else (rc, mk_chunked s sz (ck_length s sz), b').

Definition ngx_http_parse_chunked (M : mem) (ctx : chunked) (b : ngx_buf)
  : Z * chunked * ngx_buf :=
  match run_buf ck_step M b (ck_load ctx) with
  | Ran v p => ck_data NGX_AGAIN v p ctx b
  | Halted (CkData v) p => ck_data NGX_OK v p ctx b
  | Halted (CkDone v) p =>
      (NGX_DONE, mk_chunked sw_chunk_start (snd v) (c_length ctx), mk_buf (p + 1) (last b))
  | Halted (CkInvalid v) p => (NGX_ERROR, mk_chunked (c_state ctx) (snd v) (c_length ctx), b)
  end.

(** ** Specification *)

(** The protocol read a byte at a time: bytes of chunk data are emitted, the
    others drive the state machine. *)
Inductive dk_end :=
| DkMore (v : ck_vars)
| DkDone (rest : list Z)
| DkBad.

Definition ck_norm (v : ck_vars) : ck_vars :=
  if decide (fst v = sw_chunk_data) then
    if snd v =? 0 then (sw_after_data, 0) else v
  else v.

Fixpoint dechunk (v : ck_vars) (l : list Z) : list Z * dk_end :=
  match l with
  | [] => ([], if NGX_MAX_OFF_T_VALUE - 5 <? snd v then DkBad else DkMore (ck_norm v))
  | c :: l' =>
      if decide (fst (ck_norm v) = sw_chunk_data) then
        let '(d, e) := dechunk (sw_chunk_data, snd v - 1) l' in (c :: d, e)
      else
        match ck_switch c (ck_norm v) with
        | Next v' => dechunk v' l'
        | Stop (CkDone _) => ([], DkDone l')
        | Stop _ => ([], DkBad)
        end
  end.

(** The number a string of hexadecimal digits denotes, read after [acc]. *)
Fixpoint hex_number (acc : Z) (ds : list Z) : option Z :=
  match ds with
  | [] => Some acc
  | c :: ds' =>
      match hex_value c with
      | Some d => hex_number (acc * 16 + d) ds'
      | None => None
      end
  end.

(** The end of a line: a bare LF is accepted too. *)
Definition eol (bare : bool) : list Z := if bare then [LF] else [CR; LF].

(** Text within a line. *)
Definition plain (l : list Z) : Prop := Forall (fun c => c <> CR /\ c <> LF) l.

(** What may stand between a size and the end of its line: nothing, or a chunk
    extension or white space. *)
Definition extension (l : list Z) : Prop :=
  match l with [] => True | c :: l => List.In c [chr ";"; chr " "; 9] /\ plain l end.

(** A chunk: the digits of its size, leading zeros allowed, an extension, and its
    data; [k_bare] and [k_bare'] say how its lines end. *)
Record chunk := mk_chunk {
  k_size : list Z; k_ext : list Z; k_bare : bool; k_data : list Z; k_bare' : bool }.

(** The size of a chunk has at most 59 bits. *)
Definition chunk_ok (k : chunk) : Prop :=
  k_size k <> [] /\ k_data k <> [] /\ hex_number 0 (k_size k) = Some (Z.of_nat (List.length (k_data k))) /\
  Z.of_nat (List.length (k_data k)) <= NGX_MAX_OFF_T_VALUE / 16 /\ extension (k_ext k).

Definition encode_chunk (k : chunk) : list Z :=
  k_size k ++ k_ext k ++ eol (k_bare k) ++ k_data k ++ eol (k_bare' k).

(** A body in the chunked coding: the chunks, the last one, of size 0, header
    lines, and an empty line. *)
Record chunked_body := mk_chunked_body {
  b_chunks : list chunk;
  b_zeros : list Z; b_ext : list Z; b_bare : bool;
  b_trailers : list (list Z * bool);
  b_end : bool }.

Definition trailer_ok (t : list Z * bool) : Prop := fst t <> [] /\ plain (fst t).

Definition chunked_body_ok (B : chunked_body) : Prop :=
  Forall chunk_ok (b_chunks B) /\
  b_zeros B <> [] /\ hex_number 0 (b_zeros B) = Some 0 /\ extension (b_ext B) /\
  Forall trailer_ok (b_trailers B).

Definition encode_trailer (t : list Z * bool) : list Z := fst t ++ eol (snd t).

Definition encode_body (B : chunked_body) : list Z :=
  List.concat (List.map encode_chunk (b_chunks B)) ++ b_zeros B ++ b_ext B ++ eol (b_bare B) ++
  List.concat (List.map encode_trailer (b_trailers B)) ++ eol (b_end B).

(** The body that it stands for. *)
Definition body_of (B : chunked_body) : list Z := List.concat (List.map k_data (b_chunks B)).

(** What holds of the saved state and size. *)
Definition ck_ok (v : ck_vars) : Prop :=
  let '(s, z) := v in
  0 <= z <= NGX_MAX_OFF_T_VALUE /\
  (s <> sw_chunk_size -> z <= NGX_MAX_OFF_T_VALUE / 16) /\
  (s = sw_chunk_extension \/ s = sw_chunk_extension_almost_done -> 0 < z).

Definition ctx_ok (ctx : chunked) : Prop := ck_ok (c_state ctx, size ctx).

(** ** Lemmas *)

Ltac ck_unfold :=
  unfold ck_step, ck_switch, ck_chunk_start, ck_chunk_size, ck_until_eol, ck_expect_lf,
    ck_after_data, ck_trailer, ck_trailer_almost_done; cbv beta iota zeta; cbn [fst snd].

Lemma hex_value_range c d : hex_value c = Some d -> 0 <= d <= 15.
Proof.
  unfold hex_value. intros H. cases_of_eq H; simplify_eq; lia.
Qed.

Lemma ck_norm_ok v : ck_ok v -> ck_ok (ck_norm v).
Proof.
  destruct v as [s z]. unfold ck_norm. cbn [fst snd]. intros H. destruct (decide _); [|done].
  subst. destruct (z =? 0); [|done]. unfold ck_ok. split; [done |]. split; [done |]. intros [?|?]; done.
Qed.

Lemma ck_switch_ok c v v' :
  ck_ok v -> ck_switch c v = Next v' -> ck_ok v' /\ ck_norm v' = v'.
Proof.
  unfold ck_ok. change (NGX_MAX_OFF_T_VALUE / 16) with 576460752303423487.
  change NGX_MAX_OFF_T_VALUE with 9223372036854775807.
  destruct v as [s z], v' as [s' z']. intros (H1 & H2 & H3).
  destruct s; ck_unfold; change (NGX_MAX_OFF_T_VALUE / 16) with 576460752303423487;
    intros H; cases_of_eq H; try discriminate H; injection H as <- <-.
  all: repeat match goal with E : hex_value _ = Some _ |- _ => apply hex_value_range in E end.
  all: try (specialize (H2 ltac:(discriminate))).
  all: try (specialize (H3 ltac:(auto))).
  all: unfold ck_norm; cbn [fst snd];
    try (destruct (Z.eqb_spec z 0); [exfalso; lia |]).
  all: split; [split; [lia |]; split; [first [intros _; lia | intros ?; exfalso; congruence] |];
         intros [?|?]; discriminate || lia | done].
Qed.

Lemma ck_norm_idem v : ck_norm (ck_norm v) = ck_norm v.
Proof.
  destruct v as [s z]. unfold ck_norm at 2 3. destruct (decide _); cbn [fst snd] in *.
  - subst. destruct (z =? 0) eqn:E; [done |]. unfold ck_norm. cbn. now rewrite E.
  - unfold ck_norm. cbn [fst]. now destruct (decide _).
Qed.

Lemma ck_norm_snd v : snd (ck_norm v) = snd v.
Proof.
  unfold ck_norm. destruct (decide _); [|done]. now destruct (Z.eqb_spec (snd v) 0).
Qed.

Lemma dechunk_norm v l : dechunk (ck_norm v) l = dechunk v l.
Proof. destruct l; cbn [dechunk]; now rewrite ck_norm_idem, ck_norm_snd. Qed.

Lemma ck_switch_stop c v x :
  ck_switch c v = Stop x ->
  (x = CkData v /\ fst v = sw_chunk_data) \/
  (fst v <> sw_chunk_data /\ (x = CkDone v /\ fst v <> sw_chunk_size \/ x = CkInvalid v)).
Proof.
  destruct v as [s z]; destruct s; ck_unfold; intros H; cases_of H; try discriminate H;
    injection H as <-; (left; split; reflexivity) ||
    (right; split; [discriminate |]; (right; reflexivity) || (left; split; [reflexivity | discriminate])).
Qed.

Lemma dechunk_cons v c l :
  fst v <> sw_chunk_data ->
  dechunk v (c :: l) =
  match ck_switch c v with
  | Next v' => dechunk v' l
  | Stop (CkDone _) => ([], DkDone l)
  | Stop _ => ([], DkBad)
  end.
Proof.
  intros H. cbn [dechunk]. unfold ck_norm. destruct (decide (fst v = sw_chunk_data)); [done |].
  now destruct (decide _).
Qed.

(** The loop of the parser against the byte-at-a-time reading. *)
Lemma run_dechunk n M p v :
  ck_ok v -> ck_norm v = v ->
  match run ck_step n M p v with
  | Ran v' q =>
      (forall l, dechunk v (bytes_at M p n ++ l) = dechunk v' l) /\ ck_ok v' /\ ck_norm v' = v'
  | Halted (CkData v') q =>
      dechunk v (bytes_at M p n) = dechunk v' (range M q (p + Z.of_nat n)) /\ ck_ok v' /\
      fst v' = sw_chunk_data /\ ck_norm v' = v' /\ p <= q < p + Z.of_nat n
  | Halted (CkDone v') q =>
      dechunk v (bytes_at M p n) = ([], DkDone (range M (q + 1) (p + Z.of_nat n))) /\ ck_ok v' /\
      fst v' <> sw_chunk_size /\ p <= q < p + Z.of_nat n
  | Halted (CkInvalid v') q => dechunk v (bytes_at M p n) = ([], DkBad)
  end.
Proof.
  revert p v. induction n as [|n IH]; intros p v Hok Hn; [done |].
  cbn [run bytes_at]. unfold ck_step at 1.
  pose proof (dechunk_cons v (M p)) as Hs.
  destruct (ck_switch (M p) v) as [v' | x] eqn:E.
  - destruct (ck_switch_ok _ _ _ Hok E) as [Hok' Hn'].
    assert (Hne : fst v <> sw_chunk_data) by (destruct v as [s z]; destruct s; done).
    specialize (IH (p + 1) v' Hok' Hn').
    replace (p + 1 + Z.of_nat n) with (p + Z.of_nat (S n)) in IH by lia.
    destruct (run ck_step n M (p + 1) v') as [u q | [u | u | u] q].
    + destruct IH as (G & ?). split; [|done]. intros l. rewrite <- G. rewrite <- app_comm_cons. now rewrite Hs.
    + destruct IH as (G & ? & ? & ? & ?). rewrite Hs, G by done. repeat split; done || lia.
    + destruct IH as (G & ? & ? & ?). rewrite Hs, G by done. split; [done |].
      split; [done |]. split; [done | lia].
    + now rewrite Hs.
  - destruct (ck_switch_stop _ _ _ E) as [[-> Hd] | [Hd [[-> Hne] | ->]]].
    + split; [|split; [done |]; split; [done |]; split; [done | lia]].
      rewrite (range_cons M p) by lia. do 2 f_equal. unfold range. f_equal. lia.
    + split; [|split; [done |]; split; [done | lia]].
      rewrite Hs by done. do 3 f_equal. unfold range. f_equal. lia.
    + now rewrite Hs.
Qed.

Definition ck_vars_of (ctx : chunked) : ck_vars := (c_state ctx, size ctx).

Lemma ck_load_norm ctx : ck_load ctx = ck_norm (ck_vars_of ctx).
Proof.
  unfold ck_load, ck_norm, ck_vars_of. cbn [fst snd]. destruct (decide _) as [E|]; [|done].
  destruct (Z.eqb_spec (size ctx) 0); congruence.
Qed.

(** One call of the parser against the byte-at-a-time reading of its input. *)
Inductive parsed (M : mem) (e : Z) (v : ck_vars) (p : Z) : Z * chunked * ngx_buf -> Prop :=
| parsed_data ctx q :
    ctx_ok ctx -> c_state ctx = sw_chunk_data -> 0 < size ctx -> p <= q < e ->
    dechunk v (range M p e) = dechunk (ck_vars_of ctx) (range M q e) ->
    c_length ctx = ck_length (c_state ctx) (size ctx) ->
    parsed M e v p (NGX_OK, ctx, mk_buf q e)
| parsed_again ctx :
    ctx_ok ctx -> dechunk v (range M p e) = ([], DkMore (ck_vars_of ctx)) ->
    c_length ctx = ck_length (c_state ctx) (size ctx) ->
    parsed M e v p (NGX_AGAIN, ctx, mk_buf e e)
| parsed_done ctx q :
    ctx_ok ctx -> c_state ctx = sw_chunk_start -> p < q <= e ->
    dechunk v (range M p e) = ([], DkDone (range M q e)) ->
    parsed M e v p (NGX_DONE, ctx, mk_buf q e)
| parsed_bad ctx b :
    dechunk v (range M p e) = ([], DkBad) -> parsed M e v p (NGX_ERROR, ctx, b).

Lemma parse_chunked_spec M ctx p e :
  ctx_ok ctx -> p <= e ->
  parsed M e (ck_vars_of ctx) p (ngx_http_parse_chunked M ctx (mk_buf p e)).
Proof.
  intros Hok Hpe. unfold ngx_http_parse_chunked, run_buf. cbn [pos last]. rewrite ck_load_norm.
  assert (Hr : range M p e = bytes_at M p (Z.to_nat (e - p))) by done.
  pose proof (run_dechunk (Z.to_nat (e - p)) M p (ck_norm (ck_vars_of ctx))
    (ck_norm_ok _ Hok) (ck_norm_idem _)) as G.
  pose proof (run_ran_pos ck_step (Z.to_nat (e - p)) M p (ck_norm (ck_vars_of ctx))) as Gp.
  replace (p + Z.of_nat (Z.to_nat (e - p))) with e in * by lia.
  destruct (run _ _ _ _ _) as [[s z] q | [[s z] | [s z] | [s z]] q].
  - destruct G as (G & Hok' & Hn). specialize (Gp _ _ eq_refl). subst q.
    specialize (G []). rewrite app_nil_r, dechunk_norm in G. cbn [dechunk] in G.
    rewrite Hn, <- Hr in G. cbn [ck_data snd] in *.
    destruct (_ <? z); constructor; done.
  - destruct G as (G & Hok' & Hs & Hn & Hq). rewrite dechunk_norm, <- Hr in G. cbn [fst] in Hs.
    subst s. destruct Hok' as (H1 & H2 & H3). specialize (H2 ltac:(discriminate)).
    cbn [ck_data last]. destruct (Z.ltb_spec (NGX_MAX_OFF_T_VALUE - 5) z) as [Hz | Hz];
      [exfalso; change (NGX_MAX_OFF_T_VALUE / 16) with 576460752303423487 in H2;
       unfold NGX_MAX_OFF_T_VALUE in Hz; lia |].
    constructor; [split; [exact H1 |]; split; done | done | | lia | done | done]. cbn [size].
    revert Hn. unfold ck_norm. cbn. destruct (Z.eqb_spec z 0); [done |]. lia.
  - destruct G as (G & Hok' & Hne & Hq). rewrite dechunk_norm, <- Hr in G.
    constructor; [| done | lia | done].
    destruct Hok' as (H1 & H2 & H3). specialize (H2 Hne). split; [done |]. split; [done |].
    intros [?|?]; discriminate.
  - rewrite dechunk_norm, <- Hr in G. now constructor.
Qed.

(** Reading on after the input ran out. *)
Lemma dechunk_app v l1 l2 d v' :
  dechunk v l1 = (d, DkMore v') ->
  dechunk v (l1 ++ l2) = (d ++ fst (dechunk v' l2), snd (dechunk v' l2)).
Proof.
  revert v d. induction l1 as [|c l1 IH]; intros v d; cbn [dechunk List.app].
  - destruct (_ <? _); [done |]. injection 1 as <- <-. rewrite dechunk_norm.
    now destruct (dechunk v l2).
  - destruct (decide _).
    + destruct (dechunk _ l1) as [d1 e1] eqn:E. injection 1 as <- ->.
      now rewrite (IH _ _ E).
    + destruct (ck_switch _ _) as [u | [u | u | u]]; [apply IH | done ..].
Qed.

Lemma dechunk_more v l d u :
  dechunk v l = (d, DkMore u) -> snd u <= NGX_MAX_OFF_T_VALUE - 5 /\ ck_norm u = u.
Proof.
  revert v d. induction l as [|c l IH]; intros v d; cbn [dechunk].
  - destruct (Z.ltb_spec (NGX_MAX_OFF_T_VALUE - 5) (snd v)) as [|H]; [done |]. intros [= <- <-].
    rewrite ck_norm_snd. split; [done | apply ck_norm_idem].
  - destruct (decide _).
    + destruct (dechunk _ l) as [d1 e1] eqn:E. intros [= <- ->]. now apply (IH _ _ E).
    + destruct (ck_switch _ _) as [w | [w | w | w]]; [apply IH | done ..].
Qed.

Lemma dechunk_app_done v l1 l2 d rest :
  dechunk v l1 = (d, DkDone rest) -> dechunk v (l1 ++ l2) = (d, DkDone (rest ++ l2)).
Proof.
  revert v d. induction l1 as [|c l1 IH]; intros v d; cbn [dechunk List.app].
  - now destruct (_ <? _).
  - destruct (decide _).
    + destruct (dechunk _ l1) as [d1 e1] eqn:E. injection 1 as <- ->. now rewrite (IH _ _ E).
    + destruct (ck_switch _ _) as [u | [u | u | u]]; [apply IH | done | now intros [= <- <-] | done].
Qed.

(** A body found malformed stays malformed, whatever follows: also when the
    size was found too large only because the input ended. *)
Lemma dechunk_app_bad v l1 l2 d :
  ck_ok v -> dechunk v l1 = (d, DkBad) -> snd (dechunk v (l1 ++ l2)) = DkBad.
Proof.
  revert v d. induction l1 as [|c l1 IH]; intros v d Hok; cbn [List.app].
  - destruct v as [s z]. cbn [dechunk snd].
    destruct (Z.ltb_spec (NGX_MAX_OFF_T_VALUE - 5) z) as [Hz|]; [|done]. intros _.
    destruct l2 as [|c l2]; [cbn [dechunk snd]; destruct (Z.ltb_spec (NGX_MAX_OFF_T_VALUE - 5) z); done || lia |].
    destruct Hok as (H1 & H2 & H3).
    change (NGX_MAX_OFF_T_VALUE / 16) with 576460752303423487 in H2.
    unfold NGX_MAX_OFF_T_VALUE in Hz.
    destruct (decide (s = sw_chunk_size)) as [-> | Hs]; [|specialize (H2 Hs); lia].
    rewrite dechunk_cons by done. cbn [ck_switch fst snd]. unfold ck_chunk_size.
    change (NGX_MAX_OFF_T_VALUE / 16) with 576460752303423487.
    destruct (Z.ltb_spec 576460752303423487 z); [done | lia].
  - cbn [dechunk]. pose proof (ck_norm_ok v Hok) as Hok'.
    rewrite <- (ck_norm_snd v). destruct (decide _) as [Hd | Hd].
    + destruct (dechunk _ l1) as [d1 e1] eqn:E. injection 1 as <- ->.
      destruct (dechunk _ (l1 ++ l2)) as [d2 e2] eqn:E2. cbn [snd].
      assert (Hz : ck_ok (sw_chunk_data, snd (ck_norm v) - 1)).
      { revert Hd Hok'. unfold ck_norm. destruct (decide (fst v = sw_chunk_data)); [|done].
        destruct v as [s z]. cbn [fst snd] in *. subst s.
        destruct (Z.eqb_spec z 0); [done |]. intros _ (H1 & H2 & H3). cbn [snd].
        specialize (H2 ltac:(discriminate)). split; [lia |]. split; [lia | intros [?|?]; discriminate]. }
      specialize (IH _ _ Hz E). now rewrite E2 in IH.
    + destruct (ck_switch c (ck_norm v)) as [u | [u | u | u]] eqn:E; [|done..].
      apply IH. now apply (ck_switch_ok c (ck_norm v)).
Qed.

(** Chunk data is emitted as it is. *)
Lemma dechunk_data z d l :
  Z.of_nat (List.length d) <= z ->
  dechunk (sw_chunk_data, z) (d ++ l) =
  (d ++ fst (dechunk (sw_chunk_data, z - Z.of_nat (List.length d)) l),
   snd (dechunk (sw_chunk_data, z - Z.of_nat (List.length d)) l)).
Proof.
  revert z. induction d as [|c d IH]; intros z H; simpl List.length in *; cbn [List.app].
  - rewrite Z.sub_0_r. now destruct (dechunk _ l).
  - assert (Hn : ck_norm (sw_chunk_data, z) = (sw_chunk_data, z)).
    { unfold ck_norm. cbn. destruct (Z.eqb_spec z 0); [lia | done]. }
    cbn [dechunk]. rewrite Hn. cbn [fst snd]. destruct (decide _); [|done].
    rewrite IH by lia. cbn [fst snd].
    now replace (z - 1 - Z.of_nat (List.length d)) with (z - Z.of_nat (S (List.length d))) by lia.
Qed.

(** The data still due of a chunk that has begun. *)
Definition due (v : ck_vars) : Z := if decide (fst v = sw_chunk_data) then Z.max 0 (snd v) else 0.

Definition due_end (e : dk_end) : Z := match e with DkMore v => due v | _ => 0 end.

Lemma due_nonneg v : 0 <= due v.
Proof. unfold due. destruct (decide _); lia. Qed.

Lemma due_norm v : due (ck_norm v) = due v.
Proof.
  destruct v as [s z]. unfold due, ck_norm. cbn [fst snd]. destruct (decide (s = sw_chunk_data)) as [-> |].
  - destruct (Z.eqb_spec z 0) as [-> |]; cbn [fst snd]; now destruct (decide _).
  - cbn [fst]. now destruct (decide _).
Qed.

(** It has arrived, or is due at the end. *)
Lemma dechunk_due v l d e :
  dechunk v l = (d, e) -> e <> DkBad -> due v <= Z.of_nat (List.length d) + due_end e.
Proof.
  revert v d e. induction l as [|c l IH]; intros v d e; cbn [dechunk].
  - destruct (_ <? _); intros [= <- <-] H; [done |]. cbn [due_end List.length].
    rewrite <- due_norm. lia.
  - destruct (decide _) as [Hd | Hd].
    + destruct (dechunk _ l) as [d1 e1] eqn:E. intros [= <- <-] H. specialize (IH _ _ _ E H).
      unfold due in *. cbn [fst snd] in IH. rewrite decide_True in IH by done. simpl List.length. destruct (decide _); lia.
    + assert (due v <= 0) as Hv.
      { unfold due. unfold ck_norm in Hd. destruct (decide (fst v = sw_chunk_data)) as [E |]; [| done].
        destruct (Z.eqb_spec (snd v) 0); [lia | done]. }
      intros _ _. destruct e as [u | |]; cbn [due_end]; [pose proof (due_nonneg u) | |]; lia.
Qed.

(** ** The least number of bytes to come *)

Lemma ck_length_step c v v' :
  ck_ok v -> ck_switch c v = Next v' ->
  ck_length (fst v) (snd v) <= 1 + ck_length (fst v') (snd v').
Proof.
  unfold ck_ok. destruct v as [s z], v' as [s' z']. intros (H1 & _).
  destruct s; ck_unfold; intros H; cases_of_eq H; try discriminate H; injection H as <- <-;
    try match goal with E : hex_value _ = Some _ |- _ => apply hex_value_range in E end;
    cbn [ck_length];
    repeat match goal with |- context [if ?x =? 0 then _ else _] => destruct (Z.eqb_spec x 0) end;
    lia.
Qed.

Lemma ck_length_done c v : ck_switch c v = Stop (CkDone v) -> ck_length (fst v) (snd v) <= 1.
Proof.
  destruct v as [s z]; destruct s; ck_unfold; intros H; cases_of H; try discriminate H; done.
Qed.

Lemma ck_length_norm v :
  ck_length (fst (ck_norm v)) (snd (ck_norm v)) = ck_length (fst v) (snd v).
Proof.
  destruct v as [s z]. unfold ck_norm. cbn [fst snd]. destruct (decide _) as [-> |]; [|done].
  now destruct (Z.eqb_spec z 0) as [-> |].
Qed.

Lemma dechunk_length v l d rest :
  ck_ok v -> dechunk v l = (d, DkDone rest) ->
  ck_length (fst v) (snd v) <= Z.of_nat (List.length l) - Z.of_nat (List.length rest).
Proof.
  revert v d. induction l as [|c l IH]; intros v d Hok; cbn [dechunk].
  - now destruct (_ <? _).
  - rewrite <- ck_length_norm. pose proof (ck_norm_ok v Hok) as Hok'.
    rewrite <- (ck_norm_snd v). remember (ck_norm v) as u eqn:Eu.
    assert (Hn : ck_norm u = u) by (subst; apply ck_norm_idem).
    simpl List.length. destruct (decide _) as [Hd | Hd].
    + destruct (dechunk _ l) as [d1 e1] eqn:E. injection 1 as <- ->.
      destruct u as [s z]. cbn [fst snd] in *. subst s.
      revert Hn. unfold ck_norm. cbn [fst snd]. rewrite decide_True by done.
      destruct (Z.eqb_spec z 0) as [|Hz]; [done |]. intros _.
      destruct Hok' as (H1 & H2 & H3). specialize (H2 ltac:(discriminate)).
      apply IH in E; [cbn [ck_length fst snd] in *; lia |].
      split; [lia |]. split; [lia | intros [?|?]; discriminate].
    + destruct (ck_switch c u) as [u' | x] eqn:E.
      * intros G. apply IH in G; [|now apply (ck_switch_ok c u)].
        pose proof (ck_length_step c u u' Hok' E). lia.
      * destruct (ck_switch_stop _ _ _ E) as [[-> _] | [_ [[-> _] | ->]]]; [done | | done].
        intros [= <- <-]. apply ck_length_done in E. lia.
Qed.

(** ** Decoding an encoded body *)

Lemma hex_number_ge acc ds n : 0 <= acc -> hex_number acc ds = Some n -> acc <= n.
Proof.
  revert acc. induction ds as [|c ds IH]; intros acc H; cbn [hex_number].
  - injection 1. lia.
  - destruct (hex_value c) as [d|] eqn:E; [|done]. apply hex_value_range in E.
    intros G%IH; lia.
Qed.

Lemma dechunk_digits z ds n l :
  0 <= z -> n <= NGX_MAX_OFF_T_VALUE / 16 -> hex_number z ds = Some n ->
  dechunk (sw_chunk_size, z) (ds ++ l) = dechunk (sw_chunk_size, n) l.
Proof.
  intros Hz Hn. revert z Hz. induction ds as [|c ds IH]; intros z Hz H.
  - now injection H as ->.
  - pose proof (hex_number_ge _ _ _ Hz H) as Hle. cbn [hex_number] in H.
    destruct (hex_value c) as [d|] eqn:E; [|done]. pose proof (hex_value_range _ _ E).
    rewrite <- app_comm_cons, dechunk_cons by done.
    cbn [ck_switch fst snd]. unfold ck_chunk_size. rewrite E.
    destruct (Z.ltb_spec (NGX_MAX_OFF_T_VALUE / 16) z); [lia |]. apply IH; [lia | done].
Qed.

(** The rest of a line is passed over. *)
Lemma dechunk_until s cr lf z t bare l :
  s <> sw_chunk_data -> cr <> sw_chunk_data ->
  (forall c, ck_switch c (s, z) = ck_until_eol cr lf c (s, z)) ->
  (forall c, ck_switch c (cr, z) = ck_expect_lf lf c (cr, z)) ->
  plain t -> dechunk (s, z) (t ++ eol bare ++ l) = dechunk (lf, z) l.
Proof.
  intros Hs Hcr Es Ecr Ht. induction Ht as [| c t [H1 H2] _ IH]; cbn [List.app].
  - destruct bare; cbn [eol List.app]; rewrite dechunk_cons, Es by done; [done |].
    change (ck_until_eol cr lf CR (s, z)) with (@Next ck_vars ck_leave (cr, z)). cbv iota. now rewrite dechunk_cons, Ecr.
  - rewrite dechunk_cons, Es by done. unfold ck_until_eol. now rewrite (proj2 (Z.eqb_neq c CR) H1), (proj2 (Z.eqb_neq c LF) H2).
Qed.

Lemma dechunk_size_line n e bare l :
  0 <= n <= NGX_MAX_OFF_T_VALUE / 16 -> extension e ->
  dechunk (sw_chunk_size, n) (e ++ eol bare ++ l) = dechunk (if n =? 0 then sw_trailer else sw_chunk_data, n) l.
Proof.
  intros Hn He.
  assert (forall c l, hex_value c = None -> dechunk (sw_chunk_size, n) (c :: l) =
    match (if n =? 0 then
          if c =? CR then Next (sw_last_chunk_extension_almost_done, n)
          else if c =? LF then Next (sw_trailer, n)
          else if (c =? chr ";") || (c =? chr " ") || (c =? 9) then Next (sw_last_chunk_extension, n)
          else Stop (CkInvalid (sw_chunk_size, n))
        else
          if c =? CR then Next (sw_chunk_extension_almost_done, n)
          else if c =? LF then Next (sw_chunk_data, n)
          else if (c =? chr ";") || (c =? chr " ") || (c =? 9) then Next (sw_chunk_extension, n)
          else Stop (CkInvalid (sw_chunk_size, n))) with
    | Next v' => dechunk v' l | Stop (CkDone _) => ([], DkDone l) | Stop _ => ([], DkBad) end) as Hstep.
  { intros c l' Hc. rewrite dechunk_cons by done. cbn [ck_switch fst snd]. unfold ck_chunk_size. rewrite Hc.
    destruct (Z.ltb_spec (NGX_MAX_OFF_T_VALUE / 16) n); [lia | done]. }
  destruct e as [| c t].
  - destruct bare; cbn [eol List.app]; rewrite Hstep by reflexivity; destruct (n =? 0); reflexivity.
  - destruct He as [Hc Ht]. cbn [List.app]. rewrite Hstep by (cbn in Hc; decompose sum Hc; subst; reflexivity).
    assert (c <> CR /\ c <> LF /\ (c =? chr ";") || (c =? chr " ") || (c =? 9) = true) as (H1 & H2 & ->)
      by (cbn in Hc; decompose sum Hc; subst; done).
    rewrite (proj2 (Z.eqb_neq c CR) H1), (proj2 (Z.eqb_neq c LF) H2).
    destruct (n =? 0); [apply (dechunk_until _ sw_last_chunk_extension_almost_done) | apply (dechunk_until _ sw_chunk_extension_almost_done)]; done.
Qed.

(** A size and its line. *)
Lemma dechunk_size z ds n e bare l :
  ds <> [] -> hex_number 0 ds = Some n -> n <= NGX_MAX_OFF_T_VALUE / 16 -> extension e ->
  dechunk (sw_chunk_start, z) (ds ++ e ++ eol bare ++ l) = dechunk (if n =? 0 then sw_trailer else sw_chunk_data, n) l.
Proof.
  intros Hds Hn Hlen He. destruct ds as [| c ds]; [done |]. cbn [hex_number] in Hn.
  destruct (hex_value c) as [x |] eqn:E; [| done]. pose proof (hex_value_range _ _ E).
  pose proof (hex_number_ge x ds n ltac:(lia) Hn). cbn [List.app]. rewrite dechunk_cons by done.
  cbn [ck_switch fst]. unfold ck_chunk_start. rewrite E, (dechunk_digits x ds n) by (lia || exact Hn).
  apply dechunk_size_line; [lia | done].
Qed.

Lemma dechunk_chunk z k l :
  chunk_ok k ->
  dechunk (sw_chunk_start, z) (encode_chunk k ++ l) =
  (k_data k ++ fst (dechunk (sw_chunk_start, 0) l), snd (dechunk (sw_chunk_start, 0) l)).
Proof.
  destruct k as [ds e b d b']; intros (Hds & Hd & Hn & Hlen & He). cbn [k_size k_ext k_bare k_data k_bare'] in *.
  unfold encode_chunk. cbn [k_size k_ext k_bare k_data k_bare'].
  rewrite <- !app_assoc, (dechunk_size z ds _ e b _ Hds Hn Hlen He).
  destruct (Z.eqb_spec (Z.of_nat (List.length d)) 0); [destruct d; simpl List.length in *; [done | lia] |].
  rewrite dechunk_data, Z.sub_diag by lia. now destruct b'.
Qed.

Lemma dechunk_trailers ts b rest :
  Forall trailer_ok ts ->
  dechunk (sw_trailer, 0) (List.concat (List.map encode_trailer ts) ++ eol b ++ rest) = ([], DkDone rest).
Proof.
  induction 1 as [| [t bare] ts [Hne Ht] _ IH]; [now destruct b |]. cbn [fst] in *.
  destruct t as [| c t]; [done |]. inversion Ht as [| ? ? [H1 H2] Ht']; subst.
  cbn [List.map List.concat]. unfold encode_trailer at 1. cbn [fst snd]. rewrite <- !app_assoc. cbn [List.app].
  rewrite dechunk_cons by done. cbn [ck_switch fst]. unfold ck_trailer.
  rewrite (proj2 (Z.eqb_neq c CR) H1), (proj2 (Z.eqb_neq c LF) H2). cbn [snd].
  now rewrite (dechunk_until _ sw_trailer_header_almost_done sw_trailer).
Qed.

(** The reading of a body in the chunked coding. *)
Lemma dechunk_encode z B rest :
  chunked_body_ok B -> dechunk (sw_chunk_start, z) (encode_body B ++ rest) = (body_of B, DkDone rest).
Proof.
  intros (Hk & Hz & Hn & He & Ht). unfold encode_body, body_of. revert z. induction Hk as [| k ks Hk _ IH]; intros z.
  - cbn [List.map List.concat List.app]. rewrite <- !app_assoc, (dechunk_size z _ 0 _ _ _ Hz Hn ltac:(done) He).
    now apply dechunk_trailers.
  - cbn [List.map List.concat]. rewrite <- !app_assoc, dechunk_chunk by done. rewrite <- !app_assoc in IH. now rewrite IH.
Qed.

Lemma parsed_rc M e v p rc ctx b :
  parsed M e v p (rc, ctx, b) -> rc = NGX_ERROR \/ ctx_ok ctx.
Proof. inversion 1; auto. Qed.

(** Consuming the bytes of a chunk, or those of it that are in the buffer. *)
Lemma dechunk_take M ctx q e :
  c_state ctx = sw_chunk_data -> 0 < size ctx -> q <= e ->
  let n := Z.min (size ctx) (e - q) in
  dechunk (ck_vars_of ctx) (range M q e) =
  (range M q (q + n) ++ fst (dechunk (sw_chunk_data, size ctx - n) (range M (q + n) e)),
   snd (dechunk (sw_chunk_data, size ctx - n) (range M (q + n) e))).
Proof.
  intros Hs Hz Hq n. unfold ck_vars_of. rewrite Hs, (range_app M q (q + n) e) by lia.
  rewrite dechunk_data by (autorewrite with len; lia). autorewrite with len.
  now replace (Z.of_nat (Z.to_nat (q + n - q))) with n by lia.
Qed.

Lemma ctx_ok_take ctx n :
  ctx_ok ctx -> c_state ctx = sw_chunk_data -> 0 <= n <= size ctx ->
  ctx_ok (mk_chunked (c_state ctx) (size ctx - n) (c_length ctx)).
Proof.
  unfold ctx_ok, ck_ok. cbn [c_state size]. intros (H1 & H2 & H3) Hs Hn. rewrite Hs in *.
  specialize (H2 ltac:(discriminate)). split; [lia |]. split; [lia | intros [?|?]; discriminate].
Qed.

(** ** Properties *)

(** after the input ran out, [ctx->length] is a lower bound on the bytes
    still to come: any continuation that completes the body is at least that
    long, so a caller that waits for [ctx->length] bytes never waits for bytes
    the client need not send. *)
Theorem chunked_length_least M ctx p e ctx' b' more d rest :
  ctx_ok ctx -> p <= e ->
  ngx_http_parse_chunked M ctx (mk_buf p e) = (NGX_AGAIN, ctx', b') ->
  dechunk (ck_vars_of ctx') more = (d, DkDone rest) ->
  c_length ctx' <= Z.of_nat (List.length more) - Z.of_nat (List.length rest).
Proof.
  intros Hok Hpe E H. pose proof (parse_chunked_spec M ctx p e Hok Hpe) as G.
  rewrite E in G. inversion G as [| ? Hok' _ Hl | |]; subst.
  rewrite Hl. now apply (dechunk_length (ck_vars_of ctx') more d rest).
Qed.

(** C35: whatever the bytes, unless the body is rejected the chunk size stays in
    the range of [off_t] and so does [ctx->length]: no computation overflows. *)
Theorem chunked_no_overflow M ctx p e rc ctx' b' :
  ctx_ok ctx -> p <= e ->
  ngx_http_parse_chunked M ctx (mk_buf p e) = (rc, ctx', b') -> rc <> NGX_ERROR ->
  ctx_ok ctx' /\ 0 <= size ctx' <= NGX_MAX_OFF_T_VALUE /\
  (rc <> NGX_DONE -> 0 < c_length ctx' <= NGX_MAX_OFF_T_VALUE).
Proof.
  intros Hok Hpe E Hrc. pose proof (parse_chunked_spec M ctx p e Hok Hpe) as G.
  rewrite E in G. destruct (parsed_rc _ _ _ _ _ _ _ G) as [|Hok']; [done |].
  split; [done |]. split; [apply Hok' |]. intros Hd.
  assert (Hl : c_length ctx' = ck_length (c_state ctx') (size ctx') /\
               size ctx' <= NGX_MAX_OFF_T_VALUE - 5).
  { revert E. unfold ngx_http_parse_chunked.
    destruct (run_buf _ _ _ _) as [[s z] q | [[s z] | [s z] | [s z]] q];
      cbn [ck_data]; try (destruct (Z.ltb_spec (NGX_MAX_OFF_T_VALUE - 5) z));
      intros [= <- <- _]; done || (cbn; lia). }
  destruct Hl as [-> Hz]. destruct Hok' as (H1 & _). unfold NGX_MAX_OFF_T_VALUE in *.
  destruct (c_state ctx'); cbn [ck_length];
    try (destruct (Z.eqb_spec (size ctx') 0)); lia.
Qed.

(** ** Witnesses *)

Definition ex_body : list Z :=
  encode_body (mk_chunked_body
    [mk_chunk (str "5") [] false (str "hello") false; mk_chunk (str "00a") [] false (str ", wide wor") false]
    (str "0") [] false [] false).
Definition ex_mem : mem := mem_of 100 ex_body.

Lemma ctx_ok0 : ctx_ok chunked0.
Proof. split; [done |]. split; [done | intros [?|?]; discriminate]. Qed.

Lemma chunked_length_least_witness :
  let x := ngx_http_parse_chunked ex_mem chunked0 (mk_buf 100 101) in
  c_length (snd (fst x)) = 10 /\
  c_length (snd (fst x)) <= Z.of_nat (List.length (List.tl ex_body)).
Proof.
  split; [vm_compute; reflexivity |].
  rewrite <- (Z.sub_0_r (Z.of_nat _)).
  apply (chunked_length_least ex_mem chunked0 100 101 _ (mk_buf 101 101) (List.tl ex_body)
           (str "hello, wide wor") []).
  - apply ctx_ok0.
  - lia.
  - vm_compute. reflexivity.
  - vm_compute. reflexivity.
Defined.

Lemma chunked_no_overflow_witness :
  let ctx := snd (fst (ngx_http_parse_chunked ex_mem chunked0 (mk_buf 100 110))) in
  ctx_ok ctx /\ 0 <= size ctx <= NGX_MAX_OFF_T_VALUE /\
  (NGX_OK <> NGX_DONE -> 0 < c_length ctx <= NGX_MAX_OFF_T_VALUE).
Proof.
  apply (chunked_no_overflow ex_mem chunked0 100 110 NGX_OK _ (mk_buf 103 110));
    [apply ctx_ok0 | lia | vm_compute; reflexivity | discriminate].
Defined.

End Chunked.
