(* ===== verification/HttpRequestBody.v ===== *)
(** The consumers of a request body (src/http/ngx_http_request_body.c):
    [ngx_http_discard_request_body_filter], which throws a body away, and
    [ngx_http_request_body_length_filter] and
    [ngx_http_request_body_chunked_filter], which turn the received buffers
    into the chain of body buffers passed on to the next body filter. *)
From S2P Require Import Prelude HttpRequest HttpChunked.
Import Chunked.

Module RequestBody.

Definition NGX_HTTP_BAD_REQUEST : Z := 400.
Definition NGX_HTTP_REQUEST_ENTITY_TOO_LARGE : Z := 413.
Definition NGX_HTTP_INTERNAL_SERVER_ERROR : Z := 500.

(** ** [ngx_http_discard_request_body_filter]

    The [for (;;)] loop takes fuel: an iteration that continues has consumed
    at least one byte, so the length of the buffer plus one is enough.
    [lchb] is [cscf->large_client_header_buffers.size]. *)

(** A result is the code, [r->headers_in.content_length_n], the chunked
    context and the buffer. *)
Definition discarded : Type := Z * Z * chunked * ngx_buf.

Fixpoint discard_loop (fuel : nat) (lchb : Z) (M : mem) (clen : Z) (ctx : chunked) (b : ngx_buf)
  : option discarded :=
  match fuel with
  | O => None
  | S fuel' =>
      let '(rc, ctx', b') := ngx_http_parse_chunked M ctx b in
      if rc =? NGX_OK then
        let sz := last b' - pos b' in
        if size ctx' <? sz then
          discard_loop fuel' lchb M clen (mk_chunked (c_state ctx') 0 (c_length ctx'))
            (mk_buf (pos b' + size ctx') (last b'))
        else
          discard_loop fuel' lchb M clen
            (mk_chunked (c_state ctx') (size ctx' - sz) (c_length ctx'))
            (mk_buf (last b') (last b'))
      else if rc =? NGX_DONE then Some (NGX_OK, 0, ctx', b')
      else if rc =? NGX_AGAIN then Some (NGX_OK, Z.max (c_length ctx') lchb, ctx', b')
      else Some (NGX_HTTP_BAD_REQUEST, clen, ctx', b')
  end.

(** [rb] is [r->request_body->chunked], absent before the first call;
    [alloc_ok] says whether the pool can allocate it. *)
Definition ngx_http_discard_request_body_filter (lchb : Z) (alloc_ok : bool) (M : mem)
  (is_chunked : bool) (clen : Z) (rb : option chunked) (b : ngx_buf)
  : option (Z * Z * option chunked * ngx_buf) :=
  if is_chunked then
    match (match rb with Some ctx => Some ctx | None => if alloc_ok then Some chunked0 else None end) with
    | None => Some (NGX_HTTP_INTERNAL_SERVER_ERROR, clen, None, b)
    | Some ctx =>
        option_map (fun '(rc, n, ctx', b') => (rc, n, Some ctx', b'))
          (discard_loop (S (Z.to_nat (last b - pos b))) lchb M clen ctx b)
    end
  else
    let sz := last b - pos b in
    if clen <? sz then Some (NGX_OK, 0, rb, mk_buf (pos b + clen) (last b))
    else Some (NGX_OK, clen - sz, rb, mk_buf (last b) (last b)).

(** ** Body buffers

    A buffer of the [out] chain: its range and [last_buf].  Chains under
    construction are kept most recent first, so that [*ll = tl] is a cons; the
    chain handed on is their reverse.  [alloc n] says whether the [n]-th
    [ngx_chain_get_free_buf] of the call succeeds, [top] is
    [ngx_http_top_request_body_filter]. *)
Record body_buf := mk_body_buf { bb : ngx_buf; last_buf : bool }.

Definition chain : Type := list body_buf.

(** A [ngx_memzero]ed buffer with [last_buf] set. *)
Definition final_buf : body_buf := mk_body_buf (mk_buf NULL NULL) true.

(** What a filter leaves behind, whether or not it fails: [rb->rest], the
    input buffers, and either an error code or the chain it passes on. *)
Record filtered := mk_filtered {
  f_rc : Z;
  f_rest : Z;
  f_in : list ngx_buf;
  f_out : chain
}.

(** ** [ngx_http_request_body_length_filter] *)

(** The loop over the input chain: whether every buffer could be had,
    [rb->rest], the input buffers and the [out] chain. *)
Fixpoint length_loop (alloc : nat -> bool) (n : nat) (rest : Z) (input : list ngx_buf) (out : chain)
  : bool * Z * list ngx_buf * chain :=
  match input with
  | [] => (true, rest, [], out)
  | cl :: input' =>
      if rest =? 0 then (true, rest, input, out)
      else if negb (alloc n) then (false, rest, input, out)
      else
        let sz := last cl - pos cl in
        if sz <? rest then
          let '(ok, r, ins, o) :=
            length_loop alloc (S n) (rest - sz) input' (mk_body_buf cl false :: out) in
          (ok, r, mk_buf (last cl) (last cl) :: ins, o)
        else
          let p := pos cl + rest in
          let '(ok, r, ins, o) :=
            length_loop alloc (S n) 0 input' (mk_body_buf (mk_buf (pos cl) p) true :: out) in
          (ok, r, mk_buf p (last cl) :: ins, o)
  end.

Definition ngx_http_request_body_length_filter (alloc : nat -> bool) (top : chain -> Z)
  (content_length_n rest : Z) (input : list ngx_buf) : filtered :=
  let first := rest =? -1 in
  let rest0 := if first then content_length_n else rest in
  let empty := first && (rest0 =? 0) in
  if empty && negb (alloc 0%nat) then
    mk_filtered NGX_HTTP_INTERNAL_SERVER_ERROR rest0 input []
  else
    let '(ok, r, ins, out) :=
      length_loop alloc (if empty then 1 else 0)%nat rest0 input
        (if empty then [final_buf] else []) in
    if ok then mk_filtered (top (List.rev out)) r ins (List.rev out)
    else mk_filtered NGX_HTTP_INTERNAL_SERVER_ERROR r ins [].

(** ** [ngx_http_request_body_chunked_filter] *)

(** The memory, [*rb->chunked], [r->headers_in.content_length_n], the number
    of buffers taken and the [out] chain. *)
Record cf_state := mk_cf {
  cf_mem : mem;
  cf_ctx : chunked;
  cf_clen : Z;
  cf_allocs : nat;
  cf_out : chain
}.

Definition cf_size (ctx : chunked) (z : Z) : chunked := mk_chunked (c_state ctx) z (c_length ctx).

(** [clcf->client_max_body_size && client_max_body_size - content_length_n <
    rb->chunked->size] *)
Definition cf_too_large (max_body clen size : Z) : bool :=
  negb (max_body =? 0) && (max_body - clen <? size).

(** A small chunk that is whole in the buffer is moved down to the end of the
    body buffer in front of it. *)
Definition cf_compact (st : cf_state) (o : body_buf) (out : chain) (cl : ngx_buf)
  : cf_state * ngx_buf :=
  let z := size (cf_ctx st) in
  let dst := last (bb o) in
  let M := cf_mem st in
  let M' := if z <? 8 then copy_forward M dst (pos cl) (Z.to_nat z)
            else memmove M dst (pos cl) (Z.to_nat z) in
  (mk_cf M' (cf_size (cf_ctx st) 0) (cf_clen st + z) (cf_allocs st)
     (mk_body_buf (mk_buf (pos (bb o)) (dst + z)) (last_buf o) :: out),
   mk_buf (pos cl + z) (last cl)).

(** A new body buffer that covers the data in place. *)
Definition cf_append (st : cf_state) (cl : ngx_buf) : cf_state * ngx_buf :=
  let z := size (cf_ctx st) in
  let sz := last cl - pos cl in
  let n := if z <? sz then z else sz in
  let p := pos cl + n in
  (mk_cf (cf_mem st) (cf_size (cf_ctx st) (z - n)) (cf_clen st + n) (S (cf_allocs st))
     (mk_body_buf (mk_buf (pos cl) p) false :: cf_out st),
   mk_buf p (last cl)).

(** The branch [rc == NGX_OK]: an error code, or the state to go on with. *)
Definition cf_chunk (alloc : nat -> bool) (max_body : Z) (st : cf_state) (b : bool) (cl : ngx_buf)
  : Z + (cf_state * ngx_buf) :=
  let z := size (cf_ctx st) in
  if cf_too_large max_body (cf_clen st) z then inl NGX_HTTP_REQUEST_ENTITY_TOO_LARGE
  else
    let append := if alloc (cf_allocs st) then inr (cf_append st cl)
                  else inl NGX_HTTP_INTERNAL_SERVER_ERROR in
    match cf_out st with
    | o :: out =>
        if b && (z <=? 128) && (z <=? last cl - pos cl) then inr (cf_compact st o out cl) else append
    | [] => append
    end.

(** An error code if there is one, [rb->rest], the state and the buffer. *)
Definition cf_result : Type := option Z * Z * cf_state * ngx_buf.

(** The [for (;;)] loop over one input buffer, with fuel as in
    [discard_loop]. *)
Fixpoint cf_buf (fuel : nat) (alloc : nat -> bool) (max_body lchb rest : Z) (st : cf_state) (b : bool)
  (cl : ngx_buf) : option cf_result :=
  match fuel with
  | O => None
  | S fuel' =>
      let '(rc, ctx, cl') := ngx_http_parse_chunked (cf_mem st) (cf_ctx st) cl in
      let st' := mk_cf (cf_mem st) ctx (cf_clen st) (cf_allocs st) (cf_out st) in
      if rc =? NGX_OK then
        match cf_chunk alloc max_body st' b cl' with
        | inl e => Some (Some e, rest, st', cl')
        | inr (st'', cl'') => cf_buf fuel' alloc max_body lchb rest st'' true cl''
        end
      else if rc =? NGX_DONE then
        let rest := 0 in
        if alloc (cf_allocs st') then
          Some (None, rest, mk_cf (cf_mem st') ctx (cf_clen st') (S (cf_allocs st'))
                              (final_buf :: cf_out st'), cl')
        else Some (Some NGX_HTTP_INTERNAL_SERVER_ERROR, rest, st', cl')
      else if rc =? NGX_AGAIN then Some (None, Z.max (c_length ctx) lchb, st', cl')
      else Some (Some NGX_HTTP_BAD_REQUEST, rest, st', cl')
  end.

(** [for (cl = in; cl; cl = cl->next)]: the error returned if any, and
    [rb->rest]. *)
Fixpoint cf_loop (alloc : nat -> bool) (max_body lchb rest : Z) (st : cf_state)
  (input : list ngx_buf) : option (option Z * Z * cf_state) :=
  match input with
  | [] => Some (None, rest, st)
  | cl :: input' =>
      match cf_buf (S (Z.to_nat (last cl - pos cl))) alloc max_body lchb rest st false cl with
      | None => None
      | Some (Some e, rest', st', _) => Some (Some e, rest', st')
      | Some (None, rest', st', _) => cf_loop alloc max_body lchb rest' st' input'
      end
  end.

(** [rb->chunked] is allocated and zeroed on the first call, when [rb->rest]
    is -1; [ctx_alloc] says whether it can be. *)
Definition ngx_http_request_body_chunked_filter (alloc : nat -> bool) (ctx_alloc : bool)
  (top : chain -> Z) (max_body lchb rest : Z) (M : mem) (ctx : chunked) (clen : Z)
  (input : list ngx_buf) : option (Z * Z * cf_state) :=
  let first := rest =? -1 in
  if first && negb ctx_alloc then Some (NGX_HTTP_INTERNAL_SERVER_ERROR, rest, mk_cf M ctx clen 0 [])
  else
    let st := mk_cf M (if first then chunked0 else ctx) (if first then 0 else clen) 0 [] in
    match cf_loop alloc max_body lchb (if first then lchb else rest) st input with
    | None => None
    | Some (Some e, rest', st') => Some (e, rest', st')
    | Some (None, rest', st') => Some (top (List.rev (cf_out st')), rest', st')
    end.

(** ** Specification *)

(** The bytes a chain stands for, and those of a chain under construction. *)
Definition chain_bytes (M : mem) (c : chain) : list Z :=
  List.concat (List.map (fun o => range M (pos (bb o)) (last (bb o))) c).

Definition content (M : mem) (out : chain) : list Z := chain_bytes M (List.rev out).

(** No buffer of the chain touches [u, w). *)
Definition apart (u w : Z) (out : chain) : Prop :=
  Forall (fun o => forall y, u <= y < w -> pos (bb o) <= y < last (bb o) -> False) out.

(** What passing over input in [x, e) may do: append [d] to the body, write
    nowhere else, and take no buffer from elsewhere. *)
Record cf_moves (x e : Z) (d : list Z) (st st' : cf_state) : Prop := {
  mv_content : content (cf_mem st') (cf_out st') = content (cf_mem st) (cf_out st) ++ d;
  mv_mem : forall y, y < x \/ e <= y -> cf_mem st' y = cf_mem st y;
  mv_clen : cf_clen st' = cf_clen st + Z.of_nat (List.length d);
  mv_apart : forall u w, w <= x \/ e <= u -> apart u w (cf_out st) -> apart u w (cf_out st')
}.

(** [x] is where the next small chunk would be moved to. *)
Definition cf_limit (st : cf_state) (b : bool) (cl : ngx_buf) (x : Z) : Prop :=
  if b then exists o out, cf_out st = o :: out /\ pos (bb o) <= last (bb o) /\ last (bb o) = x /\
                     apart x (last cl) out
  else x = pos cl.

Definition cf_ready (st : cf_state) (b : bool) (cl : ngx_buf) (x : Z) : Prop :=
  ctx_ok (cf_ctx st) /\ x <= pos cl <= last cl /\ apart x (last cl) (cf_out st) /\
  cf_limit st b cl x.

Definition always : nat -> bool := fun _ => true.

(** ** Lemmas *)

Lemma content_cons M o out :
  content M (o :: out) = content M out ++ range M (pos (bb o)) (last (bb o)).
Proof.
  unfold content, chain_bytes. simpl List.rev. rewrite List.map_app, List.concat_app. simpl.
  now rewrite app_nil_r.
Qed.

Lemma content_ext M M' x e out :
  (forall y, y < x \/ e <= y -> M' y = M y) -> apart x e out -> content M' out = content M out.
Proof.
  intros H. induction 1 as [|o out Ho _ IH]; [done |]. rewrite !content_cons, IH. f_equal.
  apply range_ext. intros y Hy. apply H. specialize (Ho y). lia.
Qed.

Lemma apart_sub u w u' w' out : apart u w out -> u <= u' -> w' <= w -> apart u' w' out.
Proof. intros H ? ?. unfold apart. eapply Forall_impl; [| exact H].
  cbn. intros o Ho y Hy. apply Ho. lia. Qed.

Lemma cf_moves_trans x x' e d d' s1 s2 s3 :
  x <= x' -> cf_moves x e d s1 s2 -> cf_moves x' e d' s2 s3 -> cf_moves x e (d ++ d') s1 s3.
Proof.
  intros Hx [C1 M1 L1 A1] [C2 M2 L2 A2]. constructor.
  - now rewrite C2, C1, app_assoc.
  - intros y Hy. rewrite M2, M1 by lia. done.
  - rewrite List.length_app. lia.
  - intros u w Hw Ha. apply A2; [lia |]. now apply A1.
Qed.

Lemma cf_moves_refl x e st ctx :
  cf_moves x e [] st (mk_cf (cf_mem st) ctx (cf_clen st) (cf_allocs st) (cf_out st)).
Proof. constructor; cbn; auto; [now rewrite app_nil_r | lia]. Qed.

(** A new buffer over the data in place. *)
Lemma cf_append_moves st b cl x st' cl' :
  cf_ready st b cl x -> c_state (cf_ctx st) = sw_chunk_data ->
  cf_append st cl = (st', cl') ->
  let n := Z.min (size (cf_ctx st)) (last cl - pos cl) in
  cf_moves x (last cl) (range (cf_mem st) (pos cl) (pos cl + n)) st st' /\
  cl' = mk_buf (pos cl + n) (last cl) /\ cf_ctx st' = cf_size (cf_ctx st) (size (cf_ctx st) - n) /\
  cf_mem st' = cf_mem st /\ cf_ready st' true cl' (pos cl + n).
Proof.
  intros (Hok & Hx & Hap & _) Hs H n. unfold cf_append in H.
  pose proof (proj1 Hok) as Hz. unfold ck_ok in Hz.
  assert (En : (if size (cf_ctx st) <? last cl - pos cl then size (cf_ctx st) else last cl - pos cl) = n).
  { unfold n. destruct (Z.ltb_spec (size (cf_ctx st)) (last cl - pos cl)); lia. }
  rewrite En in H. injection H as <- <-. cbn [cf_mem cf_ctx pos last].
  assert (Hn : 0 <= n <= size (cf_ctx st) /\ n <= last cl - pos cl) by lia. clearbody n.
  assert (Hap' : apart (pos cl + n) (last cl) (cf_out st)) by (eapply apart_sub; eauto; lia).
  split; [constructor | split; [done | split; [done | split; [done |]]]]; cbn [cf_mem cf_out cf_clen].
  - now rewrite content_cons.
  - done.
  - autorewrite with len. lia.
  - intros u w Hw Ha. constructor; [cbn; lia | done].
  - split; [now apply ctx_ok_take |]. cbn [pos last cf_out]. split; [lia |]. split.
    + constructor; [cbn; lia | done].
    + exists (mk_body_buf (mk_buf (pos cl) (pos cl + n)) false), (cf_out st). cbn.
      split; [done |]. split; [lia |]. done.
Qed.

(** Moving a small chunk down: the bytes it overwrites were consumed. *)
Lemma cf_compact_moves st cl x o out st' cl' :
  cf_ready st true cl x -> c_state (cf_ctx st) = sw_chunk_data ->
  cf_out st = o :: out -> size (cf_ctx st) <= last cl - pos cl ->
  cf_compact st o out cl = (st', cl') ->
  let n := size (cf_ctx st) in
  cf_moves x (last cl) (range (cf_mem st) (pos cl) (pos cl + n)) st st' /\
  cl' = mk_buf (pos cl + n) (last cl) /\ cf_ctx st' = cf_size (cf_ctx st) 0 /\
  agree (cf_mem st) (cf_mem st') (pos cl + n) (last cl) /\ cf_ready st' true cl' (x + n).
Proof.
  intros (Hok & Hx & Hap & (o' & out' & Eo & Ho & Hl & Hap')) Hs Eo' Hz H n.
  rewrite Eo' in Eo. injection Eo as <- <-. unfold cf_compact in H. fold n in H.
  pose proof (proj1 Hok) as Hn. cbn [size] in Hn. fold n in Hn.
  rewrite copy_forward_memmove in H by lia.
  set (M' := memmove (cf_mem st) (last (bb o)) (pos cl) (Z.to_nat n)) in *.
  assert (Em : (if n <? 8 then M' else M') = M') by now destruct (n <? 8). rewrite Em in H.
  injection H as <- <-. cbn [cf_mem cf_ctx pos last].
  assert (Hlen : Z.of_nat (List.length (bytes_at (cf_mem st) (pos cl) (Z.to_nat n))) = n)
    by (autorewrite with len; lia).
  assert (Hout : forall y, y < x \/ x + n <= y -> M' y = cf_mem st y).
  { intros y Hy. apply write_outside. rewrite Hlen. lia. }
  assert (Hnew : range M' (last (bb o)) (last (bb o) + n) = range (cf_mem st) (pos cl) (pos cl + n)).
  { unfold M', memmove. rewrite <- Hlen at 2. rewrite range_write. unfold range. f_equal. lia. }
  split; [constructor | split; [done | split; [done | split]]]; cbn [cf_mem cf_out cf_clen].
  - rewrite Eo', !content_cons. cbn [bb pos last].
    rewrite (range_app M' (pos (bb o)) (last (bb o))), Hnew by lia.
    rewrite (content_ext (cf_mem st) M' x (last cl)); [| intros; apply Hout; lia | done].
    rewrite app_assoc. do 2 f_equal. apply range_ext. intros y Hy. apply Hout. lia.
  - intros y Hy. apply Hout. lia.
  - autorewrite with len. lia.
  - rewrite Eo'. intros u w Hw Ha. inversion Ha as [| ? ? Ha1 Ha2]; subst.
    constructor; [cbn; intros y Hy Hy2; apply (Ha1 y Hy); lia | done].
  - intros y Hy. symmetry. apply Hout. lia.
  - unfold cf_ready. cbn [cf_ctx cf_out pos last].
    assert (Hap2 : apart (x + n) (last cl) out) by (eapply apart_sub; [exact Hap' | lia | lia]).
    split; [replace 0 with (size (cf_ctx st) - n) by lia; apply ctx_ok_take; done || lia |].
    split; [lia |]. split; [constructor; [cbn; lia | done] |].
    eexists _, out. cbn. split; [reflexivity |]. cbn. split; [lia |]. split; [lia | done].
Qed.

(** What is done about a chunk. *)
Lemma cf_chunk_cases alloc max_body st b cl :
  cf_chunk alloc max_body st b cl = inl NGX_HTTP_REQUEST_ENTITY_TOO_LARGE /\ max_body <> 0 /\
    max_body < cf_clen st + size (cf_ctx st) \/
  cf_chunk alloc max_body st b cl = inl NGX_HTTP_INTERNAL_SERVER_ERROR /\ alloc (cf_allocs st) = false \/
  cf_chunk alloc max_body st b cl = inr (cf_append st cl) \/
  exists o out, b = true /\ cf_out st = o :: out /\ size (cf_ctx st) <= last cl - pos cl /\
    cf_chunk alloc max_body st b cl = inr (cf_compact st o out cl).
Proof.
  unfold cf_chunk, cf_too_large.
  destruct (negb (max_body =? 0) && (max_body - cf_clen st <? size (cf_ctx st))) eqn:El; [left; split; [done | lia] | right].
  assert (forall r, r = (if alloc (cf_allocs st) then inr (cf_append st cl) else inl NGX_HTTP_INTERNAL_SERVER_ERROR) ->
    r = inl NGX_HTTP_INTERNAL_SERVER_ERROR /\ alloc (cf_allocs st) = false \/ r = inr (cf_append st cl)) as Q
    by (intros r ->; destruct (alloc (cf_allocs st)); auto).
  destruct (cf_out st) as [| o out]; [destruct (Q _ eq_refl); auto |].
  destruct (b && (size (cf_ctx st) <=? 128) && (size (cf_ctx st) <=? last cl - pos cl)) eqn:Eb; [| destruct (Q _ eq_refl); auto].
  right. right. exists o, out. apply andb_true_iff in Eb as [[-> _]%andb_true_iff Hle%Z.leb_le]. done.
Qed.

(** Not enough memory, or more than the limit allows: at least [n] bytes. *)
Definition cf_refused (alloc : nat -> bool) (max_body n err : Z) : Prop :=
  err = NGX_HTTP_INTERNAL_SERVER_ERROR /\ (exists k, alloc k = false) \/
  err = NGX_HTTP_REQUEST_ENTITY_TOO_LARGE /\ max_body <> 0 /\ max_body < n.

Lemma cf_refused_le alloc max_body n n' err :
  n <= n' -> cf_refused alloc max_body n err -> cf_refused alloc max_body n' err.
Proof. unfold cf_refused. intros H [? | (? & ? & ?)]; [auto | right; split; [done | split; [done | lia]]]. Qed.

(** One chunk of data: it is refused, or the bytes in the buffer are appended to
    the body. *)
Lemma cf_chunk_moves alloc max_body st b cl x :
  cf_ready st b cl x -> c_state (cf_ctx st) = sw_chunk_data -> 0 < size (cf_ctx st) ->
  pos cl < last cl ->
  let n := Z.min (size (cf_ctx st)) (last cl - pos cl) in
  (exists err, cf_chunk alloc max_body st b cl = inl err /\
     cf_refused alloc max_body (cf_clen st + size (cf_ctx st)) err) \/
  exists st' x', cf_chunk alloc max_body st b cl = inr (st', mk_buf (pos cl + n) (last cl)) /\
    cf_moves x (last cl) (range (cf_mem st) (pos cl) (pos cl + n)) st st' /\
    cf_ctx st' = cf_size (cf_ctx st) (size (cf_ctx st) - n) /\
    agree (cf_mem st) (cf_mem st') (pos cl + n) (last cl) /\
    cf_ready st' true (mk_buf (pos cl + n) (last cl)) x' /\ x <= x'.
Proof.
  intros Hr Hs Hz Hlt n.
  destruct (cf_chunk_cases alloc max_body st b cl) as [(-> & H) | [(-> & H) | [-> | (o & out & -> & Eo & Hle & ->)]]].
  - left. eexists. split; [reflexivity |]. now right.
  - left. eexists. split; [reflexivity |]. left. eauto.
  - right. destruct (cf_append st cl) as [st' cl'] eqn:E.
    destruct (cf_append_moves st b cl x st' cl' Hr Hs E) as (Hm & -> & Hc & Hmem & Hr').
    fold n in Hm, Hc, Hr' |- *. exists st', (pos cl + n). rewrite Hmem.
    split; [done |]. split; [done |]. split; [done |]. split; [done |]. split; [done |].
    destruct Hr as (_ & Hx & _). lia.
  - right. destruct (cf_compact st o out cl) as [st' cl'] eqn:E.
    destruct (cf_compact_moves st cl x o out st' cl' Hr Hs Eo Hle E) as (Hm & -> & Hc & Hmem & Hr').
    replace n with (size (cf_ctx st)) by lia.
    exists st', (x + size (cf_ctx st)). rewrite Z.sub_diag.
    split; [done |]. split; [done |]. split; [done |]. split; [done |]. split; [done | lia].
Qed.

(** What is wrong: the body is refused, or malformed. *)
Definition cf_fails (alloc : nat -> bool) (max_body clen : Z) (de : list Z * dk_end) (err : Z) : Prop :=
  match snd de with
  | DkBad => err = NGX_HTTP_BAD_REQUEST \/ exists n, cf_refused alloc max_body n err
  | e => cf_refused alloc max_body (clen + Z.of_nat (List.length (fst de)) + due_end e) err
  end.

(** What the filter makes of an input buffer, [(d, en)] being what reading the
    protocol a byte at a time makes of it. *)
Definition cf_outcome (alloc : nat -> bool) (max_body lchb x e : Z) (st : cf_state) (de : list Z * dk_end)
  (r : cf_result) : Prop :=
  let '(err, rest', st', cl') := r in
  match err with
  | Some err => cf_fails alloc max_body (cf_clen st) de err
  | None =>
      match snd de with
      | DkMore v =>
          rest' = Z.max (ck_length (fst v) (snd v)) lchb /\ cf_moves x e (fst de) st st' /\
          ck_vars_of (cf_ctx st') = v /\ ctx_ok (cf_ctx st')
      | DkDone rest =>
          rest' = 0 /\ cf_moves x e (fst de) st st' /\ c_state (cf_ctx st') = sw_chunk_start /\
          ctx_ok (cf_ctx st') /\ range (cf_mem st') (pos cl') e = rest /\
          List.hd_error (cf_out st') = Some final_buf
      | DkBad => False
      end
  end.

(** A failure is one of the whole body. *)
Lemma cf_fails_app alloc max_body clen clen' d0 de err :
  clen' = clen + Z.of_nat (List.length d0) ->
  cf_fails alloc max_body clen' de err -> cf_fails alloc max_body clen (d0 ++ fst de, snd de) err.
Proof.
  intros ->. unfold cf_fails. destruct de as [d [v | rest |]]; cbn [fst snd]; [| | done];
    rewrite List.length_app; apply cf_refused_le; lia.
Qed.

Lemma cf_outcome_trans alloc max_body lchb x x' e st st1 d0 de r :
  x <= x' -> cf_moves x e d0 st st1 -> cf_outcome alloc max_body lchb x' e st1 de r ->
  cf_outcome alloc max_body lchb x e st (d0 ++ fst de, snd de) r.
Proof.
  intros Hx Hm. destruct r as [[[[err |] rest'] st'] cl']; unfold cf_outcome.
  - apply cf_fails_app, Hm.
  - destruct de as [d [v | rest |]]; cbn; [| | done].
    + intros (? & Hm' & ?). split; [done |]. split; [|done]. eapply cf_moves_trans; eauto.
    + intros (? & Hm' & ?). split; [done |]. split; [|done]. eapply cf_moves_trans; eauto.
Qed.

(** The data of the chunk at hand, all of it, belongs to the body. *)
Lemma cf_fails_chunk alloc max_body clen ctx l err :
  c_state ctx = sw_chunk_data -> cf_refused alloc max_body (clen + size ctx) err ->
  cf_fails alloc max_body clen (dechunk (ck_vars_of ctx) l) err.
Proof.
  intros Hs H. unfold cf_fails. pose proof (dechunk_due (ck_vars_of ctx) l) as Hd.
  destruct (dechunk (ck_vars_of ctx) l) as [d [v | rest |]]; cbn [fst snd]; [| | eauto];
    specialize (Hd _ _ eq_refl ltac:(discriminate)); unfold due at 1, ck_vars_of in Hd; cbn [fst snd] in Hd;
    rewrite decide_True in Hd by done; eapply cf_refused_le; try exact H; lia.
Qed.

Lemma cf_moves_final x e st ctx :
  cf_moves x e [] st
    (mk_cf (cf_mem st) ctx (cf_clen st) (S (cf_allocs st)) (final_buf :: cf_out st)).
Proof.
  constructor; cbn -[content]; auto; [now rewrite content_cons | lia |].
  intros u w _ Ha. constructor; [cbn; unfold NULL; lia | done].
Qed.

Lemma cf_buf_correct fuel alloc max_body lchb rest st b cl x :
  cf_ready st b cl x -> (Z.to_nat (last cl - pos cl) < fuel)%nat ->
  exists r, cf_buf fuel alloc max_body lchb rest st b cl = Some r /\
    cf_outcome alloc max_body lchb x (last cl) st
      (dechunk (ck_vars_of (cf_ctx st)) (range (cf_mem st) (pos cl) (last cl))) r.
Proof.
  revert st b cl x. induction fuel as [|fuel IH]; intros st b [p e] x Hr Hf; [lia |].
  cbn [pos last] in *. destruct Hr as (Hok & Hx & Hap & Hlim). cbn [pos last] in *. cbn [cf_buf].
  pose proof (parse_chunked_spec (cf_mem st) (cf_ctx st) p e Hok ltac:(lia)) as G.
  inversion G as [ctx' q Hok' Hs Hz Hq Hd _ Ex | ctx' Hok' Hd Hl Ex | ctx' q Hok' Hs Hq Hd Ex
                 | ctx' cl' Hd Ex]; clear G Ex;
    cbn [Z.eqb Pos.eqb NGX_OK NGX_DONE NGX_AGAIN NGX_ERROR pos last]; rewrite Hd.
  - set (st1 := mk_cf (cf_mem st) ctx' (cf_clen st) (cf_allocs st) (cf_out st)).
    assert (Hr1 : exists x1, x <= x1 /\ cf_ready st1 b (mk_buf q e) x1).
    { destruct b.
      - exists x. split; [lia |]. split; [done |]. cbn [pos last]. split; [lia |]. split; [done |].
        exact Hlim.
      - exists q. cbn in Hlim. split; [lia |]. split; [done |]. cbn [pos last]. split; [lia |].
        split; [eapply apart_sub; [exact Hap | lia | lia] | done]. }
    destruct Hr1 as (x1 & Hx1 & Hr1).
    destruct (cf_chunk_moves alloc max_body st1 b (mk_buf q e) x1 Hr1 Hs Hz ltac:(cbn; lia))
      as [(err & -> & Herr) | (st2 & x2 & Ec & Hm & Hctx & Hag & Hr2 & Hx2)]; cbn [pos last] in *.
    { eexists. split; [reflexivity |]. now apply cf_fails_chunk. }
    rewrite Ec. set (n := Z.min (size (cf_ctx st1)) (e - q)) in *.
    assert (Hn : 0 < n) by (unfold n; cbn; lia).
    destruct (IH st2 true _ x2 Hr2 ltac:(cbn; lia)) as (r & Er & Ho). cbn [pos last] in Ho.
    exists r. split; [exact Er |].
    rewrite (dechunk_take (cf_mem st) ctx' q e Hs Hz) by lia.
    rewrite (range_ext (cf_mem st2) (cf_mem st)) in Ho by (apply agree_sym; exact Hag).
    rewrite Hctx in Ho. unfold ck_vars_of, cf_size in Ho. cbn [c_state size] in Ho.
    change (cf_ctx st1) with ctx' in Ho. rewrite Hs in Ho.
    eapply (cf_outcome_trans alloc max_body lchb x x2 e st st2); [lia | | exact Ho].
    change (range (cf_mem st) q _) with ([] ++ range (cf_mem st1) q (q + n)).
    eapply cf_moves_trans; [exact Hx1 | apply (cf_moves_refl x e st ctx') | exact Hm].
  - eexists. split; [reflexivity |]. cbn. rewrite Hl. split; [done |]. split; [|done].
    apply cf_moves_refl.
  - cbn [cf_allocs]. destruct (alloc (cf_allocs st)) eqn:Ea; eexists; (split; [reflexivity |]).
    + cbn. split; [done |]. split; [apply cf_moves_final |]. done.
    + left. eauto.
  - eexists. split; [reflexivity |]. now left.
Qed.

(** The input buffers hold something and do not overlap. *)
Fixpoint separate (input : list ngx_buf) : Prop :=
  match input with
  | [] => True
  | cl :: input' =>
      pos cl < last cl /\
      Forall (fun cl' => last cl <= pos cl' \/ last cl' <= pos cl) input' /\ separate input'
  end.

(** The bytes of a chain of input buffers. *)
Definition input_bytes (M : mem) (input : list ngx_buf) : list Z :=
  List.concat (List.map (fun cl => range M (pos cl) (last cl)) input).

Lemma input_bytes_ext M M' a b input :
  (forall y, y < a \/ b <= y -> M' y = M y) ->
  Forall (fun cl => b <= pos cl \/ last cl <= a) input -> input_bytes M' input = input_bytes M input.
Proof.
  intros H. induction 1 as [|cl input Hcl _ IH]; [done |]. unfold input_bytes in *. cbn.
  rewrite IH. f_equal. apply range_ext. intros y Hy. apply H. lia.
Qed.

Lemma separate_nonempty M input : separate input -> input <> [] -> input_bytes M input <> [].
Proof.
  destruct input as [|cl input]; [done |]. intros (H & _) _. unfold input_bytes. cbn.
  now rewrite range_cons by lia.
Qed.

Lemma cf_loop_correct alloc max_body lchb rest st input :
  ctx_ok (cf_ctx st) -> separate input -> input <> [] ->
  Forall (fun cl => apart (pos cl) (last cl) (cf_out st)) input ->
  let de := dechunk (ck_vars_of (cf_ctx st)) (input_bytes (cf_mem st) input) in
  (forall c l, snd de <> DkDone (c :: l)) ->
  exists err rest' st', cf_loop alloc max_body lchb rest st input = Some (err, rest', st') /\
    match err with
    | Some err => cf_fails alloc max_body (cf_clen st) de err
    | None =>
        content (cf_mem st') (cf_out st') = content (cf_mem st) (cf_out st) ++ fst de /\
        cf_clen st' = cf_clen st + Z.of_nat (List.length (fst de)) /\
        match snd de with
        | DkMore v => rest' = Z.max (ck_length (fst v) (snd v)) lchb /\ ck_vars_of (cf_ctx st') = v
        | DkDone _ => rest' = 0 /\ List.hd_error (cf_out st') = Some final_buf
        | DkBad => False
        end
    end.
Proof.
  revert rest st. induction input as [|cl input IH]; intros rest st Hok Hsep Hne Hap; [done |].
  destruct Hsep as (Hlt & Hfar & Hsep). apply Forall_cons_1 in Hap as [Hap Haps].
  unfold input_bytes. cbn [List.map List.concat cf_loop]. fold (input_bytes (cf_mem st) input).
  destruct (cf_buf_correct (S (Z.to_nat (last cl - pos cl))) alloc max_body lchb rest st false cl (pos cl)) as (r & -> & Ho).
  { split; [done |]. split; [lia |]. split; [done |]. reflexivity. }
  { lia. }
  destruct r as [[[err rest1] st1] cl1].
  destruct (dechunk _ (range _ (pos cl) (last cl))) as [d [v | left1 |]] eqn:E; cbn [cf_outcome fst snd] in Ho.
  - rewrite (dechunk_app _ _ _ _ _ E). cbn [fst snd]. intros Hend. destruct err as [err |].
    { exists (Some err), rest1, st1. split; [done |]. unfold cf_fails in Ho. cbn [fst snd] in Ho. unfold cf_fails. cbn [fst snd].
      pose proof (dechunk_due v (input_bytes (cf_mem st) input)) as Hd.
      destruct (dechunk v (input_bytes (cf_mem st) input)) as [d2 [v2 | left2 |]]; cbn [fst snd due_end] in *; [| | eauto];
        specialize (Hd _ _ eq_refl ltac:(discriminate)); cbn [due_end] in Hd; rewrite List.length_app;
        eapply cf_refused_le; try exact Ho; lia. }
    destruct Ho as (-> & Hm & Hv & Hok1). destruct input as [|cl2 input'] eqn:Ei; [|rewrite <- Ei in *].
    + eexists None, _, st1. split; [reflexivity |]. unfold input_bytes. cbn [List.map List.concat dechunk fst snd].
      destruct (dechunk_more _ _ _ _ E) as [Hs ->].
      destruct (Z.ltb_spec (NGX_MAX_OFF_T_VALUE - 5) (snd v)); [lia |]. cbn [fst snd]. rewrite app_nil_r.
      split; [apply Hm |]. split; [apply Hm | done].
    + assert (Hb : input_bytes (cf_mem st1) input = input_bytes (cf_mem st) input).
      { apply (input_bytes_ext _ _ (pos cl) (last cl)); [apply Hm | done]. }
      assert (Haps1 : Forall (fun cl => apart (pos cl) (last cl) (cf_out st1)) input).
      { rewrite List.Forall_forall in Hfar, Haps |- *. intros c Hc. apply Hm; [|auto].
        specialize (Hfar c Hc). lia. }
      specialize (IH (Z.max (ck_length (fst v) (snd v)) lchb) st1 Hok1 Hsep ltac:(congruence) Haps1).
      rewrite Hb, Hv in IH. destruct (IH Hend) as (err & rest' & st' & -> & H). exists err, rest', st'. split; [done |].
      destruct Hm as [C1 M1 L1 A1]. destruct err as [err |]; [now apply (cf_fails_app _ _ _ (cf_clen st1)) |].
      destruct H as (Hc & Hl & H). cbn [fst snd]. rewrite Hc, Hl, C1, L1, app_assoc, List.length_app. split; [done |]. split; [lia | done].
  - rewrite (dechunk_app_done _ _ _ _ _ E). cbn [fst snd]. intros Hend.
    destruct (left1 ++ input_bytes (cf_mem st) input) as [| c l] eqn:Eb; [| now destruct (Hend c l)].
    apply app_eq_nil in Eb as [-> Eb]. destruct err as [err |]; [exists (Some err), rest1, st1; done |].
    destruct Ho as (-> & Hm & Hs & Hok1 & Hrest & Hfin).
    destruct input as [|cl2 input'];
      [|exfalso; revert Eb; apply separate_nonempty; done].
    exists None, 0, st1. split; [done |]. split; [apply Hm |]. split; [apply Hm |]. done.
  - intros _. destruct err as [err |]; [| done]. exists (Some err), rest1, st1. split; [done |].
    pose proof (dechunk_app_bad (ck_vars_of (cf_ctx st)) _ (input_bytes (cf_mem st) input) _ Hok E) as Hb.
    unfold cf_fails in *. rewrite Hb. exact Ho.
Qed.

(** The limit on the body's size is kept on every path. *)
Lemma cf_chunk_limit alloc max_body st b cl st' cl' :
  0 < max_body -> cf_chunk alloc max_body st b cl = inr (st', cl') -> cf_clen st' <= max_body.
Proof.
  intros Hm. unfold cf_chunk, cf_too_large. destruct (Z.eqb_spec max_body 0); [lia |].
  cbn [negb andb]. destruct (Z.ltb_spec (max_body - cf_clen st) (size (cf_ctx st))); [done |].
  assert (G : forall st1 cl1, (if alloc (cf_allocs st) then inr (cf_append st cl)
                else inl NGX_HTTP_INTERNAL_SERVER_ERROR) = inr (st1, cl1) -> cf_clen st1 <= max_body).
  { intros st1 cl1. destruct (alloc _); [|done]. unfold cf_append.
    destruct (Z.ltb_spec (size (cf_ctx st)) (last cl - pos cl)); intros [= <- _]; cbn; lia. }
  destruct (cf_out st) as [|o out]; [apply G |].
  destruct (_ && _); [|apply G]. intros [= <- _]. cbn. lia.
Qed.

Lemma cf_buf_limit fuel alloc max_body lchb rest st b cl err rest' st' cl' :
  0 < max_body -> cf_clen st <= max_body ->
  cf_buf fuel alloc max_body lchb rest st b cl = Some (err, rest', st', cl') -> cf_clen st' <= max_body.
Proof.
  intros Hm. revert st b cl. induction fuel as [|fuel IH]; intros st b cl Hc; cbn [cf_buf]; [done |].
  destruct (ngx_http_parse_chunked _ _ _) as [[rc ctx] cl1].
  destruct (rc =? NGX_OK).
  { destruct (cf_chunk _ _ _ _ _) as [e | [st2 cl2]] eqn:E; [intros [= _ _ <- _]; done |].
    apply cf_chunk_limit in E; [|done]. now apply IH. }
  destruct (rc =? NGX_DONE); [destruct (alloc _); intros [= _ _ <- _]; done |].
  destruct (rc =? NGX_AGAIN); intros [= _ _ <- _]; done.
Qed.

Lemma cf_loop_limit alloc max_body lchb rest st input e rest' st' :
  0 < max_body -> cf_clen st <= max_body ->
  cf_loop alloc max_body lchb rest st input = Some (e, rest', st') -> cf_clen st' <= max_body.
Proof.
  intros Hm. revert rest st. induction input as [|cl input IH]; intros rest st Hc; cbn [cf_loop].
  - now intros [= _ _ <-].
  - destruct (cf_buf _ _ _ _ _ _ _ _) as [[[[[err |] r] st1] cl1]|] eqn:E; [| | done].
    + intros [= _ _ <-]. eapply cf_buf_limit; eauto.
    + apply IH. eapply cf_buf_limit; eauto.
Qed.

Lemma length_loop_zero alloc n input out : length_loop alloc n 0 input out = (true, 0, input, out).
Proof. now destruct input. Qed.

(** The length filter's loop: the chain grows by the bytes still due. *)
Lemma length_loop_spec M n rest input out :
  0 <= rest -> Forall (fun cl => pos cl <= last cl) input ->
  exists ins out', length_loop always n rest input out =
      (true, rest - Z.of_nat (List.length (take (Z.to_nat rest) (input_bytes M input))), ins, out') /\
    content M out' = content M out ++ take (Z.to_nat rest) (input_bytes M input) /\
    (0 < rest ->
     List.existsb last_buf out' = List.existsb last_buf out
       || (Z.to_nat rest <=? List.length (input_bytes M input))%nat).
Proof.
  revert n rest out. induction input as [|cl input IH]; intros n rest out Hr Hf; cbn [length_loop].
  - exists [], out. unfold input_bytes. cbn. rewrite take_nil, Z.sub_0_r, app_nil_r.
    split; [done |]. split; [done |]. intros H. destruct (Z.to_nat rest) eqn:E; [lia |].
    now rewrite orb_false_r.
  - apply Forall_cons_1 in Hf as [Hcl Hf]. destruct (Z.eqb_spec rest 0) as [-> | Hne].
    + exists (cl :: input), out. cbn. now rewrite app_nil_r.
    + cbn [always negb]. unfold input_bytes. cbn [List.map List.concat].
      fold (input_bytes M input). set (l := range M (pos cl) (last cl)).
      assert (Hl : Z.of_nat (List.length l) = last cl - pos cl) by (unfold l; autorewrite with len; lia).
      destruct (Z.ltb_spec (last cl - pos cl) rest) as [Hlt | Hge].
      * destruct (IH (S n) (rest - (last cl - pos cl)) (mk_body_buf cl false :: out) ltac:(lia) Hf)
          as (ins & out' & -> & Hc & Hb).
        assert (Ht : take (Z.to_nat rest) (l ++ input_bytes M input) =
                     l ++ take (Z.to_nat (rest - (last cl - pos cl))) (input_bytes M input)).
        { rewrite take_app_ge by lia. do 2 f_equal. lia. }
        rewrite Ht. eexists _, _. split; [|split].
        -- do 3 f_equal. rewrite List.length_app. lia.
        -- rewrite Hc, content_cons. cbn [bb]. fold l. now rewrite app_assoc.
        -- intros _. rewrite Hb by lia. cbn [List.existsb last_buf]. f_equal.
           rewrite List.length_app. apply eq_true_iff_eq. rewrite !Nat.leb_le. lia.
      * rewrite length_loop_zero.
        assert (Ht : take (Z.to_nat rest) (l ++ input_bytes M input) = range M (pos cl) (pos cl + rest)).
        { rewrite take_app_le by lia. unfold l. rewrite (range_app M _ (pos cl + rest)) by lia.
          apply take_app_length'. autorewrite with len. lia. }
        rewrite Ht. eexists _, _. split; [|split].
        -- autorewrite with len. do 3 f_equal. lia.
        -- now rewrite content_cons.
        -- intros _. cbn [List.existsb last_buf orb]. rewrite List.length_app. symmetry.
           apply orb_true_iff. right. apply Nat.leb_le. lia.
Qed.

(** ** Properties *)

(** C2: a body in the chunked coding - chunks with or without extensions, header
    lines after them, lines that end with CR LF or LF alone -, whole in the input
    buffers of the first call, which are not empty and do not overlap, however it is
    divided among them.  Unless an
    allocation fails, it is refused with 413 if it is longer than a limit that is
    set ([client_max_body_size], 0 for none), and otherwise it becomes a chain that
    carries exactly the body: framing removed, small chunks moved together
    inside the input buffers without damage to bytes not yet read, the length
    counted, the chain closed by a last buffer, and no more input asked for; the
    answer is that of the next filter.
    (The sizes of the chunks are below 2^59, more being refused by the code.) *)
Theorem request_body_chunked_decoded alloc ctx_alloc top max_body lchb M ctx clen input B :
  separate input -> chunked_body_ok B -> input_bytes M input = encode_body B -> 0 <= max_body ->
  let n := Z.of_nat (List.length (body_of B)) in
  exists rc rest' st',
    ngx_http_request_body_chunked_filter alloc ctx_alloc top max_body lchb (-1) M ctx clen input =
      Some (rc, rest', st') /\
    (rc = NGX_HTTP_INTERNAL_SERVER_ERROR /\ (ctx_alloc = false \/ exists k, alloc k = false) \/
     rc = NGX_HTTP_REQUEST_ENTITY_TOO_LARGE /\ 0 < max_body < n \/
     (max_body = 0 \/ n <= max_body) /\
     rc = top (List.rev (cf_out st')) /\ rest' = 0 /\
     chain_bytes (cf_mem st') (List.rev (cf_out st')) = body_of B /\
     cf_clen st' = n /\ List.hd_error (cf_out st') = Some final_buf).
Proof.
  intros Hsep HB Hin Hmax n. unfold ngx_http_request_body_chunked_filter. cbn [Z.eqb Pos.eqb andb].
  destruct ctx_alloc; cbn [negb]; [| eexists _, _, _; split; [reflexivity | left; auto]].
  destruct (cf_loop_correct alloc max_body lchb lchb (mk_cf M chunked0 0 0 []) input ctx_ok0 Hsep) as (err & rest' & st' & E & H);
    cbn [cf_ctx cf_mem cf_out cf_clen] in *; change (ck_vars_of chunked0) with (sw_chunk_start, 0) in *.
  - intros ->. revert Hin. destruct HB as (_ & Hz & _). unfold encode_body. destruct (List.concat _); [| done].
    now destruct (b_zeros B).
  - apply List.Forall_forall. intros. constructor.
  - rewrite Hin, <- (app_nil_r (encode_body B)), (dechunk_encode 0 B [] HB). done.
  - rewrite Hin, <- (app_nil_r (encode_body B)), (dechunk_encode 0 B [] HB) in H. rewrite E.
    destruct err as [err |]; eexists _, _, _; (split; [reflexivity |]); cbn [fst snd due_end] in *.
    + destruct H as [[-> H] | (-> & H1 & H2)]; [left; auto | right; left; split; [done |]]. cbn [fst due_end] in H2. lia.
    + right. right. destruct H as (Hc & Hl & -> & Hf). split; [| done].
      destruct (Z.eq_dec max_body 0); [auto | right]. unfold n. rewrite Z.add_0_l in Hl. rewrite <- Hl.
      eapply cf_loop_limit; [| | exact E]; cbn; lia.
Qed.

(** with a limit on the body's size set, no call of the filter lets
    [content_length_n] exceed it, whatever arrives, in whatever pieces, and
    whatever else fails. *)
Theorem request_body_size_limit alloc ctx_alloc top max_body lchb rest M ctx clen input rc rest' st' :
  0 < max_body -> clen <= max_body ->
  ngx_http_request_body_chunked_filter alloc ctx_alloc top max_body lchb rest M ctx clen input =
    Some (rc, rest', st') ->
  cf_clen st' <= max_body.
Proof.
  intros Hm Hc. unfold ngx_http_request_body_chunked_filter.
  destruct (_ && _); [now intros [= _ _ <-] |].
  destruct (cf_loop _ _ _ _ _ _) as [[[[err |] r] st]|] eqn:E; [| | done];
    intros [= _ _ <-]; eapply cf_loop_limit; try exact E; try done; cbn; destruct (rest =? -1); lia.
Qed.

(** a body with a length becomes a chain of its first [content_length_n]
    bytes (of those still due, on a later call), the count of those due is
    exact, and the chain's last buffer is marked exactly when the body is
    complete; a body of length 0 is one empty last buffer. *)
Theorem length_filter_takes top M clen rest input :
  Forall (fun cl => pos cl <= last cl) input -> -1 <= rest -> 0 <= clen ->
  let due := if rest =? -1 then clen else rest in
  let d := take (Z.to_nat due) (input_bytes M input) in
  let f := ngx_http_request_body_length_filter always top clen rest input in
  f_rc f = top (f_out f) /\ chain_bytes M (f_out f) = d /\
  f_rest f = due - Z.of_nat (List.length d) /\
  (rest = -1 \/ 0 < rest -> List.existsb last_buf (f_out f) = (f_rest f =? 0)).
Proof.
  intros Hf Hr Hc due d f. assert (Hdue : 0 <= due) by (unfold due; destruct (Z.eqb_spec rest (-1)); lia).
  unfold f, ngx_http_request_body_length_filter. fold due. cbn [always negb]. rewrite andb_false_r.
  destruct (Z.eq_dec due 0) as [Ez | Hnz].
  - unfold d. rewrite Ez, andb_true_r, length_loop_zero. cbn [f_rc f_out f_rest Z.to_nat take].
    destruct (Z.eqb_spec rest (-1)) as [E | E].
    + split; [done |]. split; [done |]. split; [done |]. done.
    + split; [done |]. split; [done |]. split; [done |]. intros H. exfalso.
      revert Ez. unfold due. destruct (Z.eqb_spec rest (-1)); lia.
  - rewrite (proj2 (Z.eqb_neq due 0)), andb_false_r by done.
    destruct (length_loop_spec M 0 due input [] Hdue Hf) as (ins & out & -> & Hb & Hl).
    fold d in Hb |- *. cbn [f_rc f_out f_rest].
    split; [done |]. split; [exact Hb |]. split; [done |]. intros _.
    assert (Hrev : forall l : chain, existsb last_buf (rev l) = existsb last_buf l).
    { induction l as [|o l IH]; [done |]. simpl. rewrite List.existsb_app. simpl.
      rewrite IH, orb_false_r. apply orb_comm. }
    rewrite Hrev. unfold d. rewrite List.length_firstn, Hl by lia.
    apply eq_true_iff_eq. rewrite Z.eqb_eq. cbn [List.existsb orb]. rewrite Nat.leb_le. lia.
Qed.

(** discarding a chunked body: the loop terminates (the length of the
    buffer plus one is fuel enough) and does what reading the protocol a byte
    at a time does: it stops right after the end of the body, asks for more
    exactly when the body is incomplete, and rejects what is malformed. *)
Theorem discard_loop_correct lchb M clen ctx p e fuel :
  ctx_ok ctx -> p <= e -> (Z.to_nat (e - p) < fuel)%nat ->
  exists rc n ctx' b', discard_loop fuel lchb M clen ctx (mk_buf p e) = Some (rc, n, ctx', b') /\
    match snd (dechunk (ck_vars_of ctx) (range M p e)) with
    | DkMore v => rc = NGX_OK /\ n = Z.max (ck_length (fst v) (snd v)) lchb /\
                  b' = mk_buf e e /\ ck_vars_of ctx' = v /\ ctx_ok ctx'
    | DkDone rest => rc = NGX_OK /\ n = 0 /\ range M (pos b') e = rest /\
                     c_state ctx' = sw_chunk_start
    | DkBad => rc = NGX_HTTP_BAD_REQUEST
    end.
Proof.
  revert ctx p. induction fuel as [|fuel IH]; intros ctx p Hok Hpe Hf; [lia |].
  cbn [discard_loop]. pose proof (parse_chunked_spec M ctx p e Hok Hpe) as G.
  inversion G as [ctx' q Hok' Hs Hz Hq Hd _ Ex | ctx' Hok' Hd Hl Ex | ctx' q _ Hs Hq Hd Ex
                 | ctx' b Hd Ex]; cbn [Z.eqb Pos.eqb NGX_OK NGX_DONE NGX_AGAIN NGX_ERROR pos last];
    rewrite Hd.
  - rewrite (dechunk_take M ctx' q e Hs Hz) by lia. cbn [snd].
    destruct (Z.ltb_spec (size ctx') (e - q)) as [Hlt | Hge].
    + rewrite Z.min_l, Z.sub_diag by lia.
      specialize (IH (cf_size ctx' (size ctx' - size ctx')) (q + size ctx')
        (ctx_ok_take ctx' (size ctx') Hok' Hs ltac:(lia)) ltac:(lia) ltac:(lia)).
      unfold ck_vars_of, cf_size in IH. cbn [c_state size] in IH. now rewrite Z.sub_diag, Hs in *.
    + rewrite Z.min_r by lia. replace (q + (e - q)) with e by lia.
      specialize (IH (cf_size ctx' (size ctx' - (e - q))) e
        (ctx_ok_take ctx' (e - q) Hok' Hs ltac:(lia)) ltac:(lia) ltac:(lia)).
      unfold ck_vars_of, cf_size in IH. cbn [c_state size] in IH. now rewrite Hs in *.
  - eexists _, _, _, _. split; [reflexivity |]. cbn [snd ck_vars_of fst]. now rewrite Hl.
  - eexists _, _, _, _. split; [reflexivity |]. done.
  - eexists _, _, _, _. split; [reflexivity | done].
Qed.

(** ** Witnesses *)

(** A body of two chunks, its bytes in two input buffers that lie apart in
    memory; the second begins inside the second chunk's data. *)
Definition ex_chunks : chunked_body := mk_chunked_body
  [mk_chunk (str "5") (str ";x=y") false (str "hello") true; mk_chunk (str "00a") [] false (str ", wide wor") false]
  (str "0") [] false [(str "Foo: bar", false)] false.
Definition ex_bytes : list Z := encode_body ex_chunks.
Definition ex_mem : mem :=
  write (mem_of 100 (take 21 ex_bytes)) 40 (List.skipn 21 ex_bytes).
Definition ex_input : list ngx_buf := [mk_buf 100 121; mk_buf 40 64].

Lemma ex_separate : separate ex_input.
Proof. cbn. repeat split; repeat constructor; cbn; lia. Qed.

Lemma ex_chunks_ok : chunked_body_ok ex_chunks.
Proof. repeat constructor; first [discriminate | done | cbn; tauto]. Qed.

Lemma request_body_chunked_decoded_witness :
  let f := ngx_http_request_body_chunked_filter always true (fun _ => NGX_OK) 15 8192 (-1) ex_mem chunked0 0 ex_input in
  let n := Z.of_nat (List.length (body_of ex_chunks)) in
  option_map (fun r => fst (fst r)) f = Some NGX_OK /\ body_of ex_chunks = str "hello, wide wor" /\
  exists rc rest' st', f = Some (rc, rest', st') /\
    (rc = NGX_HTTP_INTERNAL_SERVER_ERROR /\ (true = false \/ exists k, always k = false) \/
     rc = NGX_HTTP_REQUEST_ENTITY_TOO_LARGE /\ 0 < 15 < n \/
     (15 = 0 \/ n <= 15) /\ rc = NGX_OK /\ rest' = 0 /\
     chain_bytes (cf_mem st') (List.rev (cf_out st')) = body_of ex_chunks /\
     cf_clen st' = n /\ List.hd_error (cf_out st') = Some final_buf).
Proof.
  split; [vm_compute; reflexivity | split; [reflexivity |]].
  refine (request_body_chunked_decoded always true (fun _ => NGX_OK) 15 8192 ex_mem chunked0 0 ex_input ex_chunks _ _ _ _).
  - apply ex_separate.
  - apply ex_chunks_ok.
  - vm_compute. reflexivity.
  - lia.
Defined.

(** With a limit of 8 bytes the second chunk is refused. *)
Definition ex_limited : Z * Z * cf_state :=
  default (0, 0, mk_cf ex_mem chunked0 0 0 [])
    (ngx_http_request_body_chunked_filter always true (fun _ => NGX_OK) 8 8192 (-1) ex_mem chunked0 0
       ex_input).

Lemma request_body_size_limit_witness :
  fst (fst ex_limited) = NGX_HTTP_REQUEST_ENTITY_TOO_LARGE /\ cf_clen (snd ex_limited) <= 8.
Proof.
  split; [vm_compute; reflexivity |].
  apply (request_body_size_limit always true (fun _ => NGX_OK) 8 8192 (-1) ex_mem chunked0 0
           ex_input (fst (fst ex_limited)) (snd (fst ex_limited)) (snd ex_limited));
    [lia | lia | vm_compute; reflexivity].
Defined.

Lemma length_filter_takes_witness :
  let f := ngx_http_request_body_length_filter always (fun _ => NGX_OK) 12 (-1)
             [mk_buf 100 107; mk_buf 110 140] in
  f_rc f = NGX_OK /\ chain_bytes ex_mem (f_out f) = take 12 (input_bytes ex_mem [mk_buf 100 107; mk_buf 110 140]) /\
  f_rest f = 0 /\ List.existsb last_buf (f_out f) = true.
Proof.
  destruct (length_filter_takes (fun _ => NGX_OK) ex_mem 12 (-1) [mk_buf 100 107; mk_buf 110 140])
    as (H1 & H2 & H3 & H4).
  - repeat constructor; cbn; lia.
  - lia.
  - lia.
  - split; [exact H1 |]. split; [exact H2 |]. split; [exact H3 |]. apply H4. now left.
Defined.

Lemma discard_loop_correct_witness :
  exists rc n ctx' b',
    discard_loop 34 8192 (mem_of 100 ex_bytes) 0 chunked0 (mk_buf 100 133) = Some (rc, n, ctx', b') /\
    rc = NGX_OK /\ n = Z.max 1 8192 /\ b' = mk_buf 133 133 /\
    ck_vars_of ctx' = (sw_trailer, 0) /\ ctx_ok ctx'.
Proof.
  apply (discard_loop_correct 8192 (mem_of 100 ex_bytes) 0 chunked0 100 133 34);
    [apply ctx_ok0 | lia | lia].
Defined.

End RequestBody.
