(* ===== verification/HttpUri.v ===== *)
(** The request's URI: [ngx_http_parse_uri] and [ngx_http_parse_complex_uri]
    (src/http/ngx_http_parse.c) and [ngx_http_process_request_uri]
    (src/http/ngx_http_request.c), which chooses between using the raw path and
    writing a decoded and normalised one. *)
From S2P Require Import Prelude HttpRequest.

Module Uri.

(** ** [ngx_http_parse_uri] *)

Inductive pu_state :=
| sw_start
| sw_after_slash_in_uri
| sw_check_uri
| sw_uri.

Definition pu_vars : Type := pu_state * request.
Definition pu_out : Type := step_out pu_vars Z.

Definition is_ctl_or_space (ch : Z) : bool := (ch <=? 0x20) || (ch =? 0x7f).

(** [case sw_after_slash_in_uri] *)
Definition pu_after_slash (p ch : Z) (r : request) : pu_out :=
  if is_usual ch then Next (sw_check_uri, r)
  else if ch =? chr "." then Next (sw_uri, set_complex_uri true r)
  else if ch =? chr "%" then Next (sw_uri, set_quoted_uri true r)
  else if ch =? chr "/" then Next (sw_uri, set_complex_uri true r)
  else if ch =? chr "?" then Next (sw_uri, set_args_start (p + 1) r)
  else if ch =? chr "#" then Next (sw_uri, set_complex_uri true r)
  else if ch =? chr "+" then Next (sw_after_slash_in_uri, set_plus_in_uri true r)
  else if is_ctl_or_space ch then Stop NGX_ERROR
  else Next (sw_check_uri, r).

(** [case sw_check_uri] *)
Definition pu_check (p ch : Z) (r : request) : pu_out :=
  if is_usual ch then Next (sw_check_uri, r)
  else if ch =? chr "/" then Next (sw_after_slash_in_uri, set_uri_ext NULL r)
  else if ch =? chr "." then Next (sw_check_uri, set_uri_ext (p + 1) r)
  else if ch =? chr "%" then Next (sw_uri, set_quoted_uri true r)
  else if ch =? chr "?" then Next (sw_uri, set_args_start (p + 1) r)
  else if ch =? chr "#" then Next (sw_uri, set_complex_uri true r)
  else if ch =? chr "+" then Next (sw_check_uri, set_plus_in_uri true r)
  else if is_ctl_or_space ch then Stop NGX_ERROR
  else Next (sw_check_uri, r).

(** [case sw_uri] *)
Definition pu_uri (ch : Z) (r : request) : pu_out :=
  if is_usual ch then Next (sw_uri, r)
  else if ch =? chr "#" then Next (sw_uri, set_complex_uri true r)
  else if is_ctl_or_space ch then Stop NGX_ERROR
  else Next (sw_uri, r).

Definition pu_step (M : mem) (p : Z) (v : pu_vars) : pu_out :=
  let ch := M p in
  match fst v with
  | sw_start =>
      if ch =? chr "/" then Next (sw_after_slash_in_uri, snd v) else Stop NGX_ERROR
  | sw_after_slash_in_uri => pu_after_slash p ch (snd v)
  | sw_check_uri => pu_check p ch (snd v)
  | sw_uri => pu_uri ch (snd v)
  end.

(** The loop runs from [r->uri_start] to [r->uri_end]; on an error the flags
    set so far are of no use to the caller, which rejects the request. *)
Definition ngx_http_parse_uri (M : mem) (r : request) : Z * request :=
  match run_buf pu_step M (mk_buf (uri_start r) (uri_end r)) (sw_start, r) with
  | Ran v _ => (NGX_OK, snd v)
  | Halted rc _ => (rc, r)
  end.

(** ** [ngx_http_parse_complex_uri] *)

Inductive cu_state :=
| sw_usual
| sw_slash
| sw_dot
| sw_dot_dot
| sw_quoted
| sw_quoted_second.

#[export] Instance cu_state_eq : EqDecision cu_state.
Proof. solve_decision. Defined.

(** The memory, the local variables and the request. *)
Record cu := mk_cu {
  cu_m : mem;
  cu_p : Z;
  cu_u : Z;
  cu_ch : Z;
  cu_st : cu_state;
  cu_qs : cu_state;
  cu_dec : Z;
  cu_r : request
}.

(** How an iteration goes on: another one, [goto done], [goto args] or
    [return rc]. *)
Inductive cu_out :=
| CuNext (v : cu)
| CuDone (v : cu)
| CuArgs (v : cu)
| CuReturn (rc : Z) (v : cu).

(** [*u++ = c] *)
Definition put (c : Z) (v : cu) : cu :=
  mk_cu (upd (cu_m v) (cu_u v) c) (cu_p v) (cu_u v + 1) (cu_ch v) (cu_st v) (cu_qs v) (cu_dec v) (cu_r v).

(** [ch = *p++] *)
Definition next (v : cu) : cu :=
  mk_cu (cu_m v) (cu_p v + 1) (cu_u v) (cu_m v (cu_p v)) (cu_st v) (cu_qs v) (cu_dec v) (cu_r v).

Definition goto (s : cu_state) (v : cu) : cu :=
  mk_cu (cu_m v) (cu_p v) (cu_u v) (cu_ch v) s (cu_qs v) (cu_dec v) (cu_r v).

Definition with_u (u : Z) (v : cu) : cu :=
  mk_cu (cu_m v) (cu_p v) u (cu_ch v) (cu_st v) (cu_qs v) (cu_dec v) (cu_r v).

Definition with_ch (ch : Z) (v : cu) : cu :=
  mk_cu (cu_m v) (cu_p v) (cu_u v) ch (cu_st v) (cu_qs v) (cu_dec v) (cu_r v).

Definition with_r (f : request -> request) (v : cu) : cu :=
  mk_cu (cu_m v) (cu_p v) (cu_u v) (cu_ch v) (cu_st v) (cu_qs v) (cu_dec v) (f (cu_r v)).

(** [quoted_state = state; state = sw_quoted; ch = *p++] *)
Definition quote (v : cu) : cu_out :=
  CuNext (next (mk_cu (cu_m v) (cu_p v) (cu_u v) (cu_ch v) sw_quoted (cu_st v) (cu_dec v) (cu_r v))).

(** [r->args_start = p; goto args] *)
Definition args_at (v : cu) : cu_out := CuArgs (with_r (set_args_start (cu_p v)) v).

(** The [default] of the states: [r->plus_in_uri = 1] for a '+', then the
    character is copied and the state is [sw_usual]. *)
Definition copy_usual (v : cu) : cu_out :=
  let v := if cu_ch v =? chr "+" then with_r (set_plus_in_uri true) v else v in
  CuNext (next (put (cu_ch v) (goto sw_usual v))).

(** [case sw_usual] *)
Definition cu_usual (v : cu) : cu_out :=
  let ch := cu_ch v in
  if is_usual ch then CuNext (next (put ch v))
  else if ch =? chr "/" then
    CuNext (next (put ch (goto sw_slash (with_r (set_uri_ext NULL) v))))
  else if ch =? chr "%" then quote v
  else if ch =? chr "?" then args_at v
  else if ch =? chr "#" then CuDone v
  else if ch =? chr "." then
    CuNext (next (put ch (with_r (set_uri_ext (cu_u v + 1)) v)))
  else copy_usual v.

(** [case sw_slash] *)
Definition cu_slash (merge_slashes : bool) (v : cu) : cu_out :=
  let ch := cu_ch v in
  if is_usual ch then CuNext (next (put ch (goto sw_usual v)))
  else if ch =? chr "/" then CuNext (next (if merge_slashes then v else put ch v))
  else if ch =? chr "." then CuNext (next (put ch (goto sw_dot v)))
  else if ch =? chr "%" then quote v
  else if ch =? chr "?" then args_at v
  else if ch =? chr "#" then CuDone v
  else copy_usual v.

(** [case sw_dot] *)
Definition cu_dot (v : cu) : cu_out :=
  let ch := cu_ch v in
  if is_usual ch then CuNext (next (put ch (goto sw_usual v)))
  else if ch =? chr "/" then CuNext (next (with_u (cu_u v - 1) (goto sw_slash v)))
  else if ch =? chr "." then CuNext (next (put ch (goto sw_dot_dot v)))
  else if ch =? chr "%" then quote v
  else if ch =? chr "?" then args_at (with_u (cu_u v - 1) v)
  else if ch =? chr "#" then CuDone (with_u (cu_u v - 1) v)
  else copy_usual v.

(** The scan back to the previous '/': [for (;;) { if (u < r->uri.data) return
    ...; if ( *u == '/') { u++; break; } u--; }].  [None] is the return. *)
Fixpoint scan_back (n : nat) (M : mem) (data u : Z) : option Z :=
  match n with
  | O => None
  | S n' =>
      if u <? data then None
      else if M u =? chr "/" then Some (u + 1)
      else scan_back n' M data (u - 1)
  end.

(** [u -= 4] and the scan. *)
Definition pop_segment (v : cu) : option cu :=
  let d := data (uri (cu_r v)) in
  match scan_back (Z.to_nat (cu_u v - d)) (cu_m v) d (cu_u v - 4) with
  | Some u => Some (with_u u v)
  | None => None
  end.

(** [case sw_dot_dot] *)
Definition cu_dot_dot (v : cu) : cu_out :=
  let ch := cu_ch v in
  if is_usual ch then CuNext (next (put ch (goto sw_usual v)))
  else if (ch =? chr "/") || (ch =? chr "?") || (ch =? chr "#") then
    match pop_segment v with
    | None => CuReturn NGX_HTTP_PARSE_INVALID_REQUEST v
    | Some v' =>
        if ch =? chr "?" then args_at v'
        else if ch =? chr "#" then CuDone v'
        else CuNext (next (goto sw_slash v'))
    end
  else if ch =? chr "%" then quote v
  else copy_usual v.

(** [case sw_quoted] *)
Definition cu_quoted (v : cu) : cu_out :=
  let ch := cu_ch v in
  let v := with_r (set_quoted_uri true) v in
  let second d :=
    CuNext (next (mk_cu (cu_m v) (cu_p v) (cu_u v) ch sw_quoted_second (cu_qs v) d (cu_r v))) in
  if (chr "0" <=? ch) && (ch <=? chr "9") then second (ch - chr "0")
  else
    let c := Z.lor ch 0x20 in
    if (chr "a" <=? c) && (c <=? chr "f") then second (c - chr "a" + 10)
    else CuReturn NGX_HTTP_PARSE_INVALID_REQUEST v.

(** [case sw_quoted_second]; a decoded character that is not taken literally
    goes through the state the '%' was met in, without reading on. *)
Definition cu_quoted_second (v : cu) : cu_out :=
  let ch := cu_ch v in
  if (chr "0" <=? ch) && (ch <=? chr "9") then
    let ch := (Z.shiftl (cu_dec v) 4 + (ch - chr "0")) mod 256 in
    if (ch =? chr "%") || (ch =? chr "#") then
      CuNext (next (put ch (goto sw_usual (with_ch ch v))))
    else if ch =? 0 then CuReturn NGX_HTTP_PARSE_INVALID_REQUEST (with_ch ch v)
    else CuNext (goto (cu_qs v) (with_ch ch v))
  else
    let c := Z.lor ch 0x20 in
    if (chr "a" <=? c) && (c <=? chr "f") then
      let ch := (Z.shiftl (cu_dec v) 4 + (c - chr "a") + 10) mod 256 in
      if ch =? chr "?" then CuNext (next (put ch (goto sw_usual (with_ch ch v))))
      else
        let v := if ch =? chr "+" then with_r (set_plus_in_uri true) v else v in
        CuNext (goto (cu_qs v) (with_ch ch v))
    else CuReturn NGX_HTTP_PARSE_INVALID_REQUEST v.

(** [switch (state)] *)
Definition cu_step (merge_slashes : bool) (v : cu) : cu_out :=
  match cu_st v with
  | sw_usual => cu_usual v
  | sw_slash => cu_slash merge_slashes v
  | sw_dot => cu_dot v
  | sw_dot_dot => cu_dot_dot v
  | sw_quoted => cu_quoted v
  | sw_quoted_second => cu_quoted_second v
  end.

(** After the loop, up to the label [done]. *)
Definition cu_after_loop (v : cu) : cu_out :=
  match cu_st v with
  | sw_quoted | sw_quoted_second => CuReturn NGX_HTTP_PARSE_INVALID_REQUEST v
  | sw_dot => CuDone (with_u (cu_u v - 1) v)
  | sw_dot_dot =>
      match pop_segment v with
      | None => CuReturn NGX_HTTP_PARSE_INVALID_REQUEST v
      | Some v' => CuDone v'
      end
  | _ => CuDone v
  end.

(** [while (p <= r->uri_end)].  An iteration moves [p] or, once per escape,
    leaves [sw_quoted_second]: twice the URI's length and two is fuel enough. *)
Fixpoint cu_loop (fuel : nat) (merge_slashes : bool) (v : cu) : option cu_out :=
  match fuel with
  | O => None
  | S fuel' =>
      if cu_p v <=? uri_end (cu_r v) then
        match cu_step merge_slashes v with
        | CuNext v' => cu_loop fuel' merge_slashes v'
        | x => Some x
        end
      else Some (cu_after_loop v)
  end.

Definition cu_fuel (r : request) : nat := Z.to_nat (2 * (uri_end r - uri_start r) + 3).

(** The loop after [args]: up to the fragment, if there is one. *)
Fixpoint args_loop (n : nat) (M : mem) (p : Z) (r : request) : request :=
  match n with
  | O => r
  | S n' =>
      if M p =? chr "#" then
        set_args_start NULL (set_args (mk_str (p - args_start r) (args_start r)) r)
      else args_loop n' M (p + 1) r
  end.

(** What [done] and [args] end with. *)
Definition cu_finish (v : cu) (r : request) : request :=
  let r := set_uri (mk_str (cu_u v - data (uri r)) (data (uri r))) r in
  let r := if uri_ext r =? NULL then r
           else set_exten (mk_str (cu_u v - uri_ext r) (uri_ext r)) r in
  set_uri_ext NULL r.

Definition cu_start (M : mem) (r : request) : cu :=
  let r := set_args_start NULL (set_uri_ext NULL r) in
  let v := mk_cu M (uri_start r) (data (uri r)) 0 sw_usual sw_usual 0 r in
  next (if empty_path_in_uri r then put (chr "/") v else v).

Definition ngx_http_parse_complex_uri (M : mem) (r : request) (merge_slashes : bool)
  : option (Z * mem * request) :=
  match cu_loop (cu_fuel r) merge_slashes (cu_start M r) with
  | None | Some (CuNext _) => None
  | Some (CuReturn rc v) => Some (rc, cu_m v, cu_r v)
  | Some (CuDone v) => Some (NGX_OK, cu_m v, cu_finish v (cu_r v))
  | Some (CuArgs v) =>
      let r := args_loop (Z.to_nat (uri_end (cu_r v) - cu_p v)) (cu_m v) (cu_p v) (cu_r v) in
      Some (NGX_OK, cu_m v, cu_finish v r)
  end.

(** ** [ngx_http_process_request_uri] *)

(** What becomes of the request: processed, closed with 500 when the pool is
    exhausted, or finalised with 400. *)
Inductive uri_result :=
| UriOk (M : mem) (r : request)
| UriClose (r : request)
| UriBadRequest (M : mem) (r : request).

(** The length computed before the path is rewritten. *)
Definition raw_path_len (r : request) : Z :=
  if args_start r =? NULL then uri_end r - uri_start r else args_start r - 1 - uri_start r.

(** The assignments after the path: [unparsed_uri], [exten] and [args]. *)
Definition uri_tail (r : request) : request :=
  let r := set_unparsed_uri (mk_str (uri_end r - uri_start r) (uri_start r)) r in
  let r := set_valid_unparsed_uri (negb (empty_path_in_uri r)) r in
  let r :=
    if uri_ext r =? NULL then r
    else
      set_exten (mk_str ((if args_start r =? NULL then uri_end r else args_start r - 1) - uri_ext r)
                   (uri_ext r)) r in
  if negb (args_start r =? NULL) && (args_start r <? uri_end r) then
    set_args (mk_str (uri_end r - args_start r) (args_start r)) r
  else r.

(** [alloc] is [ngx_pnalloc(r->pool, len)]. *)
Definition ngx_http_process_request_uri (alloc : Z -> option Z) (M : mem) (r : request)
  (merge_slashes : bool) : option uri_result :=
  let r := set_uri (mk_str (raw_path_len r) (data (uri r))) r in
  if complex_uri r || quoted_uri r || empty_path_in_uri r then
    let n := len (uri r) + (if empty_path_in_uri r then 1 else 0) in
    match alloc n with
    | None => Some (UriClose (set_uri (mk_str n NULL) r))
    | Some d =>
        match ngx_http_parse_complex_uri M (set_uri (mk_str n d) r) merge_slashes with
        | None => None
        | Some (rc, M', r') =>
            if rc =? NGX_OK then Some (UriOk M' (uri_tail r'))
            else Some (UriBadRequest M' (set_uri (mk_str 0 (data (uri r'))) r'))
        end
    end
  else Some (UriOk M (uri_tail (set_uri (mk_str (len (uri r)) (uri_start r)) r))).

(** ** Specification of the rewritten path *)

(** What the path ends with: the end of the URI, a fragment, or arguments. *)
Inductive path_end :=
| AtEnd
| AtFragment
| AtArgs (rest : list Z).

Definition hex_digit (c : Z) : option Z :=
  if (chr "0" <=? c) && (c <=? chr "9") then Some (c - chr "0")
  else
    let c' := Z.lor c 0x20 in
    if (chr "a" <=? c') && (c' <=? chr "f") then Some (c' - chr "a" + 10) else None.

(** The path of a raw URI with its escapes decoded; [None] when an escape is
    malformed or denotes NUL. *)
Fixpoint decode_path (l : list Z) : option (list Z * path_end) :=
  match l with
  | [] => Some ([], AtEnd)
  | c :: l1 =>
      if c =? chr "%" then
        match l1 with
        | a :: b :: l2 =>
            match hex_digit a, hex_digit b, decode_path l2 with
            | Some x, Some y, Some (bs, pe) =>
                if 16 * x + y =? 0 then None else Some (16 * x + y :: bs, pe)
            | _, _, _ => None
            end
        | _ => None
        end
      else if c =? chr "?" then Some ([], AtArgs l1)
      else if c =? chr "#" then Some ([], AtFragment)
      else
        match decode_path l1 with
        | Some (bs, pe) => Some (c :: bs, pe)
        | None => None
        end
  end.

(** Segments: [join] puts a '/' before each. *)
Definition join (ss : list (list Z)) : list Z := List.concat (List.map (cons (chr "/")) ss).

Definition dot : list Z := [chr "."].
Definition dot_dot : list Z := [chr "."; chr "."].

(** Reading a decoded path a byte at a time: the segments completed so far,
    last first, and the current one. *)
Definition segments : Type := list (list Z) * list Z.

(** A segment is complete: "." vanishes, ".." takes the one before it along,
    an empty one vanishes when slashes are merged.  [None]: ".." at the root. *)
Definition close_segment (merge : bool) (x : segments) : option (list (list Z)) :=
  let '(stack, cur) := x in
  if decide (cur = dot) then Some stack
  else if decide (cur = dot_dot) then
    match stack with
    | [] => None
    | _ :: stack' => Some stack'
    end
  else if merge && bool_decide (cur = []) then Some stack
  else Some (cur :: stack).

Definition read_byte (merge : bool) (x : segments) (c : Z) : option segments :=
  if c =? chr "/" then option_map (fun stack => (stack, [])) (close_segment merge x)
  else Some (fst x, snd x ++ [c]).

Fixpoint read_bytes (merge : bool) (x : segments) (l : list Z) : option segments :=
  match l with
  | [] => Some x
  | c :: l' =>
      match read_byte merge x c with
      | Some x' => read_bytes merge x' l'
      | None => None
      end
  end.

(** The segments of the result; a final "." or ".." leaves a final '/'. *)
Definition final_segments (x : segments) : option (list (list Z)) :=
  let '(stack, cur) := x in
  if decide (cur = dot) then Some (List.rev stack ++ [[]])
  else if decide (cur = dot_dot) then
    match stack with
    | [] => None
    | _ :: stack' => Some (List.rev stack' ++ [[]])
    end
  else Some (List.rev stack ++ [cur]).

(** The rewritten path from the segments read and the raw rest. *)
Definition rewrite_from (merge : bool) (x : segments) (l : list Z)
  : option (list (list Z) * path_end) :=
  match decode_path l with
  | None => None
  | Some (bs, pe) =>
      match read_bytes merge x bs with
      | None => None
      | Some x' =>
          match final_segments x' with
          | None => None
          | Some ss => Some (ss, pe)
          end
      end
  end.

(** The rewritten path of a raw URI that begins with '/'. *)
Definition rewrite_path (merge : bool) (l : list Z) : option (list (list Z) * path_end) :=
  match l with
  | c :: l' => if c =? chr "/" then rewrite_from merge ([], []) l' else None
  | [] => None
  end.

(** ** The parser against its specification *)

Definition state_ok (s : cu_state) (cur : list Z) : Prop :=
  match s with
  | sw_usual => cur <> [] /\ cur <> dot /\ cur <> dot_dot
  | sw_slash => cur = []
  | sw_dot => cur = dot
  | sw_dot_dot => cur = dot_dot
  | _ => False
  end.

Definition no_slash (s : list Z) : Prop := Forall (fun c => c <> chr "/") s.

Lemma usual_not c : byte c -> is_usual c = true ->
  c <> chr "/" /\ c <> chr "." /\ c <> chr "+" /\ c <> chr "?" /\ c <> chr "#" /\ c <> chr "%".
Proof.
  intros Hb Hu.
  assert (G : negb (is_usual c) ||
    (negb (c =? 47) && negb (c =? 46) && negb (c =? 43) && negb (c =? 63) && negb (c =? 35) &&
     negb (c =? 37)) = true).
  { revert c Hb Hu. intros c Hb _. revert c Hb.
    byte_cases (fun c => negb (is_usual c) ||
    (negb (c =? 47) && negb (c =? 46) && negb (c =? 43) && negb (c =? 63) && negb (c =? 35) &&
     negb (c =? 37))). }
  rewrite Hu in G. cbn [negb orb] in G. repeat (apply andb_prop in G as [G ?]). lia.
Qed.

(** A character other than '/', and '.' unless in [sw_usual], makes the segment
    an ordinary one. *)
Lemma usual_snoc s cur c :
  state_ok s cur -> s = sw_usual \/ c <> chr "." -> state_ok sw_usual (cur ++ [c]).
Proof.
  intros Hs Hc. cbn. split; [now destruct cur |].
  destruct s; cbn in Hs; try done.
  - destruct cur as [|x [|y [|z cur]]]; unfold dot, dot_dot in *; cbn; split; try done.
    + tauto.
    + intros [= -> ->]. tauto.
  - subst. cbn. unfold dot, dot_dot. split; [|done]. intros [= ->]. destruct Hc; done.
  - subst. cbn. unfold dot, dot_dot. split; [done |]. intros [= ->]. destruct Hc; done.
  - subst. cbn. unfold dot, dot_dot. split; done.
Qed.

Section Rewrite.
(** The memory when the parser is called; the raw URI is [a, e), its path part
    without escapes crossing it ends at [q], and the result goes to [d, d + (q - a)). *)
Context (M0 : mem) (a q e d : Z) (x0 : ngx_str) (merge : bool).
Context (M0_byte : forall x, byte (M0 x)).
Context (a_q : a <= q <= e) (q_args : q = e \/ M0 q = chr "?").
Context (apart : d + (q - a) <= a \/ e < d).

(** The fields the loop reads and does not change, and those it must not. *)
Definition keeps (r : request) : Prop :=
  data (uri r) = d /\ uri_end r = e /\ args_start r = NULL /\ exten r = x0.

(** The output buffer when the current raw character, at [p], has not been
    dealt with yet. *)
Record written (v : cu) (x : segments) (s : cu_state) (p : Z) : Prop := {
  w_p : cu_p v = p + 1;
  w_range : a < p <= q;
  w_state : state_ok s (snd x);
  w_slash : Forall no_slash (snd x :: fst x);
  w_keeps : keeps (cu_r v);
  w_out : range (cu_m v) d (cu_u v) = join (List.rev (fst x) ++ [snd x]);
  w_u : cu_u v = d + Z.of_nat (List.length (join (List.rev (fst x) ++ [snd x])));
  w_room : cu_u v - d <= p - a;
  w_mem : forall y, y < d \/ d + (q - a) <= y -> cu_m v y = M0 y;
  w_ext : uri_ext (cu_r v) = NULL \/ (s = sw_usual /\ d < uri_ext (cu_r v) <= cu_u v)
}.

Definition fresh (v : cu) (x : segments) (p : Z) : Prop :=
  written v x (cu_st v) p /\ cu_ch v = M0 p.

Lemma join_app l1 l2 : join (l1 ++ l2) = join l1 ++ join l2.
Proof. unfold join. now rewrite List.map_app, List.concat_app. Qed.

Lemma join_one s : join [s] = chr "/" :: s.
Proof. unfold join. simpl. now rewrite app_nil_r. Qed.

Lemma join_snoc l s c : join (l ++ [s ++ [c]]) = join (l ++ [s]) ++ [c].
Proof. rewrite !join_app, !join_one. now rewrite <- app_assoc. Qed.

Lemma join_slash l s : join (l ++ [s] ++ [[]]) = join (l ++ [s]) ++ [chr "/"].
Proof. rewrite app_assoc, !join_app, join_one. done. Qed.

(** A prefix of what was written. *)
Lemma range_prefix m l1 l2 u :
  range m d u = l1 ++ l2 -> range m d (d + Z.of_nat (List.length l1)) = l1.
Proof using.
  intros H. pose proof (f_equal (@List.length Z) H) as Hl. rewrite List.length_app in Hl.
  autorewrite with len in Hl. destruct (Z_le_gt_dec d u) as [Hu|].
  - rewrite (range_app m d (d + Z.of_nat (List.length l1)) u) in H by lia.
    apply (f_equal (take (List.length l1))) in H.
    rewrite !take_app_length' in H by (autorewrite with len; lia). done.
  - assert (List.length l1 = 0%nat) as E by lia. destruct l1; [|done]. now rewrite range_nil by (simpl; lia).
Qed.

Lemma written_src v x s p : written v x s p -> p < q -> cu_m v (p + 1) = M0 (p + 1).
Proof using All. intros [] Hp. apply w_mem0. lia. Qed.

(** Reading the next raw character. *)
Lemma written_next v x s p ch st qs dec r :
  written v x s p -> p < q ->
  keeps r -> uri_ext r = uri_ext (cu_r v) ->
  written (mk_cu (cu_m v) (p + 1 + 1) (cu_u v) ch st qs dec r) x s (p + 1).
Proof using All.
  intros [] Hp Hk Hx. constructor; cbn; auto; try lia. now rewrite Hx.
Qed.

(** [*u++ = c] and the next raw character. *)
Lemma written_put v x s p c x' s' ch qs dec r :
  written v x s p -> p < q ->
  join (List.rev (fst x') ++ [snd x']) = join (List.rev (fst x) ++ [snd x]) ++ [c] ->
  state_ok s' (snd x') -> Forall no_slash (snd x' :: fst x') ->
  keeps r ->
  (uri_ext r = NULL \/ (s' = sw_usual /\ d < uri_ext r <= cu_u v + 1)) ->
  ch = upd (cu_m v) (cu_u v) c (p + 1) ->
  fresh (mk_cu (upd (cu_m v) (cu_u v) c) (p + 1 + 1) (cu_u v + 1) ch s' qs dec r) x' (p + 1).
Proof using All.
  intros [] Hp Hj Hs Hn Hk Hx ->. split; [constructor; cbn; auto; try lia |].
  - rewrite Hj, range_upd_snoc by lia. now rewrite w_out0.
  - rewrite Hj, List.length_app. cbn. lia.
  - intros y Hy. rewrite upd_ne by lia. now apply w_mem0.
  - cbn. rewrite upd_ne by lia. apply w_mem0. lia.
Qed.

(** The previous '/' of what was written. *)
Lemma scan_back_spec n m b s :
  d <= b -> (List.length s < n)%nat -> range m b (b + 1 + Z.of_nat (List.length s)) = chr "/" :: s ->
  no_slash s ->
  scan_back n m d (b + Z.of_nat (List.length s)) = Some (b + 1).
Proof using.
  intros Hb. revert n. induction s as [|c s IH] using rev_ind; intros n Hn Hr Hs.
  - destruct n; [simpl in Hn; lia |]. cbn [scan_back List.length]. rewrite Z.add_0_r.
    destruct (Z.ltb_spec b d); [lia |].
    rewrite range_cons in Hr by (simpl; lia). injection Hr as -> _. done.
  - rewrite List.length_app in *. cbn [List.length] in *. destruct n; [lia |]. cbn [scan_back].
    destruct (Z.ltb_spec (b + Z.of_nat (List.length s + 1)) d); [lia |].
    replace (b + 1 + Z.of_nat (List.length s + 1)) with (b + 1 + Z.of_nat (List.length s) + 1) in Hr by lia.
    rewrite range_snoc in Hr by lia. rewrite app_comm_cons in Hr.
    apply List.app_inj_tail in Hr as [Hr Hc].
    replace (b + 1 + Z.of_nat (List.length s)) with (b + Z.of_nat (List.length s + 1)) in Hc by lia.
    unfold no_slash in Hs. apply Forall_app in Hs as [Hs Hcs].
    apply Forall_cons_1 in Hcs as [Hcs _]. rewrite Hc.
    destruct (Z.eqb_spec c 47) as [|_]; [done |].
    rewrite <- (IH n) by (done || lia). f_equal. lia.
Qed.

Lemma pop_spec v x p :
  written v x sw_dot_dot p ->
  match fst x with
  | [] => pop_segment v = None
  | _ :: stack =>
      pop_segment v = Some (with_u (d + Z.of_nat (List.length (join (List.rev stack ++ [[]])))) v) /\
      range (cu_m v) d (d + Z.of_nat (List.length (join (List.rev stack ++ [[]])))) =
        join (List.rev stack ++ [[]]) /\
      d + Z.of_nat (List.length (join (List.rev stack ++ [[]]))) <= cu_u v
  end.
Proof using All.
  destruct x as [stack cur]. intros []. pose proof w_keeps0 as (K1 & K2 & K3 & K4).
  cbn [fst snd state_ok] in *. subst cur.
  unfold pop_segment. rewrite (proj1 w_keeps0).
  destruct stack as [|s stack]; cbn [List.rev] in *.
  - cbn in w_u0. rewrite w_u0. replace (Z.to_nat _) with 3%nat by lia. cbn [scan_back].
    destruct (Z.ltb_spec (d + Z.of_nat 3 - 4) d); [reflexivity | lia].
  - rewrite <- app_assoc in w_out0, w_u0. rewrite !join_app, !join_one in *.
    set (J := join (List.rev stack)) in *. cbn [List.app] in *.
    assert (Hs : no_slash s) by (inversion w_slash0 as [| ? ? _ Hs]; now inversion Hs).
    assert (Hr : range (cu_m v) d (d + Z.of_nat (List.length (J ++ [47]))) = J ++ [47]).
    { apply (range_prefix _ _ (s ++ chr "/" :: dot_dot) (cu_u v)). rewrite w_out0.
      now rewrite <- !app_assoc. }
    assert (Hlen : cu_u v = d + Z.of_nat (List.length J) + 1 + Z.of_nat (List.length s) + 3).
    { rewrite w_u0. repeat (rewrite List.length_app || simpl List.length). lia. }
    assert (Hb : range (cu_m v) (d + Z.of_nat (List.length J))
                   (d + Z.of_nat (List.length J) + 1 + Z.of_nat (List.length s)) = 47 :: s).
    { pose proof (range_prefix (cu_m v) (J ++ 47 :: s) (chr "/" :: dot_dot) (cu_u v)) as G.
      specialize (G ltac:(rewrite w_out0, <- app_assoc; simpl; now rewrite ?app_nil_r)).
      rewrite (range_app _ d (d + Z.of_nat (List.length J))) in G
        by (repeat (rewrite List.length_app || simpl List.length); lia).
      apply app_inj_1 in G as [_ G]; [|autorewrite with len; lia].
      rewrite <- G. f_equal. rewrite List.length_app. cbn [List.length]. lia. }
    replace (cu_u v - 4) with (d + Z.of_nat (List.length J) + Z.of_nat (List.length s)) by lia.
    rewrite scan_back_spec by (done || lia). rewrite List.length_app. cbn [List.length].
    rewrite List.length_app in Hr. cbn [List.length] in Hr.
    split; [do 2 f_equal; lia |]. split; [done | lia].
Qed.

(** A result: what the callers use when the loop is left. *)
Record rewritten (v : cu) (ss : list (list Z)) : Prop := {
  r_out : range (cu_m v) d (cu_u v) = join ss;
  r_u : cu_u v = d + Z.of_nat (List.length (join ss));
  r_room : cu_u v - d <= q - a;
  r_mem : forall y, y < d \/ d + (q - a) <= y -> cu_m v y = M0 y;
  r_data : data (uri (cu_r v)) = d;
  r_end : uri_end (cu_r v) = e;
  r_exten : exten (cu_r v) = x0;
  r_ext : uri_ext (cu_r v) = NULL \/ d < uri_ext (cu_r v) <= cu_u v
}.

Definition end_state (s : cu_state) (v : cu) : option cu :=
  match s with
  | sw_dot => Some (with_u (cu_u v - 1) v)
  | sw_dot_dot => pop_segment v
  | _ => Some v
  end.

(** Leaving the loop in state [s]. *)
Lemma end_spec v x s p :
  written v x s p ->
  match final_segments x with
  | None => end_state s v = None
  | Some ss => exists u, end_state s v = Some (with_u u v) /\ rewritten (with_u u v) ss
  end.
Proof using All.
  intros W. pose proof W as []. pose proof w_keeps0 as (K1 & K2 & K3 & K4). destruct x as [stack cur]. cbn [fst snd] in *.
  assert (Hkeep : cur <> dot -> cur <> dot_dot -> end_state s v = Some v ->
    match final_segments (stack, cur) with
    | None => end_state s v = None
    | Some ss => exists u, end_state s v = Some (with_u u v) /\ rewritten (with_u u v) ss
    end).
  { intros H1 H2 E. unfold final_segments. rewrite !decide_False by done.
    exists (cu_u v). rewrite E. split; [now destruct v |]. constructor; cbn; auto; [lia |].
    destruct w_ext0 as [|[_ ?]]; auto. }
  destruct s; cbn [state_ok] in w_state0; try done; subst; try (apply Hkeep; done || tauto).
  - unfold final_segments. rewrite decide_True by done. exists (cu_u v - 1).
    split; [done |]. rewrite <- (app_nil_l dot) in w_out0, w_u0. unfold dot in w_out0, w_u0.
    rewrite join_snoc in w_out0, w_u0. rewrite List.length_app in w_u0. cbn [List.length] in w_u0.
    constructor; cbn; auto; try lia.
    + replace (cu_u v - 1) with (d + Z.of_nat (List.length (join (List.rev stack ++ [[]])))) by lia.
      eapply range_prefix, w_out0.
    + left. destruct w_ext0 as [|[? _]]; done.
  - pose proof (pop_spec _ _ _ W) as Hp. unfold final_segments.
    rewrite decide_False, decide_True by done. cbn [fst] in Hp.
    destruct stack as [|s0 stack]; [done |]. destruct Hp as (Ep & Hr & Hu). eexists.
    split; [exact Ep |]. constructor; cbn; auto; [lia |].
    left. destruct w_ext0 as [|[? _]]; done.
Qed.

(** A character appended to a segment that becomes an ordinary one. *)
Lemma put_usual v x s p c ch qs dec r :
  written v x s p -> p < q -> c <> chr "/" -> s = sw_usual \/ c <> chr "." ->
  keeps r ->
  uri_ext r = uri_ext (cu_r v) \/ uri_ext r = cu_u v + 1 ->
  ch = upd (cu_m v) (cu_u v) c (p + 1) ->
  fresh (mk_cu (upd (cu_m v) (cu_u v) c) (p + 1 + 1) (cu_u v + 1) ch sw_usual qs dec r)
    (fst x, snd x ++ [c]) (p + 1).
Proof using All.
  intros W Hp Hc Hs Hk Hx Hch. pose proof W as []. pose proof w_keeps0 as (K1 & K2 & K3 & K4).
  apply (written_put _ _ _ _ _ _ _ _ _ _ _ W); auto; cbn [fst snd].
  - apply join_snoc.
  - eapply usual_snoc; eauto.
  - inversion w_slash0; subst. constructor; [|done]. apply Forall_app. auto.
  - destruct Hx as [-> | ->].
    + destruct w_ext0 as [|[_ ?]]; [now left |]. right. split; [done | lia].
    + right. split; [done | lia].
Qed.

(** A '/' written after a segment that is kept. *)
Lemma put_slash v x s p ch qs dec r :
  written v x s p -> p < q ->
  keeps r -> uri_ext r = NULL ->
  ch = upd (cu_m v) (cu_u v) (chr "/") (p + 1) ->
  fresh (mk_cu (upd (cu_m v) (cu_u v) (chr "/")) (p + 1 + 1) (cu_u v + 1) ch sw_slash qs dec r)
    (snd x :: fst x, []) (p + 1).
Proof using All.
  intros W Hp Hk Hx Hch. pose proof W as []. pose proof w_keeps0 as (K1 & K2 & K3 & K4).
  apply (written_put _ _ _ _ _ _ _ _ _ _ _ W); auto; cbn [fst snd List.rev].
  - rewrite <- app_assoc. apply join_slash.
  - done.
  - constructor; [constructor | done].
Qed.

(** The character '/', raw or decoded. *)
Lemma dispatch_slash v x p :
  written v x (cu_st v) p -> p < q -> cu_ch v = chr "/" ->
  match close_segment merge x with
  | Some stack => exists v', cu_step merge v = CuNext v' /\ fresh v' (stack, []) (p + 1)
  | None => exists v', cu_step merge v = CuReturn NGX_HTTP_PARSE_INVALID_REQUEST v'
  end.
Proof using All.
  intros W Hp Hc. pose proof W as []. pose proof w_keeps0 as (K1 & K2 & K3 & K4).
  destruct v as [m p' u c s qs dec r]. cbn [cu_m cu_p cu_u cu_ch cu_st cu_r] in *. subst p' c.
  destruct x as [stack cur]. cbn [fst snd option_map] in *.
  destruct s; cbn [state_ok] in w_state0; try done; unfold cu_step; cbn [cu_st].
  - unfold close_segment. rewrite !decide_False by tauto.
    rewrite bool_decide_eq_false_2, andb_false_r by tauto. eexists. split; [reflexivity |].
    exact (put_slash _ _ _ _ _ qs dec (set_uri_ext NULL r) W Hp w_keeps0 eq_refl eq_refl).
  - subst cur. unfold close_segment. destruct merge; cbn.
    + eexists. split; [reflexivity |]. split; [|exact (written_src _ _ _ _ W Hp)].
      now apply (written_next _ _ _ _ _ sw_slash qs dec r W).
    + eexists. split; [reflexivity |].
      refine (put_slash _ _ _ _ _ qs dec r W Hp w_keeps0 _ eq_refl).
      now destruct w_ext0 as [|[? _]].
  - subst cur. unfold close_segment. rewrite decide_True by done. eexists. split; [reflexivity |].
    pose proof (end_spec _ _ _ _ W) as (u' & E & R).
    injection E as <-. destruct R. cbn in r_out0, r_u0. split; [|exact (written_src _ _ _ _ W Hp)].
    inversion w_slash0; subst.
    constructor; cbn; auto; try lia; [constructor; [constructor | done] |].
    left. now destruct w_ext0 as [|[? _]].
  - subst cur. unfold close_segment. rewrite decide_False, decide_True by done.
    pose proof (pop_spec _ _ _ W) as P. cbn [fst] in P. unfold cu_dot_dot. cbn [cu_ch].
    change (is_usual 47) with false. cbn [Z.eqb Pos.eqb orb].
    destruct stack as [|s0 stack]; [rewrite P; now eexists |].
    destruct P as (-> & Hr & Hu). cbn [cu_u] in Hu. eexists. split; [reflexivity |].
    split; [|exact (written_src _ _ _ _ W Hp)].
    inversion w_slash0 as [| ? ? _ Hn]; subst. inversion Hn; subst.
    constructor; cbn; auto; try lia; [constructor; [constructor | done] |].
    left. now destruct w_ext0 as [|[? _]].
Qed.

(** Characters other than '%', '?', '#' and '/', raw or decoded. *)
Lemma dispatch_other v x p :
  written v x (cu_st v) p -> p < q -> byte (cu_ch v) -> cu_ch v <> chr "/" ->
  cu_ch v <> chr "%" -> cu_ch v <> chr "?" -> cu_ch v <> chr "#" ->
  exists v', cu_step merge v = CuNext v' /\ fresh v' (fst x, snd x ++ [cu_ch v]) (p + 1).
Proof using All.
  intros W Hp Hb H0 H1 H2 H3. pose proof W as []. pose proof w_keeps0 as (K1 & K2 & K3 & K4). pose proof (usual_not _ Hb) as Hu.
  destruct v as [m p' u c s qs dec r]. cbn [cu_m cu_p cu_u cu_ch cu_st cu_r] in *. subst p'.
  apply Z.eqb_neq in H0 as E0, H1 as E1, H2 as E2, H3 as E3.
  assert (Hcopy : s = sw_usual \/ c <> chr "." ->
    exists v', copy_usual (mk_cu m (p + 1) u c s qs dec r) = CuNext v' /\
      fresh v' (fst x, snd x ++ [c]) (p + 1)).
  { intros Hs. unfold copy_usual. cbn [cu_ch]. destruct (c =? 43); eexists; (split; [reflexivity |]).
    - exact (put_usual _ _ _ _ c _ qs dec (set_plus_in_uri true r) W Hp H0 Hs w_keeps0
               (or_introl eq_refl) eq_refl).
    - exact (put_usual _ _ _ _ c _ qs dec r W Hp H0 Hs w_keeps0
               (or_introl eq_refl) eq_refl). }
  assert (Hput : is_usual c = true ->
    exists v', CuNext (next (put c (goto sw_usual (mk_cu m (p + 1) u c s qs dec r)))) = CuNext v' /\
      fresh v' (fst x, snd x ++ [c]) (p + 1)).
  { intros Hc. eexists. split; [reflexivity |].
    refine (put_usual _ _ _ _ c _ qs dec r W Hp H0 _ w_keeps0 (or_introl eq_refl) eq_refl).
    right. now apply Hu. }
  assert (Hdot : forall s', s' = sw_dot \/ s' = sw_dot_dot -> s <> sw_usual ->
    state_ok s' (snd x ++ [c]) ->
    exists v', CuNext (next (put c (goto s' (mk_cu m (p + 1) u c s qs dec r)))) = CuNext v' /\
      fresh v' (fst x, snd x ++ [c]) (p + 1)).
  { intros s' Hs' Hs Hok. eexists. split; [reflexivity |].
    apply (written_put _ _ _ _ c (fst x, snd x ++ [c]) s' _ qs dec r W Hp); auto; cbn [fst snd].
    - apply join_snoc.
    - inversion w_slash0; subst. constructor; [|done]. apply Forall_app. auto.
    - left. now destruct w_ext0 as [|[? _]]. }
  unfold cu_step. cbn [cu_st].
  destruct s; cbn [state_ok] in w_state0; try done;
    unfold cu_usual, cu_slash, cu_dot, cu_dot_dot; cbn [cu_ch cu_u]; rewrite E0, E1, E2, E3;
    destruct (is_usual c) eqn:Eu; try (now apply Hput).
  - destruct (c =? 46); [|apply Hcopy; now left]. eexists. split; [reflexivity |].
    refine (put_usual _ _ _ _ c _ qs dec (set_uri_ext (u + 1) r) W Hp H0 _ w_keeps0
              (or_intror eq_refl) eq_refl). now left.
  - destruct (Z.eqb_spec c 46) as [-> |]; [|apply Hcopy; now right].
    apply Hdot; [now left | done |]. rewrite w_state0. done.
  - destruct (Z.eqb_spec c 46) as [-> |]; [|apply Hcopy; now right].
    apply Hdot; [now right | done |]. rewrite w_state0. done.
  - cbn [orb]. destruct (Z.eq_dec c (chr ".")) as [-> |]; [|apply Hcopy; now right].
    unfold copy_usual. cbn [cu_ch Z.eqb Pos.eqb]. eexists. split; [reflexivity |].
    apply (written_put _ _ _ _ (chr ".") (fst x, snd x ++ [chr "."]) sw_usual _ qs dec r W Hp); auto;
      cbn [fst snd].
    + apply join_snoc.
    + rewrite w_state0. done.
    + inversion w_slash0; subst. constructor; [|done]. apply Forall_app. auto.
    + left. now destruct w_ext0 as [|[? _]].
Qed.

(** The loop's outcome against the specification. *)
Definition outcome (o : option cu_out) (x : option (list (list Z) * path_end)) : Prop :=
  match x with
  | None => exists v, o = Some (CuReturn NGX_HTTP_PARSE_INVALID_REQUEST v)
  | Some (ss, AtArgs rest) =>
      exists v, o = Some (CuArgs v) /\ rewritten v ss /\ a < cu_p v <= e /\
        rest = range M0 (cu_p v) e /\ args_start (cu_r v) = cu_p v
  | Some (ss, _) =>
      exists v, o = Some (CuDone v) /\ rewritten v ss /\ args_start (cu_r v) = NULL
  end.

Lemma step_end v :
  match cu_st v with sw_quoted | sw_quoted_second => False | _ => True end ->
  (cu_ch v = chr "?" ->
   cu_step merge v = match end_state (cu_st v) v with
                     | Some v' => args_at v'
                     | None => CuReturn NGX_HTTP_PARSE_INVALID_REQUEST v
                     end) /\
  (cu_ch v = chr "#" ->
   cu_step merge v = match end_state (cu_st v) v with
                     | Some v' => CuDone v'
                     | None => CuReturn NGX_HTTP_PARSE_INVALID_REQUEST v
                     end) /\
  cu_after_loop v = match end_state (cu_st v) v with
                    | Some v' => CuDone v'
                    | None => CuReturn NGX_HTTP_PARSE_INVALID_REQUEST v
                    end.
Proof using.
  destruct v as [m p u c s qs dec r]. cbn [cu_st cu_ch]. intros Hs.
  destruct s; try done; unfold cu_step, cu_after_loop; cbn [cu_st];
    unfold cu_usual, cu_slash, cu_dot, cu_dot_dot; cbn [cu_ch];
    (split; [intros -> | split; [intros -> |]]); try reflexivity;
    cbn [end_state]; now destruct (pop_segment _).
Qed.

Lemma plain_state v x p :
  written v x (cu_st v) p -> match cu_st v with sw_quoted | sw_quoted_second => False | _ => True end.
Proof using. intros []. now destruct (cu_st v). Qed.

Lemma rewrite_from_cons x c l :
  c <> chr "%" -> c <> chr "?" -> c <> chr "#" ->
  rewrite_from merge x (c :: l) =
  match read_byte merge x c with
  | Some x' => rewrite_from merge x' l
  | None => None
  end.
Proof using.
  intros H1 H2 H3. unfold rewrite_from. cbn [decode_path].
  rewrite (proj2 (Z.eqb_neq _ _) H1), (proj2 (Z.eqb_neq _ _) H2), (proj2 (Z.eqb_neq _ _) H3).
  destruct (decode_path l) as [[bs pe]|]; cbn [read_bytes]; now destruct (read_byte merge x c).
Qed.

(** The end of the path. *)
Lemma outcome_end v x p o pe :
  written v x (cu_st v) p -> pe = AtEnd \/ pe = AtFragment ->
  o = Some (match end_state (cu_st v) v with
            | Some v' => CuDone v'
            | None => CuReturn NGX_HTTP_PARSE_INVALID_REQUEST v
            end) ->
  outcome o (match final_segments x with Some ss => Some (ss, pe) | None => None end).
Proof using All.
  intros W Hpe ->. pose proof (end_spec _ _ _ _ W) as E. destruct (final_segments x) as [ss|].
  - destruct E as (u & -> & R). pose proof W as []. pose proof w_keeps0 as (K1 & K2 & K3 & K4).
    destruct Hpe as [-> | ->]; exists (with_u u v); done.
  - rewrite E. now exists v.
Qed.

Lemma outcome_args v x p o :
  written v x (cu_st v) p -> p < e ->
  o = Some (match end_state (cu_st v) v with
            | Some v' => args_at v'
            | None => CuReturn NGX_HTTP_PARSE_INVALID_REQUEST v
            end) ->
  outcome o (match final_segments x with Some ss => Some (ss, AtArgs (range M0 (p + 1) e)) | None => None end).
Proof using All.
  intros W Hp ->. pose proof (end_spec _ _ _ _ W) as E. destruct (final_segments x) as [ss|].
  - destruct E as (u & -> & R). pose proof W as []. pose proof w_keeps0 as (K1 & K2 & K3 & K4). eexists. split; [reflexivity |].
    cbn. rewrite w_p0. split; [|split; [lia | done]].
    destruct R. constructor; cbn in *; auto.
  - rewrite E. now exists v.
Qed.

(** Escapes. *)
Lemma quoted_step v :
  cu_st v = sw_quoted ->
  match hex_digit (cu_ch v) with
  | Some y =>
      cu_step merge v = CuNext (next (mk_cu (cu_m v) (cu_p v) (cu_u v) (cu_ch v) sw_quoted_second
                                   (cu_qs v) y (set_quoted_uri true (cu_r v))))
  | None => exists v', cu_step merge v = CuReturn NGX_HTTP_PARSE_INVALID_REQUEST v'
  end.
Proof using.
  destruct v as [m p u c s qs dec r]. cbn. intros ->. unfold cu_step. cbn [cu_st].
  unfold cu_quoted, hex_digit. cbn [cu_ch].
  destruct (_ && _); [reflexivity |]. destruct (_ && _); [reflexivity | now eexists].
Qed.

Lemma uri_hex_digit_range c y : hex_digit c = Some y -> 0 <= y <= 15.
Proof using. unfold hex_digit. intros H. cases_of_eq H; simplify_eq; lia. Qed.

Lemma quoted_second_step v :
  cu_st v = sw_quoted_second -> 0 <= cu_dec v <= 15 ->
  match hex_digit (cu_ch v) with
  | Some y =>
      let c := 16 * cu_dec v + y in
      if c =? 0 then exists v', cu_step merge v = CuReturn NGX_HTTP_PARSE_INVALID_REQUEST v'
      else if (c =? chr "%") || (c =? chr "#") || (c =? chr "?") then
        cu_step merge v = CuNext (next (put c (goto sw_usual (with_ch c v))))
      else
        exists r, cu_step merge v = CuNext (goto (cu_qs v) (with_ch c (with_r (fun _ => r) v))) /\
          (r = cu_r v \/ r = set_plus_in_uri true (cu_r v))
  | None => exists v', cu_step merge v = CuReturn NGX_HTTP_PARSE_INVALID_REQUEST v'
  end.
Proof using.
  destruct v as [m p u c s qs dec r]. cbn [cu_st cu_dec cu_ch cu_qs cu_r]. intros -> Hd.
  unfold cu_step. cbn [cu_st]. unfold cu_quoted_second, hex_digit. cbn [cu_ch cu_dec].
  rewrite Z.shiftl_mul_pow2 by lia. change (2 ^ 4) with 16.
  destruct ((chr "0" <=? c) && (c <=? chr "9")) eqn:E1.
  - replace ((dec * 16 + (c - 48)) mod 256) with (16 * dec + (c - 48))
      by (rewrite Z.mod_small; lia).
    cbv zeta. set (k := 16 * dec + (c - 48)). destruct (Z.eqb_spec k 0) as [E0 |].
    + rewrite E0. cbn. now eexists.
    + replace (k =? 63) with false by lia. rewrite orb_false_r.
      destruct (_ || _); [reflexivity |]. exists r. split; [reflexivity | now left].
  - destruct ((chr "a" <=? Z.lor c 0x20) && (Z.lor c 0x20 <=? chr "f")) eqn:E2; [|now eexists].
    replace ((dec * 16 + (Z.lor c 32 - 97) + 10) mod 256) with (16 * dec + (Z.lor c 32 - 97 + 10))
      by (rewrite Z.mod_small; lia).
    cbv zeta. set (k := 16 * dec + (Z.lor c 32 - 97 + 10)).
    replace (k =? 0) with false by lia. replace (k =? 37) with false by lia.
    replace (k =? 35) with false by lia. cbn [orb].
    destruct (k =? 63); [reflexivity |].
    destruct (k =? 43); [exists (set_plus_in_uri true r) | exists r]; (split; [reflexivity | auto]).
Qed.

Lemma cu_loop_S n v x s p :
  written v x s p -> p < e ->
  cu_loop (S n) merge v =
  match cu_step merge v with CuNext v' => cu_loop n merge v' | o => Some o end.
Proof using All.
  intros [] Hp. cbn [cu_loop]. rewrite w_p0, (proj1 (proj2 w_keeps0)).
  now destruct (Z.leb_spec (p + 1) e); [|lia].
Qed.

Lemma cu_loop_end n v x s p :
  written v x s p -> p = e -> cu_loop (S n) merge v = Some (cu_after_loop v).
Proof using All.
  intros [] Hp. cbn [cu_loop]. rewrite w_p0, (proj1 (proj2 w_keeps0)).
  now destruct (Z.leb_spec (p + 1) e); [lia |].
Qed.

(** A malformed escape is refused wherever the input ends. *)
Lemma bad_quoted n v x s p :
  written v x s p -> cu_st v = sw_quoted -> cu_ch v = M0 p ->
  p = e \/ hex_digit (M0 p) = None ->
  exists v', cu_loop (S n) merge v = Some (CuReturn NGX_HTTP_PARSE_INVALID_REQUEST v').
Proof using All.
  intros W Hs Hc Hb. pose proof W as []. pose proof w_keeps0 as (K1 & K2 & K3 & K4). destruct (Z.eq_dec p e) as [He | He].
  - rewrite (cu_loop_end _ _ _ _ _ W He). unfold cu_after_loop. rewrite Hs. now eexists.
  - destruct Hb as [|Hb]; [done |]. rewrite (cu_loop_S _ _ _ _ _ W) by lia.
    pose proof (quoted_step v Hs) as Q. rewrite Hc, Hb in Q. destruct Q as (v' & ->). now eexists.
Qed.

Lemma bad_quoted_second n v x s p :
  written v x s p -> cu_st v = sw_quoted_second -> 0 <= cu_dec v <= 15 -> cu_ch v = M0 p ->
  p = e \/ hex_digit (M0 p) = None ->
  exists v', cu_loop (S n) merge v = Some (CuReturn NGX_HTTP_PARSE_INVALID_REQUEST v').
Proof using All.
  intros W Hs Hd Hc Hb. pose proof W as []. pose proof w_keeps0 as (K1 & K2 & K3 & K4). destruct (Z.eq_dec p e) as [He | He].
  - rewrite (cu_loop_end _ _ _ _ _ W He). unfold cu_after_loop. rewrite Hs. now eexists.
  - destruct Hb as [|Hb]; [done |]. rewrite (cu_loop_S _ _ _ _ _ W) by lia.
    pose proof (quoted_second_step v Hs Hd) as Q. rewrite Hc, Hb in Q.
    destruct Q as (v' & ->). now eexists.
Qed.

Lemma not_hex_query : hex_digit (chr "?") = None.
Proof using. reflexivity. Qed.

(** The byte a well-formed escape stands for. *)
Lemma decoded_escape v x s p y n :
  written v x s p -> p < q -> cu_st v = sw_quoted_second -> cu_qs v = s -> 0 <= cu_dec v <= 15 ->
  cu_ch v = M0 p -> hex_digit (M0 p) = Some y ->
  match (if 16 * cu_dec v + y =? 0 then None else read_byte merge x (16 * cu_dec v + y)) with
  | None => exists v', cu_loop (S (S n)) merge v = Some (CuReturn NGX_HTTP_PARSE_INVALID_REQUEST v')
  | Some x' => exists v' k, cu_loop (S (S n)) merge v = cu_loop k merge v' /\ (n <= k <= S n)%nat /\ fresh v' x' (p + 1)
  end.
Proof using All.
  intros W Hp Hs Hq Hd Hc Hy. pose proof W as []. pose proof w_keeps0 as (K1 & K2 & K3 & K4). pose proof (uri_hex_digit_range _ _ Hy) as Hyr.
  rewrite (cu_loop_S _ _ _ _ _ W) by lia.
  pose proof (quoted_second_step v Hs Hd) as Q. rewrite Hc, Hy in Q. cbv zeta in Q.
  set (c := 16 * cu_dec v + y) in *.
  destruct (Z.eqb_spec c 0) as [|Hc0]; [destruct Q as (v' & ->); now eexists |].
  destruct ((c =? 37) || (c =? 35) || (c =? 63)) eqn:El.
  - rewrite Q. unfold read_byte. replace (c =? 47) with false by lia.
    eexists _, (S n). split; [reflexivity |]. split; [lia |].
    unfold next, put, goto, with_ch. cbn [cu_m cu_p cu_u cu_ch cu_st cu_qs cu_dec cu_r]. rewrite w_p0.
    apply (put_usual _ _ _ _ c _ (cu_qs v) (cu_dec v) (cu_r v) W Hp); auto; lia.
  - destruct Q as (r & -> & Hr). set (v1 := goto (cu_qs v) (with_ch c (with_r (fun _ => r) v))).
    assert (W1 : written v1 x (cu_st v1) p).
    { change (cu_st v1) with (cu_qs v). rewrite Hq.
      destruct Hr as [-> | ->]; constructor; cbn; auto. }
    rewrite (cu_loop_S _ _ _ _ _ W1) by lia.
    assert (Hb : byte (cu_ch v1)) by (change (byte c); unfold byte; lia).
    unfold read_byte. destruct (Z.eqb_spec c 47) as [E47 | E47].
    + pose proof (dispatch_slash v1 x p W1 Hp E47) as G.
      destruct (close_segment merge x) as [stack|]; cbn [option_map].
      * destruct G as (v' & -> & F). exists v', n. split; [done |]. split; [lia | done].
      * destruct G as (v' & ->). now eexists.
    + destruct (dispatch_other v1 x p W1 Hp Hb) as (v' & -> & F); try (change (cu_ch v1) with c; lia).
      exists v', n. split; [done |]. split; [lia | done].
Qed.

Lemma rewrite_from_escape x A B y z l :
  hex_digit A = Some y -> hex_digit B = Some z ->
  rewrite_from merge x (chr "%" :: A :: B :: l) =
  match (if 16 * y + z =? 0 then None else read_byte merge x (16 * y + z)) with
  | Some x' => rewrite_from merge x' l
  | None => None
  end.
Proof using.
  intros HA HB. unfold rewrite_from. cbn [decode_path Z.eqb Pos.eqb]. rewrite HA, HB.
  destruct (decode_path l) as [[bs pe]|]; destruct (16 * y + z =? 0); try done; cbn [read_bytes];
    now destruct (read_byte merge x (16 * y + z)).
Qed.

Lemma percent_step v :
  match cu_st v with sw_quoted | sw_quoted_second => False | _ => True end ->
  cu_ch v = chr "%" -> cu_step merge v = quote v.
Proof using.
  destruct v as [m p u c s qs dec r]. cbn [cu_st cu_ch]. intros Hs ->.
  now destruct s.
Qed.

(** An escape: refused, or the byte it stands for is read. *)
Lemma escape_correct n v x p :
  fresh v x p -> p < q -> M0 p = chr "%" ->
  (exists v', cu_loop (5 + n) merge v = Some (CuReturn NGX_HTTP_PARSE_INVALID_REQUEST v') /\
     rewrite_from merge x (range M0 p e) = None) \/
  (exists v' x' k, cu_loop (5 + n) merge v = cu_loop k merge v' /\ (1 + n <= k <= 2 + n)%nat /\
     fresh v' x' (p + 3) /\
     rewrite_from merge x (range M0 p e) = rewrite_from merge x' (range M0 (p + 3) e)).
Proof using All.
  intros [W Hch] Hp HM. pose proof W as []. pose proof w_keeps0 as (K1 & K2 & K3 & K4). rewrite (range_cons M0 p) by lia. rewrite HM.
  change (5 + n)%nat with (S (4 + n)).
  rewrite (cu_loop_S _ _ _ _ _ W), (percent_step v (plain_state _ _ _ W)) by (lia || congruence).
  unfold quote, next. cbn [cu_m cu_p cu_u cu_ch cu_st cu_qs cu_dec cu_r]. rewrite w_p0.
  set (v1 := mk_cu _ _ _ _ _ _ _ _).
  assert (W1 : written v1 x (cu_st v) (p + 1)) by (apply (written_next v x _ p); auto).
  assert (C1 : cu_ch v1 = M0 (p + 1)) by exact (written_src _ _ _ _ W Hp).
  assert (Hbad1 : p + 1 = e \/ hex_digit (M0 (p + 1)) = None ->
    exists v', cu_loop (4 + n) merge v1 = Some (CuReturn NGX_HTTP_PARSE_INVALID_REQUEST v') /\
     rewrite_from merge x (chr "%" :: range M0 (p + 1) e) = None).
  { intros Hb. destruct (bad_quoted (3 + n) v1 x _ _ W1 eq_refl C1 Hb) as (v' & E).
    exists v'. split; [exact E |]. unfold rewrite_from. cbn [decode_path Z.eqb Pos.eqb].
    destruct Hb as [-> | Hb]; [now rewrite range_nil by lia |].
    destruct (Z.eq_dec (p + 1) e) as [-> |]; [now rewrite range_nil by lia |].
    rewrite range_cons by lia. destruct (range M0 (p + 1 + 1) e); [done |]. now rewrite Hb. }
  destruct (Z.eq_dec (p + 1) e) as [He1 |]; [left; apply Hbad1; now left |].
  destruct (hex_digit (M0 (p + 1))) as [y|] eqn:Ey; [|left; apply Hbad1; now right].
  assert (Hp1 : p + 1 < q).
  { destruct q_args as [|Hq]; [lia |]. assert (p + 1 <> q) by (intros <-; rewrite Hq in Ey; done). lia. }
  change (4 + n)%nat with (S (3 + n)). rewrite (cu_loop_S _ _ _ _ _ W1) by lia.
  pose proof (quoted_step v1 eq_refl) as Q. rewrite C1, Ey in Q. rewrite Q. unfold next.
  change (cu_p v1) with (p + 1 + 1). change (cu_m v1) with (cu_m v). change (cu_u v1) with (cu_u v).
  change (cu_qs v1) with (cu_st v). change (cu_r v1) with (cu_r v).
  cbn [cu_m cu_p cu_u cu_ch cu_st cu_qs cu_dec cu_r]. clear Q.
  set (v2 := mk_cu _ _ _ _ _ _ _ _).
  assert (W2 : written v2 x (cu_st v) (p + 1 + 1)) by (apply (written_next v1 x _ (p + 1)); auto).
  assert (C2 : cu_ch v2 = M0 (p + 1 + 1)) by exact (written_src _ _ _ _ W1 Hp1).
  pose proof (uri_hex_digit_range _ _ Ey) as Hy.
  rewrite (range_cons M0 (p + 1)) by lia.
  assert (Hbad2 : p + 1 + 1 = e \/ hex_digit (M0 (p + 1 + 1)) = None ->
    exists v', cu_loop (3 + n) merge v2 = Some (CuReturn NGX_HTTP_PARSE_INVALID_REQUEST v') /\
     rewrite_from merge x (chr "%" :: M0 (p + 1) :: range M0 (p + 1 + 1) e) = None).
  { intros Hb. destruct (bad_quoted_second (2 + n) v2 x _ _ W2 eq_refl Hy C2 Hb) as (v' & E).
    exists v'. split; [exact E |]. unfold rewrite_from. cbn [decode_path Z.eqb Pos.eqb].
    destruct (Z.eq_dec (p + 1 + 1) e) as [-> |]; [now rewrite range_nil by lia |].
    destruct Hb as [|Hb]; [done |]. rewrite range_cons by lia. now rewrite Ey, Hb. }
  destruct (Z.eq_dec (p + 1 + 1) e) as [He2 |]; [left; apply Hbad2; now left |].
  destruct (hex_digit (M0 (p + 1 + 1))) as [z|] eqn:Ez; [|left; apply Hbad2; now right].
  assert (Hp2 : p + 1 + 1 < q).
  { destruct q_args as [|Hq]; [lia |]. assert (p + 1 + 1 <> q) by (intros <-; rewrite Hq in Ez; done). lia. }
  rewrite (range_cons M0 (p + 1 + 1)), (rewrite_from_escape x _ _ y z) by (done || lia).
  pose proof (decoded_escape v2 x _ _ z (1 + n) W2 Hp2 eq_refl eq_refl Hy C2 Ez) as D.
  change (cu_dec v2) with y in D. replace (p + 3) with (p + 1 + 1 + 1) by lia.
  change (3 + n)%nat with (S (S (1 + n))).
  destruct (if 16 * y + z =? 0 then None else read_byte merge x (16 * y + z)) as [x'|].
  - right. destruct D as (v' & k & E & Hk & F). exists v', x', k. done.
  - left. destruct D as (v' & E). now exists v'.
Qed.

Lemma loop_correct n v x p :
  fresh v x p -> (2 * Z.to_nat (e - p) + 4 <= n)%nat ->
  outcome (cu_loop n merge v) (rewrite_from merge x (range M0 p e)).
Proof using All.
  revert v x p. induction n as [n IH] using lt_wf_ind. intros v x p [W Hch] Hn.
  pose proof W as []. pose proof w_keeps0 as (K1 & K2 & K3 & K4). destruct n as [|n]; [lia |].
  destruct (step_end v (plain_state _ _ _ W)) as (Sq & Sf & Sl).
  destruct (Z.eq_dec p e) as [-> | Hpe].
  { rewrite range_nil by lia. apply (outcome_end v x e _ AtEnd W); [now left |].
    rewrite (cu_loop_end _ _ _ _ _ W eq_refl). now rewrite Sl. }
  rewrite (cu_loop_S _ _ _ _ _ W) by lia. rewrite range_cons by lia.
  destruct (Z.eq_dec (M0 p) (chr "?")) as [E | E3].
  { unfold rewrite_from. cbn [decode_path]. rewrite E. cbn [Z.eqb Pos.eqb read_bytes].
    apply (outcome_args v x p _ W ltac:(lia)). rewrite Sq by congruence.
    now destruct (end_state _ _). }
  destruct (Z.eq_dec (M0 p) (chr "#")) as [E | E2].
  { unfold rewrite_from. cbn [decode_path]. rewrite E. cbn [Z.eqb Pos.eqb read_bytes].
    apply (outcome_end v x p _ AtFragment W); [now right |]. rewrite Sf by congruence.
    now destruct (end_state _ _). }
  assert (Hp : p < q) by (destruct q_args; [lia |]; assert (p <> q) by congruence; lia).
  destruct (Z.eq_dec (M0 p) (chr "%")) as [E | E1].
  - rewrite <- (range_cons M0 p) by lia. rewrite <- (cu_loop_S n _ _ _ _ W) by lia.
    replace (S n) with (5 + (n - 4))%nat by lia.
    destruct (escape_correct (n - 4) v x p (conj W Hch) Hp E) as [(v' & -> & ->) | (v' & x' & k & -> & Hk & F & ->)].
    + now eexists.
    + pose proof (w_range _ _ _ _ (proj1 F)). apply IH; [lia | done | lia].
  - rewrite rewrite_from_cons by done. unfold read_byte.
    destruct (Z.eqb_spec (M0 p) 47) as [E0 | E0].
    + pose proof (dispatch_slash v x p W Hp ltac:(congruence)) as G.
      destruct (close_segment merge x) as [stack|]; cbn [option_map].
      * destruct G as (v' & -> & F). apply IH; [lia | done | lia].
      * destruct G as (v' & ->). now eexists.
    + destruct (dispatch_other v x p W Hp ltac:(rewrite Hch; apply M0_byte)) as (v' & -> & F);
        try (rewrite Hch; done).
      rewrite <- Hch. apply IH; [lia | done | lia].
Qed.

(** From the first '/' on. *)
Lemma start_correct r n :
  uri_start r = a -> uri_end r = e -> data (uri r) = d -> exten r = x0 -> empty_path_in_uri r = false ->
  a < q -> M0 a = chr "/" -> (2 * Z.to_nat (e - a) + 3 <= n)%nat ->
  outcome (cu_loop n merge (cu_start M0 r)) (rewrite_path merge (range M0 a e)).
Proof using All.
  intros Ha He Hd Hx0 Hem Hq HM Hn. destruct n as [|n]; [lia |].
  unfold cu_start. set (r1 := set_args_start NULL (set_uri_ext NULL r)).
  change (empty_path_in_uri r1) with (empty_path_in_uri r). rewrite Hem.
  change (uri_start r) with (uri_start r1). unfold next.
  cbn [cu_m cu_p cu_u cu_ch cu_st cu_qs cu_dec cu_r cu_loop].
  change (uri_end r1) with (uri_end r). change (uri_start r1) with (uri_start r).
  assert (K : keeps r1) by done. destruct K as (K1 & K2 & K3 & K4).
  change (uri_start r1) with (uri_start r). rewrite K1, Ha, He, HM. destruct (Z.leb_spec (a + 1) e); [|lia].
  rewrite range_cons, HM by lia. cbn [rewrite_path Z.eqb Pos.eqb].
  unfold cu_step, cu_usual. cbn [cu_st cu_ch]. change (is_usual 47) with false.
  cbn [Z.eqb Pos.eqb]. apply loop_correct; [|lia]. split; [|reflexivity || idtac].
  - constructor; cbn; rewrite ?Hd; auto; try lia.
    + constructor; [constructor | done].
    + done.
    + rewrite range_upd_snoc, range_nil by lia. done.
    + intros y Hy. apply upd_ne. lia.
  - cbn. rewrite ?Hd. apply upd_ne. lia.
Qed.

End Rewrite.

(** ** The whole parser *)

(** The arguments up to a fragment. *)
Fixpoint before_fragment (l : list Z) : list Z :=
  match l with
  | [] => []
  | c :: l' => if c =? chr "#" then [] else c :: before_fragment l'
  end.

(** The arguments as the caller takes them from what the parser leaves. *)
Definition args_bytes (M : mem) (r : request) : list Z :=
  if args_start r =? NULL then range M (data (args r)) (data (args r) + len (args r))
  else range M (args_start r) (uri_end r).

Definition has_fragment (l : list Z) : bool := List.existsb (fun c => c =? chr "#") l.

Lemma args_loop_spec n M p r :
  args_start r <= p -> args_start r <> NULL ->
  let l := bytes_at M p n in
  let r' := args_loop n M p r in
  args_start r' = (if has_fragment l then NULL else args_start r) /\
  args r' = (if has_fragment l
             then mk_str (p + Z.of_nat (List.length (before_fragment l)) - args_start r) (args_start r)
             else args r) /\
  uri r' = uri r /\ uri_ext r' = uri_ext r /\ uri_end r' = uri_end r.
Proof.
  intros Hle Hnz. revert p Hle. induction n as [|n IH]; intros p Hle; [done |].
  cbn [bytes_at args_loop has_fragment List.existsb before_fragment].
  destruct (Z.eqb_spec (M p) 35) as [E | E]; cbn [orb].
  - cbn. rewrite Z.add_0_r. done.
  - specialize (IH (p + 1) ltac:(lia)). cbn zeta in IH. destruct IH as (H1 & H2 & H3 & H4 & H5).
    split; [exact H1 |]. split; [|done]. rewrite H2. fold (has_fragment (bytes_at M (p + 1) n)).
    destruct (has_fragment _); [|done]. f_equal. cbn [List.length]. lia.
Qed.

Lemma args_loop_exten n M p r : exten (args_loop n M p r) = exten r.
Proof. revert p. induction n; intros p; cbn [args_loop]; [done |]. now destruct (_ =? _). Qed.

Lemma before_fragment_all l : has_fragment l = false -> before_fragment l = l.
Proof.
  induction l as [|c l IH]; [done |]. cbn. destruct (c =? 35); [done |]. cbn. intros H.
  f_equal. now apply IH.
Qed.

Lemma before_fragment_prefix l : exists k, l = before_fragment l ++ k.
Proof.
  induction l as [|c l [k IH]]; [now exists [] |]. cbn. destruct (c =? 35); [now eexists |].
  exists k. cbn. now f_equal.
Qed.

(** Where the path part of a raw URI ends: what the caller's length is about. *)
Definition path_bound (M : mem) (r : request) (q : Z) : Prop :=
  uri_start r < q <= uri_end r /\ (q = uri_end r \/ M q = chr "?").

Lemma complex_uri_spec M r merge q :
  (forall x, byte (M x)) -> 0 < uri_start r -> path_bound M r q ->
  empty_path_in_uri r = false -> M (uri_start r) = chr "/" ->
  data (uri r) + (q - uri_start r) <= uri_start r \/ uri_end r < data (uri r) ->
  0 < data (uri r) ->
  exists rc M' r', ngx_http_parse_complex_uri M r merge = Some (rc, M', r') /\
  match rewrite_path merge (range M (uri_start r) (uri_end r)) with
  | None => rc = NGX_HTTP_PARSE_INVALID_REQUEST
  | Some (ss, pe) =>
      rc = NGX_OK /\ data (uri r') = data (uri r) /\
      range M' (data (uri r)) (data (uri r) + len (uri r')) = join ss /\
      0 <= len (uri r') <= q - uri_start r /\
      (forall y, y < data (uri r) \/ data (uri r) + (q - uri_start r) <= y -> M' y = M y) /\
      uri_end r' = uri_end r /\ uri_ext r' = NULL /\
      (exten r' = exten r \/
       data (uri r) < data (exten r') /\ data (exten r') + len (exten r') = data (uri r) + len (uri r')) /\
      match pe with
      | AtArgs rest => args_bytes M' r' = before_fragment rest
      | _ => args_start r' = NULL
      end
  end.
Proof.
  intros Hb Ha [Hq Hq2] Hem HM Hap Hd.
  pose proof (start_correct M (uri_start r) q (uri_end r) (data (uri r)) (exten r) merge Hb ltac:(lia) Hq2 Hap r
    (cu_fuel r) eq_refl eq_refl eq_refl eq_refl Hem ltac:(lia) HM ltac:(unfold cu_fuel; lia)) as O.
  unfold ngx_http_parse_complex_uri.
  destruct (rewrite_path merge (range M (uri_start r) (uri_end r))) as [[ss pe]|]; cbn [outcome] in O.
  2:{ destruct O as (v & ->). eauto. }
  assert (Hfin : forall v r1, rewritten M (uri_start r) q (uri_end r) (data (uri r)) (exten r) v ss ->
    uri r1 = uri (cu_r v) -> uri_ext r1 = uri_ext (cu_r v) ->
    let r' := cu_finish v r1 in
    data (uri r') = data (uri r) /\
    range (cu_m v) (data (uri r)) (data (uri r) + len (uri r')) = join ss /\
    0 <= len (uri r') <= q - uri_start r /\
    uri_end r' = uri_end r1 /\ uri_ext r' = NULL /\ args_start r' = args_start r1 /\
    args r' = args r1 /\
    (exten r' = exten r1 \/
     data (uri r) < data (exten r') /\ data (exten r') + len (exten r') = data (uri r) + len (uri r'))).
  { intros v r1 [] Hu Hx. unfold cu_finish. rewrite Hu, r_data0.
    change (uri_ext (set_uri _ _)) with (uri_ext r1). rewrite Hx.
    destruct (Z.eqb_spec (uri_ext (cu_r v)) NULL) as [E | E]; cbn.
    all: replace (data (uri r) + (cu_u v - data (uri r))) with (cu_u v) by lia.
    all: split; [done |]; split; [done |]; split; [lia |]; split; [done |]; split; [done |];
      split; [done |]; split; [done |].
    - now left.
    - right. destruct r_ext0 as [|]; [done | lia]. }
  assert (Hmem : forall v, rewritten M (uri_start r) q (uri_end r) (data (uri r)) (exten r) v ss ->
    (forall y, y < data (uri r) \/ data (uri r) + (q - uri_start r) <= y -> cu_m v y = M y) /\
    uri_end (cu_r v) = uri_end r /\ exten (cu_r v) = exten r) by (intros v []; done).
  assert (Hdone : forall v, pe = AtEnd \/ pe = AtFragment ->
    cu_loop (cu_fuel r) merge (cu_start M r) = Some (CuDone v) ->
    rewritten M (uri_start r) q (uri_end r) (data (uri r)) (exten r) v ss ->
    args_start (cu_r v) = NULL ->
    match pe with AtArgs _ => False | _ => args_start (cu_finish v (cu_r v)) = NULL end).
  { intros v Hpe _ R Hn. destruct (Hfin v (cu_r v) R eq_refl eq_refl) as (_ & _ & _ & _ & _ & F & _).
    destruct Hpe as [-> | ->]; congruence. }
  destruct pe as [| | rest].
  1-2: destruct O as (v & E & R & Hn); rewrite E; eexists _, _, _; (split; [reflexivity |]);
    destruct (Hfin v (cu_r v) R eq_refl eq_refl) as (F1 & F2 & F3 & F4 & F5 & F6 & F7 & F8);
    destruct (Hmem v R) as (G1 & G2 & G3);
    (split; [done |]; split; [exact F1 |]; split; [exact F2 |]; split; [exact F3 |]; split; [exact G1 |]);
    (split; [congruence |]; split; [exact F5 |]; split; [rewrite <- G3; exact F8 | congruence]).
  destruct O as (v & -> & R & Hp & Hrest & Hn).
  destruct (args_loop_spec (Z.to_nat (uri_end (cu_r v) - cu_p v)) (cu_m v) (cu_p v) (cu_r v))
    as (A1 & A2 & A3 & A4 & A5); [lia | unfold NULL; lia |].
  set (ra := args_loop _ _ _ _) in *.
  destruct (Hfin v ra R A3 A4) as (F1 & F2 & F3 & F4 & F5 & F6 & F7 & F8).
  destruct (Hmem v R) as (G1 & G2 & G3). rewrite G2 in *.
  assert (El : bytes_at (cu_m v) (cu_p v) (Z.to_nat (uri_end r - cu_p v)) = rest).
  { rewrite Hrest. apply (range_ext (cu_m v) M). intros y Hy. apply G1. lia. }
  rewrite El in *. eexists _, _, _. split; [reflexivity |].
  split; [done |]. split; [exact F1 |]. split; [exact F2 |]. split; [exact F3 |].
  split; [exact G1 |]. split; [congruence |]. split; [exact F5 |].
  assert (Hex : exten ra = exten (cu_r v)) by apply args_loop_exten.
  split; [rewrite <- G3, <- Hex; exact F8 |].
  unfold args_bytes. rewrite F6, A1, F7, A2, F4, A5.
  destruct (has_fragment rest) eqn:Ef; cbn [Z.eqb NULL data len].
  - rewrite Hn. replace (cu_p v + _) with (cu_p v + Z.of_nat (List.length (before_fragment rest))) by lia.
    destruct (before_fragment_prefix rest) as [k Hk].
    assert (Hh : holds (cu_m v) (cu_p v) rest) by (rewrite <- El; apply range_holds).
    rewrite Hk in Hh. apply holds_app in Hh as [Hh _]. now apply holds_range.
  - rewrite Hn. destruct (Z.eqb_spec (cu_p v) NULL) as [|]; [unfold NULL in *; lia |].
    rewrite before_fragment_all by done. exact El.
Qed.

(** ** Clean paths *)

(** Segments a handler may be given. *)
Definition clean (merge : bool) (ss : list (list Z)) : Prop :=
  ss <> [] /\ Forall (fun s => s <> dot /\ s <> dot_dot) ss /\
  (merge = true -> Forall (fun s => s <> []) (List.removelast ss)).

Definition stack_clean (merge : bool) (stack : list (list Z)) : Prop :=
  Forall (fun s => s <> dot /\ s <> dot_dot /\ (merge = true -> s <> [])) stack.

Lemma close_segment_clean merge x stack :
  stack_clean merge (fst x) -> close_segment merge x = Some stack -> stack_clean merge stack.
Proof.
  destruct x as [st cur]. unfold close_segment. cbn [fst]. intros H.
  destruct (decide (cur = dot)); [now intros [= <-] |].
  destruct (decide (cur = dot_dot)).
  { destruct st; [done |]. intros [= <-]. now inversion H. }
  destruct (merge && bool_decide (cur = [])) eqn:E; intros [= <-]; [done |].
  constructor; [|done]. split; [done |]. split; [done |]. intros -> ->. done.
Qed.

Lemma read_bytes_clean merge x l x' :
  stack_clean merge (fst x) -> read_bytes merge x l = Some x' -> stack_clean merge (fst x').
Proof.
  revert x. induction l as [|c l IH]; intros x H; cbn [read_bytes]; [now intros [= <-] |].
  destruct (read_byte merge x c) as [x1|] eqn:E; [|done]. apply IH.
  unfold read_byte in E. destruct (c =? 47); [|now injection E as <-].
  destruct (close_segment merge x) as [st|] eqn:E1; [|done]. injection E as <-.
  now apply (close_segment_clean merge x).
Qed.

Lemma final_clean merge x ss :
  stack_clean merge (fst x) -> final_segments x = Some ss -> clean merge ss.
Proof.
  destruct x as [st cur]. cbn [fst]. unfold final_segments, clean. intros H.
  assert (G : forall st s, stack_clean merge st -> s <> dot -> s <> dot_dot ->
    List.rev st ++ [s] <> [] /\ Forall (fun s => s <> dot /\ s <> dot_dot) (List.rev st ++ [s]) /\
    (merge = true -> Forall (fun s => s <> []) (List.removelast (List.rev st ++ [s])))).
  { intros st' s' H' H1 H2. split; [now destruct (List.rev st') |].
    assert (Hr : Forall (fun s => s <> dot /\ s <> dot_dot /\ (merge = true -> s <> [])) (List.rev st')).
    { apply List.Forall_forall. intros z Hz. apply List.in_rev in Hz.
      unfold stack_clean in H'. rewrite List.Forall_forall in H'. auto. }
    split.
    - apply Forall_app. split; [|now repeat constructor].
      eapply Forall_impl; [|exact Hr]. cbn. tauto.
    - intros Hm. rewrite List.removelast_last. eapply Forall_impl; [|exact Hr]. cbn. tauto. }
  destruct (decide (cur = dot)); [intros [= <-]; now apply G |].
  destruct (decide (cur = dot_dot)).
  { destruct st as [|s0 st]; [done |]. intros [= <-]. apply G; [now inversion H | done | done]. }
  intros [= <-]. now apply G.
Qed.

Lemma rewrite_path_clean merge l ss pe : rewrite_path merge l = Some (ss, pe) -> clean merge ss.
Proof.
  destruct l as [|c l]; cbn [rewrite_path]; [done |]. destruct (c =? 47); [|done].
  unfold rewrite_from. destruct (decode_path l) as [[bs pe']|]; [|done].
  destruct (read_bytes merge ([], []) bs) as [x|] eqn:E; [|done].
  destruct (final_segments x) as [ss'|] eqn:F; [|done]. intros [= <- <-].
  eapply final_clean; [|exact F]. eapply read_bytes_clean; [|exact E]. constructor.
Qed.

(** ** The raw path when no flag is set *)

(** How far the fast parser has read, against the rewriting: the segments read
    so far are the raw bytes. *)
Definition pu_same (merge : bool) (M : mem) (a e q : Z) (x : segments) : Prop :=
  rewrite_path merge (range M a e) = rewrite_from merge x (range M q e) /\
  join (List.rev (fst x) ++ [snd x]) = range M a q.

Definition pu_inv (merge : bool) (M : mem) (a e q : Z) (v : pu_vars) : Prop :=
  let '(s, r) := v in
  a <= q <= e /\
  (complex_uri r = false -> quoted_uri r = false ->
   match s with
   | sw_start => q = a /\ args_start r = NULL
   | sw_after_slash_in_uri =>
       args_start r = NULL /\ a < q /\
       exists x, pu_same merge M a e q x /\ Forall (fun c => c = chr "+") (snd x)
   | sw_check_uri =>
       args_start r = NULL /\ a < q /\
       exists x, pu_same merge M a e q x /\ exists c t, snd x = c :: t /\ c <> chr "."
   | sw_uri =>
       a < args_start r <= q /\
       exists ss, rewrite_path merge (range M a e) = Some (ss, AtArgs (range M (args_start r) e)) /\
         join ss = range M a (args_start r - 1)
   end).

Lemma pu_same_step merge M a e q x x' :
  a <= q < e -> pu_same merge M a e q x ->
  M q <> chr "%" -> M q <> chr "?" -> M q <> chr "#" -> read_byte merge x (M q) = Some x' ->
  join (List.rev (fst x') ++ [snd x']) = join (List.rev (fst x) ++ [snd x]) ++ [M q] ->
  pu_same merge M a e (q + 1) x'.
Proof.
  intros Hq [H1 H2] N1 N2 N3 Hr Hj. split.
  - rewrite H1, (range_cons M q) by lia. rewrite rewrite_from_cons by done. now rewrite Hr.
  - rewrite Hj, H2, range_snoc by lia. done.
Qed.

Lemma pu_same_char merge M a e q x :
  a <= q < e -> pu_same merge M a e q x ->
  M q <> chr "/" -> M q <> chr "%" -> M q <> chr "?" -> M q <> chr "#" ->
  pu_same merge M a e (q + 1) (fst x, snd x ++ [M q]).
Proof.
  intros Hq H N0 N1 N2 N3. apply (pu_same_step merge M a e q x); auto.
  - unfold read_byte. now rewrite (proj2 (Z.eqb_neq _ _) N0).
  - apply join_snoc.
Qed.

Lemma pu_same_query merge M a e q x :
  a <= q < e -> pu_same merge M a e q x -> M q = chr "?" -> snd x <> dot -> snd x <> dot_dot ->
  exists ss, rewrite_path merge (range M a e) = Some (ss, AtArgs (range M (q + 1) e)) /\
    join ss = range M a q.
Proof.
  intros Hq [H1 H2] E D1 D2. exists (List.rev (fst x) ++ [snd x]). split; [|done].
  rewrite H1, range_cons by lia. unfold rewrite_from. cbn [decode_path]. rewrite E.
  cbn [Z.eqb Pos.eqb read_bytes]. destruct x as [st cur]. cbn [final_segments fst snd] in *.
  now rewrite !decide_False by done.
Qed.

Lemma pu_inv_step merge M a e q v v' :
  (forall x, byte (M x)) -> 0 < a -> q < e ->
  pu_inv merge M a e q v -> pu_step M q v = Next v' -> pu_inv merge M a e (q + 1) v'.
Proof.
  intros Hb Ha Hqe. destruct v as [s r]. unfold pu_step. cbn [fst snd].
  pose proof (usual_not _ (Hb q)) as Hu. intros [Hq HI] H.
  assert (Hchar : forall x, pu_same merge M a e q x -> M q <> chr "/" -> M q <> chr "%" ->
    M q <> chr "?" -> M q <> chr "#" -> pu_same merge M a e (q + 1) (fst x, snd x ++ [M q]))
    by (intros; apply pu_same_char; auto; lia).
  assert (Hafter : forall (x : segments) c, Forall (fun c => c = chr "+") (snd x) -> c <> chr "." ->
    exists c0 t, snd (fst x, snd x ++ [c]) = c0 :: t /\ c0 <> chr ".").
  { intros [st cur] c Hf Hc. cbn [fst snd] in *. destruct cur as [|c0 t]; [now exists c, [] |].
    apply Forall_cons_1 in Hf as [-> _]. now eexists _, _. }
  assert (Hcheck : forall (x : segments) c, (exists c0 t, snd x = c0 :: t /\ c0 <> chr ".") ->
    exists c0 t, snd (fst x, snd x ++ [c]) = c0 :: t /\ c0 <> chr ".").
  { intros x c (c0 & t & E & Hc). cbn [snd]. rewrite E. now eexists _, _. }
  destruct s.
  - destruct (Z.eqb_spec (M q) 47) as [E |]; [|done]. injection H as <-. split; [lia |].
    intros Hc Hqu. destruct (HI Hc Hqu) as [-> Hargs]. split; [done |]. split; [lia |].
    exists ([], []). split; [|done]. split.
    + now rewrite (range_cons M a), E by lia.
    + rewrite range_snoc, range_nil, E by lia. done.
  - unfold pu_after_slash in H.
    destruct (is_usual (M q)) eqn:Eu.
    { injection H as <-. specialize (Hu eq_refl). split; [lia |]. intros Hc Hqu.
      destruct (HI Hc Hqu) as (H1 & H2 & x & Hx & Hf). split; [done |]. split; [lia |].
      exists (fst x, snd x ++ [M q]). split; [apply Hchar; tauto | apply Hafter; tauto]. }
    cases_of_eq H; try discriminate H; injection H as <-; split; try lia; intros Hc Hqu;
      try discriminate Hc; try discriminate Hqu; destruct (HI Hc Hqu) as (H1 & H2 & x & Hx & Hf).
    + cbn. split; [lia |]. replace (q + 1 - 1) with q by lia.
      apply (pu_same_query merge M a e q x); auto; [lia | lia | |].
      all: intros E; rewrite E in Hf; now inversion Hf.
    + split; [done |]. split; [lia |]. exists (fst x, snd x ++ [M q]).
      split; [apply Hchar; auto; lia |]. cbn [snd]. apply Forall_app. split; [done |].
      constructor; [lia | constructor].
    + split; [done |]. split; [lia |]. exists (fst x, snd x ++ [M q]).
      split; [apply Hchar; auto; lia | apply Hafter; auto; lia].
  - unfold pu_check in H.
    destruct (is_usual (M q)) eqn:Eu.
    { injection H as <-. specialize (Hu eq_refl). split; [lia |]. intros Hc Hqu.
      destruct (HI Hc Hqu) as (H1 & H2 & x & Hx & Hf). split; [done |]. split; [lia |].
      exists (fst x, snd x ++ [M q]). split; [apply Hchar; tauto | apply Hcheck; tauto]. }
    cases_of_eq H; try discriminate H; injection H as <-; split; try lia; intros Hc Hqu;
      try discriminate Hc; try discriminate Hqu; destruct (HI Hc Hqu) as (H1 & H2 & x & Hx & Hf).
    + assert (E : M q = 47) by lia. split; [done |]. split; [lia |].
      destruct x as [st cur]. destruct Hf as (c0 & t & Ec & Hc0). cbn [snd] in Ec. subst cur.
      exists ((c0 :: t) :: st, []). split; [|constructor].
      apply (pu_same_step merge M a e q (st, c0 :: t)); try (lia || done).
      * rewrite E. unfold read_byte, close_segment. cbn [Z.eqb Pos.eqb].
        rewrite !decide_False by (unfold dot, dot_dot; congruence).
        rewrite bool_decide_eq_false_2, andb_false_r by done. done.
      * rewrite E. cbn [fst snd List.rev]. rewrite <- app_assoc. apply join_slash.
    + split; [done |]. split; [lia |]. exists (fst x, snd x ++ [M q]).
      split; [apply Hchar; auto; lia | now apply Hcheck].
    + cbn. split; [lia |]. replace (q + 1 - 1) with q by lia.
      destruct Hf as (c0 & t & Ec & Hc0).
      apply (pu_same_query merge M a e q x); auto; [lia | lia | |];
        rewrite Ec; unfold dot, dot_dot; congruence.
    + split; [done |]. split; [lia |]. exists (fst x, snd x ++ [M q]).
      split; [apply Hchar; auto; lia | now apply Hcheck].
    + split; [done |]. split; [lia |]. exists (fst x, snd x ++ [M q]).
      split; [apply Hchar; auto; lia | now apply Hcheck].
  - unfold pu_uri in H. cases_of_eq H; try discriminate H; injection H as <-; split; try lia;
      intros Hc Hqu; try discriminate Hc; destruct (HI Hc Hqu) as (H1 & H2); (split; [lia | done]).
Qed.

(** The raw path when neither flag is set: the part before the arguments. *)
Lemma raw_path_same merge M r r' :
  (forall x, byte (M x)) -> 0 < uri_start r < uri_end r -> args_start r = NULL ->
  ngx_http_parse_uri M r = (NGX_OK, r') -> complex_uri r' = false -> quoted_uri r' = false ->
  exists ss pe, rewrite_path merge (range M (uri_start r) (uri_end r)) = Some (ss, pe) /\
    join ss = range M (uri_start r) (uri_start r + raw_path_len (set_uri_start (uri_start r)
                                                     (set_uri_end (uri_end r) r'))) /\
    pe = (if args_start r' =? NULL then AtEnd else AtArgs (range M (args_start r') (uri_end r))).
Proof.
  intros Hb Ha Hn H Hc Hq. unfold ngx_http_parse_uri, run_buf in H. cbn [pos last] in H.
  pose proof (run_invariant pu_step (pu_inv merge M (uri_start r) (uri_end r))
    (Z.to_nat (uri_end r - uri_start r)) M (uri_start r) (sw_start, r)) as G.
  destruct (run _ _ _ _ _) as [[s r1] p | rc p].
  2:{ exfalso. destruct G as ([s r1] & _ & Es & _).
      - split; [lia |]. done.
      - intros q t t' Hqr. apply pu_inv_step; [done | lia | lia].
      - injection H as -> _. unfold pu_step in Es. destruct s; cbn [fst snd] in Es;
          unfold pu_after_slash, pu_check, pu_uri in Es; cases_of Es; discriminate Es. }
  destruct G as [[Hp G] Hpe].
  { split; [lia |]. done. }
  { intros q t t' Hqr. apply pu_inv_step; [done | lia | lia]. }
  injection H as <-. assert (p = uri_end r) as -> by lia.
  specialize (G Hc Hq). cbn [snd]. unfold raw_path_len.
  change (args_start (set_uri_start _ _)) with (args_start r1).
  change (uri_end (set_uri_start _ _)) with (uri_end r).
  change (uri_start (set_uri_start _ _)) with (uri_start r).
  assert (Hend : forall x, pu_same merge M (uri_start r) (uri_end r) (uri_end r) x ->
    snd x <> dot -> snd x <> dot_dot ->
    exists ss, rewrite_path merge (range M (uri_start r) (uri_end r)) = Some (ss, AtEnd) /\
      join ss = range M (uri_start r) (uri_end r)).
  { intros [st cur] [S1 S2] D1 D2. exists (List.rev st ++ [cur]). split; [|exact S2].
    rewrite S1, range_nil by lia. unfold rewrite_from. cbn [decode_path read_bytes final_segments].
    cbn [snd] in D1, D2. now rewrite !decide_False by done. }
  assert (Hend' : forall x, pu_same merge M (uri_start r) (uri_end r) (uri_end r) x ->
    snd x <> dot -> snd x <> dot_dot -> args_start r1 = NULL ->
    exists ss pe, rewrite_path merge (range M (uri_start r) (uri_end r)) = Some (ss, pe) /\
      join ss = range M (uri_start r) (uri_start r + (if args_start r1 =? NULL then uri_end r - uri_start r
                  else args_start r1 - 1 - uri_start r)) /\
      pe = (if args_start r1 =? NULL then AtEnd else AtArgs (range M (args_start r1) (uri_end r)))).
  { intros x Hx D1 D2 ->. destruct (Hend x Hx D1 D2) as (ss & E1 & E2). exists ss, AtEnd.
    cbn [NULL Z.eqb]. split; [done |]. split; [|done]. rewrite E2. f_equal. lia. }
  destruct s.
  - exfalso. lia.
  - destruct G as (G1 & G2 & x & Hx & Hf). apply (Hend' x Hx); [| | done];
      intros E; rewrite E in Hf; now inversion Hf.
  - destruct G as (G1 & G2 & x & Hx & c & t & E & Hc0). apply (Hend' x Hx); [| | done];
      rewrite E; unfold dot, dot_dot; congruence.
  - destruct G as (G1 & ss & E1 & E2). exists ss, (AtArgs (range M (args_start r1) (uri_end r))).
    rewrite (proj2 (Z.eqb_neq (args_start r1) NULL)) by (unfold NULL; lia).
    split; [done |]. split; [|done]. rewrite E2. f_equal. lia.
Qed.

Lemma parse_uri_keeps M r r' :
  ngx_http_parse_uri M r = (NGX_OK, r') ->
  uri_start r' = uri_start r /\ uri_end r' = uri_end r /\ empty_path_in_uri r' = empty_path_in_uri r.
Proof.
  unfold ngx_http_parse_uri, run_buf. cbn [pos last].
  pose proof (run_invariant pu_step (fun _ v => uri_start (snd v) = uri_start r /\
    uri_end (snd v) = uri_end r /\ empty_path_in_uri (snd v) = empty_path_in_uri r)
    (Z.to_nat (uri_end r - uri_start r)) M (uri_start r) (sw_start, r)) as G.
  destruct (run _ _ _ _ _) as [[s r1] p | rc p]; [|now intros [= _ <-]].
  intros [= <-]. apply G; [done |]. clear. intros q [s t] [s' t'] _ H. unfold pu_step.
  destruct s; cbn [fst snd]; unfold pu_after_slash, pu_check, pu_uri; intros E; cases_of E;
    try discriminate E; injection E as <- <-; exact H.
Qed.

(** ** The request's URI *)

(** What the request line parsers leave: a path from '/', and [args_start],
    when set, right after a '?'. *)
Definition raw_request (M : mem) (r : request) : Prop :=
  0 < uri_start r < uri_end r /\ M (uri_start r) = chr "/" /\ empty_path_in_uri r = false /\
  (args_start r = NULL \/
   uri_start r < args_start r - 1 < uri_end r /\ M (args_start r - 1) = chr "?").

(** A block of [n] bytes at [d] away from the URI and the byte after it. *)
Definition block_apart (r : request) (d n : Z) : Prop :=
  0 < d /\ (d + n <= uri_start r \/ uri_end r < d).

Definition str_bytes (M : mem) (s : ngx_str) : list Z := range M (data s) (data s + len s).

Lemma raw_request_bound M r :
  raw_request M r -> path_bound M r (uri_start r + raw_path_len r).
Proof.
  intros (H1 & H2 & H3 & H4). unfold path_bound, raw_path_len.
  destruct (Z.eqb_spec (args_start r) NULL) as [E | E].
  - split; [lia |]. left. lia.
  - destruct H4 as [|[H4 H5]]; [done |]. split; [lia |]. right. rewrite <- H5. f_equal. lia.
Qed.

(** The assignments after the path leave it alone. *)
Lemma uri_tail_spec M r :
  uri_ext r = NULL ->
  uri (uri_tail r) = uri r /\ str_bytes M (unparsed_uri (uri_tail r)) = range M (uri_start r) (uri_end r) /\
  exten (uri_tail r) = exten r /\
  (args_bytes M r <> [] -> str_bytes M (args (uri_tail r)) = args_bytes M r).
Proof.
  intros Hx. unfold uri_tail. change (uri_ext (set_valid_unparsed_uri _ _)) with (uri_ext r).
  rewrite Hx. cbn [Z.eqb NULL].
  set (r1 := set_valid_unparsed_uri _ _).
  change (args_start r1) with (args_start r). change (uri_end r1) with (uri_end r).
  assert (Hu : str_bytes M (unparsed_uri r1) = range M (uri_start r) (uri_end r)).
  { unfold str_bytes. cbn. f_equal. lia. }
  unfold args_bytes, NULL in *. destruct (Z.eqb_spec (args_start r) 0) as [E | E]; cbn [negb andb].
  - split; [done |]. split; [exact Hu |]. split; [done |]. done.
  - destruct (Z.ltb_spec (args_start r) (uri_end r)).
    + split; [done |]. split; [exact Hu |]. split; [done |]. intros _. unfold str_bytes. cbn.
      f_equal. lia.
    + split; [done |]. split; [exact Hu |]. split; [done |]. rewrite range_nil by lia. done.
Qed.

Lemma process_spec alloc M r merge d :
  (forall x, byte (M x)) -> raw_request M r -> complex_uri r || quoted_uri r = true ->
  alloc (raw_path_len r) = Some d -> block_apart r d (raw_path_len r) ->
  match rewrite_path merge (range M (uri_start r) (uri_end r)) with
  | None => exists M' r', ngx_http_process_request_uri alloc M r merge = Some (UriBadRequest M' r')
  | Some (ss, pe) =>
      exists M' r', ngx_http_process_request_uri alloc M r merge = Some (UriOk M' r') /\
        str_bytes M' (uri r') = join ss /\
        data (uri r') = d /\ 0 <= len (uri r') <= raw_path_len r /\
        (forall y, y < d \/ d + raw_path_len r <= y -> M' y = M y) /\
        (exten r' = exten r \/
         d < data (exten r') /\ data (exten r') + len (exten r') = d + len (uri r')) /\
        match pe with
        | AtArgs rest => before_fragment rest <> [] -> str_bytes M' (args r') = before_fragment rest
        | _ => True
        end
  end.
Proof.
  intros Hb Hr Hf Hal [Hd Hap]. pose proof (raw_request_bound M r Hr) as Hq.
  destruct Hr as (H1 & H2 & H3 & H4). unfold ngx_http_process_request_uri.
  set (r0 := set_uri (mk_str (raw_path_len r) (data (uri r))) r).
  change (complex_uri r0) with (complex_uri r). change (quoted_uri r0) with (quoted_uri r).
  change (empty_path_in_uri r0) with (empty_path_in_uri r). rewrite H3, Hf. cbn [orb].
  change (len (uri r0)) with (raw_path_len r). rewrite Z.add_0_r, Hal.
  set (r1 := set_uri (mk_str (raw_path_len r) d) r0).
  pose proof (complex_uri_spec M r1 merge (uri_start r + raw_path_len r) Hb (proj1 H1) Hq H3 H2) as G.
  change (data (uri r1)) with d in G. change (uri_start r1) with (uri_start r) in G.
  change (uri_end r1) with (uri_end r) in G. change (exten r1) with (exten r) in G.
  replace (uri_start r + raw_path_len r - uri_start r) with (raw_path_len r) in G by lia.
  destruct (G Hap Hd) as (rc & M' & r' & -> & S).
  destruct (rewrite_path merge _) as [[ss pe]|].
  - destruct S as (-> & S1 & S2 & S3 & S4 & S5 & S6 & S7 & S8). cbn [Z.eqb NGX_OK].
    destruct (uri_tail_spec M' r' S6) as (T1 & T2 & T3 & T4).
    exists M', (uri_tail r'). split; [done |]. unfold str_bytes at 1. rewrite T1, T3, S1.
    split; [exact S2 |]. split; [done |]. split; [exact S3 |]. split; [exact S4 |].
    split; [exact S7 |]. destruct pe; try done. rewrite <- S8. exact T4.
  - subst rc. cbn. eauto.
Qed.

(** ** Properties *)

(** C1: a URI with escapes or dot segments is rewritten to what its
    specification says, escapes decoded once, "." and ".." resolved, a ".."
    above the root or a malformed escape refused with 400; the result is
    written inside the block allocated for it and nowhere else, the extension
    is a suffix of it, and the arguments are those of the raw URI up to a
    fragment.  The parser terminates on every input. *)
Theorem process_request_uri_rewrites alloc M r merge d :
  (forall x, byte (M x)) -> raw_request M r -> complex_uri r || quoted_uri r = true ->
  alloc (raw_path_len r) = Some d -> block_apart r d (raw_path_len r) ->
  match rewrite_path merge (range M (uri_start r) (uri_end r)) with
  | None => exists M' r', ngx_http_process_request_uri alloc M r merge = Some (UriBadRequest M' r')
  | Some (ss, pe) =>
      exists M' r', ngx_http_process_request_uri alloc M r merge = Some (UriOk M' r') /\
        str_bytes M' (uri r') = join ss /\
        data (uri r') = d /\ 0 <= len (uri r') <= raw_path_len r /\
        (forall y, y < d \/ d + raw_path_len r <= y -> M' y = M y) /\
        (exten r' = exten r \/
         d < data (exten r') /\ data (exten r') + len (exten r') = d + len (uri r')) /\
        match pe with
        | AtArgs rest => before_fragment rest <> [] -> str_bytes M' (args r') = before_fragment rest
        | _ => True
        end
  end.
Proof. apply process_spec. Qed.

(** Whatever URI a client sends, a rewritten path is never outside the
    document root: none of its segments is "." or "..", and with merged slashes
    none but the last is empty. *)
Theorem process_request_uri_clean alloc M r merge d M' r' :
  (forall x, byte (M x)) -> raw_request M r -> complex_uri r || quoted_uri r = true ->
  alloc (raw_path_len r) = Some d -> block_apart r d (raw_path_len r) ->
  ngx_http_process_request_uri alloc M r merge = Some (UriOk M' r') ->
  exists ss, str_bytes M' (uri r') = join ss /\ clean merge ss.
Proof.
  intros Hb Hr Hf Hal Hap H. pose proof (process_spec alloc M r merge d Hb Hr Hf Hal Hap) as G.
  destruct (rewrite_path merge _) as [[ss pe]|] eqn:E.
  - destruct G as (M1 & r1 & G & Hs & _). rewrite H in G. injection G as <- <-.
    exists ss. split; [exact Hs |]. eapply rewrite_path_clean, E.
  - destruct G as (M1 & r1 & G). rewrite H in G. discriminate G.
Qed.

(** a URI for which [ngx_http_parse_uri] sets neither flag is used as it
    is, and that is right: rewriting it would have given the same path and the
    same arguments, so the raw path is clean too. *)
Theorem raw_path_is_rewritten_path merge alloc M r r' :
  (forall x, byte (M x)) -> 0 < uri_start r < uri_end r -> args_start r = NULL ->
  empty_path_in_uri r = false ->
  ngx_http_parse_uri M r = (NGX_OK, r') -> complex_uri r' = false -> quoted_uri r' = false ->
  exists ss r'', ngx_http_process_request_uri alloc M r' merge = Some (UriOk M r'') /\
    str_bytes M (uri r'') = join ss /\ clean merge ss /\
    rewrite_path merge (range M (uri_start r) (uri_end r)) =
      Some (ss, if args_start r' =? NULL then AtEnd else AtArgs (range M (args_start r') (uri_end r))).
Proof.
  intros Hb Ha Hn He H Hc Hq. destruct (parse_uri_keeps _ _ _ H) as (Hs & Hend & He').
  rewrite He in He'.
  destruct (raw_path_same merge M r r' Hb Ha Hn H Hc Hq) as (ss & pe & E & J & ->).
  unfold ngx_http_process_request_uri. set (r0 := set_uri _ r').
  change (complex_uri r0) with (complex_uri r'). change (quoted_uri r0) with (quoted_uri r').
  change (empty_path_in_uri r0) with (empty_path_in_uri r'). rewrite Hc, Hq, He'. cbn [orb].
  eexists ss, _. split; [reflexivity |]. split; [|split; [eapply rewrite_path_clean, E | exact E]].
  rewrite J. unfold raw_path_len in J |- *.
  change (args_start (set_uri_start _ _)) with (args_start r').
  change (uri_end (set_uri_start _ _)) with (uri_end r).
  change (uri_start (set_uri_start _ _)) with (uri_start r).
  rewrite <- Hs, <- Hend. unfold str_bytes, uri_tail.
  destruct (uri_ext _ =? NULL); destruct (_ && _); reflexivity.
Qed.

(** ** Witnesses *)

Definition ex_uri : list Z := str "/a/b/../c/%2e%2e/x%3fy.html?k=%20v#f".
Definition ex_mem : mem := mem_of 100 (ex_uri ++ str " ").
Definition ex_request : request :=
  set_quoted_uri true (set_uri_end 136 (set_uri_start 100 (request0 false))).
Definition ex_alloc (n : Z) : option Z := Some 1000.

Lemma ex_uri_byte x : byte (ex_mem x).
Proof. now apply mem_of_byte. Qed.

Lemma ex_raw_request : raw_request ex_mem ex_request.
Proof. split; [cbn; lia |]. split; [reflexivity |]. split; [reflexivity | now left]. Qed.

Lemma ex_apart : block_apart ex_request 1000 (raw_path_len ex_request).
Proof. split; [lia |]. right. reflexivity. Qed.

Lemma process_request_uri_rewrites_witness :
  exists M' r', ngx_http_process_request_uri ex_alloc ex_mem ex_request true = Some (UriOk M' r') /\
    str_bytes M' (uri r') = str "/a/x?y.html" /\ data (uri r') = 1000 /\
    0 <= len (uri r') <= 36 /\
    (forall y, y < 1000 \/ 1000 + 36 <= y -> M' y = ex_mem y) /\
    (exten r' = mk_str 0 NULL \/
     1000 < data (exten r') /\ data (exten r') + len (exten r') = 1000 + len (uri r')) /\
    (str "k=%20v" <> [] -> str_bytes M' (args r') = str "k=%20v").
Proof.
  apply (process_request_uri_rewrites ex_alloc ex_mem ex_request true 1000).
  - apply ex_uri_byte.
  - apply ex_raw_request.
  - reflexivity.
  - reflexivity.
  - apply ex_apart.
Defined.

Definition ex_result : mem * request :=
  match ngx_http_process_request_uri ex_alloc ex_mem ex_request true with
  | Some (UriOk M' r') => (M', r')
  | _ => (ex_mem, ex_request)
  end.

Lemma process_request_uri_clean_witness :
  exists ss, str_bytes (fst ex_result) (uri (snd ex_result)) = join ss /\ clean true ss.
Proof.
  apply (process_request_uri_clean ex_alloc ex_mem ex_request true 1000 (fst ex_result) (snd ex_result)).
  - apply ex_uri_byte.
  - apply ex_raw_request.
  - reflexivity.
  - reflexivity.
  - apply ex_apart.
  - vm_compute. reflexivity.
Defined.

Definition ex_plain : mem := mem_of 100 (str "/a/b.html?x=%2e ").
Definition ex_plain_request : request := set_uri_end 115 (set_uri_start 100 (request0 false)).

Lemma raw_path_is_rewritten_path_witness :
  exists ss r'', ngx_http_process_request_uri ex_alloc ex_plain
                   (snd (ngx_http_parse_uri ex_plain ex_plain_request)) true = Some (UriOk ex_plain r'') /\
    str_bytes ex_plain (uri r'') = join ss /\ clean true ss /\
    rewrite_path true (str "/a/b.html?x=%2e") = Some (ss, AtArgs (str "x=%2e")).
Proof.
  apply (raw_path_is_rewritten_path true ex_alloc ex_plain ex_plain_request
           (snd (ngx_http_parse_uri ex_plain ex_plain_request))); try reflexivity.
  - intros x. now apply mem_of_byte.
  - cbn. lia.
Defined.

End Uri.
