(* ===== verification/NgxNumber.v ===== *)
(** Numbers in text: the [ngx_ato*] family, [ngx_atofp], [ngx_hextoi] and
    [ngx_hex_dump] (src/core/ngx_string.c), [ngx_parse_size] and
    [ngx_parse_offset] (src/core/ngx_parse.c).  A line is the list of its
    bytes. *)
From S2P Require Import Prelude HttpRequest.

Module Number.

(** ** Decimal *)

(** The loop shared by [ngx_atoi], [ngx_atosz], [ngx_atoof] and [ngx_atotm],
    which differ in the type of [value] only. *)
Fixpoint ato_loop (cutoff cutlim value : Z) (line : list Z) : Z :=
  match line with
  | [] => value
  | c :: line' =>
      if (c <? chr "0") || (chr "9" <? c) then NGX_ERROR
      else if (cutoff <=? value) && ((cutoff <? value) || (cutlim <? c - chr "0")) then NGX_ERROR
      else ato_loop cutoff cutlim (value * 10 + (c - chr "0")) line'
  end.

Definition ato (max : Z) (line : list Z) : Z :=
  match line with
  | [] => NGX_ERROR
  | _ => ato_loop (max / 10) (max mod 10) 0 line
  end.

Definition ngx_atoi : list Z -> Z := ato NGX_MAX_INT_T_VALUE.
Definition ngx_atosz : list Z -> Z := ato NGX_MAX_SIZE_T_VALUE.
Definition ngx_atoof : list Z -> Z := ato NGX_MAX_OFF_T_VALUE.
Definition ngx_atotm : list Z -> Z := ato NGX_MAX_TIME_T_VALUE.

(** ** Fixed point *)

(** The first loop of [ngx_atofp]: [None] is [return NGX_ERROR], else [value]
    and [point]. *)
Fixpoint atofp_loop (value : Z) (point : nat) (dot : bool) (line : list Z) : option (Z * nat) :=
  match line with
  | [] => Some (value, point)
  | c :: line' =>
      if (point =? 0)%nat then None
      else if c =? chr "." then
        if dot then None else atofp_loop value point true line'
      else if (c <? chr "0") || (chr "9" <? c) then None
      else if (NGX_MAX_INT_T_VALUE / 10 <=? value)
              && ((NGX_MAX_INT_T_VALUE / 10 <? value) || (NGX_MAX_INT_T_VALUE mod 10 <? c - chr "0"))
      then None
      else atofp_loop (value * 10 + (c - chr "0")) (if dot then point - 1 else point)%nat dot line'
  end.

(** [while (point--) { if (value > cutoff) return NGX_ERROR; value *= 10; }] *)
Fixpoint atofp_scale (point : nat) (value : Z) : Z :=
  match point with
  | O => value
  | S point' =>
      if NGX_MAX_INT_T_VALUE / 10 <? value then NGX_ERROR else atofp_scale point' (value * 10)
  end.

Definition ngx_atofp (line : list Z) (point : nat) : Z :=
  match line with
  | [] => NGX_ERROR
  | _ =>
      match atofp_loop 0 point false line with
      | None => NGX_ERROR
      | Some (value, point') => atofp_scale point' value
      end
  end.

(** ** Hexadecimal *)

Fixpoint hextoi_loop (value : Z) (line : list Z) : Z :=
  match line with
  | [] => value
  | ch :: line' =>
      if NGX_MAX_INT_T_VALUE / 16 <? value then NGX_ERROR
      else if (chr "0" <=? ch) && (ch <=? chr "9") then hextoi_loop (value * 16 + (ch - chr "0")) line'
      else
        let c := Z.lor ch 0x20 in
        if (chr "a" <=? c) && (c <=? chr "f") then hextoi_loop (value * 16 + (c - chr "a" + 10)) line'
        else NGX_ERROR
  end.

Definition ngx_hextoi (line : list Z) : Z :=
  match line with
  | [] => NGX_ERROR
  | _ => hextoi_loop 0 line
  end.

(** [hex[v]] for [hex] = "0123456789abcdef" *)
Definition hex_char (v : Z) : Z := List.nth (Z.to_nat v) (str "0123456789abcdef") 0.

(** [ngx_hex_dump(dst, src, len)]: the bytes written. *)
Fixpoint ngx_hex_dump (src : list Z) : list Z :=
  match src with
  | [] => []
  | b :: src' => hex_char (Z.shiftr b 4) :: hex_char (Z.land b 0xf) :: ngx_hex_dump src'
  end.

(** ** Sizes with a unit *)

(** The unit's [scale]; [None] for no unit. *)
Definition size_unit (unit : Z) : option Z :=
  if (unit =? chr "K") || (unit =? chr "k") then Some 1024
  else if (unit =? chr "M") || (unit =? chr "m") then Some (1024 * 1024)
  else None.

Definition offset_unit (unit : Z) : option Z :=
  match size_unit unit with
  | Some s => Some s
  | None =>
      if (unit =? chr "G") || (unit =? chr "g") then Some (1024 * 1024 * 1024) else None
  end.

(** What [ngx_parse_size] and [ngx_parse_offset] have in common. *)
Definition parse_scaled (unit : Z -> option Z) (max : Z) (atox : list Z -> Z) (line : list Z) : Z :=
  match line with
  | [] => NGX_ERROR
  | _ =>
      let '(n, mx, scale) :=
        match unit (List.last line 0) with
        | Some s => (List.removelast line, max / s, s)
        | None => (line, max, 1)
        end in
      let size := atox n in
      if (size =? NGX_ERROR) || (mx <? size) then NGX_ERROR else size * scale
  end.

Definition ngx_parse_size : list Z -> Z := parse_scaled size_unit NGX_MAX_SIZE_T_VALUE ngx_atosz.
Definition ngx_parse_offset : list Z -> Z := parse_scaled offset_unit NGX_MAX_OFF_T_VALUE ngx_atoof.

(** ** Specification *)

(** The number a string of decimal digits denotes. *)
Fixpoint decimal_from (acc : Z) (l : list Z) : option Z :=
  match l with
  | [] => Some acc
  | c :: l' => if is_digit c then decimal_from (acc * 10 + (c - chr "0")) l' else None
  end.

Definition decimal (l : list Z) : option Z :=
  match l with
  | [] => None
  | _ => decimal_from 0 l
  end.

(** [n] if it can be represented, else [NGX_ERROR]. *)
Definition in_range (max : Z) (n : option Z) : Z :=
  match n with
  | Some v => if v <=? max then v else NGX_ERROR
  | None => NGX_ERROR
  end.

(** The value of a hexadecimal digit. *)
Definition hex_digit (ch : Z) : option Z :=
  if (chr "0" <=? ch) && (ch <=? chr "9") then Some (ch - chr "0")
  else
    let c := Z.lor ch 0x20 in
    if (chr "a" <=? c) && (c <=? chr "f") then Some (c - chr "a" + 10) else None.

Fixpoint hexadecimal_from (acc : Z) (l : list Z) : option Z :=
  match l with
  | [] => Some acc
  | c :: l' =>
      match hex_digit c with
      | Some d => hexadecimal_from (acc * 16 + d) l'
      | None => None
      end
  end.

(** ** Lemmas *)

Lemma decimal_from_ge acc l n : 0 <= acc -> decimal_from acc l = Some n -> acc <= n.
Proof.
  revert acc. induction l as [|c l IH]; intros acc H; cbn [decimal_from].
  - intros [= ->]. lia.
  - unfold is_digit. destruct (_ && _) eqn:E; [|done]. intros G%IH; lia.
Qed.

Lemma ato_loop_spec max value line :
  0 <= max -> 0 <= value <= max ->
  ato_loop (max / 10) (max mod 10) value line = in_range max (decimal_from value line).
Proof.
  intros Hm. pose proof (Z.div_mod max 10 ltac:(lia)) as Hdm.
  pose proof (Z.mod_pos_bound max 10 ltac:(lia)) as Hmod.
  revert value. induction line as [|c line IH]; intros value Hv; cbn [ato_loop decimal_from].
  - cbn. destruct (Z.leb_spec value max); [done | lia].
  - unfold is_digit.
    destruct ((c <? 48) || (57 <? c)) eqn:Ed; destruct ((48 <=? c) && (c <=? 57)) eqn:Ed';
      try (exfalso; lia); [done |].
    destruct ((max / 10 <=? value) && _) eqn:Ec.
    + destruct (decimal_from (value * 10 + (c - 48)) line) as [n|] eqn:En; [|done].
      apply decimal_from_ge in En; [|lia]. cbn. destruct (Z.leb_spec n max); [|done]. lia.
    + apply IH. lia.
Qed.

Lemma ato_spec max line : 0 <= max -> ato max line = in_range max (decimal line).
Proof. intros H. destruct line; [done |]. apply ato_loop_spec; lia. Qed.

Lemma in_range_cases max n : in_range max n = NGX_ERROR \/ (exists v, n = Some v /\ v <= max /\ in_range max n = v).
Proof.
  destruct n as [v|]; cbn; [|now left]. destruct (Z.leb_spec v max); [right | now left].
  now exists v.
Qed.

Lemma decimal_nonneg l n : decimal l = Some n -> 0 <= n.
Proof. destruct l; [done |]. apply decimal_from_ge. lia. Qed.

Lemma parse_scaled_spec unit max line :
  0 <= max -> (forall c s, unit c = Some s -> 0 < s) ->
  parse_scaled unit max (ato max) line =
  in_range max
    match line with
    | [] => None
    | _ => match unit (List.last line 0) with
           | Some s => option_map (fun n => n * s) (decimal (List.removelast line))
           | None => decimal line
           end
    end.
Proof.
  intros Hm Hu. unfold parse_scaled. destruct line as [|c line]; [done |].
  set (l := c :: line). destruct (unit (List.last l 0)) as [s|] eqn:E.
  - specialize (Hu _ _ E). rewrite ato_spec by done.
    destruct (decimal (List.removelast l)) as [n|] eqn:En; [|done].
    apply decimal_nonneg in En. cbn [option_map in_range].
    pose proof (Z.mul_div_le max s Hu) as H1. pose proof (Z.mul_succ_div_gt max s Hu) as H2.
    destruct (Z.leb_spec n max) as [Hn | Hn].
    + unfold NGX_ERROR. replace (n =? -1) with false by lia. cbn [orb].
      destruct (Z.ltb_spec (max / s) n); destruct (Z.leb_spec (n * s) max); try done; nia.
    + cbn. destruct (Z.leb_spec (n * s) max); [nia | done].
  - rewrite ato_spec by done. destruct (decimal l) as [n|] eqn:En; [|done].
    apply decimal_nonneg in En. cbn [in_range]. destruct (Z.leb_spec n max) as [Hn | Hn]; [|done].
    unfold NGX_ERROR. replace (n =? -1) with false by lia. cbn [orb].
    destruct (Z.ltb_spec max n); lia.
Qed.

Lemma size_unit_pos c s : size_unit c = Some s -> 0 < s.
Proof. unfold size_unit. intros H. cases_of H; simplify_eq; lia. Qed.

Lemma offset_unit_pos c s : offset_unit c = Some s -> 0 < s.
Proof.
  unfold offset_unit. destruct (size_unit c) as [x|] eqn:E; intros H.
  - injection H as <-. eapply size_unit_pos, E.
  - cases_of H; simplify_eq; lia.
Qed.

(** Hexadecimal. *)
Lemma hex_digit_range c d : hex_digit c = Some d -> 0 <= d <= 15.
Proof. unfold hex_digit. intros H. cases_of_eq H; simplify_eq; lia. Qed.

Lemma hexadecimal_from_ge acc l n : 0 <= acc -> hexadecimal_from acc l = Some n -> acc <= n.
Proof.
  revert acc. induction l as [|c l IH]; intros acc H; cbn [hexadecimal_from].
  - intros [= ->]. lia.
  - destruct (hex_digit c) as [d|] eqn:E; [|done]. apply hex_digit_range in E. intros G%IH; lia.
Qed.

Lemma hextoi_loop_spec value line :
  0 <= value <= NGX_MAX_INT_T_VALUE ->
  hextoi_loop value line = in_range NGX_MAX_INT_T_VALUE (hexadecimal_from value line).
Proof.
  revert value. induction line as [|c line IH]; intros value Hv; cbn [hextoi_loop hexadecimal_from].
  - cbn [in_range]. destruct (Z.leb_spec value NGX_MAX_INT_T_VALUE); [done | lia].
  - change (NGX_MAX_INT_T_VALUE / 16) with 576460752303423487.
    unfold NGX_MAX_INT_T_VALUE in Hv.
    assert (Hbig : 576460752303423487 < value -> forall d,
      0 <= d -> in_range NGX_MAX_INT_T_VALUE (hexadecimal_from (value * 16 + d) line) = NGX_ERROR).
    { intros Hb d Hd. destruct (hexadecimal_from _ line) as [n|] eqn:En; [|done].
      apply hexadecimal_from_ge in En; [|lia]. cbn [in_range]. unfold NGX_MAX_INT_T_VALUE.
      destruct (Z.leb_spec n 9223372036854775807); [lia | done]. }
    unfold hex_digit. destruct (Z.ltb_spec 576460752303423487 value) as [Hb | Hb].
    + destruct ((48 <=? c) && (c <=? 57)) eqn:E1; [rewrite Hbig; done || lia |].
      destruct ((97 <=? Z.lor c 32) && _) eqn:E2; [rewrite Hbig; done || lia | done].
    + destruct ((48 <=? c) && (c <=? 57)) eqn:E1.
      { apply IH. unfold NGX_MAX_INT_T_VALUE. lia. }
      destruct ((97 <=? Z.lor c 32) && _) eqn:E2; [|done].
      apply IH. unfold NGX_MAX_INT_T_VALUE. lia.
Qed.

Lemma hex_dump_digits b : byte b ->
  hex_digit (hex_char (Z.shiftr b 4)) = Some (b / 16) /\ hex_digit (hex_char (Z.land b 0xf)) = Some (b mod 16).
Proof.
  assert (G : forall b, byte b ->
    (match hex_digit (hex_char (Z.shiftr b 4)), hex_digit (hex_char (Z.land b 0xf)) with
     | Some x, Some y => (x =? b / 16) && (y =? b mod 16)
     | _, _ => false
     end) = true).
  { byte_cases (fun b => match hex_digit (hex_char (Z.shiftr b 4)), hex_digit (hex_char (Z.land b 0xf)) with
     | Some x, Some y => (x =? b / 16) && (y =? b mod 16)
     | _, _ => false
     end). }
  intros H. specialize (G b H).
  destruct (hex_digit (hex_char (Z.shiftr b 4))), (hex_digit (hex_char (Z.land b 15))); try done.
  apply andb_prop in G as [->%Z.eqb_eq ->%Z.eqb_eq]. done.
Qed.

Lemma hexadecimal_hex_dump acc l :
  Forall byte l ->
  hexadecimal_from acc (ngx_hex_dump l) = Some (List.fold_left (fun acc b => acc * 256 + b) l acc).
Proof.
  intros H. revert acc. induction H as [|b l Hb _ IH]; intros acc; [done |].
  cbn [ngx_hex_dump hexadecimal_from List.fold_left]. destruct (hex_dump_digits b Hb) as [-> ->].
  rewrite IH. do 2 f_equal. pose proof (Z.div_mod b 16). lia.
Qed.

(** Fixed point. *)
Lemma decimal_from_digits v l :
  Forall (fun c => is_digit c = true) l -> exists n, decimal_from v l = Some n.
Proof.
  intros H. revert v. induction H as [|c l Hc _ IH]; intros v; cbn [decimal_from]; [now eexists |].
  rewrite Hc. apply IH.
Qed.

Lemma decimal_from_app v l1 l2 :
  decimal_from v (l1 ++ l2) = match decimal_from v l1 with Some n => decimal_from n l2 | None => None end.
Proof.
  revert v. induction l1 as [|c l IH]; intros v; [done |]. cbn [List.app decimal_from].
  destruct (is_digit c); [apply IH | done].
Qed.

Lemma atofp_too_many value point l :
  (point < List.length l)%nat -> Forall (fun c => is_digit c = true) l ->
  atofp_loop value point true l = None.
Proof.
  intros Hp Hf. revert value point Hp. induction Hf as [|c l Hc Hf IH]; intros value point Hp; cbn [List.length] in Hp; [lia |].
  unfold is_digit in Hc. cbn [atofp_loop]. destruct (Nat.eqb_spec point 0) as [|Np]; [done |].
  replace (c =? 46) with false by lia. replace ((c <? 48) || (57 <? c)) with false by lia.
  destruct (_ && (_ || _)); [done |]. apply IH. lia.
Qed.

Lemma atofp_digits value point dot l rest :
  0 <= value <= NGX_MAX_INT_T_VALUE -> (0 < point)%nat ->
  (dot = true -> (List.length l < point)%nat \/ (List.length l = point /\ rest = [])) ->
  Forall (fun c => is_digit c = true) l ->
  exists n, decimal_from value l = Some n /\
    atofp_loop value point dot (l ++ rest) =
    if n <=? NGX_MAX_INT_T_VALUE
    then atofp_loop n (if dot then point - List.length l else point)%nat dot rest
    else None.
Proof.
  intros Hv Hp Hd Hf. revert value point Hv Hp Hd. induction Hf as [|c l Hc Hf IH]; intros value point Hv Hp Hd.
  - exists value. split; [done |]. destruct (Z.leb_spec value NGX_MAX_INT_T_VALUE); [|lia].
    cbn [List.app List.length]. rewrite Nat.sub_0_r. now destruct dot.
  - unfold is_digit in Hc. cbn [List.app atofp_loop decimal_from]. unfold is_digit. rewrite Hc.
    destruct (Nat.eqb_spec point 0) as [|_]; [lia |]. replace (c =? 46) with false by lia.
    replace ((c <? 48) || (57 <? c)) with false by lia.
    change (NGX_MAX_INT_T_VALUE / 10) with 922337203685477580.
    change (NGX_MAX_INT_T_VALUE mod 10) with 7. unfold NGX_MAX_INT_T_VALUE in *.
    destruct (_ && (_ || _)) eqn:Ec.
    + destruct (decimal_from_digits (value * 10 + (c - 48)) l Hf) as [n En]. exists n. split; [done |].
      apply decimal_from_ge in En; [|lia]. destruct (Z.leb_spec n 9223372036854775807); [lia | done].
    + destruct dot.
      * specialize (Hd eq_refl). cbn [List.length] in Hd.
        destruct (Nat.eq_dec point 1%nat) as [-> | N1].
        { destruct l; [|cbn in Hd; lia]. destruct Hd as [|[_ ->]]; [cbn in *; lia |].
          exists (value * 10 + (c - 48)). split; [done |]. cbn [List.app].
          destruct (Z.leb_spec (value * 10 + (c - 48)) 9223372036854775807); [done | lia]. }
        destruct (IH (value * 10 + (c - 48)) (point - 1)%nat) as (n & En & G); [lia | lia | |].
        { intros _. destruct Hd as [|[? ->]]; [left | right]; [lia | split; [lia | done]]. }
        exists n. split; [done |]. rewrite G. cbn [List.length].
        replace (point - 1 - List.length l)%nat with (point - S (List.length l))%nat by lia. done.
      * apply (IH (value * 10 + (c - 48)) point); [lia | done | done].
Qed.

Lemma atofp_scale_spec point value :
  0 <= value <= NGX_MAX_INT_T_VALUE ->
  atofp_scale point value = in_range NGX_MAX_INT_T_VALUE (Some (value * 10 ^ Z.of_nat point)).
Proof.
  revert value. induction point as [|point IH]; intros value Hv; cbn [atofp_scale].
  - rewrite Z.mul_1_r. cbn [in_range]. destruct (Z.leb_spec value NGX_MAX_INT_T_VALUE); [done | lia].
  - change (NGX_MAX_INT_T_VALUE / 10) with 922337203685477580. unfold NGX_MAX_INT_T_VALUE in *.
    rewrite Nat2Z.inj_succ, Z.pow_succ_r, Z.mul_assoc by lia.
    destruct (Z.ltb_spec 922337203685477580 value) as [Hb | Hb].
    + cbn [in_range]. pose proof (Z.pow_pos_nonneg 10 (Z.of_nat point) ltac:(lia) ltac:(lia)).
      destruct (Z.leb_spec (value * 10 * 10 ^ Z.of_nat point) 9223372036854775807); [nia | done].
    + apply IH. lia.
Qed.

(** ** Properties *)

(** [ngx_atoi] is exact: a nonempty string of digits gives the number it
    denotes when that is at most the greatest value, and [NGX_ERROR] when it
    is larger, for numbers of any length; any other string gives
    [NGX_ERROR].  The cutoff test never lets the accumulator overflow. *)
Theorem ngx_atoi_exact line : ngx_atoi line = in_range NGX_MAX_INT_T_VALUE (decimal line).
Proof. now apply ato_spec. Qed.

(** [ngx_parse_size] and [ngx_parse_offset] are exact: the digits times
    the unit, or [NGX_ERROR] when the product is not representable; the
    multiplication by the unit never overflows. *)
Theorem ngx_parse_size_offset_exact line :
  ngx_parse_size line =
    in_range NGX_MAX_SIZE_T_VALUE
      match line with
      | [] => None
      | _ => match size_unit (List.last line 0) with
             | Some s => option_map (fun n => n * s) (decimal (List.removelast line))
             | None => decimal line
             end
      end /\
  ngx_parse_offset line =
    in_range NGX_MAX_OFF_T_VALUE
      match line with
      | [] => None
      | _ => match offset_unit (List.last line 0) with
             | Some s => option_map (fun n => n * s) (decimal (List.removelast line))
             | None => decimal line
             end
      end.
Proof.
  split; apply parse_scaled_spec; try done; [apply size_unit_pos | apply offset_unit_pos].
Qed.

(** [ngx_hextoi] reads back what [ngx_hex_dump] writes, as a big-endian
    number, exactly as long as it fits [ngx_int_t]; a larger one gives
    [NGX_ERROR]. *)
Theorem ngx_hextoi_hex_dump l :
  Forall byte l -> l <> [] ->
  ngx_hextoi (ngx_hex_dump l) = in_range NGX_MAX_INT_T_VALUE (Some (horner 256 l)).
Proof.
  intros Hl Hne. unfold ngx_hextoi, horner. destruct l as [|b l]; [done |].
  rewrite <- (hexadecimal_hex_dump 0 (b :: l) Hl). rewrite <- hextoi_loop_spec by done. done.
Qed.

Lemma ngx_hextoi_hex_dump_witness :
  ngx_hex_dump [0x12; 0xab] = str "12ab" /\ ngx_hextoi (str "12ab") = 0x12ab.
Proof.
  split; [reflexivity |].
  exact (ngx_hextoi_hex_dump [0x12; 0xab] ltac:(repeat constructor; unfold byte; lia) ltac:(done)).
Defined.

(** [ngx_atofp] is exact: the digits around the optional point denote the
    number scaled by 10^[point]; too many fraction digits, or a result that
    does not fit, give [NGX_ERROR]. *)
Theorem ngx_atofp_exact ip fp point :
  Forall (fun c => is_digit c = true) ip -> Forall (fun c => is_digit c = true) fp ->
  (0 < point)%nat ->
  exists n, decimal_from 0 (ip ++ fp) = Some n /\
    ngx_atofp (ip ++ [chr "."] ++ fp) point =
      (if (List.length fp <=? point)%nat
       then in_range NGX_MAX_INT_T_VALUE (Some (n * 10 ^ Z.of_nat (point - List.length fp)))
       else NGX_ERROR).
Proof.
  intros Hi Hf Hp.
  destruct (atofp_digits 0 point false ip ([chr "."] ++ fp)) as (m & Em & G1); [done..|].
  pose proof (decimal_from_ge 0 ip m ltac:(lia) Em) as Hm.
  destruct (decimal_from_digits m fp Hf) as [n En]. pose proof (decimal_from_ge m fp n Hm En) as Hn.
  exists n. rewrite decimal_from_app, Em. split; [done |].
  replace (ngx_atofp (ip ++ [chr "."] ++ fp) point) with
    (match atofp_loop 0 point false (ip ++ [chr "."] ++ fp) with
     | None => NGX_ERROR | Some (value, point') => atofp_scale point' value end) by (now destruct ip).
  rewrite G1. cbn [List.app atofp_loop]. destruct (Nat.eqb_spec point 0) as [|_]; [lia |].
  rewrite Z.eqb_refl. pose proof (Z.pow_pos_nonneg 10 (Z.of_nat (point - List.length fp)) ltac:(lia) ltac:(lia)).
  destruct (Z.leb_spec m NGX_MAX_INT_T_VALUE) as [Hmm | Hmm].
  - destruct (Nat.leb_spec (List.length fp) point) as [Hl | Hl]; [|now rewrite atofp_too_many].
    destruct (atofp_digits m point true fp []) as (n' & En' & G2); [lia | done | | done |].
    { intros _. destruct (Nat.eq_dec (List.length fp) point); [now right | left; lia]. }
    assert (n' = n) as -> by congruence. rewrite app_nil_r in G2. rewrite G2.
    destruct (Z.leb_spec n NGX_MAX_INT_T_VALUE) as [Hnn | Hnn].
    + cbn [atofp_loop]. apply atofp_scale_spec. lia.
    + cbn [in_range]. destruct (Z.leb_spec (n * 10 ^ Z.of_nat (point - List.length fp)) NGX_MAX_INT_T_VALUE); [nia | done].
  - destruct (Nat.leb_spec (List.length fp) point); [|done]. cbn [in_range].
    destruct (Z.leb_spec (n * 10 ^ Z.of_nat (point - List.length fp)) NGX_MAX_INT_T_VALUE); [nia | done].
Qed.

(** "10.5" with two fraction digits is 1050. *)
Lemma ngx_atofp_exact_witness :
  decimal_from 0 (str "10" ++ str "5") = Some 105 /\ ngx_atofp (str "10.5") 2 = 1050.
Proof.
  destruct (ngx_atofp_exact (str "10") (str "5") 2) as (n & E & G);
    [repeat constructor | repeat constructor | lia |].
  split; [reflexivity |]. assert (n = 105) as -> by (cbv in E; congruence). exact G.
Defined.

End Number.
