(* ===== verification/NgxBase64.v ===== *)
(** Base64 (src/core/ngx_string.c): [ngx_encode_base64],
    [ngx_encode_base64url] and their decoders, for destinations that do not
    overlap the source.  A string is the list of its bytes. *)
From S2P Require Import Prelude.

#[local] Ltac Zify.zify_post_hook ::= Z.to_euclidean_division_equations.

Module Base64.

(** ** Encoding *)

Definition basis64 : list Z :=
  str "ABCDEFGHIJKLMNOPQRSTUVWXYZabcdefghijklmnopqrstuvwxyz0123456789+/".

Definition basis64url : list Z :=
  str "ABCDEFGHIJKLMNOPQRSTUVWXYZabcdefghijklmnopqrstuvwxyz0123456789-_".

(** [basis[i]] *)
Definition elt (basis : list Z) (i : Z) : Z := List.nth (Z.to_nat i) basis 0.

Fixpoint ngx_encode_base64_internal (basis : list Z) (padding : bool) (s : list Z) : list Z :=
  match s with
  | s0 :: s1 :: s2 :: s' =>
      elt basis (Z.land (Z.shiftr s0 2) 0x3f)
      :: elt basis (Z.lor (Z.shiftl (Z.land s0 3) 4) (Z.shiftr s1 4))
      :: elt basis (Z.lor (Z.shiftl (Z.land s1 0x0f) 2) (Z.shiftr s2 6))
      :: elt basis (Z.land s2 0x3f)
      :: ngx_encode_base64_internal basis padding s'
  | [] => []
  | s0 :: s' =>
      elt basis (Z.land (Z.shiftr s0 2) 0x3f) ::
      match s' with
      | [] =>
          elt basis (Z.shiftl (Z.land s0 3) 4) :: (if padding then [chr "="] else [])
      | s1 :: _ =>
          [elt basis (Z.lor (Z.shiftl (Z.land s0 3) 4) (Z.shiftr s1 4));
           elt basis (Z.shiftl (Z.land s1 0x0f) 2)]
      end ++ (if padding then [chr "="] else [])
  end.

Definition ngx_encode_base64 : list Z -> list Z := ngx_encode_base64_internal basis64 true.
Definition ngx_encode_base64url : list Z -> list Z := ngx_encode_base64_internal basis64url false.

(** ** Decoding *)

(** The table of [ngx_decode_base64]. *)
Definition decode64 : list Z :=
  [77; 77; 77; 77; 77; 77; 77; 77; 77; 77; 77; 77; 77; 77; 77; 77;
   77; 77; 77; 77; 77; 77; 77; 77; 77; 77; 77; 77; 77; 77; 77; 77;
   77; 77; 77; 77; 77; 77; 77; 77; 77; 77; 77; 62; 77; 77; 77; 63;
   52; 53; 54; 55; 56; 57; 58; 59; 60; 61; 77; 77; 77; 77; 77; 77;
   77;  0;  1;  2;  3;  4;  5;  6;  7;  8;  9; 10; 11; 12; 13; 14;
   15; 16; 17; 18; 19; 20; 21; 22; 23; 24; 25; 77; 77; 77; 77; 77;
   77; 26; 27; 28; 29; 30; 31; 32; 33; 34; 35; 36; 37; 38; 39; 40;
   41; 42; 43; 44; 45; 46; 47; 48; 49; 50; 51; 77; 77; 77; 77; 77;
   77; 77; 77; 77; 77; 77; 77; 77; 77; 77; 77; 77; 77; 77; 77; 77;
   77; 77; 77; 77; 77; 77; 77; 77; 77; 77; 77; 77; 77; 77; 77; 77;
   77; 77; 77; 77; 77; 77; 77; 77; 77; 77; 77; 77; 77; 77; 77; 77;
   77; 77; 77; 77; 77; 77; 77; 77; 77; 77; 77; 77; 77; 77; 77; 77;
   77; 77; 77; 77; 77; 77; 77; 77; 77; 77; 77; 77; 77; 77; 77; 77;
   77; 77; 77; 77; 77; 77; 77; 77; 77; 77; 77; 77; 77; 77; 77; 77;
   77; 77; 77; 77; 77; 77; 77; 77; 77; 77; 77; 77; 77; 77; 77; 77;
   77; 77; 77; 77; 77; 77; 77; 77; 77; 77; 77; 77; 77; 77; 77; 77].

(** The table of [ngx_decode_base64url]. *)
Definition decode64url : list Z :=
  [77; 77; 77; 77; 77; 77; 77; 77; 77; 77; 77; 77; 77; 77; 77; 77;
   77; 77; 77; 77; 77; 77; 77; 77; 77; 77; 77; 77; 77; 77; 77; 77;
   77; 77; 77; 77; 77; 77; 77; 77; 77; 77; 77; 77; 77; 62; 77; 77;
   52; 53; 54; 55; 56; 57; 58; 59; 60; 61; 77; 77; 77; 77; 77; 77;
   77;  0;  1;  2;  3;  4;  5;  6;  7;  8;  9; 10; 11; 12; 13; 14;
   15; 16; 17; 18; 19; 20; 21; 22; 23; 24; 25; 77; 77; 77; 77; 63;
   77; 26; 27; 28; 29; 30; 31; 32; 33; 34; 35; 36; 37; 38; 39; 40;
   41; 42; 43; 44; 45; 46; 47; 48; 49; 50; 51; 77; 77; 77; 77; 77;
   77; 77; 77; 77; 77; 77; 77; 77; 77; 77; 77; 77; 77; 77; 77; 77;
   77; 77; 77; 77; 77; 77; 77; 77; 77; 77; 77; 77; 77; 77; 77; 77;
   77; 77; 77; 77; 77; 77; 77; 77; 77; 77; 77; 77; 77; 77; 77; 77;
   77; 77; 77; 77; 77; 77; 77; 77; 77; 77; 77; 77; 77; 77; 77; 77;
   77; 77; 77; 77; 77; 77; 77; 77; 77; 77; 77; 77; 77; 77; 77; 77;
   77; 77; 77; 77; 77; 77; 77; 77; 77; 77; 77; 77; 77; 77; 77; 77;
   77; 77; 77; 77; 77; 77; 77; 77; 77; 77; 77; 77; 77; 77; 77; 77;
   77; 77; 77; 77; 77; 77; 77; 77; 77; 77; 77; 77; 77; 77; 77; 77].

(** The first loop: the characters up to a '=' or the end, [None] when one is
    not in the alphabet. *)
Fixpoint encoded_part (basis : list Z) (src : list Z) : option (list Z) :=
  match src with
  | [] => Some []
  | c :: src' =>
      if c =? chr "=" then Some []
      else if elt basis c =? 77 then None
      else option_map (cons c) (encoded_part basis src')
  end.

(** [(u_char) (basis[a] << l | basis[b] >> r)] *)
Definition join_bits (basis : list Z) (a l b r : Z) : Z :=
  (Z.lor (Z.shiftl (elt basis a) l) (Z.shiftr (elt basis b) r)) mod 256.

(** The second loop and the two conditionals after it. *)
Fixpoint decode_groups (basis : list Z) (s : list Z) : list Z :=
  match s with
  | s0 :: s1 :: s2 :: s3 :: s' =>
      join_bits basis s0 2 s1 4 :: join_bits basis s1 4 s2 2 :: join_bits basis s2 6 s3 0
      :: decode_groups basis s'
  | [s0; s1; s2] => [join_bits basis s0 2 s1 4; join_bits basis s1 4 s2 2]
  | [s0; s1] => [join_bits basis s0 2 s1 4]
  | _ => []
  end.

(** [None] is [NGX_ERROR]. *)
Definition ngx_decode_base64_internal (basis : list Z) (src : list Z) : option (list Z) :=
  match encoded_part basis src with
  | None => None
  | Some s =>
      if (Z.of_nat (List.length s)) mod 4 =? 1 then None else Some (decode_groups basis s)
  end.

Definition ngx_decode_base64 : list Z -> option (list Z) := ngx_decode_base64_internal decode64.
Definition ngx_decode_base64url : list Z -> option (list Z) := ngx_decode_base64_internal decode64url.

(** The macros of ngx_string.h the callers allocate with. *)
Definition ngx_base64_encoded_length (n : Z) : Z := (n + 2) / 3 * 4.
Definition ngx_base64_decoded_length (n : Z) : Z := (n + 3) / 4 * 3.

(** ** Specification *)

(** The 6-bit digits of a string of bytes, most significant first, the last
    one filled up with zero bits. *)
Fixpoint digits64 (s : list Z) : list Z :=
  match s with
  | s0 :: s1 :: s2 :: s' =>
      s0 / 4 :: s0 mod 4 * 16 + s1 / 16 :: s1 mod 16 * 4 + s2 / 64 :: s2 mod 64 :: digits64 s'
  | [s0; s1] => [s0 / 4; s0 mod 4 * 16 + s1 / 16; s1 mod 16 * 4]
  | [s0] => [s0 / 4; s0 mod 4 * 16]
  | [] => []
  end.

(** [src] is [ds] written in the alphabet, then nothing or a '=' and anything. *)
Definition spells (enc : list Z) (src ds : list Z) : Prop :=
  Forall (fun d => 0 <= d < 64) ds /\
  exists rest, src = List.map (elt enc) ds ++ rest /\
    (rest = [] \/ exists t, rest = chr "=" :: t).

(** [out] is the whole bytes of the bits of [ds]. *)
Definition whole_bytes (ds out : list Z) : Prop :=
  Forall byte out /\ Z.of_nat (List.length out) = 6 * Z.of_nat (List.length ds) / 8 /\
  horner 256 out = horner 64 ds / 2 ^ (6 * Z.of_nat (List.length ds) mod 8).

(** ** Lemmas *)

(** A decoding table and an alphabet that belong together. *)
Record tables (enc dec : list Z) : Prop := {
  dec_enc i : 0 <= i < 64 -> elt dec (elt enc i) = i /\ elt enc i <> chr "=";
  dec_range c : elt dec c <> 77 -> 0 <= elt dec c < 64;
  enc_dec c : byte c -> elt dec c <> 77 -> elt enc (elt dec c) = c
}.

Definition small64 (P : Z -> bool) : bool := List.forallb P (List.map Z.of_nat (List.seq 0 64)).

Lemma small64_spec P : small64 P = true -> forall i, 0 <= i < 64 -> P i = true.
Proof.
  unfold small64. rewrite List.forallb_forall. intros H i Hi. apply H, List.in_map_iff.
  exists (Z.to_nat i). split; [lia |]. apply List.in_seq. lia.
Qed.

Lemma elt_range dec c :
  List.forallb (fun v => (0 <=? v) && ((v <? 64) || (v =? 77))) dec = true ->
  elt dec c <> 77 -> 0 <= elt dec c < 64.
Proof.
  intros H Hc. unfold elt in *. destruct (nth_in_or_default (Z.to_nat c) dec 0) as [Hi | ->]; [|lia].
  rewrite List.forallb_forall in H. specialize (H _ Hi). cbv beta in H. lia.
Qed.

Lemma tables_std : tables basis64 decode64.
Proof.
  split.
  - assert (G : small64 (fun i => (elt decode64 (elt basis64 i) =? i) && negb (elt basis64 i =? 61)) = true)
      by reflexivity.
    intros i Hi. pose proof (small64_spec _ G i Hi) as Gi. cbv beta in Gi. lia.
  - intros c. now apply elt_range.
  - assert (G : forall c, byte c -> ((elt decode64 c =? 77) || (elt basis64 (elt decode64 c) =? c)) = true).
    { byte_cases (fun c => (elt decode64 c =? 77) || (elt basis64 (elt decode64 c) =? c)). }
    intros c Hc Hn. specialize (G c Hc). lia.
Qed.

Lemma tables_url : tables basis64url decode64url.
Proof.
  split.
  - assert (G : small64 (fun i => (elt decode64url (elt basis64url i) =? i) && negb (elt basis64url i =? 61)) = true)
      by reflexivity.
    intros i Hi. pose proof (small64_spec _ G i Hi) as Gi. cbv beta in Gi. lia.
  - intros c. now apply elt_range.
  - assert (G : forall c, byte c -> ((elt decode64url c =? 77) || (elt basis64url (elt decode64url c) =? c)) = true).
    { byte_cases (fun c => (elt decode64url c =? 77) || (elt basis64url (elt decode64url c) =? c)). }
    intros c Hc Hn. specialize (G c Hc). lia.
Qed.

Lemma list_ind3 {A} (P : list A -> Prop) :
  P [] -> (forall a, P [a]) -> (forall a b, P [a; b]) ->
  (forall a b c l, P l -> P (a :: b :: c :: l)) -> forall l, P l.
Proof.
  intros H0 H1 H2 H3. exact (fix ind l := match l with
    | [] => H0 | [a] => H1 a | [a; b] => H2 a b | a :: b :: c :: l' => H3 a b c l' (ind l') end).
Qed.

Lemma list_ind4 {A} (P : list A -> Prop) :
  P [] -> (forall a, P [a]) -> (forall a b, P [a; b]) -> (forall a b c, P [a; b; c]) ->
  (forall a b c d l, P l -> P (a :: b :: c :: d :: l)) -> forall l, P l.
Proof.
  intros H0 H1 H2 H3 H4. exact (fix ind l := match l with
    | [] => H0 | [a] => H1 a | [a; b] => H2 a b | [a; b; c] => H3 a b c
    | a :: b :: c :: d :: l' => H4 a b c d l' (ind l') end).
Qed.

(** The bit expressions of the encoder. *)
Lemma first_digit a : byte a -> Z.land (Z.shiftr a 2) 0x3f = a / 4.
Proof.
  unfold byte. intros H. change 0x3f with (Z.ones 6). rewrite land_low, Z.shiftr_div_pow2 by lia.
  change (2 ^ 2) with 4. change (2 ^ 6) with 64. lia.
Qed.

Lemma last_digit a : Z.land a 0x3f = a mod 64.
Proof. change 0x3f with (Z.ones 6). now rewrite land_low by lia. Qed.

Lemma second_digit a b :
  byte b -> Z.lor (Z.shiftl (Z.land a 3) 4) (Z.shiftr b 4) = a mod 4 * 16 + b / 16.
Proof.
  unfold byte. intros Hb. change 3 with (Z.ones 2). rewrite land_low, Z.shiftr_div_pow2 by lia.
  change (2 ^ 4) with 16. change (2 ^ 2) with 4. apply lor_shiftl_add; lia.
Qed.

Lemma third_digit b c :
  byte c -> Z.lor (Z.shiftl (Z.land b 0x0f) 2) (Z.shiftr c 6) = b mod 16 * 4 + c / 64.
Proof.
  unfold byte. intros Hc. change 0x0f with (Z.ones 4). rewrite land_low, Z.shiftr_div_pow2 by lia.
  change (2 ^ 6) with 64. change (2 ^ 4) with 16. apply lor_shiftl_add; lia.
Qed.

Lemma digits64_range s : Forall byte s -> Forall (fun d => 0 <= d < 64) (digits64 s).
Proof.
  induction s as [| a | a b | a b c l IH] using list_ind3; intros H; cbn [digits64];
    [constructor | | |]; repeat (apply Forall_cons_1 in H as [? H]); unfold byte in *;
    repeat constructor; try lia.
  - now apply IH.
Qed.

(** The encoder writes the digits in its alphabet, and the padding. *)
Lemma encode_digits basis padding s :
  Forall byte s ->
  ngx_encode_base64_internal basis padding s =
  List.map (elt basis) (digits64 s) ++
  (if padding then List.repeat (chr "=") (Z.to_nat ((- Z.of_nat (List.length s)) mod 3)) else []).
Proof.
  induction s as [| a | a b | a b c l IH] using list_ind3; intros H;
    cbn [ngx_encode_base64_internal digits64 List.map List.app].
  - now destruct padding.
  - apply Forall_cons_1 in H as [Ha _]. rewrite first_digit by done.
    change 3 with (Z.ones 2) at 1. rewrite land_low, Z.shiftl_mul_pow2 by lia. now destruct padding.
  - apply Forall_cons_1 in H as [Ha H]. apply Forall_cons_1 in H as [Hb _].
    rewrite first_digit, second_digit by done.
    change 0x0f with (Z.ones 4) at 1. rewrite land_low, Z.shiftl_mul_pow2 by lia. now destruct padding.
  - apply Forall_cons_1 in H as [Ha H]. apply Forall_cons_1 in H as [Hb H]. apply Forall_cons_1 in H as [Hc H].
    rewrite first_digit, second_digit, third_digit, last_digit, IH by done.
    do 6 f_equal. destruct padding; [|done]. do 2 f_equal. cbn [List.length]. lia.
Qed.

Lemma length_digits64 s : Z.of_nat (List.length (digits64 s)) = (8 * Z.of_nat (List.length s) + 5) / 6.
Proof.
  induction s as [| a | a b | a b c l IH] using list_ind3; try reflexivity.
  cbn [digits64 List.length]. lia.
Qed.

(** The digits denote the number the bytes denote, followed by the zero bits
    that fill up the last digit. *)
Lemma horner_digits64 s :
  Forall byte s ->
  horner 64 (digits64 s) = horner 256 s * 2 ^ (6 * Z.of_nat (List.length (digits64 s)) - 8 * Z.of_nat (List.length s)).
Proof.
  induction s as [| a | a b | a b c l IH] using list_ind3; intros H; [reflexivity | | |];
    repeat (apply Forall_cons_1 in H as [? H]); unfold byte in *.
  - cbn. lia.
  - cbn. lia.
  - cbn [digits64]. rewrite !horner_cons. rewrite IH by done. cbn [List.length].
    set (m := Z.of_nat (List.length l)). rewrite !Nat2Z.inj_succ. rewrite length_digits64. fold m.
    set (n := (8 * m + 5) / 6). assert (8 * m <= 6 * n) by lia. assert (0 <= m) by lia.
    replace (6 * Z.succ (Z.succ (Z.succ (Z.succ n))) - 8 * Z.succ (Z.succ (Z.succ m))) with (6 * n - 8 * m) by lia.
    rewrite !Z.pow_succ_r by lia.
    replace (64 ^ n) with (256 ^ m * 2 ^ (6 * n - 8 * m)).
    2: { change 64 with (2 ^ 6). change 256 with (2 ^ 8).
         rewrite <- !Z.pow_mul_r, <- Z.pow_add_r by lia. f_equal. lia. }
    generalize (256 ^ m) (2 ^ (6 * n - 8 * m)) (horner 256 l). intros x y z. nia.
Qed.

(** The bit expressions of the decoder. *)
Section Decode.
Context (dec : list Z).
#[local] Abbreviation v c := (elt dec c).
#[local] Abbreviation six c := (0 <= v c < 64).

Lemma join_first a b : six a -> six b -> join_bits dec a 2 b 4 = v a * 4 + v b / 16.
Proof.
  intros Ha Hb. unfold join_bits. rewrite Z.shiftr_div_pow2 by lia. change (2 ^ 4) with 16.
  rewrite lor_shiftl_add by lia. lia.
Qed.

Lemma join_second a b : six a -> six b -> join_bits dec a 4 b 2 = v a mod 16 * 16 + v b / 4.
Proof.
  intros Ha Hb. unfold join_bits. rewrite Z.shiftr_div_pow2 by lia. change (2 ^ 2) with 4.
  rewrite lor_shiftl_add by lia. change (2 ^ 4) with 16. lia.
Qed.

Lemma join_third a b : six a -> six b -> join_bits dec a 6 b 0 = v a mod 4 * 64 + v b.
Proof.
  intros Ha Hb. unfold join_bits. rewrite Z.shiftr_0_r, lor_shiftl_add by lia.
  change (2 ^ 6) with 64. lia.
Qed.

Lemma length_decode_groups s :
  Z.of_nat (List.length s) mod 4 <> 1 ->
  Z.of_nat (List.length (decode_groups dec s)) = 6 * Z.of_nat (List.length s) / 8.
Proof.
  induction s as [| a | a b | a b c | a b c d l IH] using list_ind4; cbn [decode_groups List.length]; try lia.
Qed.

Lemma decode_groups_range s : Forall byte (decode_groups dec s).
Proof.
  unfold byte. induction s as [| a | a b | a b c | a b c d l IH] using list_ind4; cbn [decode_groups];
    repeat constructor; unfold join_bits; try lia; apply IH.
Qed.

(** The bytes denote the number the digits denote, less its last, incomplete
    byte. *)
Lemma decode_groups_value s :
  Forall (fun c => six c) s -> Z.of_nat (List.length s) mod 4 <> 1 ->
  horner 256 (decode_groups dec s) =
  horner 64 (List.map (elt dec) s) / 2 ^ (6 * Z.of_nat (List.length s) mod 8).
Proof.
  induction s as [| a | a b | a b c | a b c d l IH] using list_ind4; intros H Hn;
    repeat (apply Forall_cons_1 in H as [? H]); cbn [decode_groups List.map].
  - done.
  - cbn in Hn. lia.
  - rewrite join_first by done. change (2 ^ _) with 16. unfold horner. cbn [List.fold_left]. lia.
  - rewrite join_first, join_second by done. change (2 ^ _) with 4. unfold horner. cbn [List.fold_left]. lia.
  - rewrite join_first, join_second, join_third by done. rewrite !horner_cons, IH by (done || cbn [List.length] in Hn; lia).
    cbn [List.length]. rewrite List.length_map.
    rewrite !Nat2Z.inj_succ. rewrite length_decode_groups by (cbn [List.length] in Hn; lia).
    set (n := Z.of_nat (List.length l)). assert (0 <= n) by lia.
    replace (6 * Z.succ (Z.succ (Z.succ (Z.succ n))) mod 8) with (6 * n mod 8) by lia.
    set (k := 6 * n mod 8). set (q := 6 * n / 8). assert (0 <= k) by lia. assert (0 <= q) by lia.
    rewrite !Z.pow_succ_r by lia.
    replace (64 ^ n) with (256 ^ q * 2 ^ k).
    2: { change 64 with (2 ^ 6). change 256 with (2 ^ 8).
         rewrite <- !Z.pow_mul_r, <- Z.pow_add_r by lia. f_equal. lia. }
    pose proof (Z.pow_pos_nonneg 2 k ltac:(lia) ltac:(lia)) as Hk.
    generalize dependent (2 ^ k). intros x Hx.
    generalize (256 ^ q) (horner 64 (List.map (elt dec) l)). intros y h.
    transitivity ((h + (v a * 64 * 64 * 64 + v b * 64 * 64 + v c * 64 + v d) * y * x) / x).
    + rewrite Z.div_add by lia.
      replace (v a * 64 * 64 * 64 + v b * 64 * 64 + v c * 64 + v d) with
        ((v a * 4 + v b / 16) * 65536 + (v b mod 16 * 16 + v c / 4) * 256 + (v c mod 4 * 64 + v d)) by lia.
      ring.
    + f_equal. ring.
Qed.

Lemma encoded_part_chars src s :
  encoded_part dec src = Some s -> Forall (fun c => v c <> 77 /\ c <> chr "=") s.
Proof.
  revert s. induction src as [|c src IH]; intros s; cbn [encoded_part]; [intros [= <-]; constructor |].
  destruct (Z.eqb_spec c 61); [intros [= <-]; constructor |].
  destruct (Z.eqb_spec (v c) 77); [done |].
  destruct (encoded_part dec src) as [s'|]; [|done]. cbn. intros [= <-]. constructor; [done | now apply IH].
Qed.

End Decode.

Lemma whole_bytes_unique ds out out' : whole_bytes ds out -> whole_bytes ds out' -> out = out'.
Proof.
  intros (H & L & V) (H' & L' & V'). apply (horner_inj 256); [lia | done | done | lia | congruence].
Qed.

Section Tables.
Context {enc dec : list Z} (T : tables enc dec).

Lemma encoded_part_spells src ds :
  spells enc src ds -> encoded_part dec src = Some (List.map (elt enc) ds).
Proof using T.
  intros (H & rest & -> & Hr). induction H as [|d ds Hd _ IH]; cbn [List.map List.app encoded_part].
  - destruct Hr as [-> | [t ->]]; reflexivity.
  - destruct (dec_enc _ _ T d Hd) as [E N].
    destruct (Z.eqb_spec (elt enc d) 61); [done |]. rewrite E.
    destruct (Z.eqb_spec d 77); [lia |]. now rewrite IH.
Qed.

Lemma spells_encoded_part src s :
  Forall byte src -> encoded_part dec src = Some s ->
  s = List.map (elt enc) (List.map (elt dec) s) /\ spells enc src (List.map (elt dec) s).
Proof using T.
  intros H. revert s. induction H as [|c src Hc _ IH]; intros s; cbn [encoded_part].
  - intros [= <-]. split; [done |]. split; [constructor |]. exists []. auto.
  - destruct (Z.eqb_spec c 61) as [-> |].
    { intros [= <-]. split; [done |]. split; [constructor |]. exists (61 :: src). eauto. }
    destruct (Z.eqb_spec (elt dec c) 77); [done |].
    destruct (encoded_part dec src) as [s'|]; [|done]. cbn. intros [= <-].
    destruct (IH s' eq_refl) as [E (F & rest & -> & Hr)]. cbn [List.map].
    rewrite (enc_dec _ _ T) by done. split; [now rewrite <- E |].
    split; [constructor; [now apply (dec_range _ _ T) | done] |].
    exists rest. split; [|done]. cbn [List.app List.map]. now rewrite (enc_dec _ _ T).
Qed.

Lemma decode_whole_bytes ds :
  Forall (fun d => 0 <= d < 64) ds -> Z.of_nat (List.length ds) mod 4 <> 1 ->
  whole_bytes ds (decode_groups dec (List.map (elt enc) ds)).
Proof using T.
  intros H Hn.
  assert (E : List.map (elt dec) (List.map (elt enc) ds) = ds).
  { rewrite List.map_map. rewrite <- (List.map_id ds) at 2. apply List.map_ext_in. intros d Hd.
    apply (dec_enc _ _ T). now apply (proj1 (List.Forall_forall _ _) H). }
  split; [apply decode_groups_range |]. rewrite length_decode_groups, decode_groups_value, E, List.length_map.
  - done.
  - apply List.Forall_forall. intros c Hc. apply List.in_map_iff in Hc as (d & <- & Hd).
    apply (proj1 (List.Forall_forall _ _) H) in Hd. now rewrite (proj1 (dec_enc _ _ T d Hd)).
  - now rewrite List.length_map.
  - now rewrite List.length_map.
Qed.

Lemma decode_internal_exact src out :
  Forall byte src ->
  ngx_decode_base64_internal dec src = Some out <->
  exists ds, spells enc src ds /\ Z.of_nat (List.length ds) mod 4 <> 1 /\ whole_bytes ds out.
Proof using T.
  intros H. unfold ngx_decode_base64_internal. split.
  - destruct (encoded_part dec src) as [s|] eqn:E; [|done].
    apply spells_encoded_part in E as [Es Hs]; [|done].
    destruct (Z.eqb_spec (Z.of_nat (List.length s) mod 4) 1); [done |]. intros [= <-].
    exists (List.map (elt dec) s). rewrite List.length_map. split; [done |]. split; [done |].
    rewrite Es at 2. apply decode_whole_bytes; [apply Hs | now rewrite List.length_map].
  - intros (ds & Hs & Hn & Hw). rewrite (encoded_part_spells _ _ Hs), List.length_map.
    destruct (Z.eqb_spec (Z.of_nat (List.length ds) mod 4) 1); [done |]. f_equal.
    apply (whole_bytes_unique ds); [apply decode_whole_bytes; [apply Hs | done] | done].
Qed.

Lemma spells_encoded padding s :
  Forall byte s -> spells enc (ngx_encode_base64_internal enc padding s) (digits64 s).
Proof.
  intros H. split; [now apply digits64_range |]. rewrite encode_digits by done.
  eexists. split; [reflexivity |]. destruct padding; [|now left].
  destruct (Z.to_nat _); [now left | right; eexists; reflexivity].
Qed.

Lemma whole_bytes_digits64 s : Forall byte s -> whole_bytes (digits64 s) s.
Proof.
  intros H. split; [done |]. rewrite horner_digits64, length_digits64 by done.
  set (m := Z.of_nat (List.length s)). split; [lia |].
  replace (6 * ((8 * m + 5) / 6) mod 8) with (6 * ((8 * m + 5) / 6) - 8 * m) by lia.
  rewrite Z.div_mul; [done |]. apply Z.pow_nonzero; lia.
Qed.

Lemma decode_encode padding s :
  Forall byte s -> ngx_decode_base64_internal dec (ngx_encode_base64_internal enc padding s) = Some s.
Proof using T.
  intros H. unfold ngx_decode_base64_internal.
  rewrite (encoded_part_spells _ _ (spells_encoded padding s H)), List.length_map, length_digits64.
  destruct (Z.eqb_spec ((8 * Z.of_nat (List.length s) + 5) / 6 mod 4) 1); [lia |]. f_equal.
  apply (whole_bytes_unique (digits64 s)); [|now apply whole_bytes_digits64].
  apply decode_whole_bytes; [now apply digits64_range | now rewrite length_digits64].
Qed.

End Tables.

Lemma length_decoded dec src out :
  ngx_decode_base64_internal dec src = Some out ->
  Z.of_nat (List.length out) <= ngx_base64_decoded_length (Z.of_nat (List.length src)).
Proof.
  unfold ngx_decode_base64_internal, ngx_base64_decoded_length.
  assert (G : forall s, encoded_part dec src = Some s -> (List.length s <= List.length src)%nat).
  { induction src as [|c src IH]; intros s; cbn [encoded_part]; [intros [= <-]; done |].
    destruct (c =? 61); [intros [= <-]; cbn; lia |]. destruct (elt dec c =? 77); [done |].
    destruct (encoded_part dec src); [|done]. cbn. intros [= <-]. specialize (IH _ eq_refl). cbn. lia. }
  destruct (encoded_part dec src) as [s|]; [|done]. specialize (G _ eq_refl).
  destruct (Z.eqb_spec (Z.of_nat (List.length s) mod 4) 1); [done |]. intros [= <-].
  rewrite length_decode_groups by done. lia.
Qed.

Lemma length_encoded enc padding s :
  Forall byte s ->
  Z.of_nat (List.length (ngx_encode_base64_internal enc padding s)) =
  if padding then ngx_base64_encoded_length (Z.of_nat (List.length s))
  else (8 * Z.of_nat (List.length s) + 5) / 6.
Proof.
  intros H. rewrite encode_digits, List.length_app, List.length_map, Nat2Z.inj_add, length_digits64 by done.
  unfold ngx_base64_encoded_length. destruct padding; cbn [List.length]; [|lia].
  rewrite List.repeat_length. lia.
Qed.

(** ** Properties *)

(** A decoder inverts its encoder on every string of bytes, padded and not,
    and an encoding has exactly the length its buffer is allocated with
    ([ngx_base64_encoded_length]; the URL form, without padding, never
    exceeds it). *)
Theorem base64_decode_encode s :
  Forall byte s ->
  ngx_decode_base64 (ngx_encode_base64 s) = Some s /\
  ngx_decode_base64url (ngx_encode_base64url s) = Some s /\
  Z.of_nat (List.length (ngx_encode_base64 s)) = ngx_base64_encoded_length (Z.of_nat (List.length s)) /\
  Z.of_nat (List.length (ngx_encode_base64url s)) <= ngx_base64_encoded_length (Z.of_nat (List.length s)).
Proof.
  intros H. split; [now apply (decode_encode tables_std) |].
  split; [now apply (decode_encode tables_url) |].
  unfold ngx_encode_base64, ngx_encode_base64url. rewrite !length_encoded by done.
  split; [done |]. unfold ngx_base64_encoded_length. lia.
Qed.

(** C37: The decoders accept exactly the strings that spell, up to a first '=' or
    the end, a number of digits of the alphabet other than one modulo four;
    the result is the whole bytes of the digits' bits, at most
    [ngx_base64_decoded_length] of them. *)
Theorem base64_decode_exact src out :
  Forall byte src ->
  (ngx_decode_base64 src = Some out <->
   exists ds, spells basis64 src ds /\ Z.of_nat (List.length ds) mod 4 <> 1 /\ whole_bytes ds out) /\
  (ngx_decode_base64url src = Some out <->
   exists ds, spells basis64url src ds /\ Z.of_nat (List.length ds) mod 4 <> 1 /\ whole_bytes ds out) /\
  ((ngx_decode_base64 src = Some out \/ ngx_decode_base64url src = Some out) ->
   Z.of_nat (List.length out) <= ngx_base64_decoded_length (Z.of_nat (List.length src))).
Proof.
  intros H. split; [apply (decode_internal_exact tables_std); done |].
  split; [apply (decode_internal_exact tables_url); done |].
  intros [G | G]; now apply length_decoded in G.
Qed.

Lemma base64_decode_encode_witness :
  ngx_encode_base64 (str "user:pw") = str "dXNlcjpwdw==" /\
  ngx_decode_base64 (str "dXNlcjpwdw==") = Some (str "user:pw").
Proof.
  split; [reflexivity |].
  exact (proj1 (base64_decode_encode (str "user:pw") ltac:(repeat constructor; unfold byte; lia))).
Defined.

(** One digit is not enough for a byte. *)
Lemma base64_decode_exact_witness :
  ngx_decode_base64 (str "TWFu=?") = Some (str "Man") /\ ngx_decode_base64 (str "A") = None /\
  exists ds, spells basis64 (str "TWFu=?") ds /\ Z.of_nat (List.length ds) mod 4 <> 1 /\ whole_bytes ds (str "Man").
Proof.
  split; [reflexivity |]. split; [reflexivity |].
  apply (proj1 (base64_decode_exact (str "TWFu=?") (str "Man") ltac:(repeat constructor; unfold byte; lia))).
  reflexivity.
Defined.

End Base64.
