(* ===== verification/NgxEscape.v ===== *)
(** Escaping (src/core/ngx_string.c): [ngx_escape_uri] and
    [ngx_unescape_uri], [ngx_escape_html], [ngx_escape_json].  The escaping
    functions write to a destination apart from the source and are functions
    from bytes to bytes; [ngx_unescape_uri], which its callers also use in
    place, works on the memory. *)
From S2P Require Import Prelude HttpRequest NgxNumber.

Module Escape.

(** ** [ngx_escape_uri] *)

Definition NGX_ESCAPE_URI : Z := 0.
Definition NGX_ESCAPE_ARGS : Z := 1.
Definition NGX_ESCAPE_URI_COMPONENT : Z := 2.
Definition NGX_ESCAPE_HTML : Z := 3.
Definition NGX_ESCAPE_REFRESH : Z := 4.
Definition NGX_ESCAPE_MEMCACHED : Z := 5.
Definition NGX_ESCAPE_MAIL_AUTH : Z := 6.

(** [static uint32_t uri[]] and the other bitmaps. *)
Definition esc_uri : list Z :=
  [0xffffffff; 0xd000002d; 0x50000000; 0xb8000001;
   0xffffffff; 0xffffffff; 0xffffffff; 0xffffffff].
Definition esc_args : list Z :=
  [0xffffffff; 0xd800086d; 0x50000000; 0xb8000001;
   0xffffffff; 0xffffffff; 0xffffffff; 0xffffffff].
Definition esc_uri_component : list Z :=
  [0xffffffff; 0xfc009fff; 0x78000001; 0xb8000001;
   0xffffffff; 0xffffffff; 0xffffffff; 0xffffffff].
Definition esc_html : list Z :=
  [0xffffffff; 0x500000ad; 0x50000000; 0xb8000001;
   0xffffffff; 0xffffffff; 0xffffffff; 0xffffffff].
Definition esc_refresh : list Z :=
  [0xffffffff; 0x50000085; 0x50000000; 0xd8000001;
   0xffffffff; 0xffffffff; 0xffffffff; 0xffffffff].
Definition esc_memcached : list Z :=
  [0xffffffff; 0x00000021; 0x00000000; 0x00000000;
   0x00000000; 0x00000000; 0x00000000; 0x00000000].

(** [map[type]] *)
Definition escape_map (type : Z) : list Z :=
  List.nth (Z.to_nat type)
    [esc_uri; esc_args; esc_uri_component; esc_html; esc_refresh; esc_memcached; esc_memcached] [].

(** [escape[c >> 5] & (1U << (c & 0x1f))] *)
Definition flagged (escape : list Z) (c : Z) : bool :=
  negb (Z.land (List.nth (Z.to_nat (Z.shiftr c 5)) escape 0)
               (Z.shiftl 1 (Z.land c 0x1f)) =? 0).

(** [hex[i]] for [hex] = "0123456789ABCDEF" *)
Definition hex_upper (i : Z) : Z := List.nth (Z.to_nat i) (str "0123456789ABCDEF") 0.

(** With a null destination: the number of characters to be escaped. *)
Fixpoint escape_uri_count (escape : list Z) (src : list Z) : Z :=
  match src with
  | [] => 0
  | c :: src' => (if flagged escape c then 1 else 0) + escape_uri_count escape src'
  end.

(** Otherwise: the bytes written. *)
Fixpoint escape_uri_bytes (escape : list Z) (src : list Z) : list Z :=
  match src with
  | [] => []
  | c :: src' =>
      if flagged escape c then
        chr "%" :: hex_upper (Z.shiftr c 4) :: hex_upper (Z.land c 0xf) :: escape_uri_bytes escape src'
      else c :: escape_uri_bytes escape src'
  end.

(** Both results: the count, and the bytes. *)
Definition ngx_escape_uri (src : list Z) (type : Z) : Z * list Z :=
  (escape_uri_count (escape_map type) src, escape_uri_bytes (escape_map type) src).

(** ** [ngx_unescape_uri] *)

Definition NGX_UNESCAPE_URI : Z := 1.
Definition NGX_UNESCAPE_REDIRECT : Z := 2.

(** [type & mask] as a condition *)
Definition has (type mask : Z) : bool := negb (Z.land type mask =? 0).

Inductive un_state :=
| sw_usual
| sw_quoted
| sw_quoted_second.

(** The memory and the local variables. *)
Record un := mk_un {
  un_m : mem;
  un_d : Z;
  un_s : Z;
  un_st : un_state;
  un_dec : Z
}.

(** One iteration; [UnDone] is [goto done]. *)
Inductive un_out :=
| UnNext (v : un)
| UnDone (v : un).

(** [*d++ = c] *)
Definition un_put (c : Z) (v : un) : un :=
  mk_un (upd (un_m v) (un_d v) c) (un_d v + 1) (un_s v) (un_st v) (un_dec v).

Definition un_goto (st : un_state) (v : un) : un := mk_un (un_m v) (un_d v) (un_s v) st (un_dec v).

(** [*d++ = '%'; *d++ = *(s - 2); *d++ = *(s - 1)] *)
Definition un_verbatim (v : un) : un :=
  let v := un_put (chr "%") v in
  let v := un_put (un_m v (un_s v - 2)) v in
  un_put (un_m v (un_s v - 1)) v.

(** [case sw_usual] *)
Definition un_usual (type ch : Z) (v : un) : un_out :=
  if (ch =? chr "?") && has type (Z.lor NGX_UNESCAPE_URI NGX_UNESCAPE_REDIRECT) then UnDone (un_put ch v)
  else if ch =? chr "%" then UnNext (un_goto sw_quoted v)
  else UnNext (un_put ch v).

(** [case sw_quoted] *)
Definition un_quoted (ch : Z) (v : un) : un_out :=
  let second d := UnNext (mk_un (un_m v) (un_d v) (un_s v) sw_quoted_second (d mod 256)) in
  if (chr "0" <=? ch) && (ch <=? chr "9") then second (ch - chr "0")
  else
    let c := Z.lor ch 0x20 in
    if (chr "a" <=? c) && (c <=? chr "f") then second (c - chr "a" + 10)
    else UnNext (un_put ch (un_goto sw_usual v)).

(** [case sw_quoted_second] *)
Definition un_quoted_second (type ch : Z) (v : un) : un_out :=
  let v := un_goto sw_usual v in
  let redirect ch :=
    if (chr "%" <? ch) && (ch <? 0x7f) then un_put ch v else un_verbatim v in
  if (chr "0" <=? ch) && (ch <=? chr "9") then
    let ch := (Z.shiftl (un_dec v) 4 + (ch - chr "0")) mod 256 in
    if has type NGX_UNESCAPE_REDIRECT then UnNext (redirect ch) else UnNext (un_put ch v)
  else
    let c := Z.lor ch 0x20 in
    if (chr "a" <=? c) && (c <=? chr "f") then
      let ch := (Z.shiftl (un_dec v) 4 + (c - chr "a") + 10) mod 256 in
      if has type NGX_UNESCAPE_URI then
        if ch =? chr "?" then UnDone (un_put ch v) else UnNext (un_put ch v)
      else if has type NGX_UNESCAPE_REDIRECT then
        if ch =? chr "?" then UnDone (un_put ch v) else UnNext (redirect ch)
      else UnNext (un_put ch v)
    else UnNext v.

(** [ch = *s++; switch (state) ...] *)
Definition un_step (type : Z) (v : un) : un_out :=
  let ch := un_m v (un_s v) in
  let v := mk_un (un_m v) (un_d v) (un_s v + 1) (un_st v) (un_dec v) in
  match un_st v with
  | sw_usual => un_usual type ch v
  | sw_quoted => un_quoted ch v
  | sw_quoted_second => un_quoted_second type ch v
  end.

(** [while (size--)] *)
Fixpoint un_loop (size : nat) (type : Z) (v : un) : un :=
  match size with
  | O => v
  | S size' =>
      match un_step type v with
      | UnNext v' => un_loop size' type v'
      | UnDone v' => v'
      end
  end.

(** The memory, and the final values of [*dst] and [*src]. *)
Definition ngx_unescape_uri (M : mem) (dst src : Z) (size : nat) (type : Z) : mem * Z * Z :=
  let v := un_loop size type (mk_un M dst src sw_usual 0) in (un_m v, un_d v, un_s v).

(** ** [ngx_escape_html] *)

(** What is added to the length for a character. *)
Definition html_len (c : Z) : Z :=
  if c =? chr "<" then 3
  else if c =? chr ">" then 3
  else if c =? chr "&" then 4
  else if c =? DQUOTE then 5
  else 0.

Definition html_bytes (c : Z) : list Z :=
  if c =? chr "<" then str "&lt;"
  else if c =? chr ">" then str "&gt;"
  else if c =? chr "&" then str "&amp;"
  else if c =? DQUOTE then str "&quot;"
  else [c].

(** The length computed for a null destination, and the bytes written. *)
Definition ngx_escape_html (src : list Z) : Z * list Z :=
  (List.fold_left (fun n c => n + html_len c) src 0, List.flat_map html_bytes src).

(** ** [ngx_escape_json] *)

Abbreviation BACKSLASH := 92 (only parsing).
Abbreviation TAB := 9 (only parsing).
Abbreviation BS := 8 (only parsing).
Abbreviation FF := 12 (only parsing).

Definition json_len (ch : Z) : Z :=
  if (ch =? BACKSLASH) || (ch =? DQUOTE) then 1
  else if ch <=? 0x1f then
    if (ch =? LF) || (ch =? CR) || (ch =? TAB) || (ch =? BS) || (ch =? FF) then 1 else 5
  else 0.

Definition json_bytes (ch : Z) : list Z :=
  if 0x1f <? ch then
    (if (ch =? BACKSLASH) || (ch =? DQUOTE) then [BACKSLASH] else []) ++ [ch]
  else
    BACKSLASH ::
    (if ch =? LF then str "n"
     else if ch =? CR then str "r"
     else if ch =? TAB then str "t"
     else if ch =? BS then str "b"
     else if ch =? FF then str "f"
     else
       str "u00" ++ [chr "0" + Z.shiftr ch 4;
         let ch := Z.land ch 0xf in if ch <? 10 then chr "0" + ch else chr "A" + ch - 10]).

Definition ngx_escape_json (src : list Z) : Z * list Z :=
  (List.fold_left (fun n c => n + json_len c) src 0, List.flat_map json_bytes src).

(** ** Specification *)

(** A '?' ends the text for both types of unescaping. *)
Definition stops (type c : Z) : bool := (c =? chr "?") && has type 3.

(** Redirects keep the escapes of the characters that are not safe in one. *)
Definition kept (type c : Z) : bool :=
  has type NGX_UNESCAPE_REDIRECT && negb ((chr "%" <? c) && (c <? 0x7f)).

Definition emit (l : list Z) (x : list Z * list Z) : list Z * list Z := (l ++ fst x, snd x).

(** The unescaped text and the input left unread.  A '%' that is not followed
    by a hexadecimal digit disappears, as does one followed by a single
    digit, with the two characters after it; so does an incomplete one at the
    end. *)
Fixpoint unescape (type : Z) (l : list Z) : list Z * list Z :=
  match l with
  | [] => ([], [])
  | c :: l1 =>
      if stops type c then ([c], l1)
      else if c =? chr "%" then
        match l1 with
        | [] => ([], [])
        | a :: l2 =>
            match Number.hex_digit a with
            | None => emit [a] (unescape type l2)
            | Some x =>
                match l2 with
                | [] => ([], [])
                | b :: l3 =>
                    match Number.hex_digit b with
                    | None => unescape type l3
                    | Some y =>
                        let v := x * 16 + y in
                        if stops type v then ([v], l3)
                        else if kept type v then emit [chr "%"; a; b] (unescape type l3)
                        else emit [v] (unescape type l3)
                    end
                end
            end
        end
      else emit [c] (unescape type l1)
  end.

(** The text an HTML fragment without tags denotes, for the four entities. *)
Fixpoint html_text (l : list Z) : option (list Z) :=
  match l with
  | [] => Some []
  | 38 :: 108 :: 116 :: 59 :: l' => option_map (cons (chr "<")) (html_text l')
  | 38 :: 103 :: 116 :: 59 :: l' => option_map (cons (chr ">")) (html_text l')
  | 38 :: 97 :: 109 :: 112 :: 59 :: l' => option_map (cons (chr "&")) (html_text l')
  | 38 :: 113 :: 117 :: 111 :: 116 :: 59 :: l' => option_map (cons DQUOTE) (html_text l')
  | c :: l' =>
      if (c =? chr "&") || (c =? chr "<") || (c =? chr ">") || (c =? DQUOTE) then None
      else option_map (cons c) (html_text l')
  end.

(** The characters the inside of a JSON string denotes (RFC 8259), an escape
    by number being a character of one byte; [None] when it is not the
    inside of a string. *)
Fixpoint json_text (l : list Z) : option (list Z) :=
  match l with
  | [] => Some []
  | c :: l1 =>
      if c =? BACKSLASH then
        match l1 with
        | [] => None
        | e :: l2 =>
            if e =? chr "u" then
              match l2 with
              | h1 :: h2 :: h3 :: h4 :: l3 =>
                  match Number.hexadecimal_from 0 [h1; h2; h3; h4] with
                  | Some v => if v <? 256 then option_map (cons v) (json_text l3) else None
                  | None => None
                  end
              | _ => None
              end
            else if (e =? BACKSLASH) || (e =? DQUOTE) || (e =? chr "/") then
              option_map (cons e) (json_text l2)
            else if e =? chr "n" then option_map (cons LF) (json_text l2)
            else if e =? chr "r" then option_map (cons CR) (json_text l2)
            else if e =? chr "t" then option_map (cons TAB) (json_text l2)
            else if e =? chr "b" then option_map (cons BS) (json_text l2)
            else if e =? chr "f" then option_map (cons FF) (json_text l2)
            else None
        end
      else if (c =? DQUOTE) || (c <? 0x20) then None
      else option_map (cons c) (json_text l1)
  end.

(** ** Lemmas *)

(** Unescaping. *)

(** What a state still owes: the characters read since the '%'. *)
Definition pending (st : un_state) (c : Z) : list Z :=
  match st with
  | sw_usual => []
  | sw_quoted => [chr "%"]
  | sw_quoted_second => [chr "%"; c]
  end.

Definition valid (v : un) : Prop :=
  un_st v = sw_quoted_second -> Number.hex_digit (un_m v (un_s v - 1)) = Some (un_dec v).

(** The destination never runs over unread source. *)
Definition apart (v : un) (n : nat) : Prop :=
  un_d v + Z.of_nat (List.length (pending (un_st v) 0)) <= un_s v \/ un_s v + Z.of_nat n <= un_d v.

Definition result (v : un) (n : nat) (x : list Z * list Z) : un -> Prop := fun v' =>
  un_m v' = write (un_m v) (un_d v) (fst x) /\
  un_d v' = un_d v + Z.of_nat (List.length (fst x)) /\
  un_s v' = un_s v + Z.of_nat n - Z.of_nat (List.length (snd x)).

Lemma un_quoted_hex ch v :
  un_quoted ch v =
  match Number.hex_digit ch with
  | Some d => UnNext (mk_un (un_m v) (un_d v) (un_s v) sw_quoted_second d)
  | None => UnNext (un_put ch (un_goto sw_usual v))
  end.
Proof.
  unfold un_quoted, Number.hex_digit. cbv zeta.
  destruct ((48 <=? ch) && (ch <=? 57)) eqn:E1; [now rewrite Z.mod_small by lia |].
  destruct ((97 <=? Z.lor ch 32) && (Z.lor ch 32 <=? 102)) eqn:E2; [now rewrite Z.mod_small by lia | done].
Qed.

Lemma un_quoted_second_hex type ch v :
  type = 0 \/ type = NGX_UNESCAPE_URI \/ type = NGX_UNESCAPE_REDIRECT -> 0 <= un_dec v <= 15 ->
  un_quoted_second type ch v =
  match Number.hex_digit ch with
  | None => UnNext (un_goto sw_usual v)
  | Some y =>
      let c := un_dec v * 16 + y in
      if stops type c then UnDone (un_put c (un_goto sw_usual v))
      else if kept type c then UnNext (un_verbatim (un_goto sw_usual v))
      else UnNext (un_put c (un_goto sw_usual v))
  end.
Proof.
  intros Ht Hd. unfold un_quoted_second, Number.hex_digit. cbv zeta.
  assert (E : Z.shiftl (un_dec v) 4 = un_dec v * 16) by (now rewrite Z.shiftl_mul_pow2 by lia).
  unfold stops, kept. change (un_dec (un_goto sw_usual v)) with (un_dec v). rewrite E.
  destruct ((48 <=? ch) && (ch <=? 57)) eqn:E1.
  - rewrite Z.mod_small by lia. set (c := un_dec v * 16 + (ch - 48)).
    replace (c =? 63) with false by (unfold c; lia). cbn [andb].
    destruct Ht as [-> | [-> | ->]]; cbn [has Z.land negb Z.eqb andb]; try done.
    unfold has. cbn. now destruct ((37 <? c) && (c <? 127)).
  - destruct ((97 <=? Z.lor ch 32) && (Z.lor ch 32 <=? 102)) eqn:E2; [|done].
    rewrite Z.mod_small by lia. replace (un_dec v * 16 + (Z.lor ch 32 - 97) + 10) with
      (un_dec v * 16 + (Z.lor ch 32 - 97 + 10)) by lia.
    set (c := un_dec v * 16 + (Z.lor ch 32 - 97 + 10)).
    destruct Ht as [-> | [-> | ->]]; unfold has; cbn.
    + now rewrite andb_false_r.
    + now destruct (c =? 63).
    + destruct (c =? 63); [done |]. now destruct ((37 <? c) && (c <? 127)).
Qed.

(** [e] is written and the rest of the input gives [x]. *)
Lemma result_emit v v1 v' n e x :
  un_m v1 = write (un_m v) (un_d v) e -> un_d v1 = un_d v + Z.of_nat (List.length e) ->
  un_s v1 = un_s v + 1 -> result v1 n x v' -> result v (S n) (emit e x) v'.
Proof.
  intros Em Ed Es (Hm & Hd & Hs). unfold result, emit. cbn [fst snd].
  rewrite Hm, Hd, Hs, Em, Ed, Es, write_app, List.length_app. repeat split; lia.
Qed.

Lemma emit_nil x : emit [] x = x.
Proof. now destruct x. Qed.

(** The unread source is not changed by a write of the destination. *)
Lemma unread_same M d s n e k :
  d + Z.of_nat (List.length e) <= s + 1 \/ s + Z.of_nat (S n) <= d ->
  s + Z.of_nat (S n) = k ->
  range (write M d e) (s + 1) k = range M (s + 1) k.
Proof. intros H <-. apply range_ext, agree_write. lia. Qed.

Lemma unescape_percent type l1 :
  unescape type (chr "%" :: l1) =
  match l1 with
  | [] => ([], [])
  | a :: l2 =>
      match Number.hex_digit a with
      | None => emit [a] (unescape type l2)
      | Some x =>
          match l2 with
          | [] => ([], [])
          | b :: l3 =>
              match Number.hex_digit b with
              | None => unescape type l3
              | Some y =>
                  let v := x * 16 + y in
                  if stops type v then ([v], l3)
                  else if kept type v then emit [chr "%"; a; b] (unescape type l3)
                  else emit [v] (unescape type l3)
              end
          end
      end
  end.
Proof. destruct l1 as [|a l2]; [done |]. reflexivity. Qed.

Lemma unescape_stop type c l : stops type c = true -> unescape type (c :: l) = ([c], l).
Proof. intros H. cbn [unescape]. now rewrite H. Qed.

Lemma unescape_other type c l :
  stops type c = false -> c <> chr "%" -> unescape type (c :: l) = emit [c] (unescape type l).
Proof. intros H N. cbn [unescape]. rewrite H. now destruct (Z.eqb_spec c 37). Qed.

Section Loop.
Context (type : Z) (Ht : type = 0 \/ type = NGX_UNESCAPE_URI \/ type = NGX_UNESCAPE_REDIRECT).

(** The input [v] is about to see, with what it still owes. *)
Definition text (v : un) (n : nat) : list Z :=
  pending (un_st v) (un_m v (un_s v - 1)) ++ range (un_m v) (un_s v) (un_s v + Z.of_nat n).

Definition correct (n : nat) : Prop := forall v,
  valid v -> apart v n -> result v n (unescape type (text v n)) (un_loop n type v).

Lemma correct_end : correct 0.
Proof using type.
  intros [M d s st dec] Hv _. unfold text, result. cbn [un_m un_d un_s un_st un_dec] in *.
  rewrite range_nil by lia. cbn [un_loop un_m un_d un_s]. replace (unescape _ _) with (@nil Z, @nil Z).
  - cbn. repeat split; lia.
  - destruct st; [done | done |]. specialize (Hv eq_refl). cbn [un_m un_d un_s un_st un_dec] in Hv.
    cbn [pending List.app]. now rewrite unescape_percent, Hv.
Qed.

(** A step that writes [e], after which the machine is in the usual state. *)
Lemma step_emit n M d s st dec e dec' :
  correct n -> apart (mk_un M d s st dec) (S n) ->
  (List.length e <= S (List.length (pending st 0)))%nat ->
  result (mk_un M d s st dec) (S n) (emit e (unescape type (range M (s + 1) (s + Z.of_nat (S n)))))
    (un_loop n type (mk_un (write M d e) (d + Z.of_nat (List.length e)) (s + 1) sw_usual dec')).
Proof using type.
  intros IH Ha He. unfold apart in Ha. cbn [un_m un_d un_s un_st] in Ha.
  eapply result_emit with (v1 := mk_un (write M d e) (d + Z.of_nat (List.length e)) (s + 1) sw_usual dec');
    [reflexivity.. |].
  rewrite <- (unread_same M d s n e (s + Z.of_nat (S n))) by lia.
  replace (s + Z.of_nat (S n)) with (s + 1 + Z.of_nat n) by lia.
  apply IH; [done |]. unfold apart. cbn [un_m un_d un_s un_st pending List.length]. lia.
Qed.

Lemma step_stop n M d s st dec c dec' :
  result (mk_un M d s st dec) (S n) ([c], range M (s + 1) (s + Z.of_nat (S n)))
    (mk_un (upd M d c) (d + 1) (s + 1) sw_usual dec').
Proof using. unfold result. cbn [un_m un_d un_s fst snd write List.length]. rewrite length_range. repeat split; lia. Qed.

(** A step that writes nothing. *)
Lemma step_silent n M d s st dec st' dec' :
  correct n -> apart (mk_un M d s st dec) (S n) ->
  valid (mk_un M d (s + 1) st' dec') ->
  (List.length (pending st' 0) <= S (List.length (pending st 0)))%nat ->
  result (mk_un M d s st dec) (S n)
    (unescape type (pending st' (M s) ++ range M (s + 1) (s + Z.of_nat (S n))))
    (un_loop n type (mk_un M d (s + 1) st' dec')).
Proof using type.
  intros IH Ha Hv Hp. rewrite <- (emit_nil (unescape _ _)).
  eapply result_emit with (v1 := mk_un M d (s + 1) st' dec'); [reflexivity | | reflexivity |].
  { cbn [un_d List.length]. lia. }
  replace (s + Z.of_nat (S n)) with (s + 1 + Z.of_nat n) by lia.
  replace (M s) with (M (s + 1 - 1)) by (f_equal; lia).
  apply IH; [done |]. unfold apart in *. cbn [un_m un_d un_s un_st] in *. lia.
Qed.

Lemma correct_step n : correct n -> correct (S n).
Proof using Ht.
  intros IH [M d s st dec] Hv Ha. unfold text. cbn [un_m un_d un_s un_st].
  rewrite range_cons by lia. cbn [un_loop]. unfold un_step. cbn [un_m un_d un_s un_st un_dec].
  set (c := M s). destruct st; cbn [pending List.app].
  - unfold un_usual. change (Z.lor NGX_UNESCAPE_URI NGX_UNESCAPE_REDIRECT) with 3.
    change ((c =? 63) && has type 3) with (stops type c). destruct (stops type c) eqn:Es.
    { rewrite unescape_stop by done. apply step_stop. }
    destruct (Z.eqb_spec c 37) as [Ec |].
    + rewrite Ec. apply (step_silent n M d s sw_usual dec sw_quoted dec); [done | done | done |]. cbn. lia.
    + rewrite unescape_other by done. apply (step_emit n M d s sw_usual dec [c] dec); [done | done |]. cbn. lia.
  - rewrite un_quoted_hex, unescape_percent. cbn [un_m un_d un_s un_st un_dec].
    destruct (Number.hex_digit c) as [x|] eqn:Ex.
    + replace (match range M (s + 1) (s + Z.of_nat (S n)) with [] => _ | _ => _ end) with
        (unescape type ([chr "%"; c] ++ range M (s + 1) (s + Z.of_nat (S n)))).
      2: { cbn [List.app]. rewrite unescape_percent, Ex. done. }
      apply (step_silent n M d s sw_quoted dec sw_quoted_second x); [done | done | | cbn; lia].
      intros _. cbn [un_m un_s un_dec]. now replace (s + 1 - 1) with s by lia.
    + apply (step_emit n M d s sw_quoted dec [c] dec); [done | done |]. cbn. lia.
  - specialize (Hv eq_refl). cbn [un_m un_d un_s un_st un_dec] in Hv.
    rewrite unescape_percent, Hv. rewrite un_quoted_second_hex by (done || cbn [un_dec]; now apply Number.hex_digit_range in Hv).
    cbn [un_m un_d un_s un_st un_dec].
    destruct (Number.hex_digit c) as [y|] eqn:Ey.
    2: { apply (step_silent n M d s sw_quoted_second dec sw_usual dec); [done | done | done |]. cbn. lia. }
    cbv zeta. set (w := dec * 16 + y). destruct (stops type w); [apply step_stop |].
    destruct (kept type w).
    + set (a := M (s - 1)).
      replace (un_verbatim _) with (mk_un (write M d [chr "%"; a; c]) (d + 3) (s + 1) sw_usual dec).
      { apply (step_emit n M d s sw_quoted_second dec [chr "%"; a; c] dec); [done | done |]. cbn. lia. }
      unfold apart in Ha. cbn [un_m un_d un_s un_st pending List.length] in Ha.
      unfold un_verbatim, un_put, un_goto. cbn [un_m un_d un_s un_st un_dec write].
      replace (s + 1 - 2) with (s - 1) by lia. replace (s + 1 - 1) with s by lia.
      rewrite !upd_ne by lia. f_equal; lia.
    + apply (step_emit n M d s sw_quoted_second dec [w] dec); [done | done |]. cbn. lia.
Qed.

Lemma un_loop_spec n : correct n.
Proof using Ht. induction n as [|n IH]; [apply correct_end | now apply correct_step]. Qed.

End Loop.

(** Escaping of URIs. *)

Lemma length_escape_uri t l :
  Z.of_nat (List.length (escape_uri_bytes t l)) = Z.of_nat (List.length l) + 2 * escape_uri_count t l.
Proof.
  induction l as [|c l IH]; [done |]. cbn [escape_uri_bytes escape_uri_count].
  destruct (flagged t c); cbn [List.length]; lia.
Qed.

Lemma hex_upper_digits c : byte c ->
  Number.hex_digit (hex_upper (Z.shiftr c 4)) = Some (c / 16) /\
  Number.hex_digit (hex_upper (Z.land c 0xf)) = Some (c mod 16).
Proof.
  assert (G : forall c, byte c ->
    (match Number.hex_digit (hex_upper (Z.shiftr c 4)), Number.hex_digit (hex_upper (Z.land c 0xf)) with
     | Some x, Some y => (x =? c / 16) && (y =? c mod 16)
     | _, _ => false
     end) = true).
  { byte_cases (fun c => match Number.hex_digit (hex_upper (Z.shiftr c 4)), Number.hex_digit (hex_upper (Z.land c 0xf)) with
     | Some x, Some y => (x =? c / 16) && (y =? c mod 16)
     | _, _ => false
     end). }
  intros H. specialize (G c H).
  destruct (Number.hex_digit (hex_upper (Z.shiftr c 4))), (Number.hex_digit (hex_upper (Z.land c 15))); try done.
  apply andb_prop in G as [->%Z.eqb_eq ->%Z.eqb_eq]. done.
Qed.

Lemma unescape_escaped t l :
  flagged t (chr "%") = true -> Forall byte l -> unescape 0 (escape_uri_bytes t l) = (l, []).
Proof.
  intros Ht H. induction H as [|c l Hc _ IH]; [done |]. cbn [escape_uri_bytes].
  assert (Es : forall x, stops 0 x = false) by (intros x; apply andb_false_r).
  destruct (flagged t c) eqn:E.
  - rewrite unescape_percent. destruct (hex_upper_digits c Hc) as [-> ->]. cbv zeta.
    rewrite Es. change (kept 0 _) with false. rewrite IH. unfold emit. cbn [fst snd List.app].
    do 2 f_equal. pose proof (Z.div_mod c 16). lia.
  - rewrite unescape_other, IH; [done | apply Es |]. intros ->. congruence.
Qed.

(** The characters that RFC 3986 calls unreserved. *)
Definition unreserved (c : Z) : bool :=
  is_alpha c || is_digit c || (c =? chr "-") || (c =? chr ".") || (c =? chr "_") || (c =? chr "~").

Definition escape_types : list Z := [0; 1; 2; 3; 4; 5; 6].

(** What an escaped text is made of. *)
Definition escaped_char (t : list Z) (c : Z) : bool :=
  negb (flagged t c) || (c =? chr "%") || is_digit c || ((chr "A" <=? c) && (c <=? chr "F")).

Lemma hex_upper_char c : byte c ->
  let ok x := is_digit x || ((chr "A" <=? x) && (x <=? chr "F")) in
  ok (hex_upper (Z.shiftr c 4)) = true /\ ok (hex_upper (Z.land c 0xf)) = true.
Proof.
  assert (G : forall c, byte c ->
    (let ok x := is_digit x || ((chr "A" <=? x) && (x <=? chr "F")) in
     ok (hex_upper (Z.shiftr c 4)) && ok (hex_upper (Z.land c 0xf))) = true).
  { byte_cases (fun c => let ok x := is_digit x || ((chr "A" <=? x) && (x <=? chr "F")) in
     ok (hex_upper (Z.shiftr c 4)) && ok (hex_upper (Z.land c 0xf))). }
  intros H. apply andb_prop, (G c H).
Qed.

Lemma escape_uri_chars t l :
  Forall byte l -> Forall (fun c => escaped_char t c = true) (escape_uri_bytes t l).
Proof.
  intros H. induction H as [|c l Hc _ IH]; [constructor |]. cbn [escape_uri_bytes]. unfold escaped_char in *.
  destruct (flagged t c) eqn:E.
  - destruct (hex_upper_char c Hc) as [G1 G2]. repeat constructor; try done.
    + now rewrite orb_true_r.
    + rewrite <- orb_assoc, G1. now rewrite orb_true_r.
    + rewrite <- orb_assoc, G2. now rewrite orb_true_r.
  - constructor; [|done]. now rewrite E.
Qed.

Lemma escape_uri_byte t l : Forall byte l -> Forall byte (escape_uri_bytes t l).
Proof.
  intros H. induction H as [|c l Hc _ IH]; [constructor |]. cbn [escape_uri_bytes].
  destruct (flagged t c); [|now constructor]. destruct (hex_upper_char c Hc) as [G1 G2].
  unfold is_digit in *. unfold byte in *. repeat constructor; (done || lia).
Qed.

(** HTML and JSON. *)

Lemma length_flat_map (f : Z -> list Z) (n : Z -> Z) l k :
  (forall c, Z.of_nat (List.length (f c)) = 1 + n c) ->
  Z.of_nat (List.length (List.flat_map f l)) + k =
  Z.of_nat (List.length l) + List.fold_left (fun m c => m + n c) l k.
Proof.
  intros H. revert k. induction l as [|c l IH]; intros k; [done |].
  cbn [List.flat_map List.length List.fold_left]. rewrite List.length_app.
  specialize (IH (k + n c)). specialize (H c). lia.
Qed.

Lemma html_text_cons c l :
  html_text (html_bytes c ++ l) = option_map (cons c) (html_text l).
Proof.
  unfold html_bytes. destruct (Z.eqb_spec c 60) as [-> |]; [done |].
  destruct (Z.eqb_spec c 62) as [-> |]; [done |]. destruct (Z.eqb_spec c 38) as [-> |]; [done |].
  destruct (Z.eqb_spec c 34) as [-> |]; [done |].
  assert (E : forall l', html_text (c :: l') =
    (if (c =? 38) || (c =? 60) || (c =? 62) || (c =? 34) then None else option_map (cons c) (html_text l'))).
  { intros l'. destruct c as [|c|]; [reflexivity | | reflexivity].
    do 6 (destruct c as [c|c|]; try reflexivity); lia. }
  cbn [List.app]. rewrite E. replace ((c =? 38) || _ || _ || _) with false by lia. done.
Qed.

Lemma json_text_cons c l :
  byte c -> json_text (json_bytes c ++ l) = option_map (cons c) (json_text l).
Proof.
  unfold byte, json_bytes. intros Hc. destruct (Z.ltb_spec 31 c) as [Hl | Hl].
  - destruct ((c =? 92) || (c =? 34)) eqn:E; cbn [List.app json_text].
    + replace (c =? 117) with false by lia. now rewrite E.
    + replace (c =? 92) with false by lia. replace ((c =? 34) || (c <? 32)) with false by lia. done.
  - destruct (Z.eqb_spec c 10) as [-> |]; [done |]. destruct (Z.eqb_spec c 13) as [-> |]; [done |].
    destruct (Z.eqb_spec c 9) as [-> |]; [done |]. destruct (Z.eqb_spec c 8) as [-> |]; [done |].
    destruct (Z.eqb_spec c 12) as [-> |]; [done |].
    assert (G : forall c, byte c -> ((31 <? c) ||
      match Number.hexadecimal_from 0 [48; 48; 48 + Z.shiftr c 4; (let ch := Z.land c 0xf in if ch <? 10 then 48 + ch else 65 + ch - 10)] with
      | Some v => v =? c | None => false end) = true).
    { byte_cases (fun c => (31 <? c) ||
      match Number.hexadecimal_from 0 [48; 48; 48 + Z.shiftr c 4; (let ch := Z.land c 0xf in if ch <? 10 then 48 + ch else 65 + ch - 10)] with
      | Some v => v =? c | None => false end). }
    specialize (G c Hc). destruct (Z.ltb_spec 31 c); [lia |]. cbn [orb] in G.
    cbn [List.app json_text Z.eqb Pos.eqb].
    destruct (Number.hexadecimal_from 0 _) as [v|]; [|done]. apply Z.eqb_eq in G as ->.
    now replace (c <? 256) with true by lia.
Qed.

(** ** Properties *)

(** C32: [ngx_unescape_uri], for each type its callers pass and also when it works
    in place or on overlapping strings (the destination not above the source,
    or beyond it): it writes exactly the unescaped text, nothing else in
    memory, and leaves [*src] at the first byte it did not consume; the
    destination never overtakes the source. *)
Theorem unescape_uri_in_place M dst src size type :
  type = 0 \/ type = NGX_UNESCAPE_URI \/ type = NGX_UNESCAPE_REDIRECT ->
  dst <= src \/ src + Z.of_nat size <= dst ->
  let out := fst (unescape type (range M src (src + Z.of_nat size))) in
  let rest := snd (unescape type (range M src (src + Z.of_nat size))) in
  ngx_unescape_uri M dst src size type =
    (write M dst out, dst + Z.of_nat (List.length out), src + Z.of_nat size - Z.of_nat (List.length rest)).
Proof.
  intros Ht Ha out rest.
  destruct (un_loop_spec type Ht size (mk_un M dst src sw_usual 0)) as (Em & Ed & Es); [done | |].
  { unfold apart. cbn. lia. }
  unfold ngx_unescape_uri. rewrite Em, Ed, Es. done.
Qed.

(** Unescaping in place what [ngx_escape_uri] wrote gives the original back
    and consumes all of it, for every type but [NGX_ESCAPE_REFRESH], which
    keeps the '%' of a URI that is already escaped.  For every type the
    length is the source's and two for each character the first pass
    counted, and nothing the bitmap flags is left but in an escape: a
    component escaped by [NGX_ESCAPE_URI_COMPONENT] consists of unreserved
    characters and '%'. *)
Theorem escape_uri_round_trip M p l type :
  Forall byte l -> 0 <= type <= 6 ->
  let '(n, out) := ngx_escape_uri l type in
  Z.of_nat (List.length out) = Z.of_nat (List.length l) + 2 * n /\
  Forall (fun c => escaped_char (escape_map type) c = true) out /\
  (type = NGX_ESCAPE_URI_COMPONENT ->
   Forall (fun c => unreserved c || (c =? chr "%") = true) out) /\
  (type <> NGX_ESCAPE_REFRESH -> holds M p out ->
   ngx_unescape_uri M p p (List.length out) 0 =
     (write M p l, p + Z.of_nat (List.length l), p + Z.of_nat (List.length out))).
Proof.
  intros Hl Ht. unfold ngx_escape_uri. set (t := escape_map type).
  split; [apply length_escape_uri |]. split; [now apply escape_uri_chars |]. split.
  - intros ->. eapply List.Forall_impl;
      [|apply List.Forall_and; [apply escape_uri_chars, Hl | apply (escape_uri_byte t), Hl]].
    assert (G : forall c, byte c -> (negb (escaped_char (escape_map 2) c) || (unreserved c || (c =? 37))) = true).
    { byte_cases (fun c => negb (escaped_char (escape_map 2) c) || (unreserved c || (c =? 37))). }
    intros c [Hc Hb]. specialize (G c Hb). unfold t, NGX_ESCAPE_URI_COMPONENT in Hc. now rewrite Hc in G.
  - intros Hn Hp. unfold NGX_ESCAPE_REFRESH in Hn.
    assert (Ef : flagged t (chr "%") = true).
    { unfold t. assert (type = 0 \/ type = 1 \/ type = 2 \/ type = 3 \/ type = 5 \/ type = 6) as
        [-> | [-> | [-> | [-> | [-> | ->]]]]] by lia; reflexivity. }
    destruct (un_loop_spec 0 ltac:(now left) (List.length (escape_uri_bytes t l)) (mk_un M p p sw_usual 0))
      as (Em & Ed & Es); [done | unfold apart; cbn; lia |].
    unfold text in Em, Ed, Es. cbn [un_m un_d un_s un_st pending List.app] in *.
    rewrite (holds_range M p _ _ Hp), (unescape_escaped t l Ef Hl) in Em, Ed, Es by lia.
    unfold ngx_unescape_uri. rewrite Em, Ed, Es. cbn [fst snd List.length]. repeat f_equal. lia.
Qed.

(** [ngx_escape_html] and [ngx_escape_json] lose nothing and leave nothing
    dangerous: reading the result as HTML text, or as the inside of a JSON
    string, succeeds and gives the original; both lengths are what the first
    pass computed for the allocation. *)
Theorem escape_html_json_text l :
  Forall byte l ->
  html_text (snd (ngx_escape_html l)) = Some l /\
  json_text (snd (ngx_escape_json l)) = Some l /\
  Z.of_nat (List.length (snd (ngx_escape_html l))) = Z.of_nat (List.length l) + fst (ngx_escape_html l) /\
  Z.of_nat (List.length (snd (ngx_escape_json l))) = Z.of_nat (List.length l) + fst (ngx_escape_json l).
Proof.
  intros H. unfold ngx_escape_html, ngx_escape_json. cbn [fst snd]. repeat split.
  - clear H. induction l as [|c l IH]; [done |]. cbn [List.flat_map]. now rewrite html_text_cons, IH.
  - induction H as [|c l Hc _ IH]; [done |]. cbn [List.flat_map]. now rewrite json_text_cons, IH.
  - rewrite <- (length_flat_map html_bytes html_len l 0); [lia |]. intros c. unfold html_bytes, html_len.
    repeat (destruct (_ =? _); [reflexivity |]). reflexivity.
  - rewrite <- (length_flat_map json_bytes json_len l 0); [lia |]. intros c. unfold json_bytes, json_len.
    destruct (Z.ltb_spec 31 c) as [Hl | Hl].
    + replace (c <=? 31) with false by lia. now destruct ((c =? 92) || (c =? 34)).
    + replace ((c =? 92) || (c =? 34)) with false by lia. replace (c <=? 31) with true by lia.
      destruct (c =? 10); [done |]. destruct (c =? 13); [done |]. destruct (c =? 9); [done |].
      destruct (c =? 8); [done |]. now destruct (c =? 12).
Qed.

Definition ex_path : list Z := str "/a%2fb%3Fx%zz".

Lemma unescape_uri_in_place_witness :
  ngx_unescape_uri (mem_of 100 ex_path) 100 100 13 0 = (write (mem_of 100 ex_path) 100 (str "/a/b?xzz"), 108, 113) /\
  ngx_unescape_uri (mem_of 100 ex_path) 100 100 13 NGX_UNESCAPE_URI =
    (write (mem_of 100 ex_path) 100 (str "/a/b?"), 105, 109).
Proof.
  split.
  - exact (unescape_uri_in_place (mem_of 100 ex_path) 100 100 13 0 ltac:(now left) ltac:(lia)).
  - exact (unescape_uri_in_place (mem_of 100 ex_path) 100 100 13 NGX_UNESCAPE_URI ltac:(now right; left) ltac:(lia)).
Defined.

Lemma escape_uri_round_trip_witness :
  ngx_escape_uri (str "a b&c") NGX_ESCAPE_URI_COMPONENT = (2, str "a%20b%26c") /\
  ngx_unescape_uri (mem_of 50 (str "a%20b%26c")) 50 50 9 0 =
    (write (mem_of 50 (str "a%20b%26c")) 50 (str "a b&c"), 55, 59).
Proof.
  split; [reflexivity |].
  apply (escape_uri_round_trip (mem_of 50 (str "a%20b%26c")) 50 (str "a b&c") NGX_ESCAPE_URI_COMPONENT);
    [repeat constructor; unfold byte; lia | unfold NGX_ESCAPE_URI_COMPONENT; lia | done | apply mem_of_holds].
Defined.

Lemma escape_html_json_text_witness :
  ngx_escape_html (str "<a>&") = (10, str "&lt;a&gt;&amp;") /\
  html_text (str "&lt;a&gt;&amp;") = Some (str "<a>&") /\
  snd (ngx_escape_json [0x1f; BACKSLASH; LF]) = str "\u001F\\\n".
Proof.
  split; [reflexivity |]. split; [|reflexivity].
  exact (proj1 (escape_html_json_text (str "<a>&") ltac:(repeat constructor; unfold byte; lia))).
Defined.

End Escape.
