(* ===== verification/NgxUtf8.v ===== *)
(** UTF-8 (src/core/ngx_string.c): [ngx_utf8_decode] and [ngx_utf8_length].
    The bytes available at [*p] are a list, [n] is its length. *)
From S2P Require Import Prelude.

#[local] Ltac Zify.zify_post_hook ::= Z.to_euclidean_division_equations.

Module Utf8.

Definition INVALID : Z := 0xffffffff.
Definition INCOMPLETE : Z := 0xfffffffe.

(** [u], [valid] and [len] for a first byte; [None] is the immediate error. *)
Definition utf8_lead (u : Z) : option (Z * Z * nat) :=
  if 0xf8 <=? u then None
  else if 0xf0 <=? u then Some (Z.land u 0x07, 0xffff, 3%nat)
  else if 0xe0 <=? u then Some (Z.land u 0x0f, 0x7ff, 2%nat)
  else if 0xc2 <=? u then Some (Z.land u 0x1f, 0x7f, 1%nat)
  else None.

(** [while (len)]: the character, or [None] for [return 0xffffffff], and the
    bytes left. *)
Fixpoint utf8_rest (len : nat) (u : Z) (p : list Z) : option Z * list Z :=
  match len, p with
  | O, _ => (Some u, p)
  | S _, [] => (None, [])
  | S len', i :: p' =>
      if i <? 0x80 then (None, p')
      else utf8_rest len' (Z.lor (Z.shiftl u 6) (Z.land i 0x3f)) p'
  end.

(** The result and the bytes from the new [*p] on. *)
Definition ngx_utf8_decode (p : list Z) : Z * list Z :=
  match p with
  | [] => (INVALID, [])
  | c :: p' =>
      match utf8_lead c with
      | None => (INVALID, p')
      | Some (u, valid, len) =>
          if (List.length p - 1 <? len)%nat then (INCOMPLETE, p)
          else
            match utf8_rest len u p' with
            | (None, r) => (INVALID, r)
            | (Some u, r) => (if valid <? u then u else INVALID, r)
            end
      end
  end.

(** [for (len = 0; p < last; len++)]: every iteration takes a byte, the length
    of the input is fuel enough.  [None] is [return n]. *)
Fixpoint utf8_count (fuel : nat) (p : list Z) (len : Z) : option Z :=
  match fuel, p with
  | _, [] => Some len
  | O, _ => None
  | S fuel', c :: p' =>
      if c <? 0x80 then utf8_count fuel' p' (len + 1)
      else
        let '(u, r) := ngx_utf8_decode p in
        if 0x10ffff <? u then None else utf8_count fuel' r (len + 1)
  end.

Definition ngx_utf8_length (p : list Z) : Z :=
  match utf8_count (List.length p) p 0 with
  | Some len => len
  | None => Z.of_nat (List.length p)
  end.

(** ** Specification *)

(** A continuation byte with the six low bits of [x]. *)
Definition cont (x : Z) : Z := 0x80 + x mod 64.

(** The encoding of a code point (RFC 3629). *)
Definition utf8 (u : Z) : list Z :=
  if u <? 0x80 then [u]
  else if u <? 0x800 then [0xc0 + u / 64; cont u]
  else if u <? 0x10000 then [0xe0 + u / 4096; cont (u / 64); cont u]
  else [0xf0 + u / 262144; cont (u / 4096); cont (u / 64); cont u].

(** ** Lemmas *)

Lemma low_bits c k : 0 <= k -> Z.land c (Z.ones k) = c mod 2 ^ k.
Proof. apply land_low. Qed.

Lemma add_six u i : Z.lor (Z.shiftl u 6) (Z.land i 0x3f) = u * 64 + i mod 64.
Proof.
  change 0x3f with (Z.ones 6). rewrite low_bits by lia. change (2 ^ 6) with 64.
  rewrite lor_shiftl_add; lia.
Qed.

Lemma utf8_lead_cases c u valid len :
  byte c -> utf8_lead c = Some (u, valid, len) ->
  (len = 1%nat /\ valid = 0x7f /\ c = 0xc0 + u /\ 2 <= u < 32) \/
  (len = 2%nat /\ valid = 0x7ff /\ c = 0xe0 + u /\ 0 <= u < 16) \/
  (len = 3%nat /\ valid = 0xffff /\ c = 0xf0 + u /\ 0 <= u < 8).
Proof.
  unfold byte, utf8_lead. intros Hc H.
  change 0x07 with (Z.ones 3) in H. change 0x0f with (Z.ones 4) in H. change 0x1f with (Z.ones 5) in H.
  rewrite !low_bits in H by lia. change (2 ^ 3) with 8 in H. change (2 ^ 4) with 16 in H. change (2 ^ 5) with 32 in H.
  cases_of_eq H; simplify_eq; lia.
Qed.

Lemma utf8_lead_small c : c < 0x80 -> utf8_lead c = None.
Proof.
  intros H. unfold utf8_lead. replace (248 <=? c) with false by lia. replace (240 <=? c) with false by lia.
  replace (224 <=? c) with false by lia. now replace (194 <=? c) with false by lia.
Qed.

(** The value of a sequence with first bits [u] and continuation bytes [l]. *)
Lemma utf8_rest_app u l r :
  Forall (fun i => 0x80 <= i) l ->
  utf8_rest (List.length l) u (l ++ r) = (Some (List.fold_left (fun u i => u * 64 + i mod 64) l u), r).
Proof.
  intros H. revert u. induction H as [|i l Hi _ IH]; intros u; cbn [List.length List.app utf8_rest List.fold_left]; [done |].
  replace (i <? 128) with false by lia. now rewrite add_six, IH.
Qed.

Lemma utf8_rest_inv len u p w r :
  utf8_rest len u p = (Some w, r) ->
  exists l, p = l ++ r /\ List.length l = len /\ Forall (fun i => 0x80 <= i) l /\
    w = List.fold_left (fun u i => u * 64 + i mod 64) l u.
Proof.
  revert u p. induction len as [|len IH]; intros u p H; cbn [utf8_rest] in H.
  - injection H as <- <-. exists []. auto.
  - destruct p as [|i p]; [done |]. destruct (Z.ltb_spec i 128); [done |].
    rewrite add_six in H. destruct (IH _ _ H) as (l & -> & Hl & Hf & ->).
    exists (i :: l). cbn. repeat split; [lia | now constructor].
Qed.

(** The code points a first byte and continuation bytes spell. *)
Lemma utf8_sequence c u valid l w :
  byte c -> utf8_lead c = Some (u, valid, List.length l) ->
  w = List.fold_left (fun u i => u * 64 + i mod 64) l u -> w <= 0x10ffff ->
  valid < w <-> c :: List.map cont l = utf8 w /\ 0x80 <= w.
Proof.
  intros Hc H -> Hw. unfold utf8.
  destruct (utf8_lead_cases c u valid _ Hc H) as [(El & -> & -> & Hu) | [(El & -> & -> & Hu) | (El & -> & -> & Hu)]];
    destruct l as [|i1 [|i2 [|i3 [|]]]]; try done; clear El H; cbn [List.fold_left List.map].
  - set (w := u * 64 + i1 mod 64). assert (128 <= w < 2048) by (unfold w; lia).
    replace (w <? 128) with false by lia. replace (w <? 2048) with true by lia.
    split; [intros _ | lia]. split; [|lia]. unfold cont. repeat apply (f_equal2 cons); try done; unfold w; lia.
  - set (w := (u * 64 + i1 mod 64) * 64 + i2 mod 64). assert (0 <= w < 65536) by (unfold w; lia).
    destruct (Z.ltb_spec w 128); [split; [intros; exfalso; lia | intros [E _]; discriminate E] |].
    destruct (Z.ltb_spec w 2048); [split; [intros; exfalso; lia | intros [E _]; discriminate E] |].
    replace (w <? 65536) with true by lia. split; [intros _ | lia]. split; [|lia].
    unfold cont. repeat apply (f_equal2 cons); try done; unfold w; lia.
  - set (w := ((u * 64 + i1 mod 64) * 64 + i2 mod 64) * 64 + i3 mod 64). assert (0 <= w) by (unfold w; lia).
    destruct (Z.ltb_spec w 128); [split; [intros; exfalso; lia | intros [E _]; discriminate E] |].
    destruct (Z.ltb_spec w 2048); [split; [intros; exfalso; lia | intros [E _]; discriminate E] |].
    destruct (Z.ltb_spec w 65536); [split; [intros; exfalso; lia | intros [E _]; discriminate E] |].
    split; [intros _ | lia]. split; [|lia].
    unfold cont. repeat apply (f_equal2 cons); try done; unfold w; lia.
Qed.

(** Encodings are read back. *)
Lemma utf8_lead_two u : 2 <= u < 32 -> utf8_lead (0xc0 + u) = Some (u, 0x7f, 1%nat).
Proof.
  intros H. unfold utf8_lead. change 0x1f with (Z.ones 5). rewrite !low_bits by lia.
  replace (248 <=? 192 + u) with false by lia. replace (240 <=? 192 + u) with false by lia.
  replace (224 <=? 192 + u) with false by lia. replace (194 <=? 192 + u) with true by lia.
  change (2 ^ 5) with 32. repeat f_equal. lia.
Qed.

Lemma utf8_lead_three u : 0 <= u < 16 -> utf8_lead (0xe0 + u) = Some (u, 0x7ff, 2%nat).
Proof.
  intros H. unfold utf8_lead. change 0x0f with (Z.ones 4). rewrite !low_bits by lia.
  replace (248 <=? 224 + u) with false by lia. replace (240 <=? 224 + u) with false by lia.
  replace (224 <=? 224 + u) with true by lia. change (2 ^ 4) with 16. repeat f_equal. lia.
Qed.

Lemma utf8_lead_four u : 0 <= u < 8 -> utf8_lead (0xf0 + u) = Some (u, 0xffff, 3%nat).
Proof.
  intros H. unfold utf8_lead. change 0x07 with (Z.ones 3). rewrite !low_bits by lia.
  replace (248 <=? 240 + u) with false by lia. replace (240 <=? 240 + u) with true by lia.
  change (2 ^ 3) with 8. repeat f_equal. lia.
Qed.

Lemma cont_range x : 0x80 <= cont x < 0xc0 /\ cont x mod 64 = x mod 64.
Proof. unfold cont. lia. Qed.

Lemma utf8_head w :
  0x80 <= w <= 0x10ffff ->
  exists c l u valid, utf8 w = c :: l /\ byte c /\ 0x80 <= c /\ Forall (fun i => 0x80 <= i < 0xc0) l /\
    utf8_lead c = Some (u, valid, List.length l) /\
    List.fold_left (fun u i => u * 64 + i mod 64) l u = w /\ valid < w.
Proof.
  intros Hw. unfold utf8, byte. replace (w <? 128) with false by lia.
  destruct (Z.ltb_spec w 2048); [|destruct (Z.ltb_spec w 65536)].
  - exists (0xc0 + w / 64), [cont w], (w / 64), 0x7f. rewrite utf8_lead_two by lia.
    repeat split; (lia || (repeat constructor; apply cont_range) || idtac).
    cbn. rewrite (proj2 (cont_range _)). lia.
  - exists (0xe0 + w / 4096), [cont (w / 64); cont w], (w / 4096), 0x7ff. rewrite utf8_lead_three by lia.
    repeat split; (lia || (repeat constructor; apply cont_range) || idtac).
    cbn. rewrite !(proj2 (cont_range _)). lia.
  - exists (0xf0 + w / 262144), [cont (w / 4096); cont (w / 64); cont w], (w / 262144), 0xffff.
    rewrite utf8_lead_four by lia.
    repeat split; (lia || (repeat constructor; apply cont_range) || idtac).
    cbn. rewrite !(proj2 (cont_range _)). lia.
Qed.

Lemma decode_utf8 w r : 0x80 <= w <= 0x10ffff -> ngx_utf8_decode (utf8 w ++ r) = (w, r).
Proof.
  intros Hw. destruct (utf8_head w Hw) as (c & l & u & valid & -> & _ & _ & Hl & Hlead & Hv & Hg).
  cbn [List.app ngx_utf8_decode]. rewrite Hlead. cbn [List.length]. rewrite List.length_app.
  replace (_ <? _)%nat with false by (symmetry; apply Nat.ltb_ge; lia).
  rewrite utf8_rest_app, Hv by (eapply List.Forall_impl; [|exact Hl]; cbv beta; lia).
  now replace (valid <? w) with true by lia.
Qed.

Lemma utf8_nonempty w : utf8 w <> [].
Proof. unfold utf8. repeat destruct (_ <? _); discriminate. Qed.

Lemma count_utf8 fuel us len :
  Forall (fun u => 0 <= u <= 0x10ffff) us -> (List.length (List.flat_map utf8 us) <= fuel)%nat ->
  utf8_count fuel (List.flat_map utf8 us) len = Some (len + Z.of_nat (List.length us)).
Proof.
  intros H. revert fuel len. induction H as [|u us Hu _ IH]; intros fuel len Hf; cbn [List.flat_map List.length].
  - destruct fuel; cbn; f_equal; lia.
  - cbn [List.flat_map] in Hf. rewrite List.length_app in Hf.
    destruct (Z.ltb_spec u 128) as [Hs | Hs].
    + unfold utf8 in *. replace (u <? 128) with true in * by lia. cbn [List.length] in Hf.
      destruct fuel as [|fuel]; [lia |]. cbn [List.app utf8_count]. replace (u <? 128) with true by lia.
      rewrite IH by lia. f_equal. lia.
    + destruct (utf8_head u ltac:(lia)) as (c & l & _ & _ & E & _ & Hc & _).
      pose proof (decode_utf8 u (List.flat_map utf8 us) ltac:(lia)) as Hd.
      rewrite E in *. cbn [List.length] in Hf. destruct fuel as [|fuel]; [lia |].
      cbn [List.app] in *. cbn [utf8_count]. replace (c <? 128) with false by lia. rewrite Hd.
      replace (1114111 <? u) with false by lia. rewrite IH by lia. f_equal. lia.
Qed.

(** ** Properties *)

(** [ngx_utf8_decode] accepts exactly the encodings of the code points from
    0x80 to 0x10ffff, in their shortest form, up to the two top bits of the
    continuation bytes, of which it checks only that one is set; it consumes
    exactly the encoding. *)
Theorem utf8_decode_exact p w r :
  Forall byte p -> p <> [] ->
  ngx_utf8_decode p = (w, r) /\ w <= 0x10ffff <->
  0x80 <= w <= 0x10ffff /\
  exists c l, p = c :: l ++ r /\ Forall (fun i => 0x80 <= i) l /\ c :: List.map cont l = utf8 w.
Proof.
  intros Hp Hne. destruct p as [|c p]; [done |]. apply Forall_cons_1 in Hp as [Hc Hp]. clear Hne.
  split.
  - intros [H Hw]. cbn [ngx_utf8_decode] in H. destruct (utf8_lead c) as [[[u valid] len]|] eqn:El.
    2: { injection H as <- <-. unfold INVALID in Hw. lia. }
    destruct (_ <? _)%nat; [injection H as <- <-; unfold INCOMPLETE in Hw; lia |].
    destruct (utf8_rest len u p) as [[w'|] r'] eqn:Er; [|injection H as <- <-; unfold INVALID in Hw; lia].
    destruct (Z.ltb_spec valid w') as [Hv |]; injection H as <- <-; [|unfold INVALID in Hw; lia].
    apply utf8_rest_inv in Er as (l & -> & <- & Hl & Ew).
    destruct (proj1 (utf8_sequence c u valid l w' Hc El Ew Hw) Hv) as [E Hlo].
    split; [done |]. exists c, l. done.
  - intros (Hw & c' & l & [= <- ->] & Hl & E). split; [|lia].
    destruct (utf8_head w Hw) as (c' & l' & u & valid & E' & _ & _ & _ & Hlead & Hv & Hg).
    rewrite E' in E. injection E as <- <-. rewrite List.length_map in Hlead.
    cbn [List.app ngx_utf8_decode]. rewrite Hlead. cbn [List.length]. rewrite List.length_app.
    replace (_ <? _)%nat with false by (symmetry; apply Nat.ltb_ge; lia).
    rewrite utf8_rest_app by done. replace (List.fold_left _ l u) with w; [now replace (valid <? w) with true by lia |].
    rewrite <- Hv. clear. revert u. induction l as [|i l IH]; intros u; [done |]. cbn [List.map List.fold_left].
    now rewrite IH, (proj2 (cont_range i)).
Qed.

(** [ngx_utf8_length] counts the characters of a text in UTF-8. *)
Theorem utf8_length_counts us :
  Forall (fun u => 0 <= u <= 0x10ffff) us ->
  ngx_utf8_length (List.flat_map utf8 us) = Z.of_nat (List.length us).
Proof. intros H. unfold ngx_utf8_length. now rewrite count_utf8. Qed.

(** "e" with an acute accent, and the euro sign. *)
Lemma utf8_decode_exact_witness :
  Forall byte [0xc3; 0xa9; 0x21] /\ ngx_utf8_decode [0xc3; 0xa9; 0x21] = (0xe9, [0x21]).
Proof.
  assert (H : Forall byte [0xc3; 0xa9; 0x21]) by (repeat constructor; unfold byte; lia).
  split; [exact H |].
  apply (proj2 (utf8_decode_exact [0xc3; 0xa9; 0x21] 0xe9 [0x21] H ltac:(done))).
  split; [lia |]. exists 0xc3, [0xa9]. repeat split; repeat constructor; lia.
Defined.

Lemma utf8_length_counts_witness : ngx_utf8_length [0x61; 0xc3; 0xa9; 0xe2; 0x82; 0xac] = 3.
Proof. exact (utf8_length_counts [0x61; 0xe9; 0x20ac] ltac:(repeat constructor; lia)). Defined.

(** A continuation byte of 0xc0 or more is taken: 0xc3 0xff passes for the
    encoding 0xc3 0xbf of U+00FF. *)
Example utf8_continuation_unchecked : ngx_utf8_decode [0xc3; 0xff] = (0xff, []).
Proof. reflexivity. Qed.

End Utf8.
