(* ===== verification/GmWord.v ===== *)
(** 32-bit words of GmSSL (include/gmssl/endian.h): big-endian loads and
    stores, rotation, and the facts about bits the ciphers need.  A word is a
    [Z] in [0, 2^32); bytes are a list. *)
From S2P Require Import Prelude.

#[local] Ltac Zify.zify_post_hook ::= Z.to_euclidean_division_equations.

Module Word.

Definition u32 (x : Z) : Prop := 0 <= x < 2 ^ 32.

(** [p[i]] *)
Definition nthb (p : list Z) (i : nat) : Z := List.nth i p 0.

(** The word of four bytes, the first one most significant. *)
Definition be32 (a b c d : Z) : Z :=
  Z.lor (Z.lor (Z.lor (Z.shiftl a 24) (Z.shiftl b 16)) (Z.shiftl c 8)) d.

(** [GETU32(p + i)] *)
Definition GETU32 (p : list Z) (i : nat) : Z :=
  be32 (nthb p i) (nthb p (i + 1)) (nthb p (i + 2)) (nthb p (i + 3)).

(** The four bytes [PUTU32] stores. *)
Definition PUTU32 (v : Z) : list Z :=
  [Z.shiftr v 24 mod 256; Z.shiftr v 16 mod 256; Z.shiftr v 8 mod 256; v mod 256].

(** [ROL32(a, n)] of a [uint32_t]. *)
Definition ROL32 (a n : Z) : Z := Z.lor (Z.shiftl a n mod 2 ^ 32) (Z.shiftr a (32 - n)).

(** [a + b] of [uint32_t]. *)
Definition add32 (a b : Z) : Z := (a + b) mod 2 ^ 32.

(** ** Buffers *)

Abbreviation bytes := (Forall byte).

(** [memcpy(block + off, data, len)] *)
Definition memcpy_at (block : list Z) (off : nat) (data : list Z) : list Z :=
  take off block ++ data ++ drop (off + List.length data) block.

Fixpoint le_bytes (n : nat) (v : Z) : list Z :=
  match n with
  | O => []
  | S n' => v mod 256 :: le_bytes n' (v / 256)
  end.

(** The [n]-byte big-endian representation of [v] modulo 256^[n]. *)
Definition be_bytes (n : nat) (v : Z) : list Z := List.rev (le_bytes n v).

(** ** Lemmas *)

Lemma be32_value a b c d :
  byte a -> byte b -> byte c -> byte d -> be32 a b c d = ((a * 256 + b) * 256 + c) * 256 + d.
Proof.
  unfold byte, be32. intros. rewrite (Z.shiftl_mul_pow2 b), (Z.shiftl_mul_pow2 c) by lia.
  change (2 ^ 16) with 65536. change (2 ^ 8) with 256.
  rewrite (lor_shiftl_add a (b * 65536) 24) by lia. change (2 ^ 24) with 16777216.
  replace (a * 16777216 + b * 65536) with (Z.shiftl (a * 256 + b) 16) by (rewrite Z.shiftl_mul_pow2; lia).
  rewrite (lor_shiftl_add _ (c * 256) 16) by lia. change (2 ^ 16) with 65536.
  replace ((a * 256 + b) * 65536 + c * 256) with (Z.shiftl ((a * 256 + b) * 256 + c) 8)
    by (rewrite Z.shiftl_mul_pow2; lia).
  rewrite (lor_shiftl_add _ d 8) by lia. lia.
Qed.

Lemma be32_range a b c d : byte a -> byte b -> byte c -> byte d -> u32 (be32 a b c d).
Proof.
  intros. rewrite be32_value by done. unfold byte, u32 in *. change (2 ^ 32) with 4294967296. lia.
Qed.

Lemma PUTU32_bytes v : Forall byte (PUTU32 v).
Proof. unfold PUTU32, byte. repeat constructor; lia. Qed.

Lemma PUTU32_be32 a b c d :
  byte a -> byte b -> byte c -> byte d -> PUTU32 (be32 a b c d) = [a; b; c; d].
Proof.
  intros. rewrite be32_value by done. unfold PUTU32, byte in *. rewrite !Z.shiftr_div_pow2 by lia.
  change (2 ^ 24) with 16777216. change (2 ^ 16) with 65536. change (2 ^ 8) with 256.
  repeat apply (f_equal2 cons); try done; lia.
Qed.

Lemma be32_PUTU32 v :
  u32 v ->
  be32 (Z.shiftr v 24 mod 256) (Z.shiftr v 16 mod 256) (Z.shiftr v 8 mod 256) (v mod 256) = v.
Proof.
  unfold u32. intros H. rewrite be32_value by (unfold byte; lia). rewrite !Z.shiftr_div_pow2 by lia.
  change (2 ^ 24) with 16777216. change (2 ^ 16) with 65536. change (2 ^ 8) with 256.
  change (2 ^ 32) with 4294967296 in H. lia.
Qed.

(** Words and bits. *)

Lemma u32_high x i : u32 x -> 32 <= i -> Z.testbit x i = false.
Proof.
  unfold u32. intros H Hi. rewrite <- (Z.mod_small x (2 ^ 32)) by done. now rewrite Z.mod_pow2_bits_high by lia.
Qed.

Lemma u32_of_bits x : 0 <= x -> (forall i, 32 <= i -> Z.testbit x i = false) -> u32 x.
Proof.
  intros H0 H. unfold u32. split; [done |].
  assert (E : x = x mod 2 ^ 32).
  { apply Z.bits_inj'. intros i Hi. destruct (Z.ltb_spec i 32).
    - now rewrite Z.mod_pow2_bits_low by lia.
    - rewrite Z.mod_pow2_bits_high by lia. now apply H. }
  rewrite E. apply Z.mod_pos_bound. lia.
Qed.

Lemma u32_lxor a b : u32 a -> u32 b -> u32 (Z.lxor a b).
Proof.
  intros Ha Hb. apply u32_of_bits.
  - apply Z.lxor_nonneg. unfold u32 in *. lia.
  - intros i Hi. now rewrite Z.lxor_spec, !u32_high.
Qed.

Lemma ROL32_bits a n i : 0 < n < 32 -> u32 a -> 0 <= i ->
  Z.testbit (ROL32 a n) i =
  (i <? 32) && (if n <=? i then Z.testbit a (i - n) else Z.testbit a (i + 32 - n)).
Proof.
  intros Hn Ha Hi. unfold ROL32. rewrite Z.lor_spec, Z.shiftr_spec by lia.
  replace (i + (32 - n)) with (i + 32 - n) by lia.
  destruct (Z.ltb_spec i 32).
  - rewrite Z.mod_pow2_bits_low, Z.shiftl_spec by lia. cbn [andb].
    destruct (Z.leb_spec n i).
    + rewrite (u32_high a (i + 32 - n)) by (done || lia). apply orb_false_r.
    + rewrite (Z.testbit_neg_r a (i - n)) by lia. done.
  - rewrite Z.mod_pow2_bits_high, (u32_high a) by (done || lia). done.
Qed.

Lemma ROL32_u32 a n : 0 < n < 32 -> u32 a -> u32 (ROL32 a n).
Proof.
  intros Hn Ha. apply u32_of_bits.
  - unfold ROL32. apply Z.lor_nonneg. split; [apply Z.mod_pos_bound; lia |].
    apply Z.shiftr_nonneg. unfold u32 in Ha. lia.
  - intros i Hi. rewrite ROL32_bits by (done || lia). now replace (i <? 32) with false by lia.
Qed.

Lemma ROL32_lxor a b n :
  0 < n < 32 -> u32 a -> u32 b -> ROL32 (Z.lxor a b) n = Z.lxor (ROL32 a n) (ROL32 b n).
Proof.
  intros Hn Ha Hb. apply Z.bits_inj'. intros i Hi.
  rewrite Z.lxor_spec, !ROL32_bits, !Z.lxor_spec by (try apply u32_lxor; done).
  destruct (i <? 32); [|done]. now destruct (n <=? i).
Qed.

Lemma byte_lxor a b : byte a -> byte b -> byte (Z.lxor a b).
Proof.
  unfold byte. intros Ha Hb. split; [apply Z.lxor_nonneg; lia |].
  assert (E : Z.lxor a b = Z.lxor a b mod 2 ^ 8).
  { apply Z.bits_inj'. intros i Hi. destruct (Z.ltb_spec i 8).
    - now rewrite Z.mod_pow2_bits_low by lia.
    - rewrite Z.mod_pow2_bits_high, Z.lxor_spec by lia.
      rewrite <- (Z.mod_small a (2 ^ 8)), <- (Z.mod_small b (2 ^ 8)) by (change (2 ^ 8) with 256; lia).
      now rewrite !Z.mod_pow2_bits_high by lia. }
  rewrite E. apply Z.mod_pos_bound. lia.
Qed.

Lemma lxor_cancel a b : Z.lxor (Z.lxor a b) b = a.
Proof. now rewrite Z.lxor_assoc, Z.lxor_nilpotent, Z.lxor_0_r. Qed.

(** Buffers. *)

Lemma length_memcpy_at b off d :
  (off + List.length d <= List.length b)%nat -> List.length (memcpy_at b off d) = List.length b.
Proof. intros H. unfold memcpy_at. rewrite !List.length_app, length_take, length_drop. lia. Qed.

Lemma take_memcpy_at b off d y :
  take off b = y -> List.length y = off ->
  take (off + List.length d) (memcpy_at b off d) = y ++ d.
Proof.
  intros <- Hl. unfold memcpy_at. rewrite List.app_assoc. apply take_app_length'.
  rewrite List.length_app, Hl. lia.
Qed.

Lemma memcpy_at_full b off d y :
  take off b = y -> List.length y = off -> List.length b = (off + List.length d)%nat ->
  memcpy_at b off d = y ++ d.
Proof.
  intros H Hl Hb. rewrite <- (take_memcpy_at b off d y H Hl), take_ge; [done |].
  rewrite length_memcpy_at; lia.
Qed.

(** Representations of numbers. *)

Lemma length_le_bytes n v : List.length (le_bytes n v) = n.
Proof. revert v. induction n as [|n IH]; intros v; cbn [le_bytes List.length]; [done | now rewrite IH]. Qed.

Lemma le_bytes_bytes n v : bytes (le_bytes n v).
Proof.
  revert v. induction n as [|n IH]; intros v; cbn [le_bytes]; [constructor |].
  constructor; [apply Z.mod_pos_bound; lia | apply IH].
Qed.

Lemma horner_snoc base l d : horner base (l ++ [d]) = horner base l * base + d.
Proof. unfold horner. now rewrite List.fold_left_app. Qed.

Lemma be_bytes_horner l : bytes l -> be_bytes (List.length l) (horner 256 l) = l.
Proof.
  intros H. induction l as [|d l IH] using List.rev_ind; [reflexivity |].
  apply Forall_app in H as [Hl Hd]. apply Forall_cons_1 in Hd as [Hd _]. unfold byte in Hd.
  rewrite List.length_app, Nat.add_1_r, horner_snoc. unfold be_bytes in *. cbn [le_bytes List.rev].
  rewrite Z.add_comm, Z.mod_add, Z.mod_small, Z.div_add, Z.div_small, Z.add_0_l by lia. now rewrite IH.
Qed.

End Word.
