(* ===== verification/Sm4.v ===== *)
(** The SM4 block cipher: src/sm4_common.c (tables), src/sm4_lcl.h (the
    rounds), src/sm4_setkey.c (key schedules) and src/sm4_enc.c
    ([sm4_encrypt]). *)
From S2P Require Import Prelude GmWord.

Module Sm4.
Import GmWord.Word.

(** ** Tables *)

Definition SM4_S : list Z :=
  [0xd6; 0x90; 0xe9; 0xfe; 0xcc; 0xe1; 0x3d; 0xb7;
   0x16; 0xb6; 0x14; 0xc2; 0x28; 0xfb; 0x2c; 0x05;
   0x2b; 0x67; 0x9a; 0x76; 0x2a; 0xbe; 0x04; 0xc3;
   0xaa; 0x44; 0x13; 0x26; 0x49; 0x86; 0x06; 0x99;
   0x9c; 0x42; 0x50; 0xf4; 0x91; 0xef; 0x98; 0x7a;
   0x33; 0x54; 0x0b; 0x43; 0xed; 0xcf; 0xac; 0x62;
   0xe4; 0xb3; 0x1c; 0xa9; 0xc9; 0x08; 0xe8; 0x95;
   0x80; 0xdf; 0x94; 0xfa; 0x75; 0x8f; 0x3f; 0xa6;
   0x47; 0x07; 0xa7; 0xfc; 0xf3; 0x73; 0x17; 0xba;
   0x83; 0x59; 0x3c; 0x19; 0xe6; 0x85; 0x4f; 0xa8;
   0x68; 0x6b; 0x81; 0xb2; 0x71; 0x64; 0xda; 0x8b;
   0xf8; 0xeb; 0x0f; 0x4b; 0x70; 0x56; 0x9d; 0x35;
   0x1e; 0x24; 0x0e; 0x5e; 0x63; 0x58; 0xd1; 0xa2;
   0x25; 0x22; 0x7c; 0x3b; 0x01; 0x21; 0x78; 0x87;
   0xd4; 0x00; 0x46; 0x57; 0x9f; 0xd3; 0x27; 0x52;
   0x4c; 0x36; 0x02; 0xe7; 0xa0; 0xc4; 0xc8; 0x9e;
   0xea; 0xbf; 0x8a; 0xd2; 0x40; 0xc7; 0x38; 0xb5;
   0xa3; 0xf7; 0xf2; 0xce; 0xf9; 0x61; 0x15; 0xa1;
   0xe0; 0xae; 0x5d; 0xa4; 0x9b; 0x34; 0x1a; 0x55;
   0xad; 0x93; 0x32; 0x30; 0xf5; 0x8c; 0xb1; 0xe3;
   0x1d; 0xf6; 0xe2; 0x2e; 0x82; 0x66; 0xca; 0x60;
   0xc0; 0x29; 0x23; 0xab; 0x0d; 0x53; 0x4e; 0x6f;
   0xd5; 0xdb; 0x37; 0x45; 0xde; 0xfd; 0x8e; 0x2f;
   0x03; 0xff; 0x6a; 0x72; 0x6d; 0x6c; 0x5b; 0x51;
   0x8d; 0x1b; 0xaf; 0x92; 0xbb; 0xdd; 0xbc; 0x7f;
   0x11; 0xd9; 0x5c; 0x41; 0x1f; 0x10; 0x5a; 0xd8;
   0x0a; 0xc1; 0x31; 0x88; 0xa5; 0xcd; 0x7b; 0xbd;
   0x2d; 0x74; 0xd0; 0x12; 0xb8; 0xe5; 0xb4; 0xb0;
   0x89; 0x69; 0x97; 0x4a; 0x0c; 0x96; 0x77; 0x7e;
   0x65; 0xb9; 0xf1; 0x09; 0xc5; 0x6e; 0xc6; 0x84;
   0x18; 0xf0; 0x7d; 0xec; 0x3a; 0xdc; 0x4d; 0x20;
   0x79; 0xee; 0x5f; 0x3e; 0xd7; 0xcb; 0x39; 0x48].

Definition SM4_T : list Z :=
  [0x8ed55b5b; 0xd0924242; 0x4deaa7a7; 0x06fdfbfb;
   0xfccf3333; 0x65e28787; 0xc93df4f4; 0x6bb5dede;
   0x4e165858; 0x6eb4dada; 0x44145050; 0xcac10b0b;
   0x8828a0a0; 0x17f8efef; 0x9c2cb0b0; 0x11051414;
   0x872bacac; 0xfb669d9d; 0xf2986a6a; 0xae77d9d9;
   0x822aa8a8; 0x46bcfafa; 0x14041010; 0xcfc00f0f;
   0x02a8aaaa; 0x54451111; 0x5f134c4c; 0xbe269898;
   0x6d482525; 0x9e841a1a; 0x1e061818; 0xfd9b6666;
   0xec9e7272; 0x4a430909; 0x10514141; 0x24f7d3d3;
   0xd5934646; 0x53ecbfbf; 0xf89a6262; 0x927be9e9;
   0xff33cccc; 0x04555151; 0x270b2c2c; 0x4f420d0d;
   0x59eeb7b7; 0xf3cc3f3f; 0x1caeb2b2; 0xea638989;
   0x74e79393; 0x7fb1cece; 0x6c1c7070; 0x0daba6a6;
   0xedca2727; 0x28082020; 0x48eba3a3; 0xc1975656;
   0x80820202; 0xa3dc7f7f; 0xc4965252; 0x12f9ebeb;
   0xa174d5d5; 0xb38d3e3e; 0xc33ffcfc; 0x3ea49a9a;
   0x5b461d1d; 0x1b071c1c; 0x3ba59e9e; 0x0cfff3f3;
   0x3ff0cfcf; 0xbf72cdcd; 0x4b175c5c; 0x52b8eaea;
   0x8f810e0e; 0x3d586565; 0xcc3cf0f0; 0x7d196464;
   0x7ee59b9b; 0x91871616; 0x734e3d3d; 0x08aaa2a2;
   0xc869a1a1; 0xc76aadad; 0x85830606; 0x7ab0caca;
   0xb570c5c5; 0xf4659191; 0xb2d96b6b; 0xa7892e2e;
   0x18fbe3e3; 0x47e8afaf; 0x330f3c3c; 0x674a2d2d;
   0xb071c1c1; 0x0e575959; 0xe99f7676; 0xe135d4d4;
   0x661e7878; 0xb4249090; 0x360e3838; 0x265f7979;
   0xef628d8d; 0x38596161; 0x95d24747; 0x2aa08a8a;
   0xb1259494; 0xaa228888; 0x8c7df1f1; 0xd73becec;
   0x05010404; 0xa5218484; 0x9879e1e1; 0x9b851e1e;
   0x84d75353; 0x00000000; 0x5e471919; 0x0b565d5d;
   0xe39d7e7e; 0x9fd04f4f; 0xbb279c9c; 0x1a534949;
   0x7c4d3131; 0xee36d8d8; 0x0a020808; 0x7be49f9f;
   0x20a28282; 0xd4c71313; 0xe8cb2323; 0xe69c7a7a;
   0x42e9abab; 0x43bdfefe; 0xa2882a2a; 0x9ad14b4b;
   0x40410101; 0xdbc41f1f; 0xd838e0e0; 0x61b7d6d6;
   0x2fa18e8e; 0x2bf4dfdf; 0x3af1cbcb; 0xf6cd3b3b;
   0x1dfae7e7; 0xe5608585; 0x41155454; 0x25a38686;
   0x60e38383; 0x16acbaba; 0x295c7575; 0x34a69292;
   0xf7996e6e; 0xe434d0d0; 0x721a6868; 0x01545555;
   0x19afb6b6; 0xdf914e4e; 0xfa32c8c8; 0xf030c0c0;
   0x21f6d7d7; 0xbc8e3232; 0x75b3c6c6; 0x6fe08f8f;
   0x691d7474; 0x2ef5dbdb; 0x6ae18b8b; 0x962eb8b8;
   0x8a800a0a; 0xfe679999; 0xe2c92b2b; 0xe0618181;
   0xc0c30303; 0x8d29a4a4; 0xaf238c8c; 0x07a9aeae;
   0x390d3434; 0x1f524d4d; 0x764f3939; 0xd36ebdbd;
   0x81d65757; 0xb7d86f6f; 0xeb37dcdc; 0x51441515;
   0xa6dd7b7b; 0x09fef7f7; 0xb68c3a3a; 0x932fbcbc;
   0x0f030c0c; 0x03fcffff; 0xc26ba9a9; 0xba73c9c9;
   0xd96cb5b5; 0xdc6db1b1; 0x375a6d6d; 0x15504545;
   0xb98f3636; 0x771b6c6c; 0x13adbebe; 0xda904a4a;
   0x57b9eeee; 0xa9de7777; 0x4cbef2f2; 0x837efdfd;
   0x55114444; 0xbdda6767; 0x2c5d7171; 0x45400505;
   0x631f7c7c; 0x50104040; 0x325b6969; 0xb8db6363;
   0x220a2828; 0xc5c20707; 0xf531c4c4; 0xa88a2222;
   0x31a79696; 0xf9ce3737; 0x977aeded; 0x49bff6f6;
   0x992db4b4; 0xa475d1d1; 0x90d34343; 0x5a124848;
   0x58bae2e2; 0x71e69797; 0x64b6d2d2; 0x70b2c2c2;
   0xad8b2626; 0xcd68a5a5; 0xcb955e5e; 0x624b2929;
   0x3c0c3030; 0xce945a5a; 0xab76dddd; 0x867ff9f9;
   0xf1649595; 0x5dbbe6e6; 0x35f2c7c7; 0x2d092424;
   0xd1c61717; 0xd66fb9b9; 0xdec51b1b; 0x94861212;
   0x78186060; 0x30f3c3c3; 0x897cf5f5; 0x5cefb3b3;
   0xd23ae8e8; 0xacdf7373; 0x794c3535; 0xa0208080;
   0x9d78e5e5; 0x56edbbbb; 0x235e7d7d; 0xc63ef8f8;
   0x8bd45f5f; 0xe7c82f2f; 0xdd39e4e4; 0x68492121].

Definition FK : list Z :=
  [0xa3b1bac6; 0x56aa3350; 0x677d9197; 0xb27022dc].

Definition CK : list Z :=
  [0x00070e15; 0x1c232a31; 0x383f464d; 0x545b6269;
   0x70777e85; 0x8c939aa1; 0xa8afb6bd; 0xc4cbd2d9;
   0xe0e7eef5; 0xfc030a11; 0x181f262d; 0x343b4249;
   0x50575e65; 0x6c737a81; 0x888f969d; 0xa4abb2b9;
   0xc0c7ced5; 0xdce3eaf1; 0xf8ff060d; 0x141b2229;
   0x30373e45; 0x4c535a61; 0x686f767d; 0x848b9299;
   0xa0a7aeb5; 0xbcc3cad1; 0xd8dfe6ed; 0xf4fb0209;
   0x10171e25; 0x2c333a41; 0x484f565d; 0x646b7279].

(** ** Rounds *)

(** [table[i]] *)
Definition at_ (table : list Z) (i : Z) : Z := List.nth (Z.to_nat i) table 0.

(** The four substitutions of a word. *)
Definition S32 (A : Z) : Z :=
  Z.lxor (Z.lxor (Z.lxor
    (Z.shiftl (at_ SM4_S (Z.shiftr A 24)) 24)
    (Z.shiftl (at_ SM4_S (Z.land (Z.shiftr A 16) 0xff)) 16))
    (Z.shiftl (at_ SM4_S (Z.land (Z.shiftr A 8) 0xff)) 8))
    (at_ SM4_S (Z.land A 0xff)).

Definition L32 (x : Z) : Z :=
  Z.lxor (Z.lxor (Z.lxor (Z.lxor x (ROL32 x 2)) (ROL32 x 10)) (ROL32 x 18)) (ROL32 x 24).

(** The linear map of the key schedule. *)
Definition L32_ (x : Z) : Z := Z.lxor (Z.lxor x (ROL32 x 13)) (ROL32 x 23).

(** The variables [x0] to [x4], in the order of a round's arguments. *)
Definition regs : Type := Z * Z * Z * Z * Z.

(** The macro that looks up [SM4_S]; it is not the one compiled. *)
Definition ROUND_SBOX (rk : list Z) (i : nat) (x : regs) : regs :=
  let '(x0, x1, x2, x3, _) := x in
  let x4 := Z.lxor (Z.lxor (Z.lxor x1 x2) x3) (List.nth i rk 0) in
  let x4 := S32 x4 in
  let x4 := Z.lxor x0 (L32 x4) in
  (x0, x1, x2, x3, x4).

(** The macro that looks up [SM4_T]. *)
Definition ROUND_TBOX (rk : list Z) (i : nat) (x : regs) : regs :=
  let '(x0, x1, x2, x3, _) := x in
  let x4 := Z.lxor (Z.lxor (Z.lxor x1 x2) x3) (List.nth i rk 0) in
  let t0 := ROL32 (at_ SM4_T (x4 mod 256)) 8 in
  let x4 := Z.shiftr x4 8 in
  let x0 := Z.lxor x0 t0 in
  let t0 := ROL32 (at_ SM4_T (x4 mod 256)) 16 in
  let x4 := Z.shiftr x4 8 in
  let x0 := Z.lxor x0 t0 in
  let t0 := ROL32 (at_ SM4_T (x4 mod 256)) 24 in
  let x4 := Z.shiftr x4 8 in
  let x0 := Z.lxor x0 t0 in
  let t1 := at_ SM4_T x4 in
  let x4 := Z.lxor x0 t1 in
  (x0, x1, x2, x3, x4).

(** [ROUNDS]: 32 rounds, the arguments of each one the variables of the round
    before, one further on. *)
Definition next_args (x : regs) : regs :=
  let '(x0, x1, x2, x3, x4) := x in (x1, x2, x3, x4, x0).

Definition ROUNDS {St : Type} (ROUND : nat -> regs * St -> regs * St) (s : regs * St) : regs * St :=
  List.fold_left (fun s i => let '(x, t) := ROUND i s in (next_args x, t)) (List.seq 0 32) s.

(** ** Keys *)

Definition key_word (i : nat) (x : regs) : regs :=
  let '(x0, x1, x2, x3, _) := x in
  let x4 := Z.lxor (Z.lxor (Z.lxor x1 x2) x3) (List.nth i CK 0) in
  let x4 := S32 x4 in
  let x4 := Z.lxor x0 (L32_ x4) in
  (x0, x1, x2, x3, x4).

Definition x4_of (x : regs) : Z := let '(_, _, _, _, x4) := x in x4.

(** [*(rk + i) = x4] *)
Definition ENC_ROUND (i : nat) (s : regs * list Z) : regs * list Z :=
  let x := key_word i (fst s) in (x, <[i := x4_of x]> (snd s)).

(** [*(rk + 31 - i) = x4] *)
Definition DEC_ROUND (i : nat) (s : regs * list Z) : regs * list Z :=
  let x := key_word i (fst s) in (x, <[(31 - i)%nat := x4_of x]> (snd s)).

Definition key_regs (user_key : list Z) : regs :=
  (Z.lxor (GETU32 user_key 0) (List.nth 0 FK 0), Z.lxor (GETU32 user_key 4) (List.nth 1 FK 0),
   Z.lxor (GETU32 user_key 8) (List.nth 2 FK 0), Z.lxor (GETU32 user_key 12) (List.nth 3 FK 0), 0).

(** [rk] is what [key->rk] holds before. *)
Definition sm4_set_encrypt_key (rk user_key : list Z) : list Z :=
  snd (ROUNDS ENC_ROUND (key_regs user_key, rk)).

Definition sm4_set_decrypt_key (rk user_key : list Z) : list Z :=
  snd (ROUNDS DEC_ROUND (key_regs user_key, rk)).

(** ** A block *)

Definition block_regs (in_ : list Z) : regs :=
  (GETU32 in_ 0, GETU32 in_ 4, GETU32 in_ 8, GETU32 in_ 12, 0).

(** After 32 rounds the next arguments are [x2], [x3], [x4], [x0], [x1]. *)
Definition put_regs (x : regs) : list Z :=
  let '(x2, x3, x4, x0, _) := x in PUTU32 x0 ++ PUTU32 x4 ++ PUTU32 x3 ++ PUTU32 x2.

Definition encrypt_with (round : list Z -> nat -> regs -> regs) (rk in_ : list Z) : list Z :=
  put_regs (fst (ROUNDS (fun i s => (round rk i (fst s), tt)) (block_regs in_, tt))).

Definition sm4_encrypt : list Z -> list Z -> list Z := encrypt_with ROUND_TBOX.

(** [sm4_decrypt] is the same function, for a decryption key. *)
Definition sm4_decrypt : list Z -> list Z -> list Z := sm4_encrypt.

(** ** Specification *)

(** Four words, and a step of the generalised Feistel network with round
    function [T]. *)
Definition quad : Type := Z * Z * Z * Z.

Definition step (T : Z -> Z) (s : quad) (k : Z) : quad :=
  let '(a, b, c, d) := s in
  (b, c, d, Z.lxor a (T (Z.lxor (Z.lxor (Z.lxor b c) d) k))).

Definition rev4 (s : quad) : quad := let '(a, b, c, d) := s in (d, c, b, a).

(** The round function of the standard. *)
Definition round_function (x : Z) : Z := L32 (S32 x).

(** ** Lemmas *)

Definition quad_u32 (s : quad) : Prop := let '(a, b, c, d) := s in u32 a /\ u32 b /\ u32 c /\ u32 d.

(** Bytes and tables. *)

Definition all_u32 (l : list Z) : bool := List.forallb (fun x => (0 <=? x) && (x <? 2 ^ 32)) l.

Lemma at_u32 l i : all_u32 l = true -> u32 (at_ l i).
Proof.
  unfold all_u32, at_, u32. rewrite List.forallb_forall. intros H.
  destruct (nth_in_or_default (Z.to_nat i) l 0) as [Hi | ->]; [|lia]. specialize (H _ Hi). cbv beta in H. lia.
Qed.

Lemma at_S_byte i : byte (at_ SM4_S i).
Proof.
  assert (G : List.forallb (fun x => (0 <=? x) && (x <? 256)) SM4_S = true) by reflexivity.
  rewrite List.forallb_forall in G. unfold at_, byte.
  destruct (nth_in_or_default (Z.to_nat i) SM4_S 0) as [Hi | ->]; [|lia].
  specialize (G _ Hi). cbv beta in G. lia.
Qed.

Lemma shifted_byte_u32 b k : byte b -> 0 <= k <= 24 -> u32 (Z.shiftl b k).
Proof.
  unfold byte, u32. intros Hb Hk. rewrite Z.shiftl_mul_pow2 by lia.
  pose proof (Z.pow_pos_nonneg 2 k ltac:(lia) ltac:(lia)). split; [nia |].
  apply (Z.le_lt_trans _ (255 * 2 ^ 24)); [|reflexivity].
  apply Z.mul_le_mono_nonneg; [lia | lia | lia |]. apply Z.pow_le_mono_r; lia.
Qed.

Lemma S32_u32 x : u32 (S32 x).
Proof.
  unfold S32. repeat apply u32_lxor; try (apply shifted_byte_u32; [apply at_S_byte | lia]).
  rewrite <- (Z.shiftl_0_r (at_ SM4_S _)). apply shifted_byte_u32; [apply at_S_byte | lia].
Qed.

Lemma L32_u32 x : u32 x -> u32 (L32 x).
Proof. intros H. unfold L32. repeat apply u32_lxor; (done || apply ROL32_u32; (done || lia)). Qed.

Lemma L32__u32 x : u32 x -> u32 (L32_ x).
Proof. intros H. unfold L32_. repeat apply u32_lxor; (done || apply ROL32_u32; (done || lia)). Qed.

Lemma L32_lxor a b : u32 a -> u32 b -> L32 (Z.lxor a b) = Z.lxor (L32 a) (L32 b).
Proof.
  intros Ha Hb. unfold L32. rewrite !ROL32_lxor by (done || lia).
  apply Z.bits_inj'. intros i Hi. rewrite !Z.lxor_spec.
  repeat match goal with |- context [Z.testbit ?x i] => destruct (Z.testbit x i) end; reflexivity.
Qed.

Lemma round_function_u32 x : u32 (round_function x).
Proof. apply L32_u32, S32_u32. Qed.

(** Every entry of [SM4_T] is the linear map of a substituted byte. *)
Lemma T_box b : byte b ->
  at_ SM4_T b = L32 (Z.shiftl (at_ SM4_S b) 24) /\
  ROL32 (at_ SM4_T b) 24 = L32 (Z.shiftl (at_ SM4_S b) 16) /\
  ROL32 (at_ SM4_T b) 16 = L32 (Z.shiftl (at_ SM4_S b) 8) /\
  ROL32 (at_ SM4_T b) 8 = L32 (at_ SM4_S b).
Proof.
  assert (G : forall b, byte b ->
    ((at_ SM4_T b =? L32 (Z.shiftl (at_ SM4_S b) 24)) &&
     (ROL32 (at_ SM4_T b) 24 =? L32 (Z.shiftl (at_ SM4_S b) 16)) &&
     (ROL32 (at_ SM4_T b) 16 =? L32 (Z.shiftl (at_ SM4_S b) 8)) &&
     (ROL32 (at_ SM4_T b) 8 =? L32 (at_ SM4_S b))) = true).
  { byte_cases (fun b =>
     (at_ SM4_T b =? L32 (Z.shiftl (at_ SM4_S b) 24)) &&
     (ROL32 (at_ SM4_T b) 24 =? L32 (Z.shiftl (at_ SM4_S b) 16)) &&
     (ROL32 (at_ SM4_T b) 16 =? L32 (Z.shiftl (at_ SM4_S b) 8)) &&
     (ROL32 (at_ SM4_T b) 8 =? L32 (at_ SM4_S b))). }
  intros H. specialize (G b H). lia.
Qed.

Lemma tbox_word a x :
  u32 x ->
  Z.lxor (Z.lxor (Z.lxor (Z.lxor a (ROL32 (at_ SM4_T (x mod 256)) 8))
    (ROL32 (at_ SM4_T (Z.shiftr x 8 mod 256)) 16))
    (ROL32 (at_ SM4_T (Z.shiftr (Z.shiftr x 8) 8 mod 256)) 24))
    (at_ SM4_T (Z.shiftr (Z.shiftr (Z.shiftr x 8) 8) 8)) =
  Z.lxor a (round_function x).
Proof.
  intros Hx. rewrite !Z.shiftr_shiftr by lia. change (8 + (8 + 8)) with 24. change (8 + 8 + 8) with 24. change (8 + 8) with 16.
  assert (Hb : byte (Z.shiftr x 24)).
  { unfold u32, byte in *. rewrite Z.shiftr_div_pow2 by lia. change (2 ^ 24) with 16777216.
    change (2 ^ 32) with 4294967296 in Hx.
    split; [apply Z.div_pos; lia | apply Z.div_lt_upper_bound; lia]. }
  assert (Hm : forall y, byte (y mod 256)) by (intros y; apply Z.mod_pos_bound; lia).
  rewrite (proj2 (proj2 (proj2 (T_box _ (Hm x))))), (proj1 (proj2 (proj2 (T_box _ (Hm (Z.shiftr x 8)))))),
    (proj1 (proj2 (T_box _ (Hm (Z.shiftr x 16))))), (proj1 (T_box _ Hb)).
  unfold round_function, S32. change 0xff with (Z.ones 8). rewrite !land_low by lia. change (2 ^ 8) with 256.
  assert (Hs : forall b k, 0 <= k <= 24 -> u32 (Z.shiftl (at_ SM4_S b) k))
    by (intros; apply shifted_byte_u32; [apply at_S_byte | done]).
  assert (H0 : forall b, u32 (at_ SM4_S b)) by (intros b; rewrite <- (Z.shiftl_0_r (at_ SM4_S b)); apply Hs; lia).
  rewrite !L32_lxor by (repeat apply u32_lxor; first [apply Hs; lia | apply H0]).
  apply Z.bits_inj'. intros i Hi. rewrite !Z.lxor_spec.
  repeat match goal with |- context [Z.testbit ?y i] => destruct (Z.testbit y i) end; reflexivity.
Qed.

(** The network: running the steps with the keys reversed undoes them. *)

Lemma step_reverse T k s : step T (rev4 (step T s k)) k = rev4 s.
Proof.
  destruct s as [[[a b] c] d]. cbn. do 2 f_equal.
  replace (Z.lxor (Z.lxor d c) b) with (Z.lxor (Z.lxor b c) d); [apply lxor_cancel |].
  rewrite (Z.lxor_comm b c), Z.lxor_assoc, (Z.lxor_comm b d), <- Z.lxor_assoc, (Z.lxor_comm c d). done.
Qed.

Lemma steps_reverse T ks s :
  List.fold_left (step T) (List.rev ks) (rev4 (List.fold_left (step T) ks s)) = rev4 s.
Proof.
  revert s. induction ks as [|k ks IH]; intros s; [done |]. cbn [List.rev List.fold_left].
  rewrite List.fold_left_app, IH. cbn [List.fold_left]. apply step_reverse.
Qed.

Lemma step_u32 s k : quad_u32 s -> quad_u32 (step round_function s k).
Proof.
  destruct s as [[[a b] c] d]. intros (Ha & Hb & Hc & Hd). unfold step, quad_u32.
  split; [done |]. split; [done |]. split; [done |]. apply u32_lxor; [done | apply round_function_u32].
Qed.

Lemma steps_u32 ks s : quad_u32 s -> quad_u32 (List.fold_left (step round_function) ks s).
Proof. revert s. induction ks as [|k ks IH]; intros s H; [done |]. apply IH, step_u32, H. Qed.

(** The rounds of the code are the steps of the network. *)

Definition quad_of (x : regs) : quad := let '(x0, x1, x2, x3, _) := x in (x0, x1, x2, x3).

Lemma round_sbox_step rk i x :
  quad_of (next_args (ROUND_SBOX rk i x)) = step round_function (quad_of x) (List.nth i rk 0).
Proof.
  destruct x as [[[[x0 x1] x2] x3] x4].
  unfold ROUND_SBOX, next_args, quad_of, step, round_function. cbv zeta. reflexivity.
Qed.

Lemma round_tbox_step rk i x :
  quad_u32 (quad_of x) -> u32 (List.nth i rk 0) ->
  quad_of (next_args (ROUND_TBOX rk i x)) = step round_function (quad_of x) (List.nth i rk 0).
Proof.
  destruct x as [[[[x0 x1] x2] x3] x4]. intros (H0 & H1 & H2 & H3) Hk.
  unfold ROUND_TBOX, next_args, quad_of, step. cbv zeta. f_equal. apply tbox_word.
  repeat apply u32_lxor; done.
Qed.

(** Folding over the indices of a key list is folding over the list. *)
Lemma rounds_steps round rk pre l x :
  (forall i x, quad_u32 (quad_of x) -> u32 (List.nth i rk 0) ->
     quad_of (next_args (round i x)) = step round_function (quad_of x) (List.nth i rk 0)) ->
  rk = pre ++ l -> Forall u32 l -> quad_u32 (quad_of x) ->
  quad_of (fst (List.fold_left
    (fun s i => let '(x, t) := (fun i s => (round i (fst s), tt)) i s in (next_args x, t))
    (List.seq (List.length pre) (List.length l)) (x, tt))) =
  List.fold_left (step round_function) l (quad_of x).
Proof.
  intros Hr E H. revert pre x E. induction H as [|k l Hk _ IH]; intros pre x E Hx; [done |].
  cbn [List.length List.seq List.fold_left fst].
  assert (En : List.nth (List.length pre) rk 0 = k) by (rewrite E; apply List.nth_middle).
  assert (Eq : quad_of (next_args (round (List.length pre) x)) = step round_function (quad_of x) k).
  { rewrite <- En. apply Hr; [done | now rewrite En]. }
  rewrite <- Eq. specialize (IH (pre ++ [k]) (next_args (round (List.length pre) x))).
  rewrite List.length_app in IH. cbn [List.length] in IH.
  replace (S (List.length pre)) with (List.length pre + 1)%nat by lia. apply IH.
  - now rewrite <- List.app_assoc.
  - rewrite Eq. now apply step_u32.
Qed.

Definition put_quad (s : quad) : list Z :=
  let '(a, b, c, d) := s in PUTU32 a ++ PUTU32 b ++ PUTU32 c ++ PUTU32 d.

Lemma put_regs_quad x : put_regs x = put_quad (rev4 (quad_of x)).
Proof. now destruct x as [[[[x0 x1] x2] x3] x4]. Qed.

(** What encrypting a block is: the steps with the 32 keys, and the words in
    reverse. *)
Lemma encrypt_with_steps round rk in_ :
  (forall i x, quad_u32 (quad_of x) -> u32 (List.nth i rk 0) ->
     quad_of (next_args (round rk i x)) = step round_function (quad_of x) (List.nth i rk 0)) ->
  List.length rk = 32%nat -> Forall u32 rk -> quad_u32 (quad_of (block_regs in_)) ->
  encrypt_with round rk in_ =
  put_quad (rev4 (List.fold_left (step round_function) rk (quad_of (block_regs in_)))).
Proof.
  intros Hr Hl Hk Hx. unfold encrypt_with, ROUNDS. rewrite put_regs_quad. do 2 f_equal.
  pose proof (rounds_steps (round rk) rk [] rk (block_regs in_) Hr eq_refl Hk Hx) as G.
  rewrite Hl in G. exact G.
Qed.

Lemma sm4_encrypt_steps rk in_ :
  List.length rk = 32%nat -> Forall u32 rk -> quad_u32 (quad_of (block_regs in_)) ->
  sm4_encrypt rk in_ =
  put_quad (rev4 (List.fold_left (step round_function) rk (quad_of (block_regs in_)))).
Proof. intros. apply encrypt_with_steps; try done. intros. now apply round_tbox_step. Qed.

(** Words to bytes and back. *)

Definition block (b : list Z) : Prop := Forall byte b /\ List.length b = 16%nat.

Lemma block_regs_put s : quad_u32 s -> quad_of (block_regs (put_quad s)) = s.
Proof.
  destruct s as [[[a b] c] d]. intros (Ha & Hb & Hc & Hd).
  unfold block_regs, quad_of, GETU32, nthb, put_quad, PUTU32. cbn [List.app List.nth Nat.add].
  now rewrite !be32_PUTU32.
Qed.

Lemma put_block_regs b : block b -> put_quad (quad_of (block_regs b)) = b.
Proof.
  intros [Hb Hl]. do 16 (destruct b as [|? b]; [discriminate Hl |]). destruct b; [|discriminate Hl].
  repeat (apply Forall_cons_1 in Hb as [? Hb]).
  unfold block_regs, quad_of, GETU32, nthb, put_quad. cbn [List.nth Nat.add].
  now rewrite !PUTU32_be32 by done.
Qed.

Lemma block_regs_u32 b : block b -> quad_u32 (quad_of (block_regs b)).
Proof.
  intros [Hb Hl]. do 16 (destruct b as [|? b]; [discriminate Hl |]). destruct b; [|discriminate Hl].
  repeat (apply Forall_cons_1 in Hb as [? Hb]).
  unfold block_regs, quad_of, GETU32, nthb. cbn [List.nth Nat.add]. repeat split; now apply be32_range.
Qed.

Lemma put_quad_block s : block (put_quad s).
Proof.
  destruct s as [[[a b] c] d]. split; [|reflexivity]. unfold put_quad.
  repeat apply Forall_app_2; apply PUTU32_bytes.
Qed.

(** The key schedules. *)

Lemma key_regs_u32 k : block k -> quad_u32 (quad_of (key_regs k)).
Proof.
  intros H%block_regs_u32. unfold block_regs, key_regs, quad_of in *.
  destruct H as (H0 & H1 & H2 & H3). repeat split; apply u32_lxor; try done; unfold u32; cbn; lia.
Qed.

(** The words of the schedule, from round [i] on. *)
Fixpoint key_words (n i : nat) (x : regs) : list Z :=
  match n with
  | O => []
  | S n' => x4_of (key_word i x) :: key_words n' (S i) (next_args (key_word i x))
  end.

Lemma length_key_words n i x : List.length (key_words n i x) = n.
Proof. revert i x. induction n as [|n IH]; intros; cbn; [done | now rewrite IH]. Qed.

Lemma key_words_u32 n i x : quad_u32 (quad_of x) -> Forall u32 (key_words n i x).
Proof.
  revert i x. induction n as [|n IH]; intros i x Hx; [constructor |]. cbn [key_words].
  destruct x as [[[[x0 x1] x2] x3] x4]. destruct Hx as (H0 & H1 & H2 & H3).
  assert (H4 : u32 (x4_of (key_word i (x0, x1, x2, x3, x4)))).
  { unfold key_word, x4_of. apply u32_lxor; [done | apply L32__u32, S32_u32]. }
  constructor; [done |]. apply IH. unfold key_word, next_args, quad_of, quad_u32. done.
Qed.

Definition run_keys (ROUND : nat -> regs * list Z -> regs * list Z) (n i : nat) (s : regs * list Z) : regs * list Z :=
  List.fold_left (fun s i => let '(x, t) := ROUND i s in (next_args x, t)) (List.seq i n) s.

Lemma run_keys_S ROUND n i s :
  run_keys ROUND (S n) i s =
  run_keys ROUND n (S i) (next_args (fst (ROUND i s)), snd (ROUND i s)).
Proof. unfold run_keys. cbn [List.seq List.fold_left]. now destruct (ROUND i s). Qed.

Lemma enc_words n i x rk :
  (i + n <= List.length rk)%nat ->
  snd (run_keys ENC_ROUND n i (x, rk)) = take i rk ++ key_words n i x ++ drop (i + n) rk.
Proof.
  revert i x rk. induction n as [|n IH]; intros i x rk H.
  - cbn. rewrite Nat.add_0_r. now rewrite take_drop.
  - rewrite run_keys_S. unfold ENC_ROUND at 2 3. cbn [fst snd].
    rewrite (IH (S i)) by (rewrite length_insert; lia). cbn [key_words].
    set (w := x4_of (key_word i x)). rewrite (take_S_r _ i w) by (apply list_lookup_insert_eq; lia).
    rewrite take_insert_ge by lia. rewrite drop_insert_lt by lia.
    replace (S i + n)%nat with (i + S n)%nat by lia. now rewrite <- List.app_assoc.
Qed.

Lemma dec_words n i x rk :
  (i + n <= 32)%nat -> List.length rk = 32%nat ->
  snd (run_keys DEC_ROUND n i (x, rk)) = take (32 - i - n) rk ++ List.rev (key_words n i x) ++ drop (32 - i) rk.
Proof.
  revert i x rk. induction n as [|n IH]; intros i x rk H Hl.
  - cbn. replace (32 - i - 0)%nat with (32 - i)%nat by lia. now rewrite take_drop.
  - rewrite run_keys_S. unfold DEC_ROUND at 2 3. cbn [fst snd].
    rewrite (IH (S i)) by (rewrite ?length_insert; lia). cbn [key_words List.rev].
    set (w := x4_of (key_word i x)). rewrite take_insert_ge by lia.
    replace (32 - S i - n)%nat with (32 - i - S n)%nat by lia. f_equal. rewrite <- List.app_assoc. f_equal.
    replace (32 - S i)%nat with (31 - i)%nat by lia. replace (32 - i)%nat with (S (31 - i)) by lia.
    rewrite (drop_S _ w (31 - i)) by (apply list_lookup_insert_eq; lia).
    rewrite drop_insert_lt by lia. done.
Qed.

(** The schedules give the words in order and in reverse. *)
Lemma encrypt_key rk k : List.length rk = 32%nat -> sm4_set_encrypt_key rk k = key_words 32 0 (key_regs k).
Proof.
  intros H. unfold sm4_set_encrypt_key, ROUNDS. change (List.fold_left _ _ _) with (run_keys ENC_ROUND 32 0 (key_regs k, rk)).
  rewrite enc_words by lia. cbn [take List.app]. rewrite drop_ge by lia. apply List.app_nil_r.
Qed.

Lemma decrypt_key rk k :
  List.length rk = 32%nat -> sm4_set_decrypt_key rk k = List.rev (key_words 32 0 (key_regs k)).
Proof.
  intros H. unfold sm4_set_decrypt_key, ROUNDS. change (List.fold_left _ _ _) with (run_keys DEC_ROUND 32 0 (key_regs k, rk)).
  rewrite dec_words by lia. replace (32 - 0 - 32)%nat with 0%nat by lia. cbn [take List.app].
  rewrite drop_ge by lia. apply List.app_nil_r.
Qed.

Section Key.
Context (rk k : list Z) (Hrk : List.length rk = 32%nat) (Hk : block k).

Lemma encrypt_key_words :
  List.length (sm4_set_encrypt_key rk k) = 32%nat /\ Forall u32 (sm4_set_encrypt_key rk k).
Proof using Hrk Hk.
  rewrite encrypt_key by done. split; [apply length_key_words | apply key_words_u32, key_regs_u32, Hk].
Qed.

Lemma decrypt_key_words :
  List.length (sm4_set_decrypt_key rk k) = 32%nat /\ Forall u32 (sm4_set_decrypt_key rk k) /\
  sm4_set_decrypt_key rk k = List.rev (sm4_set_encrypt_key rk k).
Proof using Hrk Hk.
  rewrite decrypt_key, encrypt_key by done. split; [now rewrite List.length_rev, length_key_words |].
  split; [|done]. apply List.Forall_rev, key_words_u32, key_regs_u32, Hk.
Qed.

End Key.

(** Running the block function with a key and then with the reversed key
    gives the block back. *)
Lemma encrypt_reverse ks b :
  List.length ks = 32%nat -> Forall u32 ks -> block b ->
  sm4_encrypt (List.rev ks) (sm4_encrypt ks b) = b.
Proof.
  intros Hl Hk Hb. rewrite (sm4_encrypt_steps ks) by (done || now apply block_regs_u32).
  set (s := quad_of (block_regs b)). set (s' := List.fold_left _ ks s).
  assert (Hs : quad_u32 s') by (apply steps_u32, block_regs_u32, Hb).
  assert (Hr : quad_u32 (rev4 s')).
  { unfold quad_u32, rev4 in *. destruct s' as [[[x y] z] w]. tauto. }
  rewrite sm4_encrypt_steps.
  - rewrite block_regs_put by done. unfold s'. rewrite steps_reverse.
    replace (rev4 (rev4 s)) with s by (now destruct s as [[[x y] z] w]). now apply put_block_regs.
  - now rewrite List.length_rev.
  - now apply List.Forall_rev.
  - now rewrite block_regs_put.
Qed.

Lemma sm4_encrypt_block ks b :
  List.length ks = 32%nat -> Forall u32 ks -> block b -> block (sm4_encrypt ks b).
Proof. intros Hl Hk Hb. rewrite sm4_encrypt_steps by (done || now apply block_regs_u32). apply put_quad_block. Qed.

(** What the modes of operation need of a cipher: [E] and [D] map blocks to
    blocks and [D] undoes [E]. *)
Class BlockCipher (E D : list Z -> list Z) : Prop := {
  cipher_block b : block b -> block (E b);
  decipher_block b : block b -> block (D b);
  cipher_inverse b : block b -> D (E b) = b
}.

(** SM4 with a key and its decryption key is one. *)
Lemma sm4_cipher rk rk' k :
  List.length rk = 32%nat -> List.length rk' = 32%nat -> block k ->
  BlockCipher (sm4_encrypt (sm4_set_encrypt_key rk k)) (sm4_encrypt (sm4_set_decrypt_key rk' k)).
Proof.
  intros H H' Hk. rewrite (decrypt_key rk' k H'), (encrypt_key rk k H).
  pose proof (length_key_words 32 0 (key_regs k)) as Hl.
  pose proof (key_words_u32 32 0 (key_regs k) (key_regs_u32 k Hk)) as Hw.
  generalize dependent (key_words 32 0 (key_regs k)). intros ks Hl Hw.
  split; intros b Hb; [exact (sm4_encrypt_block ks b Hl Hw Hb) | | exact (encrypt_reverse ks b Hl Hw Hb)].
  apply sm4_encrypt_block; [rewrite List.length_rev; exact Hl | exact (List.Forall_rev Hw) | exact Hb].
Qed.

(** ** Properties *)

(** C34: Decrypting with the decryption key gives back what was encrypted with the
    encryption key, and the other way round, for every key and every block,
    whatever the key structures held before. *)
Theorem sm4_decrypt_encrypt rk rk' k b :
  List.length rk = 32%nat -> List.length rk' = 32%nat -> block k -> block b ->
  sm4_decrypt (sm4_set_decrypt_key rk' k) (sm4_encrypt (sm4_set_encrypt_key rk k) b) = b /\
  sm4_encrypt (sm4_set_encrypt_key rk k) (sm4_decrypt (sm4_set_decrypt_key rk' k) b) = b.
Proof.
  intros H H' Hk Hb. destruct (decrypt_key_words rk' k H' Hk) as (Hl & Hw & _).
  unfold sm4_decrypt. split; [exact (cipher_inverse (BlockCipher := sm4_cipher rk rk' k H H' Hk) b Hb) |].
  replace (sm4_set_encrypt_key rk k) with (List.rev (sm4_set_decrypt_key rk' k)).
  - exact (encrypt_reverse _ b Hl Hw Hb).
  - rewrite (decrypt_key rk' k H'), (encrypt_key rk k H). apply List.rev_involutive.
Qed.

(** The compiled rounds, by the combined tables [SM4_T], compute what the
    rounds of the standard, by the S-box and the linear map, compute. *)
Theorem sm4_encrypt_sbox rk b :
  List.length rk = 32%nat -> Forall u32 rk -> block b ->
  sm4_encrypt rk b = encrypt_with ROUND_SBOX rk b.
Proof.
  intros Hl Hk Hb. rewrite sm4_encrypt_steps by (done || now apply block_regs_u32).
  symmetry. apply encrypt_with_steps; [|done | done | now apply block_regs_u32].
  intros i x _ _. apply round_sbox_step.
Qed.

(** The example of the standard. *)
Definition ex_key : list Z :=
  [0x01; 0x23; 0x45; 0x67; 0x89; 0xab; 0xcd; 0xef; 0xfe; 0xdc; 0xba; 0x98; 0x76; 0x54; 0x32; 0x10].

Definition ex_cipher : list Z :=
  [0x68; 0x1e; 0xdf; 0x34; 0xd2; 0x06; 0x96; 0x5e; 0x86; 0xb3; 0xe9; 0x4f; 0x53; 0x6e; 0x42; 0x46].

Lemma ex_key_block : block ex_key.
Proof. split; [repeat constructor; unfold byte; lia | reflexivity]. Qed.

Lemma sm4_decrypt_encrypt_witness :
  sm4_encrypt (sm4_set_encrypt_key (List.repeat 0 32) ex_key) ex_key = ex_cipher /\
  sm4_decrypt (sm4_set_decrypt_key (List.repeat 0 32) ex_key)
    (sm4_encrypt (sm4_set_encrypt_key (List.repeat 0 32) ex_key) ex_key) = ex_key.
Proof.
  split; [vm_compute; reflexivity |].
  exact (proj1 (sm4_decrypt_encrypt (List.repeat 0 32) (List.repeat 0 32) ex_key ex_key
    eq_refl eq_refl ex_key_block ex_key_block)).
Defined.

Lemma sm4_encrypt_sbox_witness :
  sm4_encrypt (List.repeat 5 32) ex_key = encrypt_with ROUND_SBOX (List.repeat 5 32) ex_key.
Proof.
  apply (sm4_encrypt_sbox (List.repeat 5 32) ex_key); [reflexivity | | apply ex_key_block].
  repeat constructor; unfold u32; lia.
Defined.

End Sm4.
