(* ===== verification/Sm4Modes.v ===== *)
(** Modes of operation of SM4 (src/sm4_modes.c): CBC, CBC with padding, CTR,
    and their incremental interfaces.  The output buffer is apart from the
    input; buffers are lists of bytes. *)
From S2P Require Import Prelude GmWord Sm4.

Module Modes.
Import GmWord.Word Sm4.Sm4.

(** ** CBC *)

(** [gmssl_memxor(r, a, b, len)], as long as the shorter list. *)
Definition memxor (a b : list Z) : list Z := zip_with Z.lxor a b.

(** [while (nblocks--)]; the next [iv] is the block written. *)
Fixpoint sm4_cbc_encrypt (nblocks : nat) (key iv in_ : list Z) : list Z :=
  match nblocks with
  | O => []
  | S n =>
      let out := sm4_encrypt key (memxor (take 16 in_) iv) in
      out ++ sm4_cbc_encrypt n key out (drop 16 in_)
  end.

(** The next [iv] is the block read. *)
Fixpoint sm4_cbc_decrypt (nblocks : nat) (key iv in_ : list Z) : list Z :=
  match nblocks with
  | O => []
  | S n =>
      memxor (sm4_encrypt key (take 16 in_)) iv
      ++ sm4_cbc_decrypt n key (take 16 in_) (drop 16 in_)
  end.

(** The last 16 bytes. *)
Definition last16 (l : list Z) : list Z := drop (List.length l - 16) l.

Definition sm4_cbc_padding_encrypt (key iv in_ : list Z) : list Z :=
  let inlen := List.length in_ in
  let rem := (inlen mod 16)%nat in
  let padding := (16 - rem)%nat in
  let block := drop (inlen - rem) in_ ++ List.repeat (Z.of_nat padding) padding in
  if (inlen / 16 =? 0)%nat then sm4_cbc_encrypt 1 key iv block
  else
    let out := sm4_cbc_encrypt (inlen / 16) key iv in_ in
    out ++ sm4_cbc_encrypt 1 key (last16 out) block.

(** The return code, and the plaintext when it is 1. *)
Definition sm4_cbc_padding_decrypt (key iv in_ : list Z) : Z * list Z :=
  let inlen := List.length in_ in
  if (inlen =? 0)%nat then (0, [])
  else if negb (inlen mod 16 =? 0)%nat || (inlen <? 16)%nat then (-1, [])
  else
    let out :=
      if (16 <? inlen)%nat then sm4_cbc_decrypt (inlen / 16 - 1) key iv in_ else [] in
    let iv := if (16 <? inlen)%nat then take 16 (drop (inlen - 32) in_) else iv in
    let block := sm4_cbc_decrypt 1 key iv (drop (inlen - 16) in_) in
    let padding := List.nth 15 block 0 in
    if (padding <? 1) || (16 <? padding) then (-1, [])
    else (1, out ++ take (Z.to_nat (16 - padding)) block).

(** ** CTR *)

(** [for (i = 15; i >= 0; i--) { a[i]++; if (a[i]) break; }], on the bytes in
    reverse. *)
Fixpoint incr_rev (a : list Z) : list Z :=
  match a with
  | [] => []
  | x :: a' =>
      let x' := (x + 1) mod 256 in
      if x' =? 0 then x' :: incr_rev a' else x' :: a'
  end.

Definition ctr_incr (a : list Z) : list Z := List.rev (incr_rev (List.rev a)).

(** [while (inlen)]: an iteration takes at least a byte.  The counter after,
    and the output. *)
Fixpoint ctr_loop (fuel : nat) (key ctr in_ : list Z) : list Z * list Z :=
  match fuel with
  | O => (ctr, [])
  | S n =>
      match in_ with
      | [] => (ctr, [])
      | _ =>
          let len := Nat.min (List.length in_) 16 in
          let out := memxor (take len in_) (sm4_encrypt key ctr) in
          let '(ctr', r) := ctr_loop n key (ctr_incr ctr) (drop len in_) in
          (ctr', out ++ r)
      end
  end.

Definition sm4_ctr_encrypt (key ctr in_ : list Z) : list Z * list Z :=
  ctr_loop (List.length in_) key ctr in_.

(** ** Incremental interfaces *)

(** [SM4_CBC_CTX] and [SM4_CTR_CTX]; [x_iv] is the counter of the second. *)
Record ctx := mk_ctx {
  x_key : list Z;
  x_iv : list Z;
  x_block : list Z;
  x_nbytes : nat
}.

(** [rk] is what the key of the context holds before. *)
Definition sm4_cbc_encrypt_init (rk key iv : list Z) : ctx :=
  mk_ctx (sm4_set_encrypt_key rk key) iv (List.repeat 0 16) 0.

Definition sm4_cbc_decrypt_init (rk key iv : list Z) : ctx :=
  mk_ctx (sm4_set_decrypt_key rk key) iv (List.repeat 0 16) 0.

Definition sm4_ctr_encrypt_init (rk key iv : list Z) : ctx :=
  mk_ctx (sm4_set_encrypt_key rk key) iv (List.repeat 0 16) 0.

(** The return code, the context and the output. *)
Definition update_out : Type := Z * ctx * list Z.

(** The update functions for encryption in CBC and in CTR mode, which differ
    in how [nblocks] blocks are processed: the next chaining value and the
    output. *)
Section Update.
Context (process : nat -> list Z -> list Z -> list Z -> list Z * list Z).

(** The whole blocks of the input, and what is left for the block buffer. *)
Definition update_tail (x : ctx) (in_ out : list Z) : update_out :=
  let '(x, in_, out) :=
    if (16 <=? List.length in_)%nat then
      let nblocks := (List.length in_ / 16)%nat in
      let '(iv, o) := process nblocks (x_key x) (x_iv x) in_ in
      (mk_ctx (x_key x) iv (x_block x) (x_nbytes x), drop (nblocks * 16) in_, out ++ o)
    else (x, in_, out) in
  let blk := if (List.length in_ =? 0)%nat then x_block x else memcpy_at (x_block x) 0 in_ in
  (1, mk_ctx (x_key x) (x_iv x) blk (List.length in_), out).

Definition block_update (x : ctx) (in_ : list Z) : update_out :=
  if (16 <=? x_nbytes x)%nat then (-1, x, [])
  else if (x_nbytes x =? 0)%nat then update_tail x in_ []
  else
    let left := (16 - x_nbytes x)%nat in
    if (List.length in_ <? left)%nat then
      (1, mk_ctx (x_key x) (x_iv x) (memcpy_at (x_block x) (x_nbytes x) in_)
            (x_nbytes x + List.length in_), [])
    else
      let blk := memcpy_at (x_block x) (x_nbytes x) (take left in_) in
      let '(iv, o) := process 1 (x_key x) (x_iv x) blk in
      update_tail (mk_ctx (x_key x) iv blk (x_nbytes x)) (drop left in_) o.

End Update.

(** [sm4_cbc_encrypt] and the copy of the last block to [ctx->iv]. *)
Definition cbc_process (nblocks : nat) (key iv in_ : list Z) : list Z * list Z :=
  let o := sm4_cbc_encrypt nblocks key iv in_ in (last16 o, o).

Definition sm4_cbc_encrypt_update : ctx -> list Z -> update_out := block_update cbc_process.

Definition sm4_cbc_encrypt_finish (x : ctx) : Z * list Z :=
  if (16 <=? x_nbytes x)%nat then (-1, [])
  else (1, sm4_cbc_padding_encrypt (x_key x) (x_iv x) (take (x_nbytes x) (x_block x))).

(** The last block, whole or not, stays in the buffer. *)
Definition cbc_decrypt_tail (x : ctx) (in_ out : list Z) : update_out :=
  let '(x, in_, out) :=
    if (16 <? List.length in_)%nat then
      let nblocks := ((List.length in_ - 1) / 16)%nat in
      let len := (nblocks * 16)%nat in
      let o := sm4_cbc_decrypt nblocks (x_key x) (x_iv x) in_ in
      (mk_ctx (x_key x) (take 16 (drop (len - 16) in_)) (x_block x) (x_nbytes x), drop len in_, out ++ o)
    else (x, in_, out) in
  (1, mk_ctx (x_key x) (x_iv x) (memcpy_at (x_block x) 0 in_) (List.length in_), out).

Definition sm4_cbc_decrypt_update (x : ctx) (in_ : list Z) : update_out :=
  if (16 <? x_nbytes x)%nat then (-1, x, [])
  else if (x_nbytes x =? 0)%nat then cbc_decrypt_tail x in_ []
  else
    let left := (16 - x_nbytes x)%nat in
    if (List.length in_ <=? left)%nat then
      (1, mk_ctx (x_key x) (x_iv x) (memcpy_at (x_block x) (x_nbytes x) in_)
            (x_nbytes x + List.length in_), [])
    else
      let blk := memcpy_at (x_block x) (x_nbytes x) (take left in_) in
      let o := sm4_cbc_decrypt 1 (x_key x) (x_iv x) blk in
      cbc_decrypt_tail (mk_ctx (x_key x) blk blk (x_nbytes x)) (drop left in_) o.

Definition sm4_cbc_decrypt_finish (x : ctx) : Z * list Z :=
  if negb (x_nbytes x =? 16)%nat then (-1, [])
  else
    let '(ret, out) := sm4_cbc_padding_decrypt (x_key x) (x_iv x) (x_block x) in
    if negb (ret =? 1) then (-1, []) else (1, out).

(** [sm4_ctr_encrypt], which updates [ctx->ctr]. *)
Definition ctr_process (nblocks : nat) (key ctr in_ : list Z) : list Z * list Z :=
  sm4_ctr_encrypt key ctr (take (nblocks * 16) in_).

Definition sm4_ctr_encrypt_update : ctx -> list Z -> update_out := block_update ctr_process.

Definition sm4_ctr_encrypt_finish (x : ctx) : Z * list Z :=
  if (16 <=? x_nbytes x)%nat then (-1, [])
  else (1, snd (sm4_ctr_encrypt (x_key x) (x_iv x) (take (x_nbytes x) (x_block x)))).

(** ** Specification of CTR *)

(** The encryptions of the counters [v], [v + 1], ... *)
Fixpoint keystream (n : nat) (key : list Z) (v : Z) : list Z :=
  match n with
  | O => []
  | S n' => sm4_encrypt key (be_bytes 16 v) ++ keystream n' key (v + 1)
  end.

(** The number of blocks that hold [m]. *)
Definition blocks_of (m : list Z) : nat := ((List.length m + 15) / 16)%nat.

(** ** Lemmas *)

#[local] Opaque sm4_encrypt sm4_set_encrypt_key sm4_set_decrypt_key.

(** Lists of blocks. *)

Lemma length_memxor a b : List.length (memxor a b) = Nat.min (List.length a) (List.length b).
Proof. apply length_zip_with. Qed.

Lemma memxor_bytes a b : bytes a -> bytes b -> bytes (memxor a b).
Proof.
  intros Ha. revert b. induction Ha as [|x a Hx _ IH]; intros b Hb; [constructor |].
  destruct b as [|y b]; [constructor |]. apply Forall_cons_1 in Hb as [Hy Hb].
  constructor; [now apply byte_lxor | now apply IH].
Qed.

Lemma memxor_block a b : block a -> block b -> block (memxor a b).
Proof.
  intros [Ha La] [Hb Lb]. split; [now apply memxor_bytes |]. rewrite length_memxor. lia.
Qed.

Lemma memxor_cancel a b : (List.length a <= List.length b)%nat -> memxor (memxor a b) b = a.
Proof.
  revert b. induction a as [|x a IH]; intros [|y b] H; cbn in *; try done; [lia |].
  rewrite Word.lxor_cancel. f_equal. apply IH. lia.
Qed.

Lemma block_take l : bytes l -> (16 <= List.length l)%nat -> block (take 16 l).
Proof. intros H Hl. split; [now apply Forall_take | rewrite length_take; lia]. Qed.

Lemma last16_app a b : (16 <= List.length b)%nat -> last16 (a ++ b) = last16 b.
Proof.
  intros H. unfold last16. rewrite List.length_app, drop_app_ge by lia. f_equal. lia.
Qed.

Lemma last16_block b : List.length b = 16%nat -> last16 b = b.
Proof. intros H. unfold last16. now rewrite H. Qed.

Lemma block_last16 l : bytes l -> (16 <= List.length l)%nat -> block (last16 l).
Proof. intros H Hl. split; [now apply Forall_drop | unfold last16; rewrite length_drop; lia]. Qed.

Section Cipher.
Context (ek dk : list Z) `{BC : !BlockCipher (sm4_encrypt ek) (sm4_encrypt dk)}.

Lemma length_cbc_encrypt n iv l :
  block iv -> bytes l -> (16 * n <= List.length l)%nat ->
  List.length (sm4_cbc_encrypt n ek iv l) = (16 * n)%nat /\ bytes (sm4_cbc_encrypt n ek iv l).
Proof using BC.
  revert iv l. induction n as [|n IH]; intros iv l Hiv Hl Hn; cbn [sm4_cbc_encrypt]; [done |].
  assert (Hb : block (sm4_encrypt ek (memxor (take 16 l) iv))).
  { apply cipher_block, memxor_block; [apply block_take; [done | lia] | done]. }
  destruct (IH _ (drop 16 l) Hb) as [L B]; [now apply Forall_drop | rewrite length_drop; lia |].
  rewrite List.length_app, L, (proj2 Hb). split; [lia |]. apply Forall_app_2; [apply Hb | done].
Qed.

Lemma cbc_decrypt_encrypt n iv l :
  block iv -> bytes l -> List.length l = (16 * n)%nat ->
  sm4_cbc_decrypt n dk iv (sm4_cbc_encrypt n ek iv l) = l.
Proof using BC.
  revert iv l. induction n as [|n IH]; intros iv l Hiv Hl Hn; cbn [sm4_cbc_encrypt sm4_cbc_decrypt].
  - destruct l; [done | discriminate Hn].
  - assert (Hx : block (memxor (take 16 l) iv)).
    { apply memxor_block; [apply block_take; [done | lia] | done]. }
    pose proof (cipher_block _ Hx) as Hb.
    rewrite take_app_length', drop_app_length' by apply Hb.
    rewrite (cipher_inverse _ Hx), memxor_cancel by (rewrite length_take, (proj2 Hiv); lia).
    rewrite IH; [apply take_drop | done | now apply Forall_drop | rewrite length_drop; lia].
Qed.

(** CBC of a concatenation chains through the last ciphertext block. *)
Lemma cbc_encrypt_app a b iv x y :
  block iv -> bytes x -> bytes y -> List.length x = (16 * a)%nat ->
  sm4_cbc_encrypt (a + b) ek iv (x ++ y) =
  sm4_cbc_encrypt a ek iv x ++ sm4_cbc_encrypt b ek (last16 (iv ++ sm4_cbc_encrypt a ek iv x)) y.
Proof using BC.
  revert iv x. induction a as [|a IH]; intros iv x Hiv Hx Hy Hl; cbn [Nat.add sm4_cbc_encrypt].
  - destruct x; [|discriminate Hl]. rewrite List.app_nil_r, last16_block by apply Hiv. done.
  - assert (Hb : block (sm4_encrypt ek (memxor (take 16 x) iv))).
    { apply cipher_block, memxor_block; [apply block_take; [done | lia] | done]. }
    rewrite take_app_le, drop_app_le by lia.
    rewrite IH; [|done | now apply Forall_drop | done | rewrite length_drop; lia].
    rewrite <- List.app_assoc. do 3 f_equal. rewrite (last16_app iv); [done |].
    rewrite List.length_app, (proj2 Hb). lia.
Qed.

Lemma cbc_encrypt_take n iv l :
  block iv -> bytes l -> (16 * n <= List.length l)%nat ->
  sm4_cbc_encrypt n ek iv (take (16 * n) l) = sm4_cbc_encrypt n ek iv l.
Proof using BC.
  intros Hiv Hl Hn. rewrite <- (take_drop (16 * n) l) at 2. rewrite <- (Nat.add_0_r n) at 3.
  rewrite cbc_encrypt_app; [|done | now apply Forall_take | now apply Forall_drop | rewrite length_take; lia].
  cbn [sm4_cbc_encrypt]. now rewrite List.app_nil_r.
Qed.

(** Padding. *)

Definition padding (m : list Z) : list Z :=
  let p := (16 - List.length m mod 16)%nat in List.repeat (Z.of_nat p) p.

Lemma padding_bytes m : bytes (padding m).
Proof.
  unfold padding. pose proof (Nat.mod_upper_bound (List.length m) 16 ltac:(lia)).
  apply List.Forall_forall. intros x ->%List.repeat_spec. unfold byte. lia.
Qed.

Lemma length_padded m :
  List.length (m ++ padding m) = (16 * (List.length m / 16 + 1))%nat.
Proof.
  unfold padding. rewrite List.length_app, List.repeat_length.
  pose proof (Nat.mod_upper_bound (List.length m) 16 ltac:(lia)).
  pose proof (Nat.div_mod_eq (List.length m) 16). lia.
Qed.

Lemma padding_encrypt_spec iv m :
  block iv -> bytes m ->
  sm4_cbc_padding_encrypt ek iv m = sm4_cbc_encrypt (List.length m / 16 + 1) ek iv (m ++ padding m).
Proof using BC.
  intros Hiv Hm. unfold sm4_cbc_padding_encrypt. cbv zeta. fold (padding m).
  pose proof (Nat.div_mod_eq (List.length m) 16) as Hdm. set (q := (List.length m / 16)%nat) in *.
  replace (List.length m - List.length m mod 16)%nat with (16 * q)%nat by lia.
  assert (E : m ++ padding m = take (16 * q) m ++ drop (16 * q) m ++ padding m)
    by (now rewrite List.app_assoc, take_drop).
  rewrite E.
  rewrite cbc_encrypt_app; [|done | now apply Forall_take | | rewrite length_take; lia].
  2: { apply Forall_app_2; [now apply Forall_drop | apply padding_bytes]. }
  rewrite cbc_encrypt_take by (done || lia). destruct (Nat.eqb_spec q 0) as [-> | Hq].
  - change (sm4_cbc_encrypt 0 ek iv m) with (@nil Z). rewrite List.app_nil_l, List.app_nil_r.
    now rewrite (last16_block iv) by apply Hiv.
  - rewrite last16_app; [done |]. rewrite (proj1 (length_cbc_encrypt q iv m Hiv Hm ltac:(lia))). lia.
Qed.

Lemma length_cbc_decrypt n iv l :
  block iv -> bytes l -> (16 * n <= List.length l)%nat ->
  List.length (sm4_cbc_decrypt n dk iv l) = (16 * n)%nat /\ bytes (sm4_cbc_decrypt n dk iv l).
Proof using BC.
  revert iv l. induction n as [|n IH]; intros iv l Hiv Hl Hn; cbn [sm4_cbc_decrypt]; [done |].
  assert (Ht : block (take 16 l)) by (apply block_take; [done | lia]).
  assert (Hb : block (memxor (sm4_encrypt dk (take 16 l)) iv)).
  { apply memxor_block; [now apply (decipher_block (E := sm4_encrypt ek)) | done]. }
  destruct (IH _ (drop 16 l) Ht) as [L B]; [now apply Forall_drop | rewrite length_drop; lia |].
  rewrite List.length_app, L, (proj2 Hb). split; [lia |]. apply Forall_app_2; [apply Hb | done].
Qed.

Lemma cbc_decrypt_app a b iv x y :
  block iv -> bytes x -> List.length x = (16 * a)%nat ->
  sm4_cbc_decrypt (a + b) dk iv (x ++ y) =
  sm4_cbc_decrypt a dk iv x ++ sm4_cbc_decrypt b dk (last16 (iv ++ x)) y.
Proof using.
  revert iv x. induction a as [|a IH]; intros iv x Hiv Hx Hl; cbn [Nat.add sm4_cbc_decrypt].
  - destruct x; [|discriminate Hl]. rewrite List.app_nil_r, last16_block by apply Hiv. done.
  - assert (Ht : block (take 16 x)) by (apply block_take; [done | lia]).
    rewrite take_app_le, drop_app_le by lia.
    rewrite IH; [|done | now apply Forall_drop | rewrite length_drop; lia].
    rewrite <- List.app_assoc, take_drop. do 3 f_equal. rewrite (last16_app iv); [done | lia].
Qed.

(** One-shot decryption: the whole text in CBC, then the padding. *)
Lemma padding_decrypt_spec iv c n :
  block iv -> bytes c -> List.length c = (16 * S n)%nat ->
  sm4_cbc_padding_decrypt dk iv c =
  let pt := sm4_cbc_decrypt (S n) dk iv c in
  let p := List.nth (16 * n + 15) pt 0 in
  if (p <? 1) || (16 <? p) then (-1, []) else (1, take (16 * n + Z.to_nat (16 - p)) pt).
Proof using BC.
  intros Hiv Hc Hl. unfold sm4_cbc_padding_decrypt. rewrite Hl.
  replace (16 * S n =? 0)%nat with false by (symmetry; apply Nat.eqb_neq; lia).
  replace ((16 * S n) mod 16)%nat with 0%nat by (rewrite Nat.mul_comm, Nat.Div0.mod_mul; done).
  replace (16 * S n <? 16)%nat with false by (symmetry; apply Nat.ltb_ge; lia). cbn [Nat.eqb negb orb]. cbv zeta.
  assert (E : c = take (16 * n) c ++ drop (16 * n) c) by (now rewrite take_drop).
  assert (Lt : List.length (take (16 * n) c) = (16 * n)%nat) by (rewrite length_take; lia).
  assert (Es : sm4_cbc_decrypt (S n) dk iv c =
    sm4_cbc_decrypt n dk iv (take (16 * n) c) ++ sm4_cbc_decrypt 1 dk (last16 (iv ++ take (16 * n) c)) (drop (16 * n) c)).
  { rewrite E at 1. replace (S n) with (n + 1)%nat by lia. apply cbc_decrypt_app; [done | now apply Forall_take | done]. }
  assert (En : sm4_cbc_decrypt n dk iv c = sm4_cbc_decrypt n dk iv (take (16 * n) c)).
  { rewrite E at 1. rewrite <- (Nat.add_0_r n) at 1. rewrite cbc_decrypt_app; [|done | now apply Forall_take | done].
    cbn [sm4_cbc_decrypt]. apply List.app_nil_r. }
  replace (16 * S n - 16)%nat with (16 * n)%nat by lia.
  replace ((16 * S n) / 16 - 1)%nat with n by (rewrite Nat.mul_comm, Nat.div_mul; lia).
  destruct (length_cbc_decrypt n iv (take (16 * n) c)) as [Ln _]; [done | now apply Forall_take | lia |].
  rewrite Es, List.app_nth2, take_app_ge by lia. rewrite Ln.
  replace (16 * n + 15 - 16 * n)%nat with 15%nat by lia.
  destruct (Nat.ltb_spec 16 (16 * S n)) as [Hn | Hn].
  - rewrite En. replace (last16 (iv ++ take (16 * n) c)) with (take 16 (drop (16 * S n - 32) c)).
    + destruct (_ || _) eqn:Ep; [done |]. do 2 f_equal. f_equal. lia.
    + rewrite last16_app by lia. unfold last16. rewrite Lt, take_drop_commute.
      f_equal; [lia |]. f_equal. lia.
  - assert (n = 0%nat) as -> by lia. change (16 * 0)%nat with 0%nat. rewrite !take_0, !drop_0, List.app_nil_r.
    change (sm4_cbc_decrypt 0 dk iv []) with (@nil Z). rewrite !List.app_nil_l, last16_block by apply Hiv.
    destruct (_ || _); [reflexivity |]. now rewrite Nat.add_0_l, Nat.sub_0_r.
Qed.

Lemma padding_decrypt_encrypt iv m :
  block iv -> bytes m ->
  sm4_cbc_padding_decrypt dk iv (sm4_cbc_padding_encrypt ek iv m) = (1, m).
Proof using BC.
  intros Hiv Hm. rewrite padding_encrypt_spec by done. set (q := (List.length m / 16)%nat).
  pose proof (Nat.div_mod_eq (List.length m) 16) as Hdm. fold q in Hdm.
  pose proof (Nat.mod_upper_bound (List.length m) 16 ltac:(lia)) as Hr.
  pose proof (length_padded m) as Hl. fold q in Hl.
  assert (Hp : bytes (m ++ padding m)) by (apply Forall_app_2; [done | apply padding_bytes]).
  destruct (length_cbc_encrypt (q + 1) iv (m ++ padding m)) as [Lc Bc]; [done | done | lia |].
  rewrite (padding_decrypt_spec _ _ q) by (done || lia). replace (S q) with (q + 1)%nat by lia.
  rewrite cbc_decrypt_encrypt by done. cbv zeta.
  set (r := (List.length m mod 16)%nat) in *.
  assert (En : List.nth (16 * q + 15) (m ++ padding m) 0 = Z.of_nat (16 - r)).
  { rewrite List.app_nth2 by lia. unfold padding. fold r. apply List.nth_repeat_lt. lia. }
  assert (Hp16 : 1 <= Z.of_nat (16 - r) <= 16) by lia.
  assert (El : (16 * q + Z.to_nat (16 - Z.of_nat (16 - r)))%nat = List.length m) by lia.
  rewrite En, El. destruct (Z.ltb_spec (Z.of_nat (16 - r)) 1); [lia |].
  destruct (Z.ltb_spec 16 (Z.of_nat (16 - r))); [lia |]. cbn [orb]. f_equal.
  apply take_app_length.
Qed.

End Cipher.

(** Feeding a sequence of inputs to an update function. *)
Fixpoint updates (update : ctx -> list Z -> update_out) (x : ctx) (ds : list (list Z)) : update_out :=
  match ds with
  | [] => (1, x, [])
  | d :: ds' =>
      let '(rc, x1, o1) := update x d in
      if rc =? 1 then let '(rc', x2, o2) := updates update x1 ds' in (rc', x2, o1 ++ o2)
      else (rc, x1, o1)
  end.

(** The update functions cut their input into blocks: whatever the sizes of
    the pieces, the blocks are processed in order, and what is left of the
    last one is in the buffer. *)
Section Streaming.
Context (process : nat -> list Z -> list Z -> list Z -> list Z * list Z) (key : list Z)
  (steps : nat -> list Z -> list Z -> list Z * list Z) (ok : list Z -> Prop).
Context (steps_O : forall iv l, ok iv -> steps 0 iv l = (iv, []))
  (process_steps : forall n iv l, (0 < n)%nat -> ok iv -> bytes l -> (16 * n <= List.length l)%nat ->
     process n key iv l = steps n iv (take (16 * n) l))
  (steps_ok : forall n iv l, ok iv -> bytes l -> List.length l = (16 * n)%nat -> ok (fst (steps n iv l)))
  (steps_app : forall a b iv x y, ok iv -> bytes x -> bytes y -> List.length x = (16 * a)%nat ->
     steps (a + b) iv (x ++ y) =
     let '(iv1, o1) := steps a iv x in let '(iv2, o2) := steps b iv1 y in (iv2, o1 ++ o2)).

(** [x] has been fed [m] and has written [out]. *)
Record fed (iv0 m out : list Z) (x : ctx) : Prop := {
  fed_key : x_key x = key;
  fed_block : List.length (x_block x) = 16%nat;
  fed_nbytes : (x_nbytes x < 16)%nat;
  fed_parts : exists q m0, m = m0 ++ take (x_nbytes x) (x_block x) /\
    List.length m0 = (16 * q)%nat /\ steps q iv0 m0 = (x_iv x, out)
}.

Lemma update_tail_fed iv0 q m0 out x d o0 :
  ok iv0 -> bytes m0 -> bytes d -> x_key x = key -> List.length (x_block x) = 16%nat ->
  List.length m0 = (16 * q)%nat -> steps q iv0 m0 = (x_iv x, out) ->
  exists x' o, update_tail process x d o0 = (1, x', o0 ++ o) /\ fed iv0 (m0 ++ d) (out ++ o) x'.
Proof using steps_O process_steps steps_ok steps_app.
  intros Hiv Hm Hd Hk Hb Hl Hs. destruct x as [k iv blk nb]. cbn [x_key x_iv x_block x_nbytes] in *. subst k.
  set (n := (List.length d / 16)%nat). pose proof (Nat.div_mod_eq (List.length d) 16) as Hdm. fold n in Hdm.
  pose proof (Nat.mod_upper_bound (List.length d) 16 ltac:(lia)) as Hr.
  assert (Ed : d = take (16 * n) d ++ drop (16 * n) d) by (now rewrite take_drop).
  assert (Hok : ok iv).
  { pose proof (steps_ok q iv0 m0 Hiv Hm Hl) as G. now rewrite Hs in G. }
  assert (Ht : List.length (take (16 * n) d) = (16 * n)%nat) by (rewrite length_take; lia).
  pose proof (steps_app q n iv0 m0 (take (16 * n) d) Hiv Hm ltac:(now apply Forall_take) Hl) as Ha.
  rewrite Hs in Ha. destruct (steps n iv (take (16 * n) d)) as [iv' o] eqn:Eo.
  assert (E : update_tail process (mk_ctx key iv blk nb) d o0 =
    (1, mk_ctx key iv' (if (List.length (drop (16 * n) d) =? 0)%nat then blk else memcpy_at blk 0 (drop (16 * n) d))
          (List.length (drop (16 * n) d)), o0 ++ o)).
  { unfold update_tail. cbn [x_key x_iv x_block x_nbytes]. fold n.
    destruct (Nat.leb_spec 16 (List.length d)) as [H16 | H16].
    - rewrite process_steps by (done || lia). rewrite Eo. cbn [x_key x_iv x_block x_nbytes].
      now rewrite (Nat.mul_comm n 16).
    - assert (n = 0%nat) as En by (unfold n; now apply Nat.div_small). rewrite En in *.
      change (16 * 0)%nat with 0%nat in *. rewrite !drop_0. rewrite steps_O in Eo by done. injection Eo as <- <-.
      now rewrite List.app_nil_r. }
  eexists _, o. split; [exact E |].
  assert (Ld : List.length (drop (16 * n) d) = (List.length d mod 16)%nat) by (rewrite length_drop; lia).
  split; cbn [x_key x_iv x_block x_nbytes]; [done | | lia |].
  - destruct (Nat.eqb_spec (List.length (drop (16 * n) d)) 0); [done |]. rewrite length_memcpy_at; lia.
  - exists (q + n)%nat, (m0 ++ take (16 * n) d). rewrite <- List.app_assoc. split; [|split].
    + f_equal. rewrite Ed at 1. f_equal.
      destruct (Nat.eqb_spec (List.length (drop (16 * n) d)) 0) as [E0 | E0].
      * apply List.length_zero_iff_nil in E0. now rewrite E0.
      * symmetry. apply (take_memcpy_at blk 0 _ []); done.
    + rewrite List.length_app. lia.
    + exact Ha.
Qed.

Lemma update_fed iv0 m out x d :
  ok iv0 -> bytes m -> bytes d -> fed iv0 m out x ->
  exists x' o, block_update process x d = (1, x', o) /\ fed iv0 (m ++ d) (out ++ o) x'.
Proof using steps_O process_steps steps_ok steps_app.
  intros Hiv Hm Hd [Hk Hb Hn (q & m0 & Em & Hl & Hs)].
  assert (Hm0 : bytes m0) by (rewrite Em in Hm; now apply Forall_app in Hm).
  unfold block_update. destruct (Nat.leb_spec 16 (x_nbytes x)); [lia |].
  destruct (Nat.eqb_spec (x_nbytes x) 0) as [E0 | E0].
  - rewrite E0 in Em. cbn [take] in Em. rewrite List.app_nil_r in Em. subst m.
    apply (update_tail_fed iv0 q m0 out x d []); done.
  - set (y := take (x_nbytes x) (x_block x)) in *.
    assert (Ly : List.length y = x_nbytes x) by (unfold y; rewrite length_take; lia).
    destruct (Nat.ltb_spec (List.length d) (16 - x_nbytes x)) as [Hlt | Hge].
    + eexists _, []. split; [reflexivity |].
      split; cbn [x_key x_iv x_block x_nbytes]; [done | rewrite length_memcpy_at; lia | lia |].
      exists q, m0. rewrite (take_memcpy_at _ _ _ y) by done.
      rewrite List.app_nil_r, Em, <- List.app_assoc. done.
    + set (e := take (16 - x_nbytes x) d).
      assert (Le : List.length e = (16 - x_nbytes x)%nat) by (unfold e; rewrite length_take; lia).
      rewrite (memcpy_at_full _ _ e y) by (done || lia).
      assert (He : bytes e) by (now apply Forall_take).
      assert (Hye : bytes (y ++ e)) by (apply Forall_app_2; [rewrite Em in Hm; now apply Forall_app in Hm | done]).
      assert (Lye : List.length (y ++ e) = 16%nat) by (rewrite List.length_app; lia).
      assert (Hok : ok (x_iv x)).
      { pose proof (steps_ok q iv0 m0 Hiv Hm0 Hl) as G. now rewrite Hs in G. }
      rewrite Hk, process_steps by (done || lia). rewrite take_ge by lia.
      pose proof (steps_app q 1 iv0 m0 (y ++ e) Hiv Hm0 Hye Hl) as Ha. rewrite Hs in Ha.
      destruct (steps 1 (x_iv x) (y ++ e)) as [iv1 o1].
      destruct (update_tail_fed iv0 (q + 1) (m0 ++ y ++ e) (out ++ o1)
        (mk_ctx key iv1 (y ++ e) (x_nbytes x)) (drop (16 - x_nbytes x) d) o1) as (x' & o & E & F);
        [done | now apply Forall_app_2 | now apply Forall_drop | done | done | rewrite List.length_app; lia | done |].
      exists x', (o1 ++ o). split; [exact E |].
      rewrite Em, <- (take_drop (16 - x_nbytes x) d), <- !List.app_assoc. fold e.
      rewrite <- !List.app_assoc in F. exact F.
Qed.

Lemma updates_fed iv0 m out x ds :
  ok iv0 -> bytes m -> Forall bytes ds -> fed iv0 m out x ->
  exists x' o, updates (block_update process) x ds = (1, x', o) /\ fed iv0 (m ++ List.concat ds) (out ++ o) x'.
Proof using steps_O process_steps steps_ok steps_app.
  intros Hiv Hm Hds. revert m out x Hm. induction Hds as [|d ds Hd _ IH]; intros m out x Hm Hx.
  - exists x, []. cbn. rewrite !List.app_nil_r. done.
  - destruct (update_fed iv0 m out x d) as (x1 & o1 & E1 & F1); [done..|].
    destruct (IH (m ++ d) (out ++ o1) x1) as (x2 & o2 & E2 & F2); [now apply Forall_app_2 | done |].
    exists x2, (o1 ++ o2). cbn [updates List.concat]. rewrite E1. cbn [Z.eqb Pos.eqb]. rewrite E2.
    split; [done |]. rewrite <- !List.app_assoc in F2. exact F2.
Qed.

End Streaming.

(** CBC encryption as a stream. *)
Section CbcStream.
Context (ek dk : list Z) `{BC : !BlockCipher (sm4_encrypt ek) (sm4_encrypt dk)}.

Definition cbc_steps (n : nat) (iv l : list Z) : list Z * list Z :=
  let o := sm4_cbc_encrypt n ek iv l in (last16 (iv ++ o), o).

Lemma cbc_steps_O iv l : block iv -> cbc_steps 0 iv l = (iv, []).
Proof using. intros H. unfold cbc_steps. cbn [sm4_cbc_encrypt]. rewrite List.app_nil_r, last16_block by apply H. done. Qed.

Lemma cbc_process_steps n iv l :
  (0 < n)%nat -> block iv -> bytes l -> (16 * n <= List.length l)%nat ->
  cbc_process n ek iv l = cbc_steps n iv (take (16 * n) l).
Proof using BC.
  intros Hn Hiv Hl Hlen. unfold cbc_process, cbc_steps. rewrite (cbc_encrypt_take ek dk) by done.
  rewrite last16_app; [done |]. rewrite (proj1 (length_cbc_encrypt ek dk n iv l Hiv Hl Hlen)). lia.
Qed.

Lemma cbc_steps_block n iv l :
  block iv -> bytes l -> List.length l = (16 * n)%nat -> block (fst (cbc_steps n iv l)).
Proof using BC.
  intros Hiv Hl Hlen. unfold cbc_steps. cbn [fst].
  destruct (length_cbc_encrypt ek dk n iv l Hiv Hl ltac:(lia)) as [L B].
  apply block_last16; [apply Forall_app_2; [apply Hiv | done] |]. rewrite List.length_app, (proj2 Hiv). lia.
Qed.

Lemma cbc_steps_app a b iv x y :
  block iv -> bytes x -> bytes y -> List.length x = (16 * a)%nat ->
  cbc_steps (a + b) iv (x ++ y) =
  let '(iv1, o1) := cbc_steps a iv x in let '(iv2, o2) := cbc_steps b iv1 y in (iv2, o1 ++ o2).
Proof using BC.
  intros Hiv Hx Hy Hl. unfold cbc_steps. rewrite (cbc_encrypt_app ek dk) by done. cbv zeta. f_equal.
  set (o1 := sm4_cbc_encrypt a ek iv x). set (o2 := sm4_cbc_encrypt b ek _ y).
  destruct (length_cbc_encrypt ek dk a iv x Hiv Hx ltac:(lia)) as [L1 _]. fold o1 in L1.
  rewrite List.app_assoc. unfold last16. rewrite !List.length_app, length_drop, List.length_app, (proj2 Hiv), L1.
  destruct (Nat.leb_spec 16 (List.length o2)).
  - rewrite (drop_app_ge (iv ++ o1) o2), (drop_app_ge (drop _ (iv ++ o1)) o2)
      by (rewrite ?length_drop, List.length_app, (proj2 Hiv), L1; lia).
    rewrite length_drop, List.length_app, (proj2 Hiv), L1. f_equal. lia.
  - rewrite (drop_app_le (iv ++ o1) o2), (drop_app_le (drop _ (iv ++ o1)) o2)
      by (rewrite ?length_drop, List.length_app, (proj2 Hiv), L1; lia).
    rewrite drop_drop. do 2 f_equal. lia.
Qed.

(** [x] has been fed the ciphertext [c] and has written [out]: a block, whole
    if the ciphertext is, is held back. *)
Record held (iv0 c out : list Z) (x : ctx) : Prop := {
  held_key : x_key x = dk;
  held_block : List.length (x_block x) = 16%nat;
  held_nbytes : (x_nbytes x <= 16)%nat;
  held_parts : exists q c0, c = c0 ++ take (x_nbytes x) (x_block x) /\
    List.length c0 = (16 * q)%nat /\ x_iv x = last16 (iv0 ++ c0) /\
    out = sm4_cbc_decrypt q dk iv0 c0 /\ (x_nbytes x = 0%nat -> c0 = [])
}.

Lemma cbc_decrypt_take n iv l :
  block iv -> bytes l -> (16 * n <= List.length l)%nat ->
  sm4_cbc_decrypt n dk iv l = sm4_cbc_decrypt n dk iv (take (16 * n) l).
Proof using.
  intros Hiv Hl Hn. rewrite <- (take_drop (16 * n) l) at 1. rewrite <- (Nat.add_0_r n) at 1.
  rewrite cbc_decrypt_app; [|done | now apply Forall_take | rewrite length_take; lia].
  cbn [sm4_cbc_decrypt]. now rewrite List.app_nil_r.
Qed.

Lemma last16_chain iv c0 t n :
  block iv -> List.length t = (16 * n)%nat -> last16 ((iv ++ c0) ++ t) = last16 (last16 (iv ++ c0) ++ t).
Proof using.
  intros Hiv Ht. destruct n as [|n].
  - destruct t; [|discriminate Ht]. rewrite !List.app_nil_r.
    rewrite (last16_block (last16 (iv ++ c0))); [done |]. unfold last16. rewrite length_drop, List.length_app, (proj2 Hiv). lia.
  - rewrite !last16_app by lia. done.
Qed.

Lemma decrypt_tail_held iv0 q c0 x d o0 :
  block iv0 -> bytes c0 -> bytes d -> x_key x = dk -> List.length (x_block x) = 16%nat ->
  List.length c0 = (16 * q)%nat -> x_iv x = last16 (iv0 ++ c0) -> (d = [] -> c0 = []) ->
  exists x' o, cbc_decrypt_tail x d o0 = (1, x', o0 ++ o) /\
    held iv0 (c0 ++ d) (sm4_cbc_decrypt q dk iv0 c0 ++ o) x'.
Proof using.
  intros Hiv Hc Hd Hk Hb Hl Hx Hnil. destruct x as [k iv blk nb]. cbn [x_key x_iv x_block x_nbytes] in *. subst k.
  set (n := ((List.length d - 1) / 16)%nat). pose proof (Nat.div_mod_eq (List.length d - 1) 16) as Hdm. fold n in Hdm.
  pose proof (Nat.mod_upper_bound (List.length d - 1) 16 ltac:(lia)) as Hr.
  assert (Ht : List.length (take (16 * n) d) = (16 * n)%nat) by (rewrite length_take; lia).
  assert (Ed : d = take (16 * n) d ++ drop (16 * n) d) by (now rewrite take_drop).
  set (t := take (16 * n) d) in *. set (r := drop (16 * n) d) in *.
  assert (Lr : List.length r = (List.length d - 16 * n)%nat) by (unfold r; now rewrite length_drop).
  assert (Hiv' : block iv).
  { rewrite Hx. apply block_last16; [apply Forall_app_2; [apply Hiv | done] |]. rewrite List.length_app, (proj2 Hiv). lia. }
  assert (E : cbc_decrypt_tail (mk_ctx dk iv blk nb) d o0 =
    (1, mk_ctx dk (last16 (iv ++ t)) (memcpy_at blk 0 r) (List.length r), o0 ++ sm4_cbc_decrypt n dk iv t)).
  { unfold cbc_decrypt_tail. cbn [x_key x_iv x_block x_nbytes]. fold n.
    destruct (Nat.ltb_spec 16 (List.length d)) as [H16 | H16].
    - cbn [x_key x_iv x_block x_nbytes]. rewrite (cbc_decrypt_take n) by (done || lia). fold t.
      rewrite (Nat.mul_comm n 16). fold r. rewrite last16_app by lia. unfold last16. rewrite Ht.
      replace (take 16 (drop (16 * n - 16) d)) with (drop (16 * n - 16) t); [done |].
      unfold t. rewrite take_drop_commute. f_equal. f_equal. lia.
    - assert (n = 0%nat) as En by (unfold n; apply Nat.div_small; lia).
      unfold t, r. rewrite En. change (16 * 0)%nat with 0%nat. rewrite take_0, drop_0, List.app_nil_r.
      rewrite last16_block by apply Hiv'. cbn [sm4_cbc_decrypt x_key x_iv x_block x_nbytes].
      now rewrite List.app_nil_r. }
  eexists _, (sm4_cbc_decrypt n dk iv t). split; [exact E |].
  split; cbn [x_key x_iv x_block x_nbytes]; [done | rewrite length_memcpy_at; lia | lia |].
  exists (q + n)%nat, (c0 ++ t). split; [|split; [|split; [|split]]].
  - rewrite <- List.app_assoc. f_equal. rewrite Ed at 1. f_equal. symmetry.
    apply (take_memcpy_at blk 0 r []); done.
  - rewrite List.length_app. lia.
  - rewrite List.app_assoc, Hx. symmetry. now apply (last16_chain iv0 c0 t n).
  - rewrite cbc_decrypt_app by done. now rewrite Hx.
  - intros H0. assert (d = []) as Hd0 by (apply List.length_zero_iff_nil; lia).
    rewrite (Hnil Hd0). unfold t. rewrite Hd0. now rewrite take_nil.
Qed.

Lemma decrypt_update_held iv0 c out x d :
  block iv0 -> bytes c -> bytes d -> held iv0 c out x ->
  exists x' o, sm4_cbc_decrypt_update x d = (1, x', o) /\ held iv0 (c ++ d) (out ++ o) x'.
Proof using.
  intros Hiv Hc Hd [Hk Hb Hn (q & c0 & Ec & Hl & Hx & -> & H0)].
  assert (Hc0 : bytes c0) by (rewrite Ec in Hc; now apply Forall_app in Hc).
  unfold sm4_cbc_decrypt_update. destruct (Nat.ltb_spec 16 (x_nbytes x)); [lia |].
  destruct (Nat.eqb_spec (x_nbytes x) 0) as [E0 | E0].
  - rewrite E0 in Ec. cbn [take] in Ec. rewrite List.app_nil_r in Ec. subst c.
    apply (decrypt_tail_held iv0 q c0 x d []); try done. intros _. now apply H0.
  - set (y := take (x_nbytes x) (x_block x)) in *.
    assert (Ly : List.length y = x_nbytes x) by (unfold y; rewrite length_take; lia).
    destruct (Nat.leb_spec (List.length d) (16 - x_nbytes x)) as [Hle | Hgt].
    + eexists _, []. split; [reflexivity |].
      split; cbn [x_key x_iv x_block x_nbytes]; [done | rewrite length_memcpy_at; lia | lia |].
      exists q, c0. rewrite (take_memcpy_at _ _ _ y), List.app_nil_r, Ec, <- List.app_assoc by done.
      repeat split; try done. lia.
    + set (e := take (16 - x_nbytes x) d).
      assert (Le : List.length e = (16 - x_nbytes x)%nat) by (unfold e; rewrite length_take; lia).
      rewrite (memcpy_at_full _ _ e y) by (done || lia).
      assert (He : bytes e) by (now apply Forall_take).
      assert (Hye : bytes (y ++ e)) by (apply Forall_app_2; [rewrite Ec in Hc; now apply Forall_app in Hc | done]).
      assert (Lye : List.length (y ++ e) = 16%nat) by (rewrite List.length_app; lia).
      destruct (decrypt_tail_held iv0 (q + 1) (c0 ++ y ++ e) (mk_ctx dk (y ++ e) (y ++ e) (x_nbytes x))
        (drop (16 - x_nbytes x) d) (sm4_cbc_decrypt 1 dk (x_iv x) (y ++ e))) as (x' & o & E & F);
        [done | now apply Forall_app_2 | now apply Forall_drop | done | done | rewrite List.length_app; lia | | |].
      * cbn [x_iv]. rewrite List.app_assoc, last16_app, last16_block by lia. done.
      * intros G. apply (f_equal List.length) in G. rewrite length_drop in G. cbn in G. lia.
      * rewrite Hk. exists x', (sm4_cbc_decrypt 1 dk (x_iv x) (y ++ e) ++ o). split; [exact E |].
        rewrite cbc_decrypt_app, <- Hx in F by done.
        rewrite Ec, <- (take_drop (16 - x_nbytes x) d), <- !List.app_assoc. fold e.
        rewrite <- !List.app_assoc in F. exact F.
Qed.

Lemma decrypt_updates_held iv0 c out x ds :
  block iv0 -> bytes c -> Forall bytes ds -> held iv0 c out x ->
  exists x' o, updates sm4_cbc_decrypt_update x ds = (1, x', o) /\ held iv0 (c ++ List.concat ds) (out ++ o) x'.
Proof using.
  intros Hiv Hc Hds. revert c out x Hc. induction Hds as [|d ds Hd _ IH]; intros c out x Hc Hx.
  - exists x, []. cbn. rewrite !List.app_nil_r. done.
  - destruct (decrypt_update_held iv0 c out x d) as (x1 & o1 & E1 & F1); [done..|].
    destruct (IH (c ++ d) (out ++ o1) x1) as (x2 & o2 & E2 & F2); [now apply Forall_app_2 | done |].
    exists x2, (o1 ++ o2). cbn [updates List.concat]. rewrite E1. cbn [Z.eqb Pos.eqb]. rewrite E2.
    split; [done |]. rewrite <- !List.app_assoc in F2. exact F2.
Qed.

(** Finishing gives what decrypting the whole ciphertext at once gives. *)
Lemma decrypt_finish_held iv0 c out x :
  block iv0 -> bytes c -> held iv0 c out x ->
  match sm4_cbc_padding_decrypt dk iv0 c with
  | (1, pt) => exists f, sm4_cbc_decrypt_finish x = (1, f) /\ out ++ f = pt
  | _ => sm4_cbc_decrypt_finish x = (-1, [])
  end.
Proof using BC.
  intros Hiv Hc [Hk Hb Hn (q & c0 & Ec & Hl & Hx & -> & H0)].
  set (y := take (x_nbytes x) (x_block x)) in *.
  assert (Ly : List.length y = x_nbytes x) by (unfold y; rewrite length_take; lia).
  unfold sm4_cbc_decrypt_finish. destruct (Nat.eqb_spec (x_nbytes x) 16) as [E16 | N16]; cbn [negb].
  - assert (Ey : x_block x = y) by (unfold y; rewrite take_ge; [done | lia]).
    assert (Hc0 : bytes c0 /\ bytes y) by (rewrite Ec in Hc; now apply Forall_app in Hc).
    assert (Hx' : block (x_iv x)).
    { rewrite Hx. apply block_last16; [apply Forall_app_2; [apply Hiv | apply Hc0] |].
      rewrite List.length_app, (proj2 Hiv). lia. }
    rewrite (padding_decrypt_spec ek dk iv0 c q) by (done || rewrite Ec, List.length_app; lia).
    rewrite Ey, Hk, (padding_decrypt_spec ek dk (x_iv x) y 0) by (tauto || lia). cbv zeta.
    replace (S q) with (q + 1)%nat by lia. rewrite Ec, cbc_decrypt_app, <- Hx by tauto.
    destruct (length_cbc_decrypt ek dk q iv0 c0) as [L1 _]; [done | tauto | lia |].
    set (o1 := sm4_cbc_decrypt q dk iv0 c0) in *. set (p1 := sm4_cbc_decrypt 1 dk (x_iv x) y).
    rewrite List.app_nth2 by lia. rewrite L1.
    replace (16 * q + 15 - 16 * q)%nat with 15%nat by lia. change (16 * 0 + 15)%nat with 15%nat.
    change (16 * 0)%nat with 0%nat. destruct (_ || _); [reflexivity |].
    eexists. split; [reflexivity |]. rewrite take_app_ge by lia. f_equal. f_equal. lia.
  - assert (G : fst (sm4_cbc_padding_decrypt dk iv0 c) <> 1); [|destruct (sm4_cbc_padding_decrypt dk iv0 c) as [r pt]; cbn [fst] in G].
    2: { destruct r as [|[| |]|]; done. }
    unfold sm4_cbc_padding_decrypt. assert (Lc : List.length c = (16 * q + x_nbytes x)%nat).
    { rewrite Ec, List.length_app. lia. }
    destruct (Nat.eqb_spec (List.length c) 0) as [|Nc]; [done |].
    destruct (Nat.eqb_spec (List.length c mod 16) 0) as [E | E]; [|done]. exfalso.
    rewrite Lc, (Nat.mul_comm 16), Nat.add_comm, Nat.Div0.mod_add, Nat.mod_small in E by lia.
    rewrite (H0 E) in Hl. cbn [List.length] in Hl. lia.
Qed.

End CbcStream.

(** Counters. *)

Lemma be_bytes_block v : block (be_bytes 16 v).
Proof.
  unfold be_bytes. split; [apply List.Forall_rev, le_bytes_bytes |]. now rewrite List.length_rev, length_le_bytes.
Qed.

Lemma incr_le_bytes n v : incr_rev (le_bytes n v) = le_bytes n (v + 1).
Proof.
  revert v. induction n as [|n IH]; intros v; cbn [le_bytes incr_rev]; [done |].
  pose proof (Z.div_mod v 256 ltac:(lia)) as Hv. pose proof (Z.mod_pos_bound v 256 ltac:(lia)) as Hm.
  rewrite Z.add_mod_idemp_l by lia. destruct (Z.eqb_spec ((v + 1) mod 256) 0) as [E | E].
  - rewrite IH. f_equal. f_equal. pose proof (Z.div_mod (v + 1) 256 ltac:(lia)). lia.
  - f_equal. f_equal. pose proof (Z.div_mod (v + 1) 256 ltac:(lia)).
    pose proof (Z.mod_pos_bound (v + 1) 256 ltac:(lia)). lia.
Qed.

(** The byte-wise increment is the increment of the 128-bit counter. *)
Lemma ctr_incr_be_bytes n v : ctr_incr (be_bytes n v) = be_bytes n (v + 1).
Proof. unfold ctr_incr, be_bytes. now rewrite List.rev_involutive, incr_le_bytes. Qed.

Section Ctr.
Context (ek : list Z) (E_block : forall b, block b -> block (sm4_encrypt ek b)).

Lemma length_keystream n v : List.length (keystream n ek v) = (16 * n)%nat.
Proof using E_block.
  revert v. induction n as [|n IH]; intros v; cbn [keystream]; [done |].
  rewrite List.length_app, IH, (proj2 (E_block _ (be_bytes_block v))). lia.
Qed.

Lemma memxor_app a b c d :
  List.length a = List.length c -> memxor (a ++ b) (c ++ d) = memxor a c ++ memxor b d.
Proof using.
  revert c. induction a as [|x a IH]; intros [|y c] H; try discriminate H; [reflexivity |].
  injection H as H. cbn. f_equal. now apply IH.
Qed.

Lemma memxor_cut m e r : (List.length m <= List.length e)%nat -> memxor m (e ++ r) = memxor m e.
Proof using.
  revert e. induction m as [|x m IH]; intros [|y e] H; cbn in *; try reflexivity; [lia |].
  f_equal. apply IH. lia.
Qed.

Lemma ctr_loop_spec fuel v m :
  (List.length m <= fuel)%nat ->
  ctr_loop fuel ek (be_bytes 16 v) m =
  (be_bytes 16 (v + Z.of_nat (blocks_of m)), memxor m (keystream (blocks_of m) ek v)).
Proof using E_block.
  revert v m. induction fuel as [|fuel IH]; intros v m Hf.
  - destruct m; [|cbn in Hf; lia]. cbn. now rewrite Z.add_0_r.
  - destruct m as [|c m0] eqn:Em; [cbn; now rewrite Z.add_0_r |]. rewrite <- Em in *.
    assert (Hm : (0 < List.length m)%nat) by (rewrite Em; cbn; lia).
    assert (E : ctr_loop (S fuel) ek (be_bytes 16 v) m =
      let len := Nat.min (List.length m) 16 in
      let out := memxor (take len m) (sm4_encrypt ek (be_bytes 16 v)) in
      let '(ctr', r) := ctr_loop fuel ek (ctr_incr (be_bytes 16 v)) (drop len m) in (ctr', out ++ r))
      by (now rewrite Em).
    rewrite E. cbv zeta. rewrite ctr_incr_be_bytes, IH by (rewrite length_drop; lia).
    pose proof (proj2 (E_block _ (be_bytes_block v))) as Le.
    destruct (Nat.leb_spec 16 (List.length m)) as [Hl | Hl].
    + rewrite Nat.min_r by lia.
      assert (Eb : blocks_of m = S (blocks_of (drop 16 m))).
      { unfold blocks_of. rewrite length_drop.
        replace (List.length m + 15)%nat with (List.length m - 16 + 15 + 1 * 16)%nat by lia.
        rewrite Nat.div_add by lia. lia. }
      rewrite Eb. cbn [keystream]. rewrite Nat2Z.inj_succ. f_equal; [f_equal; lia |].
      rewrite <- memxor_app by (rewrite length_take, Le; lia). now rewrite take_drop.
    + rewrite Nat.min_l, take_ge, drop_ge by lia.
      assert (Eb : blocks_of m = 1%nat).
      { unfold blocks_of. replace (List.length m + 15)%nat with (List.length m - 1 + 1 * 16)%nat by lia.
        rewrite Nat.div_add, Nat.div_small by lia. done. }
      rewrite Eb. change (blocks_of []) with 0%nat. cbn [keystream]. f_equal; [f_equal; lia |].
      rewrite List.app_nil_r. change (memxor [] []) with (@nil Z). now rewrite List.app_nil_r.
Qed.

Lemma ctr_encrypt_spec v m :
  sm4_ctr_encrypt ek (be_bytes 16 v) m =
  (be_bytes 16 (v + Z.of_nat (blocks_of m)), memxor m (keystream (blocks_of m) ek v)).
Proof using E_block. now apply ctr_loop_spec. Qed.

Lemma keystream_app a b v : keystream (a + b) ek v = keystream a ek v ++ keystream b ek (v + Z.of_nat a).
Proof using.
  revert v. induction a as [|a IH]; intros v; cbn [Nat.add keystream].
  - cbn. now rewrite Z.add_0_r.
  - rewrite IH, <- List.app_assoc. do 3 f_equal. lia.
Qed.

Lemma blocks_of_app x y a :
  List.length x = (16 * a)%nat -> blocks_of (x ++ y) = (a + blocks_of y)%nat.
Proof using.
  intros H. unfold blocks_of. rewrite List.length_app, H.
  replace (16 * a + List.length y + 15)%nat with (List.length y + 15 + a * 16)%nat by lia.
  rewrite Nat.div_add by lia. lia.
Qed.

Lemma ctr_encrypt_app v x y a :
  List.length x = (16 * a)%nat ->
  sm4_ctr_encrypt ek (be_bytes 16 v) (x ++ y) =
  let '(c1, o1) := sm4_ctr_encrypt ek (be_bytes 16 v) x in
  let '(c2, o2) := sm4_ctr_encrypt ek c1 y in (c2, o1 ++ o2).
Proof using E_block.
  intros H. rewrite !ctr_encrypt_spec, (blocks_of_app x y a H).
  assert (Hx : blocks_of x = a).
  { rewrite <- (List.app_nil_r x), (blocks_of_app x [] a H). change (blocks_of []) with 0%nat. lia. }
  rewrite Hx, keystream_app, memxor_app by (now rewrite length_keystream). f_equal. f_equal. lia.
Qed.

(** The update function, on chaining values that are counters. *)
Definition ctr_steps (n : nat) (ctr l : list Z) : list Z * list Z :=
  sm4_ctr_encrypt ek ctr (take (16 * n) l).

Definition is_ctr (c : list Z) : Prop := exists v, c = be_bytes 16 v.

Lemma ctr_steps_app a b c x y :
  is_ctr c -> bytes x -> bytes y -> List.length x = (16 * a)%nat ->
  ctr_steps (a + b) c (x ++ y) =
  let '(c1, o1) := ctr_steps a c x in let '(c2, o2) := ctr_steps b c1 y in (c2, o1 ++ o2).
Proof using E_block.
  intros [v ->] _ _ H. unfold ctr_steps. rewrite take_app_ge by lia.
  rewrite (take_ge x) by lia. rewrite H. replace (16 * (a + b) - 16 * a)%nat with (16 * b)%nat by lia.
  now apply (ctr_encrypt_app v x _ a).
Qed.

Lemma ctr_steps_ctr n c l :
  is_ctr c -> bytes l -> List.length l = (16 * n)%nat -> is_ctr (fst (ctr_steps n c l)).
Proof using E_block. intros [v ->] _ _. unfold ctr_steps. rewrite ctr_encrypt_spec. cbn [fst]. eexists. reflexivity. Qed.

End Ctr.

(** Encrypting piece by piece and at once. *)
Lemma cbc_stream_encrypt rk k iv ds :
  List.length rk = 32%nat -> block k -> block iv -> Forall bytes ds ->
  exists x out f,
    updates sm4_cbc_encrypt_update (sm4_cbc_encrypt_init rk k iv) ds = (1, x, out) /\
    sm4_cbc_encrypt_finish x = (1, f) /\
    out ++ f = sm4_cbc_padding_encrypt (sm4_set_encrypt_key rk k) iv (List.concat ds).
Proof.
  intros Hrk Hk Hiv Hds. pose proof (sm4_cipher rk rk k Hrk Hrk Hk) as BC.
  assert (F0 : fed (sm4_set_encrypt_key rk k) (cbc_steps (sm4_set_encrypt_key rk k)) iv [] []
    (sm4_cbc_encrypt_init rk k iv)).
  { split; [reflexivity | reflexivity | cbn; lia |]. exists 0%nat, []. split; [reflexivity |].
    split; [reflexivity | now apply cbc_steps_O]. }
  generalize dependent (sm4_set_encrypt_key rk k). intros ek BC F0.
  generalize dependent (sm4_set_decrypt_key rk k). intros dk BC.
  destruct (updates_fed cbc_process ek (cbc_steps ek) block)
    with (iv0 := iv) (m := @nil Z) (out := @nil Z) (x := sm4_cbc_encrypt_init rk k iv) (ds := ds)
    as (x & out & E & [Hx Hb Hn (q & m0 & Em & Hl & Hs)]); try done.
  { intros. now apply cbc_steps_O. }
  { intros. now apply (cbc_process_steps ek dk). }
  { intros. now apply (cbc_steps_block ek dk). }
  { intros. now apply (cbc_steps_app ek dk). }
  cbn [List.app] in *. set (y := take (x_nbytes x) (x_block x)) in *.
  assert (Ly : List.length y = x_nbytes x) by (unfold y; rewrite length_take; lia).
  assert (Hm : bytes m0 /\ bytes y).
  { apply Forall_app. rewrite <- Em. now apply Forall_concat. }
  exists x, out, (sm4_cbc_padding_encrypt ek (x_iv x) y). split; [exact E |]. split.
  { unfold sm4_cbc_encrypt_finish. fold y. rewrite Hx. destruct (Nat.leb_spec 16 (x_nbytes x)); [lia | done]. }
  unfold cbc_steps in Hs. injection Hs as Hxiv Hout.
  assert (Hxb : block (x_iv x)).
  { rewrite <- Hxiv. apply (cbc_steps_block ek dk q iv m0); tauto. }
  rewrite !(padding_encrypt_spec ek dk) by (done || tauto || (rewrite Em; apply Forall_app_2; tauto)).
  assert (Ep : padding (List.concat ds) = padding y).
  { unfold padding. rewrite Em, List.length_app, Hl, Ly. rewrite (Nat.mul_comm 16), Nat.add_comm, Nat.Div0.mod_add. done. }
  rewrite Ep, Em, List.length_app, Hl, Ly, Nat.div_small by lia.
  replace ((16 * q + x_nbytes x) / 16)%nat with q
    by (rewrite (Nat.mul_comm 16), Nat.add_comm, Nat.div_add, Nat.div_small; lia).
  rewrite <- List.app_assoc, (cbc_encrypt_app ek dk q 1 iv m0); try tauto.
  - now rewrite Hxiv, Hout.
  - apply Forall_app_2; [tauto | apply padding_bytes].
Qed.

Lemma held_init iv dk : block iv -> held dk iv [] [] (mk_ctx dk iv (List.repeat 0 16) 0).
Proof.
  intros Hiv. split; [reflexivity | reflexivity | cbn; lia |]. exists 0%nat, [].
  cbn [x_iv List.app]. rewrite List.app_nil_r, last16_block by apply Hiv. done.
Qed.

Lemma ctr_stream_encrypt rk k v ds :
  List.length rk = 32%nat -> block k -> Forall bytes ds ->
  exists x out f,
    updates sm4_ctr_encrypt_update (sm4_ctr_encrypt_init rk k (be_bytes 16 v)) ds = (1, x, out) /\
    sm4_ctr_encrypt_finish x = (1, f) /\
    out ++ f = snd (sm4_ctr_encrypt (sm4_set_encrypt_key rk k) (be_bytes 16 v) (List.concat ds)).
Proof.
  intros Hrk Hk Hds.
  assert (EB : forall b, block b -> block (sm4_encrypt (sm4_set_encrypt_key rk k) b)).
  { apply (sm4_cipher rk rk k Hrk Hrk Hk). }
  assert (F0 : fed (sm4_set_encrypt_key rk k) (ctr_steps (sm4_set_encrypt_key rk k)) (be_bytes 16 v) [] []
    (sm4_ctr_encrypt_init rk k (be_bytes 16 v))).
  { split; [reflexivity | reflexivity | cbn; lia |]. exists 0%nat, []. split; [reflexivity |].
    split; reflexivity. }
  generalize dependent (sm4_set_encrypt_key rk k). intros ek EB F0.
  destruct (updates_fed ctr_process ek (ctr_steps ek) is_ctr)
    with (iv0 := be_bytes 16 v) (m := @nil Z) (out := @nil Z) (x := sm4_ctr_encrypt_init rk k (be_bytes 16 v)) (ds := ds)
    as (x & out & E & [Hx Hb Hn (q & m0 & Em & Hl & Hs)]); try done.
  { intros n iv l _ _ _ _. unfold ctr_process, ctr_steps. rewrite take_take, Nat.min_id.
    now rewrite (Nat.mul_comm n 16). }
  { intros. now apply ctr_steps_ctr. }
  { intros. now apply ctr_steps_app. }
  { now exists v. }
  cbn [List.app] in *. set (y := take (x_nbytes x) (x_block x)) in *.
  exists x, out, (snd (sm4_ctr_encrypt ek (x_iv x) y)). split; [exact E |]. split.
  { unfold sm4_ctr_encrypt_finish. fold y. rewrite Hx. destruct (Nat.leb_spec 16 (x_nbytes x)); [lia | done]. }
  unfold ctr_steps in Hs. rewrite take_ge in Hs by lia.
  rewrite Em, (ctr_encrypt_app ek EB v m0 y q Hl), Hs. now destruct (sm4_ctr_encrypt ek (x_iv x) y).
Qed.

(** ** Properties *)

(** CBC with padding: decrypting what was encrypted gives the message back,
    for every message, key and initialisation vector; the ciphertext is the
    padded message's length, the next multiple of 16 above the message's. *)
Theorem sm4_cbc_padding_round_trip rk rk' k iv m :
  List.length rk = 32%nat -> List.length rk' = 32%nat -> block k -> block iv -> bytes m ->
  let c := sm4_cbc_padding_encrypt (sm4_set_encrypt_key rk k) iv m in
  List.length c = (16 * (List.length m / 16 + 1))%nat /\
  sm4_cbc_padding_decrypt (sm4_set_decrypt_key rk' k) iv c = (1, m).
Proof.
  intros Hrk Hrk' Hk Hiv Hm c. pose proof (sm4_cipher rk rk' k Hrk Hrk' Hk) as BC. split.
  - unfold c. rewrite (padding_encrypt_spec _ _ iv m) by done.
    apply (length_cbc_encrypt _ (sm4_set_decrypt_key rk' k)); [done | | rewrite length_padded; lia].
    apply Forall_app_2; [done | apply padding_bytes].
  - now apply padding_decrypt_encrypt.
Qed.

(** The incremental interfaces compute what the one-shot functions compute,
    however the input is cut: encrypting the pieces [ds] gives the one-shot
    ciphertext of the message; decrypting the pieces [es] gives what
    decrypting the whole ciphertext at once gives, or fails when that
    fails. *)
Theorem sm4_cbc_stream rk k iv ds es :
  List.length rk = 32%nat -> block k -> block iv -> Forall bytes ds -> Forall bytes es ->
  (exists x out f,
     updates sm4_cbc_encrypt_update (sm4_cbc_encrypt_init rk k iv) ds = (1, x, out) /\
     sm4_cbc_encrypt_finish x = (1, f) /\
     out ++ f = sm4_cbc_padding_encrypt (sm4_set_encrypt_key rk k) iv (List.concat ds)) /\
  (exists x out,
     updates sm4_cbc_decrypt_update (sm4_cbc_decrypt_init rk k iv) es = (1, x, out) /\
     match sm4_cbc_padding_decrypt (sm4_set_decrypt_key rk k) iv (List.concat es) with
     | (1, pt) => exists f, sm4_cbc_decrypt_finish x = (1, f) /\ out ++ f = pt
     | _ => sm4_cbc_decrypt_finish x = (-1, [])
     end).
Proof.
  intros Hrk Hk Hiv Hds Hes. split; [now apply cbc_stream_encrypt |].
  pose proof (sm4_cipher rk rk k Hrk Hrk Hk) as BC.
  destruct (decrypt_updates_held (sm4_set_decrypt_key rk k) iv [] [] (sm4_cbc_decrypt_init rk k iv) es)
    as (x & out & E & H); [done | constructor | done | now apply held_init |].
  exists x, out. split; [exact E |].
  apply (decrypt_finish_held _ _ iv (List.concat es) out x Hiv); [now apply Forall_concat | exact H].
Qed.

(** CTR mode adds the encryptions of the 128-bit counters [ctr], [ctr + 1],
    ... (modulo 2^128) to the message, at once or piece by piece; it leaves
    the counter after the last one used, and doing it twice gives the message
    back. *)
Theorem sm4_ctr_stream rk k ctr ds :
  List.length rk = 32%nat -> block k -> block ctr -> Forall bytes ds ->
  let key := sm4_set_encrypt_key rk k in
  let m := List.concat ds in
  let v := horner 256 ctr in
  let n := blocks_of m in
  sm4_ctr_encrypt key ctr m = (be_bytes 16 (v + Z.of_nat n), memxor m (keystream n key v)) /\
  snd (sm4_ctr_encrypt key ctr (snd (sm4_ctr_encrypt key ctr m))) = m /\
  (exists x out f,
     updates sm4_ctr_encrypt_update (sm4_ctr_encrypt_init rk k ctr) ds = (1, x, out) /\
     sm4_ctr_encrypt_finish x = (1, f) /\
     out ++ f = snd (sm4_ctr_encrypt key ctr m)).
Proof.
  intros Hrk Hk Hc Hds key m v n.
  assert (EB : forall b, block b -> block (sm4_encrypt key b)) by apply (sm4_cipher rk rk k Hrk Hrk Hk).
  assert (Ec : ctr = be_bytes 16 v).
  { unfold v. rewrite <- (proj2 Hc). symmetry. apply be_bytes_horner, Hc. }
  rewrite Ec. rewrite !(ctr_encrypt_spec key EB). cbn [snd]. split; [done |]. split.
  - assert (Ll : List.length (memxor m (keystream n key v)) = List.length m).
    { rewrite length_memxor, length_keystream by done. unfold n, blocks_of.
      pose proof (Nat.div_mod_eq (List.length m + 15) 16).
      pose proof (Nat.mod_upper_bound (List.length m + 15) 16 ltac:(lia)). lia. }
    assert (Eb : blocks_of (memxor m (keystream n key v)) = n) by (unfold blocks_of; now rewrite Ll).
    fold n. rewrite Eb. apply memxor_cancel. rewrite length_keystream by done. unfold n, blocks_of.
    pose proof (Nat.div_mod_eq (List.length m + 15) 16).
    pose proof (Nat.mod_upper_bound (List.length m + 15) 16 ltac:(lia)). lia.
  - pose proof (ctr_stream_encrypt rk k v ds Hrk Hk Hds) as G. fold key m in G.
    rewrite (ctr_encrypt_spec key EB) in G. exact G.
Qed.

Definition ex_iv : list Z := List.repeat 7 16.

Lemma ex_iv_block : block ex_iv.
Proof. split; [repeat constructor; unfold byte; lia | reflexivity]. Qed.

Lemma sm4_cbc_padding_round_trip_witness :
  List.length (sm4_cbc_padding_encrypt (sm4_set_encrypt_key (List.repeat 0 32) ex_key) ex_iv (str "attack at dawn!!")) = 32%nat /\
  sm4_cbc_padding_decrypt (sm4_set_decrypt_key (List.repeat 0 32) ex_key) ex_iv
    (sm4_cbc_padding_encrypt (sm4_set_encrypt_key (List.repeat 0 32) ex_key) ex_iv (str "attack at dawn!!")) =
  (1, str "attack at dawn!!").
Proof.
  exact (sm4_cbc_padding_round_trip (List.repeat 0 32) (List.repeat 0 32) ex_key ex_iv (str "attack at dawn!!")
    eq_refl eq_refl ex_key_block ex_iv_block ltac:(repeat constructor; unfold byte; lia)).
Defined.

Lemma sm4_cbc_stream_witness :
  exists x out f,
    updates sm4_cbc_encrypt_update (sm4_cbc_encrypt_init (List.repeat 0 32) ex_key ex_iv)
      [str "at"; str "tack at dawn!!"; []; str "?"] = (1, x, out) /\
    sm4_cbc_encrypt_finish x = (1, f) /\
    out ++ f = sm4_cbc_padding_encrypt (sm4_set_encrypt_key (List.repeat 0 32) ex_key) ex_iv (str "attack at dawn!!?").
Proof.
  exact (proj1 (sm4_cbc_stream (List.repeat 0 32) ex_key ex_iv [str "at"; str "tack at dawn!!"; []; str "?"] []
    eq_refl ex_key_block ex_iv_block ltac:(repeat constructor; unfold byte; lia) ltac:(constructor))).
Defined.

Lemma sm4_ctr_stream_witness :
  snd (sm4_ctr_encrypt (sm4_set_encrypt_key (List.repeat 0 32) ex_key) ex_iv
    (snd (sm4_ctr_encrypt (sm4_set_encrypt_key (List.repeat 0 32) ex_key) ex_iv (str "attack at dawn")))) =
  str "attack at dawn".
Proof.
  exact (proj1 (proj2 (sm4_ctr_stream (List.repeat 0 32) ex_key ex_iv [str "attack"; str " at dawn"]
    eq_refl ex_key_block ex_iv_block ltac:(repeat constructor; unfold byte; lia)))).
Defined.

End Modes.
