(* ===== verification/GmGf128.v ===== *)
(** The field of GCM (src/gf128.c): polynomials over two elements modulo
    x^128 + x^7 + x^2 + x + 1, in two words of 64 bits, and their bytes. *)
From S2P Require Import Prelude GmWord.

Module Gf128.
Import GmWord.Word.

(** ** The code *)

Record gf128_t := mk_gf { gf_hi : Z; gf_lo : Z }.

(** [GETU64(p)] and [PUTU64(p, v)] *)
Definition GETU64 (p : list Z) : Z :=
  Z.lor (Z.shiftl (nthb p 0) 56) (Z.lor (Z.shiftl (nthb p 1) 48) (Z.lor (Z.shiftl (nthb p 2) 40)
    (Z.lor (Z.shiftl (nthb p 3) 32) (Z.lor (Z.shiftl (nthb p 4) 24) (Z.lor (Z.shiftl (nthb p 5) 16)
      (Z.lor (Z.shiftl (nthb p 6) 8) (nthb p 7))))))).

Definition PUTU64 (v : Z) : list Z :=
  map (fun k => Z.shiftr v k mod 256) [56; 48; 40; 32; 24; 16; 8; 0].

Definition gf128_zero : gf128_t := mk_gf 0 0.

(** The loop: [n] rounds, then the last bit. *)
Fixpoint reverse_loop (n : nat) (r a : Z) : Z :=
  match n with
  | O => Z.lor r (Z.land a 1)
  | S n => reverse_loop n (Z.shiftl (Z.lor r (Z.land a 1)) 1 mod 2 ^ 64) (Z.shiftr a 1)
  end.

Definition reverse_bits (a : Z) : Z := reverse_loop 63 0 a.

Definition gf128_from_bytes (p : list Z) : gf128_t :=
  let lo := GETU64 p in
  let hi := GETU64 (drop 8 p) in
  mk_gf (reverse_bits hi) (reverse_bits lo).

Definition gf128_to_bytes (a : gf128_t) : list Z :=
  PUTU64 (reverse_bits (gf_lo a)) ++ PUTU64 (reverse_bits (gf_hi a)).

Definition gf128_add (a b : gf128_t) : gf128_t :=
  mk_gf (Z.lxor (gf_hi a) (gf_hi b)) (Z.lxor (gf_lo a) (gf_lo b)).

Definition top_bit : Z := 2 ^ 63.

(** [r] times x: both branches of the loops. *)
Definition gf128_double (r : gf128_t) : gf128_t :=
  let hi := Z.lor (Z.shiftl (gf_hi r) 1 mod 2 ^ 64) (Z.shiftr (gf_lo r) 63) in
  let lo := Z.shiftl (gf_lo r) 1 mod 2 ^ 64 in
  if negb (Z.land (gf_hi r) top_bit =? 0) then mk_gf hi (Z.lxor lo 0x87) else mk_gf hi lo.

(** One of the loops; [w] is the word of [b] that is shifted out. *)
Fixpoint mul_loop (n : nat) (a r : gf128_t) (w : Z) : gf128_t :=
  match n with
  | O => r
  | S n =>
      let r := gf128_double r in
      let r := if negb (Z.land w top_bit =? 0) then mk_gf (Z.lxor (gf_hi r) (gf_hi a)) (Z.lxor (gf_lo r) (gf_lo a)) else r in
      mul_loop n a r (Z.shiftl w 1 mod 2 ^ 64)
  end.

Definition gf128_mul (a b : gf128_t) : gf128_t :=
  let r := mul_loop 64 a (mk_gf 0 0) (gf_hi b) in
  mul_loop 64 a r (gf_lo b).

Definition gf128_mul2 (a : gf128_t) : gf128_t := gf128_double a.

(** ** Polynomials *)

(** A number is the polynomial with its bits as coefficients: the sum is
    [Z.lxor], the product [clmul]. *)
Fixpoint clmul_pos (a : Z) (b : positive) : Z :=
  match b with
  | xH => a
  | xO b => 2 * clmul_pos a b
  | xI b => Z.lxor a (2 * clmul_pos a b)
  end.

Definition clmul (a b : Z) : Z := match b with Zpos b => clmul_pos a b | _ => 0 end.

(** x^128 + x^7 + x^2 + x + 1 *)
Definition gf_poly : Z := 2 ^ 128 + 0x87.

(** The polynomials differ by a multiple of [gf_poly]. *)
Definition congr (x y : Z) : Prop := exists q, 0 <= q /\ Z.lxor x y = clmul q gf_poly.

(** The polynomial an element stands for. *)
Definition gf_val (a : gf128_t) : Z := gf_hi a * 2 ^ 64 + gf_lo a.

Definition gf_ok (a : gf128_t) : Prop := 0 <= gf_hi a < 2 ^ 64 /\ 0 <= gf_lo a < 2 ^ 64.

(** The test vector of the GCM specification, test case 2. *)
Example gf_mul_vector :
  gf128_to_bytes (gf128_mul
    (gf128_from_bytes [0x66; 0xe9; 0x4b; 0xd4; 0xef; 0x8a; 0x2c; 0x3b; 0x88; 0x4c; 0xfa; 0x59; 0xca; 0x34; 0x2b; 0x2e])
    (gf128_from_bytes [0x03; 0x88; 0xda; 0xce; 0x60; 0xb6; 0xa3; 0x92; 0xf3; 0x28; 0xc2; 0xb9; 0x71; 0xb2; 0xfe; 0x78])) =
  [0x5e; 0x2e; 0xc7; 0x46; 0x91; 0x70; 0x62; 0x88; 0x2c; 0x85; 0xb0; 0x68; 0x53; 0x53; 0xde; 0xb7].
Proof. vm_compute. reflexivity. Qed.

(** ** The ring of polynomials *)

Lemma lxor_nonneg a b : 0 <= a -> 0 <= b -> 0 <= Z.lxor a b.
Proof. intros. apply Z.lxor_nonneg. tauto. Qed.

Lemma lxor_double a b : Z.lxor (2 * a) (2 * b) = 2 * Z.lxor a b.
Proof. now rewrite <- !(Z.mul_comm _ 2), <- !(Z.shiftl_mul_pow2 _ 1), Z.shiftl_lxor by lia. Qed.

Lemma clmul_pos_nonneg a b : 0 <= a -> 0 <= clmul_pos a b.
Proof. intros Ha. induction b; cbn; [apply lxor_nonneg | |]; lia. Qed.

Lemma clmul_nonneg a b : 0 <= a -> 0 <= clmul a b.
Proof. intros. destruct b; cbn; [lia | now apply clmul_pos_nonneg | lia]. Qed.

Lemma clmul_0_l b : clmul 0 b = 0.
Proof. destruct b as [| b | b]; [done | | done]. cbn. induction b; cbn; rewrite ?IHb; done. Qed.

Lemma clmul_0_r a : clmul a 0 = 0.
Proof. done. Qed.

Lemma clmul_1_r a : clmul a 1 = a.
Proof. done. Qed.

Lemma clmul_double_r a b : 0 <= b -> clmul a (2 * b) = 2 * clmul a b.
Proof. intros. destruct b; [done | done | lia]. Qed.

Lemma clmul_odd_r a b : 0 <= b -> clmul a (2 * b + 1) = Z.lxor a (2 * clmul a b).
Proof. intros. destruct b; [cbn; now rewrite Z.lxor_0_r | done | lia]. Qed.

Lemma lxor_swap a b c d : Z.lxor (Z.lxor a b) (Z.lxor c d) = Z.lxor (Z.lxor a c) (Z.lxor b d).
Proof. rewrite !Z.lxor_assoc. f_equal. now rewrite <- !Z.lxor_assoc, (Z.lxor_comm b). Qed.

(** A number is even or odd. *)
Lemma nonneg_ind (P : Z -> Prop) :
  P 0 -> (forall b, 0 <= b -> P b -> P (2 * b)) -> (forall b, 0 <= b -> P b -> P (2 * b + 1)) -> forall b, 0 <= b -> P b.
Proof.
  intros H0 He Ho b Hb. destruct b as [| b |]; [done | | lia]. clear Hb.
  induction b as [b IH | b IH |]; [exact (Ho (Zpos b) ltac:(lia) IH) | exact (He (Zpos b) ltac:(lia) IH) | exact (Ho 0 ltac:(lia) H0)].
Qed.

Lemma odd_lxor a : 2 * a + 1 = Z.lxor (2 * a) 1.
Proof.
  apply Z.add_nocarry_lxor. apply Z.bits_inj'. intros i Hi. rewrite Z.land_spec, Z.bits_0.
  destruct (Z.eq_dec i 0) as [-> |]; [now rewrite Z.testbit_even_0 |].
  rewrite (Z.bits_above_log2 1) by (cbn; lia). apply andb_false_r.
Qed.

Lemma clmul_lxor_r a b c : 0 <= b -> 0 <= c -> clmul a (Z.lxor b c) = Z.lxor (clmul a b) (clmul a c).
Proof.
  intros Hb. revert c. revert b Hb. refine (nonneg_ind _ _ _ _).
  - intros c Hc. now rewrite !Z.lxor_0_l.
  - intros b Hb IH c Hc. revert c Hc. refine (nonneg_ind _ _ _ _).
    + now rewrite !Z.lxor_0_r.
    + intros c Hc _. rewrite lxor_double, !clmul_double_r, IH by (try apply lxor_nonneg; lia). now rewrite lxor_double.
    + intros c Hc _. rewrite (odd_lxor c), <- Z.lxor_assoc, lxor_double, <- !odd_lxor.
      rewrite clmul_double_r, !clmul_odd_r, IH by (try apply lxor_nonneg; lia). rewrite <- lxor_double.
      rewrite <- !Z.lxor_assoc. f_equal. apply Z.lxor_comm.
  - intros b Hb IH c Hc. revert c Hc. refine (nonneg_ind _ _ _ _).
    + now rewrite !Z.lxor_0_r.
    + intros c Hc _. rewrite (odd_lxor b), Z.lxor_assoc, (Z.lxor_comm 1), <- Z.lxor_assoc, lxor_double, <- !odd_lxor.
      rewrite clmul_double_r, !clmul_odd_r, IH by (try apply lxor_nonneg; lia). rewrite <- lxor_double.
      now rewrite !Z.lxor_assoc.
    + intros c Hc _. rewrite (odd_lxor b), (odd_lxor c), lxor_swap, lxor_double, Z.lxor_nilpotent, Z.lxor_0_r, <- !odd_lxor.
      rewrite clmul_double_r, !clmul_odd_r, IH by (try apply lxor_nonneg; lia).
      now rewrite lxor_swap, Z.lxor_nilpotent, Z.lxor_0_l, lxor_double.
Qed.

Lemma clmul_lxor_l a b c : 0 <= c -> clmul (Z.lxor a b) c = Z.lxor (clmul a c) (clmul b c).
Proof.
  revert c. refine (nonneg_ind _ _ _ _).
  - done.
  - intros c Hc IH. now rewrite !clmul_double_r, IH, lxor_double by lia.
  - intros c Hc IH. rewrite !clmul_odd_r, IH, <- lxor_double by lia. apply lxor_swap.
Qed.

Lemma clmul_double_l a b : 0 <= b -> clmul (2 * a) b = 2 * clmul a b.
Proof.
  revert b. refine (nonneg_ind _ _ _ _).
  - cbn. lia.
  - intros b Hb IH. now rewrite !clmul_double_r, IH by lia.
  - intros b Hb IH. now rewrite !clmul_odd_r, IH, lxor_double by lia.
Qed.

Lemma clmul_1_l b : 0 <= b -> clmul 1 b = b.
Proof.
  revert b. refine (nonneg_ind _ _ _ _).
  - done.
  - intros b Hb IH. now rewrite clmul_double_r, IH by lia.
  - intros b Hb IH. rewrite clmul_odd_r, IH by lia. now rewrite odd_lxor, Z.lxor_comm.
Qed.

Lemma clmul_comm a b : 0 <= a -> 0 <= b -> clmul a b = clmul b a.
Proof.
  intros Ha. revert b. refine (nonneg_ind _ _ _ _).
  - now rewrite clmul_0_l.
  - intros b Hb IH. now rewrite clmul_double_r, clmul_double_l, IH by lia.
  - intros b Hb IH. rewrite clmul_odd_r, odd_lxor, clmul_lxor_l, clmul_double_l, clmul_1_l, IH by lia.
    apply Z.lxor_comm.
Qed.

Lemma clmul_assoc a b c : 0 <= b -> 0 <= c -> clmul a (clmul b c) = clmul (clmul a b) c.
Proof.
  intros Hb. revert c. refine (nonneg_ind _ _ _ _).
  - done.
  - intros c Hc IH. rewrite !clmul_double_r, IH by (try apply clmul_nonneg; lia). done.
  - intros c Hc IH. pose proof (clmul_nonneg b c Hb).
    rewrite !clmul_odd_r, clmul_lxor_r, clmul_double_r, IH by lia. done.
Qed.

(** ** Remainders *)

#[export] Instance congr_refl : Reflexive congr.
Proof. intros x. exists 0. split; [lia |]. now rewrite Z.lxor_nilpotent, clmul_0_l. Qed.

#[export] Instance congr_sym : Symmetric congr.
Proof. intros x y (q & Hq & E). exists q. split; [done |]. now rewrite Z.lxor_comm. Qed.

#[export] Instance congr_trans : Transitive congr.
Proof.
  intros x y z (q & Hq & E) (r & Hr & F). exists (Z.lxor q r). split; [now apply lxor_nonneg |].
  rewrite clmul_lxor_l, <- E, <- F by discriminate.
  now rewrite (Z.lxor_assoc x y), <- (Z.lxor_assoc y y z), Z.lxor_nilpotent, Z.lxor_0_l.
Qed.

Lemma congr_lxor x x' y y' : congr x x' -> congr y y' -> congr (Z.lxor x y) (Z.lxor x' y').
Proof.
  intros (q & Hq & E) (r & Hr & F). exists (Z.lxor q r). split; [now apply lxor_nonneg |].
  rewrite clmul_lxor_l, <- E, <- F by discriminate. apply lxor_swap.
Qed.

Lemma congr_clmul x x' y : 0 <= y -> congr x x' -> congr (clmul x y) (clmul x' y).
Proof.
  intros Hy (q & Hq & E). exists (clmul q y). split; [now apply clmul_nonneg |].
  assert (0 <= gf_poly) as Hp by discriminate.
  rewrite <- clmul_lxor_l, E, <- !clmul_assoc by done. f_equal. now apply clmul_comm.
Qed.

Lemma congr_double x x' : congr x x' -> congr (2 * x) (2 * x').
Proof.
  intros (q & Hq & E). exists (2 * q). split; [lia |]. rewrite lxor_double, E, clmul_double_l by discriminate. done.
Qed.

(** The multiples of [gf_poly] other than 0 have degree 128 at least. *)
Lemma multiple_top q : 0 <= q -> 0 < q -> Z.testbit (clmul gf_poly q) (128 + Z.log2 q) = true.
Proof.
  revert q. refine (nonneg_ind _ _ _ _).
  - lia.
  - intros q Hq IH H. rewrite clmul_double_r, Z.log2_double by lia.
    replace (128 + Z.succ (Z.log2 q)) with (Z.succ (128 + Z.log2 q)) by lia.
    pose proof (Z.log2_nonneg q). rewrite Z.testbit_even_succ by lia. apply IH. lia.
  - intros q Hq IH _. rewrite clmul_odd_r by lia. destruct (Z.eq_dec q 0) as [-> |]; [reflexivity |].
    rewrite Z.log2_succ_double by lia. pose proof (Z.log2_nonneg q).
    replace (128 + Z.succ (Z.log2 q)) with (Z.succ (128 + Z.log2 q)) by lia.
    rewrite Z.lxor_spec, Z.testbit_even_succ, IH by lia.
    rewrite Z.bits_above_log2; [done | discriminate |]. change (Z.log2 gf_poly) with 128. lia.
Qed.

Lemma testbit_lower x n : 0 <= x -> Z.testbit x n = true -> 2 ^ n <= x.
Proof.
  intros Hx H. destruct (Z.ltb_spec n 0); [now rewrite Z.testbit_neg_r in H |].
  destruct (Z.leb_spec (2 ^ n) x); [done |]. rewrite <- (Z.mod_small x (2 ^ n)) in H by lia.
  now rewrite Z.mod_pow2_bits_high in H by lia.
Qed.

Lemma high_bits k x i : 0 <= x < 2 ^ k -> 0 <= k <= i -> Z.testbit x i = false.
Proof. intros Hx Hi. rewrite <- (Z.mod_small x (2 ^ k)) by done. apply Z.mod_pow2_bits_high. lia. Qed.

Lemma range_of_bits k x : 0 <= k -> 0 <= x -> (forall i, k <= i -> Z.testbit x i = false) -> 0 <= x < 2 ^ k.
Proof.
  intros Hk Hx H. assert (x = x mod 2 ^ k) as ->; [| apply Z.mod_pos_bound; lia].
  apply Z.bits_inj'. intros i Hi. destruct (Z.ltb_spec i k); [now rewrite Z.mod_pow2_bits_low by lia |].
  rewrite Z.mod_pow2_bits_high by lia. now apply H.
Qed.

Lemma lxor_range k x y : 0 <= k -> 0 <= x < 2 ^ k -> 0 <= y < 2 ^ k -> 0 <= Z.lxor x y < 2 ^ k.
Proof.
  intros Hk Hx Hy. apply range_of_bits; [done | apply lxor_nonneg; lia |]. intros i Hi.
  now rewrite Z.lxor_spec, (high_bits k x), (high_bits k y).
Qed.

(** Polynomials below 2^128 represent the classes. *)
Lemma congr_small x y : 0 <= x < 2 ^ 128 -> 0 <= y < 2 ^ 128 -> congr x y -> x = y.
Proof.
  intros Hx Hy (q & Hq & E). apply Z.lxor_eq. rewrite E. destruct (Z.eq_dec q 0) as [-> |]; [apply clmul_0_l |].
  exfalso. pose proof (proj2 (lxor_range 128 x y ltac:(lia) Hx Hy)) as Hb.
  assert (0 <= gf_poly) as Hp by discriminate.
  rewrite E, clmul_comm in Hb by done. pose proof (multiple_top q Hq ltac:(lia)) as Ht.
  apply testbit_lower in Ht; [| now apply clmul_nonneg]. pose proof (Z.log2_nonneg q).
  pose proof (Z.pow_le_mono_r 2 128 (128 + Z.log2 q) ltac:(lia) ltac:(lia)). lia.
Qed.

(** ** The operations *)

Lemma gf_val_range a : gf_ok a -> 0 <= gf_val a < 2 ^ 128.
Proof. unfold gf_ok, gf_val. intros. change (2 ^ 128) with (2 ^ 64 * 2 ^ 64). lia. Qed.

Lemma gf_val_inj a b : gf_ok a -> gf_ok b -> gf_val a = gf_val b -> a = b.
Proof.
  destruct a as [h l], b as [h' l']. unfold gf_ok, gf_val. cbn [gf_hi gf_lo]. intros Ha Hb E.
  assert (h = h') by lia. subst h'. f_equal. lia.
Qed.

Lemma gf_val_lor a : gf_ok a -> gf_val a = Z.lor (Z.shiftl (gf_hi a) 64) (gf_lo a).
Proof. intros [_ Hl]. unfold gf_val. symmetry. apply lor_shiftl_add; lia. Qed.

Lemma gf_add_ok a b : gf_ok a -> gf_ok b -> gf_ok (gf128_add a b).
Proof. intros [? ?] [? ?]. split; now apply lxor_range. Qed.

Lemma gf_add_val a b : gf_ok a -> gf_ok b -> gf_val (gf128_add a b) = Z.lxor (gf_val a) (gf_val b).
Proof.
  intros Ha Hb. pose proof (gf_add_ok a b Ha Hb) as Hab. rewrite !gf_val_lor by done.
  destruct Ha as [_ Ha], Hb as [_ Hb]. unfold gf128_add. cbn [gf_hi gf_lo]. apply Z.bits_inj'. intros i Hi.
  rewrite (Z.lxor_spec (Z.lor _ _)), !Z.lor_spec. destruct (Z.ltb_spec i 64).
  - now rewrite !Z.shiftl_spec_low, Z.lxor_spec by lia.
  - rewrite !Z.shiftl_spec, !Z.lxor_spec by lia.
    rewrite (high_bits 64 (gf_lo a)), (high_bits 64 (gf_lo b)) by (done || lia). now rewrite !orb_false_r.
Qed.

Lemma top_spec w : 0 <= w < 2 ^ 64 -> negb (Z.land w top_bit =? 0) = (2 ^ 63 <=? w).
Proof.
  intros Hw. change top_bit with (Z.shiftl 1 63). rewrite land_bit_zero, negb_involutive, Z.testbit_eqb by lia.
  destruct (Z.leb_spec (2 ^ 63) w) as [H | H].
  - rewrite <- (Z.div_unique_pos w (2 ^ 63) 1 (w - 2 ^ 63)) by lia. done.
  - now rewrite Z.div_small by lia.
Qed.

Lemma shift_word w : 0 <= w < 2 ^ 64 -> Z.shiftl w 1 mod 2 ^ 64 = if 2 ^ 63 <=? w then 2 * w - 2 ^ 64 else 2 * w.
Proof.
  intros Hw. rewrite Z.shiftl_mul_pow2 by lia. destruct (Z.leb_spec (2 ^ 63) w).
  - symmetry. apply (Z.mod_unique_pos _ _ 1); lia.
  - rewrite Z.mod_small; lia.
Qed.

Lemma double_words r :
  gf_ok r ->
  let hi := Z.lor (Z.shiftl (gf_hi r) 1 mod 2 ^ 64) (Z.shiftr (gf_lo r) 63) in
  let lo := Z.shiftl (gf_lo r) 1 mod 2 ^ 64 in
  0 <= hi < 2 ^ 64 /\ 0 <= lo < 2 ^ 64 /\ hi * 2 ^ 64 + lo = 2 * gf_val r - (if 2 ^ 63 <=? gf_hi r then 2 ^ 128 else 0).
Proof.
  intros [Hh Hl]. cbv zeta. unfold gf_val. rewrite !shift_word by done.
  assert (Z.shiftr (gf_lo r) 63 = if 2 ^ 63 <=? gf_lo r then 1 else 0) as ->.
  { rewrite Z.shiftr_div_pow2 by lia. destruct (Z.leb_spec (2 ^ 63) (gf_lo r)).
    - symmetry. apply (Z.div_unique_pos _ _ _ (gf_lo r - 2 ^ 63)); lia.
    - apply Z.div_small. lia. }
  assert (forall c, 0 <= c < 2 -> Z.lor (if 2 ^ 63 <=? gf_hi r then 2 * gf_hi r - 2 ^ 64 else 2 * gf_hi r) c =
    (if 2 ^ 63 <=? gf_hi r then 2 * gf_hi r - 2 ^ 64 else 2 * gf_hi r) + c) as ->
    by (intros c Hc; destruct (2 ^ 63 <=? gf_hi r);
        [replace (2 * gf_hi r - 2 ^ 64) with (Z.shiftl (gf_hi r - 2 ^ 63) 1) by (rewrite Z.shiftl_mul_pow2; lia) |
         replace (2 * gf_hi r) with (Z.shiftl (gf_hi r) 1) by (rewrite Z.shiftl_mul_pow2; lia)];
        rewrite lor_shiftl_add by lia; rewrite Z.shiftl_mul_pow2 by lia; done).
  all: try (destruct (2 ^ 63 <=? gf_lo r); lia).
  change (2 ^ 128) with (2 ^ 64 * 2 ^ 64).
  destruct (Z.leb_spec (2 ^ 63) (gf_hi r)), (Z.leb_spec (2 ^ 63) (gf_lo r)); lia.
Qed.

Lemma gf_double_spec r : gf_ok r -> gf_ok (gf128_double r) /\ congr (gf_val (gf128_double r)) (2 * gf_val r).
Proof.
  intros Hr. destruct (double_words r Hr) as (Hh & Hl & E). unfold gf128_double. rewrite top_spec by apply Hr.
  set (hi := Z.lor _ _) in *. set (lo := Z.shiftl (gf_lo r) 1 mod 2 ^ 64) in *.
  destruct (2 ^ 63 <=? gf_hi r).
  - assert (gf_ok (mk_gf hi lo)) as Ho by now split. assert (gf_ok (mk_gf 0 0x87)) as Hp by (split; cbn; lia).
    pose proof (gf_add_val _ _ Ho Hp) as Ea. pose proof (gf_add_ok _ _ Ho Hp) as Hok.
    unfold gf128_add in Ea, Hok. cbn [gf_hi gf_lo] in Ea, Hok. rewrite Z.lxor_0_r in Ea, Hok.
    split; [exact Hok |]. rewrite Ea. change (gf_val (mk_gf 0 135)) with 0x87. unfold gf_val at 1. cbn [gf_hi gf_lo]. rewrite E.
    exists 1. split; [lia |]. rewrite clmul_1_l by discriminate.
    pose proof (gf_val_range _ Ho) as Hv. unfold gf_val in Hv at 1 2. cbn [gf_hi gf_lo] in Hv. rewrite E in Hv.
    set (v := 2 * gf_val r - 2 ^ 128) in *.
    assert (2 * gf_val r = Z.lxor v (2 ^ 128)) as ->.
    { rewrite Z.lxor_comm. replace (2 * gf_val r) with (2 ^ 128 + v) by (unfold v; lia).
      apply Z.add_nocarry_lxor. apply Z.bits_inj'. intros i Hi. rewrite Z.land_spec, Z.bits_0, Z.pow2_bits_eqb by lia.
      destruct (Z.eqb_spec 128 i) as [<- |]; [| done]. now rewrite (high_bits 128 v) by (done || lia). }
    now rewrite lxor_swap, Z.lxor_nilpotent, Z.lxor_0_l.
  - split; [now split |]. unfold gf_val at 1. cbn [gf_hi gf_lo]. rewrite E, Z.sub_0_r. reflexivity.
Qed.

Lemma word_bit n w :
  (n < 64)%nat -> 0 <= w -> let u := Z.shiftl w (64 - Z.of_nat (S n)) mod 2 ^ 64 in
  (2 ^ 63 <=? u) = Z.testbit w (Z.of_nat n) /\ Z.shiftl u 1 mod 2 ^ 64 = Z.shiftl w (64 - Z.of_nat n) mod 2 ^ 64.
Proof.
  intros Hn Hw u. assert (0 <= u < 2 ^ 64) as Hu by (apply Z.mod_pos_bound; lia). split.
  - rewrite <- top_spec by done. change top_bit with (Z.shiftl 1 63). rewrite land_bit_zero, negb_involutive by lia.
    unfold u. rewrite Z.mod_pow2_bits_low, Z.shiftl_spec by lia. f_equal. lia.
  - unfold u. rewrite !Z.shiftl_mul_pow2 by lia. rewrite Z.mul_mod_idemp_l by lia.
    f_equal. rewrite <- Z.mul_assoc, <- Z.pow_add_r by lia. do 2 f_equal. lia.
Qed.

(** The loop: [r] for the bits of [b] so far, which the low [n] bits of [w]
    follow. *)
Lemma mul_loop_spec n a r b w :
  gf_ok a -> gf_ok r -> 0 <= b -> (n <= 64)%nat -> 0 <= w -> congr (gf_val r) (clmul (gf_val a) b) ->
  let r' := mul_loop n a r (Z.shiftl w (64 - Z.of_nat n) mod 2 ^ 64) in
  gf_ok r' /\ congr (gf_val r') (clmul (gf_val a) (b * 2 ^ Z.of_nat n + w mod 2 ^ Z.of_nat n)).
Proof.
  intros Ha. revert r b. induction n as [| n IH]; intros r b Hr Hb Hn Hw Hc.
  - cbv zeta. cbn [mul_loop]. rewrite Z.mod_1_r, Z.add_0_r, Z.mul_1_r. done.
  - cbv zeta. cbn [mul_loop]. destruct (word_bit n w ltac:(lia) Hw) as [Eb Es].
    rewrite Es, top_spec, Eb by (apply Z.mod_pos_bound; lia). destruct (gf_double_spec r Hr) as [Hd Ed].
    set (d := gf128_double r) in *. fold (gf128_add d a).
    set (r1 := if Z.testbit w (Z.of_nat n) then gf128_add d a else d).
    assert (gf_ok r1 /\ congr (gf_val r1) (clmul (gf_val a) (2 * b + Z.b2z (Z.testbit w (Z.of_nat n))))) as [H1 E1].
    { pose proof (congr_double _ _ Hc) as Hc2. unfold r1. destruct (Z.testbit w (Z.of_nat n)); cbn [Z.b2z].
      - split; [now apply gf_add_ok |]. rewrite gf_add_val, clmul_odd_r, Z.lxor_comm by done.
        apply congr_lxor; [reflexivity | now transitivity (2 * gf_val r)].
      - split; [done |]. rewrite Z.add_0_r, clmul_double_r by done. now transitivity (2 * gf_val r). }
    destruct (IH r1 (2 * b + Z.b2z (Z.testbit w (Z.of_nat n)))) as [H2 E2]; try done; try lia.
    { destruct (Z.testbit w (Z.of_nat n)); cbn [Z.b2z]; lia. }
    split; [exact H2 |]. cbv zeta in E2. rewrite E2. apply eq_subrelation; [apply congr_refl |]. f_equal.
    rewrite Nat2Z.inj_succ, Z.pow_succ_r by lia. rewrite (Z.mul_comm 2 (2 ^ _)), Z.rem_mul_r by lia.
    rewrite (Z.testbit_spec' w) by lia. lia.
Qed.

(** The product is the one of polynomials, reduced. *)
Lemma gf_mul_spec a b :
  gf_ok a -> gf_ok b ->
  gf_ok (gf128_mul a b) /\ congr (gf_val (gf128_mul a b)) (clmul (gf_val a) (gf_val b)).
Proof.
  intros Ha [Hh Hl].
  assert (forall w, 0 <= w < 2 ^ 64 -> w = Z.shiftl w (64 - Z.of_nat 64) mod 2 ^ 64) as Ew.
  { intros w Hw. rewrite Z.shiftl_0_r, Z.mod_small by done. done. }
  assert (gf_ok (mk_gf 0 0)) as H0 by (split; cbn [gf_hi gf_lo]; lia).
  assert (congr (gf_val (mk_gf 0 0)) (clmul (gf_val a) 0)) as E0 by exact (congr_refl 0).
  pose proof (mul_loop_spec 64 a (mk_gf 0 0) 0 (gf_hi b) Ha H0 ltac:(lia) ltac:(lia) (proj1 Hh) E0) as H1.
  unfold gf128_mul. cbv zeta in *. rewrite <- Ew in H1 by exact Hh. set (r1 := mul_loop 64 a (mk_gf 0 0) (gf_hi b)) in *.
  clearbody r1. destruct H1 as [H1 E1].
  assert (congr (gf_val r1) (clmul (gf_val a) (gf_hi b))) as E1'.
  { rewrite Z.mod_small in E1 by exact Hh. exact E1. }
  pose proof (mul_loop_spec 64 a r1 (gf_hi b) (gf_lo b) Ha H1 (proj1 Hh) ltac:(lia) (proj1 Hl) E1') as H2.
  cbv zeta in H2. rewrite <- Ew in H2 by exact Hl. set (r2 := mul_loop 64 a r1 (gf_lo b)) in *. clearbody r2.
  rewrite Z.mod_small in H2 by exact Hl. exact H2.
Qed.

(** ** Bytes *)

Lemma lor_range k x y : 0 <= k -> 0 <= x < 2 ^ k -> 0 <= y < 2 ^ k -> 0 <= Z.lor x y < 2 ^ k.
Proof.
  intros Hk Hx Hy. apply range_of_bits; [done | apply Z.lor_nonneg; lia |]. intros i Hi.
  now rewrite Z.lor_spec, (high_bits k x), (high_bits k y).
Qed.

Lemma land_1_bit a i : 0 <= i -> Z.testbit (Z.land a 1) i = (i =? 0) && Z.testbit a i.
Proof.
  intros Hi. rewrite Z.land_spec, andb_comm. destruct (Z.eqb_spec i 0) as [-> |]; [done |].
  now rewrite (Z.bits_above_log2 1) by (cbn; lia).
Qed.

Lemma land_1_range a : 0 <= Z.land a 1 < 2 ^ 64.
Proof. change 1 with (Z.ones 1). rewrite land_low by lia. pose proof (Z.mod_pos_bound a (2 ^ 1) ltac:(lia)). lia. Qed.

Lemma reverse_loop_range n r a : 0 <= r < 2 ^ 64 -> 0 <= reverse_loop n r a < 2 ^ 64.
Proof.
  revert r a. induction n as [| n IH]; intros r a Hr; cbn [reverse_loop].
  - apply lor_range; [lia | done | apply land_1_range].
  - apply IH. apply Z.mod_pos_bound. lia.
Qed.

Lemma reverse_loop_bits n r a i :
  (n <= 63)%nat -> Z.testbit r 0 = false -> 0 <= i < 64 ->
  Z.testbit (reverse_loop n r a) i = if i <=? Z.of_nat n then Z.testbit a (Z.of_nat n - i) else Z.testbit r (i - Z.of_nat n).
Proof.
  revert r a. induction n as [| n IH]; intros r a Hn Hr Hi; cbn [reverse_loop].
  - rewrite Z.lor_spec, land_1_bit by lia. change (Z.of_nat 0) with 0. rewrite !Z.sub_0_r.
    destruct (Z.leb_spec i 0).
    + assert (i = 0) as -> by lia. now rewrite Hr.
    + replace (i =? 0) with false by lia. apply orb_false_r.
  - assert (Z.testbit (Z.shiftl (Z.lor r (Z.land a 1)) 1 mod 2 ^ 64) 0 = false) as H0
      by (rewrite Z.mod_pow2_bits_low by lia; apply Z.shiftl_spec_low; lia).
    rewrite IH by (done || lia).
    destruct (Z.leb_spec i (Z.of_nat n)), (Z.leb_spec i (Z.of_nat (S n))); try lia.
    + rewrite Z.shiftr_spec by lia. f_equal. lia.
    + rewrite Z.mod_pow2_bits_low, Z.shiftl_spec, Z.lor_spec, land_1_bit by lia.
      replace (i - Z.of_nat n - 1) with 0 by lia. rewrite Hr, Z.eqb_refl. cbn [orb andb]. f_equal. lia.
    + rewrite Z.mod_pow2_bits_low, Z.shiftl_spec, Z.lor_spec, land_1_bit by lia.
      replace (i - Z.of_nat n - 1 =? 0) with false by lia. cbn [andb]. rewrite orb_false_r. f_equal. lia.
Qed.

Lemma reverse_range a : 0 <= reverse_bits a < 2 ^ 64.
Proof. apply reverse_loop_range. lia. Qed.

Lemma reverse_bit a i : 0 <= i < 64 -> Z.testbit (reverse_bits a) i = Z.testbit a (63 - i).
Proof.
  intros Hi. unfold reverse_bits. rewrite reverse_loop_bits by (done || lia). change (Z.of_nat 63) with 63.
  now replace (i <=? 63) with true by lia.
Qed.

Lemma reverse_reverse a : 0 <= a < 2 ^ 64 -> reverse_bits (reverse_bits a) = a.
Proof.
  intros Ha. apply Z.bits_inj'. intros i Hi. destruct (Z.ltb_spec i 64).
  - rewrite !reverse_bit by lia. f_equal. lia.
  - rewrite (high_bits 64 a), (high_bits 64 (reverse_bits _)) by first [apply reverse_range | done | lia]. done.
Qed.

Lemma GETU64_horner l : Forall byte l -> (8 <= length l)%nat -> GETU64 l = horner 256 (take 8 l).
Proof.
  intros HF Hl. destruct l as [| a [| b [| c [| d [| e [| f [| g [| h l]]]]]]]]; cbn [length] in Hl; try lia.
  repeat match goal with H : Forall byte (_ :: _) |- _ => apply Forall_cons_1 in H as [? H] end. unfold byte in *.
  unfold GETU64, nthb. cbn [nth firstn].
  rewrite (lor_shiftl_add g h 8), (lor_shiftl_add f _ 16), (lor_shiftl_add e _ 24), (lor_shiftl_add d _ 32),
    (lor_shiftl_add c _ 40), (lor_shiftl_add b _ 48), (lor_shiftl_add a _ 56) by lia. unfold horner.
  rewrite ?take_0. cbn [fold_left]. lia.
Qed.

Lemma GETU64_range l : Forall byte l -> (8 <= length l)%nat -> 0 <= GETU64 l < 2 ^ 64.
Proof.
  intros HF Hl. rewrite GETU64_horner by done. pose proof (horner_range 256 (take 8 l) ltac:(lia) (Forall_take _ _ _ HF)) as H.
  rewrite length_take, Nat.min_l in H by lia. exact H.
Qed.

Lemma PUTU64_be_bytes v : PUTU64 v = be_bytes 8 v.
Proof.
  unfold PUTU64, be_bytes. cbn [map le_bytes List.rev List.app]. rewrite !Z.shiftr_div_pow2 by lia.
  rewrite !Z.div_div by lia. rewrite Z.div_1_r. done.
Qed.

Lemma PUTU64_GETU64 l : Forall byte l -> (8 <= length l)%nat -> PUTU64 (GETU64 l) = take 8 l.
Proof.
  intros HF Hl. rewrite GETU64_horner, PUTU64_be_bytes by done.
  pose proof (be_bytes_horner (take 8 l) (Forall_take _ _ _ HF)) as H. now rewrite length_take, Nat.min_l in H by lia.
Qed.

Lemma gf_zero_ok : gf_ok gf128_zero.
Proof. split; cbn; lia. Qed.

Lemma from_bytes_ok p : gf_ok (gf128_from_bytes p).
Proof. split; apply reverse_range. Qed.

Lemma length_to_bytes a : length (gf128_to_bytes a) = 16%nat.
Proof. done. Qed.

Lemma to_bytes_bytes a : Forall byte (gf128_to_bytes a).
Proof. unfold gf128_to_bytes, PUTU64. apply Forall_app. split; repeat constructor; apply Z.mod_pos_bound; lia. Qed.

Lemma to_from_bytes p : Forall byte p -> length p = 16%nat -> gf128_to_bytes (gf128_from_bytes p) = p.
Proof.
  intros HF Hl. unfold gf128_to_bytes, gf128_from_bytes. cbn [gf_hi gf_lo].
  assert (Forall byte (drop 8 p)) as HF8 by now apply Forall_drop. assert (length (drop 8 p) = 8%nat) as H8 by (rewrite length_drop; lia).
  rewrite !reverse_reverse by (apply GETU64_range; (done || lia)). rewrite !PUTU64_GETU64 by (done || lia).
  rewrite (take_ge (drop 8 p)) by lia. apply take_drop.
Qed.

Lemma horner_bit l i :
  Forall byte l -> (i < 8 * length l)%nat ->
  Z.testbit (horner 256 l) (8 * Z.of_nat (length l) - 1 - Z.of_nat i) = Z.testbit (nthb l (i / 8)) (7 - Z.of_nat (i mod 8)).
Proof.
  intros HF. revert i. induction HF as [| b l Hb HF IH]; intros i Hi; [cbn in Hi; lia |].
  rewrite horner_cons. pose proof (horner_range 256 l ltac:(lia) HF) as Hr. cbn [length] in *.
  replace (256 ^ Z.of_nat (length l)) with (2 ^ (8 * Z.of_nat (length l))) in * by (rewrite Z.pow_mul_r by lia; done).
  rewrite <- lor_shiftl_add, Z.lor_spec by lia.
  destruct (Nat.ltb_spec i 8) as [H8 | H8].
  - rewrite Nat.div_small, Nat.mod_small, Z.shiftl_spec by lia. unfold nthb. cbn [nth].
    rewrite (high_bits (8 * Z.of_nat (length l)) (horner 256 l)) by (done || lia). rewrite orb_false_r. f_equal. lia.
  - rewrite Z.shiftl_spec_low by lia. cbn [orb].
    replace i with (i - 8 + 1 * 8)%nat at 2 3 by lia. rewrite Nat.div_add, Nat.Div0.mod_add, Nat.add_1_r by lia.
    pose proof (IH (i - 8)%nat ltac:(lia)) as Q. unfold nthb in *. cbn [nth]. rewrite <- Q. f_equal. lia.
Qed.

(** The coefficient of x^i is bit [i] of the string, the high bit of each byte
    first. *)
Lemma from_bytes_bit p i :
  Forall byte p -> length p = 16%nat -> (i < 128)%nat ->
  Z.testbit (gf_val (gf128_from_bytes p)) (Z.of_nat i) = Z.testbit (nthb p (i / 8)) (7 - Z.of_nat (i mod 8)).
Proof.
  intros HF Hl Hi. rewrite gf_val_lor by apply from_bytes_ok. unfold gf128_from_bytes. cbn [gf_hi gf_lo].
  assert (Forall byte (drop 8 p)) as HF8 by now apply Forall_drop. assert (length (drop 8 p) = 8%nat) as H8 by (rewrite length_drop; lia).
  rewrite Z.lor_spec. destruct (Nat.ltb_spec i 64) as [H64 | H64].
  - rewrite Z.shiftl_spec_low, reverse_bit by lia. cbn [orb]. rewrite GETU64_horner by (done || lia).
    pose proof (horner_bit (take 8 p) i (Forall_take _ _ _ HF)) as H. rewrite length_take, Nat.min_l in H by lia.
    change (8 * Z.of_nat 8 - 1) with 63 in H. rewrite H by lia. f_equal. unfold nthb.
    assert (i / 8 < 8)%nat by (apply Nat.Div0.div_lt_upper_bound; lia).
    rewrite <- (take_drop 8 p) at 2. rewrite app_nth1; [done |]. rewrite length_take. lia.
  - rewrite Z.shiftl_spec by lia. rewrite (high_bits 64 (reverse_bits (GETU64 p))) by first [apply reverse_range | lia]. rewrite orb_false_r.
    rewrite reverse_bit by lia. rewrite GETU64_horner, take_ge by (done || lia).
    pose proof (horner_bit (drop 8 p) (i - 64)%nat HF8) as H. rewrite H8 in H.
    replace (63 - (Z.of_nat i - 64)) with (8 * Z.of_nat 8 - 1 - Z.of_nat (i - 64)) by lia. rewrite H by lia.
    replace i with (i - 64 + 8 * 8)%nat at 3 4 by lia. rewrite Nat.div_add, Nat.Div0.mod_add by lia.
    f_equal. unfold nthb. rewrite <- (take_drop 8 p) at 2. rewrite app_nth2; rewrite length_take, Nat.min_l by lia; [| lia].
    f_equal. lia.
Qed.

(** ** The ring *)

(** What the users of the field rely on: a commutative ring of the elements
    that are [ok]. *)
Class CommRing {R : Type} (ok : R -> Prop) (add mul : R -> R -> R) (zero one : R) : Prop := {
  ring_add_ok a b : ok a -> ok b -> ok (add a b);
  ring_mul_ok a b : ok a -> ok b -> ok (mul a b);
  ring_zero_ok : ok zero;
  ring_one_ok : ok one;
  ring_add_comm a b : add a b = add b a;
  ring_add_assoc a b c : add a (add b c) = add (add a b) c;
  ring_add_zero a : add zero a = a;
  ring_mul_comm a b : ok a -> ok b -> mul a b = mul b a;
  ring_mul_assoc a b c : ok a -> ok b -> ok c -> mul a (mul b c) = mul (mul a b) c;
  ring_mul_one a : ok a -> mul a one = a;
  ring_mul_zero a : ok a -> mul zero a = zero;
  ring_distr a b c : ok a -> ok b -> ok c -> mul (add a b) c = add (mul a c) (mul b c)
}.

Definition gf_one : gf128_t := mk_gf 0 1.
Definition gf_x : gf128_t := mk_gf 0 2.

Lemma gf_mul_ok a b : gf_ok a -> gf_ok b -> gf_ok (gf128_mul a b).
Proof. intros. now apply gf_mul_spec. Qed.

Lemma gf_mul_val a b : gf_ok a -> gf_ok b -> congr (gf_val (gf128_mul a b)) (clmul (gf_val a) (gf_val b)).
Proof. intros. now apply gf_mul_spec. Qed.

Lemma gf_eq a b : gf_ok a -> gf_ok b -> congr (gf_val a) (gf_val b) -> a = b.
Proof. intros Ha Hb H. apply gf_val_inj; [done | done |]. apply congr_small; [now apply gf_val_range.. | done]. Qed.

Lemma gf_mul_comm a b : gf_ok a -> gf_ok b -> gf128_mul a b = gf128_mul b a.
Proof.
  intros Ha Hb. apply gf_eq; [now apply gf_mul_ok | now apply gf_mul_ok |].
  rewrite !gf_mul_val by done. rewrite clmul_comm by (now apply gf_val_range). reflexivity.
Qed.

Lemma congr_mul_l x x' y : 0 <= y -> congr x x' -> congr (clmul x y) (clmul x' y).
Proof. exact (congr_clmul x x' y). Qed.

Lemma congr_mul_r x y y' : 0 <= x -> 0 <= y -> 0 <= y' -> congr y y' -> congr (clmul x y) (clmul x y').
Proof. intros Hx Hy Hy' H. rewrite !(clmul_comm x) by done. now apply congr_clmul. Qed.

Lemma gf_mul_assoc a b c :
  gf_ok a -> gf_ok b -> gf_ok c -> gf128_mul a (gf128_mul b c) = gf128_mul (gf128_mul a b) c.
Proof.
  intros Ha Hb Hc. pose proof (gf_mul_ok a b Ha Hb). pose proof (gf_mul_ok b c Hb Hc).
  pose proof (gf_val_range a Ha). pose proof (gf_val_range b Hb). pose proof (gf_val_range c Hc).
  pose proof (gf_val_range (gf128_mul b c)). pose proof (clmul_nonneg (gf_val b) (gf_val c)).
  apply gf_eq; [now apply gf_mul_ok | now apply gf_mul_ok |]. rewrite (gf_mul_val a) by done.
  transitivity (clmul (gf_val a) (clmul (gf_val b) (gf_val c))).
  - apply congr_mul_r; try tauto; try lia. now apply gf_mul_val.
  - rewrite clmul_assoc by lia. symmetry. rewrite (gf_mul_val (gf128_mul a b) c) by done. apply congr_mul_l; [lia | now apply gf_mul_val].
Qed.

Lemma gf_mul_add a b c :
  gf_ok a -> gf_ok b -> gf_ok c -> gf128_mul (gf128_add a b) c = gf128_add (gf128_mul a c) (gf128_mul b c).
Proof.
  intros Ha Hb Hc. pose proof (gf_add_ok a b Ha Hb). pose proof (gf_mul_ok a c Ha Hc). pose proof (gf_mul_ok b c Hb Hc).
  apply gf_eq; [now apply gf_mul_ok | now apply gf_add_ok |]. rewrite gf_mul_val, !gf_add_val by done.
  pose proof (gf_val_range c Hc). rewrite clmul_lxor_l by lia. symmetry. apply congr_lxor; now apply gf_mul_val.
Qed.

Lemma gf_one_ok : gf_ok gf_one.
Proof. split; cbn; lia. Qed.

Lemma gf_mul_one a : gf_ok a -> gf128_mul a gf_one = a.
Proof.
  intros Ha. apply gf_eq; [apply gf_mul_ok; [done | apply gf_one_ok] | done |].
  rewrite gf_mul_val by (done || apply gf_one_ok). change (gf_val gf_one) with 1. now rewrite clmul_1_r.
Qed.

Lemma gf_add_comm a b : gf128_add a b = gf128_add b a.
Proof. unfold gf128_add. f_equal; apply Z.lxor_comm. Qed.

Lemma gf_add_assoc a b c : gf128_add a (gf128_add b c) = gf128_add (gf128_add a b) c.
Proof. unfold gf128_add. cbn [gf_hi gf_lo]. now rewrite !Z.lxor_assoc. Qed.

Lemma gf_add_zero a : gf128_add gf128_zero a = a.
Proof. unfold gf128_add. cbn [gf_hi gf_lo gf128_zero]. rewrite !Z.lxor_0_l. now destruct a. Qed.

Lemma gf_mul2_x a : gf_ok a -> gf128_mul2 a = gf128_mul a gf_x.
Proof.
  intros Ha. destruct (gf_double_spec a Ha) as [Hd Ed]. assert (gf_ok gf_x) as Hx by (split; cbn; lia).
  apply gf_eq; [exact Hd | now apply gf_mul_ok |]. unfold gf128_mul2. rewrite Ed, gf_mul_val by done.
  change (gf_val gf_x) with (2 * 1). now rewrite clmul_double_r, clmul_1_r by lia.
Qed.

Lemma gf_mul_zero a : gf_ok a -> gf128_mul gf128_zero a = gf128_zero.
Proof.
  intros Ha. pose proof gf_zero_ok. apply gf_eq; [now apply gf_mul_ok | done |]. rewrite gf_mul_val by done.
  change (gf_val gf128_zero) with 0. now rewrite clmul_0_l.
Qed.

#[export] Instance gf_comm_ring : CommRing gf_ok gf128_add gf128_mul gf128_zero gf_one.
Proof.
  split; auto using gf_add_ok, gf_mul_ok, gf_zero_ok, gf_one_ok, gf_add_comm, gf_add_assoc, gf_add_zero, gf_mul_comm,
    gf_mul_assoc, gf_mul_one, gf_mul_zero, gf_mul_add.
Qed.

(** ** Properties *)

(** C19: [gf128_mul] is the product of polynomials over two elements modulo
    x^128 + x^7 + x^2 + x + 1, which has one remainder in two words only; the
    coefficients are the bits of the sixteen bytes in order, and the bytes are
    those of the element.  With it the elements are a commutative ring, in
    which [gf128_mul2] multiplies by x. *)
Theorem gf128_ring :
  (forall p, Forall byte p -> length p = 16%nat ->
     gf128_to_bytes (gf128_from_bytes p) = p /\
     forall i, (i < 128)%nat -> Z.testbit (gf_val (gf128_from_bytes p)) (Z.of_nat i) = Z.testbit (nthb p (i / 8)) (7 - Z.of_nat (i mod 8))) /\
  (forall a b, gf_ok a -> gf_ok b ->
     gf_ok (gf128_mul a b) /\ congr (gf_val (gf128_mul a b)) (clmul (gf_val a) (gf_val b)) /\
     (forall r, gf_ok r -> congr (gf_val r) (clmul (gf_val a) (gf_val b)) -> r = gf128_mul a b) /\
     gf128_mul a b = gf128_mul b a /\ gf128_mul a gf_one = a /\ gf128_mul2 a = gf128_mul a gf_x) /\
  (forall a b c, gf_ok a -> gf_ok b -> gf_ok c ->
     gf128_mul a (gf128_mul b c) = gf128_mul (gf128_mul a b) c /\
     gf128_mul (gf128_add a b) c = gf128_add (gf128_mul a c) (gf128_mul b c)).
Proof.
  split; [| split].
  - intros p HF Hl. split; [now apply to_from_bytes | intros i Hi; now apply from_bytes_bit].
  - intros a b Ha Hb. destruct (gf_mul_spec a b Ha Hb) as [Ho Hc].
    split_and!; try done; auto using gf_mul_comm, gf_mul_one, gf_mul2_x.
    intros r Hr Er. apply gf_eq; [done | done |]. now rewrite Er, Hc.
  - auto using gf_mul_assoc, gf_mul_add.
Qed.

Lemma gf128_ring_witness : gf128_mul (mk_gf 1 2) (gf128_mul (mk_gf 3 4) (mk_gf 5 6)) = gf128_mul (gf128_mul (mk_gf 1 2) (mk_gf 3 4)) (mk_gf 5 6).
Proof.
  refine (proj1 (proj2 (proj2 gf128_ring) (mk_gf 1 2) (mk_gf 3 4) (mk_gf 5 6) _ _ _)); split; cbn; lia.
Defined.

End Gf128.
