(* ===== verification/GmGhash.v ===== *)
(** GHASH, the authentication of GCM (src/gcm.c): at once and with a
    context. *)
From S2P Require Import Prelude GmWord GmGf128.

Module Ghash.
Import GmWord.Word GmGf128.Gf128.

(** ** The code *)

(** [X = gf128_add(X, B); X = gf128_mul(X, H);] for a block of bytes. *)
Definition absorb (H X : gf128_t) (block : list Z) : gf128_t :=
  gf128_mul (gf128_add X (gf128_from_bytes block)) H.

(** The loops, over what is done with a block. *)
Section Loops.
Context {A : Type} (step : A -> list Z -> A).

(** [while (aadlen)] and [while (clen)]: every round takes a byte at least. *)
Fixpoint absorb_loop (fuel : nat) (X : A) (data : list Z) : A :=
  match fuel with
  | O => X
  | S fuel =>
      match data with
      | [] => X
      | _ =>
          if (16 <=? length data)%nat then absorb_loop fuel (step X (take 16 data)) (drop 16 data)
          else step X (memcpy_at (repeat 0 16) 0 data)
      end
  end.

(** [while (clen >= 16)]: the state and the rest. *)
Fixpoint absorb_blocks (fuel : nat) (X : A) (c : list Z) : A * list Z :=
  match fuel with
  | O => (X, c)
  | S fuel =>
      if (16 <=? length c)%nat then absorb_blocks fuel (step X (take 16 c)) (drop 16 c) else (X, c)
  end.

End Loops.

(** The bytes of both lengths in bits. *)
Definition length_block (aadlen clen : Z) : list Z :=
  PUTU64 (Z.shiftl aadlen 3 mod 2 ^ 64) ++ PUTU64 (Z.shiftl clen 3 mod 2 ^ 64).

Definition ghash (h aad c : list Z) : list Z :=
  let H := gf128_from_bytes h in
  let L := gf128_from_bytes (length_block (Z.of_nat (length aad)) (Z.of_nat (length c))) in
  let X := absorb_loop (absorb H) (length aad) gf128_zero aad in
  let X := absorb_loop (absorb H) (length c) X c in
  gf128_to_bytes (gf128_mul (gf128_add X L) H).

Record GHASH_CTX := mk_ghash {
  g_H : gf128_t; g_X : gf128_t; g_aadlen : Z; g_clen : Z; g_block : list Z; g_num : nat }.

(** The block is left with the last bytes of the data, when they are not a
    whole one. *)
Definition ghash_init (h aad : list Z) : GHASH_CTX :=
  let H := gf128_from_bytes h in
  let rem := (length aad mod 16)%nat in
  let block := if (rem =? 0)%nat then repeat 0 16 else memcpy_at (repeat 0 16) 0 (drop (length aad - rem) aad) in
  mk_ghash H (absorb_loop (absorb H) (length aad) gf128_zero aad) (Z.of_nat (length aad)) 0 block 0.

(** From the loop on. *)
Definition update_rest (x : GHASH_CTX) (c : list Z) : GHASH_CTX :=
  let '(X, c) := absorb_blocks (absorb (g_H x)) (length c) (g_X x) c in
  mk_ghash (g_H x) X (g_aadlen x) (g_clen x)
    (if (length c =? 0)%nat then g_block x else memcpy_at (g_block x) 0 c) (length c).

(** [None] is the failed assertion. *)
Definition ghash_update (x : GHASH_CTX) (c : list Z) : option GHASH_CTX :=
  if negb (g_num x <? 16)%nat then None
  else
    let clen := (g_clen x + Z.of_nat (length c)) mod 2 ^ 64 in
    if negb (g_num x =? 0)%nat then
      let left := (16 - g_num x)%nat in
      if (length c <? left)%nat then
        Some (mk_ghash (g_H x) (g_X x) (g_aadlen x) clen (memcpy_at (g_block x) (g_num x) c) (g_num x + length c))
      else
        let block := memcpy_at (g_block x) (g_num x) (take left c) in
        Some (update_rest (mk_ghash (g_H x) (absorb (g_H x) (g_X x) block) (g_aadlen x) clen block (g_num x)) (drop left c))
    else Some (update_rest (mk_ghash (g_H x) (g_X x) (g_aadlen x) clen (g_block x) (g_num x)) c).

(** The sixteen bytes written. *)
Definition ghash_finish (x : GHASH_CTX) : list Z :=
  let X :=
    if negb (g_num x =? 0)%nat then
      absorb (g_H x) (g_X x) (memcpy_at (g_block x) (g_num x) (repeat 0 (16 - g_num x)))
    else g_X x in
  let L := gf128_from_bytes (length_block (g_aadlen x) (g_clen x)) in
  gf128_to_bytes (gf128_mul (gf128_add X L) (g_H x)).

(** ** Specification *)

(** Zeros up to a whole block. *)
Definition pad16 (l : list Z) : list Z := l ++ repeat 0 ((16 - length l mod 16) mod 16).

(** The first [n] blocks. *)
Fixpoint chunks (n : nat) (l : list Z) : list (list Z) :=
  match n with
  | O => []
  | S n => take 16 l :: chunks n (drop 16 l)
  end.

Definition blocks16 (l : list Z) : list (list Z) := chunks (length l / 16) l.

Section Polynomials.
Context {R : Type} (add mul : R -> R -> R) (zero one : R) (coef : list Z -> R).

Fixpoint ring_pow (x : R) (n : nat) : R :=
  match n with
  | O => one
  | S n => mul (ring_pow x n) x
  end.

(** The value at [x] of the polynomial without constant term that has the
    blocks as coefficients, the last one of degree 1. *)
Fixpoint poly_value (x : R) (bs : list (list Z)) : R :=
  match bs with
  | [] => zero
  | b :: bs => add (mul (coef b) (ring_pow x (S (length bs)))) (poly_value x bs)
  end.

(** A step of Horner's rule. *)
Definition horner_step (x acc : R) (b : list Z) : R := mul (add acc (coef b)) x.

End Polynomials.

Definition gf_poly_value : gf128_t -> list (list Z) -> gf128_t :=
  poly_value gf128_add gf128_mul gf128_zero gf_one gf128_from_bytes.

Definition ghash_data (aad c : list Z) : list Z :=
  pad16 aad ++ pad16 c ++ length_block (Z.of_nat (length aad)) (Z.of_nat (length c)).

(** Feeding the pieces one after the other. *)
Fixpoint ghash_updates (x : GHASH_CTX) (ds : list (list Z)) : option GHASH_CTX :=
  match ds with
  | [] => Some x
  | d :: ds => match ghash_update x d with Some x => ghash_updates x ds | None => None end
  end.

(** Test case 2 of the GCM specification. *)
Example ghash_vector :
  ghash [0x66; 0xe9; 0x4b; 0xd4; 0xef; 0x8a; 0x2c; 0x3b; 0x88; 0x4c; 0xfa; 0x59; 0xca; 0x34; 0x2b; 0x2e] []
    [0x03; 0x88; 0xda; 0xce; 0x60; 0xb6; 0xa3; 0x92; 0xf3; 0x28; 0xc2; 0xb9; 0x71; 0xb2; 0xfe; 0x78] =
  [0xf3; 0x8c; 0xbb; 0x1a; 0xd6; 0x92; 0x23; 0xdc; 0xc3; 0x45; 0x7a; 0xe5; 0xb6; 0xb0; 0xf8; 0x85].
Proof. vm_compute. reflexivity. Qed.

(** ** Blocks *)

Lemma length_length_block a c : length (length_block a c) = 16%nat.
Proof. done. Qed.

Lemma length_blocks16 l : length (blocks16 l) = (length l / 16)%nat.
Proof. unfold blocks16. generalize (length l / 16)%nat as n. intros n. revert l. induction n; intros l; cbn; auto. Qed.

Lemma blocks16_cons b l : length b = 16%nat -> blocks16 (b ++ l) = b :: blocks16 l.
Proof.
  intros Hb. unfold blocks16. rewrite List.length_app, Hb. replace (16 + length l)%nat with (length l + 1 * 16)%nat by lia.
  rewrite Nat.div_add, Nat.add_1_r by lia. cbn [chunks]. now rewrite take_app_length', drop_app_length' by done.
Qed.

Lemma blocks16_one b : length b = 16%nat -> blocks16 b = [b].
Proof. intros Hb. rewrite <- (List.app_nil_r b) at 1. now rewrite blocks16_cons. Qed.

Lemma blocks16_app q a l : length a = (16 * q)%nat -> blocks16 (a ++ l) = blocks16 a ++ blocks16 l.
Proof.
  revert a. induction q as [| q IH]; intros a Ha.
  - destruct a; [done | discriminate Ha].
  - rewrite <- (take_drop 16 a), <- List.app_assoc. assert (length (take 16 a) = 16%nat) as Ht by (rewrite length_take; lia).
    rewrite (blocks16_cons _ (drop 16 a ++ l)), (blocks16_cons _ (drop 16 a)) by done. cbn [List.app]. f_equal. apply IH. rewrite length_drop. lia.
Qed.

Lemma pad16_app q a l : length a = (16 * q)%nat -> pad16 (a ++ l) = a ++ pad16 l.
Proof.
  intros Ha. unfold pad16. rewrite List.length_app, Ha, (Nat.mul_comm 16), Nat.add_comm, Nat.Div0.mod_add.
  now rewrite List.app_assoc.
Qed.

Lemma pad16_short l : (0 < length l < 16)%nat -> pad16 l = l ++ repeat 0 (16 - length l).
Proof. intros Hl. unfold pad16. rewrite (Nat.mod_small (length l)), Nat.mod_small by lia. done. Qed.

Lemma length_pad16 l : exists q, length (pad16 l) = (16 * q)%nat.
Proof.
  exists (length (pad16 l) / 16)%nat. apply Nat.Div0.div_exact. unfold pad16. rewrite List.length_app, List.repeat_length.
  pose proof (Nat.div_mod_eq (length l) 16) as E. pose proof (Nat.mod_upper_bound (length l) 16 ltac:(lia)) as H.
  destruct (Nat.eq_dec (length l mod 16)%nat 0%nat) as [E0 | E0].
  - rewrite E0. change ((16 - 0) mod 16)%nat with 0%nat. now rewrite Nat.add_0_r.
  - rewrite (Nat.mod_small (16 - _)) by lia.
    replace (length l + (16 - length l mod 16))%nat with ((length l / 16 + 1) * 16)%nat by lia. apply Nat.Div0.mod_mul.
Qed.

#[local] Opaque gf128_mul gf128_add gf128_from_bytes gf128_to_bytes blocks16.

(** ** The loops *)

Lemma memcpy_pad data : (length data <= 16)%nat -> memcpy_at (repeat 0 16) 0 data = data ++ repeat 0 (16 - length data).
Proof.
  intros Hl. unfold memcpy_at. rewrite take_0. cbn [List.app]. f_equal. change (0 + length data)%nat with (length data).
  replace 16%nat with (length data + (16 - length data))%nat at 1 by lia. rewrite repeat_app.
  apply drop_app_length'. now rewrite List.repeat_length.
Qed.

Section LoopLemmas.
Context {A : Type} (step : A -> list Z -> A).

Lemma absorb_loop_spec fuel X data :
  (length data <= fuel)%nat -> absorb_loop step fuel X data = List.fold_left step (blocks16 (pad16 data)) X.
Proof.
  revert X data. induction fuel as [| fuel IH]; intros X data Hf.
  - destruct data; [done | cbn in Hf; lia].
  - destruct data as [| d data'] eqn:Ed; [done |]. rewrite <- Ed in *. assert (0 < length data)%nat as H0 by (rewrite Ed; cbn; lia).
    transitivity (if (16 <=? length data)%nat then absorb_loop step fuel (step X (take 16 data)) (drop 16 data)
      else step X (memcpy_at (repeat 0 16) 0 data)); [now rewrite Ed |].
    destruct (Nat.leb_spec 16 (length data)) as [H16 | H16].
    + assert (length (take 16 data) = (16 * 1)%nat) as Ht by (rewrite length_take; lia).
      rewrite IH by (rewrite length_drop; lia).
      assert (pad16 data = take 16 data ++ pad16 (drop 16 data)) as -> by (rewrite <- (pad16_app 1) by exact Ht; now rewrite take_drop).
      rewrite blocks16_cons by exact Ht. cbn [List.fold_left]. reflexivity.
    + rewrite memcpy_pad, pad16_short by lia. rewrite blocks16_one; [reflexivity |].
      rewrite List.length_app, List.repeat_length. lia.
Qed.

Lemma absorb_blocks_spec fuel X c :
  (length c <= fuel)%nat -> exists q a r, c = a ++ r /\ length a = (16 * q)%nat /\ (length r < 16)%nat /\
    absorb_blocks step fuel X c = (List.fold_left step (blocks16 a) X, r).
Proof.
  revert X c. induction fuel as [| fuel IH]; intros X c Hf.
  - exists 0%nat, [], c. split_and!; try done. lia.
  - cbn [absorb_blocks]. destruct (Nat.leb_spec 16 (length c)) as [H16 | H16].
    + destruct (IH (step X (take 16 c)) (drop 16 c)) as (q & a & r & E & Ha & Hr & Eb); [rewrite length_drop; lia |].
      assert (length (take 16 c) = 16%nat) as Ht by (rewrite length_take; lia).
      exists (S q), (take 16 c ++ a), r. split_and!; [| rewrite List.length_app; lia | done |].
      * rewrite <- List.app_assoc, <- E. symmetry. apply take_drop.
      * rewrite Eb, blocks16_cons by done. cbn [List.fold_left]. reflexivity.
    + exists 0%nat, [], c. split_and!; try done.
Qed.

End LoopLemmas.

(** ** The value of the polynomial *)

Section Horner.
Context {R : Type} (ok : R -> Prop) (add mul : R -> R -> R) (zero one : R) `{!CommRing ok add mul zero one}
  (coef : list Z -> R) (coef_ok : forall b, ok (coef b)).

#[local] Notation pow := (ring_pow mul one).
#[local] Notation value := (poly_value add mul zero one coef).

Lemma ring_pow_ok x n : ok x -> ok (pow x n).
Proof. intros Hx. induction n; cbn; [apply ring_one_ok | now apply ring_mul_ok]. Qed.

Lemma horner_value x acc bs :
  ok x -> ok acc -> List.fold_left (horner_step add mul coef x) bs acc = add (mul acc (pow x (length bs))) (value x bs).
Proof using coef_ok CommRing0.
  intros Hx. revert acc. induction bs as [| b bs IH]; intros acc Ha.
  - cbn. rewrite (ring_mul_one (add := add) (mul := mul)), (ring_add_comm (add := add) (mul := mul)), (ring_add_zero (add := add) (mul := mul)) by done. done.
  - cbn [List.fold_left length poly_value ring_pow]. pose proof (ring_pow_ok x (length bs) Hx) as Hp.
    unfold horner_step at 2. rewrite IH by (apply ring_mul_ok; [now apply ring_add_ok | done]).
    rewrite <- (ring_mul_assoc (add := add) (mul := mul)) by (done || now apply ring_add_ok).
    rewrite (ring_mul_comm (add := add) (mul := mul) x) by done. rewrite (ring_distr (add := add) (mul := mul)) by (done || now apply ring_mul_ok).
    now rewrite (ring_add_assoc (add := add) (mul := mul)).
Qed.

Lemma horner_value_zero x bs : ok x -> List.fold_left (horner_step add mul coef x) bs zero = value x bs.
Proof using coef_ok CommRing0.
  intros Hx. rewrite horner_value by (done || apply ring_zero_ok).
  rewrite (ring_mul_zero (add := add) (mul := mul)) by now apply ring_pow_ok. apply (ring_add_zero (add := add) (mul := mul)).
Qed.

End Horner.

Notation absorbs H X bs := (List.fold_left (absorb H) bs X).

Lemma absorbs_app H X a b : absorbs H X (a ++ b) = absorbs H (absorbs H X a) b.
Proof. apply List.fold_left_app. Qed.

Lemma ghash_absorbs h aad c :
  ghash h aad c = gf128_to_bytes (absorbs (gf128_from_bytes h) gf128_zero (blocks16 (ghash_data aad c))).
Proof.
  unfold ghash, ghash_data. rewrite !absorb_loop_spec by done. destruct (length_pad16 aad) as [qa Ha], (length_pad16 c) as [qc Hc].
  rewrite (blocks16_app qa), (blocks16_app qc) by done.
  rewrite (blocks16_one (length_block _ _)) by apply length_length_block. now rewrite !absorbs_app.
Qed.

Lemma ghash_value h aad c :
  ghash h aad c = gf128_to_bytes (gf_poly_value (gf128_from_bytes h) (blocks16 (ghash_data aad c))).
Proof.
  rewrite ghash_absorbs. f_equal.
  exact (horner_value_zero gf_ok gf128_add gf128_mul gf128_zero gf_one gf128_from_bytes from_bytes_ok _ _ (from_bytes_ok h)).
Qed.

(** ** The context *)

(** [x] has been fed [m] after [ghash_init]. *)
Record gfed (H X0 : gf128_t) (aadlen : Z) (m : list Z) (x : GHASH_CTX) : Prop := {
  gfed_H : g_H x = H;
  gfed_aadlen : g_aadlen x = aadlen;
  gfed_clen : g_clen x = Z.of_nat (length m) mod 2 ^ 64;
  gfed_block : length (g_block x) = 16%nat;
  gfed_num : (g_num x < 16)%nat;
  gfed_parts : exists q m0, m = m0 ++ take (g_num x) (g_block x) /\ length m0 = (16 * q)%nat /\
    g_X x = absorbs H X0 (blocks16 m0)
}.

Lemma clen_step a b : (a mod 2 ^ 64 + b) mod 2 ^ 64 = (a + b) mod 2 ^ 64.
Proof. apply Z.add_mod_idemp_l. lia. Qed.

Lemma update_rest_gfed H X0 aadlen q m0 x c :
  g_H x = H -> g_aadlen x = aadlen -> g_clen x = Z.of_nat (length (m0 ++ c)) mod 2 ^ 64 -> length (g_block x) = 16%nat ->
  length m0 = (16 * q)%nat -> g_X x = absorbs H X0 (blocks16 m0) -> gfed H X0 aadlen (m0 ++ c) (update_rest x c).
Proof.
  intros EH Ea Ec Hb Hm EX. unfold update_rest.
  destruct (absorb_blocks_spec (absorb (g_H x)) (length c) (g_X x) c (le_n _)) as (k & a & r & -> & Ha & Hr & ->).
  assert (length (if (length r =? 0)%nat then g_block x else memcpy_at (g_block x) 0 r) = 16%nat) as Hlb
    by (destruct (length r =? 0)%nat; [done | rewrite length_memcpy_at; lia]).
  split; cbn [g_H g_X g_aadlen g_clen g_block g_num]; try done.
  exists (q + k)%nat, (m0 ++ a). split_and!.
  - rewrite <- List.app_assoc. do 2 f_equal. destruct (Nat.eqb_spec (length r) 0) as [E0 | E0].
    + destruct r; [done | discriminate E0].
    + symmetry. apply (take_memcpy_at (g_block x) 0 r []); done.
  - rewrite List.length_app. lia.
  - rewrite EX, EH, (blocks16_app q), absorbs_app by done. done.
Qed.

Lemma ghash_update_gfed H X0 aadlen m x c :
  gfed H X0 aadlen m x -> exists x', ghash_update x c = Some x' /\ gfed H X0 aadlen (m ++ c) x'.
Proof.
  intros [EH Ea Ec Hb Hn (q & m0 & Em & Hm & EX)]. unfold ghash_update.
  destruct (Nat.ltb_spec (g_num x) 16); [| lia]. cbn [negb]. rewrite Ec, clen_step.
  destruct (Nat.eqb_spec (g_num x) 0) as [E0 | E0]; cbn [negb].
  - eexists. split; [reflexivity |]. rewrite E0 in Em. cbn [firstn] in Em. rewrite List.app_nil_r in Em. subst m.
    apply (update_rest_gfed _ _ _ q); cbn [g_H g_X g_aadlen g_clen g_block g_num]; try done.
    rewrite List.length_app. f_equal. lia.
  - set (y := take (g_num x) (g_block x)) in *. assert (length y = g_num x) as Hy by (unfold y; rewrite length_take; lia).
    destruct (Nat.ltb_spec (length c) (16 - g_num x)) as [Hc | Hc]; (eexists; split; [reflexivity |]).
    + split; cbn [g_H g_X g_aadlen g_clen g_block g_num]; try done.
      * rewrite List.length_app. f_equal. lia.
      * rewrite length_memcpy_at; lia.
      * lia.
      * exists q, m0. split_and!; [| done | done]. rewrite Em, <- List.app_assoc. f_equal. symmetry.
        apply take_memcpy_at; done.
    + assert (length (take (16 - g_num x) c) = (16 - g_num x)%nat) as Ht by (rewrite length_take; lia).
      rewrite (memcpy_at_full _ _ _ y) by (done || lia).
      assert (length (y ++ take (16 - g_num x) c) = 16%nat) as Hblk by (rewrite List.length_app; lia).
      assert (m ++ c = (m0 ++ y ++ take (16 - g_num x) c) ++ drop (16 - g_num x) c) as ->
        by (rewrite Em, <- !List.app_assoc, take_drop; done).
      apply (update_rest_gfed _ _ _ (q + 1)); cbn [g_H g_X g_aadlen g_clen g_block g_num]; try done.
      * rewrite Em, <- !List.app_assoc, take_drop, !List.length_app. f_equal. lia.
      * rewrite List.length_app. lia.
      * rewrite EX, EH, (blocks16_app q), absorbs_app by done.
        now rewrite (blocks16_one (y ++ _)) by done.
Qed.

Lemma ghash_updates_gfed H X0 aadlen m x ds :
  gfed H X0 aadlen m x -> exists x', ghash_updates x ds = Some x' /\ gfed H X0 aadlen (m ++ concat ds) x'.
Proof.
  revert m x. induction ds as [| d ds IH]; intros m x Hx.
  - exists x. cbn [concat]. rewrite List.app_nil_r. done.
  - destruct (ghash_update_gfed _ _ _ _ _ d Hx) as (x1 & E1 & H1). destruct (IH _ _ H1) as (x2 & E2 & H2).
    exists x2. cbn [ghash_updates concat]. rewrite E1, List.app_assoc. done.
Qed.

Lemma ghash_init_gfed h aad :
  gfed (gf128_from_bytes h) (absorbs (gf128_from_bytes h) gf128_zero (blocks16 (pad16 aad))) (Z.of_nat (length aad)) []
    (ghash_init h aad).
Proof.
  split; try done.
  - cbn [ghash_init g_block]. destruct (length aad mod 16 =? 0)%nat; [done |]. rewrite length_memcpy_at; [done |].
    rewrite List.repeat_length, length_drop. pose proof (Nat.mod_upper_bound (length aad) 16 ltac:(lia)). lia.
  - cbn. lia.
  - exists 0%nat, []. split_and!; [done | done |]. cbn [ghash_init g_X]. now rewrite absorb_loop_spec.
Qed.

Lemma length_block_mod a c : length_block a (c mod 2 ^ 64) = length_block a c.
Proof. unfold length_block. do 2 f_equal. rewrite !Z.shiftl_mul_pow2 by lia. apply Z.mul_mod_idemp_l. lia. Qed.

Lemma ghash_finish_gfed h aad m x :
  gfed (gf128_from_bytes h) (absorbs (gf128_from_bytes h) gf128_zero (blocks16 (pad16 aad))) (Z.of_nat (length aad)) m x ->
  ghash_finish x = ghash h aad m.
Proof.
  intros [EH Ea Ec Hb Hn (q & m0 & Em & Hm & EX)]. unfold ghash_finish. rewrite Ea, Ec, EH, length_block_mod.
  rewrite ghash_absorbs. unfold ghash_data. destruct (length_pad16 aad) as [qa Hqa]. rewrite (blocks16_app qa), absorbs_app by done.
  assert (pad16 m = m0 ++ pad16 (take (g_num x) (g_block x))) as -> by (rewrite Em; now apply (pad16_app q)).
  set (y := take (g_num x) (g_block x)) in *. assert (length y = g_num x) as Hy by (unfold y; rewrite length_take; lia).
  rewrite <- List.app_assoc, (blocks16_app q), absorbs_app, <- EX by done.
  destruct (Nat.eqb_spec (g_num x) 0) as [E0 | E0]; cbn [negb].
  - destruct y; [| cbn in Hy; lia]. change (pad16 []) with (@nil Z). cbn [List.app].
    now rewrite blocks16_one by apply length_length_block.
  - rewrite pad16_short, Hy by lia. rewrite (memcpy_at_full _ _ _ y) by (rewrite ?List.repeat_length; done || lia).
    rewrite blocks16_cons by (rewrite List.length_app, List.repeat_length; lia).
    now rewrite blocks16_one by apply length_length_block.
Qed.

(** ** Properties *)

(** C20: GHASH is the polynomial with the padded blocks of both texts and
    their lengths as coefficients, evaluated at the hash key; a context that
    is fed the text in any pieces computes the same. *)
Theorem ghash_stream h aad ds :
  ghash h aad (concat ds) =
    gf128_to_bytes (gf_poly_value (gf128_from_bytes h) (blocks16 (ghash_data aad (concat ds)))) /\
  exists x, ghash_updates (ghash_init h aad) ds = Some x /\ ghash_finish x = ghash h aad (concat ds).
Proof.
  split; [apply ghash_value |]. destruct (ghash_updates_gfed _ _ _ _ _ ds (ghash_init_gfed h aad)) as (x & E & Hx).
  exists x. split; [done | now apply ghash_finish_gfed].
Qed.

End Ghash.
