(* ===== verification/Sm4Gcm.v ===== *)
(** SM4 in Galois/counter mode: at once (src/sm4_modes.c) and with a context
    (src/aead.c). *)
From S2P Require Import Prelude GmWord Sm4 Sm4Modes GmGf128 GmGhash.

Module Gcm.
Import GmWord.Word Sm4.Sm4 Sm4Modes.Modes GmGf128.Gf128 GmGhash.Ghash.

(** ** At once *)

Definition SM4_GCM_MAX_TAG_SIZE : nat := 16.

(** [Y], the first counter. *)
Definition gcm_counter (H iv : list Z) : list Z :=
  if (length iv =? 12)%nat then iv ++ [0; 0; 0; 1] else ghash H [] iv.

(** [while (left)]: every round takes a byte at least. *)
Fixpoint gcm_loop (fuel : nat) (key Y in_ : list Z) : list Z :=
  match fuel with
  | O => []
  | S fuel =>
      match in_ with
      | [] => []
      | _ =>
          let len := if (length in_ <? 16)%nat then length in_ else 16%nat in
          let Y := ctr_incr Y in
          memxor (take len in_) (sm4_encrypt key Y) ++ gcm_loop fuel key Y (drop len in_)
      end
  end.

(** [gmssl_memxor(r, a, b, len)] *)
Definition memxor_len (len : nat) (a b : list Z) : list Z := take len (memxor a b).

(** The output and the tag; [None] is -1. *)
Definition sm4_gcm_encrypt (key iv aad in_ : list Z) (taglen : nat) : option (list Z * list Z) :=
  if (SM4_GCM_MAX_TAG_SIZE <? taglen)%nat then None
  else
    let H := sm4_encrypt key (repeat 0 16) in
    let Y := gcm_counter H iv in
    let T := sm4_encrypt key Y in
    let out := gcm_loop (length in_) key Y in_ in
    let H := ghash H aad out in
    Some (out, memxor_len taglen T H).

(** The return code and the output.  A tag longer than sixteen bytes is
    written past the end of [T]: [None]. *)
Definition sm4_gcm_decrypt (key iv aad in_ tag : list Z) : option (Z * list Z) :=
  let H := sm4_encrypt key (repeat 0 16) in
  let Y := gcm_counter H iv in
  let H := ghash H aad in_ in
  let T := sm4_encrypt key Y in
  if (16 <? length tag)%nat then None
  else
    let T := memxor_len (length tag) T H in
    if negb (bool_decide (T = tag)) then Some (-1, [])
    else Some (1, gcm_loop (length in_) key Y in_).

(** ** With a context *)

(** [m_mac] are the bytes in [mac] that count. *)
Record SM4_GCM_CTX := mk_gcm {
  m_enc : ctx; m_mac_ctx : GHASH_CTX; m_Y : list Z; m_taglen : nat; m_mac : list Z }.

Definition SM4_GCM_MAX_IV_SIZE : nat := 64.
Definition SM4_GCM_MIN_IV_SIZE : nat := 1.

(** [None] is -1; [rk] is what the key held before. *)
Definition sm4_gcm_encrypt_init (rk key iv aad : list Z) (taglen : nat) : option SM4_GCM_CTX :=
  if negb (length key =? 16)%nat then None
  else if (length iv <? SM4_GCM_MIN_IV_SIZE)%nat || (SM4_GCM_MAX_IV_SIZE <? length iv)%nat then None
  else if (taglen <? 8)%nat || (16 <? taglen)%nat then None
  else
    let enc := sm4_ctr_encrypt_init rk key (repeat 0 16) in
    let H := sm4_encrypt (x_key enc) (repeat 0 16) in
    let mac := ghash_init H aad in
    let Y := gcm_counter H iv in
    let EY := sm4_encrypt (x_key enc) Y in
    let enc := mk_ctx (x_key enc) (ctr_incr Y) (x_block enc) (x_nbytes enc) in
    Some (mk_gcm enc mac EY taglen []).

(** The return code, the context and the output. *)
Definition gcm_out : Type := Z * SM4_GCM_CTX * list Z.

(** [ghash_update] of what was written; its assertion holds or the program
    ends: [None]. *)
Definition sm4_gcm_encrypt_update (x : SM4_GCM_CTX) (in_ : list Z) : option gcm_out :=
  let '(rc, enc, out) := sm4_ctr_encrypt_update (m_enc x) in_ in
  if negb (rc =? 1) then Some (-1, mk_gcm enc (m_mac_ctx x) (m_Y x) (m_taglen x) (m_mac x), [])
  else
    match ghash_update (m_mac_ctx x) out with
    | None => None
    | Some mac => Some (1, mk_gcm enc mac (m_Y x) (m_taglen x) (m_mac x), out)
    end.

(** The last bytes of the ciphertext and the tag. *)
Definition sm4_gcm_encrypt_finish (x : SM4_GCM_CTX) : option (Z * list Z) :=
  let '(rc, out) := sm4_ctr_encrypt_finish (m_enc x) in
  if negb (rc =? 1) then Some (-1, [])
  else
    match ghash_update (m_mac_ctx x) out with
    | None => None
    | Some mac =>
        let mac := ghash_finish mac in
        let mac := memxor_len (m_taglen x) mac (m_Y x) in
        Some (1, out ++ mac)
    end.

Definition sm4_gcm_decrypt_init := sm4_gcm_encrypt_init.

(** A piece of ciphertext to the hash and to the counter mode. *)
Definition decrypt_piece (x : SM4_GCM_CTX) (piece : list Z) : option gcm_out :=
  match ghash_update (m_mac_ctx x) piece with
  | None => None
  | Some mac =>
      let '(rc, enc, out) := sm4_ctr_encrypt_update (m_enc x) piece in
      let x := mk_gcm enc mac (m_Y x) (m_taglen x) (m_mac x) in
      if negb (rc =? 1) then Some (-1, x, []) else Some (1, x, out)
  end.

Definition set_mac (x : SM4_GCM_CTX) (mac : list Z) : SM4_GCM_CTX :=
  mk_gcm (m_enc x) (m_mac_ctx x) (m_Y x) (m_taglen x) mac.

(** From the test of [inlen] against [taglen] on: [mac] is full.  The last
    [memcpy] reads sixteen bytes where [taglen] are left of the input. *)
Definition decrypt_rest (x : SM4_GCM_CTX) (in_ : list Z) : option gcm_out :=
  if (length in_ <=? m_taglen x)%nat then
    match decrypt_piece x (take (length in_) (m_mac x)) with
    | Some (1, x, out) => Some (1, set_mac x (drop (length in_) (m_mac x) ++ in_), out)
    | r => r
    end
  else
    match decrypt_piece x (m_mac x) with
    | Some (1, x, out) =>
        let inlen := (length in_ - m_taglen x)%nat in
        match decrypt_piece x (take inlen in_) with
        | Some (1, x, out') =>
            if (m_taglen x <? 16)%nat then None
            else Some (1, set_mac x (take 16 (drop inlen in_)), out ++ out')
        | r => r
        end
    | r => r
    end.

(** The output is [None] when [*outlen] is not set. *)
Definition sm4_gcm_decrypt_update (x : SM4_GCM_CTX) (in_ : list Z) : option (Z * SM4_GCM_CTX * option (list Z)) :=
  let maclen := length (m_mac x) in
  let some '(rc, x, out) := (rc, x, Some out) in
  if (m_taglen x <? maclen)%nat then Some (-1, x, None)
  else if (maclen <? m_taglen x)%nat then
    let len := (m_taglen x - maclen)%nat in
    if (length in_ <=? len)%nat then Some (1, set_mac x (m_mac x ++ in_), None)
    else option_map some (decrypt_rest (set_mac x (m_mac x ++ take len in_)) (drop len in_))
  else option_map some (decrypt_rest x in_).

Definition sm4_gcm_decrypt_finish (x : SM4_GCM_CTX) : Z * list Z :=
  if negb (length (m_mac x) =? m_taglen x)%nat then (-1, [])
  else
    let mac := ghash_finish (m_mac_ctx x) in
    let '(rc, out) := sm4_ctr_encrypt_finish (m_enc x) in
    if negb (rc =? 1) then (-1, [])
    else
      let mac := memxor_len (m_taglen x) mac (m_Y x) in
      if negb (bool_decide (mac = take (m_taglen x) (m_mac x))) then (-1, out) else (1, out).

(** The vector of RFC 8998, A.2.1. *)
Example sm4_gcm_vector :
  sm4_gcm_encrypt (sm4_set_encrypt_key (repeat 0 32) [0x01; 0x23; 0x45; 0x67; 0x89; 0xAB; 0xCD; 0xEF; 0xFE; 0xDC; 0xBA; 0x98; 0x76; 0x54; 0x32; 0x10])
    [0; 0; 0x12; 0x34; 0x56; 0x78; 0; 0; 0; 0; 0xAB; 0xCD]
    [0xFE; 0xED; 0xFA; 0xCE; 0xDE; 0xAD; 0xBE; 0xEF; 0xFE; 0xED; 0xFA; 0xCE; 0xDE; 0xAD; 0xBE; 0xEF; 0xAB; 0xAD; 0xDA; 0xD2]
    (repeat 0xAA 8 ++ repeat 0xBB 8 ++ repeat 0xCC 8 ++ repeat 0xDD 8 ++ repeat 0xEE 8 ++ repeat 0xFF 8 ++ repeat 0xEE 8 ++ repeat 0xAA 8) 16 =
  Some ([0x17; 0xF3; 0x99; 0xF0; 0x8C; 0x67; 0xD5; 0xEE; 0x19; 0xD0; 0xDC; 0x99; 0x69; 0xC4; 0xBB; 0x7D;
         0x5F; 0xD4; 0x6F; 0xD3; 0x75; 0x64; 0x89; 0x06; 0x91; 0x57; 0xB2; 0x82; 0xBB; 0x20; 0x07; 0x35;
         0xD8; 0x27; 0x10; 0xCA; 0x5C; 0x22; 0xF0; 0xCC; 0xFA; 0x7C; 0xBF; 0x93; 0xD4; 0x96; 0xAC; 0x15;
         0xA5; 0x68; 0x34; 0xCB; 0xCF; 0x98; 0xC3; 0x97; 0xB4; 0x02; 0x4A; 0x26; 0x91; 0x23; 0x3B; 0x8D],
        [0x83; 0xDE; 0x35; 0x41; 0xE4; 0xC2; 0xB5; 0x81; 0x77; 0xE0; 0x65; 0xA9; 0xBF; 0x7B; 0x62; 0xEC]).
Proof. vm_compute. reflexivity. Qed.

(** A tag of twelve bytes: the last [memcpy] reads past the input. *)
Example gcm_decrypt_overreads :
  match sm4_gcm_decrypt_init (repeat 0 32) ex_key (repeat 7 12) [] 12 with
  | Some x => sm4_gcm_decrypt_update x (repeat 1 40)
  | None => Some (0, mk_gcm (mk_ctx [] [] [] 0) (ghash_init [] []) [] 0 [], None)
  end = None.
Proof. vm_compute. reflexivity. Qed.

#[local] Opaque sm4_encrypt ghash.

(** ** The counter mode *)

Section Cipher.
Context (key : list Z) (E_block : forall b, block b -> block (sm4_encrypt key b)).

Lemma gcm_loop_ctr fuel Y m : gcm_loop fuel key Y m = snd (ctr_loop fuel key (ctr_incr Y) m).
Proof using.
  revert Y m. induction fuel as [| fuel IH]; intros Y m; [done |]. cbn [gcm_loop ctr_loop].
  destruct m as [| c m0] eqn:Em; [done |]. rewrite <- Em.
  assert ((if (length m <? 16)%nat then length m else 16%nat) = Nat.min (length m) 16) as ->
    by (destruct (Nat.ltb_spec (length m) 16); lia).
  cbv zeta. rewrite IH. now destruct (ctr_loop fuel key (ctr_incr (ctr_incr Y)) _).
Qed.

Lemma gcm_ctr Y m : gcm_loop (length m) key Y m = snd (sm4_ctr_encrypt key (ctr_incr Y) m).
Proof using. apply gcm_loop_ctr. Qed.

Lemma block_counter Y : block Y -> exists v, Y = be_bytes 16 v.
Proof using. intros [HF Hl]. exists (horner 256 Y). rewrite <- Hl. symmetry. now apply be_bytes_horner. Qed.

Lemma ctr_incr_block Y : block Y -> block (ctr_incr Y).
Proof using. intros HY. destruct (block_counter Y HY) as [v ->]. rewrite ctr_incr_be_bytes. apply be_bytes_block. Qed.

Lemma blocks_of_enough (m : list Z) : (length m <= 16 * blocks_of m)%nat.
Proof using.
  unfold blocks_of. pose proof (Nat.div_mod_eq (length m + 15) 16).
  pose proof (Nat.mod_upper_bound (length m + 15) 16 ltac:(lia)). lia.
Qed.

(** Adding the keystream twice. *)
Lemma ctr_involution Y m :
  block Y -> snd (sm4_ctr_encrypt key Y (snd (sm4_ctr_encrypt key Y m))) = m /\ length (snd (sm4_ctr_encrypt key Y m)) = length m.
Proof using E_block.
  intros HY. destruct (block_counter Y HY) as [v ->]. rewrite !ctr_encrypt_spec by done. cbn [snd].
  pose proof (blocks_of_enough m) as Hb.
  assert (length (memxor m (keystream (blocks_of m) key v)) = length m) as Hl
    by (rewrite length_memxor, length_keystream by done; lia).
  assert (forall a b, length a = length b -> blocks_of a = blocks_of b) as Hlen by (intros a b E; unfold blocks_of; now rewrite E).
  split; [| done]. rewrite (Hlen _ m Hl).
  apply memxor_cancel. rewrite length_keystream by done. lia.
Qed.

Lemma gcm_involution Y m : block Y -> gcm_loop (length m) key Y (gcm_loop (length m) key Y m) = m /\ length (gcm_loop (length m) key Y m) = length m.
Proof using E_block.
  intros HY. rewrite gcm_ctr. destruct (ctr_involution (ctr_incr Y) m (ctr_incr_block Y HY)) as [H1 H2].
  rewrite <- H2 at 1. rewrite gcm_ctr. done.
Qed.

Lemma counter_block H iv : bytes iv -> block (gcm_counter H iv).
Proof using.
  intros Hiv. unfold gcm_counter. destruct (Nat.eqb_spec (length iv) 12) as [E | E].
  - split; [apply Forall_app_2; [done | repeat constructor; unfold byte; lia] | now rewrite List.length_app, E].
  - rewrite ghash_value. split; [apply to_bytes_bytes | apply length_to_bytes].
Qed.

Lemma gcm_encrypt_lengths iv aad m taglen :
  bytes iv -> (taglen <= 16)%nat ->
  exists c tag, sm4_gcm_encrypt key iv aad m taglen = Some (c, tag) /\ length c = length m /\ length tag = taglen.
Proof using E_block.
  intros Hiv Ht. unfold sm4_gcm_encrypt. destruct (Nat.ltb_spec SM4_GCM_MAX_TAG_SIZE taglen) as [Hlt | _]; [unfold SM4_GCM_MAX_TAG_SIZE in *; lia |].
  cbv zeta. set (H := sm4_encrypt key (repeat 0 16)). pose proof (counter_block H iv Hiv) as HY. eexists _, _.
  split; [reflexivity |]. split; [now apply gcm_involution |].
  unfold memxor_len. rewrite length_take, length_memxor, (proj2 (E_block _ HY)), ghash_value, length_to_bytes. lia.
Qed.

(** What is accepted is what encrypting gives. *)
Lemma gcm_decrypt_spec iv aad c tag :
  bytes iv -> (length tag <= 16)%nat ->
  (forall m, sm4_gcm_decrypt key iv aad c tag = Some (1, m) <-> sm4_gcm_encrypt key iv aad m (length tag) = Some (c, tag)) /\
  (sm4_gcm_decrypt key iv aad c tag = Some (-1, []) \/ exists m, sm4_gcm_decrypt key iv aad c tag = Some (1, m)).
Proof using E_block.
  intros Hiv Ht. unfold sm4_gcm_decrypt, sm4_gcm_encrypt. cbv zeta.
  set (H := sm4_encrypt key (repeat 0 16)). pose proof (counter_block H iv Hiv) as HY. set (Y := gcm_counter H iv) in *.
  destruct (Nat.ltb_spec 16 (length tag)); [lia |]. destruct (Nat.ltb_spec SM4_GCM_MAX_TAG_SIZE (length tag)); [unfold SM4_GCM_MAX_TAG_SIZE in *; lia |].
  destruct (gcm_involution Y c HY) as [Hc1 Hc2]. split.
  - intros m. destruct (bool_decide_reflect (memxor_len (length tag) (sm4_encrypt key Y) (ghash H aad c) = tag)) as [E | E]; cbn [negb].
    + split.
      * intros [= <-]. rewrite Hc2, Hc1, E. done.
      * intros Q. injection Q as Q1 Q2. destruct (gcm_involution Y m HY) as [Hm1 Hm2]. rewrite <- Q1, Hm2, Hm1. done.
    + split; [done |]. intros Q. injection Q as Q1 Q2. rewrite Q1 in Q2. done.
  - destruct (bool_decide _); cbn [negb]; eauto.
Qed.

End Cipher.

(** ** The contexts *)

(** Feeding the pieces one after the other. *)
Fixpoint gcm_updates (x : SM4_GCM_CTX) (ds : list (list Z)) : option gcm_out :=
  match ds with
  | [] => Some (1, x, [])
  | d :: ds =>
      match sm4_gcm_encrypt_update x d with
      | Some (rc, x, o) =>
          if rc =? 1 then
            match gcm_updates x ds with Some (rc, x, o') => Some (rc, x, o ++ o') | None => None end
          else Some (rc, x, o)
      | None => None
      end
  end.

Fixpoint gcm_decrypt_updates (x : SM4_GCM_CTX) (ds : list (list Z)) : option gcm_out :=
  match ds with
  | [] => Some (1, x, [])
  | d :: ds =>
      match sm4_gcm_decrypt_update x d with
      | Some (rc, x, o) =>
          let o := match o with Some o => o | None => [] end in
          if rc =? 1 then
            match gcm_decrypt_updates x ds with Some (rc, x, o') => Some (rc, x, o ++ o') | None => None end
          else Some (rc, x, o)
      | None => None
      end
  end.

Lemma updates_cons update x d ds x2 out :
  updates update x (d :: ds) = (1, x2, out) ->
  exists x1 o1 o2, update x d = (1, x1, o1) /\ updates update x1 ds = (1, x2, o2) /\ out = o1 ++ o2.
Proof.
  cbn [updates]. destruct (update x d) as [[rc x1] o1]. destruct (Z.eqb_spec rc 1) as [-> | Hne].
  - destruct (updates update x1 ds) as [[rc' x2'] o2] eqn:E. intros [= -> -> <-]. eauto 10.
  - intros [= -> _ _]. done.
Qed.

Lemma updates_snoc update x ds d x2 out :
  updates update x (ds ++ [d]) = (1, x2, out) ->
  exists x1 o1 o2, updates update x ds = (1, x1, o1) /\ update x1 d = (1, x2, o2) /\ out = o1 ++ o2.
Proof.
  revert x out. induction ds as [| e ds IH]; intros x out E.
  - cbn [List.app] in E. apply updates_cons in E as (x1 & o1 & o2 & E1 & E2 & ->). cbn in E2. injection E2 as <- <-.
    exists x, [], o1. rewrite List.app_nil_r. done.
  - cbn [List.app] in E. apply updates_cons in E as (x1 & o1 & o2 & E1 & E2 & ->). apply IH in E2 as (x3 & o3 & o4 & E3 & E4 & ->).
    exists x3, (o1 ++ o3), o4. cbn [updates]. rewrite E1. cbn [Z.eqb Pos.eqb]. rewrite E3, List.app_assoc. done.
Qed.

Lemma gcm_updates_spec H X0 aadlen m x ds enc out :
  updates sm4_ctr_encrypt_update (m_enc x) ds = (1, enc, out) -> gfed H X0 aadlen m (m_mac_ctx x) ->
  exists mac, gcm_updates x ds = Some (1, mk_gcm enc mac (m_Y x) (m_taglen x) (m_mac x), out) /\ gfed H X0 aadlen (m ++ out) mac.
Proof.
  revert m x out. induction ds as [| d ds IH]; intros m x out E Hg.
  - cbn in E. injection E as <- <-. exists (m_mac_ctx x). rewrite List.app_nil_r. split; [now destruct x | done].
  - apply updates_cons in E as (x1 & o1 & o2 & E1 & E2 & ->).
    destruct (ghash_update_gfed _ _ _ _ _ o1 Hg) as (mac1 & Em & Hg1).
    destruct (IH (m ++ o1) (mk_gcm x1 mac1 (m_Y x) (m_taglen x) (m_mac x)) o2 E2 Hg1) as (mac & Eu & Hg2).
    exists mac. rewrite List.app_assoc. split; [| done]. cbn [gcm_updates]. unfold sm4_gcm_encrypt_update. rewrite E1.
    cbn [Z.eqb Pos.eqb negb]. rewrite Em. cbn [Z.eqb Pos.eqb]. rewrite Eu. done.
Qed.

Lemma memxor_comm a b : memxor a b = memxor b a.
Proof.
  unfold memxor. revert b. induction a as [| x a IH]; intros [| y b]; try done. cbn. now rewrite IH, Z.lxor_comm.
Qed.

Lemma gcm_stream_encrypt rk k iv aad taglen ds :
  length rk = 32%nat -> block k -> bytes iv -> (1 <= length iv <= 64)%nat -> (8 <= taglen <= 16)%nat -> Forall bytes ds ->
  exists x0 x out f c tag,
    sm4_gcm_encrypt_init rk k iv aad taglen = Some x0 /\ gcm_updates x0 ds = Some (1, x, out) /\
    sm4_gcm_encrypt_finish x = Some (1, f) /\
    sm4_gcm_encrypt (sm4_set_encrypt_key rk k) iv aad (concat ds) taglen = Some (c, tag) /\ out ++ f = c ++ tag.
Proof.
  intros Hrk Hk Hiv Hivl Ht Hds. unfold sm4_gcm_encrypt_init. rewrite (proj2 Hk). cbn [Nat.eqb negb].
  unfold SM4_GCM_MIN_IV_SIZE, SM4_GCM_MAX_IV_SIZE.
  assert ((length iv <? 1)%nat || (64 <? length iv)%nat = false) as -> by (apply orb_false_intro; apply Nat.ltb_ge; lia).
  assert ((taglen <? 8)%nat || (16 <? taglen)%nat = false) as -> by (apply orb_false_intro; apply Nat.ltb_ge; lia).
  cbn [sm4_ctr_encrypt_init x_key x_block x_nbytes]. cbv zeta.
  set (key := sm4_set_encrypt_key rk k) in *. set (H := sm4_encrypt key (repeat 0 16)).
  pose proof (counter_block H iv Hiv) as HY. set (Y := gcm_counter H iv) in *.
  destruct (block_counter (ctr_incr Y) (ctr_incr_block Y HY)) as [v Ev].
  destruct (ctr_stream_encrypt rk k v ds Hrk Hk Hds) as (enc & out & f & Eu & Ef & Eo).
  rewrite <- Ev in Eu, Eo. fold key in Eo.
  eexists. 
  destruct (gcm_updates_spec _ _ _ [] (mk_gcm (mk_ctx key (ctr_incr Y) (repeat 0 16) 0) (ghash_init H aad) (sm4_encrypt key Y) taglen [])
    ds enc out Eu (ghash_init_gfed H aad)) as (mac & Eg & Hg).
  destruct (ghash_update_gfed _ _ _ _ _ f Hg) as (mac' & Em & Hg').
  exists (mk_gcm enc mac (sm4_encrypt key Y) taglen []), out, (f ++ memxor_len taglen (ghash H aad (out ++ f)) (sm4_encrypt key Y)),
    (out ++ f), (memxor_len taglen (sm4_encrypt key Y) (ghash H aad (out ++ f))).
  split; [reflexivity |]. split; [exact Eg |]. split; [| split].
  - unfold sm4_gcm_encrypt_finish. cbn [m_enc m_mac_ctx m_taglen m_Y]. rewrite Ef. cbn [Z.eqb Pos.eqb negb]. rewrite Em.
    now rewrite (ghash_finish_gfed _ _ _ _ Hg').
  - unfold sm4_gcm_encrypt. destruct (Nat.ltb_spec SM4_GCM_MAX_TAG_SIZE taglen) as [Hlt | _]; [unfold SM4_GCM_MAX_TAG_SIZE in *; lia |].
    cbv zeta. fold H Y. now rewrite gcm_ctr, <- Eo.
  - rewrite <- List.app_assoc. unfold memxor_len. now rewrite memxor_comm.
Qed.

(** Decryption: [x] has been fed [t], of which the last sixteen bytes are in
    [mac]; the pieces [ps] are the bytes before. *)
Record dfed (enc0 : ctx) (H X0 : gf128_t) (aadlen : Z) (EY t : list Z) (x : SM4_GCM_CTX) (out : list Z) : Prop := {
  dfed_Y : m_Y x = EY;
  dfed_taglen : m_taglen x = 16%nat;
  dfed_bytes : bytes t;
  dfed_mac : (length (m_mac x) <= 16)%nat;
  dfed_parts : exists ps, t = concat ps ++ m_mac x /\ ((length (m_mac x) < 16)%nat -> ps = []) /\
    updates sm4_ctr_encrypt_update enc0 ps = (1, m_enc x, out) /\ gfed H X0 aadlen (concat ps) (m_mac_ctx x)
}.

Section Decrypt.
Context (enc0 : ctx) (H X0 : gf128_t) (aadlen : Z) (EY : list Z).
Context (enc_ok : forall ds, Forall bytes ds -> exists x out, updates sm4_ctr_encrypt_update enc0 ds = (1, x, out)).

Lemma decrypt_piece_spec ps x out p :
  bytes (concat ps) -> bytes p -> updates sm4_ctr_encrypt_update enc0 ps = (1, m_enc x, out) ->
  gfed H X0 aadlen (concat ps) (m_mac_ctx x) ->
  exists x' o, decrypt_piece x p = Some (1, x', o) /\ m_Y x' = m_Y x /\ m_taglen x' = m_taglen x /\ m_mac x' = m_mac x /\
    updates sm4_ctr_encrypt_update enc0 (ps ++ [p]) = (1, m_enc x', out ++ o) /\
    gfed H X0 aadlen (concat (ps ++ [p])) (m_mac_ctx x').
Proof using enc_ok.
  intros Hps Hp Eu Hg. destruct (enc_ok (ps ++ [p])) as (enc' & out' & E).
  { apply Forall_app_2; [| repeat constructor; done]. clear -Hps. induction ps as [| q ps IH]; constructor;
      cbn [concat] in Hps; apply Forall_app in Hps as [? ?]; auto. }
  pose proof E as E'. apply updates_snoc in E' as (x1 & o1 & o2 & E1 & E2 & ->). rewrite Eu in E1. injection E1 as <- <-.
  destruct (ghash_update_gfed _ _ _ _ _ p Hg) as (mac & Em & Hg').
  exists (mk_gcm enc' mac (m_Y x) (m_taglen x) (m_mac x)), o2. split_and!; try done.
  - unfold decrypt_piece. now rewrite Em, E2.
  - cbn [m_mac_ctx]. rewrite concat_app. cbn [concat]. rewrite List.app_nil_r. done.
Qed.

Lemma decrypt_rest_spec t x out d :
  dfed enc0 H X0 aadlen EY t x out -> length (m_mac x) = 16%nat -> bytes d ->
  exists x' o, decrypt_rest x d = Some (1, x', o) /\ dfed enc0 H X0 aadlen EY (t ++ d) x' (out ++ o).
Proof using enc_ok.
  intros [HY Ht Hb _ (ps & Et & Hps & Eu & Hg)] Hm Hd.
  assert (bytes (concat ps) /\ bytes (m_mac x)) as [Hbp Hbm] by (rewrite Et in Hb; now apply Forall_app in Hb).
  assert (bytes (t ++ d)) as Htd by now apply Forall_app_2.
  unfold decrypt_rest. rewrite Ht. destruct (Nat.leb_spec (length d) 16) as [Hl | Hl].
  - destruct (decrypt_piece_spec ps x out (take (length d) (m_mac x))) as (x' & o & E & H1 & H2 & H3 & H4 & H5);
      [done | now apply Forall_take | done | done |].
    rewrite E, H3. eexists _, o. split; [reflexivity |]. split; cbn [set_mac m_Y m_taglen m_mac m_enc m_mac_ctx]; try congruence.
    + rewrite List.length_app, length_drop. lia.
    + exists (ps ++ [take (length d) (m_mac x)]). split_and!; try done.
      * rewrite Et, concat_app. cbn [concat]. rewrite List.app_nil_r, <- !List.app_assoc. f_equal.
        now rewrite List.app_assoc, take_drop.
      * rewrite List.length_app, length_drop. lia.
  - destruct (decrypt_piece_spec ps x out (m_mac x)) as (x1 & o1 & E1 & H1 & H2 & H3 & H4 & H5); [done | done | done | done |].
    rewrite E1, H2, Ht. set (n := (length d - 16)%nat).
    destruct (decrypt_piece_spec (ps ++ [m_mac x]) x1 (out ++ o1) (take n d)) as (x2 & o2 & E2 & K1 & K2 & K3 & K4 & K5).
    { rewrite concat_app. cbn [concat]. rewrite List.app_nil_r. now apply Forall_app_2. }
    { now apply Forall_take. } { done. } { done. }
    rewrite E2, K2, H2, Ht. cbn [Nat.ltb Nat.leb]. eexists _, (o1 ++ o2). split; [reflexivity |].
    assert (length (take 16 (drop n d)) = 16%nat) as Hlt by (rewrite length_take, length_drop; unfold n; lia).
    split; cbn [set_mac m_Y m_taglen m_mac m_enc m_mac_ctx]; try congruence.
    + lia.
    + exists ((ps ++ [m_mac x]) ++ [take n d]). split_and!; [| lia | now rewrite List.app_assoc | done].
      rewrite Et, !concat_app. cbn [concat]. rewrite !List.app_nil_r, <- !List.app_assoc. do 2 f_equal.
      rewrite (take_ge (drop n d)) by (rewrite length_drop; unfold n; lia). now rewrite take_drop.
Qed.

Lemma decrypt_update_spec t x out d :
  dfed enc0 H X0 aadlen EY t x out -> bytes d ->
  exists x' o, sm4_gcm_decrypt_update x d = Some (1, x', o) /\
    dfed enc0 H X0 aadlen EY (t ++ d) x' (out ++ match o with Some o => o | None => [] end).
Proof using enc_ok.
  intros Hx Hd. pose proof Hx as [HY Ht Hb Hm (ps & Et & Hps & Eu & Hg)]. unfold sm4_gcm_decrypt_update. rewrite Ht.
  destruct (Nat.ltb_spec 16 (length (m_mac x))); [lia |].
  destruct (Nat.ltb_spec (length (m_mac x)) 16) as [Hs | Hs].
  - rewrite (Hps Hs) in *. cbn [concat List.app] in Et. subst t.
    destruct (Nat.leb_spec (length d) (16 - length (m_mac x))) as [Hl | Hl].
    + eexists _, None. split; [reflexivity |]. rewrite List.app_nil_r.
      split; cbn [set_mac m_Y m_taglen m_mac m_enc m_mac_ctx]; try done.
      * now apply Forall_app_2.
      * rewrite List.length_app. lia.
      * exists []. done.
    + set (n := (16 - length (m_mac x))%nat) in *.
      assert (length (take n d) = n) as Hn by (rewrite length_take; lia).
      destruct (decrypt_rest_spec (m_mac x ++ take n d) (set_mac x (m_mac x ++ take n d)) out (drop n d)) as (x' & o & E & Hx').
      * split; cbn [set_mac m_Y m_taglen m_mac m_enc m_mac_ctx]; try done.
        { apply Forall_app_2; [done | now apply Forall_take]. }
        { rewrite List.length_app. unfold n in *. lia. }
        exists []. done.
      * cbn [set_mac m_mac]. rewrite List.length_app. unfold n in *. lia.
      * now apply Forall_drop.
      * rewrite E. cbn [option_map]. exists x', (Some o). split; [reflexivity |].
        rewrite <- List.app_assoc, take_drop in Hx'. exact Hx'.
  - destruct (decrypt_rest_spec t x out d Hx ltac:(lia) Hd) as (x' & o & E & Hx'). rewrite E. cbn [option_map].
    exists x', (Some o). done.
Qed.

Lemma decrypt_updates_spec t x out ds :
  dfed enc0 H X0 aadlen EY t x out -> Forall bytes ds ->
  exists x' o, gcm_decrypt_updates x ds = Some (1, x', o) /\ dfed enc0 H X0 aadlen EY (t ++ concat ds) x' (out ++ o).
Proof using enc_ok.
  intros Hx Hds. revert t x out Hx. induction Hds as [| d ds Hd _ IH]; intros t x out Hx.
  - exists x, []. cbn [concat gcm_decrypt_updates]. rewrite !List.app_nil_r. done.
  - destruct (decrypt_update_spec t x out d Hx Hd) as (x1 & o1 & E1 & H1).
    destruct (IH _ _ _ H1) as (x2 & o2 & E2 & H2). eexists x2, _. split.
    + cbn [gcm_decrypt_updates]. rewrite E1. cbn [Z.eqb Pos.eqb]. rewrite E2. reflexivity.
    + cbn [concat]. rewrite !List.app_assoc. exact H2.
Qed.

End Decrypt.

Lemma gcm_stream_decrypt rk k iv aad ds :
  length rk = 32%nat -> block k -> bytes iv -> (1 <= length iv <= 64)%nat -> Forall bytes ds ->
  exists x0 x out f rc,
    sm4_gcm_decrypt_init rk k iv aad 16 = Some x0 /\ gcm_decrypt_updates x0 ds = Some (1, x, out) /\
    sm4_gcm_decrypt_finish x = (rc, f) /\
    if (length (concat ds) <? 16)%nat then rc = -1
    else
      let n := (length (concat ds) - 16)%nat in
      exists m, sm4_gcm_decrypt (sm4_set_encrypt_key rk k) iv aad (take n (concat ds)) (drop n (concat ds)) = Some (rc, m) /\
        (rc = 1 -> out ++ f = m).
Proof.
  intros Hrk Hk Hiv Hivl Hds. unfold sm4_gcm_decrypt_init, sm4_gcm_encrypt_init. rewrite (proj2 Hk). cbn [Nat.eqb negb].
  unfold SM4_GCM_MIN_IV_SIZE, SM4_GCM_MAX_IV_SIZE.
  assert ((length iv <? 1)%nat || (64 <? length iv)%nat = false) as -> by (apply orb_false_intro; apply Nat.ltb_ge; lia).
  change ((16 <? 8)%nat || (16 <? 16)%nat) with false. cbv iota. cbn [sm4_ctr_encrypt_init x_key x_block x_nbytes]. cbv zeta.
  set (key := sm4_set_encrypt_key rk k) in *. set (H := sm4_encrypt key (repeat 0 16)).
  pose proof (counter_block H iv Hiv) as HY. set (Y := gcm_counter H iv) in *.
  destruct (block_counter (ctr_incr Y) (ctr_incr_block Y HY)) as [v Ev].
  set (enc0 := mk_ctx key (ctr_incr Y) (repeat 0 16) 0).
  assert (forall ps, Forall bytes ps -> exists x out f, updates sm4_ctr_encrypt_update enc0 ps = (1, x, out) /\
    sm4_ctr_encrypt_finish x = (1, f) /\ out ++ f = snd (sm4_ctr_encrypt key (ctr_incr Y) (concat ps))) as Hctr.
  { intros ps Hps. destruct (ctr_stream_encrypt rk k v ps Hrk Hk Hps) as (x & out & f & E1 & E2 & E3).
    rewrite <- Ev in E1, E3. exists x, out, f. exact (conj E1 (conj E2 E3)). }
  assert (forall ps, Forall bytes ps -> exists x out, updates sm4_ctr_encrypt_update enc0 ps = (1, x, out)) as Hok.
  { intros ps Hps. destruct (Hctr ps Hps) as (x & out & _ & E & _). eauto. }
  pose proof (ghash_init_gfed H aad) as Hg0.
  destruct (decrypt_updates_spec enc0 (gf128_from_bytes H) (List.fold_left (absorb (gf128_from_bytes H)) (blocks16 (pad16 aad)) gf128_zero)
    (Z.of_nat (length aad)) (sm4_encrypt key Y) Hok [] (mk_gcm enc0 (ghash_init H aad) (sm4_encrypt key Y) 16 []) [] ds)
    as (x & out & E & Hx); [| exact Hds |].
  { split; cbn [m_Y m_taglen m_mac m_enc m_mac_ctx]; [reflexivity | reflexivity | constructor | cbn; lia |].
    exists []. split_and!; [reflexivity | reflexivity | reflexivity | exact Hg0]. }
  destruct Hx as [HxY Hxt Hxb Hxm (ps & Et & Hps & Eu & Hg)]. cbn [List.app] in *.
  destruct (sm4_gcm_decrypt_finish x) as [rc f] eqn:Ef. exists (mk_gcm enc0 (ghash_init H aad) (sm4_encrypt key Y) 16 []), x, out, f, rc.
  split; [reflexivity |]. split; [exact E |]. split; [exact Ef |].
  unfold sm4_gcm_decrypt_finish in Ef. rewrite Hxt, HxY in Ef.
  destruct (Nat.ltb_spec (length (concat ds)) 16) as [Hl | Hl].
  - assert (length (m_mac x) < 16)%nat as Hs by (rewrite Et, List.length_app in Hl; lia).
    destruct (Nat.eqb_spec (length (m_mac x)) 16); [lia |]. cbn [negb] in Ef. congruence.
  - assert (length (m_mac x) = 16%nat) as Hm.
    { destruct (Nat.lt_ge_cases (length (m_mac x)) 16) as [Hs | Hs]; [| lia]. rewrite Et, (Hps Hs) in Hl. cbn [concat List.app] in Hl. lia. }
    rewrite Hm in Ef. cbn [Nat.eqb negb] in Ef.
    assert (Forall bytes ps) as Hbps.
    { rewrite Et in Hxb. apply Forall_app in Hxb as [Hxb _]. clear -Hxb. induction ps as [| q ps IH]; constructor;
        cbn [concat] in Hxb; apply Forall_app in Hxb as [? ?]; auto. }
    destruct (Hctr ps Hbps) as (x' & out' & f' & E1 & E2 & E3). rewrite Eu in E1. injection E1 as <- <-.
    rewrite E2 in Ef. cbn [Z.eqb Pos.eqb negb] in Ef. rewrite (ghash_finish_gfed _ _ _ _ Hg) in Ef.
    rewrite take_ge in Ef by lia. rewrite Et.
    replace (length (concat ps ++ m_mac x) - 16)%nat with (length (concat ps)) by (rewrite List.length_app; lia). cbv zeta.
    rewrite take_app_length, drop_app_length. unfold sm4_gcm_decrypt. cbv zeta. fold H Y. rewrite Hm. cbn [Nat.ltb Nat.leb].
    unfold memxor_len in *. rewrite memxor_comm in Ef.
    destruct (bool_decide _); cbn [negb] in *; injection Ef as <- <-.
    + eexists. split; [reflexivity |]. intros _. now rewrite gcm_ctr, <- E3.
    + eexists. split; [reflexivity |]. done.
Qed.

(** ** Properties *)

(** C21: decryption in Galois/counter mode accepts a ciphertext with a tag of at
    most sixteen bytes exactly if encryption of some message gives both, and
    then its output is that message; otherwise it answers -1.  Encryption
    refuses the longer tags, and nothing else; decryption does not: there it
    writes past the end of an array. *)
Theorem sm4_gcm_accepts rk k iv aad :
  length rk = 32%nat -> block k -> bytes iv ->
  let key := sm4_set_encrypt_key rk k in
  (forall m taglen, (taglen <= 16)%nat -> exists c tag, sm4_gcm_encrypt key iv aad m taglen = Some (c, tag) /\
     length c = length m /\ length tag = taglen /\ sm4_gcm_decrypt key iv aad c tag = Some (1, m)) /\
  (forall c tag, (length tag <= 16)%nat ->
     (forall m, sm4_gcm_decrypt key iv aad c tag = Some (1, m) -> sm4_gcm_encrypt key iv aad m (length tag) = Some (c, tag)) /\
     ((forall m, sm4_gcm_encrypt key iv aad m (length tag) <> Some (c, tag)) -> sm4_gcm_decrypt key iv aad c tag = Some (-1, []))) /\
  (forall m taglen, (16 < taglen)%nat -> sm4_gcm_encrypt key iv aad m taglen = None) /\
  (forall c tag, (16 < length tag)%nat -> sm4_gcm_decrypt key iv aad c tag = None).
Proof.
  intros Hrk Hk Hiv key.
  assert (forall b, block b -> block (sm4_encrypt key b)) as EB by apply (sm4_cipher rk rk k Hrk Hrk Hk).
  split; [| split; [| split]].
  - intros m taglen Ht. destruct (gcm_encrypt_lengths key EB iv aad m taglen Hiv Ht) as (c & tag & E & Hc & Htag).
    exists c, tag. split_and!; try done. apply (gcm_decrypt_spec key EB iv aad c tag Hiv); [lia | now rewrite Htag].
  - intros c tag Ht. destruct (gcm_decrypt_spec key EB iv aad c tag Hiv Ht) as [H1 H2]. split; [intros m; apply H1 |].
    intros Hno. destruct H2 as [H2 | [m H2]]; [done |]. apply H1 in H2. now apply Hno in H2.
  - intros m taglen Ht. unfold sm4_gcm_encrypt. now destruct (Nat.ltb_spec SM4_GCM_MAX_TAG_SIZE taglen); [| unfold SM4_GCM_MAX_TAG_SIZE in *; lia].
  - intros c tag Ht. unfold sm4_gcm_decrypt. cbv zeta. now destruct (Nat.ltb_spec 16 (length tag)); [| lia].
Qed.

(** C22: the contexts compute what the functions on whole messages compute,
    however the input is cut into pieces: encryption gives the ciphertext and
    the tag, decryption of both with a tag of sixteen bytes gives the return
    code, and the message when it is accepted. *)
Theorem sm4_gcm_stream rk k iv aad taglen ds es :
  length rk = 32%nat -> block k -> bytes iv -> (1 <= length iv <= 64)%nat -> (8 <= taglen <= 16)%nat ->
  Forall bytes ds -> Forall bytes es ->
  let key := sm4_set_encrypt_key rk k in
  (exists x0 x out f c tag,
     sm4_gcm_encrypt_init rk k iv aad taglen = Some x0 /\ gcm_updates x0 ds = Some (1, x, out) /\
     sm4_gcm_encrypt_finish x = Some (1, f) /\
     sm4_gcm_encrypt key iv aad (concat ds) taglen = Some (c, tag) /\ out ++ f = c ++ tag) /\
  (exists x0 x out f rc,
     sm4_gcm_decrypt_init rk k iv aad 16 = Some x0 /\ gcm_decrypt_updates x0 es = Some (1, x, out) /\
     sm4_gcm_decrypt_finish x = (rc, f) /\
     if (length (concat es) <? 16)%nat then rc = -1
     else
       let n := (length (concat es) - 16)%nat in
       exists m, sm4_gcm_decrypt key iv aad (take n (concat es)) (drop n (concat es)) = Some (rc, m) /\
         (rc = 1 -> out ++ f = m)).
Proof. intros. split; [now apply gcm_stream_encrypt | now apply gcm_stream_decrypt]. Qed.

Lemma sm4_gcm_accepts_witness :
  exists c tag, sm4_gcm_encrypt (sm4_set_encrypt_key (repeat 0 32) ex_key) (repeat 7 12) [] (str "attack") 16 = Some (c, tag) /\
    length c = 6%nat.
Proof.
  destruct (proj1 (sm4_gcm_accepts (repeat 0 32) ex_key (repeat 7 12) [] eq_refl ex_key_block
    ltac:(repeat constructor; unfold byte; lia)) (str "attack") 16%nat ltac:(lia)) as (c & tag & E & Hc & _).
  exists c, tag. exact (conj E Hc).
Defined.

Lemma sm4_gcm_stream_witness :
  exists x0 x out, sm4_gcm_encrypt_init (repeat 0 32) ex_key (repeat 7 12) [] 16 = Some x0 /\
    gcm_updates x0 [str "att"; str "ack"] = Some (1, x, out).
Proof.
  destruct (proj1 (sm4_gcm_stream (repeat 0 32) ex_key (repeat 7 12) [] 16 [str "att"; str "ack"] [] eq_refl ex_key_block
    ltac:(repeat constructor; unfold byte; lia) ltac:(cbn; lia) ltac:(lia) ltac:(repeat constructor; unfold byte; lia)
    ltac:(constructor))) as (x0 & x & out & f & c & tag & E1 & E2 & _).
  exists x0, x, out. exact (conj E1 E2).
Defined.

End Gcm.
