(* ===== verification/Sm3.v ===== *)
(** The SM3 hash function (src/sm3.c): the portable [sm3_compress_blocks],
    [sm3_init], [sm3_update], [sm3_finish] and [sm3_digest]. *)
From S2P Require Import Prelude GmWord.

Module Sm3.
Import GmWord.Word.

(** ** The compression function *)

Definition P0 (x : Z) : Z := Z.lxor (Z.lxor x (ROL32 x 9)) (ROL32 x 17).
Definition P1 (x : Z) : Z := Z.lxor (Z.lxor x (ROL32 x 15)) (ROL32 x 23).

Definition FF00 (x y z : Z) : Z := Z.lxor (Z.lxor x y) z.
Definition FF16 (x y z : Z) : Z := Z.lor (Z.lor (Z.land x y) (Z.land x z)) (Z.land y z).
Definition GG00 (x y z : Z) : Z := Z.lxor (Z.lxor x y) z.
Definition GG16 (x y z : Z) : Z := Z.lxor (Z.land (Z.lxor y z) x) z.

Definition K : list Z :=
  [0x79cc4519; 0xf3988a32; 0xe7311465; 0xce6228cb;
   0x9cc45197; 0x3988a32f; 0x7311465e; 0xe6228cbc;
   0xcc451979; 0x988a32f3; 0x311465e7; 0x6228cbce;
   0xc451979c; 0x88a32f39; 0x11465e73; 0x228cbce6;
   0x9d8a7a87; 0x3b14f50f; 0x7629ea1e; 0xec53d43c;
   0xd8a7a879; 0xb14f50f3; 0x629ea1e7; 0xc53d43ce;
   0x8a7a879d; 0x14f50f3b; 0x29ea1e76; 0x53d43cec;
   0xa7a879d8; 0x4f50f3b1; 0x9ea1e762; 0x3d43cec5;
   0x7a879d8a; 0xf50f3b14; 0xea1e7629; 0xd43cec53;
   0xa879d8a7; 0x50f3b14f; 0xa1e7629e; 0x43cec53d;
   0x879d8a7a; 0x0f3b14f5; 0x1e7629ea; 0x3cec53d4;
   0x79d8a7a8; 0xf3b14f50; 0xe7629ea1; 0xcec53d43;
   0x9d8a7a87; 0x3b14f50f; 0x7629ea1e; 0xec53d43c;
   0xd8a7a879; 0xb14f50f3; 0x629ea1e7; 0xc53d43ce;
   0x8a7a879d; 0x14f50f3b; 0x29ea1e76; 0x53d43cec;
   0xa7a879d8; 0x4f50f3b1; 0x9ea1e762; 0x3d43cec5].

(** [W[j]] *)
Definition w_at (W : list Z) (j : nat) : Z := List.nth j W 0.

(** [for (; j < 68; j++) W[j] = ...] *)
Fixpoint expand (n : nat) (W : list Z) : list Z :=
  match n with
  | O => W
  | S n' =>
      let j := List.length W in
      expand n'
        (W ++ [Z.lxor (Z.lxor
            (P1 (Z.lxor (Z.lxor (w_at W (j - 16)) (w_at W (j - 9))) (ROL32 (w_at W (j - 3)) 15)))
            (ROL32 (w_at W (j - 13)) 7)) (w_at W (j - 6))])
  end.

(** The 68 words of a block. *)
Definition message_words (data : list Z) : list Z :=
  expand 52 (List.map (fun j => GETU32 data (j * 4)) (List.seq 0 16)).

(** The variables [A] to [H], in the order of a round's arguments. *)
Record regs := mk_regs { rA : Z; rB : Z; rC : Z; rD : Z; rE : Z; rF : Z; rG : Z; rH : Z }.

(** [R(A, B, C, D, E, F, G, H, xx)]: the round sets [B], [D], [F] and [H]. *)
Definition R (FF GG : Z -> Z -> Z -> Z) (W : list Z) (j : nat) (x : regs) : regs :=
  let '(mk_regs A B C D E F G H) := x in
  let SS1 := ROL32 (add32 (add32 (ROL32 A 12) E) (w_at K j)) 7 in
  let SS2 := Z.lxor SS1 (ROL32 A 12) in
  let TT1 := add32 (add32 (add32 (FF A B C) D) SS2) (Z.lxor (w_at W j) (w_at W (j + 4))) in
  let TT2 := add32 (add32 (add32 (GG E F G) H) SS1) (w_at W j) in
  mk_regs A (ROL32 B 9) C (P0 TT2) E (ROL32 F 19) G TT1.

(** The next round's arguments: [R(H, A, B, C, D, E, F, G, xx)]. *)
Definition next_args (x : regs) : regs :=
  let '(mk_regs A B C D E F G H) := x in mk_regs H A B C D E F G.

Definition R8 (FF GG : Z -> Z -> Z -> Z) (W : list Z) (j : nat) (x : regs) : regs :=
  List.fold_left (fun x i => next_args (R FF GG W (j + i) x)) (List.seq 0 8) x.

(** The eight unrolled groups; eight changes of arguments restore their
    order. *)
Definition rounds (W : list Z) (x : regs) : regs :=
  let x := R8 FF00 GG00 W 0 x in
  let x := R8 FF00 GG00 W 8 x in
  let x := R8 FF16 GG16 W 16 x in
  let x := R8 FF16 GG16 W 24 x in
  let x := R8 FF16 GG16 W 32 x in
  let x := R8 FF16 GG16 W 40 x in
  let x := R8 FF16 GG16 W 48 x in
  R8 FF16 GG16 W 56 x.

(** [digest[8]] as the variables it is loaded into. *)
Definition xor_regs (x y : regs) : regs :=
  mk_regs (Z.lxor (rA x) (rA y)) (Z.lxor (rB x) (rB y)) (Z.lxor (rC x) (rC y)) (Z.lxor (rD x) (rD y))
    (Z.lxor (rE x) (rE y)) (Z.lxor (rF x) (rF y)) (Z.lxor (rG x) (rG y)) (Z.lxor (rH x) (rH y)).

(** [while (blocks--)] *)
Fixpoint sm3_compress_blocks (digest : regs) (data : list Z) (blocks : nat) : regs :=
  match blocks with
  | O => digest
  | S n =>
      sm3_compress_blocks (xor_regs digest (rounds (message_words data) digest)) (drop 64 data) n
  end.

(** ** The incremental interface *)

(** [SM3_CTX] *)
Record SM3_CTX := mk_ctx {
  digest : regs;
  nblocks : Z;
  blk : list Z;
  num : nat
}.

Definition sm3_init : SM3_CTX :=
  mk_ctx (mk_regs 0x7380166F 0x4914B2B9 0x172442D7 0xDA8A0600 0xA96F30BC 0x163138AA 0xE38DEE4D 0xB0FB0E4E)
    0 (List.repeat 0 64) 0.

(** The blocks of the input itself, and what is left of it. *)
Definition update_tail (c : SM3_CTX) (data : list Z) : SM3_CTX :=
  let blocks := (List.length data / 64)%nat in
  let '(c, data) :=
    if (blocks =? 0)%nat then (c, data)
    else
      (mk_ctx (sm3_compress_blocks (digest c) data blocks)
         ((nblocks c + Z.of_nat blocks) mod 2 ^ 64) (blk c) (num c), drop (64 * blocks) data) in
  mk_ctx (digest c) (nblocks c)
    (if (List.length data =? 0)%nat then blk c else memcpy_at (blk c) 0 data) (List.length data).

Definition sm3_update (c : SM3_CTX) (data : list Z) : SM3_CTX :=
  let num := (num c mod 64)%nat in
  if (num =? 0)%nat then update_tail (mk_ctx (digest c) (nblocks c) (blk c) num) data
  else
    let left := (64 - num)%nat in
    if (List.length data <? left)%nat then
      mk_ctx (digest c) (nblocks c) (memcpy_at (blk c) num data) (num + List.length data)
    else
      let block := memcpy_at (blk c) num (take left data) in
      update_tail
        (mk_ctx (sm3_compress_blocks (digest c) block 1) ((nblocks c + 1) mod 2 ^ 64) block num)
        (drop left data).

(** The digest's bytes. *)
Definition put_regs (x : regs) : list Z :=
  List.flat_map PUTU32 [rA x; rB x; rC x; rD x; rE x; rF x; rG x; rH x].

Definition sm3_finish (c : SM3_CTX) : list Z :=
  let num := (num c mod 64)%nat in
  let block := memcpy_at (blk c) num [0x80] in
  let '(d, block) :=
    if (num <=? 64 - 9)%nat then
      (digest c, memcpy_at block (num + 1) (List.repeat 0 (64 - num - 9)))
    else
      let block := memcpy_at block (num + 1) (List.repeat 0 (64 - num - 1)) in
      (sm3_compress_blocks (digest c) block 1, memcpy_at block 0 (List.repeat 0 (64 - 8))) in
  let block := memcpy_at block 56 (PUTU32 (Z.shiftr (nblocks c) 23)) in
  let block := memcpy_at block 60
    (PUTU32 ((Z.shiftl (nblocks c) 9 mod 2 ^ 64 + Z.shiftl (Z.of_nat num) 3) mod 2 ^ 64)) in
  put_regs (sm3_compress_blocks d block 1).

Definition sm3_digest (msg : list Z) : list Z := sm3_finish (sm3_update sm3_init msg).

(** ** Specification (GB/T 32905-2016) *)

Definition T (j : nat) : Z := if (j <? 16)%nat then 0x79cc4519 else 0x7a879d8a.

Definition FF (j : nat) (x y z : Z) : Z :=
  if (j <? 16)%nat then Z.lxor (Z.lxor x y) z
  else Z.lor (Z.lor (Z.land x y) (Z.land x z)) (Z.land y z).

Definition GG (j : nat) (x y z : Z) : Z :=
  if (j <? 16)%nat then Z.lxor (Z.lxor x y) z
  else Z.lor (Z.land x y) (Z.land (Z.lnot x) z).

(** One iteration of the compression function. *)
Definition iteration (W : list Z) (x : regs) (j : nat) : regs :=
  let '(mk_regs A B C D E F G H) := x in
  let SS1 := ROL32 (add32 (add32 (ROL32 A 12) E) (ROL32 (T j) (Z.of_nat j mod 32))) 7 in
  let SS2 := Z.lxor SS1 (ROL32 A 12) in
  let TT1 := add32 (add32 (add32 (FF j A B C) D) SS2) (Z.lxor (w_at W j) (w_at W (j + 4))) in
  let TT2 := add32 (add32 (add32 (GG j E F G) H) SS1) (w_at W j) in
  mk_regs TT1 A (ROL32 B 9) C (P0 TT2) E (ROL32 F 19) G.

Definition CF (V : regs) (block : list Z) : regs :=
  xor_regs (List.fold_left (iteration (message_words block)) (List.seq 0 64) V) V.

(** The message, a bit 1, zeros, and the length in bits as 64 bits. *)
Definition pad (m : list Z) : list Z :=
  m ++ [0x80] ++ List.repeat 0 (Z.to_nat ((55 - Z.of_nat (List.length m)) mod 64))
  ++ be_bytes 8 (8 * Z.of_nat (List.length m)).

(** The compression function over the blocks of a message. *)
Fixpoint iterate_blocks (n : nat) (V : regs) (l : list Z) : regs :=
  match n with
  | O => V
  | S n' => iterate_blocks n' (CF V (take 64 l)) (drop 64 l)
  end.

Definition SM3 (m : list Z) : list Z :=
  put_regs (iterate_blocks (List.length (pad m) / 64) (digest sm3_init) (pad m)).

(** ** Lemmas *)

(** The constants of the unrolled rounds are the rotated constants of the
    standard. *)
Lemma K_constants j : (j < 64)%nat -> w_at K j = ROL32 (T j) (Z.of_nat j mod 32).
Proof.
  assert (G : List.forallb (fun j => w_at K j =? ROL32 (T j) (Z.of_nat j mod 32)) (List.seq 0 64) = true)
    by reflexivity.
  rewrite List.forallb_forall in G. intros H. apply Z.eqb_eq, G, List.in_seq. lia.
Qed.

(** The selection by three operations. *)
Lemma GG16_select x y z : GG16 x y z = Z.lor (Z.land x y) (Z.land (Z.lnot x) z).
Proof.
  unfold GG16. apply Z.bits_inj'. intros i Hi. rewrite Z.lxor_spec, Z.lor_spec, !Z.land_spec, Z.lnot_spec, Z.lxor_spec by done.
  now destruct (Z.testbit x i), (Z.testbit y i), (Z.testbit z i).
Qed.

Lemma round_low W j x : (j < 16)%nat -> next_args (R FF00 GG00 W j x) = iteration W x j.
Proof.
  intros H. destruct x as [A B C D E F G HH]. unfold next_args, R, iteration. cbv zeta.
  rewrite (K_constants j) by lia. unfold FF, GG. destruct (Nat.ltb_spec j 16); [reflexivity | lia].
Qed.

Lemma round_high W j x : (16 <= j < 64)%nat -> next_args (R FF16 GG16 W j x) = iteration W x j.
Proof.
  intros H. destruct x as [A B C D E F G HH]. unfold next_args, R, iteration. cbv zeta.
  rewrite (K_constants j) by lia. unfold FF, GG. destruct (Nat.ltb_spec j 16); [lia |].
  now rewrite GG16_select.
Qed.

Lemma R8_iterations f g W j x :
  (forall k y, (j <= k < j + 8)%nat -> next_args (R f g W k y) = iteration W y k) ->
  R8 f g W j x = List.fold_left (iteration W) (List.seq j 8) x.
Proof.
  intros H. unfold R8. cbn [List.seq List.fold_left].
  rewrite !H by lia. repeat f_equal; lia.
Qed.

(** The unrolled rounds with rotating arguments are the 64 iterations. *)
Lemma rounds_iterations W x : rounds W x = List.fold_left (iteration W) (List.seq 0 64) x.
Proof.
  unfold rounds.
  rewrite (R8_iterations FF00 GG00 W 0), (R8_iterations FF00 GG00 W 8) by (intros; apply round_low; lia).
  rewrite (R8_iterations FF16 GG16 W 16), (R8_iterations FF16 GG16 W 24), (R8_iterations FF16 GG16 W 32),
    (R8_iterations FF16 GG16 W 40), (R8_iterations FF16 GG16 W 48), (R8_iterations FF16 GG16 W 56)
    by (intros; apply round_high; lia).
  rewrite <- !List.fold_left_app. reflexivity.
Qed.

Lemma message_words_take l : message_words (take 64 l) = message_words l.
Proof.
  unfold message_words. f_equal. apply List.map_ext_in. intros j Hj%List.in_seq.
  unfold GETU32, nthb.
  assert (G : forall k, (k < 64)%nat -> List.nth k (take 64 l) 0 = List.nth k l 0).
  { intros k Hk. rewrite <- (take_drop 64 l) at 2.
    destruct (Nat.ltb_spec k (List.length (take 64 l))) as [L | L].
    - now rewrite List.app_nth1.
    - rewrite length_take in L. rewrite drop_ge, List.app_nil_r by lia. done. }
  now rewrite !G by lia.
Qed.

Lemma xor_regs_comm x y : xor_regs x y = xor_regs y x.
Proof. unfold xor_regs. f_equal; apply Z.lxor_comm. Qed.

(** [sm3_compress_blocks] iterates the compression function. *)
Lemma compress_blocks_iterate n V l : sm3_compress_blocks V l n = iterate_blocks n V l.
Proof.
  revert V l. induction n as [|n IH]; intros V l; cbn [sm3_compress_blocks iterate_blocks]; [done |].
  rewrite IH. f_equal. unfold CF. rewrite message_words_take, rounds_iterations. apply xor_regs_comm.
Qed.

Lemma iterate_blocks_app a b V x y :
  List.length x = (64 * a)%nat ->
  iterate_blocks (a + b) V (x ++ y) = iterate_blocks b (iterate_blocks a V x) y.
Proof.
  revert V x. induction a as [|a IH]; intros V x H; cbn [Nat.add iterate_blocks].
  - destruct x; [done | discriminate H].
  - rewrite take_app_le, drop_app_le by lia. apply IH. rewrite length_drop. lia.
Qed.

Lemma iterate_blocks_take n V l :
  (64 * n <= List.length l)%nat -> iterate_blocks n V l = iterate_blocks n V (take (64 * n) l).
Proof.
  intros H. rewrite <- (take_drop (64 * n) l) at 1. rewrite <- (Nat.add_0_r n) at 1.
  rewrite iterate_blocks_app; [done |]. rewrite length_take. lia.
Qed.

(** [c] has been fed the message [m]. *)
Record fed (m : list Z) (c : SM3_CTX) : Prop := {
  fed_blk : List.length (blk c) = 64%nat;
  fed_num : (num c < 64)%nat;
  fed_parts : exists q m0, m = m0 ++ take (num c) (blk c) /\ List.length m0 = (64 * q)%nat /\
    nblocks c = Z.of_nat q mod 2 ^ 64 /\ digest c = iterate_blocks q (digest sm3_init) m0
}.

Lemma sm3_update_tail_fed q m0 c d :
  List.length (blk c) = 64%nat -> List.length m0 = (64 * q)%nat ->
  nblocks c = Z.of_nat q mod 2 ^ 64 -> digest c = iterate_blocks q (digest sm3_init) m0 ->
  fed (m0 ++ d) (update_tail c d).
Proof.
  intros Hb Hl Hn Hd. destruct c as [dg nb b k]. cbn [digest nblocks blk num] in *.
  set (n := (List.length d / 64)%nat). pose proof (Nat.div_mod_eq (List.length d) 64) as Hdm. fold n in Hdm.
  pose proof (Nat.mod_upper_bound (List.length d) 64 ltac:(lia)) as Hr.
  set (t := take (64 * n) d). set (r := drop (64 * n) d).
  assert (Ed : d = t ++ r) by (unfold t, r; now rewrite take_drop).
  assert (Lt : List.length t = (64 * n)%nat) by (unfold t; rewrite length_take; lia).
  assert (Lr : List.length r = (List.length d - 64 * n)%nat) by (unfold r; now rewrite length_drop).
  assert (E : update_tail (mk_ctx dg nb b k) d =
    mk_ctx (iterate_blocks n dg t) (Z.of_nat (q + n) mod 2 ^ 64)
      (if (List.length r =? 0)%nat then b else memcpy_at b 0 r) (List.length r)).
  { unfold update_tail. cbn [digest nblocks blk num]. fold n.
    destruct (Nat.eqb_spec n 0) as [E0 | E0]; cbn [digest nblocks blk num].
    - unfold t, r. rewrite E0. change (64 * 0)%nat with 0%nat. rewrite drop_0, Nat.add_0_r, Hn. reflexivity.
    - fold r. rewrite compress_blocks_iterate, (iterate_blocks_take n) by lia. fold t.
      rewrite Hn, Nat2Z.inj_add, Z.add_mod_idemp_l by (apply Z.pow_nonzero; lia). reflexivity. }
  rewrite E. split; cbn [digest nblocks blk num].
  - destruct (Nat.eqb_spec (List.length r) 0); [done |]. rewrite length_memcpy_at; lia.
  - lia.
  - exists (q + n)%nat, (m0 ++ t). rewrite <- List.app_assoc. split; [|split; [|split]].
    + f_equal. rewrite Ed at 1. f_equal. destruct (Nat.eqb_spec (List.length r) 0) as [E0 | E0].
      * apply List.length_zero_iff_nil in E0. now rewrite E0.
      * symmetry. apply (take_memcpy_at b 0 r []); done.
    + rewrite List.length_app. lia.
    + done.
    + rewrite iterate_blocks_app by done. now rewrite Hd.
Qed.

Lemma sm3_update_fed m c d : fed m c -> fed (m ++ d) (sm3_update c d).
Proof.
  intros [Hb Hn (q & m0 & Em & Hl & Hq & Hd)].
  unfold sm3_update. rewrite (Nat.mod_small (num c)) by done.
  destruct (Nat.eqb_spec (num c) 0) as [E0 | E0].
  - rewrite E0 in Em. cbn [take] in Em. rewrite List.app_nil_r in Em. subst m.
    now apply (sm3_update_tail_fed q m0).
  - set (y := take (num c) (blk c)) in *.
    assert (Ly : List.length y = num c) by (unfold y; rewrite length_take; lia).
    destruct (Nat.ltb_spec (List.length d) (64 - num c)) as [Hlt | Hge].
    + split; cbn [digest nblocks blk num]; [rewrite length_memcpy_at; lia | lia |].
      exists q, m0. rewrite (take_memcpy_at _ _ _ y) by done. now rewrite Em, <- List.app_assoc.
    + set (e := take (64 - num c) d).
      assert (Le : List.length e = (64 - num c)%nat) by (unfold e; rewrite length_take; lia).
      rewrite (memcpy_at_full _ _ e y) by (done || lia).
      assert (Lye : List.length (y ++ e) = 64%nat) by (rewrite List.length_app; lia).
      replace (m ++ d) with ((m0 ++ y ++ e) ++ drop (64 - num c) d).
      2: { rewrite Em, <- !List.app_assoc. do 2 f_equal. apply take_drop. }
      apply (sm3_update_tail_fed (q + 1)); cbn [digest nblocks blk num].
      * done.
      * rewrite List.length_app. lia.
      * rewrite Hq, Nat2Z.inj_add, Z.add_mod_idemp_l by (apply Z.pow_nonzero; lia). done.
      * rewrite compress_blocks_iterate, iterate_blocks_app, Hd by done. done.
Qed.

Lemma sm3_updates_fed m c ds : fed m c -> fed (m ++ List.concat ds) (List.fold_left sm3_update ds c).
Proof.
  revert m c. induction ds as [|d ds IH]; intros m c H; cbn [List.concat List.fold_left].
  - now rewrite List.app_nil_r.
  - rewrite List.app_assoc. now apply IH, sm3_update_fed.
Qed.

Lemma init_fed : fed [] sm3_init.
Proof. split; [reflexivity | cbn; lia |]. exists 0%nat, []. done. Qed.

(** Finishing. *)

Lemma length_bytes_stored v : be_bytes 8 v = PUTU32 (Z.shiftr v 32) ++ PUTU32 v.
Proof.
  unfold be_bytes, PUTU32. cbn [le_bytes List.rev List.app]. rewrite !Z.shiftr_shiftr by lia.
  rewrite !Z.shiftr_div_pow2, !Z.div_div by lia. reflexivity.
Qed.

(** Storing the length behind the first 56 bytes. *)
Lemma store_length b y hi lo :
  List.length b = 64%nat -> List.length y = 56%nat -> take 56 b = y ->
  memcpy_at (memcpy_at b 56 (PUTU32 hi)) 60 (PUTU32 lo) = y ++ PUTU32 hi ++ PUTU32 lo.
Proof.
  intros Hb Hl Hy. pose proof (take_memcpy_at b 56 (PUTU32 hi) y Hy Hl) as E.
  rewrite (memcpy_at_full _ 60 (PUTU32 lo) (y ++ PUTU32 hi)).
  - now rewrite <- List.app_assoc.
  - exact E.
  - rewrite List.length_app, Hl. reflexivity.
  - rewrite length_memcpy_at; rewrite Hb; cbn; lia.
Qed.

(** The last block or two, for [y] bytes in the buffer and the two words of
    the length. *)
Lemma finish_blocks c y hi lo :
  List.length (blk c) = 64%nat -> (num c < 64)%nat -> y = take (num c) (blk c) ->
  hi = Z.shiftr (nblocks c) 23 ->
  lo = (Z.shiftl (nblocks c) 9 mod 2 ^ 64 + Z.shiftl (Z.of_nat (num c)) 3) mod 2 ^ 64 ->
  let z := Z.to_nat ((55 - Z.of_nat (List.length y)) mod 64) in
  let l := y ++ [0x80] ++ List.repeat 0 z ++ PUTU32 hi ++ PUTU32 lo in
  exists n, List.length l = (64 * n)%nat /\ sm3_finish c = put_regs (iterate_blocks n (digest c) l).
Proof.
  intros Hb Hn -> -> ->. cbv zeta. set (y := take (num c) (blk c)).
  set (hi := Z.shiftr (nblocks c) 23). set (lo := (_ + _) mod 2 ^ 64).
  assert (Ly : List.length y = num c) by (unfold y; rewrite length_take; lia). rewrite Ly.
  unfold sm3_finish. rewrite (Nat.mod_small (num c)) by done. fold hi lo.
  assert (Lb : List.length (memcpy_at (blk c) (num c) [128]) = 64%nat) by (rewrite length_memcpy_at; cbn; lia).
  pose proof (take_memcpy_at (blk c) (num c) [128] y eq_refl Ly) as E1. cbn [List.length] in E1.
  set (b0 := memcpy_at (blk c) (num c) [128]) in *.
  assert (L1 : List.length (y ++ [128]) = (num c + 1)%nat) by (rewrite List.length_app; cbn; lia).
  destruct (Nat.leb_spec (num c) (64 - 9)) as [Hs | Hs].
  - exists 1%nat. replace (Z.to_nat ((55 - Z.of_nat (num c)) mod 64)) with (64 - num c - 9)%nat
      by (rewrite Z.mod_small; lia).
    rewrite (store_length _ ((y ++ [128]) ++ List.repeat 0 (64 - num c - 9)) hi lo).
    + rewrite <- !List.app_assoc. split; [|now rewrite compress_blocks_iterate].
      rewrite !List.length_app, List.repeat_length, Ly. cbn. lia.
    + rewrite length_memcpy_at; rewrite ?List.repeat_length; lia.
    + rewrite List.length_app, List.repeat_length, L1. lia.
    + pose proof (take_memcpy_at b0 (num c + 1) (List.repeat 0 (64 - num c - 9)) _ E1 L1) as G.
      rewrite List.repeat_length in G. rewrite <- G. f_equal. lia.
  - exists 2%nat. set (z1 := List.repeat 0 (64 - num c - 1)). set (z2 := List.repeat 0 56).
    assert (Lz1 : List.length z1 = (64 - num c - 1)%nat) by apply List.repeat_length.
    rewrite (memcpy_at_full b0 (num c + 1) z1 (y ++ [128])) by (done || lia).
    set (b1 := (y ++ [128]) ++ z1).
    assert (Lb1 : List.length b1 = 64%nat) by (unfold b1; rewrite List.length_app, L1; lia).
    rewrite (store_length _ z2 hi lo).
    + replace (Z.to_nat ((55 - Z.of_nat (num c)) mod 64)) with (64 - num c - 1 + 56)%nat.
      2: { rewrite <- (Z.mod_add _ 1), Z.mod_small; lia. }
      rewrite List.repeat_app. fold z1 z2.
      replace (y ++ [128] ++ (z1 ++ z2) ++ PUTU32 hi ++ PUTU32 lo) with (b1 ++ z2 ++ PUTU32 hi ++ PUTU32 lo)
        by (unfold b1; now rewrite <- !List.app_assoc).
      split; [rewrite !List.length_app, Lb1; reflexivity |].
      rewrite !compress_blocks_iterate. change 2%nat with (1 + 1)%nat. now rewrite iterate_blocks_app.
    + rewrite length_memcpy_at; [done | rewrite Lb1; cbn; lia].
    + reflexivity.
    + apply (take_memcpy_at b1 0 z2 []); reflexivity.
Qed.

(** What [sm3_finish] writes is the digest of the message fed. *)
Lemma finish_fed m c : 8 * Z.of_nat (List.length m) < 2 ^ 64 -> fed m c -> sm3_finish c = SM3 m.
Proof.
  intros Hm [Hb Hn (q & m0 & Em & Hl & Hq & Hd)]. change (2 ^ 64) with 18446744073709551616 in *.
  set (y := take (num c) (blk c)) in *.
  assert (Ly : List.length y = num c) by (unfold y; rewrite length_take; lia).
  assert (Lm : List.length m = (64 * q + num c)%nat) by (rewrite Em, List.length_app; lia).
  rewrite Z.mod_small in Hq by lia.
  destruct (finish_blocks c y (Z.shiftr (nblocks c) 23)
    ((Z.shiftl (nblocks c) 9 mod 2 ^ 64 + Z.shiftl (Z.of_nat (num c)) 3) mod 2 ^ 64)) as (n & Ln & E); try done.
  assert (El : Z.shiftl (nblocks c) 9 mod 2 ^ 64 + Z.shiftl (Z.of_nat (num c)) 3 = 8 * Z.of_nat (List.length m)).
  { rewrite !Z.shiftl_mul_pow2, Hq by lia. change (2 ^ 64) with 18446744073709551616.
    change (2 ^ 9) with 512. change (2 ^ 3) with 8. rewrite Z.mod_small; lia. }
  assert (Ep : pad m = m0 ++ y ++ [128] ++ List.repeat 0 (Z.to_nat ((55 - Z.of_nat (List.length y)) mod 64)) ++
    PUTU32 (Z.shiftr (nblocks c) 23) ++
    PUTU32 ((Z.shiftl (nblocks c) 9 mod 2 ^ 64 + Z.shiftl (Z.of_nat (num c)) 3) mod 2 ^ 64)).
  { unfold pad. rewrite El, (Z.mod_small (8 * Z.of_nat (List.length m)) (2 ^ 64)), length_bytes_stored by (change (2 ^ 64) with 18446744073709551616; lia).
    rewrite Em at 1. rewrite <- !List.app_assoc. do 4 f_equal.
    - f_equal. f_equal. rewrite Lm, Ly. replace (55 - Z.of_nat (num c)) with (55 - Z.of_nat (64 * q + num c) + Z.of_nat q * 64) by lia.
      now rewrite Z.mod_add.
    - f_equal. f_equal. rewrite Hq, !Z.shiftr_div_pow2, Lm by lia. change (2 ^ 32) with (512 * 2 ^ 23).
      rewrite <- Z.div_div by lia. f_equal. symmetry. apply (Z.div_unique _ _ _ (8 * Z.of_nat (num c))); lia. }
  unfold SM3. rewrite Ep, List.length_app, Hl, Ln.
  replace ((64 * q + 64 * n) / 64)%nat with (q + n)%nat
    by (rewrite <- Nat.mul_add_distr_l, Nat.mul_comm, Nat.div_mul; lia).
  now rewrite iterate_blocks_app, <- Hd by done.
Qed.

(** ** Properties *)

(** C31: Hashing a message in any number of pieces of any sizes, or at once, gives
    the digest the standard defines: the compression function, iterated over
    the blocks of the padded message, for messages of less than 2^64 bits. *)
Theorem sm3_stream ds :
  8 * Z.of_nat (List.length (List.concat ds)) < 2 ^ 64 ->
  sm3_finish (List.fold_left sm3_update ds sm3_init) = SM3 (List.concat ds) /\
  sm3_digest (List.concat ds) = SM3 (List.concat ds).
Proof.
  intros H. split.
  - apply finish_fed; [done |]. exact (sm3_updates_fed [] sm3_init ds init_fed).
  - apply finish_fed; [done |]. exact (sm3_update_fed [] sm3_init (List.concat ds) init_fed).
Qed.

(** The unrolled compression, with its table of rotated constants and its
    rotating arguments, is the standard's, block after block. *)
Theorem sm3_compress_blocks_exact n V l :
  sm3_compress_blocks V l n = iterate_blocks n V l.
Proof. apply compress_blocks_iterate. Qed.

(** The standard's example, in two pieces. *)
Lemma sm3_stream_witness :
  8 * Z.of_nat (List.length (List.concat [str "a"; str "bc"])) < 2 ^ 64 /\
  sm3_finish (List.fold_left sm3_update [str "a"; str "bc"] sm3_init) = SM3 (str "abc").
Proof.
  assert (H : 8 * Z.of_nat (List.length (List.concat [str "a"; str "bc"])) < 2 ^ 64) by reflexivity.
  split; [exact H |]. exact (proj1 (sm3_stream [str "a"; str "bc"] H)).
Defined.

Example sm3_abc :
  horner 256 (sm3_digest (str "abc")) = 0x66c7f0f462eeedd9d1f2d46bdc10e4e24167c4875cf2f7a2297da02b8f4ba8e0.
Proof. vm_compute. reflexivity. Qed.

End Sm3.
