(* ===== verification/NgxStore.v ===== *)
(** Linked structures in memory.

    A store maps addresses to the structs of one type, beside the global
    variables the code uses.  A program is a function of the store that may
    fail: reading or writing through an address that holds no struct (a NULL
    or dangling pointer) has no result, and neither has a loop that runs out
    of fuel, so that a theorem which gives a program's result shows that it
    ends and dereferences valid pointers only. *)
From S2P Require Export Prelude.
From stdpp Require Export base list gmap sorting.

#[global] Open Scope Z_scope.

#[export] Set Warnings "-clear-no-such-hyp,-level-tolerance".

Record store (N G : Type) := mk_store { cells : gmap Z N; glob : G }.
Arguments mk_store {N G} cells glob.
Arguments cells {N G} _.
Arguments glob {N G} _.

Definition prog (N G A : Type) : Type := store N G -> option (A * store N G).

#[export] Instance prog_ret {N G} : MRet (prog N G) := fun A x s => Some (x, s).

#[export] Instance prog_bind {N G} : MBind (prog N G) := fun A B f m s =>
  match m s with
  | Some (x, s') => f x s'
  | None => None
  end.

(** [p->field] *)
Definition ld {N G A} (field : N -> A) (p : Z) : prog N G A := fun s =>
  match cells s !! p with
  | Some n => Some (field n, s)
  | None => None
  end.

(** [p->field = v], with the field's setter. *)
Definition st {N G} (f : N -> N) (p : Z) : prog N G unit := fun s =>
  match cells s !! p with
  | Some _ => Some (tt, mk_store (alter f p (cells s)) (glob s))
  | None => None
  end.

Definition get {N G} : prog N G G := fun s => Some (glob s, s).

Definition put {N G} (g : G) : prog N G unit := fun s => Some (tt, mk_store (cells s) g).

(** How many structs there are: more than a walk that never meets the same
    struct twice can visit. *)
Definition room {N G} : prog N G nat := fun s => Some (S (size (cells s)), s).

Definition out_of_fuel {N G A} : prog N G A := fun _ => None.

(** ** Running a program step by step *)

Section Steps.
Context {N G : Type}.

Lemma run_ld {A B} (field : N -> A) p (f : A -> prog N G B) s n :
  cells s !! p = Some n -> (x ← ld field p; f x) s = f (field n) s.
Proof. unfold mbind, prog_bind, ld. now intros ->. Qed.

Lemma run_st {B} (g : N -> N) p (k : prog N G B) s n :
  cells s !! p = Some n -> (st g p;; k) s = k (mk_store (alter g p (cells s)) (glob s)).
Proof. unfold mbind, prog_bind, st. now intros ->. Qed.

Lemma run_st_last (g : N -> N) p (s : store N G) n :
  cells s !! p = Some n -> st g p s = Some (tt, mk_store (alter g p (cells s)) (glob s)).
Proof. unfold st. now intros ->. Qed.

Lemma run_bind {A B} (m : prog N G A) (f : A -> prog N G B) s x s' :
  m s = Some (x, s') -> (y ← m; f y) s = f x s'.
Proof. unfold mbind, prog_bind. now intros ->. Qed.

Lemma run_get {B} (f : G -> prog N G B) s : (x ← get; f x) s = f (glob s) s.
Proof. done. Qed.

Lemma run_put {B} g (k : prog N G B) s : (put g;; k) s = k (mk_store (cells s) g).
Proof. done. Qed.

Lemma run_room {B} (f : nat -> prog N G B) s : (x ← room; f x) s = f (S (size (cells s))) s.
Proof. done. Qed.

Lemma run_ret {A B} (x : A) (f : A -> prog N G B) s : (y ← mret x; f y) s = f x s.
Proof. done. Qed.

Lemma run_assoc {A B C} (m : prog N G A) (f : A -> prog N G B) (g : B -> prog N G C) s :
  (y ← (x ← m; f x); g y) s = (x ← m; y ← f x; g y) s.
Proof. unfold mbind, prog_bind. now destruct (m s) as [[x s'] |]. Qed.

Lemma run_if {A B} (P : Prop) `{Decision P} (m m' : prog N G A) (f : A -> prog N G B) s :
  (y ← (if decide P then m else m'); f y) s =
  if decide P then (y ← m; f y) s else (y ← m'; f y) s.
Proof. now destruct (decide P). Qed.

End Steps.

(** One step of the program on the left of the goal's equation, from what is
    known of the store. *)
Ltac prog_step :=
  match goal with
  | |- context [(mbind (fun x => @?f x) (mret ?v)) ?s] => rewrite (run_ret v)
  | |- context [mbind _ get _] => rewrite run_get; cbn [glob]
  | |- context [mbind _ room _] => rewrite run_room; cbn [cells]
  | |- context [mbind _ (put _) _] => rewrite run_put; cbn [cells]
  | |- context [mbind _ (mbind _ _) _] => rewrite run_assoc
  | |- context [mbind _ (ld _ ?p) ?s] =>
      erewrite (run_ld _ p _ s) by (cbn [cells]; simplify_map_eq; reflexivity)
  | |- context [mbind _ (st _ ?p) ?s] =>
      erewrite (run_st _ p _ s) by (cbn [cells]; simplify_map_eq; reflexivity); cbn [cells glob]
  end.

(** ** Programs allocate and free nothing *)

Definition keeps {N G A} (m : prog N G A) : Prop :=
  forall s x s', m s = Some (x, s') -> dom (cells s') = dom (cells s).

Section Keeps.
Context {N G : Type}.

Lemma keeps_ret {A} (x : A) : keeps (mret x : prog N G A).
Proof. intros s y s'. now injection 1 as <- <-. Qed.

Lemma keeps_bind {A B} (m : prog N G A) (f : A -> prog N G B) :
  keeps m -> (forall x, keeps (f x)) -> keeps (x ← m; f x).
Proof.
  intros Hm Hf s y s'. unfold mbind, prog_bind. destruct (m s) as [[x s1]|] eqn:E; [| done].
  intros H. rewrite (Hf x _ _ _ H). exact (Hm _ _ _ E).
Qed.

Lemma keeps_ld {A} (field : N -> A) p : keeps (ld field p : prog N G A).
Proof. intros s x s'. unfold ld. destruct (cells s !! p); [| done]. now injection 1 as <- <-. Qed.

Lemma keeps_st (f : N -> N) p : keeps (st f p : prog N G unit).
Proof.
  intros s x s'. unfold st. destruct (cells s !! p); [| done]. injection 1 as <- <-. apply dom_alter_L.
Qed.

Lemma keeps_get : keeps (get : prog N G G).
Proof. intros s x s'. now injection 1 as <- <-. Qed.

Lemma keeps_put g : keeps (put g : prog N G unit).
Proof. intros s x s'. now injection 1 as <- <-. Qed.

Lemma keeps_room : keeps (room : prog N G nat).
Proof. intros s x s'. now injection 1 as <- <-. Qed.

Lemma keeps_out_of_fuel {A} : keeps (out_of_fuel : prog N G A).
Proof. done. Qed.

Lemma keeps_if {A} (P : Prop) `{Decision P} (m m' : prog N G A) :
  keeps m -> keeps m' -> keeps (if decide P then m else m').
Proof. now destruct (decide P). Qed.

Lemma keeps_if_bool {A} (b : bool) (m m' : prog N G A) :
  keeps m -> keeps m' -> keeps (if b then m else m').
Proof. now destruct b. Qed.
End Keeps.

Create HintDb keeps discriminated.
#[export] Hint Resolve keeps_ret keeps_bind keeps_ld keeps_st keeps_get keeps_put keeps_room
  keeps_out_of_fuel keeps_if keeps_if_bool : keeps.
