(* ===== verification/NgxRbtree.v ===== *)
(** The red-black tree of the core (core/ngx_rbtree.c, core/ngx_rbtree.h) as
    the pointer structure it is: nodes with parent pointers in a store, a
    root pointer, and a sentinel that stands for every absent child. *)
From S2P Require Export NgxStore.

(** ** Data *)

Record ngx_rbtree_node_t := mk_node {
  rb_key : Z; rb_left : Z; rb_right : Z; rb_parent : Z; rb_color : Z; rb_data : Z }.

Definition set_key v n := mk_node v (rb_left n) (rb_right n) (rb_parent n) (rb_color n) (rb_data n).
Definition set_left v n := mk_node (rb_key n) v (rb_right n) (rb_parent n) (rb_color n) (rb_data n).
Definition set_right v n := mk_node (rb_key n) (rb_left n) v (rb_parent n) (rb_color n) (rb_data n).
Definition set_parent v n := mk_node (rb_key n) (rb_left n) (rb_right n) v (rb_color n) (rb_data n).
Definition set_color v n := mk_node (rb_key n) (rb_left n) (rb_right n) (rb_parent n) v (rb_data n).

(** Programs over nodes, the one variable being the tree's [root] field. *)
Abbreviation rbprog := (prog ngx_rbtree_node_t Z).

(** The address of one of the two child fields, [&temp->left] or
    [&temp->right]. *)
Inductive side := L | R.

Definition opp (d : side) : side := match d with L => R | R => L end.

Definition child (d : side) (n : ngx_rbtree_node_t) : Z :=
  match d with L => rb_left n | R => rb_right n end.

Definition set_child (d : side) (v : Z) (n : ngx_rbtree_node_t) : ngx_rbtree_node_t :=
  match d with L => set_left v n | R => set_right v n end.

Definition ngx_rbt_red (p : Z) : rbprog unit := st (set_color 1) p.
Definition ngx_rbt_black (p : Z) : rbprog unit := st (set_color 0) p.
Definition ngx_rbt_is_red (p : Z) : rbprog bool := c ← ld rb_color p; mret (negb (c =? 0)).
Definition ngx_rbt_is_black (p : Z) : rbprog bool := r ← ngx_rbt_is_red p; mret (negb r).
Definition ngx_rbt_copy_color (n1 n2 : Z) : rbprog unit := c ← ld rb_color n2; st (set_color c) n1.

(** The signed reading of [ngx_rbtree_key_t], a 64-bit word. *)
Definition key_int (z : Z) : Z := if z <? 2 ^ 63 then z else z - 2 ^ 64.

(** ** Operations *)

Section Tree.
Variable sentinel : Z.

(** [ngx_rbtree_init]: the sentinel is black and the root is the sentinel. *)
Definition ngx_rbtree_init : rbprog unit :=
  ngx_rbt_black sentinel;;
  put sentinel.

Fixpoint rbtree_min (fuel : nat) (node : Z) : rbprog Z :=
  match fuel with
  | O => out_of_fuel
  | S fuel' =>
      l ← ld rb_left node;
      if decide (l = sentinel) then mret node else rbtree_min fuel' l
  end.

Definition ngx_rbtree_min (node : Z) : rbprog Z := fuel ← room; rbtree_min fuel node.

Definition ngx_rbtree_left_rotate (node : Z) : rbprog unit :=
  temp ← ld rb_right node;
  tl ← ld rb_left temp;
  st (set_right tl) node;;
  tl ← ld rb_left temp;
  (if decide (tl = sentinel) then mret tt else
     tl ← ld rb_left temp;
     st (set_parent node) tl);;
  np ← ld rb_parent node;
  st (set_parent np) temp;;
  root ← get;
  (if decide (node = root) then put temp
   else
     np ← ld rb_parent node;
     l ← ld rb_left np;
     if decide (node = l) then st (set_left temp) np
     else st (set_right temp) np);;
  st (set_left node) temp;;
  st (set_parent temp) node.

Definition ngx_rbtree_right_rotate (node : Z) : rbprog unit :=
  temp ← ld rb_left node;
  tr ← ld rb_right temp;
  st (set_left tr) node;;
  tr ← ld rb_right temp;
  (if decide (tr = sentinel) then mret tt else
     tr ← ld rb_right temp;
     st (set_parent node) tr);;
  np ← ld rb_parent node;
  st (set_parent np) temp;;
  root ← get;
  (if decide (node = root) then put temp
   else
     np ← ld rb_parent node;
     r ← ld rb_right np;
     if decide (node = r) then st (set_right temp) np
     else st (set_left temp) np);;
  st (set_right node) temp;;
  st (set_parent temp) node.

(** The walk of [ngx_rbtree_insert_value] and its siblings, which differ in
    the comparison of the new node with the one it is held against:
    [before x y] holds when [x] goes to the left of [y].  A node is given as
    its address and key. *)
Fixpoint insert_by (before : Z * Z -> Z * Z -> bool) (fuel : nat) (temp node : Z) : rbprog unit :=
  match fuel with
  | O => out_of_fuel
  | S fuel' =>
      nk ← ld rb_key node;
      tk ← ld rb_key temp;
      let p := if before (node, nk) (temp, tk) then L else R in
      c ← ld (child p) temp;
      if decide (c = sentinel) then
        st (set_child p node) temp;;
        st (set_parent temp) node;;
        st (set_left sentinel) node;;
        st (set_right sentinel) node;;
        ngx_rbt_red node
      else insert_by before fuel' c node
  end.

(** [node->key < temp->key] *)
Definition before_value (x y : Z * Z) : bool := x.2 <? y.2.

(** [(ngx_rbtree_key_int_t) (node->key - temp->key) < 0] *)
Definition before_timer (x y : Z * Z) : bool := key_int (u64 (x.2 - y.2)) <? 0.

Definition ngx_rbtree_insert_value (temp node : Z) : rbprog unit :=
  fuel ← room; insert_by before_value fuel temp node.

Definition ngx_rbtree_insert_timer_value (temp node : Z) : rbprog unit :=
  fuel ← room; insert_by before_timer fuel temp node.

(** One iteration of the loop that re-balances after an insertion, and the
    node the next one looks at. *)
Definition insert_rebalance_left (node : Z) : rbprog Z :=
  np ← ld rb_parent node;
  npp ← ld rb_parent np;
  temp ← ld rb_right npp;
  red ← ngx_rbt_is_red temp;
  if (red : bool) then
    ngx_rbt_black np;;
    ngx_rbt_black temp;;
    ngx_rbt_red npp;;
    mret npp
  else
    r ← ld rb_right np;
    node ← (if decide (node = r) then
              ngx_rbtree_left_rotate np;; mret np
            else mret node);
    np ← ld rb_parent node;
    ngx_rbt_black np;;
    npp ← ld rb_parent np;
    ngx_rbt_red npp;;
    ngx_rbtree_right_rotate npp;;
    mret node.

Definition insert_rebalance_right (node : Z) : rbprog Z :=
  np ← ld rb_parent node;
  npp ← ld rb_parent np;
  temp ← ld rb_left npp;
  red ← ngx_rbt_is_red temp;
  if (red : bool) then
    ngx_rbt_black np;;
    ngx_rbt_black temp;;
    ngx_rbt_red npp;;
    mret npp
  else
    l ← ld rb_left np;
    node ← (if decide (node = l) then
              ngx_rbtree_right_rotate np;; mret np
            else mret node);
    np ← ld rb_parent node;
    ngx_rbt_black np;;
    npp ← ld rb_parent np;
    ngx_rbt_red npp;;
    ngx_rbtree_left_rotate npp;;
    mret node.

Fixpoint insert_rebalance (fuel : nat) (node : Z) : rbprog unit :=
  match fuel with
  | O => out_of_fuel
  | S fuel' =>
      root ← get;
      if decide (node = root) then mret tt else
      np ← ld rb_parent node;
      red ← ngx_rbt_is_red np;
      if (red : bool) then
        npp ← ld rb_parent np;
        l ← ld rb_left npp;
        node ← (if decide (np = l) then insert_rebalance_left node else insert_rebalance_right node);
        insert_rebalance fuel' node
      else mret tt
  end.

(** [tree->insert] is an argument. *)
Definition ngx_rbtree_insert (insert : Z -> Z -> rbprog unit) (node : Z) : rbprog unit :=
  root ← get;
  if decide (root = sentinel) then
    st (set_parent NULL) node;;
    st (set_left sentinel) node;;
    st (set_right sentinel) node;;
    ngx_rbt_black node;;
    put node
  else
    insert root node;;
    fuel ← room;
    insert_rebalance fuel node;;
    root ← get;
    ngx_rbt_black root.

(** "DEBUG stuff" *)
Definition forget_node (node : Z) : rbprog unit :=
  st (set_left NULL) node;;
  st (set_right NULL) node;;
  st (set_parent NULL) node;;
  st (set_key 0) node.

(** The binary tree delete: the node that leaves its place, and the child that
    takes the place. *)
Definition delete_subst (node : Z) : rbprog (Z * Z) :=
  l ← ld rb_left node;
  r ← ld rb_right node;
  if decide (l = sentinel) then mret (node, r)
  else if decide (r = sentinel) then mret (node, l)
  else
    subst ← ngx_rbtree_min r;
    temp ← ld rb_right subst;
    mret (subst, temp).

(** [subst] takes the place of [node], whose children and colour it gets. *)
Definition delete_replace (node subst temp : Z) : rbprog unit :=
  sp ← ld rb_parent subst;
  (if decide (sp = node) then st (set_parent subst) temp
   else sp ← ld rb_parent subst; st (set_parent sp) temp);;
  nl ← ld rb_left node;
  st (set_left nl) subst;;
  nr ← ld rb_right node;
  st (set_right nr) subst;;
  np ← ld rb_parent node;
  st (set_parent np) subst;;
  ngx_rbt_copy_color subst node;;
  root ← get;
  (if decide (node = root) then put subst
   else
     np ← ld rb_parent node;
     l ← ld rb_left np;
     if decide (node = l) then st (set_left subst) np
     else st (set_right subst) np);;
  sl ← ld rb_left subst;
  (if decide (sl = sentinel) then mret tt else st (set_parent subst) sl);;
  sr ← ld rb_right subst;
  if decide (sr = sentinel) then mret tt else st (set_parent subst) sr.

(** One iteration of the loop that re-balances after a deletion. *)
Definition delete_fixup_left (temp : Z) : rbprog Z :=
  tp ← ld rb_parent temp;
  w ← ld rb_right tp;
  red ← ngx_rbt_is_red w;
  w ← (if (red : bool) then
         ngx_rbt_black w;;
         tp ← ld rb_parent temp;
         ngx_rbt_red tp;;
         tp ← ld rb_parent temp;
         ngx_rbtree_left_rotate tp;;
         tp ← ld rb_parent temp;
         ld rb_right tp
       else mret w);
  wl ← ld rb_left w;
  bl ← ngx_rbt_is_black wl;
  wr ← ld rb_right w;
  br ← ngx_rbt_is_black wr;
  if (bl && br : bool) then
    ngx_rbt_red w;;
    ld rb_parent temp
  else
    w ← (if (br : bool) then
           wl ← ld rb_left w;
           ngx_rbt_black wl;;
           ngx_rbt_red w;;
           ngx_rbtree_right_rotate w;;
           tp ← ld rb_parent temp;
           ld rb_right tp
         else mret w);
    tp ← ld rb_parent temp;
    ngx_rbt_copy_color w tp;;
    tp ← ld rb_parent temp;
    ngx_rbt_black tp;;
    wr ← ld rb_right w;
    ngx_rbt_black wr;;
    tp ← ld rb_parent temp;
    ngx_rbtree_left_rotate tp;;
    get.

Definition delete_fixup_right (temp : Z) : rbprog Z :=
  tp ← ld rb_parent temp;
  w ← ld rb_left tp;
  red ← ngx_rbt_is_red w;
  w ← (if (red : bool) then
         ngx_rbt_black w;;
         tp ← ld rb_parent temp;
         ngx_rbt_red tp;;
         tp ← ld rb_parent temp;
         ngx_rbtree_right_rotate tp;;
         tp ← ld rb_parent temp;
         ld rb_left tp
       else mret w);
  wl ← ld rb_left w;
  bl ← ngx_rbt_is_black wl;
  wr ← ld rb_right w;
  br ← ngx_rbt_is_black wr;
  if (bl && br : bool) then
    ngx_rbt_red w;;
    ld rb_parent temp
  else
    w ← (if (bl : bool) then
           wr ← ld rb_right w;
           ngx_rbt_black wr;;
           ngx_rbt_red w;;
           ngx_rbtree_left_rotate w;;
           tp ← ld rb_parent temp;
           ld rb_left tp
         else mret w);
    tp ← ld rb_parent temp;
    ngx_rbt_copy_color w tp;;
    tp ← ld rb_parent temp;
    ngx_rbt_black tp;;
    wl ← ld rb_left w;
    ngx_rbt_black wl;;
    tp ← ld rb_parent temp;
    ngx_rbtree_right_rotate tp;;
    get.

Fixpoint delete_fixup (fuel : nat) (temp : Z) : rbprog unit :=
  match fuel with
  | O => out_of_fuel
  | S fuel' =>
      root ← get;
      black ← ngx_rbt_is_black temp;
      if (bool_decide (temp <> root) && black : bool) then
        tp ← ld rb_parent temp;
        l ← ld rb_left tp;
        temp ← (if decide (temp = l) then delete_fixup_left temp else delete_fixup_right temp);
        delete_fixup fuel' temp
      else ngx_rbt_black temp
  end.

Definition ngx_rbtree_delete (node : Z) : rbprog unit :=
  '(subst, temp) ← delete_subst node;
  root ← get;
  if decide (subst = root) then
    put temp;;
    ngx_rbt_black temp;;
    forget_node node
  else
    red ← ngx_rbt_is_red subst;
    sp ← ld rb_parent subst;
    l ← ld rb_left sp;
    (if decide (subst = l) then st (set_left temp) sp else st (set_right temp) sp);;
    (if decide (subst = node) then
       sp ← ld rb_parent subst;
       st (set_parent sp) temp
     else delete_replace node subst temp);;
    forget_node node;;
    if (red : bool) then mret tt
    else
      fuel ← room;
      delete_fixup fuel temp.

Fixpoint next_up (fuel : nat) (root node : Z) : rbprog Z :=
  match fuel with
  | O => out_of_fuel
  | S fuel' =>
      parent ← ld rb_parent node;
      if decide (node = root) then mret NULL else
      l ← ld rb_left parent;
      if decide (node = l) then mret parent else next_up fuel' root parent
  end.

Definition ngx_rbtree_next (node : Z) : rbprog Z :=
  r ← ld rb_right node;
  if decide (r = sentinel) then
    root ← get;
    fuel ← room;
    next_up fuel root node
  else
    r ← ld rb_right node;
    ngx_rbtree_min r.

End Tree.
