(* ===== verification/RbTree.v ===== *)
(** What a red-black tree in the store represents: the tree of addresses,
    keys and colours, the red-black conditions on it, and a position in it
    (a subtree with its context), at which the operations work. *)
From S2P Require Export NgxRbtree.

(** ** Trees and contexts *)

(** [T c l p k r] is the node at address [p] with key [k], red when [c]. *)
Inductive tree :=
| E
| T (c : bool) (l : tree) (p k : Z) (r : tree).

(** [node_of d c t p k t'] has [t] on the side [d] and [t'] on the other. *)
Definition node_of (d : side) (c : bool) (t : tree) (p k : Z) (t' : tree) : tree :=
  match d with L => T c t p k t' | R => T c t' p k t end.

(** The nodes, as address and key, in order. *)
Fixpoint elems (t : tree) : list (Z * Z) :=
  match t with
  | E => []
  | T _ l p k r => elems l ++ (p, k) :: elems r
  end.

(** The parent of a hole, on which side the hole is, and its sibling. *)
Inductive frame := F (d : side) (c : bool) (p k : Z) (sib : tree).

Definition ctx := list frame.

Fixpoint plug (C : ctx) (t : tree) : tree :=
  match C with
  | [] => t
  | F d c p k sib :: C' => plug C' (node_of d c t p k sib)
  end.

(** The nodes before and after the hole. *)
Fixpoint before_hole (C : ctx) : list (Z * Z) :=
  match C with
  | [] => []
  | F L _ _ _ _ :: C' => before_hole C'
  | F R _ p k sib :: C' => before_hole C' ++ elems sib ++ [(p, k)]
  end.

Fixpoint after_hole (C : ctx) : list (Z * Z) :=
  match C with
  | [] => []
  | F L _ p k sib :: C' => (p, k) :: elems sib ++ after_hole C'
  | F R _ _ _ _ :: C' => after_hole C'
  end.

Definition addrs (t : tree) : list Z := (elems t).*1.

Definition ctx_addrs (C : ctx) : list Z := (before_hole C ++ after_hole C).*1.

(** ** The red-black conditions *)

(** [is_rb c n t]: the root is red iff [c], no red node has a red child, and
    [n] black nodes are on every path down. *)
Inductive is_rb : bool -> nat -> tree -> Prop :=
| rb_E : is_rb false 0 E
| rb_red n l p k r : is_rb false n l -> is_rb false n r -> is_rb true n (T true l p k r)
| rb_black cl cr n l p k r : is_rb cl n l -> is_rb cr n r -> is_rb false (S n) (T false l p k r).

(** A tree at rest also has a black root. *)
Definition red_black (t : tree) : Prop := exists n, is_rb false n t.

(** [hole_rb c n C]: a tree of black height [n] whose root is black, or red
    when [c], completes [C] to a red-black tree. *)
Inductive hole_rb : bool -> nat -> ctx -> Prop :=
| hole_top n : hole_rb false n []
| hole_red n d p k sib C :
    is_rb false n sib -> hole_rb true n C -> hole_rb false n (F d true p k sib :: C)
| hole_black c c' n d p k sib C :
    is_rb c' n sib -> hole_rb false (S n) C -> hole_rb c n (F d false p k sib :: C).

Definition blacken (t : tree) : tree :=
  match t with E => E | T _ l p k r => T false l p k r end.

Definition is_red_root (t : tree) : bool := match t with E => false | T c _ _ _ _ => c end.

(** ** Representation *)

Section Rep.
Variable sentinel : Z.

Definition addr (t : tree) : Z := match t with E => sentinel | T _ _ p _ _ => p end.

(** The node at [p] has the given fields; its [data] is not the tree's. *)
Definition node_at (h : gmap Z ngx_rbtree_node_t) (p k : Z) (c : bool) (l r par : Z) : Prop :=
  exists d, h !! p = Some (mk_node k l r par (if c then 1 else 0) d).

Fixpoint rep (h : gmap Z ngx_rbtree_node_t) (par : Z) (t : tree) : Prop :=
  match t with
  | E => True
  | T c l p k r => node_at h p k c (addr l) (addr r) par /\ rep h p l /\ rep h p r
  end.

(** [up] is the root's parent field, which the code leaves unspecified. *)
Definition top (up : Z) (C : ctx) : Z :=
  match C with [] => up | F _ _ p _ _ :: _ => p end.

Fixpoint rep_ctx (h : gmap Z ngx_rbtree_node_t) (root up : Z) (C : ctx) (hole : Z) : Prop :=
  match C with
  | [] => root = hole
  | F d c p k sib :: C' =>
      match d with
      | L => node_at h p k c hole (addr sib) (top up C')
      | R => node_at h p k c (addr sib) hole (top up C')
      end /\ rep h p sib /\ rep_ctx h root up C' p
  end.

(** The sentinel is black; [sp] is its parent field. *)
Definition sentinel_at (h : gmap Z ngx_rbtree_node_t) (sp : Z) : Prop :=
  exists k l r d, h !! sentinel = Some (mk_node k l r sp 0 d).

Definition fresh_all (l : list (Z * Z)) : Prop := NoDup (sentinel :: NULL :: l.*1).

(** The store holds the tree [plug C t], and we are at [t]. *)
Record at_pos (s : store ngx_rbtree_node_t Z) (up sp : Z) (C : ctx) (t : tree) : Prop := {
  pos_ctx : rep_ctx (cells s) (glob s) up C (addr t);
  pos_tree : rep (cells s) (top up C) t;
  pos_sentinel : sentinel_at (cells s) sp;
  pos_null : cells s !! NULL = None;
  pos_fresh : fresh_all (elems (plug C t)) }.

(** The store holds the tree [t]. *)
Definition holds_tree (s : store ngx_rbtree_node_t Z) (t : tree) : Prop :=
  exists up sp, at_pos s up sp [] t.

End Rep.

(** ** Lists of nodes *)

Lemma elems_node_of d c a p k b :
  elems (node_of d c a p k b) =
  match d with L => elems a ++ (p, k) :: elems b | R => elems b ++ (p, k) :: elems a end.
Proof. now destruct d. Qed.

Lemma elems_plug C t : elems (plug C t) = before_hole C ++ elems t ++ after_hole C.
Proof.
  revert t. induction C as [|[d c p k sib] C IH]; intros t; cbn [plug before_hole after_hole].
  - now rewrite app_nil_r.
  - rewrite IH, elems_node_of. destruct d; cbn; now rewrite <- !app_assoc.
Qed.

Lemma elem_of_addrs_node x d c a p k b :
  x ∈ addrs (node_of d c a p k b) <-> x = p \/ x ∈ addrs a \/ x ∈ addrs b.
Proof. unfold addrs. rewrite elems_node_of. destruct d; rewrite fmap_app, fmap_cons, elem_of_app, elem_of_cons; tauto. Qed.

Lemma elem_of_ctx_addrs x d c p k sib C :
  x ∈ ctx_addrs (F d c p k sib :: C) <-> x = p \/ x ∈ addrs sib \/ x ∈ ctx_addrs C.
Proof. unfold ctx_addrs, addrs. destruct d; cbn; rewrite ?fmap_app, ?fmap_cons, ?fmap_app, ?elem_of_app, ?elem_of_cons, ?elem_of_app, ?elem_of_nil; tauto. Qed.

Lemma elem_of_addrs_plug x C t : x ∈ addrs (plug C t) <-> x ∈ ctx_addrs C \/ x ∈ addrs t.
Proof. unfold ctx_addrs, addrs. rewrite elems_plug, !fmap_app, !elem_of_app. tauto. Qed.

Lemma addr_node_of s d c a p k b : addr s (node_of d c a p k b) = p.
Proof. now destruct d. Qed.

Lemma plug_frame d c p k sib C t : plug (F d c p k sib :: C) t = plug C (node_of d c t p k sib).
Proof. done. Qed.

Section Rep.
Context {sentinel : Z}.
Implicit Types (h : gmap Z ngx_rbtree_node_t) (C : ctx) (t a b : tree) (s : store ngx_rbtree_node_t Z).

(** The node at a position is not the sentinel, not NULL and not elsewhere. *)
Lemma fresh_node C d c a p k b :
  fresh_all sentinel (elems (plug C (node_of d c a p k b))) ->
  p <> sentinel /\ p <> NULL /\ p ∉ addrs a /\ p ∉ addrs b /\ p ∉ ctx_addrs C.
Proof.
  unfold fresh_all, addrs, ctx_addrs. rewrite elems_plug, elems_node_of. intros H.
  apply NoDup_cons in H as [Hs H]. apply NoDup_cons in H as [Hn Hd]. rewrite !fmap_app in *.
  assert (NoDup (p :: (elems a).*1 ++ (elems b).*1 ++ (before_hole C).*1 ++ (after_hole C).*1)) as P.
  { destruct d; rewrite fmap_app, fmap_cons in Hd; cbn in Hd; (eapply NoDup_Permutation_proper; [| exact Hd]); solve_Permutation. }
  apply NoDup_cons in P as [P _].
  assert (p ∈ (before_hole C).*1 ++
    (match d with L => elems a ++ ((p, k) :: elems b) | R => elems b ++ ((p, k) :: elems a) end).*1 ++
    (after_hole C).*1) as Q.
  { apply elem_of_app. right. apply elem_of_app. left. apply (list_elem_of_fmap_2 fst _ (p, k)).
    destruct d; apply elem_of_app; right; left. }
  rewrite !not_elem_of_app in P. rewrite not_elem_of_app.
  apply not_elem_of_cons in Hs as [_ Hs]. split_and!; try tauto; intros ->; tauto.
Qed.

Lemma node_at_node_of h d p k c a b par :
  node_at h p k c (addr sentinel match d with L => a | R => b end)
    (addr sentinel match d with L => b | R => a end) par <->
  exists n, h !! p = Some n /\ rb_key n = k /\ rb_color n = (if c then 1 else 0) /\
    child d n = addr sentinel a /\ child (opp d) n = addr sentinel b /\ rb_parent n = par.
Proof.
  split.
  - intros [dt H]. eexists. split; [exact H |]. destruct d; done.
  - intros ([k' l r par' c' dt] & H & E1 & E2 & E3 & E4 & E5). exists dt. rewrite H. destruct d; cbn in *; congruence.
Qed.

Lemma rep_node_of h par d c a p k b :
  rep sentinel h par (node_of d c a p k b) <->
  (exists n, h !! p = Some n /\ rb_key n = k /\ rb_color n = (if c then 1 else 0) /\
    child d n = addr sentinel a /\ child (opp d) n = addr sentinel b /\ rb_parent n = par) /\
  rep sentinel h p a /\ rep sentinel h p b.
Proof. rewrite <- node_at_node_of. destruct d; cbn; tauto. Qed.

Lemma rep_frame h h' par t :
  (forall x, x ∈ addrs t -> h' !! x = h !! x) -> rep sentinel h par t -> rep sentinel h' par t.
Proof.
  unfold addrs. revert par. induction t as [|c l IHl p k r IHr]; intros par; [done |]. cbn.
  rewrite fmap_app, fmap_cons. intros H ([dt Hp] & Hl & Hr). split_and!.
  - exists dt. rewrite H by set_solver. done.
  - apply IHl; [set_solver | done].
  - apply IHr; [set_solver | done].
Qed.

Lemma rep_ctx_frame h h' root up C hole :
  (forall x, x ∈ ctx_addrs C -> h' !! x = h !! x) ->
  rep_ctx sentinel h root up C hole -> rep_ctx sentinel h' root up C hole.
Proof.
  revert hole. induction C as [|[d c p k sib] C IH]; intros hole H; [done |]. cbn.
  setoid_rewrite elem_of_ctx_addrs in H. intros (Hp & Hs & HC). split_and!.
  - destruct d, Hp as [dt Hp]; exists dt; rewrite H by auto; done.
  - eapply rep_frame; [| exact Hs]. auto.
  - apply IH; [auto | done].
Qed.

(** The subtree gets another parent. *)
Lemma rep_reparent h h' par par' t :
  rep sentinel h par t ->
  (forall x, x ∈ addrs t -> x <> addr sentinel t -> h' !! x = h !! x) ->
  (t <> E -> h' !! addr sentinel t = set_parent par' <$> h !! addr sentinel t) ->
  NoDup (addrs t) -> rep sentinel h' par' t.
Proof.
  destruct t as [|c l p k r]; [done |]. unfold addrs. cbn. rewrite fmap_app, fmap_cons. cbn.
  intros ([dt Hp] & Hl & Hr) H Hroot Hnd. apply NoDup_app in Hnd as (_ & Hlr & Hnd).
  apply NoDup_cons in Hnd as [Hpr _]. split_and!.
  - exists dt. now rewrite Hroot, Hp.
  - eapply rep_frame; [| exact Hl]. unfold addrs. intros x Hx. apply H; set_solver.
  - eapply rep_frame; [| exact Hr]. unfold addrs. intros x Hx. apply H; set_solver.
Qed.
End Rep.
(** ** Rotations *)

(** The hole of a context is filled with another node. *)
Definition relink (d : side) (node temp : Z) : rbprog unit :=
  root ← get;
  if decide (node = root) then put temp
  else
    np ← ld rb_parent node;
    l ← ld (child d) np;
    if decide (node = l) then st (set_child d temp) np
    else st (set_child (opp d) temp) np.

Definition relinked (C : ctx) (hole : Z) (s : store ngx_rbtree_node_t Z) : store ngx_rbtree_node_t Z :=
  match C with
  | [] => mk_store (cells s) hole
  | F d _ p _ _ :: _ => mk_store (alter (set_child d hole) p (cells s)) (glob s)
  end.

(** The two rotations are mirror images. *)
Definition rotate sentinel (d : side) (node : Z) : rbprog unit :=
  temp ← ld (child (opp d)) node;
  tl ← ld (child d) temp;
  st (set_child (opp d) tl) node;;
  tl ← ld (child d) temp;
  (if decide (tl = sentinel) then mret tt else
     tl ← ld (child d) temp;
     st (set_parent node) tl);;
  np ← ld rb_parent node;
  st (set_parent np) temp;;
  relink d node temp;;
  st (set_child d node) temp;;
  st (set_parent temp) node.

Lemma rotate_left s node : ngx_rbtree_left_rotate s node = rotate s L node.
Proof. reflexivity. Qed.

Lemma rotate_right s node : ngx_rbtree_right_rotate s node = rotate s R node.
Proof. reflexivity. Qed.

Section Relink.
Context {sentinel : Z}.
Implicit Types (C : ctx) (s : store ngx_rbtree_node_t Z).

Lemma rep_ctx_root h root up C hole :
  rep_ctx sentinel h root up C hole -> root ∈ hole :: ctx_addrs C.
Proof.
  revert hole. induction C as [|[d c p k sib] C IH]; intros hole; cbn [rep_ctx].
  - intros ->. left.
  - intros (_ & _ & H). apply IH in H. rewrite !elem_of_cons, elem_of_ctx_addrs in *. tauto.
Qed.

Lemma addr_in t : t <> E -> addr sentinel t ∈ addrs t.
Proof. destruct t as [|c l p k r]; [done |]. unfold addrs. cbn. rewrite fmap_app, fmap_cons. set_solver. Qed.

Lemma relink_spec d C up node temp s n :
  rep_ctx sentinel (cells s) (glob s) up C node ->
  node ∉ ctx_addrs C -> node <> sentinel ->
  cells s !! node = Some n -> rb_parent n = top up C ->
  relink d node temp s = Some (tt, relinked C temp s).
Proof.
  intros HC Hn Hs Hl Hp. unfold relink. prog_step. destruct C as [|[d' c p k sib] C].
  - cbn in HC. subst node. now rewrite decide_True.
  - pose proof HC as Hr. cbn [rep_ctx] in HC. destruct HC as (Hnode & _ & HC).
    apply rep_ctx_root in HC. rewrite elem_of_ctx_addrs in Hn.
    rewrite decide_False by (intros E; rewrite <- E, elem_of_cons in HC; tauto).
    erewrite run_ld by done. rewrite Hp. cbn [top].
    assert (addr sentinel sib <> node) as Hsib.
    { destruct sib; [done |]. intros E. apply Hn. right; left. rewrite <- E. now apply addr_in. }
    destruct d', Hnode as [dt Hnode].
    all: erewrite run_ld by done; destruct d; cbn; case_decide; try congruence; erewrite run_st_last by done; reflexivity.
Qed.
End Relink.

Definition unchanged (l : list Z) (s s' : store ngx_rbtree_node_t Z) : Prop :=
  forall x, x ∉ l -> cells s' !! x = cells s !! x.

Lemma side_cases (d d1 : side) : d1 = d \/ d1 = opp d.
Proof. destruct d, d1; auto. Qed.

Lemma opp_opp d : opp (opp d) = d.
Proof. now destruct d. Qed.

Lemma node_of_opp d c a p k b : node_of (opp d) c a p k b = node_of d c b p k a.
Proof. now destruct d. Qed.

Section Unchanged.
Implicit Types (s : store ngx_rbtree_node_t Z).

Lemma unchanged_trans l s1 s2 s3 : unchanged l s1 s2 -> unchanged l s2 s3 -> unchanged l s1 s3.
Proof. intros H1 H2 x Hx. rewrite H2, H1; done. Qed.

Lemma unchanged_mono l l' s s' : (forall x, x ∈ l -> x ∈ l') -> unchanged l s s' -> unchanged l' s s'.
Proof. intros Hl H x Hx. apply H. auto. Qed.

End Unchanged.

Section Rotate.
Context {sentinel : Z}.
Implicit Types (C : ctx) (s : store ngx_rbtree_node_t Z) (h : gmap Z ngx_rbtree_node_t).

(** The store after [t]'s root, unless it is the sentinel, got a parent. *)
Definition reparented (t : tree) (par : Z) h : gmap Z ngx_rbtree_node_t :=
  match t with E => h | T _ _ p _ _ => alter (set_parent par) p h end.

Lemma reparented_lookup t par h x : x ∉ addrs t -> reparented t par h !! x = h !! x.
Proof.
  destruct t as [|c l p k r]; [done |]. unfold addrs. cbn. rewrite fmap_app, fmap_cons. intros H.
  apply lookup_alter_ne. intros ->. set_solver.
Qed.

Lemma rep_reparented t par par' h :
  NoDup (addrs t) -> rep sentinel h par t -> rep sentinel (reparented t par' h) par' t.
Proof.
  intros Hn H. eapply rep_reparent; [exact H | | | exact Hn]; destruct t; intros; cbn in *; try done.
  - rewrite lookup_alter_ne by congruence. done.
  - now rewrite lookup_alter_eq.
Qed.

Lemma run_reparent {B} t par par' s (k : rbprog B) :
  rep sentinel (cells s) par t -> sentinel ∉ addrs t ->
  ((if decide (addr sentinel t = sentinel) then mret tt else st (set_parent par') (addr sentinel t));; k) s =
  k (mk_store (reparented t par' (cells s)) (glob s)).
Proof.
  destruct t as [|c l p q r]; cbn.
  - rewrite decide_True by done. now destruct s.
  - intros ([dt H] & _) Hs. rewrite decide_False.
    + erewrite run_st by done. reflexivity.
    + unfold addrs in Hs. cbn in Hs. rewrite fmap_app, fmap_cons in Hs. set_solver.
Qed.

Lemma run_reparent_field {B} (f : ngx_rbtree_node_t -> Z) q n t par par' s (k : rbprog B) :
  cells s !! q = Some n -> f n = addr sentinel t ->
  rep sentinel (cells s) par t -> sentinel ∉ addrs t ->
  ((if decide (addr sentinel t = sentinel) then mret tt else x ← ld f q; st (set_parent par') x);; k) s =
  k (mk_store (reparented t par' (cells s)) (glob s)).
Proof.
  intros Hq Hf Hr Hs. rewrite <- (run_reparent t par par' s k Hr Hs). rewrite !run_if.
  destruct (decide _); [done |]. rewrite run_assoc. erewrite run_ld by done. now rewrite Hf.
Qed.

Lemma fresh_sentinel t : fresh_all sentinel (elems t) -> sentinel ∉ addrs t.
Proof. unfold fresh_all. rewrite NoDup_cons. set_solver. Qed.

Lemma fresh_null t : fresh_all sentinel (elems t) -> NULL ∉ addrs t.
Proof. unfold fresh_all. rewrite !NoDup_cons. set_solver. Qed.

Lemma fresh_plug C t :
  fresh_all sentinel (elems (plug C t)) <-> NoDup (sentinel :: NULL :: ctx_addrs C ++ addrs t).
Proof.
  unfold fresh_all, addrs, ctx_addrs. rewrite elems_plug, !fmap_app.
  now rewrite <- (assoc (++) (before_hole C).*1), (Permutation_app_comm (after_hole C).*1).
Qed.

Lemma addrs_node_of d c a p k b : addrs (node_of d c a p k b) ≡ₚ p :: addrs a ++ addrs b.
Proof. unfold addrs. rewrite elems_node_of. destruct d; rewrite fmap_app, fmap_cons; cbn; solve_Permutation. Qed.

Lemma disjoint_ctx C t x : fresh_all sentinel (elems (plug C t)) -> x ∈ ctx_addrs C -> x ∉ addrs t.
Proof.
  unfold fresh_all, addrs, ctx_addrs. rewrite elems_plug, !fmap_app. intros H.
  apply NoDup_cons in H as [_ H]. apply NoDup_cons in H as [_ H].
  apply NoDup_app in H as (_ & H1 & H). apply NoDup_app in H as (_ & H2 & _). set_solver.
Qed.

Lemma fresh_sub C t : fresh_all sentinel (elems (plug C t)) -> NoDup (addrs t) /\ sentinel ∉ addrs t /\ NULL ∉ addrs t.
Proof.
  unfold fresh_all, addrs. rewrite elems_plug, !fmap_app. intros H.
  apply NoDup_cons in H as [Hs H]. apply NoDup_cons in H as [Hn H].
  apply NoDup_app in H as (_ & _ & H). apply NoDup_app in H as (H & _ & _). set_solver.
Qed.

Lemma relinked_lookup C t s x : x ∉ ctx_addrs C -> cells (relinked C t s) !! x = cells s !! x.
Proof.
  destruct C as [|[d c p k sib] C]; [done |]. rewrite elem_of_ctx_addrs. intros H. cbn.
  apply lookup_alter_ne. intros ->. tauto.
Qed.

Lemma rep_ctx_relinked C t up node temp s :
  fresh_all sentinel (elems (plug C t)) ->
  rep_ctx sentinel (cells s) (glob s) up C node ->
  rep_ctx sentinel (cells (relinked C temp s)) (glob (relinked C temp s)) up C temp.
Proof.
  destruct C as [|[d c p k sib] C]; cbn; [done |]. intros Hf (Hp & Hs & HC).
  apply fresh_node in Hf as (_ & _ & _ & Hsib & HpC). split_and!.
  - destruct d, Hp as [dt Hp]; exists dt; rewrite lookup_alter_eq, Hp; done.
  - eapply rep_frame; [| exact Hs]. intros x Hx. apply lookup_alter_ne. intros ->. tauto.
  - eapply rep_ctx_frame; [| exact HC]. intros x Hx. apply lookup_alter_ne. intros ->. tauto.
Qed.

Lemma rotate_spec d c c' a p k b q k' e C up sp s :
  at_pos sentinel s up sp C (node_of d c a p k (node_of d c' b q k' e)) ->
  exists s', rotate sentinel d p s = Some (tt, s') /\
    at_pos sentinel s' up sp C (node_of d c' (node_of d c a p k b) q k' e) /\
    unchanged (addrs (plug C (node_of d c a p k (node_of d c' b q k' e)))) s s'.
Proof.
  intros [HC Ht Hsent Hnull Hf].
  pose proof (fresh_node _ _ _ _ _ _ _ Hf) as (Hp1 & Hp2 & Hp3 & Hp4 & Hp5).
  assert (Hf' := Hf). rewrite <- node_of_opp in Hf'.
  change (plug C (node_of (opp d) c (node_of d c' b q k' e) p k a))
    with (plug (F (opp d) c p k a :: C) (node_of d c' b q k' e)) in Hf'.
  pose proof (fresh_node _ _ _ _ _ _ _ Hf') as (Hq1 & Hq2 & Hq3 & Hq4 & Hq5).
  rewrite elem_of_ctx_addrs in Hq5. rewrite elem_of_addrs_node in Hp4.
  apply rep_node_of in Ht as ((np & Hnp & Knp & Cnp & Lnp & Rnp & Pnp) & Ra & Ht).
  apply rep_node_of in Ht as ((nq & Hnq & Knq & Cnq & Lnq & Rnq & Pnq) & Rb & Re).
  rewrite addr_node_of in Rnp.
  assert (Hfb := Hf').
  change (plug _ (node_of d c' b q k' e)) with (plug (F d c' q k' e :: F (opp d) c p k a :: C) b) in Hfb.
  apply fresh_sub in Hfb as (Nb & Sb & _).
  assert (p <> q /\ p ∉ addrs b /\ p ∉ addrs e /\ q ∉ addrs a /\ q ∉ ctx_addrs C) as (Hpq & Hpb & Hpe & Hqa & HqC) by tauto.
  unfold rotate.
  erewrite run_ld by done. rewrite Rnp.
  erewrite run_ld by done. rewrite Lnq.
  erewrite run_st by done.
  set (s1 := mk_store (alter _ p (cells s)) (glob s)).
  assert (cells s1 !! q = Some nq) as Hq' by (cbn; now rewrite lookup_alter_ne).
  erewrite run_ld by done. rewrite Lnq.
  assert (rep sentinel (cells s1) q b) as Rb1.
  { eapply rep_frame; [| exact Rb]. intros x Hx. apply lookup_alter_ne. congruence. }
  rewrite (run_reparent_field (child d) q nq b q p s1 _ Hq' Lnq Rb1 Sb).
  set (s2 := mk_store (reparented b p (cells s1)) (glob s)).
  assert (cells s2 !! q = Some nq) as Hq2' by (cbn; rewrite reparented_lookup; done).
  assert (cells s2 !! p = Some (set_child (opp d) (addr sentinel b) np)) as Hp2'.
  { cbn. rewrite reparented_lookup by done. cbn. now rewrite lookup_alter_eq, Hnp. }
  change (glob s1) with (glob s). fold s2.
  erewrite run_ld by done. erewrite run_st by done.
  set (s3 := mk_store (alter _ q (cells s2)) (glob s2)).
  assert (forall x, x <> p -> x <> q -> x ∉ addrs b -> cells s3 !! x = cells s !! x) as Hs3.
  { intros x H1 H2 H3. cbn. rewrite lookup_alter_ne, reparented_lookup by done. cbn. now rewrite lookup_alter_ne. }
  assert (cells s3 !! p = Some (set_child (opp d) (addr sentinel b) np)) as Hp3' by (cbn; now rewrite lookup_alter_ne).
  assert (cells s3 !! q = Some (set_parent (top up C) nq)) as Hq3'.
  { cbn. rewrite lookup_alter_eq. cbn in Hq2'. rewrite Hq2'. cbn. do 2 f_equal. destruct d; apply Pnp. }
  assert (forall x, x ∈ addrs b -> cells s3 !! x = reparented b p (cells s1) !! x) as Hbs3.
  { intros x Hx. cbn. apply lookup_alter_ne. congruence. }
  assert (forall x, x ∈ ctx_addrs C -> x ∉ addrs b) as HCb.
  { intros x H1 H2. apply (disjoint_ctx _ _ x Hf H1). rewrite !elem_of_addrs_node. tauto. }
  assert (rep_ctx sentinel (cells s3) (glob s3) up C p) as HC3.
  { rewrite addr_node_of in HC. eapply rep_ctx_frame; [| exact HC]. intros x Hx. apply Hs3; [congruence | congruence | auto]. }
  erewrite (run_bind (relink d p q) _ s3) by (eapply (relink_spec d C up p q s3); [exact HC3 | done | done | exact Hp3' | destruct d; exact Pnp]).
  set (s4 := relinked C q s3).
  assert (cells s4 !! p = cells s3 !! p) as Hp4' by now apply relinked_lookup.
  assert (cells s4 !! q = cells s3 !! q) as Hq4' by now apply relinked_lookup.
  rewrite Hp3' in Hp4'. rewrite Hq3' in Hq4'.
  erewrite run_st by exact Hq4'.
  erewrite run_st_last by (cbn; rewrite lookup_alter_ne by done; exact Hp4').
  eexists; split; [reflexivity |]. cbn [cells glob].
  set (h6 := alter (set_parent q) p _).
  assert (forall x, x <> p -> x <> q -> h6 !! x = cells s4 !! x) as H6 by (intros; unfold h6; now rewrite !lookup_alter_ne).
  assert (forall x, x <> p -> x <> q -> x ∉ addrs b -> x ∉ ctx_addrs C -> h6 !! x = cells s !! x) as H6s.
  { intros x H1 H2 H3 H4. rewrite H6, <- Hs3 by done. now apply relinked_lookup. }
  assert (forall x, x ∈ addrs a -> x ∉ addrs b /\ x ∉ ctx_addrs C) as Ha.
  { intros x Hx. split; intros G; refine (disjoint_ctx (F d c p k (node_of d c' b q k' e) :: C) a x Hf _ Hx);
      rewrite elem_of_ctx_addrs, elem_of_addrs_node; tauto. }
  assert (forall x, x ∈ addrs e -> x ∉ addrs b /\ x ∉ ctx_addrs C) as He.
  { rewrite <- node_of_opp in Hf'.
    intros x Hx. split; intros G; refine (disjoint_ctx (F (opp d) c' q k' b :: F (opp d) c p k a :: C) e x Hf' _ Hx);
      rewrite !elem_of_ctx_addrs; tauto. }
  assert (forall x, x ∉ addrs (plug C (node_of d c a p k (node_of d c' b q k' e))) -> h6 !! x = cells s !! x) as Hout.
  { intros x. rewrite elem_of_addrs_plug, !elem_of_addrs_node. intros Hx. apply H6s; tauto. }
  assert (rep sentinel h6 q (node_of d c a p k b)) as Rp.
  { apply rep_node_of. split_and!.
    - eexists. unfold h6. rewrite lookup_alter_eq, lookup_alter_ne, Hp4' by done. split; [reflexivity |].
      destruct d; cbn in *; split_and!; done.
    - eapply rep_frame; [| exact Ra]. intros x Hx. apply H6s; try congruence; now apply Ha.
    - eapply rep_frame; [| apply (rep_reparented b q p (cells s1) Nb Rb1)]. intros x Hx.
      rewrite H6, <- Hbs3 by congruence. apply relinked_lookup. intros G. exact (HCb x G Hx). }
  split; [split |]; cbn [cells glob].
  - rewrite addr_node_of. eapply rep_ctx_frame; [| exact (rep_ctx_relinked C _ up p q s3 Hf HC3)].
    intros x Hx. apply H6; congruence.
  - apply rep_node_of. rewrite addr_node_of. split_and!; [| exact Rp |].
    + eexists. unfold h6. rewrite lookup_alter_ne, lookup_alter_eq, Hq4' by done. split; [reflexivity |].
      destruct d; cbn in *; split_and!; done.
    + eapply rep_frame; [| exact Re]. intros x Hx. apply H6s; try congruence; now apply He.
  - destruct Hsent as (k1 & l1 & r1 & d1 & Hsent). exists k1, l1, r1, d1. rewrite Hout; [done |].
    now apply fresh_sentinel.
  - rewrite Hout; [done |]. now apply fresh_null.
  - apply fresh_plug in Hf. apply fresh_plug. rewrite !addrs_node_of in *.
    eapply NoDup_Permutation_proper; [| exact Hf]. solve_Permutation.
  - exact Hout.
Qed.
End Rotate.

(** ** Working at a position

    [sees s0 l s up sp C t]: [s] is reached from [s0] by operations on the
    nodes of the tree, whose in-order list is [l], and the store's tree is
    [plug C t], looked at from [t]. *)
Section Sees.
Context {sentinel : Z} (s0 : store ngx_rbtree_node_t Z) (l : list (Z * Z)).
Implicit Types (C : ctx) (s : store ngx_rbtree_node_t Z) (a b t : tree).

Record sees s up sp C t : Prop := {
  sees_pos : at_pos sentinel s up sp C t;
  sees_elems : elems (plug C t) = l;
  sees_unchanged : unchanged l.*1 s0 s }.

Lemma sees_up s up sp d c p k b C t :
  sees s up sp (F d c p k b :: C) t <-> sees s up sp C (node_of d c t p k b).
Proof.
  split; intros [[HC Ht Hs Hn Hf] He Hu]; split; try done; split; try done; clear He Hu Hf.
  - cbn in HC. rewrite addr_node_of. apply HC.
  - cbn in HC, Ht. destruct HC as (Hp & Hb & _). destruct d; cbn; auto.
  - cbn. rewrite addr_node_of in HC. destruct d; cbn in Ht; split_and!; try done; apply Ht.
  - apply rep_node_of in Ht as (_ & Ha & _). exact Ha.
Qed.

Lemma sees_out s up sp d c p k b C t :
  sees s up sp (F d c p k b :: C) t -> sees s up sp C (node_of d c t p k b).
Proof. apply sees_up. Qed.

Lemma sees_in s up sp d c p k b C t :
  sees s up sp C (node_of d c t p k b) -> sees s up sp (F d c p k b :: C) t.
Proof. apply sees_up. Qed.

Lemma sees_sibling s up sp d c p k b C t :
  sees s up sp (F d c p k b :: C) t -> sees s up sp (F (opp d) c p k t :: C) b.
Proof. intros H. apply sees_in. rewrite node_of_opp. now apply sees_out. Qed.

Lemma sees_plug s up sp C t : sees s up sp C t <-> sees s up sp [] (plug C t).
Proof. revert t. induction C as [|[d c p k b] C IH]; intros t; [done |]. rewrite sees_up. apply IH. Qed.

Lemma sees_node s up sp C d c a p k b :
  sees s up sp C (node_of d c a p k b) ->
  exists n, cells s !! p = Some n /\ rb_key n = k /\ rb_color n = (if c then 1 else 0) /\
    child d n = addr sentinel a /\ child (opp d) n = addr sentinel b /\ rb_parent n = top up C.
Proof. intros [[_ Ht _ _ _] _ _]. now apply rep_node_of in Ht as [H _]. Qed.

Lemma sees_rotate s up sp C d c c' a p k b q k' e :
  sees s up sp C (node_of d c a p k (node_of d c' b q k' e)) ->
  exists s', rotate sentinel d p s = Some (tt, s') /\
    sees s' up sp C (node_of d c' (node_of d c a p k b) q k' e).
Proof.
  intros [Hp He Hu]. destruct (rotate_spec _ _ _ _ _ _ _ _ _ _ _ _ _ _ Hp) as (s' & R & Hp' & Hu').
  exists s'. split; [exact R |]. split; [exact Hp' | |].
  - rewrite <- He, !elems_plug, !elems_node_of. destruct d; rewrite ?elems_node_of; repeat progress (rewrite <- ?app_assoc; cbn [app]); done.
  - intros x Hx. rewrite Hu'; [now apply Hu |]. unfold addrs. now rewrite He.
Qed.

Lemma sees_color s up sp C d c (c' : bool) a p k b :
  sees s up sp C (node_of d c a p k b) ->
  exists s', st (set_color (if c' then 1 else 0)) p s = Some (tt, s') /\
    sees s' up sp C (node_of d c' a p k b).
Proof.
  intros H. destruct (sees_node _ _ _ _ _ _ _ _ _ _ H) as (n & Hn & K & Hc & Ha & Hb & Hpar).
  destruct H as [[HC Ht Hs Hnull Hf] He Hu].
  destruct (fresh_node _ _ _ _ _ _ _ Hf) as (F1 & F2 & F3 & F4 & F5).
  eexists. split; [exact (run_st_last _ _ _ _ Hn) |].
  set (h := alter _ p (cells s)).
  assert (forall x, x <> p -> h !! x = cells s !! x) as Hh by (intros; now apply lookup_alter_ne).
  split; [split |..]; cbn [cells glob].
  - rewrite addr_node_of in *. eapply rep_ctx_frame; [| exact HC]. intros x Hx. apply Hh. congruence.
  - apply rep_node_of in Ht as (_ & Ra & Rb). apply rep_node_of. split_and!.
    + eexists. unfold h. rewrite lookup_alter_eq, Hn. split; [reflexivity |]. destruct d; done.
    + eapply rep_frame; [| exact Ra]. intros x Hx. apply Hh. congruence.
    + eapply rep_frame; [| exact Rb]. intros x Hx. apply Hh. congruence.
  - unfold sentinel_at in *. now rewrite Hh.
  - now rewrite Hh.
  - apply fresh_plug in Hf. apply fresh_plug. now rewrite !addrs_node_of in *.
  - rewrite <- He, !elems_plug. now rewrite !elems_node_of.
  - intros x Hx. cbn [cells]. rewrite Hh; [now apply Hu |]. intros ->. apply Hx.
    rewrite <- He. apply elem_of_addrs_plug. right. apply elem_of_addrs_node. now left.
Qed.

Lemma sees_root s up sp C t : t <> E -> sees s up sp C t -> addr sentinel t = glob s <-> C = [].
Proof.
  intros Ht [[HC _ _ _ Hf] _ _]. destruct C as [|[d c p k b] C]; [done |]. split; [| done]. intros E.
  cbn in HC. destruct HC as (_ & _ & HC). apply rep_ctx_root in HC. exfalso.
  refine (disjoint_ctx (F d c p k b :: C) t (addr sentinel t) Hf _ (addr_in t Ht)).
  rewrite E, elem_of_ctx_addrs. rewrite elem_of_cons in HC. tauto.
Qed.

Lemma run_is_red {B} s up sp C t n (k : bool -> rbprog B) :
  sees s up sp C t -> cells s !! addr sentinel t = Some n -> 
  (b ← ngx_rbt_is_red (addr sentinel t); k b) s = k (is_red_root t) s.
Proof.
  intros H Hn. unfold ngx_rbt_is_red. rewrite run_assoc. erewrite run_ld by done. rewrite run_ret.
  f_equal. destruct H as [[_ Ht Hs _ _] _ _]. destruct t as [|c t1 p q t2]; cbn in *.
  - destruct Hs as (? & ? & ? & ? & Hs). rewrite Hs in Hn. now injection Hn as <-.
  - destruct Ht as [[d Ht] _]. rewrite Ht in Hn. injection Hn as <-. now destruct c.
Qed.

Lemma run_is_red_cell {B} s p n (c : bool) (k : bool -> rbprog B) :
  cells s !! p = Some n -> rb_color n = (if c then 1 else 0) -> (b ← ngx_rbt_is_red p; k b) s = k c s.
Proof.
  intros Hn Hc. unfold ngx_rbt_is_red. rewrite run_assoc. erewrite run_ld by done. rewrite run_ret, Hc. now destruct c.
Qed.

Lemma sees_cell s up sp C t : sees s up sp C t -> exists n, cells s !! addr sentinel t = Some n.
Proof.
  intros [[_ Ht Hs _ _] _ _]. destruct t as [|c t1 p q t2]; cbn in *.
  - destruct Hs as (? & ? & ? & ? & Hs). eauto.
  - destruct Ht as [[d Ht] _]. eauto.
Qed.

Lemma run_black s up sp C d c a p k b :
  sees s up sp C (node_of d c a p k b) ->
  exists s', ngx_rbt_black p s = Some (tt, s') /\ sees s' up sp C (node_of d false a p k b).
Proof. exact (sees_color s up sp C d c false a p k b). Qed.

Lemma run_red s up sp C d c a p k b :
  sees s up sp C (node_of d c a p k b) ->
  exists s', ngx_rbt_red p s = Some (tt, s') /\ sees s' up sp C (node_of d true a p k b).
Proof. exact (sees_color s up sp C d c true a p k b). Qed.

(** The siblings at a position are different nodes. *)
Lemma sees_ne s up sp d c p k b C t :
  t <> E -> sees s up sp (F d c p k b :: C) t -> addr sentinel t <> addr sentinel b.
Proof.
  intros Ht [[_ _ _ _ Hf] _ _]. destruct (fresh_sub _ _ Hf) as (_ & Hs & _). destruct b as [|cb b1 q qk b2].
  - intros Q. apply Hs. change sentinel with (addr sentinel E). rewrite <- Q. now apply addr_in.
  - intros Q. refine (disjoint_ctx _ _ (addr sentinel t) Hf _ (addr_in t Ht)).
    rewrite elem_of_ctx_addrs, Q. right; left. now apply addr_in.
Qed.

End Sees.

(** ** The red-black conditions at a position *)

Lemma is_rb_red n d l p k r : is_rb true n (node_of d true l p k r) <-> is_rb false n l /\ is_rb false n r.
Proof. destruct d; cbn; (split; [inversion 1; subst; done | intros [? ?]; now constructor]). Qed.

Lemma is_rb_black n d l p k r :
  is_rb false (S n) (node_of d false l p k r) <-> (exists c, is_rb c n l) /\ exists c, is_rb c n r.
Proof.
  destruct d; cbn; (split; [inversion 1; subst; eauto | intros [[? ?] [? ?]]; econstructor; eassumption]).
Qed.

(** What [is_rb] and [hole_rb] say of trees given by their root. *)
Lemma is_rb_inv_red d n t :
  is_rb true n t -> exists l p k r, t = node_of d true l p k r /\ is_rb false n l /\ is_rb false n r.
Proof. inversion 1; subst. destruct d; eauto 10. Qed.

Lemma hole_rb_weaken n C : hole_rb true n C -> hole_rb false n C.
Proof. inversion 1; subst. econstructor; eassumption. Qed.

Lemma hole_rb_inv_red n d p k sib C :
  hole_rb false n (F d true p k sib :: C) -> is_rb false n sib /\ hole_rb true n C.
Proof. inversion 1; subst. done. Qed.

Lemma hole_rb_inv_black c n d p k sib C :
  hole_rb c n (F d false p k sib :: C) -> (exists c', is_rb c' n sib) /\ hole_rb false (S n) C.
Proof. inversion 1; subst; eauto. Qed.

Lemma hole_rb_inv_true n C :
  hole_rb true n C -> exists d p k sib C', C = F d false p k sib :: C' /\
    (exists c, is_rb c n sib) /\ hole_rb false (S n) C'.
Proof. inversion 1; subst. eauto 12. Qed.

Lemma is_rb_plug C c n t : hole_rb c n C -> is_rb c n t -> red_black (plug C t).
Proof.
  revert c n t. induction C as [|[d c p k sib] C IH]; intros c0 n t HC Ht; cbn [plug]; inversion HC; subst.
  - now exists n.
  - eapply IH; [eassumption | now apply is_rb_red].
  - eapply IH; [eassumption | apply is_rb_black; eauto].
Qed.

Lemma length_plug C t : (length C + length (elems t) <= length (elems (plug C t)))%nat.
Proof.
  rewrite elems_plug, !length_app. induction C as [|[d c p k sib] C IH]; cbn; [lia |].
  destruct d; cbn; rewrite ?length_app in *; cbn; lia.
Qed.

(** A tree's nodes are distinct cells of the store. *)
Lemma rep_dom sentinel h par t : rep sentinel h par t -> Forall (fun x => x ∈ dom h) (addrs t).
Proof.
  unfold addrs. revert par. induction t as [|c l IHl p k r IHr]; intros par; cbn [rep elems]; [constructor |].
  intros ([d H] & Hl & Hr). rewrite fmap_app, fmap_cons. apply Forall_app. split; [eauto |].
  constructor; [| eauto]. apply elem_of_dom. eauto.
Qed.

Lemma length_elems sentinel s up sp t :
  at_pos sentinel s up sp [] t -> (length (elems t) <= size (cells s))%nat.
Proof.
  intros [_ Ht _ _ Hf]. apply rep_dom in Ht. apply (fresh_sub []) in Hf as (Hn & _).
  rewrite <- (length_fmap fst). change ((elems t).*1) with (addrs t).
  rewrite <- size_dom, <- (size_list_to_set (C := gset Z) (addrs t)) by exact Hn.
  apply subseteq_size. intros x Hx. apply elem_of_list_to_set in Hx. rewrite Forall_forall in Ht. auto.
Qed.

(** ** An example

    Three nodes in the tree, two more in the store. *)

Definition example_cells : gmap Z ngx_rbtree_node_t :=
  list_to_map [(1, mk_node 0 0 0 0 0 0);
    (2, mk_node 10 1 1 3 1 0); (3, mk_node 20 2 4 0 0 0); (4, mk_node 30 1 1 3 1 0);
    (5, mk_node 25 7 7 7 7 7); (6, mk_node 0 0 0 0 0 0)].

Definition example_store : store ngx_rbtree_node_t Z := mk_store example_cells 3.

Definition example_tree : tree := T false (T true E 2 10 E) 3 20 (T true E 4 30 E).

Lemma example_holds : holds_tree 1 example_store example_tree.
Proof.
  exists 0, 0. split.
  - reflexivity.
  - cbn. repeat split; exists 0; reflexivity.
  - exists 0, 0, 0, 0. reflexivity.
  - reflexivity.
  - unfold fresh_all. apply (bool_decide_unpack _). reflexivity.
Qed.

Lemma example_red_black : red_black example_tree.
Proof. exists 1%nat. repeat econstructor. Qed.
