(* ===== verification/RbInsert.v ===== *)
(** Insertion into the red-black tree: the re-balancing loop on positions, the
    binary tree insertion, and [rbtree_insert_correct]. *)
From S2P Require Export RbTree.

(** ** Re-balancing after an insertion *)

(** The two halves of the loop's body are mirror images. *)
Definition rebalance_side sentinel (d : side) (node : Z) : rbprog Z :=
  np ← ld rb_parent node;
  npp ← ld rb_parent np;
  temp ← ld (child (opp d)) npp;
  red ← ngx_rbt_is_red temp;
  if (red : bool) then
    ngx_rbt_black np;;
    ngx_rbt_black temp;;
    ngx_rbt_red npp;;
    mret npp
  else
    r ← ld (child (opp d)) np;
    node ← (if decide (node = r) then rotate sentinel d np;; mret np else mret node);
    np ← ld rb_parent node;
    ngx_rbt_black np;;
    npp ← ld rb_parent np;
    ngx_rbt_red npp;;
    rotate sentinel (opp d) npp;;
    mret node.

Lemma rebalance_left s node : insert_rebalance_left s node = rebalance_side s L node.
Proof. reflexivity. Qed.

Lemma rebalance_right s node : insert_rebalance_right s node = rebalance_side s R node.
Proof. reflexivity. Qed.

Section Insert.
Context {sentinel : Z} (s0 : store ngx_rbtree_node_t Z) (l : list (Z * Z)).
Abbreviation sees := (sees (sentinel := sentinel) s0 l).
Implicit Types (C : ctx) (s : store ngx_rbtree_node_t Z) (a b t : tree).

Lemma rebalance_step d d1 s up sp x xk ta tb p pk sib g gk unc C n :
  is_rb false n ta -> is_rb false n tb -> is_rb false n sib -> (exists c, is_rb c n unc) ->
  hole_rb false (S n) C ->
  sees s up sp (F d1 true p pk sib :: F d false g gk unc :: C) (node_of d true ta x xk tb) ->
  exists s' C' t' n', rebalance_side sentinel d x s = Some (addr sentinel t', s') /\
    sees s' up sp C' t' /\ is_rb true n' t' /\ hole_rb false n' C' /\ (length C' < 2 + length C)%nat.
Proof.
  intros Ha Hb Hsib [cu Hunc] HC H. unfold rebalance_side.
  destruct (sees_node _ _ _ _ _ _ _ _ _ _ _ _ H) as (nx & Hnx & _ & _ & _ & _ & Px).
  assert (Hp := sees_out _ _ _ _ _ _ _ _ _ _ _ _ H).
  destruct (sees_node _ _ _ _ _ _ _ _ _ _ _ _ Hp) as (np & Hnp & _ & _ & Lp & Rp & Pp).
  assert (Hg := sees_out _ _ _ _ _ _ _ _ _ _ _ _ Hp).
  destruct (sees_node _ _ _ _ _ _ _ _ _ _ _ _ Hg) as (ng & Hng & _ & _ & Lg & Rg & Pg).
  erewrite run_ld by done. rewrite Px. cbn [top].
  erewrite run_ld by done. rewrite Pp. cbn [top].
  erewrite run_ld by done. rewrite Rg.
  assert (Hu := sees_sibling _ _ _ _ _ _ _ _ _ _ _ _ Hp).
  destruct (sees_cell _ _ _ _ _ _ _ Hu) as [nu Hnu].
  erewrite run_is_red by done.
  assert (is_red_root unc = true \/ is_red_root unc = false) as [Eu | Eu] by (destruct (is_red_root unc); auto);
    rewrite Eu.
  - (* the uncle is red *)
    destruct unc as [|cu' u1 u uk u2]; [done |]. cbn in Eu. subst cu'.
    assert (is_rb true n (T true u1 u uk u2)) as Hur by (inversion Hunc; subst; done).
    clear Hunc Hnu Hu. apply (is_rb_red n L) in Hur as [Hu1 Hu2].
    destruct (run_black _ _ _ _ _ _ _ _ _ _ _ _ Hp) as (s1 & R1 & H1). rewrite (run_bind _ _ _ _ _ R1).
    apply sees_sibling in H1. destruct (run_black _ _ _ _ _ _ L _ _ _ _ _ H1) as (s2 & R2 & H2). rewrite (run_bind _ _ _ _ _ R2).
    apply sees_out in H2. destruct (run_red _ _ _ _ _ _ _ _ _ _ _ _ H2) as (s3 & R3 & H3).
    rewrite (run_bind _ _ _ _ _ R3). rewrite node_of_opp in H3.
    exists s3, C, (node_of d true (node_of d1 false (node_of d true ta x xk tb) p pk sib) g gk (T false u1 u uk u2)), (S n).
    split_and!; [now rewrite addr_node_of | exact H3 | | exact HC | lia].
    apply is_rb_red. split; [apply is_rb_black | apply (is_rb_black n L)]; eauto. split; eauto. 
    exists true. now apply is_rb_red.
  - (* the uncle is black *)
    assert (is_rb false n unc) as Hub by (inversion Hunc; subst; done).
    erewrite run_ld by done.
    assert (exists s1 a y yk b q qk sib',
      (forall B (K : Z -> rbprog B), 
        (node ← (if decide (x = child (opp d) np) then rotate sentinel d p;; mret p else mret x); K node) s = K y s1) /\
      sees s1 up sp (F d true q qk sib' :: F d false g gk unc :: C) (node_of d true a y yk b) /\
      is_rb false n a /\ is_rb false n b /\ is_rb false n sib')
      as (s1 & a & y & yk & b & q & qk & sib' & R1 & H1 & Ha' & Hb' & Hsib').
    { destruct (side_cases d d1) as [-> | ->].
      - exists s, ta, x, xk, tb, p, pk, sib. split_and!; try done. intros B K.
        rewrite decide_False; [done |]. rewrite Rp.
        assert (node_of d true ta x xk tb <> E) as Hne by now destruct d.
        apply (sees_ne _ _ _ _ _ _ _ _ _ _ _ _ Hne) in H. now rewrite addr_node_of in H.
      - rewrite node_of_opp in Hp. rewrite opp_opp in *.
        destruct (sees_rotate _ _ _ _ _ _ _ _ _ _ _ _ _ _ _ _ Hp) as (s1 & R1 & H1).
        exists s1, sib, p, pk, ta, x, xk, tb. split_and!; try done; [| now apply sees_in].
        intros B K. rewrite decide_True by (now rewrite Lp, addr_node_of).
        rewrite run_assoc, (run_bind _ _ _ _ _ R1). apply run_ret. }
    setoid_rewrite R1.
    destruct (sees_node _ _ _ _ _ _ _ _ _ _ _ _ H1) as (ny & Hny & _ & _ & _ & _ & Py).
    erewrite run_ld by done. rewrite Py. cbn [top].
    apply sees_out in H1. destruct (run_black _ _ _ _ _ _ _ _ _ _ _ _ H1) as (s2 & R2 & H2).
    rewrite (run_bind _ _ _ _ _ R2).
    destruct (sees_node _ _ _ _ _ _ _ _ _ _ _ _ H2) as (nq & Hnq & _ & _ & _ & _ & Pq).
    erewrite run_ld by done. rewrite Pq. cbn [top].
    apply sees_out in H2. destruct (run_red _ _ _ _ _ _ _ _ _ _ _ _ H2) as (s3 & R3 & H3).
    rewrite (run_bind _ _ _ _ _ R3).
    rewrite <- node_of_opp, <- (node_of_opp d false) in H3.
    destruct (sees_rotate _ _ _ _ _ _ _ _ _ _ _ _ _ _ _ _ H3) as (s4 & R4 & H4).
    rewrite (run_bind _ _ _ _ _ R4). rewrite node_of_opp in H4. apply sees_in in H4.
    eexists s4, _, _, n. split_and!; [now rewrite addr_node_of | exact H4 | | | cbn; lia].
    + now apply is_rb_red.
    + eapply hole_black; [apply is_rb_red; eauto | exact HC].
Qed.

Lemma insert_rebalance_spec fuel s up sp C t n :
  is_rb true n t -> hole_rb false n C -> (length C < fuel)%nat -> sees s up sp C t ->
  exists s' t' c n', insert_rebalance sentinel fuel (addr sentinel t) s = Some (tt, s') /\
    sees s' up sp [] t' /\ is_rb c n' t'.
Proof.
  revert s C t n. induction fuel as [|fuel IH]; intros s C t n Ht HC Hfuel H; [lia |]. cbn [insert_rebalance].
  rewrite run_get.
  assert (t <> E) as Hne by (intros ->; inversion Ht).
  pose proof (sees_root _ _ _ _ _ _ _ Hne H) as Hroot.
  destruct C as [|[d1 [] p pk sib] C].
  - rewrite decide_True by now apply Hroot. exists s, t, true, n. done.
  - rewrite decide_False by (intros Q; apply Hroot in Q; done).
    apply hole_rb_inv_red in HC as [Hsib HC].
    apply hole_rb_inv_true in HC as (d & g & gk & unc & C' & -> & Hunc & HC).
    apply (is_rb_inv_red d) in Ht as (a & x & xk & b & -> & Ha & Hb). rewrite addr_node_of in *.
    destruct (sees_node _ _ _ _ _ _ _ _ _ _ _ _ H) as (nx & Hnx & _ & _ & _ & _ & Px).
    erewrite run_ld by done. rewrite Px. cbn [top].
    assert (Hp := sees_out _ _ _ _ _ _ _ _ _ _ _ _ H).
    destruct (sees_node _ _ _ _ _ _ _ _ _ _ _ _ Hp) as (np & Hnp & _ & Cp & _ & _ & Pp).
    rewrite (run_is_red_cell _ _ _ true _ Hnp Cp).
    erewrite run_ld by done. rewrite Pp. cbn [top].
    assert (Hg := sees_out _ _ _ _ _ _ _ _ _ _ _ _ Hp).
    destruct (sees_node _ _ _ _ _ _ _ _ _ _ _ _ Hg) as (ng & Hng & _ & _ & Lg & Rg & _).
    erewrite run_ld by done.
    destruct (rebalance_step _ _ _ _ _ _ _ _ _ _ _ _ _ _ _ _ _ Ha Hb Hsib Hunc HC H)
      as (s1 & C1 & t1 & n1 & R1 & H1 & Ht1 & HC1 & Hlen).
    rewrite (run_bind _ _ s (addr sentinel t1) s1).
    { eapply IH; [exact Ht1 | exact HC1 | cbn in Hfuel; lia | exact H1]. }
    rewrite rebalance_left, rebalance_right. rewrite addr_node_of in Lg. destruct d; cbn [child] in Lg.
    + now rewrite decide_True.
    + rewrite decide_False; [done |]. cbn in Rg. rewrite Rg. 
      assert (node_of d1 true (node_of R true a x xk b) p pk sib <> E) as Hne' by now destruct d1.
      apply (sees_ne _ _ _ _ _ _ _ _ _ _ _ _ Hne') in Hp. now rewrite addr_node_of in Hp.
  - rewrite decide_False by (intros Q; apply Hroot in Q; done).
    apply (is_rb_inv_red d1) in Ht as (a & x & xk & b & -> & Ha & Hb). rewrite addr_node_of in *.
    destruct (sees_node _ _ _ _ _ _ _ _ _ _ _ _ H) as (nx & Hnx & _ & _ & _ & _ & Px).
    erewrite run_ld by done. rewrite Px. cbn [top].
    assert (Hp := sees_out _ _ _ _ _ _ _ _ _ _ _ _ H).
    destruct (sees_node _ _ _ _ _ _ _ _ _ _ _ _ Hp) as (np & Hnp & _ & Cp & _ & _ & Pp).
    rewrite (run_is_red_cell _ _ _ false _ Hnp Cp).
    assert (hole_rb true n (F d1 false p pk sib :: C)) as HC'.
    { apply hole_rb_inv_black in HC as [[c' Hsib] HC]. eapply hole_black; eassumption. }
    destruct (is_rb_plug _ _ _ _ HC' (proj2 (is_rb_red n d1 a x xk b) (conj Ha Hb))) as [n' Hn'].
    apply sees_plug in H. exists s. eexists _, false, n'. split_and!; [done | exact H | exact Hn'].
Qed.
End Insert.
(** ** The binary tree insertion *)

Section Locate.
Context (before : Z * Z -> Z * Z -> bool).

(** Where a new node belongs. *)
Fixpoint locate (x : Z * Z) (C : ctx) (t : tree) : ctx :=
  match t with
  | E => C
  | T c l p k r => if before x (p, k) then locate x (F L c p k r :: C) l else locate x (F R c p k l :: C) r
  end.

(** The same in the list of nodes: after those it does not precede. *)
Fixpoint insert_in (x : Z * Z) (l : list (Z * Z)) : list (Z * Z) :=
  match l with
  | [] => [x]
  | y :: l' => if before x y then x :: y :: l' else y :: insert_in x l'
  end.

(** No node precedes an earlier one. *)
Definition sorted (l : list (Z * Z)) : Prop := StronglySorted (fun y z => before z y = false) l.

(** What the insertion functions rely on: on the nodes that [dom] admits,
    [before] is a strict weak order. *)
Class KeyOrder (dom : Z * Z -> Prop) : Prop := {
  before_asym x y : dom x -> dom y -> before x y = true -> before y x = false;
  before_negtrans x y z : dom x -> dom y -> dom z ->
    before y x = false -> before z y = false -> before z x = false }.

Lemma locate_rb x C t c n : is_rb c n t -> hole_rb c n C -> hole_rb false 0 (locate x C t).
Proof.
  intros Ht. revert C. induction Ht as [| n l p k r Hl IHl Hr IHr | cl cr n l p k r Hl IHl Hr IHr];
    intros C HC; cbn [locate].
  - done.
  - destruct (before x (p, k)); [apply IHl | apply IHr]; now apply hole_red.
  - destruct (before x (p, k)); [apply IHl | apply IHr]; eapply hole_black; eassumption.
Qed.

Lemma locate_perm x C t c :
  elems (plug (locate x C t) (T c E x.1 x.2 E)) ≡ₚ x :: elems (plug C t).
Proof.
  revert C. induction t as [|c' l IHl p k r IHr]; intros C; cbn [locate].
  - rewrite !elems_plug. cbn. destruct x. now rewrite <- Permutation_middle.
  - destruct (before x (p, k)); [rewrite IHl | rewrite IHr]; done.
Qed.

Section Ordered.
Context {dom : Z * Z -> Prop} `{!KeyOrder dom}.

Lemma locate_split x C t :
  dom x -> Forall dom (elems t) -> sorted (elems t) ->
  exists A B, elems t = A ++ B /\ before_hole (locate x C t) = before_hole C ++ A /\
    after_hole (locate x C t) = B ++ after_hole C /\
    Forall (fun y => before x y = false) A /\ match B with [] => True | y :: _ => before x y = true end.
Proof.
  intros Hx. revert C. induction t as [|c l IHl p k r IHr]; intros C Hd Hs; cbn [locate elems] in *.
  - exists [], []. cbn. now rewrite app_nil_r.
  - apply Forall_app in Hd as [Hdl Hd]. apply Forall_cons in Hd as [Hdp Hdr].
    apply StronglySorted_app in Hs as (Hlp & Hsl & Hs). apply StronglySorted_cons in Hs as [Hpr Hsr].
    destruct (before x (p, k)) eqn:Hb.
    + destruct (IHl (F L c p k r :: C) Hdl Hsl) as (A & B & -> & E1 & E2 & HA & HB).
      exists A, (B ++ (p, k) :: elems r). rewrite E1, E2. cbn. rewrite <- !app_assoc. split_and!; try done.
      destruct B; [exact Hb | exact HB].
    + destruct (IHr (F R c p k l :: C) Hdr Hsr) as (A & B & -> & E1 & E2 & HA & HB).
      exists (elems l ++ (p, k) :: A), B. rewrite E1, E2. cbn. rewrite <- !app_assoc. split_and!; try done.
      apply Forall_app. split; [| constructor; [exact Hb | exact HA]].
      rewrite Forall_forall in *. intros y Hy. eapply (before_negtrans y (p, k) x); eauto.
      apply Hlp; [done | left].
Qed.

Lemma insert_in_split x A B :
  Forall (fun y => before x y = false) A -> match B with [] => True | y :: _ => before x y = true end ->
  insert_in x (A ++ B) = A ++ x :: B.
Proof.
  intros HA HB. induction HA as [|y A Hy _ IH]; cbn.
  - destruct B as [|y B]; cbn; [done |]. now rewrite HB.
  - now rewrite Hy, IH.
Qed.

Lemma elems_locate x k t c :
  dom (x, k) -> Forall dom (elems t) -> sorted (elems t) ->
  elems (plug (locate (x, k) [] t) (T c E x k E)) = insert_in (x, k) (elems t).
Proof.
  intros Hx Hd Hs. destruct (locate_split (x, k) [] t Hx Hd Hs) as (A & B & E1 & E2 & E3 & HA & HB).
  rewrite elems_plug, E2, E3, E1, insert_in_split by done. cbn. now rewrite app_nil_r.
Qed.

Lemma insert_in_sorted x l : dom x -> Forall dom l -> sorted l -> sorted (insert_in x l).
Proof.
  intros Hx Hd Hs. induction Hs as [|y l Hs IH Hy]; cbn; [repeat constructor |].
  apply Forall_cons in Hd as [Hdy Hd]. destruct (before x y) eqn:Hb.
  - constructor; [now constructor |]. assert (before y x = false) as Hyx by now apply before_asym.
    constructor; [done |]. rewrite Forall_forall in *. intros z Hz. eapply (before_negtrans x y z); eauto.
  - constructor; [now apply IH |]. clear IH Hs. induction l as [|z l IHl]; cbn; [now repeat constructor |].
    apply Forall_cons in Hd as [Hdz Hd]. apply Forall_cons in Hy as [Hyz Hy].
    destruct (before x z); repeat constructor; auto.
Qed.

End Ordered.

Lemma insert_in_perm x l : insert_in x l ≡ₚ x :: l.
Proof.
  induction l as [|y l IH]; cbn; [done |]. destruct (before x y); [done |].
  rewrite IH. apply Permutation_swap.
Qed.

End Locate.

(** ** Inserting *)

Section InsertBy.
Context {sentinel : Z}.
Implicit Types (C : ctx) (s : store ngx_rbtree_node_t Z) (t : tree).

(** The new node is put into an empty place. *)
Lemma place_spec up sp d c p k b C s x nx :
  at_pos sentinel s up sp (F d c p k b :: C) E ->
  cells s !! x = Some nx -> x ∉ addrs (plug (F d c p k b :: C) E) -> x <> sentinel ->
  exists s',
    (st (set_child d x) p;; st (set_parent p) x;; st (set_left sentinel) x;; st (set_right sentinel) x;;
     ngx_rbt_red x) s = Some (tt, s') /\
    at_pos sentinel s' up sp (F d c p k b :: C) (T true E x (rb_key nx) E) /\
    unchanged (x :: addrs (plug (F d c p k b :: C) E)) s s'.
Proof.
  intros [HC Ht Hs Hnull Hf] Hx Hnx Hxs. set (C' := F d c p k b :: C) in *.
  pose proof (fresh_node _ _ _ _ _ _ _ Hf) as (Fp & Fpn & _ & Fpb & FpC).
  assert (exists np, cells s !! p = Some np) as [np Hnp].
  { destruct HC as [H _]. destruct d, H as [dt H]; eauto. }
  rewrite elem_of_addrs_plug in Hnx. assert (x ∉ ctx_addrs C') as HxC by tauto.
  assert (x <> p) as Hxp by (intros ->; apply HxC, elem_of_ctx_addrs; auto).
  erewrite run_st by done. set (s1 := mk_store (alter (set_child d x) p (cells s)) (glob s)).
  assert (cells s1 !! x = Some nx) as H1 by (cbn; now rewrite lookup_alter_ne).
  erewrite run_st by exact H1. cbn [cells glob].
  erewrite run_st by (cbn [cells]; now rewrite lookup_alter_eq, H1). cbn [cells glob].
  erewrite run_st by (cbn [cells]; now rewrite !lookup_alter_eq, H1). cbn [cells glob].
  unfold ngx_rbt_red. erewrite run_st_last by (cbn [cells]; now rewrite !lookup_alter_eq, H1).
  eexists; split; [reflexivity |]. cbn [cells glob]. set (h := alter _ x _).
  assert (forall y, y <> x -> h !! y = cells s1 !! y) as Hh by (intros; unfold h; now rewrite !lookup_alter_ne).
  assert (forall y, y <> x -> y <> p -> h !! y = cells s !! y) as Hh' by (intros; rewrite Hh; [now apply lookup_alter_ne | done]).
  split; [split |]; cbn [cells glob].
  - assert (rep_ctx sentinel (cells s1) (glob s) up C' x) as G by exact (rep_ctx_relinked C' E up sentinel x s Hf HC).
    eapply rep_ctx_frame; [| exact G]. intros y Hy. apply Hh. congruence.
  - split; [| done]. exists (rb_data nx). unfold h. now rewrite !lookup_alter_eq, H1.
  - unfold sentinel_at in *. now rewrite Hh'.
  - rewrite Hh'; try done. all: intros Q; rewrite <- Q in *; congruence.
  - apply fresh_plug in Hf. apply fresh_plug. fold C' in Hf |- *.
    change (addrs (T true E x (rb_key nx) E)) with [x]. change (addrs E) with (@nil Z) in Hf.
    rewrite app_nil_r in Hf.
    assert (x :: sentinel :: NULL :: ctx_addrs C' ≡ₚ sentinel :: NULL :: ctx_addrs C' ++ [x]) as <- by solve_Permutation.
    constructor; [| exact Hf]. rewrite !not_elem_of_cons. split_and!; try done. intros Q. rewrite Q in *. congruence.
  - intros y Hy. rewrite not_elem_of_cons, elem_of_addrs_plug in Hy. apply Hh'; [tauto |].
    intros ->. apply Hy. left. apply elem_of_ctx_addrs. now left.
Qed.

Lemma insert_by_spec before fuel up sp C t s x nx :
  at_pos sentinel s up sp C t -> t <> E -> (length (elems t) <= fuel)%nat ->
  cells s !! x = Some nx -> x ∉ addrs (plug C t) -> x <> sentinel ->
  exists s', insert_by sentinel before fuel (addr sentinel t) x s = Some (tt, s') /\
    at_pos sentinel s' up sp (locate before (x, rb_key nx) C t) (T true E x (rb_key nx) E) /\
    unchanged (x :: addrs (plug C t)) s s'.
Proof.
  revert C t. induction fuel as [|fuel IH]; intros C t H Hne Hfuel Hx Hnx Hxs.
  { destruct t; [done |]. cbn in Hfuel. rewrite length_app in Hfuel. cbn in Hfuel. lia. }
  destruct t as [|c t1 p k t2]; [done |]. cbn [addr insert_by locate].
  erewrite run_ld by done.
  destruct (proj1 (pos_tree _ _ _ _ _ _ H)) as [dt Hp]. erewrite run_ld by done. cbn [rb_key].
  cbn in Hfuel. rewrite length_app in Hfuel. cbn in Hfuel.
  assert (sees s (elems (plug C (T c t1 p k t2))) s up sp C (T c t1 p k t2)) as HS by (split; done).
  destruct (before (x, rb_key nx) (p, k)); erewrite run_ld by done; cbn [child rb_left rb_right].
  - assert (at_pos sentinel s up sp (F L c p k t2 :: C) t1) as H1 by exact (sees_pos _ _ _ _ _ _ _ (sees_in _ _ _ _ _ L _ _ _ _ _ _ HS)).
    destruct t1 as [|c1 l1 p1 k1 r1]; cbn [addr].
    + rewrite decide_True by done. now apply (place_spec _ _ L).
    + rewrite decide_False.
      * apply (IH (F L c p k t2 :: C) (T c1 l1 p1 k1 r1)); try done. lia.
      * apply (fresh_node (F L c p k t2 :: C) L c1 l1 p1 k1 r1). apply H1.
  - assert (at_pos sentinel s up sp (F R c p k t1 :: C) t2) as H1 by exact (sees_pos _ _ _ _ _ _ _ (sees_in _ _ _ _ _ R _ _ _ _ _ _ HS)).
    destruct t2 as [|c1 l1 p1 k1 r1]; cbn [addr].
    + rewrite decide_True by done. now apply (place_spec _ _ R).
    + rewrite decide_False.
      * apply (IH (F R c p k t1 :: C) (T c1 l1 p1 k1 r1)); try done. lia.
      * apply (fresh_node (F R c p k t1 :: C) L c1 l1 p1 k1 r1). apply H1.
Qed.

End InsertBy.

(** What [ngx_rbtree_insert] asks of [tree->insert]: in a tree that is not
    empty the node is placed, red and without children, where [before] says. *)
Class InsertPt (sentinel : Z) (insert : Z -> Z -> rbprog unit) (before : Z * Z -> Z * Z -> bool) : Prop :=
  insert_places : forall up sp t s x nx,
    at_pos sentinel s up sp [] t -> t <> E ->
    cells s !! x = Some nx -> x ∉ addrs t -> x <> sentinel ->
    exists s', insert (addr sentinel t) x s = Some (tt, s') /\
      at_pos sentinel s' up sp (locate before (x, rb_key nx) [] t) (T true E x (rb_key nx) E) /\
      unchanged (x :: addrs t) s s'.

Lemma insert_by_places sentinel before :
  InsertPt sentinel (fun temp node => fuel ← room; insert_by sentinel before fuel temp node) before.
Proof.
  intros up sp t s x nx H Hne Hx Hnx Hxs. rewrite run_room.
  apply (insert_by_spec before _ up sp [] t s x nx); try done. apply length_elems in H. lia.
Qed.

#[export] Instance insert_value_places sentinel :
  InsertPt sentinel (ngx_rbtree_insert_value sentinel) before_value.
Proof. apply insert_by_places. Qed.

#[export] Instance insert_timer_value_places sentinel :
  InsertPt sentinel (ngx_rbtree_insert_timer_value sentinel) before_timer.
Proof. apply insert_by_places. Qed.

(** ** The theorem *)

Section InsertTheorem.
Context {sentinel : Z} {insert : Z -> Z -> rbprog unit} {before : Z * Z -> Z * Z -> bool}.
Context `{!InsertPt sentinel insert before}.
Implicit Types (s : store ngx_rbtree_node_t Z) (t : tree).

(** [ngx_rbtree_insert], whatever the order of the keys: the new node is where
    the binary tree insertion puts it. *)
Lemma insert_places_rb s t x nx :
  holds_tree sentinel s t -> red_black t ->
  cells s !! x = Some nx -> x ∉ addrs t -> x <> sentinel ->
  exists s' t', ngx_rbtree_insert sentinel insert x s = Some (tt, s') /\
    holds_tree sentinel s' t' /\ red_black t' /\
    elems t' = elems (plug (locate before (x, rb_key nx) [] t) (T true E x (rb_key nx) E)) /\
    unchanged (x :: addrs t) s s'.
Proof.
  intros (up & sp & H) [n Hn] Hx Hxt Hxs. unfold ngx_rbtree_insert. rewrite run_get.
  pose proof (pos_ctx _ _ _ _ _ _ H) as Hroot. cbn in Hroot. rewrite Hroot.
  destruct t as [|c l p k r].
  - cbn [addr]. rewrite decide_True by done.
    pose proof H as [_ _ Hs Hnull _].
    assert (NULL <> x) as Hxn by (intros <-; congruence).
    erewrite run_st by done. cbn [cells glob].
    do 3 (unfold ngx_rbt_black; erewrite run_st by (cbn [cells]; rewrite !lookup_alter_eq, Hx; reflexivity); cbn [cells glob]).
    eexists _, (T false E x (rb_key nx) E). split; [reflexivity |].
    split; [| split; [| split]].
    + exists NULL, sp. split; cbn [cells glob]; try done.
      * split; [| done]. exists (rb_data nx). now rewrite !lookup_alter_eq, Hx.
      * unfold sentinel_at in *. now rewrite !lookup_alter_ne.
      * now rewrite !lookup_alter_ne.
      * pose proof (pos_fresh _ _ _ _ _ _ H) as Hf. unfold fresh_all in *. cbn in *.
        rewrite !NoDup_cons, !not_elem_of_cons in *. intuition auto using not_elem_of_nil.
    + exists 1%nat. eapply rb_black; constructor.
    + done.
    + intros y Hy. cbn [cells]. apply not_elem_of_cons in Hy as [Hy _]. now rewrite !lookup_alter_ne.
  - rewrite decide_False by exact (proj1 (fresh_node [] L c l p k r (pos_fresh _ _ _ _ _ _ H))).
    destruct (insert_places up sp (T c l p k r) s x nx H) as (s1 & R1 & H1 & U1); try done.
    rewrite (run_bind _ _ _ _ _ R1), run_room.
    set (t1 := T true E x (rb_key nx) E) in *. set (C := locate _ _ _ _) in *.
    assert (sees (sentinel := sentinel) s1 (elems (plug C t1)) s1 up sp C t1) as HS by (split; done).
    assert (length C <= size (cells s1))%nat as Hfuel.
    { apply sees_plug in HS as [G _ _]. apply length_elems in G. pose proof (length_plug C t1). cbn in *; lia. }
    destruct (insert_rebalance_spec (sentinel := sentinel) s1 (elems (plug C t1)) (S (size (cells s1))) s1 up sp C t1 0) as (s2 & t2 & c2 & n2 & R2 & H2 & Hrb);
      [repeat constructor | eapply locate_rb; [exact Hn | constructor] | lia | exact HS |].
    rewrite (run_bind _ _ _ _ _ R2), run_get.
    assert (glob s2 = addr sentinel t2) as -> by apply H2.
    pose proof (sees_elems _ _ _ _ _ _ _ H2) as E2. cbn [plug] in E2.
    destruct t2 as [|c2' l2 p2 k2 r2].
    { rewrite elems_plug in E2. cbn in E2. symmetry in E2. apply app_eq_nil in E2 as [_ E2]. done. }
    destruct (sees_color (sentinel := sentinel) s1 (elems (plug C t1)) s2 up sp [] L c2' false l2 p2 k2 r2 H2) as (s3 & R3 & H3).
    exists s3, (T false l2 p2 k2 r2). split; [exact R3 |]. split; [exists up, sp; exact (sees_pos _ _ _ _ _ _ _ H3) |].
    split; [| split].
    + inversion Hrb; subst; eexists; econstructor; eassumption.
    + rewrite <- E2. reflexivity.
    + eapply unchanged_trans; [exact U1 |]. eapply unchanged_mono; [| exact (sees_unchanged _ _ _ _ _ _ _ H3)].
      intros y. change ((elems (plug C t1)).*1) with (addrs (plug C t1)).
      unfold C, t1, addrs. rewrite (locate_perm before (x, rb_key nx) [] (T c l p k r) true). done.
Qed.

End InsertTheorem.

Section InsertOrdered.
Context {sentinel : Z} {insert : Z -> Z -> rbprog unit} {before : Z * Z -> Z * Z -> bool}.
Context {dom : Z * Z -> Prop} `{!InsertPt sentinel insert before} `{!KeyOrder before dom}.
Implicit Types (s : store ngx_rbtree_node_t Z) (t : tree).

(** One insertion: the new node comes after those it does not precede; all
    other cells of the store keep their contents. *)
Lemma rbtree_insert_spec s t x nx :
  holds_tree sentinel s t -> red_black t -> sorted before (elems t) ->
  Forall dom ((x, rb_key nx) :: elems t) ->
  cells s !! x = Some nx -> x ∉ addrs t -> x <> sentinel ->
  exists s' t', ngx_rbtree_insert sentinel insert x s = Some (tt, s') /\
    holds_tree sentinel s' t' /\ red_black t' /\
    elems t' = insert_in before (x, rb_key nx) (elems t) /\ sorted before (elems t') /\
    unchanged (x :: addrs t) s s'.
Proof.
  intros H Hrb Hs Hd Hx Hxt Hxs. apply Forall_cons in Hd as [Hdx Hd].
  destruct (insert_places_rb s t x nx H Hrb Hx Hxt Hxs) as (s' & t' & R & H' & Hrb' & E' & U).
  rewrite (elems_locate before (dom := dom)) in E' by done. exists s', t'. split_and!; try done. rewrite E'. now apply (insert_in_sorted before (dom := dom)).
Qed.

Fixpoint insert_all (xs : list Z) : rbprog unit :=
  match xs with
  | [] => mret tt
  | x :: xs' => ngx_rbtree_insert sentinel insert x;; insert_all xs'
  end.

(** C5: inserting nodes one after the other with [ngx_rbtree_insert] into a
    red-black tree in key order gives, without reading outside of it, a
    red-black tree of the same nodes and the new ones, each after the nodes it
    does not precede; all other cells of the store keep their contents. *)
Theorem rbtree_insert_correct s t l :
  holds_tree sentinel s t -> red_black t -> sorted before (elems t) ->
  Forall dom (l ++ elems t) -> NoDup (sentinel :: l.*1) ->
  Forall (fun x => x.1 ∉ addrs t /\ rb_key <$> cells s !! x.1 = Some x.2) l ->
  exists s' t', insert_all l.*1 s = Some (tt, s') /\
    holds_tree sentinel s' t' /\ red_black t' /\ sorted before (elems t') /\
    elems t' = fold_left (fun acc x => insert_in before x acc) l (elems t) /\
    unchanged (l.*1 ++ addrs t) s s'.
Proof.
  revert s t. induction l as [|[x k] l IH]; intros s t H Hrb Hs Hd Hn Hl; [exists s, t; now split_and! |].
  rewrite Forall_cons in Hl. destruct Hl as [[Hxt Hx] Hl]. cbn [fst snd] in Hxt, Hx.
  destruct (cells s !! x) as [nx|] eqn:Ex; [injection Hx as Hk | done].
  rewrite fmap_cons in Hn. cbn [fst] in Hn. apply NoDup_cons in Hn as [Hns Hn]. apply NoDup_cons in Hn as [Hxl Hn].
  rewrite not_elem_of_cons in Hns. cbn [app] in Hd. apply Forall_cons in Hd as [Hdx Hd]. apply Forall_app in Hd as [Hdl Hdt].
  destruct (rbtree_insert_spec s t x nx H Hrb Hs) as (s1 & t1 & R1 & H1 & Hrb1 & E1 & Hs1 & U1);
    [rewrite Hk; now constructor | done | done | naive_solver |].
  rewrite Hk in E1. pose proof (insert_in_perm before (x, k) (elems t)) as P. rewrite <- E1 in P.
  assert (addrs t1 ≡ₚ x :: addrs t) as Pa by (unfold addrs; now rewrite P, fmap_cons).
  destruct (IH s1 t1 H1 Hrb1 Hs1) as (s2 & t2 & R2 & H2 & Hrb2 & Hs2 & E2 & U2).
  - apply Forall_app. split; [done |]. rewrite P. now constructor.
  - apply NoDup_cons. naive_solver.
  - rewrite Forall_forall in Hl |- *. intros y Hy. destruct (Hl y Hy) as [Hy1 Hy2].
    assert (y.1 ∉ x :: addrs t) as Hyn.
    { rewrite not_elem_of_cons. split; [| done]. intros Q. apply Hxl. rewrite <- Q. now apply list_elem_of_fmap_2. }
    rewrite Pa, (U1 _ Hyn). done.
  - exists s2, t2. cbn [fmap list_fmap fst insert_all]. rewrite (run_bind _ _ _ _ _ R1). split_and!; try done.
    + cbn [fold_left]. now rewrite <- E1.
    + intros y Hy. cbn [app] in Hy. rewrite not_elem_of_cons, not_elem_of_app in Hy.
      rewrite U2, U1; [done | |]; rewrite ?Pa, ?not_elem_of_app, ?not_elem_of_cons; naive_solver.
Qed.

End InsertOrdered.

#[export] Instance before_value_order : KeyOrder before_value (fun _ => True).
Proof.
  split; unfold before_value; intros.
  - apply Z.ltb_lt in H1. apply Z.ltb_ge. lia.
  - rewrite Z.ltb_ge in *. lia.
Qed.

(** Timers: times that lie within 2^63 of each other, as words that wrap
    around, counted from some moment [b]. *)
Definition in_window (b : Z) (x : Z * Z) : Prop := u64 (x.2 - b) < 2 ^ 63.

(** Within a window the signed difference of two times is exact. *)
Lemma key_int_diff b x y :
  in_window b x -> in_window b y -> key_int (u64 (x.2 - y.2)) = u64 (x.2 - b) - u64 (y.2 - b).
Proof.
  unfold in_window, key_int, u64. intros Hx Hy.
  replace (x.2 - y.2) with ((x.2 - b) - (y.2 - b)) by lia. rewrite Zminus_mod.
  pose proof (Z.mod_pos_bound (x.2 - b) (2 ^ 64) ltac:(lia)).
  pose proof (Z.mod_pos_bound (y.2 - b) (2 ^ 64) ltac:(lia)).
  set (o := (x.2 - b) mod 2 ^ 64) in *. set (q := (y.2 - b) mod 2 ^ 64) in *. clearbody o q.
  destruct (Z.ltb_spec o q).
  - rewrite <- (Z.mod_add _ 1), Z.mod_small by lia. destruct (Z.ltb_spec (o - q + 1 * 2 ^ 64) (2 ^ 63)); lia.
  - rewrite Z.mod_small by lia. destruct (Z.ltb_spec (o - q) (2 ^ 63)); lia.
Qed.

Lemma before_timer_offset b x y :
  in_window b x -> in_window b y -> before_timer x y = (u64 (x.2 - b) <? u64 (y.2 - b)).
Proof.
  intros Hx Hy. unfold before_timer. rewrite (key_int_diff b) by done.
  destruct (Z.ltb_spec (u64 (x.2 - b) - u64 (y.2 - b)) 0), (Z.ltb_spec (u64 (x.2 - b)) (u64 (y.2 - b))); lia.
Qed.

#[export] Instance before_timer_order b : KeyOrder before_timer (in_window b).
Proof.
  split; intros *; intros; rewrite ?(before_timer_offset b) in * by done.
  - apply Z.ltb_lt in H1. apply Z.ltb_ge. lia.
  - rewrite Z.ltb_ge in *. lia.
Qed.

(** Two nodes, 5 and 6, with the same key, and the tree of three nodes. *)
Definition example_more : store ngx_rbtree_node_t Z :=
  mk_store (<[ 6 := mk_node 25 7 7 7 7 7 ]> (cells example_store)) (glob example_store).

Lemma example_more_holds : holds_tree 1 example_more example_tree.
Proof.
  exists 0, 0. split.
  - reflexivity.
  - cbn. repeat split; exists 0; reflexivity.
  - exists 0, 0, 0, 0. reflexivity.
  - reflexivity.
  - unfold fresh_all. apply (bool_decide_unpack _). reflexivity.
Qed.

Lemma rbtree_insert_correct_witness :
  exists s' t',
    insert_all (sentinel := 1) (insert := ngx_rbtree_insert_value 1) [5; 6] example_more = Some (tt, s') /\
    holds_tree 1 s' t' /\ red_black t' /\ sorted before_value (elems t') /\
    elems t' = [(2, 10); (3, 20); (5, 25); (6, 25); (4, 30)] /\ unchanged [5; 6; 2; 3; 4] example_more s'.
Proof.
  refine (rbtree_insert_correct (dom := fun _ => True) example_more example_tree [(5, 25); (6, 25)]
    example_more_holds example_red_black _ _ _ _).
  - repeat constructor.
  - repeat constructor.
  - apply (bool_decide_unpack _). reflexivity.
  - apply (bool_decide_unpack _). reflexivity.
Defined.
