(* ===== verification/RbWalk.v ===== *)
(** Walking the red-black tree: its least node and the node after a given
    one. *)
From S2P Require Export RbTree.

Definition first_or_null (l : list (Z * Z)) : Z := match l with [] => NULL | x :: _ => x.1 end.

(** The loop over all nodes of a tree that is not empty, as in
    [ngx_event_no_timers_left]: the nodes in the order of the visits. *)
Fixpoint visit sentinel (fuel : nat) (node : Z) : rbprog (list Z) :=
  match fuel with
  | O => out_of_fuel
  | S fuel' =>
      if decide (node = NULL) then mret [] else
      next ← ngx_rbtree_next sentinel node;
      rest ← visit sentinel fuel' next;
      mret (node :: rest)
  end.

Definition walk sentinel : rbprog (list Z) :=
  root ← get;
  node ← ngx_rbtree_min sentinel root;
  fuel ← room;
  visit sentinel fuel node.

Lemma addrs_root c l p k r : p ∈ addrs (T c l p k r).
Proof. apply (elem_of_addrs_node p L). now left. Qed.

Lemma at_pos_plug sentinel s up sp C t :
  at_pos sentinel s up sp C t <-> at_pos sentinel s up sp [] (plug C t).
Proof.
  split; intros H.
  - assert (sees (sentinel := sentinel) s (elems (plug C t)) s up sp C t) as HS by (split; done).
    apply sees_plug in HS. apply HS.
  - assert (sees (sentinel := sentinel) s (elems (plug C t)) s up sp [] (plug C t)) as HS by (split; done).
    apply sees_plug in HS. apply HS.
Qed.

Lemma plug_app C1 C2 t : plug (C1 ++ C2) t = plug C2 (plug C1 t).
Proof. revert t. induction C1 as [|[d c p k sib] C1 IH]; intros t; [done |]. apply IH. Qed.

(** Every node of a tree is at a position. *)
Lemma find_pos t p : p ∈ addrs t -> exists C c l k r, plug C (T c l p k r) = t.
Proof.
  unfold addrs. induction t as [|c l IHl q k r IHr]; cbn; [now intros ?%elem_of_nil |].
  rewrite fmap_app, fmap_cons, elem_of_app, elem_of_cons. intros [H | [-> | H]].
  - destruct (IHl H) as (C & c' & l' & k' & r' & E'). exists (C ++ [F L c q k r]), c', l', k', r'.
    now rewrite plug_app, E'.
  - now exists [], c, l, k, r.
  - destruct (IHr H) as (C & c' & l' & k' & r' & E'). exists (C ++ [F R c q k l]), c', l', k', r'.
    now rewrite plug_app, E'.
Qed.


Section Walk.
Context {sentinel : Z}.
Implicit Types (C : ctx) (s : store ngx_rbtree_node_t Z) (t a b l r : tree).

Definition all_left C : Prop := Forall (fun f => match f with F d _ _ _ _ => d = L end) C.

Lemma all_left_before C : all_left C -> before_hole C = [].
Proof. induction 1 as [|[d c p k sib] C -> H IH]; [done | exact IH]. Qed.

Lemma rbtree_min_spec fuel par s t :
  t <> E -> (length (elems t) <= fuel)%nat -> rep sentinel (cells s) par t -> sentinel ∉ addrs t ->
  exists C c q kq b, all_left C /\ t = plug C (T c E q kq b) /\
    rbtree_min sentinel fuel (addr sentinel t) s = Some (q, s).
Proof.
  revert par t. induction fuel as [|fuel IH]; intros par t Hne Hfuel Ht Hs;
    destruct t as [|c l p k r]; try done; cbn [elems] in Hfuel; rewrite length_app in Hfuel; cbn [length] in Hfuel.
  { lia. }
  cbn [rep] in Ht. destruct Ht as ([dt Hp] & Hl & _). cbn [rbtree_min addr].
  erewrite run_ld by done. cbn [rb_left].
  destruct l as [|cl ll q kq rl].
  - rewrite decide_True by done. exists [], c, p, k, r. split_and!; [constructor | done | done].
  - rewrite (elem_of_addrs_node sentinel L) in Hs.
    rewrite decide_False by (intros Q; apply Hs; right; left; rewrite <- Q; apply addrs_root).
    destruct (IH p (T cl ll q kq rl)) as (C & c' & q' & kq' & b & HC & Et & R); try done; [lia | tauto |].
    exists (C ++ [F L c p k r]), c', q', kq', b. split_and!; [| | exact R].
    + apply Forall_app. split; [exact HC | now repeat constructor].
    + now rewrite plug_app, <- Et.
Qed.


Lemma next_up_spec fuel s up sp C t :
  at_pos sentinel s up sp C t -> t <> E -> (length C < fuel)%nat ->
  next_up fuel (glob s) (addr sentinel t) s =
  Some (match after_hole C with [] => NULL | x :: _ => x.1 end, s).
Proof.
  revert C t. induction fuel as [|fuel IH]; intros C t H Hne Hfuel; [lia |]. cbn [next_up].
  assert (sees (sentinel := sentinel) s (elems (plug C t)) s up sp C t) as HS by (split; done).
  pose proof (sees_root _ _ _ _ _ _ _ Hne HS) as Hroot.
  destruct t as [|ct lt q kt rt]; [done |]. cbn [addr] in *.
  destruct (sees_node _ _ _ _ _ _ L _ _ _ _ _ HS) as (n & Hn & _ & _ & _ & _ & Hp).
  erewrite run_ld by done. rewrite Hp.
  destruct C as [|[d c p k w] C]; [now rewrite decide_True by now apply Hroot |].
  rewrite decide_False by (intros Q; apply Hroot in Q; done). cbn [top].
  pose proof (sees_out _ _ _ _ _ _ _ _ _ _ _ _ HS) as HS'.
  destruct (sees_node _ _ _ _ _ _ _ _ _ _ _ _ HS') as (np & Hnp & _ & _ & Lp & Rp & _).
  erewrite run_ld by done. destruct d; cbn [child opp] in *.
  - now rewrite decide_True.
  - rewrite decide_False by (rewrite Rp; exact (sees_ne _ _ _ _ _ _ _ _ _ _ _ _ Hne HS)).
    cbn [after_hole]. rewrite <- (addr_node_of sentinel R c (T ct lt q kt rt) p k w).
    apply IH; [exact (sees_pos _ _ _ _ _ _ _ HS') | now intros ? | cbn in Hfuel; lia].
Qed.

Lemma fst_inj_split (A A' B B' : list (Z * Z)) x y :
  NoDup (A ++ x :: B).*1 -> A ++ x :: B = A' ++ y :: B' -> x.1 = y.1 -> B = B'.
Proof.
  revert A'. induction A as [|a A IH]; intros [|a' A'] Hn Q Hxy; cbn in *.
  - now injection Q.
  - exfalso. injection Q as -> ->. apply NoDup_cons in Hn as [Hn _]. apply Hn.
    rewrite Hxy, fmap_app, fmap_cons. set_solver.
  - exfalso. injection Q as <- _. apply NoDup_cons in Hn as [Hn _]. apply Hn.
    rewrite <- Hxy, fmap_app, fmap_cons. set_solver.
  - injection Q as -> Q. apply NoDup_cons in Hn as [_ Hn]. exact (IH A' Hn Q Hxy).
Qed.

(** [ngx_rbtree_next] returns the node that follows in order, or NULL after
    the last one. *)
Lemma rbtree_next_spec s t p k A B :
  holds_tree sentinel s t -> elems t = A ++ (p, k) :: B ->
  ngx_rbtree_next sentinel p s = Some (first_or_null B, s).
Proof.
  intros (up & sp & H) Et.
  assert (p ∈ addrs t) as Hp by (unfold addrs; rewrite Et, fmap_app, fmap_cons; set_solver).
  destruct (find_pos t p Hp) as (C & c & l & k' & r & <-).
  pose proof H as H'. apply at_pos_plug in H'.
  pose proof (pos_fresh _ _ _ _ _ _ H') as Hf.
  assert (elems r ++ after_hole C = B) as <-.
  { eapply (fst_inj_split (before_hole C ++ elems l) A _ _ (p, k') (p, k)); [| | done].
    - unfold fresh_all in Hf. apply NoDup_cons in Hf as [_ Hf]. apply NoDup_cons in Hf as [_ Hf].
      rewrite elems_plug in Hf. cbn [elems] in Hf. rewrite <- !app_assoc in Hf. rewrite <- app_assoc. exact Hf.
    - rewrite <- Et, elems_plug. cbn [elems]. now rewrite <- !app_assoc. }
  destruct (proj1 (pos_tree _ _ _ _ _ _ H')) as [dt Hc]. unfold ngx_rbtree_next.
  erewrite run_ld by done. cbn [rb_right].
  assert (length C + length (elems r) <= size (cells s))%nat as Hfuel.
  { pose proof (length_plug C (T c l p k' r)) as Q. apply length_elems in H. cbn [elems] in Q. rewrite length_app in Q. cbn in Q. lia. }
  destruct r as [|cr rl rp rk rr].
  - cbn [addr]. rewrite decide_True by done. rewrite run_get, run_room. cbn [elems app].
    apply (next_up_spec _ _ up sp C (T c l p k' E)); [done | done | cbn in Hfuel; lia].
  - set (r := T cr rl rp rk rr) in *.
    pose proof (proj1 (fresh_node (F R c p k' l :: C) L cr rl rp rk rr Hf)) as Hrs.
    destruct (fresh_sub (F R c p k' l :: C) r Hf) as (_ & Sr & _).
    rewrite decide_False by exact Hrs. erewrite run_ld by done. cbn [rb_right].
    assert (rep sentinel (cells s) p r) as Hr by apply (proj2 (pos_tree _ _ _ _ _ _ H')).
    destruct (rbtree_min_spec (S (size (cells s))) p s r ltac:(done) ltac:(lia) Hr Sr) as (C1 & cq & q & kq & b & HC1 & Er & Rm).
    unfold ngx_rbtree_min. rewrite run_room, Rm, Er, elems_plug, (all_left_before C1 HC1). done.
Qed.

(** The least node, from the root. *)
Lemma rbtree_min_correct s t q k B :
  holds_tree sentinel s t -> elems t = (q, k) :: B -> ngx_rbtree_min sentinel (glob s) s = Some (q, s).
Proof.
  intros (up & sp & H) Et. pose proof (pos_ctx _ _ _ _ _ _ H) as Hroot. cbn in Hroot. rewrite Hroot.
  assert (t <> E) as Hne by (intros ->; done).
  pose proof (length_elems _ _ _ _ _ H) as Hfuel.
  destruct (rbtree_min_spec (S (size (cells s))) up s t Hne ltac:(lia) (pos_tree _ _ _ _ _ _ H) (fresh_sentinel _ (pos_fresh _ _ _ _ _ _ H)))
    as (C1 & cq & q' & kq & b & HC1 & -> & Rm).
  unfold ngx_rbtree_min. rewrite run_room, Rm. rewrite elems_plug, (all_left_before C1 HC1) in Et. cbn in Et. congruence.
Qed.
Lemma visit_spec s t A B fuel :
  holds_tree sentinel s t -> elems t = A ++ B -> (length B < fuel)%nat ->
  visit sentinel fuel (first_or_null B) s = Some (B.*1, s).
Proof.
  intros H. revert A B. induction fuel as [|fuel IH]; intros A B Et Hfuel; [lia |].
  destruct B as [|[p k] B]; cbn [first_or_null visit]; [now rewrite decide_True |].
  assert (p ∈ addrs t) as Hp by (unfold addrs; rewrite Et, fmap_app, fmap_cons; set_solver).
  cbn [fst]. rewrite decide_False.
  2:{ intros ->. destruct H as (up & sp & H). exact (fresh_null _ (pos_fresh _ _ _ _ _ _ H) Hp). }
  rewrite (run_bind _ _ _ _ _ (rbtree_next_spec _ _ _ _ _ _ H Et)).
  rewrite (run_bind _ _ _ _ _ (IH (A ++ [(p, k)]) B ltac:(now rewrite <- app_assoc) ltac:(cbn in Hfuel; lia))). done.
Qed.

(** the walk from the least node with [ngx_rbtree_next], the way its
    callers loop, ends and visits all nodes of the tree in order. *)
Theorem rbtree_next_visits_all s t :
  holds_tree sentinel s t -> elems t <> [] -> walk sentinel s = Some (addrs t, s).
Proof.
  intros H Hne. destruct (elems t) as [|[q k] B] eqn:Et; [done |]. unfold walk.
  rewrite run_get, (run_bind _ _ _ _ _ (rbtree_min_correct _ _ _ _ _ H Et)), run_room. unfold addrs. rewrite Et.
  apply (visit_spec s t [] ((q, k) :: B)); [done | done |].
  destruct H as (up & sp & H). apply length_elems in H. rewrite Et in H. lia.
Qed.
End Walk.

Lemma rbtree_next_visits_all_witness : walk 1 example_store = Some ([2; 3; 4], example_store).
Proof. refine (rbtree_next_visits_all example_store example_tree example_holds _). discriminate. Defined.
