(* ===== verification/RbDelete.v ===== *)
(** Deletion from the red-black tree: unlinking the node, the re-balancing
    loop on positions, and [rbtree_delete_correct]. *)
From S2P Require Export RbWalk.

(** ** The list without a node *)

Definition without (ev : Z) (l : list (Z * Z)) : list (Z * Z) := filter (fun x => x.1 <> ev) l.

Lemma without_absent ev l : ev ∉ l.*1 -> without ev l = l.
Proof.
  intros H. unfold without. induction l as [|x l IH]; [done |].
  rewrite fmap_cons, not_elem_of_cons in H. rewrite filter_cons_True by (intros Q; destruct H; congruence). f_equal. tauto.
Qed.

Lemma without_split ev k A B : NoDup (A ++ (ev, k) :: B).*1 -> without ev (A ++ (ev, k) :: B) = A ++ B.
Proof.
  rewrite fmap_app, fmap_cons. intros H. apply NoDup_app in H as (_ & HA & HB). apply NoDup_cons in HB as [HB _].
  unfold without. rewrite filter_app, filter_cons_False by (intros Q; now apply Q). f_equal; apply without_absent; [| exact HB].
  intros Q. apply (HA ev Q). left.
Qed.

(** ** Re-balancing after a deletion *)

(** The two halves of the loop's body are mirror images: [d] is the side of
    the node whose paths are short of a black node. *)
Definition fixup_red_sibling sentinel (d : side) (temp w : Z) : rbprog Z :=
  ngx_rbt_black w;;
  tp ← ld rb_parent temp;
  ngx_rbt_red tp;;
  tp ← ld rb_parent temp;
  rotate sentinel d tp;;
  tp ← ld rb_parent temp;
  ld (child (opp d)) tp.

Definition fixup_red_near sentinel (d : side) (temp w : Z) : rbprog Z :=
  near ← ld (child d) w;
  ngx_rbt_black near;;
  ngx_rbt_red w;;
  rotate sentinel (opp d) w;;
  tp ← ld rb_parent temp;
  ld (child (opp d)) tp.

Definition fixup_red_far sentinel (d : side) (temp w : Z) : rbprog Z :=
  tp ← ld rb_parent temp;
  ngx_rbt_copy_color w tp;;
  tp ← ld rb_parent temp;
  ngx_rbt_black tp;;
  far ← ld (child (opp d)) w;
  ngx_rbt_black far;;
  tp ← ld rb_parent temp;
  rotate sentinel d tp;;
  get.

Definition fixup_side sentinel (d : side) (temp : Z) : rbprog Z :=
  tp ← ld rb_parent temp;
  w ← ld (child (opp d)) tp;
  red ← ngx_rbt_is_red w;
  w ← (if (red : bool) then fixup_red_sibling sentinel d temp w else mret w);
  wl ← ld rb_left w;
  bl ← ngx_rbt_is_black wl;
  wr ← ld rb_right w;
  br ← ngx_rbt_is_black wr;
  if (bl && br : bool) then
    ngx_rbt_red w;;
    ld rb_parent temp
  else
    w ← (if (match d with L => br | R => bl end : bool) then fixup_red_near sentinel d temp w else mret w);
    fixup_red_far sentinel d temp w.

Lemma fixup_left s temp : delete_fixup_left s temp = fixup_side s L temp.
Proof. reflexivity. Qed.

Lemma fixup_right s temp : delete_fixup_right s temp = fixup_side s R temp.
Proof. reflexivity. Qed.

Section Fixup.
Context {sentinel : Z} {s0 : store ngx_rbtree_node_t Z} {l : list (Z * Z)}.
Abbreviation sees := (sees (sentinel := sentinel) s0 l).
Implicit Types (C : ctx) (s : store ngx_rbtree_node_t Z) (a b t : tree).

Lemma run_tree_red {B} s up sp C t (k : bool -> rbprog B) :
  sees s up sp C t -> (b ← ngx_rbt_is_red (addr sentinel t); k b) s = k (is_red_root t) s.
Proof. intros H. destruct (sees_cell _ _ _ _ _ _ _ H) as [n Hn]. exact (run_is_red _ _ _ _ _ _ _ _ _ H Hn). Qed.

Lemma run_tree_black {B} s up sp C t (k : bool -> rbprog B) :
  sees s up sp C t -> (b ← ngx_rbt_is_black (addr sentinel t); k b) s = k (negb (is_red_root t)) s.
Proof. intros H. unfold ngx_rbt_is_black. rewrite run_assoc, (run_tree_red _ _ _ _ _ _ H). apply run_ret. Qed.

(** The parent of the position, also when that is the sentinel's. *)
Lemma run_parent {B} s up sp C t (k : Z -> rbprog B) :
  sees s up sp C t -> (t = E -> sp = top up C) ->
  (p ← ld rb_parent (addr sentinel t); k p) s = k (top up C) s.
Proof.
  intros H Hsp. destruct t as [|c t1 p q t2].
  - destruct H as [[_ _ (k1 & l1 & r1 & d1 & Hs) _ _] _ _]. cbn [addr]. erewrite run_ld by done. cbn.
    now rewrite Hsp.
  - destruct (sees_node _ _ _ _ _ _ L _ _ _ _ _ H) as (n & Hn & _ & _ & _ & _ & Hp). cbn [addr].
    erewrite run_ld by done. now rewrite Hp.
Qed.

Lemma run_parent_last s up sp C t :
  sees s up sp C t -> (t = E -> sp = top up C) -> ld rb_parent (addr sentinel t) s = Some (top up C, s).
Proof.
  intros H Hsp. pose proof (run_parent s up sp C t mret H Hsp) as R.
  unfold mbind, prog_bind in R. destruct (ld rb_parent (addr sentinel t) s) as [[x s']|]; exact R.
Qed.

(** The child of the node at a position. *)
Lemma run_child {B} s up sp C d c a p k b (K : Z -> rbprog B) :
  sees s up sp C (node_of d c a p k b) -> (x ← ld (child d) p; K x) s = K (addr sentinel a) s.
Proof.
  intros H. destruct (sees_node _ _ _ _ _ _ _ _ _ _ _ _ H) as (n & Hn & _ & _ & Ha & _).
  erewrite run_ld by done. now rewrite Ha.
Qed.

Lemma run_child_opp {B} s up sp C d c a p k b (K : Z -> rbprog B) :
  sees s up sp C (node_of d c a p k b) -> (x ← ld (child (opp d)) p; K x) s = K (addr sentinel b) s.
Proof. rewrite <- node_of_opp. apply run_child. Qed.

Lemma child_last s up sp C d c a p k b :
  sees s up sp C (node_of d c a p k b) -> ld (child (opp d)) p s = Some (addr sentinel b, s).
Proof.
  intros H. destruct (sees_node _ _ _ _ _ _ _ _ _ _ _ _ H) as (n & Hn & _ & _ & _ & Hb & _).
  unfold ld. now rewrite Hn, Hb.
Qed.

(** A red sibling becomes the grandparent, and the new sibling is black. *)
Lemma fixup_red_sibling_spec d s up sp c p k a w wk b C t :
  sees s up sp (F d c p k (node_of d true a w wk b) :: C) t -> (t = E -> sp = p) ->
  exists s', fixup_red_sibling sentinel d (addr sentinel t) w s = Some (addr sentinel a, s') /\
    sees s' up sp (F d true p k a :: F d false w wk b :: C) t.
Proof.
  intros H Hsp. unfold fixup_red_sibling.
  apply sees_sibling in H. destruct (run_black _ _ _ _ _ _ _ _ _ _ _ _ H) as (s1 & R1 & H1).
  rewrite (run_bind _ _ _ _ _ R1). clear R1 H. apply sees_sibling in H1. rewrite opp_opp in H1.
  rewrite (run_parent _ _ _ _ _ _ H1 Hsp). cbn [top].
  apply sees_out in H1. destruct (run_red _ _ _ _ _ _ _ _ _ _ _ _ H1) as (s2 & R2 & H2).
  rewrite (run_bind _ _ _ _ _ R2). clear R2 H1. apply sees_in in H2.
  rewrite (run_parent _ _ _ _ _ _ H2 Hsp). cbn [top].
  apply sees_out in H2. destruct (sees_rotate _ _ _ _ _ _ _ _ _ _ _ _ _ _ _ _ H2) as (s3 & R3 & H3).
  rewrite (run_bind _ _ _ _ _ R3). apply sees_in in H3. assert (H4 := sees_in _ _ _ _ _ _ _ _ _ _ _ _ H3).
  rewrite (run_parent _ _ _ _ _ _ H4 Hsp). cbn [top].
  exists s3. split; [exact (child_last _ _ _ _ _ _ _ _ _ _ H3) | exact H4].
Qed.

(** A red near nephew takes the sibling's place, with its red child far. *)
Lemma fixup_red_near_spec d s up sp c p k a r rk b w wk e C t :
  sees s up sp (F d c p k (node_of d false (node_of d true a r rk b) w wk e) :: C) t -> (t = E -> sp = p) ->
  exists s', fixup_red_near sentinel d (addr sentinel t) w s = Some (r, s') /\
    sees s' up sp (F d c p k (node_of d false a r rk (node_of d true b w wk e)) :: C) t.
Proof.
  intros H Hsp. unfold fixup_red_near. apply sees_sibling in H.
  rewrite (run_child _ _ _ _ _ _ _ _ _ _ _ H), addr_node_of.
  apply sees_in in H. destruct (run_black _ _ _ _ _ _ _ _ _ _ _ _ H) as (s1 & R1 & H1).
  rewrite (run_bind _ _ _ _ _ R1). clear R1 H. apply sees_out in H1.
  destruct (run_red _ _ _ _ _ _ _ _ _ _ _ _ H1) as (s2 & R2 & H2).
  rewrite (run_bind _ _ _ _ _ R2). clear R2 H1. rewrite <- node_of_opp, <- (node_of_opp d false) in H2.
  destruct (sees_rotate _ _ _ _ _ _ _ _ _ _ _ _ _ _ _ _ H2) as (s3 & R3 & H3).
  rewrite (run_bind _ _ _ _ _ R3). rewrite !node_of_opp in H3. apply sees_sibling in H3. rewrite opp_opp in H3.
  rewrite (run_parent _ _ _ _ _ _ H3 Hsp). cbn [top].
  exists s3. split; [| exact H3]. apply sees_out in H3.
  rewrite (child_last _ _ _ _ _ _ _ _ _ _ H3). now rewrite addr_node_of.
Qed.

(** A red far nephew ends the re-balancing. *)
Lemma fixup_red_far_spec d s up sp c p k a w wk b r rk e C t :
  sees s up sp (F d c p k (node_of d false a w wk (node_of d true b r rk e)) :: C) t -> (t = E -> sp = p) ->
  exists s', fixup_red_far sentinel d (addr sentinel t) w s = Some (glob s', s') /\
    sees s' up sp C (node_of d c (node_of d false t p k a) w wk (node_of d false b r rk e)).
Proof.
  intros H Hsp. unfold fixup_red_far.
  rewrite (run_parent _ _ _ _ _ _ H Hsp). cbn [top]. unfold ngx_rbt_copy_color. rewrite run_assoc.
  destruct (sees_node _ _ _ _ _ _ _ _ _ _ _ _ (sees_out _ _ _ _ _ _ _ _ _ _ _ _ H)) as (np & Hnp & _ & Cp & _).
  erewrite run_ld by done. rewrite Cp. apply sees_sibling in H.
  destruct (sees_color _ _ _ _ _ _ _ _ c _ _ _ _ H) as (s1 & R1 & H1).
  rewrite (run_bind _ _ _ _ _ R1). clear R1 H np Hnp Cp. apply sees_sibling in H1. rewrite opp_opp in H1.
  rewrite (run_parent _ _ _ _ _ _ H1 Hsp). cbn [top]. apply sees_out in H1.
  destruct (run_black _ _ _ _ _ _ _ _ _ _ _ _ H1) as (s2 & R2 & H2).
  rewrite (run_bind _ _ _ _ _ R2). clear R2 H1. apply sees_in, sees_sibling in H2.
  rewrite (run_child_opp _ _ _ _ _ _ _ _ _ _ _ H2), addr_node_of.
  rewrite <- (node_of_opp d c) in H2. apply sees_in in H2.
  destruct (run_black _ _ _ _ _ _ _ _ _ _ _ _ H2) as (s3 & R3 & H3).
  rewrite (run_bind _ _ _ _ _ R3). clear R3 H2. apply sees_out in H3. rewrite node_of_opp in H3.
  apply sees_sibling in H3. rewrite opp_opp in H3.
  rewrite (run_parent _ _ _ _ _ _ H3 Hsp). cbn [top]. apply sees_out in H3.
  destruct (sees_rotate _ _ _ _ _ _ _ _ _ _ _ _ _ _ _ _ H3) as (s4 & R4 & H4).
  rewrite (run_bind _ _ _ _ _ R4). exists s4. split; [done | exact H4].
Qed.

(** What the loop knows of the subtree it looks at: painted black, its paths
    have one black node more than its place had before the deletion. *)
Definition short (n : nat) t : Prop :=
  is_red_root t = false /\ is_rb false n t \/ is_red_root t = true /\ is_rb false (S n) (blacken t).

Lemma is_rb_false_root c n t : is_rb c n t -> is_red_root t = c.
Proof. now inversion 1. Qed.

Lemma short_red n l1 p k r : (exists c, is_rb c n l1) -> (exists c, is_rb c n r) -> forall d, short n (node_of d true l1 p k r).
Proof.
  intros Hl Hr d. right. split; [now destruct d |].
  replace (blacken _) with (node_of d false l1 p k r) by now destruct d. now apply is_rb_black.
Qed.

Lemma is_red_root_node_of d c a p k b : is_red_root (node_of d c a p k b) = c.
Proof. now destruct d. Qed.

Lemma is_rb_inv_black d n t :
  is_rb false (S n) t -> exists a p k b, t = node_of d false a p k b /\
    (exists c, is_rb c n a) /\ exists c, is_rb c n b.
Proof. inversion 1; subst. destruct d; eauto 10. Qed.

(** The sibling is black, or was made so. *)
Lemma fixup_sibling_spec d s up sp c p k w C t n :
  hole_rb false (S n) (F d c p k w :: C) -> sees s up sp (F d c p k w :: C) t -> (t = E -> sp = p) ->
  exists s1 c1 a q qk b C1,
    (forall B (K : Z -> rbprog B),
      (red ← ngx_rbt_is_red (addr sentinel w);
       w ← (if (red : bool) then fixup_red_sibling sentinel d (addr sentinel t) (addr sentinel w)
            else mret (addr sentinel w)); K w) s = K q s1) /\
    sees s1 up sp (F d c1 p k (node_of d false a q qk b) :: C1) t /\
    (exists ca, is_rb ca n a) /\ (exists cb, is_rb cb n b) /\
    hole_rb false (S n) (F d c1 p k (node_of d false a q qk b) :: C1) /\
    (length C1 <= length C \/ c1 = true /\ length C1 = S (length C))%nat.
Proof.
  intros HC H Hsp. pose proof (sees_sibling _ _ _ _ _ _ _ _ _ _ _ _ H) as Hw.
  assert (exists cw, is_rb cw (S n) w) as [[] Hrb].
  { destruct c; [apply hole_rb_inv_red in HC | apply hole_rb_inv_black in HC]; destruct HC; eauto. }
  - assert (c = false) as -> by (destruct c; [apply hole_rb_inv_red in HC as [HC _]; inversion Hrb; subst; inversion HC | done]).
    apply hole_rb_inv_black in HC as [_ HC].
    apply (is_rb_inv_red d) in Hrb as (a & w' & wk & b & -> & Ha & Hb).
    destruct (fixup_red_sibling_spec _ _ _ _ _ _ _ _ _ _ _ _ _ H Hsp) as (s1 & R1 & H1).
    pose proof Ha as Ha'. apply (is_rb_inv_black d) in Ha' as (a1 & q & qk & b1 & -> & Ha1 & Hb1).
    exists s1, true, a1, q, qk, b1, (F d false w' wk b :: C).
    split; [| split; [exact H1 |]].
    + intros B K. rewrite (run_tree_red _ _ _ _ _ _ Hw), is_red_root_node_of, addr_node_of, (run_bind _ _ _ _ _ R1).
      now rewrite addr_node_of.
    + split_and!; try done; [| cbn; lia].
      apply hole_red; [exact Ha |]. eapply hole_black; [exact Hb | exact HC].
  - apply (is_rb_inv_black d) in Hrb as (a & q & qk & b & -> & Ha & Hb).
    exists s, c, a, q, qk, b, C. split_and!; try done; [| lia].
    intros B K. rewrite (run_tree_red _ _ _ _ _ _ Hw), is_red_root_node_of, addr_node_of. apply run_ret.
Qed.

(** The two nephews are read left to right. *)
Lemma run_nephews {B} d s up sp C a w wk b (K : bool -> bool -> rbprog B) :
  sees s up sp C (node_of d false a w wk b) ->
  (wl ← ld rb_left w; bl ← ngx_rbt_is_black wl; wr ← ld rb_right w; br ← ngx_rbt_is_black wr; K bl br) s =
  match d with
  | L => K (negb (is_red_root a)) (negb (is_red_root b)) s
  | R => K (negb (is_red_root b)) (negb (is_red_root a)) s
  end.
Proof.
  intros H. pose proof (sees_in _ _ _ _ _ _ _ _ _ _ _ _ H) as Ha.
  pose proof (sees_sibling _ _ _ _ _ _ _ _ _ _ _ _ Ha) as Hb.
  destruct (sees_node _ _ _ _ _ _ _ _ _ _ _ _ H) as (n & Hn & _ & _ & Ea & Eb & _).
  erewrite run_ld by done. destruct d; cbn [child opp] in *; rewrite ?Ea, ?Eb.
  - rewrite (run_tree_black _ _ _ _ _ _ Ha). erewrite run_ld by done. rewrite Eb.
    apply (run_tree_black _ _ _ _ _ _ Hb).
  - rewrite (run_tree_black _ _ _ _ _ _ Hb). erewrite run_ld by done. rewrite Ea.
    apply (run_tree_black _ _ _ _ _ _ Ha).
Qed.

Lemma hole_rb_sibling c c1 n d p k b b' C :
  hole_rb c n (F d c1 p k b :: C) -> is_rb false n b' -> hole_rb c n (F d c1 p k b' :: C).
Proof. inversion 1; subst; intros; econstructor; eassumption. Qed.

(** After the last rotation the whole tree is in order, and the loop goes on
    at its root. *)
Lemma fixup_far_step d s up sp c p k a w wk b r rk e C t n :
  is_rb false n t -> (exists c, is_rb c n a) -> is_rb false n b -> is_rb false n e ->
  hole_rb false (S n) (F d c p k (node_of d false a w wk (node_of d true b r rk e)) :: C) ->
  sees s up sp (F d c p k (node_of d false a w wk (node_of d true b r rk e)) :: C) t -> (t = E -> sp = p) ->
  exists s' t' n', fixup_red_far sentinel d (addr sentinel t) w s = Some (addr sentinel t', s') /\
    sees s' up sp [] t' /\ t' <> E /\ is_rb false n' t'.
Proof.
  intros Ht Ha Hb He HC H Hsp.
  destruct (fixup_red_far_spec _ _ _ _ _ _ _ _ _ _ _ _ _ _ _ _ H Hsp) as (s' & R & H').
  set (T' := node_of d c _ w wk _) in H'. apply sees_plug in H'.
  assert (is_rb false (S n) (node_of d false t p k a)) as H1 by (apply is_rb_black; eauto).
  assert (is_rb false (S n) (node_of d false b r rk e)) as H2 by (apply is_rb_black; eauto).
  assert (red_black (plug C T')) as [n' Hn'].
  { destruct c; [apply hole_rb_inv_red in HC as [_ HC] | apply hole_rb_inv_black in HC as [_ HC]];
      (eapply is_rb_plug; [exact HC |]); [apply is_rb_red | apply is_rb_black]; eauto. }
  exists s', (plug C T'), n'. split_and!; [| done | | done].
  - rewrite R. do 2 f_equal. apply H'.
  - intros Q. pose proof (elem_of_addrs_plug w C T') as G. rewrite Q in G. unfold T' in G.
    rewrite elem_of_addrs_node in G. apply (not_elem_of_nil w), G. auto.
Qed.

Lemma fixup_step d s up sp c p k w C t n :
  is_rb false n t -> hole_rb false (S n) (F d c p k w :: C) ->
  sees s up sp (F d c p k w :: C) t -> (t = E -> sp = p) ->
  exists s' C' t' n', fixup_side sentinel d (addr sentinel t) s = Some (addr sentinel t', s') /\
    sees s' up sp C' t' /\ t' <> E /\ short n' t' /\ hole_rb false (S n') C' /\
    (length C' <= length C \/ is_red_root t' = true)%nat.
Proof.
  intros Ht HC H Hsp. unfold fixup_side.
  rewrite (run_parent _ _ _ _ _ _ H Hsp). cbn [top].
  rewrite (run_child_opp _ _ _ _ _ _ _ _ _ _ _ (sees_out _ _ _ _ _ _ _ _ _ _ _ _ H)).
  destruct (fixup_sibling_spec _ _ _ _ _ _ _ _ _ _ _ HC H Hsp)
    as (s1 & c1 & a & q & qk & b & C1 & R1 & H1 & [ca Ha] & [cb Hb] & HC1 & Hlen).
  rewrite R1. clear R1 H HC.
  pose proof (sees_sibling _ _ _ _ _ _ _ _ _ _ _ _ H1) as Hw.
  rewrite (run_nephews d _ _ _ _ _ _ _ _ _ Hw), (is_rb_false_root _ _ _ Ha), (is_rb_false_root _ _ _ Hb).
  destruct cb; [| destruct ca].
  - (* the far nephew is red *)
    apply (is_rb_inv_red d) in Hb as (b1 & r & rk & b2 & -> & Hb1 & Hb2).
    destruct (fixup_far_step _ _ _ _ _ _ _ _ _ _ _ _ _ _ _ _ _ Ht (ex_intro _ _ Ha) Hb1 Hb2 HC1 H1 Hsp)
      as (s2 & t2 & n2 & R2 & H2 & Hne & Ht2).
    exists s2, [], t2, n2. split_and!; [| done | done | left; split; [now apply is_rb_false_root in Ht2 | done] | constructor | cbn; lia].
    rewrite <- R2. destruct d, ca; reflexivity.
  - (* only the near nephew is red *)
    apply (is_rb_inv_red d) in Ha as (a1 & r & rk & a2 & -> & Ha1 & Ha2).
    destruct (fixup_red_near_spec _ _ _ _ _ _ _ _ _ _ _ _ _ _ _ _ H1 Hsp) as (s2 & R2 & H2).
    assert (hole_rb false (S n) (F d c1 p k (node_of d false a1 r rk (node_of d true a2 q qk b)) :: C1)) as HC2.
    { eapply hole_rb_sibling; [exact HC1 |]. apply is_rb_black. split; [eauto |]. exists true. now apply is_rb_red. }
    destruct (fixup_far_step _ _ _ _ _ _ _ _ _ _ _ _ _ _ _ _ _ Ht (ex_intro _ _ Ha1) Ha2 Hb HC2 H2 Hsp)
      as (s3 & t3 & n3 & R3 & H3 & Hne & Ht3).
    exists s3, [], t3, n3. split_and!; [| done | done | left; split; [now apply is_rb_false_root in Ht3 | done] | constructor | cbn; lia].
    rewrite <- R3. destruct d; cbn [negb andb]; now rewrite (run_bind _ _ _ _ _ R2).
  - (* both are black *)
    destruct (run_red _ _ _ _ _ _ _ _ _ _ _ _ Hw) as (s2 & R2 & H2).
    apply sees_sibling in H2. rewrite opp_opp in H2.
    exists s2, C1, (node_of d c1 t p k (node_of d true a q qk b)), (if c1 then n else S n).
    split_and!.
    + rewrite addr_node_of. transitivity (ld rb_parent (addr sentinel t) s2); [| exact (run_parent_last _ _ _ _ _ H2 Hsp)].
      destruct d; cbn [negb andb]; now rewrite (run_bind _ _ _ _ _ R2).
    + now apply sees_out.
    + now destruct d.
    + assert (is_rb true n (node_of d true a q qk b)) by now apply is_rb_red.
      destruct c1; [apply short_red; eauto |]. left. split; [apply is_red_root_node_of | apply is_rb_black; eauto].
    + destruct c1; [apply hole_rb_inv_red in HC1 as [_ HC1]; now apply hole_rb_weaken | now apply hole_rb_inv_black in HC1 as [_ HC1]].
    + destruct Hlen as [Hlen | [-> _]]; [now left | right; apply is_red_root_node_of].
Qed.

Lemma sees_blacken s up sp C t :
  t <> E -> sees s up sp C t -> exists s', ngx_rbt_black (addr sentinel t) s = Some (tt, s') /\ sees s' up sp C (blacken t).
Proof. destruct t as [|c a p k b]; [done |]. intros _ H. exact (run_black _ _ _ _ _ _ L _ _ _ _ _ H). Qed.

(** The sentinel may be painted too, but it is black already. *)
Lemma black_sentinel s up sp t :
  at_pos sentinel s up sp [] t ->
  exists s', ngx_rbt_black sentinel s = Some (tt, s') /\ at_pos sentinel s' up sp [] t /\
    unchanged [] s s'.
Proof.
  intros [HC Ht (k & l1 & r1 & d1 & Hs) Hn Hf]. unfold ngx_rbt_black. erewrite run_st_last by done.
  eexists; split; [done |]. cbn [cells glob].
  assert (alter (set_color 0) sentinel (cells s) = cells s) as ->.
  { apply map_eq. intros x. destruct (decide (x = sentinel)) as [-> | Hx].
    - now rewrite lookup_alter_eq, Hs.
    - now rewrite lookup_alter_ne. }
  split; [| done]. split; try done. exists k, l1, r1, d1. exact Hs.
Qed.

Lemma sees_not_root s up sp d c p k w C t : sees s up sp (F d c p k w :: C) t -> addr sentinel t <> glob s.
Proof.
  intros H. destruct t as [|c1 a q qk b].
  - destruct H as [[HC _ _ _ Hf] _ _]. cbn in HC. destruct HC as (_ & _ & HC). apply rep_ctx_root in HC.
    intros Q. apply (fresh_sentinel _ Hf), elem_of_addrs_plug. left. apply elem_of_ctx_addrs.
    cbn in Q. rewrite Q. rewrite elem_of_cons in HC. tauto.
  - assert (T c1 a q qk b <> E) as Hne by done. intros Q. now apply (sees_root _ _ _ _ _ _ _ Hne H) in Q.
Qed.

Lemma delete_fixup_spec fuel s up sp C t n :
  short n t -> hole_rb false (S n) C -> (t = E -> sp = top up C) ->
  (length C < fuel)%nat \/ is_red_root t = true /\ (0 < fuel)%nat -> sees s up sp C t ->
  exists s' t', delete_fixup sentinel fuel (addr sentinel t) s = Some (tt, s') /\
    sees s' up sp [] t' /\ red_black t'.
Proof.
  revert s C t n. induction fuel as [|fuel IH]; intros s C t n Ht HC Hsp Hfuel H; [lia |]. cbn [delete_fixup].
  rewrite run_get, (run_tree_black _ _ _ _ _ _ H).
  destruct Ht as [[Hr Ht] | [Hr Ht]]; rewrite Hr.
  - destruct C as [|[d c p k w] C].
    + rewrite bool_decide_eq_false_2 by (intros Q; apply Q; symmetry; exact (pos_ctx _ _ _ _ _ _ (sees_pos _ _ _ _ _ _ _ H))). cbn [andb].
      destruct t as [|c l1 p k r].
      * destruct H as [Hp He Hu]. destruct (black_sentinel _ _ _ _ Hp) as (s' & R & Hp' & Hu').
        exists s', E. split; [exact R |]. split; [| now exists n]. split; [done | done |].
        intros x Hx. rewrite Hu'; [now apply Hu | apply not_elem_of_nil].
      * assert (T c l1 p k r <> E) as Hne by done.
        destruct (sees_blacken _ _ _ _ _ Hne H) as (s' & R & H').
        exists s', (blacken (T c l1 p k r)). split; [exact R |]. split; [exact H' |].
        cbn in Hr. subst c. now exists n.
    + rewrite bool_decide_eq_true_2.
      2:{ exact (sees_not_root _ _ _ _ _ _ _ _ _ _ H). }
      cbn [andb negb]. rewrite (run_parent _ _ _ _ _ _ H Hsp). cbn [top].
      destruct (fixup_step _ _ _ _ _ _ _ _ _ _ _ Ht HC H Hsp) as (s1 & C1 & t1 & n1 & R1 & H1 & Hne1 & Ht1 & HC1 & Hlen).
      destruct (sees_node _ _ _ _ _ _ _ _ _ _ _ _ (sees_out _ _ _ _ _ _ _ _ _ _ _ _ H)) as (np & Hnp & _ & _ & La & Lb & _).
      erewrite run_ld by done. rewrite fixup_left, fixup_right.
      rewrite (run_bind _ _ s (addr sentinel t1) s1).
      { eapply IH; [exact Ht1 | exact HC1 | done | | exact H1]. cbn in Hfuel. rewrite Hr in Hfuel. destruct Hlen; [left | right]; lia || (split; [done | lia]). }
      destruct d; cbn [child opp] in *.
      * now rewrite decide_True.
      * rewrite decide_False; [done |]. rewrite Lb. apply not_eq_sym.
        refine (sees_ne _ _ _ _ _ _ _ _ _ _ _ _ _ (sees_sibling _ _ _ _ _ _ _ _ _ _ _ _ H)).
        intros ->. destruct c; [apply hole_rb_inv_red in HC as [HC _] | apply hole_rb_inv_black in HC as [[? HC] _]]; inversion HC.
  - rewrite andb_false_r.
    assert (t <> E) as Hne by (intros ->; done).
    destruct (sees_blacken _ _ _ _ _ Hne H) as (s' & R & H').
    exists s', (plug C (blacken t)). split; [exact R |]. split; [now apply sees_plug in H' |].
    eapply is_rb_plug; eassumption.
Qed.
End Fixup.

(** ** Unlinking *)

Lemma is_rb_unplug C t : red_black (plug C t) -> exists c n, is_rb c n t /\ hole_rb c n C.
Proof.
  revert t. induction C as [|[d c p k sib] C IH]; intros t H; cbn [plug] in H.
  - destruct H as [n H]. exists false, n. split; [done | constructor].
  - destruct (IH _ H) as (c1 & n & Ht & HC). destruct c.
    + assert (c1 = true) as -> by (destruct d; now inversion Ht). apply is_rb_red in Ht as [Ht Hs].
      exists false, n. split; [done | now apply hole_red].
    + assert (c1 = false) as -> by (destruct d; now inversion Ht).
      assert (exists m, n = S m) as [m ->] by (destruct d; inversion Ht; eauto).
      apply is_rb_black in Ht as [[ct Ht] [cs Hs]]. exists ct, m. split; [done | eapply hole_black; eassumption].
Qed.

(** The colours of a context decide, not its nodes. *)
Lemma hole_rb_rename c n C1 d c0 p k q kq sib C :
  hole_rb c n (C1 ++ F d c0 p k sib :: C) -> hole_rb c n (C1 ++ F d c0 q kq sib :: C).
Proof.
  revert c n. induction C1 as [|[d1 c1 p1 k1 s1] C1 IH]; intros c n; cbn [app].
  - inversion 1; subst; econstructor; eassumption.
  - inversion 1; subst; [eapply hole_red | eapply hole_black]; eauto.
Qed.

Section Unlink.
Context {sentinel : Z}.
Implicit Types (C : ctx) (s : store ngx_rbtree_node_t Z) (t a b l r : tree).

(** A position where the subtree's root has [v] for its parent. *)
Record loose s (v up sp : Z) C t : Prop := {
  loose_ctx : rep_ctx sentinel (cells s) (glob s) up C (addr sentinel t);
  loose_tree : rep sentinel (cells s) v t;
  loose_sentinel : sentinel_at sentinel (cells s) sp;
  loose_null : cells s !! NULL = None;
  loose_fresh : fresh_all sentinel (elems (plug C t)) }.

Lemma loose_at_pos s up sp C t : loose s (top up C) up sp C t <-> at_pos sentinel s up sp C t.
Proof. split; intros []; split; done. Qed.

(** [temp] takes the place of its parent [q], whose other child is missing. *)
Lemma loosen s v up sp d0 c0 p0 k0 sib C d cq q kq temp :
  let C0 := F d0 c0 p0 k0 sib :: C in
  at_pos sentinel s up sp C0 (node_of d cq temp q kq E) ->
  let s' := mk_store (alter (set_parent v) (addr sentinel temp) (cells (relinked C0 (addr sentinel temp) s))) (glob s) in
  loose s' v up (match temp with E => v | _ => sp end) C0 temp /\
  cells s' !! q = cells s !! q /\
  unchanged (sentinel :: addrs (plug C0 (node_of d cq temp q kq E))) s s' /\
  exists n, cells (relinked C0 (addr sentinel temp) s) !! addr sentinel temp = Some n.
Proof.
  intros C0 [HC Ht Hs Hnull Hf] s'.
  pose proof (fresh_node _ _ _ _ _ _ _ Hf) as (Fs & Fn & Fq & _ & FC).
  pose proof (rep_ctx_relinked C0 _ up _ (addr sentinel temp) s Hf HC) as HC'.
  set (h1 := cells (relinked C0 (addr sentinel temp) s)) in *.
  apply rep_node_of in Ht as (_ & Ht & _).
  assert (forall x, x ∈ ctx_addrs C0 -> x ∉ addrs temp) as Hdis.
  { intros x Hx Hxt. apply (disjoint_ctx _ _ x Hf Hx). rewrite elem_of_addrs_node. auto. }
  assert (forall x, x ∉ ctx_addrs C0 -> h1 !! x = cells s !! x) as Hh1 by (intros; now apply relinked_lookup).
  apply fresh_plug in Hf. rewrite addrs_node_of in Hf. change (addrs E) with (@nil Z) in Hf. rewrite app_nil_r in Hf.
  assert (fresh_all sentinel (elems (plug C0 temp))) as Hf'.
  { apply fresh_plug. apply NoDup_cons in Hf as [Q1 Hf]. apply NoDup_cons in Hf as [Q2 Hf].
    rewrite <- Permutation_middle in Hf. apply NoDup_cons in Hf as [_ Hf].
    rewrite !not_elem_of_cons, !not_elem_of_app, ?not_elem_of_cons in *.
    constructor; [| constructor; [| exact Hf]]; rewrite ?not_elem_of_cons, ?not_elem_of_app; tauto. }
  destruct (fresh_sub _ _ Hf') as (Nt & St & _).
  assert (sentinel ∉ ctx_addrs C0 /\ NULL ∉ ctx_addrs C0) as [SC NC].
  { apply fresh_sentinel in Hf' as G1. apply fresh_null in Hf' as G2. rewrite elem_of_addrs_plug in G1, G2. tauto. }
  split; [split |split; [| split]].
  - cbn [cells glob]. eapply rep_ctx_frame; [| exact HC']. intros x Hx. apply lookup_alter_ne.
    intros <-. destruct temp as [|ct lt t0 kt rt]; [done |]. apply (Hdis _ Hx). now apply addr_in.
  - eapply rep_reparent; [exact Ht | | | exact Nt].
    + intros x Hx Hne. cbn [cells s']. rewrite lookup_alter_ne by done. apply Hh1. intros G. exact (Hdis x G Hx).
    + intros Hne. cbn [cells s']. rewrite lookup_alter_eq. f_equal. apply Hh1. intros G. exact (Hdis _ G (addr_in _ Hne)).
  - destruct Hs as (k1 & l1 & r1 & d1 & Hs). exists k1, l1, r1, d1. cbn [cells s']. destruct temp as [|ct lt t0 kt rt]; cbn [addr].
    + rewrite lookup_alter_eq, Hh1, Hs by done. done.
    + rewrite lookup_alter_ne, Hh1, Hs; [done | done |]. intros <-. apply St. apply addrs_root.
  - cbn [cells s']. assert (h1 !! NULL = None) as G by now rewrite Hh1.
    destruct (decide (addr sentinel temp = NULL)) as [-> | Hne]; [now rewrite lookup_alter_eq, G | now rewrite lookup_alter_ne].
  - exact Hf'.
  - cbn [cells s']. rewrite lookup_alter_ne; [now apply Hh1 |].
    destruct temp as [|ct lt t0 kt rt]; [done |]. intros <-. apply Fq. apply addrs_root.
  - intros x Hx. apply not_elem_of_cons in Hx as [Hx1 Hx2].
    rewrite elem_of_addrs_plug, elem_of_addrs_node in Hx2. cbn [cells s']. rewrite lookup_alter_ne, Hh1; [done | tauto |].
    destruct temp as [|ct lt t0 kt rt]; [done |]. intros <-. apply Hx2. right. right. left. apply addrs_root.
  - fold h1. destruct temp as [|ct lt t0 kt rt]; cbn [addr].
    + destruct Hs as (k1 & l1 & r1 & d1 & Hs). rewrite Hh1 by done. eauto.
    + destruct Ht as [[dt Ht] _]. rewrite Hh1; [eauto |]. intros G. exact (Hdis _ G (addrs_root _ _ _ _ _)).
Qed.
End Unlink.

Section Replace.
Context {sentinel : Z}.
Implicit Types (C : ctx) (s : store ngx_rbtree_node_t Z) (t a b l r : tree).

(** The second part of a deletion, when [q] replaces the node [p]. *)
Definition replace_by (p q : Z) : rbprog unit :=
  nl ← ld rb_left p;
  st (set_left nl) q;;
  nr ← ld rb_right p;
  st (set_right nr) q;;
  np ← ld rb_parent p;
  st (set_parent np) q;;
  ngx_rbt_copy_color q p;;
  relink L p q;;
  sl ← ld rb_left q;
  (if decide (sl = sentinel) then mret tt else st (set_parent q) sl);;
  sr ← ld rb_right q;
  if decide (sr = sentinel) then mret tt else st (set_parent q) sr.

Lemma run_reparent_last t par par' s :
  rep sentinel (cells s) par t -> sentinel ∉ addrs t ->
  (if decide (addr sentinel t = sentinel) then mret tt else st (set_parent par') (addr sentinel t)) s =
  Some (tt, mk_store (reparented t par' (cells s)) (glob s)).
Proof.
  destruct t as [|c l p q r]; cbn.
  - rewrite decide_True by done. now destruct s.
  - intros ([dt H] & _) Hs. rewrite decide_False by (intros Q; apply Hs; rewrite <- Q; exact (addrs_root c l p q r)). exact (run_st_last _ _ _ _ H).
Qed.

Lemma replace_by_spec s v up sp C c l p k r q nq :
  loose (sentinel := sentinel) s v up sp (F R c p k l :: C) r ->
  fresh_all sentinel (elems (plug C (T c l q (rb_key nq) r))) ->
  cells s !! q = Some nq -> p <> q ->
  exists s', replace_by p q s = Some (tt, s') /\
    at_pos sentinel s' up sp C (T c l q (rb_key nq) r) /\
    cells s' !! p = cells s !! p /\ unchanged (q :: addrs (plug (F R c p k l :: C) r)) s s'.
Proof.
  intros [HC Hr Hs Hnull Hf] Hfq Hq Hpq. cbn [rep_ctx] in HC. destruct HC as ([dt Hp] & Hl & HC).
  pose proof (fresh_node C R c r p k l Hf) as (Ps & Pn & Pr & Pl & PC).
  pose proof (fresh_node C L c l q (rb_key nq) r Hfq) as (Qs & Qn & Ql & Qr & QC).
  pose proof (fresh_sub _ _ Hf) as (Nr & Sr & _).
  pose proof (fresh_sub (F L c p k r :: C) l Hf) as (Nl & Sl & _).
  unfold replace_by.
  erewrite run_ld by done. cbn [rb_left].
  erewrite run_st by done.
  erewrite run_ld by (cbn [cells]; rewrite lookup_alter_ne by done; exact Hp). cbn [rb_right].
  erewrite run_st by (cbn [cells]; rewrite lookup_alter_eq, Hq; reflexivity). cbn [cells glob].
  erewrite run_ld by (cbn [cells]; rewrite !lookup_alter_ne by done; exact Hp). cbn [rb_parent].
  erewrite run_st by (cbn [cells]; rewrite !lookup_alter_eq, Hq; reflexivity). cbn [cells glob].
  unfold ngx_rbt_copy_color. rewrite run_assoc.
  erewrite run_ld by (cbn [cells]; rewrite !lookup_alter_ne by done; exact Hp). cbn [rb_color].
  erewrite run_st by (cbn [cells]; rewrite !lookup_alter_eq, Hq; reflexivity). cbn [cells glob].
  set (s1 := mk_store (alter (set_color _) q _) (glob s)).
  assert (forall x, x <> q -> cells s1 !! x = cells s !! x) as H1 by (intros; cbn [cells s1]; now rewrite !lookup_alter_ne).
  assert (exists n1, cells s1 !! q = Some n1 /\ rb_key n1 = rb_key nq /\ rb_left n1 = addr sentinel l /\
    rb_right n1 = addr sentinel r /\ rb_parent n1 = top up C /\ rb_color n1 = (if c then 1 else 0))
    as (n1 & Hn1 & K1 & L1 & R1 & P1 & C1).
  { eexists. cbn [cells s1]. rewrite !lookup_alter_eq, Hq. split; [reflexivity | done]. }
  assert (rep_ctx sentinel (cells s1) (glob s1) up C p) as HC1.
  { eapply rep_ctx_frame; [| exact HC]. intros x Hx. apply H1. congruence. }
  erewrite (run_bind (relink L p q) _ s1) by
    (eapply (relink_spec L C up p q s1); [exact HC1 | done | done | rewrite H1 by done; exact Hp | done]).
  set (s2 := relinked C q s1).
  assert (forall x, x ∉ ctx_addrs C -> cells s2 !! x = cells s1 !! x) as H2 by (intros; now apply relinked_lookup).
  assert (forall x, x ∈ addrs l -> x ∉ ctx_addrs C /\ x <> q /\ x ∉ addrs r) as Hl'.
  { intros x Hx. split_and!; [| congruence |]; intros G;
      (refine (disjoint_ctx (F L c p k r :: C) l x Hf _ Hx); apply elem_of_ctx_addrs; auto). }
  assert (forall x, x ∈ addrs r -> x ∉ ctx_addrs C /\ x <> q) as Hr'.
  { intros x Hx. split; [| congruence]; intros G;
      (refine (disjoint_ctx (F R c p k l :: C) r x Hf _ Hx); apply elem_of_ctx_addrs; auto). }
  assert (rep sentinel (cells s2) p l) as Hl2.
  { eapply rep_frame; [| exact Hl]. intros x Hx. destruct (Hl' x Hx) as (? & ? & ?). now rewrite H2, H1. }
  assert (cells s2 !! q = Some n1) as Hq2 by now rewrite H2.
  erewrite run_ld by exact Hq2. rewrite L1, (run_reparent _ _ _ _ _ Hl2 Sl).
  set (s3 := mk_store (reparented l q (cells s2)) (glob s2)).
  assert (forall x, x ∉ addrs l -> cells s3 !! x = cells s2 !! x) as H3 by (intros; now apply reparented_lookup).
  erewrite run_ld by (rewrite H3 by done; exact Hq2). rewrite R1.
  assert (rep sentinel (cells s3) v r) as Hr3.
  { eapply rep_frame; [| exact Hr]. intros x Hx. destruct (Hr' x Hx) as [? ?].
    rewrite H3, H2, H1; try done. intros G. now apply Hl' in G as (_ & _ & G). }
  rewrite (run_reparent_last _ _ _ _ Hr3 Sr). eexists; split; [reflexivity |].
  set (h := reparented r q (cells s3)).
  assert (forall x, x ∉ addrs r -> h !! x = cells s3 !! x) as H4 by (intros; now apply reparented_lookup).
  assert (forall x, x ∉ addrs r -> x ∉ addrs l -> x ∉ ctx_addrs C -> x <> q -> h !! x = cells s !! x) as H5.
  { intros. now rewrite H4, H3, H2, H1. }
  pose proof (fresh_sentinel _ Hfq) as SS. pose proof (fresh_null _ Hfq) as NN.
  rewrite elem_of_addrs_plug, (elem_of_addrs_node sentinel L) in SS.
  rewrite elem_of_addrs_plug, (elem_of_addrs_node NULL L) in NN.
  split; [split |]; cbn [cells glob].
  - cbn [addr]. eapply rep_ctx_frame; [| exact (rep_ctx_relinked C _ up p q s1 Hfq HC1)].
    intros x Hx. fold s2. rewrite H4, H3; [done | |]; intros G; [apply Hl' in G | apply Hr' in G]; tauto.
  - apply (rep_node_of _ _ L). split_and!.
    + exists n1. rewrite H4, H3 by done. split_and!; done.
    + eapply rep_frame; [| exact (rep_reparented l p q (cells s2) Nl Hl2)]. intros x Hx. rewrite H4; [done |]. now apply Hl' in Hx.
    + exact (rep_reparented r v q (cells s3) Nr Hr3).
  - unfold sentinel_at in *. rewrite H5; [done | tauto..].
  - rewrite H5; [done | tauto..].
  - exact Hfq.
  - split; [now rewrite H5 |]. intros x Hx. cbn [cells].
    rewrite not_elem_of_cons, elem_of_addrs_plug, elem_of_ctx_addrs in Hx. apply H5; tauto.
Qed.
End Replace.

Section Delete.
Context {sentinel : Z}.
Implicit Types (C : ctx) (s : store ngx_rbtree_node_t Z) (t a b l r : tree).

Lemma forget_spec s up sp C t p n :
  at_pos sentinel s up sp C t -> cells s !! p = Some n -> p ∉ addrs (plug C t) -> p <> sentinel ->
  exists s', forget_node p s = Some (tt, s') /\ at_pos sentinel s' up sp C t /\ unchanged [p] s s'.
Proof.
  intros [HC Ht Hs Hnull Hf] Hn Hp Hps. rewrite elem_of_addrs_plug in Hp. unfold forget_node.
  do 3 (erewrite run_st by (cbn [cells]; rewrite ?lookup_alter_eq, Hn; reflexivity); cbn [cells glob]).
  erewrite run_st_last by (cbn [cells]; rewrite ?lookup_alter_eq, Hn; reflexivity). cbn [cells glob].
  eexists; split; [reflexivity |]. set (h := alter (set_key 0) p _).
  assert (forall x, x <> p -> h !! x = cells s !! x) as Hh by (intros; unfold h; now rewrite !lookup_alter_ne).
  split; [split |]; cbn [cells glob].
  - eapply rep_ctx_frame; [| exact HC]. intros x Hx. apply Hh. intros ->. tauto.
  - eapply rep_frame; [| exact Ht]. intros x Hx. apply Hh. intros ->. tauto.
  - unfold sentinel_at in *. now rewrite Hh.
  - rewrite Hh; [done |]. intros Q. rewrite <- Q in Hn. congruence.
  - exact Hf.
  - intros x Hx. apply Hh. apply not_elem_of_cons in Hx. tauto.
Qed.

(** After the node was unlinked: re-balance unless it was red. *)
Lemma finish_spec (red : bool) s up sp C t c n :
  at_pos sentinel s up sp C t -> (t = E -> sp = top up C) ->
  (if red then is_rb false n t /\ hole_rb true n C else is_rb c n t /\ hole_rb false (S n) C) ->
  exists s' t',
    (if red then mret tt else fuel ← room; delete_fixup sentinel fuel (addr sentinel t)) s = Some (tt, s') /\
    holds_tree sentinel s' t' /\ red_black t' /\ elems t' = elems (plug C t) /\
    unchanged (addrs (plug C t)) s s'.
Proof.
  intros H Hsp Hrb. destruct red; destruct Hrb as [Ht HC].
  - exists s, (plug C t). split_and!; try done.
    + exists up, sp. apply at_pos_plug in H. exact H.
    + eapply is_rb_plug; [exact (hole_rb_weaken _ _ HC) | exact Ht].
  - assert (sees (sentinel := sentinel) s (elems (plug C t)) s up sp C t) as HS by (split; done).
    rewrite run_room.
    assert (short n t) as Hshort.
    { unfold short. rewrite (is_rb_false_root _ _ _ Ht). destruct c; [right | left]; split; try done.
      apply (is_rb_inv_red L) in Ht as (a & p & k & b & -> & Ha & Hb). apply (is_rb_black n L). eauto. }
    assert (length C < S (size (cells s)))%nat as Hfuel.
    { apply at_pos_plug, length_elems in H. pose proof (length_plug C t). lia. }
    destruct (delete_fixup_spec _ _ _ _ _ _ _ Hshort HC Hsp (or_introl Hfuel) HS) as (s' & t' & R & H' & Hrb).
    exists s', t'. split_and!; try done.
    + exists up, sp. exact (sees_pos _ _ _ _ _ _ _ H').
    + exact (sees_elems _ _ _ _ _ _ _ H').
    + exact (sees_unchanged _ _ _ _ _ _ _ H').
Qed.

(** The pointer to the node from its parent is redirected. *)
Definition unlink_child (subst temp : Z) : rbprog unit :=
  sp ← ld rb_parent subst;
  l ← ld rb_left sp;
  if decide (subst = l) then st (set_left temp) sp else st (set_right temp) sp.

Lemma unlink_child_spec s up sp d c p k w C q temp t :
  at_pos sentinel s up sp (F d c p k w :: C) t -> addr sentinel t = q -> t <> E ->
  unlink_child q temp s = Some (tt, relinked (F d c p k w :: C) temp s).
Proof.
  intros H Hq Hne. assert (sees (sentinel := sentinel) s (elems (plug (F d c p k w :: C) t)) s up sp (F d c p k w :: C) t) as HS by (split; done).
  pose proof (sees_not_root _ _ _ _ _ _ _ _ _ _ HS) as Hroot. rewrite Hq in Hroot.
  destruct H as [HC Ht _ _ Hf]. rewrite Hq in HC.
  destruct t as [|ct lt q' kt rt]; [done |]. cbn in Hq. subst q'.
  pose proof (fresh_node _ L _ _ _ _ _ Hf) as (Qs & _ & _ & _ & QC).
  cbn [rep] in Ht. destruct Ht as ([dt Ht] & _).
  rewrite <- (relink_spec (sentinel := sentinel) L _ up q temp s _ HC QC Qs Ht eq_refl).
  unfold relink. rewrite run_get, decide_False by done. reflexivity.
Qed.

Lemma delete_replace_eq node subst temp :
  delete_replace sentinel node subst temp =
  (sp ← ld rb_parent subst;
   (if decide (sp = node) then st (set_parent subst) temp
    else sp ← ld rb_parent subst; st (set_parent sp) temp);;
   replace_by (sentinel := sentinel) node subst).
Proof. reflexivity. Qed.


(** The deletion once it is known which node leaves its place. *)
Definition delete_rest (node subst temp : Z) : rbprog unit :=
  root ← get;
  if decide (subst = root) then
    put temp;;
    ngx_rbt_black temp;;
    forget_node node
  else
    red ← ngx_rbt_is_red subst;
    sp ← ld rb_parent subst;
    l ← ld rb_left sp;
    (if decide (subst = l) then st (set_left temp) sp else st (set_right temp) sp);;
    (if decide (subst = node) then
       sp ← ld rb_parent subst;
       st (set_parent sp) temp
     else
       sp ← ld rb_parent subst;
       (if decide (sp = node) then st (set_parent subst) temp
        else sp ← ld rb_parent subst; st (set_parent sp) temp);;
       replace_by (sentinel := sentinel) node subst);;
    forget_node node;;
    if (red : bool) then mret tt
    else
      fuel ← room;
      delete_fixup sentinel fuel temp.

Lemma delete_eq node :
  ngx_rbtree_delete sentinel node = ('(subst, temp) ← delete_subst sentinel node; delete_rest node subst temp).
Proof. reflexivity. Qed.

Lemma run_unlink {B} s up sp d c p k w C q temp t (K : rbprog B) :
  at_pos sentinel s up sp (F d c p k w :: C) t -> addr sentinel t = q -> t <> E ->
  (sp ← ld rb_parent q; l ← ld rb_left sp;
   (if decide (q = l) then st (set_left temp) sp else st (set_right temp) sp);; K) s =
  K (relinked (F d c p k w :: C) temp s).
Proof.
  intros H Hq Hne. rewrite <- (run_bind _ (fun _ => K) _ _ _ (unlink_child_spec _ _ _ _ _ _ _ _ _ _ temp _ H Hq Hne)).
  unfold unlink_child. rewrite run_assoc. unfold mbind, prog_bind. destruct (ld rb_parent q s) as [[x s']|]; [| done].
  destruct (ld rb_left x s') as [[y s'']|]; done.
Qed.

(** What a deletion of [p] does to the tree [t] of [s]. *)
Definition deletes (m : rbprog unit) s t (p : Z) : Prop :=
  exists s' t' A k B, m s = Some (tt, s') /\ holds_tree sentinel s' t' /\ red_black t' /\
    elems t = A ++ (p, k) :: B /\ elems t' = A ++ B /\ unchanged (sentinel :: addrs t) s s'.

Lemma fresh_child C d c a p k b :
  fresh_all sentinel (elems (plug C (node_of d c a p k b))) -> fresh_all sentinel (elems (plug C a)) /\ p ∉ addrs (plug C a).
Proof.
  intros H. split.
  - apply fresh_plug in H. apply fresh_plug. rewrite addrs_node_of in H.
    assert (sentinel :: NULL :: ctx_addrs C ++ p :: addrs a ++ addrs b ≡ₚ
      (p :: addrs b) ++ (sentinel :: NULL :: ctx_addrs C ++ addrs a)) as Q by solve_Permutation.
    rewrite Q in H. apply NoDup_app in H as (_ & _ & H). exact H.
  - rewrite elem_of_addrs_plug. apply fresh_node in H. tauto.
Qed.

(** The node is the root and has one child at most. *)
Lemma delete_root s up sp d temp p k :
  at_pos sentinel s up sp [] (node_of d false temp p k E) -> (exists c n, is_rb c n temp) ->
  deletes (delete_rest p p (addr sentinel temp)) s (node_of d false temp p k E) p.
Proof.
  intros [HC Ht Hs Hnull Hf] (c & n & Hrb). rewrite addr_node_of in HC. cbn in HC.
  apply rep_node_of in Ht as ((np & Hp & _) & Ht & _).
  destruct (fresh_child [] d false temp p k E Hf) as [Hft Hpt]. cbn [plug] in Hft, Hpt.
  pose proof (fresh_node [] _ _ _ _ _ _ Hf) as (Ps & Pn & _).
  unfold deletes, delete_rest. rewrite run_get, decide_True by done. rewrite run_put.
  set (s1 := mk_store (cells s) (addr sentinel temp)).
  assert (at_pos sentinel s1 p sp [] temp) as H1 by (split; done).
  assert (exists s2, ngx_rbt_black (addr sentinel temp) s1 = Some (tt, s2) /\ at_pos sentinel s2 p sp [] (blacken temp) /\
    unchanged (addrs temp) s1 s2) as (s2 & R2 & H2 & U2).
  { destruct temp as [|ct lt q kq rt].
    - destruct (black_sentinel _ _ _ _ H1) as (s2 & R & H2 & U). now exists s2.
    - assert (sees (sentinel := sentinel) s1 (elems (T ct lt q kq rt)) s1 p sp [] (T ct lt q kq rt)) as HS by (split; done).
      assert (T ct lt q kq rt <> E) as Hne by done.
      destruct (sees_blacken _ _ _ _ _ Hne HS) as (s2 & R & H2). exists s2. split; [exact R |].
      split; [exact (sees_pos _ _ _ _ _ _ _ H2) | exact (sees_unchanged _ _ _ _ _ _ _ H2)]. }
  rewrite (run_bind _ _ _ _ _ R2).
  assert (elems (blacken temp) = elems temp) as Eb by now destruct temp.
  destruct (forget_spec s2 p sp [] (blacken temp) p np H2) as (s3 & R3 & H3 & U3); try done.
  { now rewrite U2. }
  { cbn [plug]. unfold addrs. now rewrite Eb. }
  exists s3, (blacken temp). destruct d; [exists (elems temp), k, [] | exists [], k, (elems temp)].
  all: split_and!; [done | exists p, sp; exact H3 | | cbn; now rewrite ?app_nil_r | now rewrite Eb, ?app_nil_r |].
  all: try (destruct Hrb; cbn; eexists; econstructor; eassumption).
  all: intros x Hx; rewrite not_elem_of_cons, elem_of_addrs_node in Hx;
    rewrite U3 by (rewrite not_elem_of_cons; split; [tauto | apply not_elem_of_nil]); apply U2; tauto.
Qed.

(** The node has a parent and one child at most. *)
Lemma delete_single s up sp d0 c0 p0 k0 w0 C d cq temp p k n :
  let C0 := F d0 c0 p0 k0 w0 :: C in
  at_pos sentinel s up sp C0 (node_of d cq temp p k E) ->
  is_rb cq n (node_of d cq temp p k E) -> hole_rb cq n C0 ->
  deletes (delete_rest p p (addr sentinel temp)) s (plug C0 (node_of d cq temp p k E)) p.
Proof.
  intros C0 H Ht HC.
  assert (sees (sentinel := sentinel) s (elems (plug C0 (node_of d cq temp p k E))) s up sp C0 (node_of d cq temp p k E)) as HS by (split; done).
  pose proof (sees_not_root _ _ _ _ _ _ _ _ _ _ HS) as Hroot. rewrite addr_node_of in Hroot.
  destruct (sees_node _ _ _ _ _ _ _ _ _ _ _ _ HS) as (np & Hp & _ & Cp & _ & _ & Pp).
  pose proof (fresh_node _ _ _ _ _ _ _ (pos_fresh _ _ _ _ _ _ H)) as (Ps & _ & _ & _ & PC).
  destruct (fresh_child _ _ _ _ _ _ _ (pos_fresh _ _ _ _ _ _ H)) as [_ Ptemp].
  assert (node_of d cq temp p k E <> E) as Hne by now destruct d.
  unfold deletes, delete_rest. rewrite run_get, decide_False by done.
  rewrite (run_is_red_cell _ _ _ _ _ Hp Cp).
  rewrite (run_unlink _ _ _ _ _ _ _ _ _ _ _ _ _ H (addr_node_of _ _ _ _ _ _ _) Hne).
  rewrite decide_True by done. rewrite run_assoc.
  destruct (loosen s p0 up sp _ _ _ _ _ _ _ _ _ _ _ H) as (H2 & Hp2 & U2 & [nt Hnt]). fold C0 in H2, Hp2, U2, Hnt.
  set (s1 := relinked C0 (addr sentinel temp) s) in *.
  erewrite run_ld by (rewrite (relinked_lookup C0) by done; exact Hp). rewrite Pp. cbn [top C0].
  erewrite run_st by exact Hnt.
  change (glob s1) with (glob s). set (s2 := mk_store (alter _ _ _) _) in *.
  change p0 with (top up C0) in H2 at 1. apply loose_at_pos in H2. rewrite Hp in Hp2.
  destruct (forget_spec _ _ _ _ _ p np H2 Hp2 Ptemp Ps) as (s3 & R3 & H3 & U3).
  rewrite (run_bind _ _ _ _ _ R3).
  assert (exists c m, if cq then is_rb false m temp /\ hole_rb true m C0 else is_rb c m temp /\ hole_rb false (S m) C0)
    as (c & m & Hrb).
  { destruct cq.
    - apply is_rb_red in Ht as [Ht _]. now exists false, n.
    - assert (exists m, n = S m) as [m ->] by (destruct d; inversion Ht; eauto).
      apply is_rb_black in Ht as [[c Ht] _]. now exists c, m. }
  destruct (finish_spec cq s3 up _ C0 temp c m H3 ltac:(now intros ->) Hrb) as (s4 & t' & R4 & H4 & Hrb4 & E4 & U4).
  exists s4, t'.
  destruct d; [exists (before_hole C0 ++ elems temp), k, (after_hole C0) | exists (before_hole C0), k, (elems temp ++ after_hole C0)].
  all: split_and!; try done.
  all: try (rewrite ?E4, !elems_plug; cbn [elems node_of]; repeat progress (rewrite <- ?app_assoc; cbn [app]); done).
  all: apply (unchanged_trans _ _ s2); [exact U2 |]; apply (unchanged_trans _ _ s3).
  all: try (eapply unchanged_mono; [| exact U3]; intros x Hx; apply list_elem_of_singleton in Hx as ->;
            right; apply elem_of_addrs_plug; right; apply addrs_root).
  all: eapply unchanged_mono; [| exact U4]; intros x; rewrite elem_of_cons, !elem_of_addrs_plug.
  all: rewrite (elem_of_addrs_node x L) || rewrite (elem_of_addrs_node x R); tauto.
Qed.


Lemma elem_of_ctx_app x C1 C2 : x ∈ ctx_addrs (C1 ++ C2) <-> x ∈ ctx_addrs C1 \/ x ∈ ctx_addrs C2.
Proof.
  induction C1 as [|[d c p k b] C1 IH]; cbn [app].
  - split; [auto | intros [H | H]; [now apply not_elem_of_nil in H | done]].
  - rewrite !elem_of_ctx_addrs, IH. tauto.
Qed.

(** The successor [q] of [p] leaves its place to its child [b], whose parent
    will be [q] when it was the child of [p]. *)
Lemma detach_spec s up sp C c l p k C1 cq q kq b :
  at_pos sentinel s up sp (C1 ++ F R c p k l :: C) (T cq E q kq b) -> all_left C1 ->
  exists s1 s2 sp2 v,
    (forall B (K : rbprog B), (sp ← ld rb_parent q; l' ← ld rb_left sp;
     (if decide (q = l') then st (set_left (addr sentinel b)) sp else st (set_right (addr sentinel b)) sp);; K) s = K s1) /\
    (sp ← ld rb_parent q;
     if decide (sp = p) then st (set_parent q) (addr sentinel b)
     else sp ← ld rb_parent q; st (set_parent sp) (addr sentinel b)) s1 = Some (tt, s2) /\
    loose (sentinel := sentinel) s2 v up sp2 (F R c p k l :: C) (plug C1 b) /\
    (b = E -> sp2 = top up (C1 ++ F R c q kq l :: C)) /\
    cells s2 !! q = cells s !! q /\
    unchanged (sentinel :: addrs (plug (C1 ++ F R c p k l :: C) (T cq E q kq b))) s s2.
Proof.
  intros H HC1.
  assert (exists d0 c0 p0 k0 w0 C0, C1 ++ F R c p k l :: C = F d0 c0 p0 k0 w0 :: C0 /\
    (C1 = [] /\ p0 = p \/ p0 <> p /\ top up (C1 ++ F R c q kq l :: C) = p0))
    as (d0 & c0 & p0 & k0 & w0 & C0 & E0 & Htop).
  { destruct C1 as [|[d1 c1 p1 k1 w1] C1]; [now exists R, c, p, k, l, C; auto |].
    exists d1, c1, p1, k1, w1, (C1 ++ F R c p k l :: C). split; [done |]. right. split; [| done].
    pose proof (pos_fresh _ _ _ _ _ _ H) as Hf. cbn [app] in Hf. rewrite plug_frame in Hf.
    apply fresh_node in Hf as (_ & _ & _ & _ & Hf). intros ->. apply Hf.
    apply elem_of_ctx_app. right. apply elem_of_ctx_addrs. now left. }
  rewrite E0 in H.
  assert (T cq E q kq b <> E) as Hne by done.
  destruct (loosen s (if decide (p0 = p) then q else p0) up sp _ _ _ _ _ _ R _ _ _ _ H) as (H2 & Hq2 & U2 & [nt Hnt]).
  set (s1 := relinked (F d0 c0 p0 k0 w0 :: C0) (addr sentinel b) s) in *.
  pose proof (fresh_node _ R _ _ _ _ _ (pos_fresh _ _ _ _ _ _ H)) as (_ & _ & _ & _ & QC).
  destruct (proj1 (pos_tree _ _ _ _ _ _ H)) as [dt Hq]. cbn [top] in Hq.
  assert (cells s1 !! q = cells s !! q) as Hq1 by now apply relinked_lookup.
  set (v := if decide (p0 = p) then q else p0) in *.
  set (s2 := mk_store _ _) in *.
  exists s1, s2, (match b with E => v | _ => sp end), (match C1 with [] => q | _ => p end).
  split_and!.
  - intros B K. exact (run_unlink _ _ _ _ _ _ _ _ _ q (addr sentinel b) _ K H eq_refl Hne).
  - erewrite run_ld by (rewrite Hq1; exact Hq). cbn [rb_parent]. unfold v in s2. destruct (decide (p0 = p)).
    + exact (run_st_last _ _ _ _ Hnt).
    + erewrite run_ld by (rewrite Hq1; exact Hq). exact (run_st_last _ _ _ _ Hnt).
  - rewrite <- E0 in H2. destruct Htop as [[-> ->] | [Hp0 Htop]].
    + assert (v = q) as Ev by (unfold v; now rewrite decide_True). rewrite Ev in H2 |- *. exact H2.
    + assert (v = p0) as Ev by (unfold v; now rewrite decide_False). rewrite Ev in H2 |- *.
      destruct C1 as [|f C1]; [injection E0; congruence |].
      replace p0 with (top up ((f :: C1) ++ F R c p k l :: C)) in H2 at 1 by (rewrite E0; done).
      apply loose_at_pos, at_pos_plug in H2. rewrite plug_app in H2. apply at_pos_plug, loose_at_pos in H2. exact H2.
  - intros ->. unfold v. destruct Htop as [[-> ->] | [Hp0 ->]]; [now rewrite decide_True | now rewrite decide_False].
  - exact Hq2.
  - rewrite E0. exact U2.
Qed.


Lemma fresh_remove A x B :
  fresh_all sentinel (A ++ x :: B) -> fresh_all sentinel (A ++ B) /\ x.1 ∉ (A ++ B).*1.
Proof.
  unfold fresh_all. rewrite !fmap_app, fmap_cons. intros H.
  assert (sentinel :: NULL :: A.*1 ++ x.1 :: B.*1 ≡ₚ x.1 :: sentinel :: NULL :: A.*1 ++ B.*1) as Q by solve_Permutation.
  rewrite Q in H. apply NoDup_cons in H as [H1 H2]. split; [exact H2 |]. rewrite !not_elem_of_cons in H1. tauto.
Qed.

Lemma elems_below C1 C c l p k t :
  all_left C1 ->
  elems (plug (C1 ++ F R c p k l :: C) t) =
  (before_hole C ++ elems l) ++ (p, k) :: elems t ++ after_hole C1 ++ after_hole C.
Proof.
  intros H. rewrite plug_app, plug_frame, elems_plug, elems_node_of, elems_plug, (all_left_before C1 H).
  repeat progress (rewrite <- ?app_assoc; cbn [app]). done.
Qed.

(** The node has two children. *)
Lemma delete_double s up sp C c l p k C1 cq q kq b :
  at_pos sentinel s up sp C (T c l p k (plug C1 (T cq E q kq b))) -> all_left C1 ->
  red_black (plug C (T c l p k (plug C1 (T cq E q kq b)))) ->
  deletes (delete_rest p q (addr sentinel b)) s (plug C (T c l p k (plug C1 (T cq E q kq b)))) p.
Proof.
  set (Cp := C1 ++ F R c p k l :: C). set (Cq := C1 ++ F R c q kq l :: C).
  assert (forall t, plug Cp t = plug C (T c l p k (plug C1 t))) as Ep by (intros; unfold Cp; now rewrite plug_app).
  assert (forall t, plug Cq t = plug C (T c l q kq (plug C1 t))) as Eq by (intros; unfold Cq; now rewrite plug_app).
  rewrite <- Ep. intros H HC1 Hrb. apply at_pos_plug in H. rewrite <- Ep in H. apply at_pos_plug in H.
  assert (exists n, is_rb cq n (T cq E q kq b) /\ hole_rb cq n Cp) as (n & Ht & HC).
  { destruct (is_rb_unplug _ _ Hrb) as (c' & n & Ht & HC). pose proof (is_rb_false_root _ _ _ Ht) as <-. now exists n. }
  apply (hole_rb_rename _ _ _ _ _ _ _ q kq) in HC. fold Cq in HC.
  assert (exists d0 c0 p0 k0 w0 C0, Cp = F d0 c0 p0 k0 w0 :: C0) as (d0 & c0 & p0 & k0 & w0 & C0 & E0).
  { unfold Cp. destruct C1 as [|[d1 c1 p1 k1 w1] C1']; cbn; eauto 10. }
  assert (q <> glob s) as Hroot.
  { rewrite E0 in H. assert (sees (sentinel := sentinel) s (elems (plug (F d0 c0 p0 k0 w0 :: C0) (T cq E q kq b))) s up sp (F d0 c0 p0 k0 w0 :: C0) (T cq E q kq b)) as HS by (split; done).
    exact (sees_not_root _ _ _ _ _ _ _ _ _ _ HS). }
  destruct (proj1 (pos_tree _ _ _ _ _ _ H)) as [dt Hq].
  pose proof (fresh_node _ R _ _ _ _ _ (pos_fresh _ _ _ _ _ _ H)) as (Qs & _ & Qb & _ & QC).
  assert (q <> p) as Hqp by (intros ->; apply QC, elem_of_ctx_app; right; apply elem_of_ctx_addrs; now left).
  assert (elems (plug Cp (T cq E q kq b)) = (before_hole C ++ elems l) ++ (p, k) :: elems (T cq E q kq b) ++ after_hole C1 ++ after_hole C) as L1
    by (now apply elems_below).
  assert (elems (plug Cq b) = (before_hole C ++ elems l) ++ (q, kq) :: elems b ++ after_hole C1 ++ after_hole C) as L2
    by (now apply elems_below).
  assert (fresh_all sentinel (elems (plug Cq b)) /\ p ∉ addrs (plug Cq b)) as [Hf2 Hp2].
  { unfold addrs. rewrite L2. pose proof (pos_fresh _ _ _ _ _ _ H) as Hf. rewrite L1 in Hf. now apply fresh_remove in Hf. }
  destruct (detach_spec _ _ _ _ _ _ _ _ _ _ _ _ _ H HC1) as (s1 & s2 & sp2 & v & R1 & R2 & H2 & Hsp2 & Hq2 & U2).
  rewrite Hq in Hq2. assert (Hpc := proj1 (loose_ctx _ _ _ _ _ _ H2)). cbn in Hpc. destruct Hpc as [dp Hpc].
  rewrite Eq in Hf2. fold Cq in Hsp2.
  set (nq := mk_node kq _ _ _ _ _) in Hq2. change kq with (rb_key nq) in Hf2.
  destruct (replace_by_spec _ _ _ _ _ _ _ _ _ _ _ _ H2 Hf2 Hq2 (not_eq_sym Hqp)) as (s3 & R3 & H3 & Hp3 & U3).
  change (rb_key nq) with kq in H3. apply at_pos_plug in H3. rewrite <- Eq in H3. apply at_pos_plug in H3. rewrite Hpc in Hp3.
  assert (p <> sentinel) as Hps by exact (proj1 (fresh_node C R c (plug C1 b) p k l (loose_fresh _ _ _ _ _ _ H2))).
  destruct (forget_spec _ _ _ _ _ _ _ H3 Hp3 Hp2 Hps) as (s4 & R4 & H4 & U4).
  unfold deletes, delete_rest. rewrite run_get, decide_False by done.
  rewrite (run_is_red_cell s q _ cq _ Hq eq_refl), R1, decide_False by done.
  assert (exists c' m, if cq then is_rb false m b /\ hole_rb true m Cq else is_rb c' m b /\ hole_rb false (S m) Cq)
    as (c' & m & Hrb').
  { destruct cq; inversion Ht; subst; [now exists false, n | eauto]. }
  destruct (finish_spec cq s4 up sp2 Cq b c' m H4 Hsp2 Hrb') as (s5 & t' & R5 & H5 & Hrb5 & E5 & U5).
  exists s5, t', (before_hole C ++ elems l), k, ((q, kq) :: elems b ++ after_hole C1 ++ after_hole C).
  split_and!; try done; [| now rewrite E5 |].
  - rewrite (run_bind _ _ s1 tt s3); [now rewrite (run_bind _ _ _ _ _ R4) |].
    etransitivity; [symmetry; apply run_assoc |]. now rewrite (run_bind _ _ _ _ _ R2).
  - assert (addrs (plug (F R c p k l :: C) (plug C1 b)) = addrs (plug Cp b)) as L3 by (unfold Cp; now rewrite plug_app).
    assert (forall x, x ∈ q :: p :: addrs (plug Cp b) ++ addrs (plug Cq b) -> x ∈ addrs (plug Cp (T cq E q kq b))) as Hin.
    { intros x. unfold addrs. rewrite L1, L2. unfold Cp. rewrite elems_below by done. cbn [elems].
      repeat progress (rewrite ?fmap_app, ?fmap_cons, ?elem_of_cons, ?elem_of_app; cbn [fst]). tauto. }
    apply (unchanged_trans _ _ s2); [exact U2 |].
    apply (unchanged_trans _ _ s3); [| apply (unchanged_trans _ _ s4)].
    + eapply unchanged_mono; [| exact U3]. rewrite L3. intros x Hx. right. apply Hin.
      apply elem_of_cons in Hx as [-> | Hx]; [left |]. do 2 right. apply elem_of_app. now left.
    + eapply unchanged_mono; [| exact U4]. intros x Hx. apply list_elem_of_singleton in Hx as ->.
      right. apply Hin. right. now left.
    + eapply unchanged_mono; [| exact U5]. intros x Hx. right. apply Hin. do 2 right. apply elem_of_app. now right.
Qed.

(** The nodes that stay, around the one that goes. *)
Lemma rbtree_delete_spec s t p :
  holds_tree sentinel s t -> red_black t -> p ∈ addrs t ->
  exists s' t' A k B, ngx_rbtree_delete sentinel p s = Some (tt, s') /\
    holds_tree sentinel s' t' /\ red_black t' /\
    elems t = A ++ (p, k) :: B /\ elems t' = A ++ B /\ unchanged (sentinel :: addrs t) s s'.
Proof.
  intros (up & sp & H) Hrb Hp. destruct (find_pos t p Hp) as (C & c & l & k & r & <-).
  pose proof H as H'. apply at_pos_plug in H'. destruct (proj1 (pos_tree _ _ _ _ _ _ H')) as [dt Hc].
  pose proof (pos_fresh _ _ _ _ _ _ H') as Hf.
  assert (forall d temp, T c l p k r = node_of d c temp p k E -> delete_subst sentinel p s = Some ((p, addr sentinel temp), s) ->
    exists s' t' A k' B, ngx_rbtree_delete sentinel p s = Some (tt, s') /\
    holds_tree sentinel s' t' /\ red_black t' /\
    elems (plug C (T c l p k r)) = A ++ (p, k') :: B /\ elems t' = A ++ B /\ unchanged (sentinel :: addrs (plug C (T c l p k r))) s s') as Hone.
  { intros d temp Et Hsub. rewrite delete_eq, (run_bind _ _ _ _ _ Hsub). rewrite Et in *.
    destruct (is_rb_unplug _ _ Hrb) as (c' & n & Ht & HC).
    pose proof (is_rb_false_root _ _ _ Ht) as <-. rewrite is_red_root_node_of in *.
    destruct C as [|[d0 c0 p0 k0 w0] C].
    - assert (c = false) as -> by (inversion HC; done). apply (delete_root s up sp); [exact H' |].
      assert (exists m, n = S m) as [m ->] by (destruct d; inversion Ht; eauto). apply is_rb_black in Ht as [[ct Ht] _]. eauto.
    - apply (delete_single s up sp _ _ _ _ _ _ _ _ _ _ _ n H' Ht HC). }
  destruct l as [|cl ll lp lk lr].
  { apply (Hone R r eq_refl). unfold delete_subst. erewrite run_ld by done. erewrite run_ld by done.
    cbn [rb_left rb_right addr]. now rewrite decide_True. }
  pose proof (proj1 (fresh_node (F L c p k r :: C) L cl ll lp lk lr Hf)) as Hls.
  destruct r as [|cr rl rp rk rr].
  { apply (Hone L (T cl ll lp lk lr) eq_refl). unfold delete_subst. erewrite run_ld by done. erewrite run_ld by done.
    cbn [rb_left rb_right addr]. now rewrite decide_False, decide_True. }
  set (l := T cl ll lp lk lr) in *. set (r := T cr rl rp rk rr) in *.
  pose proof (proj1 (fresh_node (F R c p k l :: C) L cr rl rp rk rr Hf)) as Hrs.
  destruct (fresh_sub (F R c p k l :: C) r Hf) as (_ & Sr & _).
  assert (rep sentinel (cells s) p r) as Hr by apply (proj2 (pos_tree _ _ _ _ _ _ H')).
  assert (length (elems r) <= S (size (cells s)))%nat as Hfuel.
  { apply length_elems in H. pose proof (length_plug (F R c p k l :: C) r). cbn [plug node_of] in *. lia. }
  destruct (rbtree_min_spec (S (size (cells s))) p s r ltac:(done) Hfuel Hr Sr) as (C1 & cq & q & kq & b & HC1 & Er & Rm).
  assert (delete_subst sentinel p s = Some ((q, addr sentinel b), s)) as Hsub.
  { unfold delete_subst. erewrite run_ld by done. erewrite run_ld by done. cbn [rb_left rb_right].
    rewrite decide_False by exact Hls. rewrite decide_False by exact Hrs.
    rewrite (run_bind (ngx_rbtree_min sentinel (addr sentinel r)) _ s q s) by exact Rm.
    assert (at_pos sentinel s up sp (C1 ++ F R c p k l :: C) (T cq E q kq b)) as Hq.
    { apply at_pos_plug. rewrite plug_app, <- Er. exact H. }
    destruct (proj1 (pos_tree _ _ _ _ _ _ Hq)) as [dq Hcq]. now erewrite run_ld by done. }
  rewrite delete_eq, (run_bind _ _ _ _ _ Hsub). rewrite Er in H', Hrb |- *. now apply (delete_double s up sp).
Qed.

Lemma NoDup_elems s t : holds_tree sentinel s t -> NoDup (elems t).*1.
Proof.
  intros (up & sp & H). pose proof (pos_fresh _ _ _ _ _ _ H) as Hf. unfold fresh_all in Hf.
  apply NoDup_cons in Hf as [_ Hf]. now apply NoDup_cons in Hf as [_ Hf].
Qed.

(** C4: [ngx_rbtree_delete] of a node of a red-black tree gives, without
    reading outside of the tree, a red-black tree of the other nodes in the
    same order, and changes no cell but theirs and the sentinel's. *)
Theorem rbtree_delete_correct s t p :
  holds_tree sentinel s t -> red_black t -> p ∈ addrs t ->
  exists s' t', ngx_rbtree_delete sentinel p s = Some (tt, s') /\
    holds_tree sentinel s' t' /\ red_black t' /\
    elems t' = without p (elems t) /\ unchanged (sentinel :: addrs t) s s'.
Proof.
  intros H Hrb Hp. destruct (rbtree_delete_spec s t p H Hrb Hp) as (s' & t' & A & k & B & Hrun & H' & Hrb' & E1 & E2 & U).
  exists s', t'. pose proof (NoDup_elems _ _ H) as Hn. rewrite E1 in Hn |- *. rewrite E2, (without_split p k A B Hn). done.
Qed.
End Delete.

Lemma rbtree_delete_correct_witness :
  exists s' t', ngx_rbtree_delete 1 3 example_store = Some (tt, s') /\
    holds_tree 1 s' t' /\ red_black t' /\
    elems t' = [(2, 10); (4, 30)] /\ unchanged [1; 2; 3; 4] example_store s'.
Proof.
  refine (rbtree_delete_correct example_store example_tree 3 example_holds example_red_black _).
  apply (bool_decide_unpack _). reflexivity.
Defined.
