(* ===== verification/NgxEventTimer.v ===== *)
(** Event timers (event/ngx_event_timer.c, event/ngx_event_timer.h): the
    red-black tree of the core with an event around every node, keyed by the
    millisecond at which it expires, a 64-bit word that wraps around. *)
From S2P Require Export RbInsert RbWalk RbDelete.

(** ** State *)

(** The fields of [ngx_event_t] the timers use.  The node [timer] is a field of
    the event, and its address stands for the event ([ngx_rbtree_data]). *)
Record ngx_event_t := mk_event { timer_set : bool; timedout : bool; cancelable : bool }.

Definition set_timer_set v e := mk_event v (timedout e) (cancelable e).
Definition set_timedout v e := mk_event (timer_set e) v (cancelable e).

(** [ngx_event_timer_rbtree] with the nodes, the events, and
    [ngx_current_msec]. *)
Record timers := mk_timers {
  timer_rbtree : store ngx_rbtree_node_t Z;
  events : gmap Z ngx_event_t;
  ngx_current_msec : Z }.

Definition tprog (A : Type) : Type := timers -> option (A * timers).

#[export] Instance tprog_ret : MRet tprog := fun A x T => Some (x, T).

#[export] Instance tprog_bind : MBind tprog := fun A B f m T =>
  match m T with
  | Some (x, T') => f x T'
  | None => None
  end.

Definition on_tree {A} (m : rbprog A) : tprog A := fun T =>
  match m (timer_rbtree T) with
  | Some (x, s) => Some (x, mk_timers s (events T) (ngx_current_msec T))
  | None => None
  end.

Definition ev_ld {A} (field : ngx_event_t -> A) (ev : Z) : tprog A := fun T =>
  match events T !! ev with
  | Some e => Some (field e, T)
  | None => None
  end.

Definition ev_st (f : ngx_event_t -> ngx_event_t) (ev : Z) : tprog unit := fun T =>
  match events T !! ev with
  | Some _ => Some (tt, mk_timers (timer_rbtree T) (alter f ev (events T)) (ngx_current_msec T))
  | None => None
  end.

Definition current_msec : tprog Z := fun T => Some (ngx_current_msec T, T).

Definition NGX_TIMER_INFINITE : Z := 2 ^ 64 - 1.
Definition NGX_TIMER_LAZY_DELAY : Z := 300.

(** [ngx_abs] on [ngx_msec_int_t] *)
Definition ngx_abs (v : Z) : Z := if v >=? 0 then v else key_int (u64 (- v)).

(** ** Operations *)

Section Timers.
Variable sentinel : Z.

Definition ngx_event_timer_init : tprog Z :=
  on_tree (ngx_rbtree_init sentinel);;
  mret NGX_OK.

Definition ngx_event_find_timer : tprog Z :=
  root ← on_tree get;
  if decide (root = sentinel) then mret NGX_TIMER_INFINITE else
  root ← on_tree get;
  node ← on_tree (ngx_rbtree_min sentinel root);
  key ← on_tree (ld rb_key node);
  now ← current_msec;
  let timer := key_int (u64 (key - now)) in
  mret (u64 (if timer >? 0 then timer else 0)).

Definition ngx_event_del_timer (ev : Z) : tprog unit :=
  on_tree (ngx_rbtree_delete sentinel ev);;
  ev_st (set_timer_set false) ev.

Definition ngx_event_add_timer (ev : Z) (timer : Z) : tprog unit :=
  now ← current_msec;
  let key := u64 (now + timer) in
  set ← ev_ld timer_set ev;
  lazy ← (if (set : bool) then
            old ← on_tree (ld rb_key ev);
            let diff := key_int (u64 (key - old)) in
            if ngx_abs diff <? NGX_TIMER_LAZY_DELAY then mret true
            else ngx_event_del_timer ev;; mret false
          else mret false);
  if (lazy : bool) then mret tt
  else
    on_tree (st (set_key key) ev);;
    on_tree (ngx_rbtree_insert sentinel (ngx_rbtree_insert_timer_value sentinel) ev);;
    ev_st (set_timer_set true) ev.

(** [handler] is what [ev->handler(ev)] does to the timers.  The result is the
    list of the events whose handlers were called. *)
Fixpoint expire_timers (handler : Z -> tprog unit) (fuel : nat) : tprog (list Z) :=
  match fuel with
  | O => fun _ => None
  | S fuel' =>
      root ← on_tree get;
      if decide (root = sentinel) then mret [] else
      node ← on_tree (ngx_rbtree_min sentinel root);
      key ← on_tree (ld rb_key node);
      now ← current_msec;
      if key_int (u64 (key - now)) >? 0 then mret [] else
      on_tree (ngx_rbtree_delete sentinel node);;
      ev_st (set_timer_set false) node;;
      ev_st (set_timedout true) node;;
      handler node;;
      fired ← expire_timers handler fuel';
      mret (node :: fired)
  end.

Definition ngx_event_expire_timers (handler : Z -> tprog unit) : tprog (list Z) :=
  fuel ← on_tree room; expire_timers handler fuel.

Fixpoint no_timers_left (fuel : nat) (node : Z) : tprog Z :=
  match fuel with
  | O => fun _ => None
  | S fuel' =>
      if decide (node = NULL) then mret NGX_OK else
      c ← ev_ld cancelable node;
      if negb c then mret NGX_AGAIN else
      next ← on_tree (ngx_rbtree_next sentinel node);
      no_timers_left fuel' next
  end.

Definition ngx_event_no_timers_left : tprog Z :=
  root ← on_tree get;
  if decide (root = sentinel) then mret NGX_OK else
  node ← on_tree (ngx_rbtree_min sentinel root);
  fuel ← on_tree room;
  no_timers_left fuel node.

End Timers.

(** ** The operations keep the set of nodes *)

Section RbKeeps.
Variable sentinel : Z.

Ltac keeps := repeat (intros; first [progress auto with keeps | apply keeps_bind | apply keeps_if | apply keeps_if_bool
   | match goal with |- keeps (let '(_, _) := ?x in _) => destruct x end ]).

Lemma keeps_rotate_left p : keeps (ngx_rbtree_left_rotate sentinel p).
Proof. unfold ngx_rbtree_left_rotate. keeps. Qed.

Lemma keeps_rotate_right p : keeps (ngx_rbtree_right_rotate sentinel p).
Proof. unfold ngx_rbtree_right_rotate. keeps. Qed.
#[local] Hint Resolve keeps_rotate_left keeps_rotate_right : keeps.

Lemma keeps_colors p q :
  keeps (ngx_rbt_red p) /\ keeps (ngx_rbt_black p) /\ keeps (ngx_rbt_copy_color p q) /\
  keeps (ngx_rbt_is_red p) /\ keeps (ngx_rbt_is_black p).
Proof.
  unfold ngx_rbt_is_black, ngx_rbt_is_red, ngx_rbt_red, ngx_rbt_black, ngx_rbt_copy_color. split_and!; keeps.
Qed.

Ltac keeps ::= repeat (intros; first [progress auto with keeps | apply keeps_colors; exact NULL | apply keeps_bind
   | apply keeps_if | apply keeps_if_bool
   | match goal with |- keeps (let '(_, _) := ?x in _) => destruct x end ]).

Lemma keeps_rbtree_min fuel p : keeps (rbtree_min sentinel fuel p).
Proof. revert p. induction fuel; intros; cbn [rbtree_min]; keeps. Qed.
#[local] Hint Resolve keeps_rbtree_min : keeps.

Lemma keeps_insert_by before fuel p q : keeps (insert_by sentinel before fuel p q).
Proof. revert p. induction fuel; intros; cbn [insert_by]; cbv zeta; keeps. Qed.
#[local] Hint Resolve keeps_insert_by : keeps.

Lemma keeps_insert_rebalance fuel p : keeps (insert_rebalance sentinel fuel p).
Proof.
  revert p. induction fuel; intros; cbn [insert_rebalance]; unfold insert_rebalance_left, insert_rebalance_right; keeps.
Qed.
#[local] Hint Resolve keeps_insert_rebalance : keeps.

Lemma keeps_delete_fixup fuel p : keeps (delete_fixup sentinel fuel p).
Proof.
  revert p. induction fuel; intros; cbn [delete_fixup]; unfold delete_fixup_left, delete_fixup_right; keeps.
Qed.
#[local] Hint Resolve keeps_delete_fixup : keeps.

Lemma keeps_rbtree_insert_timer p : keeps (ngx_rbtree_insert sentinel (ngx_rbtree_insert_timer_value sentinel) p).
Proof. unfold ngx_rbtree_insert, ngx_rbtree_insert_timer_value. keeps. Qed.

Lemma keeps_rbtree_delete p : keeps (ngx_rbtree_delete sentinel p).
Proof. unfold ngx_rbtree_delete, delete_subst, ngx_rbtree_min, delete_replace, forget_node. keeps. Qed.
End RbKeeps.

(** ** Steps *)

Section TimerSteps.
Implicit Types T : timers.

Definition with_rbtree (s : store ngx_rbtree_node_t Z) T : timers := mk_timers s (events T) (ngx_current_msec T).
Definition with_events (f : ngx_event_t -> ngx_event_t) (ev : Z) T : timers :=
  mk_timers (timer_rbtree T) (alter f ev (events T)) (ngx_current_msec T).

Lemma run_tree {A B} (m : rbprog A) (f : A -> tprog B) T x s :
  m (timer_rbtree T) = Some (x, s) -> (y ← on_tree m; f y) T = f x (with_rbtree s T).
Proof. unfold mbind, tprog_bind, on_tree. now intros ->. Qed.

Lemma with_rbtree_same T : with_rbtree (timer_rbtree T) T = T.
Proof. now destruct T. Qed.

Lemma run_tree_pure {A B} (m : rbprog A) (f : A -> tprog B) T x :
  m (timer_rbtree T) = Some (x, timer_rbtree T) -> (y ← on_tree m; f y) T = f x T.
Proof. intros H. rewrite (run_tree m f T _ _ H). now rewrite with_rbtree_same. Qed.

Lemma run_tget {B} (f : Z -> tprog B) T : (y ← on_tree get; f y) T = f (glob (timer_rbtree T)) T.
Proof. now apply run_tree_pure. Qed.

Lemma run_now {B} (f : Z -> tprog B) T : (y ← current_msec; f y) T = f (ngx_current_msec T) T.
Proof. done. Qed.

Lemma run_tret {A B} (x : A) (f : A -> tprog B) T : (y ← mret x; f y) T = f x T.
Proof. done. Qed.

Lemma run_tbind {A B} (m : tprog A) (f : A -> tprog B) T x T' : m T = Some (x, T') -> (y ← m; f y) T = f x T'.
Proof. unfold mbind, tprog_bind. now intros ->. Qed.

Lemma run_ev_ld {A B} (field : ngx_event_t -> A) ev (f : A -> tprog B) T e :
  events T !! ev = Some e -> (y ← ev_ld field ev; f y) T = f (field e) T.
Proof. unfold mbind, tprog_bind, ev_ld. now intros ->. Qed.

Lemma run_ev_st {B} g ev (k : tprog B) T e :
  events T !! ev = Some e -> (ev_st g ev;; k) T = k (with_events g ev T).
Proof. unfold mbind, tprog_bind, ev_st. now intros ->. Qed.

Lemma run_tassoc {A B C} (m : tprog A) (f : A -> tprog B) (g : B -> tprog C) T :
  (y ← (x ← m; f x); g y) T = (x ← m; y ← f x; g y) T.
Proof. unfold mbind, tprog_bind. now destruct (m T) as [[x T']|]. Qed.
End TimerSteps.

(** ** Well-formed timers *)

(** Milliseconds until the time [k], as the code computes them. *)
Definition remaining (T : timers) (k : Z) : Z := key_int (u64 (k - ngx_current_msec T)).

Section TimersOk.
Variable sentinel : Z.
Implicit Types (T : timers) (t : tree).

(** The tree [t] of [T] is a red-black tree in order of expiry, [timer_set]
    tells which events are in it, every event's node exists, and all times of
    interest lie within 2^63 milliseconds of each other, counted from [b]. *)
Record timers_ok (b : Z) T t : Prop := {
  ok_tree : holds_tree sentinel (timer_rbtree T) t;
  ok_red_black : red_black t;
  ok_sorted : sorted before_timer (elems t);
  ok_window : Forall (in_window b) (elems t);
  ok_now : u64 (ngx_current_msec T - b) < 2 ^ 63;
  ok_set ev : ev ∈ addrs t <-> exists e, events T !! ev = Some e /\ timer_set e = true;
  ok_cells ev e : events T !! ev = Some e -> ev <> sentinel /\ ev ∈ dom (cells (timer_rbtree T)) }.

Lemma remaining_offset b T t x :
  timers_ok b T t -> in_window b x -> remaining T x.2 = u64 (x.2 - b) - u64 (ngx_current_msec T - b).
Proof. intros H Hx. exact (key_int_diff b x (NULL, ngx_current_msec T) Hx (ok_now _ _ _ H)). Qed.

Lemma remaining_u64 T k : remaining T (u64 k) = remaining T k.
Proof. unfold remaining, u64. now rewrite Zminus_mod_idemp_l. Qed.

Lemma ngx_abs_diff b x y :
  in_window b x -> in_window b y -> ngx_abs (key_int (u64 (x.2 - y.2))) = Z.abs (u64 (x.2 - b) - u64 (y.2 - b)).
Proof.
  intros Hx Hy. rewrite (key_int_diff b x y Hx Hy). unfold in_window, ngx_abs in *.
  pose proof (Z.mod_pos_bound (x.2 - b) (2 ^ 64) ltac:(lia)). pose proof (Z.mod_pos_bound (y.2 - b) (2 ^ 64) ltac:(lia)).
  fold (u64 (x.2 - b)) (u64 (y.2 - b)) in *. set (o := u64 (x.2 - b)) in *. set (q := u64 (y.2 - b)) in *. clearbody o q.
  destruct (Z.geb_spec (o - q) 0); [lia |]. unfold u64. rewrite Z.mod_small by lia.
  unfold key_int. destruct (Z.ltb_spec (- (o - q)) (2 ^ 63)); lia.
Qed.

Lemma remaining_mono b T t x y :
  timers_ok b T t -> in_window b x -> in_window b y ->
  before_timer y x = false -> remaining T x.2 <= remaining T y.2.
Proof.
  intros H Hx Hy. rewrite (before_timer_offset b y x Hy Hx), !(remaining_offset b T t) by done.
  intros Q. apply Z.ltb_ge in Q. lia.
Qed.

(** The first timer of the list expires first. *)
Lemma first_expires_first b T t x l y :
  timers_ok b T t -> elems t = x :: l -> y ∈ elems t -> remaining T x.2 <= remaining T y.2.
Proof.
  intros H E Hy. pose proof (ok_window _ _ _ H) as Hw. pose proof (ok_sorted _ _ _ H) as Hs.
  rewrite E in *. apply StronglySorted_cons in Hs as [Hs _]. rewrite Forall_forall in Hw, Hs.
  apply (remaining_mono b T t); [done | apply Hw; left | now apply Hw |].
  apply elem_of_cons in Hy as [-> | Hy]; [| now apply Hs].
  unfold before_timer. rewrite Z.sub_diag. reflexivity.
Qed.

Lemma rep_key h par t x : rep sentinel h par t -> x ∈ elems t -> exists n, h !! x.1 = Some n /\ rb_key n = x.2.
Proof.
  revert par. induction t as [|c l IHl p k r IHr]; intros par; cbn; [intros _ H; now apply not_elem_of_nil in H |].
  intros ([d H] & Hl & Hr). rewrite elem_of_app, elem_of_cons. intros [Hx | [-> | Hx]]; eauto.
Qed.

Lemma tree_key s t x :
  holds_tree sentinel s t -> x ∈ elems t -> exists n, cells s !! x.1 = Some n /\ rb_key n = x.2.
Proof. intros (up & sp & H). apply (rep_key _ _ _ _ (pos_tree _ _ _ _ _ _ H)). Qed.

Lemma tree_root s t : holds_tree sentinel s t -> glob s = sentinel <-> elems t = [].
Proof.
  intros (up & sp & H). pose proof (pos_ctx _ _ _ _ _ _ H) as Hr. cbn in Hr. rewrite Hr.
  destruct t as [|c l p k r]; [done |]. cbn [addr]. split.
  - intros ->. exfalso. exact (fresh_sentinel _ (pos_fresh _ _ _ _ _ _ H) (addrs_root c l sentinel k r)).
  - intros Q. cbn in Q. destruct (elems l); done.
Qed.
End TimersOk.

(** ** Finding the next timer *)

Section TimerTheorems.
Context {sentinel : Z}.
Implicit Types (T : timers) (t : tree).
Abbreviation timers_ok := (timers_ok sentinel).

(** What [ngx_event_find_timer] and [ngx_event_expire_timers] look at first. *)
Lemma run_first {B} b T t p k l (K : Z -> Z -> tprog B) :
  timers_ok b T t -> elems t = (p, k) :: l ->
  (node ← on_tree (ngx_rbtree_min sentinel (glob (timer_rbtree T))); key ← on_tree (ld rb_key node); K node key) T = K p k T.
Proof.
  intros H E.
  rewrite (run_tree_pure _ _ T p) by exact (rbtree_min_correct _ _ _ _ _ (ok_tree _ _ _ _ H) E).
  destruct (tree_key _ _ _ (p, k) (ok_tree _ _ _ _ H) ltac:(rewrite E; left)) as (n & Hn & Hk). cbn in Hn, Hk.
  rewrite (run_tree_pure _ _ T k); [done |]. unfold ld. now rewrite Hn, Hk.
Qed.

Lemma root_not_sentinel b T t x l : timers_ok b T t -> elems t = x :: l -> glob (timer_rbtree T) <> sentinel.
Proof. intros H E Q. apply (tree_root _ _ _ (ok_tree _ _ _ _ H)) in Q. congruence. Qed.

(** [ngx_event_find_timer] answers how long the event loop may wait: no
    longer than until any timer expires, exactly until one does, not at all
    when one has, and for ever when there is none. *)
Theorem find_timer_correct b T t :
  timers_ok b T t ->
  exists v, ngx_event_find_timer sentinel T = Some (v, T) /\
    (elems t = [] -> v = NGX_TIMER_INFINITE) /\
    (forall x, x ∈ elems t -> v <= Z.max 0 (remaining T x.2)) /\
    (elems t <> [] -> exists x, x ∈ elems t /\ v = Z.max 0 (remaining T x.2)).
Proof.
  intros H. unfold ngx_event_find_timer. destruct (elems t) as [|[p k] l] eqn:Q.
  - rewrite run_tget, decide_True by now apply (tree_root _ _ _ (ok_tree _ _ _ _ H)).
    exists NGX_TIMER_INFINITE. split_and!; try done. intros x Hx. now apply not_elem_of_nil in Hx.
  - exists (Z.max 0 (remaining T k)). split_and!; [| done | |].
    + rewrite run_tget.
      rewrite decide_False, run_tget by exact (root_not_sentinel _ _ _ _ _ H Q).
      etransitivity; [exact (run_first _ _ _ _ _ _ _ H Q) |]. rewrite run_now. cbv zeta. fold (remaining T k).
      pose proof (ok_window _ _ _ _ H) as Hw. rewrite Q in Hw. apply Forall_cons in Hw as [Hw _].
      pose proof (remaining_offset _ b T t (p, k) H Hw) as R. cbn in R.
      pose proof (Z.mod_pos_bound (k - b) (2 ^ 64) ltac:(lia)).
      pose proof (Z.mod_pos_bound (ngx_current_msec T - b) (2 ^ 64) ltac:(lia)).
      unfold in_window, u64 in *. cbn in Hw.
      unfold mret, tprog_ret. do 2 f_equal. destruct (Z.gtb_spec (remaining T k) 0).
      * rewrite Z.mod_small by lia. lia.
      * rewrite Z.mod_0_l by lia. lia.
    + intros y Hy. rewrite <- Q in Hy. pose proof (first_expires_first _ b T t (p, k) l y H Q Hy). cbn in *. lia.
    + intros _. exists (p, k). split; [left | done].
Qed.


(** ** Removing a timer *)

Lemma NoDup_fst_inj (l : list (Z * Z)) p k k' : NoDup l.*1 -> (p, k) ∈ l -> (p, k') ∈ l -> k = k'.
Proof.
  intros Hn H1 H2. apply list_elem_of_split in H1 as (A & B & ->).
  rewrite fmap_app, fmap_cons in Hn. apply NoDup_app in Hn as (_ & HA & HB). apply NoDup_cons in HB as [HB _].
  apply elem_of_app in H2 as [H2 | H2]; [destruct (HA p) | apply elem_of_cons in H2 as [[= ->] | H2]; [done | destruct HB]].
  - apply list_elem_of_fmap. now exists (p, k').
  - left.
  - apply list_elem_of_fmap. now exists (p, k').
Qed.

Lemma sorted_remove before A x B : sorted before (A ++ x :: B) -> sorted before (A ++ B).
Proof.
  unfold sorted. rewrite !StronglySorted_app, StronglySorted_cons. intros (H1 & H2 & _ & H3).
  split_and!; try done. intros y z Hy Hz. apply H1; [done | now right].
Qed.

(** The deletion, and then an update of the event that clears [timer_set]. *)
Lemma delete_timer_ok b T t ev ev' :
  timers_ok b T t -> ev ∈ addrs t ->
  (forall q, q <> ev -> ev' !! q = events T !! q) ->
  (forall e, events T !! ev = Some e -> exists e', ev' !! ev = Some e' /\ timer_set e' = false) ->
  exists s' t', ngx_rbtree_delete sentinel ev (timer_rbtree T) = Some (tt, s') /\
    timers_ok b (mk_timers s' ev' (ngx_current_msec T)) t' /\ elems t' = without ev (elems t).
Proof.
  intros H Hev Hq Hsame.
  destruct (rbtree_delete_spec _ _ _ (ok_tree _ _ _ _ H) (ok_red_black _ _ _ _ H) Hev)
    as (s' & t' & A & k & B & R & H' & Hrb & E1 & E2 & U).
  pose proof (NoDup_elems _ _ (ok_tree _ _ _ _ H)) as Hn.
  assert (elems t' = without ev (elems t)) as E3 by (rewrite E2, E1, without_split; [done | now rewrite <- E1]).
  exists s', t'. split_and!; [exact R | | exact E3].
  assert (forall q, q ∈ addrs t' <-> q ∈ addrs t /\ q <> ev) as Hin.
  { intros q. unfold addrs. rewrite E3. unfold without. rewrite !list_elem_of_fmap. split.
    - intros (x & -> & Hx). apply list_elem_of_filter in Hx as [Hx1 Hx2]. eauto.
    - intros [(x & -> & Hx) Hx']. exists x. split; [done |]. now apply list_elem_of_filter. }
  split; cbn [timer_rbtree events ngx_current_msec].
  - exact H'.
  - exact Hrb.
  - rewrite E2. eapply sorted_remove. rewrite <- E1. exact (ok_sorted _ _ _ _ H).
  - pose proof (ok_window _ _ _ _ H) as Hw. rewrite E1 in Hw. rewrite E2.
    apply Forall_app in Hw as [HA HB]. apply Forall_cons in HB as [_ HB]. now apply Forall_app.
  - exact (ok_now _ _ _ _ H).
  - intros q. rewrite Hin, (ok_set _ _ _ _ H). destruct (decide (q = ev)) as [-> | Hne].
    + split; [tauto |]. intros (e & He & Hset). apply (ok_set _ _ _ _ H) in Hev as (e0 & He0 & _).
      destruct (Hsame _ He0) as (e' & He' & Hf). congruence.
    + rewrite Hq by done. tauto.
  - intros q e He. rewrite (keeps_rbtree_delete sentinel ev _ _ _ R).
    destruct (decide (q = ev)) as [-> | Hne]; [| rewrite Hq in He by done; exact (ok_cells _ _ _ _ H _ _ He)].
    apply (ok_set _ _ _ _ H) in Hev as (e0 & He0 & _). exact (ok_cells _ _ _ _ H _ _ He0).
Qed.

Lemma del_timer_ok b T t ev :
  timers_ok b T t -> ev ∈ addrs t ->
  exists T' t', ngx_event_del_timer sentinel ev T = Some (tt, T') /\ timers_ok b T' t' /\
    elems t' = without ev (elems t) /\ ngx_current_msec T' = ngx_current_msec T /\
    events T' = alter (set_timer_set false) ev (events T).
Proof.
  intros H Hev. apply (ok_set _ _ _ _ H) in Hev as Hev'. destruct Hev' as (e & He & _).
  destruct (delete_timer_ok b T t ev (alter (set_timer_set false) ev (events T)) H Hev) as (s' & t' & R & H' & E').
  - intros q Hq. now apply lookup_alter_ne.
  - intros e' He'. rewrite lookup_alter_eq, He'. eexists. split; reflexivity.
  - eexists _, t'. unfold ngx_event_del_timer. rewrite (run_tree _ _ T _ _ R). unfold ev_st. cbn [events with_rbtree].
    rewrite He. split; [reflexivity |]. now split_and!.
Qed.

(** ** Adding a timer *)

Lemma holds_tree_alter s t p f n :
  holds_tree sentinel s t -> cells s !! p = Some n -> p ∉ addrs t -> p <> sentinel ->
  holds_tree sentinel (mk_store (alter f p (cells s)) (glob s)) t.
Proof.
  intros (up & sp & [HC Ht Hs Hnull Hf]) Hn Hp Hps. exists up, sp.
  assert (forall x, x <> p -> alter f p (cells s) !! x = cells s !! x) as Hh by (intros; now apply lookup_alter_ne).
  split; cbn [cells glob]; try done.
  - eapply rep_frame; [| exact Ht]. intros x Hx. apply Hh. congruence.
  - unfold sentinel_at in *. now rewrite Hh.
  - rewrite Hh; [done |]. intros Q. rewrite <- Q in Hn. congruence.
Qed.

(** The insertion of an event that is not armed, with its new key. *)
Lemma insert_timer_ok b T t ev e key :
  timers_ok b T t -> events T !! ev = Some e -> timer_set e = false -> in_window b (ev, key) ->
  exists T' t', (on_tree (st (set_key key) ev);;
     on_tree (ngx_rbtree_insert sentinel (ngx_rbtree_insert_timer_value sentinel) ev);;
     ev_st (set_timer_set true) ev) T = Some (tt, T') /\
    timers_ok b T' t' /\ elems t' = insert_in before_timer (ev, key) (elems t) /\
    ngx_current_msec T' = ngx_current_msec T /\ events T' = alter (set_timer_set true) ev (events T).
Proof.
  intros H He Hset Hw. destruct (ok_cells _ _ _ _ H _ _ He) as [Hes Hcell].
  apply elem_of_dom in Hcell as [n Hn].
  assert (ev ∉ addrs t) as Hev by (intros Q; apply (ok_set _ _ _ _ H) in Q as (e' & He' & Hs'); congruence).
  pose proof (holds_tree_alter _ _ _ (set_key key) _ (ok_tree _ _ _ _ H) Hn Hev Hes) as H1.
  set (s1 := mk_store (alter (set_key key) ev (cells (timer_rbtree T))) (glob (timer_rbtree T))) in *.
  assert (cells s1 !! ev = Some (set_key key n)) as Hn1 by (cbn [cells s1]; now rewrite lookup_alter_eq, Hn).
  destruct (rbtree_insert_spec (dom := in_window b) s1 t ev (set_key key n) H1 (ok_red_black _ _ _ _ H) (ok_sorted _ _ _ _ H))
    as (s2 & t2 & R2 & H2 & Hrb2 & E2 & Hs2 & U2); try done.
  { constructor; [exact Hw | exact (ok_window _ _ _ _ H)]. }
  cbn [rb_key set_key] in E2.
  rewrite (run_tree _ _ T tt s1) by (unfold st; now rewrite Hn).
  rewrite (run_tree _ _ (with_rbtree s1 T) tt s2) by exact R2.
  unfold ev_st. cbn [with_rbtree events]. rewrite He. eexists _, t2. split; [reflexivity |]. split_and!; try done.
  assert (Permutation (elems t2) ((ev, key) :: elems t)) as P by (rewrite E2; apply insert_in_perm).
  split; cbn [timer_rbtree events ngx_current_msec with_rbtree]; try done.
  - rewrite P. constructor; [exact Hw | exact (ok_window _ _ _ _ H)].
  - exact (ok_now _ _ _ _ H).
  - intros q. unfold addrs. rewrite P, fmap_cons, elem_of_cons. fold (addrs t). rewrite (ok_set _ _ _ _ H). cbn [fst].
    destruct (decide (q = ev)) as [-> | Hne].
    + rewrite lookup_alter_eq, He. split; [intros _ | now left]. eexists. now split.
    + rewrite lookup_alter_ne by done. tauto.
  - intros q e' He'. rewrite (keeps_rbtree_insert_timer sentinel ev _ _ _ R2). cbn [cells s1]. rewrite dom_alter_L.
    destruct (decide (q = ev)) as [-> | Hne]; [exact (ok_cells _ _ _ _ H _ _ He) |].
    rewrite lookup_alter_ne in He' by done. exact (ok_cells _ _ _ _ H _ _ He').
Qed.

(** How far the time [timer] from now is from the time [k]. *)
Definition later_by (T : timers) (timer k : Z) : Z :=
  Z.abs (remaining T (ngx_current_msec T + timer) - remaining T k).

(** [ngx_event_add_timer] arms the event to expire after the given time,
    in the place of its former timer, or leaves that one as it is when the two
    are less than 300 milliseconds apart. *)
Theorem add_timer_correct b T t ev e timer :
  timers_ok b T t -> events T !! ev = Some e ->
  in_window b (ev, u64 (ngx_current_msec T + timer)) ->
  exists T' t', ngx_event_add_timer sentinel ev timer T = Some (tt, T') /\ timers_ok b T' t' /\
    ngx_current_msec T' = ngx_current_msec T /\
    (elems t' = insert_in before_timer (ev, u64 (ngx_current_msec T + timer)) (without ev (elems t)) /\
       (forall k, (ev, k) ∈ elems t -> NGX_TIMER_LAZY_DELAY <= later_by T timer k) \/
     T' = T /\ elems t' = elems t /\ exists k, (ev, k) ∈ elems t /\ later_by T timer k < NGX_TIMER_LAZY_DELAY).
Proof.
  intros H He Hw. unfold ngx_event_add_timer. rewrite run_now. cbv zeta.
  set (key := u64 (ngx_current_msec T + timer)) in *. rewrite (run_ev_ld _ _ _ _ _ He).
  destruct (timer_set e) eqn:Hset.
  - assert (ev ∈ addrs t) as Hev by (apply (ok_set _ _ _ _ H); eauto).
    pose proof Hev as Hev'. unfold addrs in Hev'. apply list_elem_of_fmap in Hev' as ([q old] & Hq & Hx). cbn in Hq. subst q.
    destruct (tree_key _ _ _ _ (ok_tree _ _ _ _ H) Hx) as (n & Hn & Hk). cbn in Hn, Hk.
    rewrite run_tassoc, (run_tree_pure _ _ T old) by (unfold ld; now rewrite Hn, Hk). cbv zeta.
    assert (in_window b (ev, old)) as Hwo by (pose proof (ok_window _ _ _ _ H) as G; rewrite Forall_forall in G; auto).
    assert (ngx_abs (key_int (u64 (key - old))) =
      Z.abs (remaining T (ngx_current_msec T + timer) - remaining T old)) as Habs.
    { rewrite <- remaining_u64. fold key. rewrite (remaining_offset _ b T t (ev, key) H Hw : remaining T key = _).
      rewrite (remaining_offset _ b T t (ev, old) H Hwo : remaining T old = _).
      etransitivity; [exact (ngx_abs_diff b (ev, key) (ev, old) Hw Hwo) |]. cbn. f_equal. lia. }
    rewrite Habs. fold (later_by T timer old). destruct (Z.ltb_spec (later_by T timer old) NGX_TIMER_LAZY_DELAY).
    + rewrite run_tret. exists T, t. split; [done |]. split; [done |]. split; [done |]. right. eauto.
    + destruct (del_timer_ok b T t ev H Hev) as (T1 & t1 & R1 & H1 & E1 & N1 & Ev1).
      rewrite run_tassoc, (run_tbind _ _ _ _ _ R1), run_tret.
      assert (events T1 !! ev = Some (set_timer_set false e)) as He1 by (rewrite Ev1, lookup_alter_eq, He; done).
      destruct (insert_timer_ok b T1 t1 ev _ key H1 He1 eq_refl Hw) as (T2 & t2 & R2 & H2 & E2 & N2 & _).
      exists T2, t2. split; [exact R2 |]. split; [exact H2 |]. split; [congruence |]. left. split; [now rewrite E2, E1 |].
      intros k Hin. now rewrite (NoDup_fst_inj (elems t) ev k old (NoDup_elems _ _ (ok_tree _ _ _ _ H)) Hin Hx).
  - rewrite run_tret. destruct (insert_timer_ok b T t ev e key H He Hset Hw) as (T2 & t2 & R2 & H2 & E2 & N2 & _).
    exists T2, t2. split; [exact R2 |]. split; [exact H2 |]. split; [done |]. left.
    assert (ev ∉ addrs t) as Hev by (rewrite (ok_set _ _ _ _ H); intros (e' & He' & Hs'); congruence).
    split; [now rewrite E2, without_absent |]. intros k Hk. destruct Hev. unfold addrs. apply list_elem_of_fmap. now exists (ev, k).
Qed.



(** ** Expiring timers *)

Definition due (now : Z) (x : Z * Z) : Prop := key_int (u64 (x.2 - now)) <= 0.

#[local] Instance due_dec now x : Decision (due now x).
Proof. unfold due. apply _. Defined.

Definition due_timers (now : Z) (l : list (Z * Z)) : list (Z * Z) := filter (due now) l.

(** What handlers may do to the expired timers that are left: the one of an event
    turns the list of them into another one, with some of them disarmed or armed
    again for later. *)
Definition disarming : Type := Z -> list (Z * Z) -> list (Z * Z) -> Prop.

(** None of them. *)
Definition none_disarmed : disarming := fun _ l l' => l' = l.

(** What the loop asks of the handler of an event that has just timed out: it
    arms timers for later only, whatever it disarms, and leaves the clock alone. *)
Class TimerHandler (b now : Z) (disarms : disarming) (handler : Z -> tprog unit) : Prop := {
  handler_runs : forall ev T t e,
    timers_ok b T t -> ngx_current_msec T = now ->
    events T !! ev = Some e -> timer_set e = false -> timedout e = true ->
    exists T' t', handler ev T = Some (tt, T') /\ timers_ok b T' t' /\ ngx_current_msec T' = now /\
      disarms ev (due_timers now (elems t)) (due_timers now (elems t'));
  handler_arms_later : forall ev l l', disarms ev l l' -> sublist l' l;
}.

(** The events whose handlers are called for a list of expired timers: the first,
    and then those for what its handler leaves of the others. *)
Inductive fires (disarms : disarming) : list (Z * Z) -> list Z -> Prop :=
| fires_none : fires disarms [] []
| fires_first x l l' evs : disarms x.1 l l' -> fires disarms l' evs -> fires disarms (x :: l) (x.1 :: evs).

Lemma fires_sublist disarms l evs :
  (forall ev l l', disarms ev l l' -> sublist l' l) -> fires disarms l evs -> sublist evs l.*1.
Proof.
  intros Hd. induction 1 as [| x l l' evs H _ IH]; [constructor |]. cbn. apply sublist_skip.
  transitivity (l'.*1); [exact IH |]. apply (fmap_sublist fst). eauto.
Qed.

Lemma fires_all l evs : fires none_disarmed l evs -> evs = l.*1.
Proof. induction 1 as [| x l l' evs -> _ IH]; cbn; congruence. Qed.

Lemma not_due_later b T t x l :
  timers_ok b T t -> elems t = x :: l -> ~ due (ngx_current_msec T) x -> due_timers (ngx_current_msec T) (elems t) = [].
Proof.
  intros H E Hx. apply elem_of_nil_inv. intros y Hy. apply list_elem_of_filter in Hy as [Q Hy]. apply Hx.
  pose proof (first_expires_first _ b T t x l y H E Hy). unfold due, remaining in *. lia.
Qed.

Lemma expire_timers_spec b now disarms handler fuel T t :
  TimerHandler b now disarms handler -> timers_ok b T t -> ngx_current_msec T = now ->
  (length (due_timers now (elems t)) < fuel)%nat ->
  exists evs T' t', expire_timers sentinel handler fuel T = Some (evs, T') /\ fires disarms (due_timers now (elems t)) evs /\
    timers_ok b T' t' /\ ngx_current_msec T' = now /\ due_timers now (elems t') = [].
Proof.
  intros Hh. revert T t. induction fuel as [|fuel IH]; intros T t H Hnow Hfuel; [lia |]. cbn [expire_timers].
  rewrite run_tget. destruct (elems t) as [|[p k] l] eqn:E.
  { rewrite decide_True by now apply (tree_root _ _ _ (ok_tree _ _ _ _ H)). exists [], T, t. rewrite E. split_and!; [done | constructor | done ..]. }
  rewrite decide_False by exact (root_not_sentinel _ _ _ _ _ H E).
  erewrite (run_first b T t p k l) by done. rewrite run_now, Hnow.
  destruct (Z.gtb_spec (key_int (u64 (k - now))) 0) as [Hk | Hk].
  - assert (due_timers now (elems t) = []) as Hd.
    { rewrite <- Hnow. apply (not_due_later b T t (p, k) l); [done | done |]. rewrite Hnow. unfold due. cbn. lia. }
    rewrite E in Hd. rewrite Hd. exists [], T, t. rewrite E. split_and!; [done | constructor | done ..].
  - assert (p ∈ addrs t) as Hp by (unfold addrs; rewrite E; left).
    apply (ok_set _ _ _ _ H) in Hp as Hp'. destruct Hp' as (e & He & _).
    destruct (delete_timer_ok b T t p (alter (set_timedout true) p (alter (set_timer_set false) p (events T))) H Hp)
      as (s1 & t1 & R1 & H1 & E1).
    { intros q Hq. now rewrite !lookup_alter_ne. }
    { intros e' He'. rewrite !lookup_alter_eq, He'. eexists. split; reflexivity. }
    rewrite (run_tree _ _ T _ _ R1).
    rewrite (run_ev_st _ _ _ _ e) by exact He.
    rewrite (run_ev_st _ _ _ _ (set_timer_set false e)) by (cbn [events with_events with_rbtree]; now rewrite lookup_alter_eq, He).
    set (T1 := with_events _ _ _). change T1 with
      (mk_timers s1 (alter (set_timedout true) p (alter (set_timer_set false) p (events T))) (ngx_current_msec T)).
    destruct (handler_runs p _ t1 (set_timedout true (set_timer_set false e)) H1 Hnow) as (T2 & t2 & R2 & H2 & N2 & D2);
      [cbn [events]; now rewrite !lookup_alter_eq, He | done | done |].
    rewrite (run_tbind _ _ _ _ _ R2).
    assert (elems t1 = l) as El.
    { pose proof (NoDup_elems _ _ (ok_tree _ _ _ _ H)) as Hn. rewrite E in Hn. rewrite E1, E.
      exact (without_split p k [] l Hn). }
    assert (due_timers now ((p, k) :: l) = (p, k) :: due_timers now l) as Ed
      by (unfold due_timers; apply filter_cons_True; unfold due; cbn; lia).
    rewrite Ed in Hfuel |- *. rewrite El in D2.
    pose proof (sublist_length _ _ (handler_arms_later _ _ _ D2)) as Hl.
    destruct (IH T2 t2 H2 N2) as (evs & T3 & t3 & R3 & F3 & H3 & N3 & D3); [cbn in Hfuel; lia |].
    rewrite (run_tbind _ _ _ _ _ R3). exists (p :: evs), T3, t3. split_and!; [done | exact (fires_first _ (p, k) _ _ _ D2 F3) | done ..].
Qed.

(** C23: [ngx_event_expire_timers] ends, calls the handlers of the timers that have
    expired, each at most once and in the order of expiry, passing over those
    alone that an earlier handler disarmed or armed for later, and leaves no
    expired timer; when the handlers disarm none of them, it calls the handler of
    every one.  The handlers may arm timers for later only, and do not set the
    clock. *)
Theorem expire_timers_fires b disarms handler T t :
  TimerHandler b (ngx_current_msec T) disarms handler -> timers_ok b T t ->
  exists evs T' t',
    ngx_event_expire_timers sentinel handler T = Some (evs, T') /\
    fires disarms (due_timers (ngx_current_msec T) (elems t)) evs /\
    sublist evs (due_timers (ngx_current_msec T) (elems t)).*1 /\ NoDup evs /\
    ((forall ev l l', disarms ev l l' -> l' = l) -> evs = (due_timers (ngx_current_msec T) (elems t)).*1) /\
    timers_ok b T' t' /\ (forall x, x ∈ elems t' -> 0 < remaining T x.2).
Proof.
  intros Hh H. unfold ngx_event_expire_timers. rewrite (run_tree_pure _ _ T (S (size (cells (timer_rbtree T))))) by done.
  destruct (expire_timers_spec b _ disarms handler (S (size (cells (timer_rbtree T)))) T t Hh H eq_refl) as (evs & T' & t' & R & F & H' & _ & D).
  { destruct (ok_tree _ _ _ _ H) as (up & sp & Ht). apply length_elems in Ht.
    pose proof (length_filter (due (ngx_current_msec T)) (elems t)). unfold due_timers. lia. }
  pose proof (fires_sublist _ _ _ handler_arms_later F) as Hs. exists evs, T', t'. split_and!; try done.
  - refine (sublist_NoDup _ _ _ Hs). refine (sublist_NoDup _ _ (NoDup_elems _ _ (ok_tree _ _ _ _ H)) _). apply (fmap_sublist fst), sublist_filter.
  - intros He. apply fires_all. clear -F He. induction F as [| x l l' evs Hx _ IH]; [constructor |]. econstructor; [| exact IH]. exact (He _ _ _ Hx).
  - intros x Hx. destruct (decide (due (ngx_current_msec T) x)) as [Q | Q]; [| unfold due, remaining in *; lia].
    exfalso. apply (not_elem_of_nil x). rewrite <- D. now apply list_elem_of_filter.
Qed.

(** A handler that arms its event again. *)
Lemma rearm_handler b now delay :
  u64 (now - b) + delay < 2 ^ 63 -> 0 < delay ->
  TimerHandler b now none_disarmed (fun ev => ngx_event_add_timer sentinel ev delay).
Proof.
  intros Hb Hdelay. split; [| by intros ev l l' ->]. intros ev T t e H Hnow He Hset _.
  pose proof (Z.mod_pos_bound (now - b) (2 ^ 64) ltac:(lia)) as Hr. fold (u64 (now - b)) in Hr.
  assert (u64 (u64 (now + delay) - b) = u64 (now - b) + delay) as Eo.
  { unfold u64 in *. rewrite Zminus_mod_idemp_l. replace (now + delay - b) with ((now - b) + delay) by lia.
    rewrite <- Zplus_mod_idemp_l. apply Z.mod_small. lia. }
  assert (in_window b (ev, u64 (ngx_current_msec T + delay))) as Hw by (unfold in_window; cbn [snd]; rewrite Hnow, Eo; lia).
  destruct (insert_timer_ok b T t ev e _ H He Hset Hw) as (T' & t' & R & H' & E' & N & _).
  exists T', t'. split.
  { unfold ngx_event_add_timer. rewrite run_now. cbv zeta. now rewrite (run_ev_ld _ _ _ _ _ He), Hset, run_tret. }
  split; [exact H' |]. split; [congruence |]. rewrite E'.
  assert (~ due now (ev, u64 (now + delay))) as Hnd.
      { pose proof (remaining_offset _ b T t _ H Hw) as Q. unfold remaining in Q. cbn in Q. unfold due. cbn.
        rewrite Hnow in Q. rewrite Q, Eo. lia. }
  rewrite Hnow. unfold none_disarmed, due_timers. clear -Hnd. induction (elems t) as [|y l IH]; cbn [insert_in].
  - now apply filter_cons_False.
  - destruct (before_timer _ y); [now rewrite filter_cons_False | rewrite !filter_cons; destruct (decide _); now rewrite IH].
Qed.

Lemma no_timers_left_spec b T t fuel A B :
  timers_ok b T t -> elems t = A ++ B -> (length B < fuel)%nat ->
  no_timers_left sentinel fuel (first_or_null B) T =
  Some (if forallb (fun x => match events T !! x.1 with Some e => cancelable e | None => true end) B
        then NGX_OK else NGX_AGAIN, T).
Proof.
  intros H. revert A B. induction fuel as [|fuel IH]; intros A B E Hfuel; [lia |]. cbn [no_timers_left].
  destruct B as [|[p k] B]; [now rewrite decide_True |]. cbn [first_or_null fst forallb].
  assert (p ∈ addrs t) as Hp by (unfold addrs; rewrite E, fmap_app, fmap_cons; set_solver).
  apply (ok_set _ _ _ _ H) in Hp as Hp'. destruct Hp' as (e & He & _).
  rewrite decide_False.
  2:{ intros ->. destruct (ok_tree _ _ _ _ H) as (up & sp & Ht). exact (fresh_null _ (pos_fresh _ _ _ _ _ _ Ht) Hp). }
  rewrite (run_ev_ld _ _ _ _ _ He), He. destruct (cancelable e); cbn [negb andb]; [| done].
  rewrite (run_tree_pure _ _ T _ (rbtree_next_spec _ _ _ _ _ _ (ok_tree _ _ _ _ H) E)).
  rewrite (IH (A ++ [(p, k)]) B); [done | now rewrite <- app_assoc | cbn in Hfuel; lia].
Qed.

(** [ngx_event_no_timers_left] is NGX_OK when every timer may be cancelled. *)
Lemma no_timers_left_correct b T t :
  timers_ok b T t ->
  ngx_event_no_timers_left sentinel T =
  Some (if forallb (fun x => match events T !! x.1 with Some e => cancelable e | None => true end) (elems t)
        then NGX_OK else NGX_AGAIN, T).
Proof.
  intros H. unfold ngx_event_no_timers_left. rewrite run_tget. destruct (elems t) as [|[p k] l] eqn:E.
  - now rewrite decide_True by now apply (tree_root _ _ _ (ok_tree _ _ _ _ H)).
  - rewrite decide_False by exact (root_not_sentinel _ _ _ _ _ H E).
    rewrite (run_tree_pure _ _ T p) by exact (rbtree_min_correct _ _ _ _ _ (ok_tree _ _ _ _ H) E).
    rewrite (run_tree_pure _ _ T (S (size (cells (timer_rbtree T))))) by done.
    apply (no_timers_left_spec b T t _ [] ((p, k) :: l) H E).
    destruct (ok_tree _ _ _ _ H) as (up & sp & Ht). apply length_elems in Ht. rewrite E in Ht. lia.
Qed.

End TimerTheorems.

(** ** An example

    At 20 milliseconds two of three timers have expired. *)

Definition example_timers : timers :=
  mk_timers example_store
    (list_to_map [(2, mk_event true false false); (3, mk_event true false false); (4, mk_event true false true);
      (5, mk_event false false false)]) 20.

Lemma example_timers_ok : timers_ok 1 0 example_timers example_tree.
Proof.
  split.
  - exact example_holds.
  - exact example_red_black.
  - repeat constructor.
  - repeat constructor.
  - reflexivity.
  - intros ev. split.
    + intros H. apply list_elem_of_fmap in H as (x & -> & H). cbn in H.
      rewrite !elem_of_cons, elem_of_nil in H. destruct H as [-> | [-> | [-> | []]]]; eexists; split; reflexivity.
    + intros (e & He & Hs). apply (elem_of_list_to_map_2 (M := gmap Z)) in He.
      rewrite !elem_of_cons, elem_of_nil in He.
      destruct He as [[= -> ->] | [[= -> ->] | [[= -> ->] | [[= -> ->] | []]]]];
        first [discriminate Hs | apply (bool_decide_unpack _); reflexivity].
  - intros ev e He. apply (elem_of_list_to_map_2 (M := gmap Z)) in He. rewrite !elem_of_cons, elem_of_nil in He.
    destruct He as [[= -> ->] | [[= -> ->] | [[= -> ->] | [[= -> ->] | []]]]];
      (split; [lia | apply (bool_decide_unpack _); reflexivity]).
Qed.

Lemma find_timer_correct_witness :
  exists v, ngx_event_find_timer 1 example_timers = Some (v, example_timers) /\
    (elems example_tree = [] -> v = NGX_TIMER_INFINITE) /\
    (forall x, x ∈ elems example_tree -> v <= Z.max 0 (remaining example_timers x.2)) /\
    (elems example_tree <> [] ->
       exists x, x ∈ elems example_tree /\ v = Z.max 0 (remaining example_timers x.2)).
Proof. exact (find_timer_correct 0 example_timers example_tree example_timers_ok). Defined.

Lemma add_timer_correct_witness :
  exists T' t', ngx_event_add_timer 1 5 7 example_timers = Some (tt, T') /\ timers_ok 1 0 T' t' /\
    ngx_current_msec T' = 20 /\
    (elems t' = [(2, 10); (3, 20); (5, 27); (4, 30)] /\
       (forall k, (5, k) ∈ elems example_tree -> NGX_TIMER_LAZY_DELAY <= later_by example_timers 7 k) \/
     T' = example_timers /\ elems t' = elems example_tree /\ exists k, (5, k) ∈ elems example_tree /\
       later_by example_timers 7 k < NGX_TIMER_LAZY_DELAY).
Proof.
  refine (add_timer_correct 0 example_timers example_tree 5 (mk_event false false false) 7 example_timers_ok _ _);
    reflexivity.
Defined.

(** The handlers of the two arm their events again, for 40 milliseconds later. *)
Lemma expire_timers_fires_witness :
  exists T' t',
    ngx_event_expire_timers 1 (fun ev => ngx_event_add_timer 1 ev 40) example_timers = Some ([2; 3], T') /\
    timers_ok 1 0 T' t' /\ (forall x, x ∈ elems t' -> 0 < remaining example_timers x.2).
Proof.
  destruct (expire_timers_fires 0 none_disarmed _ example_timers example_tree (rearm_handler 0 20 40 eq_refl eq_refl) example_timers_ok)
    as (evs & T' & t' & R & _ & _ & _ & E & H & L).
  exists T', t'. rewrite (E (fun ev l l' Q => Q)) in R. exact (conj R (conj H L)).
Defined.

(** The handler of one disarms the other, whose handler is not called then. *)
Example expire_disarmed :
  fst <$> ngx_event_expire_timers 1 (fun ev => if ev =? 2 then ngx_event_del_timer 1 3 else mret tt) example_timers = Some [2].
Proof. vm_compute. reflexivity. Qed.
