(* ===== verification/NgxQueue.v ===== *)
(** The circular doubly linked queues of the core (core/ngx_queue.h,
    core/ngx_queue.c). *)
From S2P Require Export NgxStore.

(** ** Data and operations *)

Record ngx_queue_t := mk_queue { q_prev : Z; q_next : Z }.

Definition set_prev v n := mk_queue v (q_next n).
Definition set_next v n := mk_queue (q_prev n) v.

Abbreviation qprog := (prog ngx_queue_t unit).

Definition ngx_queue_init (q : Z) : qprog unit :=
  st (set_prev q) q;;
  st (set_next q) q.

Definition ngx_queue_empty (h : Z) : qprog bool := p ← ld q_prev h; mret (bool_decide (h = p)).

Definition ngx_queue_head (h : Z) : qprog Z := ld q_next h.
Definition ngx_queue_last (h : Z) : qprog Z := ld q_prev h.
Definition ngx_queue_sentinel (h : Z) : Z := h.
Definition ngx_queue_next (q : Z) : qprog Z := ld q_next q.
Definition ngx_queue_prev (q : Z) : qprog Z := ld q_prev q.

Definition ngx_queue_insert_head (h x : Z) : qprog unit :=
  hn ← ld q_next h;
  st (set_next hn) x;;
  xn ← ld q_next x;
  st (set_prev x) xn;;
  st (set_prev h) x;;
  st (set_next x) h.

Definition ngx_queue_insert_after := ngx_queue_insert_head.

Definition ngx_queue_insert_tail (h x : Z) : qprog unit :=
  hp ← ld q_prev h;
  st (set_prev hp) x;;
  xp ← ld q_prev x;
  st (set_next x) xp;;
  st (set_next h) x;;
  st (set_prev x) h.

Definition ngx_queue_remove (x : Z) : qprog unit :=
  xn ← ld q_next x;
  xp ← ld q_prev x;
  st (set_prev xp) xn;;
  xp ← ld q_prev x;
  xn ← ld q_next x;
  st (set_next xn) xp.

Definition ngx_queue_split (h q n : Z) : qprog unit :=
  hp ← ld q_prev h;
  st (set_prev hp) n;;
  np ← ld q_prev n;
  st (set_next n) np;;
  st (set_next q) n;;
  qp ← ld q_prev q;
  st (set_prev qp) h;;
  hp ← ld q_prev h;
  st (set_next h) hp;;
  st (set_prev n) q.

Definition ngx_queue_add (h n : Z) : qprog unit :=
  hp ← ld q_prev h;
  nn ← ld q_next n;
  st (set_next nn) hp;;
  nn ← ld q_next n;
  hp ← ld q_prev h;
  st (set_prev hp) nn;;
  np ← ld q_prev n;
  st (set_prev np) h;;
  hp ← ld q_prev h;
  st (set_next h) hp.

Fixpoint queue_middle (fuel : nat) (queue middle next : Z) : qprog Z :=
  match fuel with
  | O => out_of_fuel
  | S fuel' =>
      middle ← ngx_queue_next middle;
      next ← ngx_queue_next next;
      last ← ngx_queue_last queue;
      if decide (next = last) then mret middle else
      next ← ngx_queue_next next;
      last ← ngx_queue_last queue;
      if decide (next = last) then mret middle else
      queue_middle fuel' queue middle next
  end.

Definition ngx_queue_middle (queue : Z) : qprog Z :=
  middle ← ngx_queue_head queue;
  last ← ngx_queue_last queue;
  if decide (middle = last) then mret middle else
  next ← ngx_queue_head queue;
  fuel ← room;
  queue_middle fuel queue middle next.

Section Sort.
(** What [cmp] answers of two elements, as its callers' functions do, without
    looking at the links. *)
Variable cmp : Z -> Z -> Z.

(** The inner loop: back from [prev] to the element that [q] comes after. *)
Fixpoint sort_find (fuel : nat) (queue q prev : Z) : qprog Z :=
  match fuel with
  | O => out_of_fuel
  | S fuel' =>
      if cmp prev q <=? 0 then mret prev else
      prev ← ngx_queue_prev prev;
      if decide (prev = ngx_queue_sentinel queue) then mret prev else sort_find fuel' queue q prev
  end.

Fixpoint queue_sort (fuel : nat) (queue q : Z) : qprog unit :=
  match fuel with
  | O => out_of_fuel
  | S fuel' =>
      if decide (q = ngx_queue_sentinel queue) then mret tt else
      prev ← ngx_queue_prev q;
      next ← ngx_queue_next q;
      ngx_queue_remove q;;
      steps ← room;
      prev ← sort_find steps queue q prev;
      ngx_queue_insert_after prev q;;
      queue_sort fuel' queue next
  end.

Definition ngx_queue_sort (queue : Z) : qprog unit :=
  q ← ngx_queue_head queue;
  last ← ngx_queue_last queue;
  if decide (q = last) then mret tt else
  q ← ngx_queue_next q;
  fuel ← room;
  queue_sort fuel queue q.
End Sort.


(** ** Rings *)

(** The links of the structs. *)
Definition nx (h : gmap Z ngx_queue_t) (p : Z) : option Z := q_next <$> h !! p.
Definition pv (h : gmap Z ngx_queue_t) (p : Z) : option Z := q_prev <$> h !! p.

Definition link (h : gmap Z ngx_queue_t) (a b : Z) : Prop := nx h a = Some b /\ pv h b = Some a.

(** From [a] through [l] to [z]. *)
Fixpoint chain (h : gmap Z ngx_queue_t) (a : Z) (l : list Z) (z : Z) : Prop :=
  match l with
  | [] => link h a z
  | b :: l' => link h a b /\ chain h b l' z
  end.

(** The queue with head [q] has the elements [l] in order. *)
Definition ring (h : gmap Z ngx_queue_t) (q : Z) (l : list Z) : Prop := NoDup (q :: l) /\ chain h q l q.

Section Rings.
Implicit Types (h : gmap Z ngx_queue_t) (l : list Z) (s : store ngx_queue_t unit).

Lemma nx_set_prev h v p y : nx (alter (set_prev v) p h) y = nx h y.
Proof.
  unfold nx. destruct (decide (p = y)) as [-> | H]; [rewrite lookup_alter_eq | now rewrite lookup_alter_ne].
  now destruct (h !! y).
Qed.

Lemma pv_set_next h v p y : pv (alter (set_next v) p h) y = pv h y.
Proof.
  unfold pv. destruct (decide (p = y)) as [-> | H]; [rewrite lookup_alter_eq | now rewrite lookup_alter_ne].
  now destruct (h !! y).
Qed.

Lemma nx_set_next h v p y : nx (alter (set_next v) p h) y = if decide (p = y) then const v <$> h !! p else nx h y.
Proof.
  unfold nx. destruct (decide (p = y)) as [-> | H]; [rewrite lookup_alter_eq | now rewrite lookup_alter_ne].
  now destruct (h !! y).
Qed.

Lemma pv_set_prev h v p y : pv (alter (set_prev v) p h) y = if decide (p = y) then const v <$> h !! p else pv h y.
Proof.
  unfold pv. destruct (decide (p = y)) as [-> | H]; [rewrite lookup_alter_eq | now rewrite lookup_alter_ne].
  now destruct (h !! y).
Qed.

Lemma run_qnext {B} p v (k : Z -> qprog B) s : nx (cells s) p = Some v -> (x ← ld q_next p; k x) s = k v s.
Proof. unfold nx. intros H. apply fmap_Some in H as (n & H & ->). now apply run_ld. Qed.

Lemma run_qprev {B} p v (k : Z -> qprog B) s : pv (cells s) p = Some v -> (x ← ld q_prev p; k x) s = k v s.
Proof. unfold pv. intros H. apply fmap_Some in H as (n & H & ->). now apply run_ld. Qed.

Lemma run_set {B} p f (k : qprog B) s :
  p ∈ dom (cells s) -> (st f p;; k) s = k (mk_store (alter f p (cells s)) (glob s)).
Proof. intros [n H]%elem_of_dom. exact (run_st f p k s n H). Qed.

Lemma run_set_last p f s :
  p ∈ dom (cells s) -> st f p s = Some (tt, mk_store (alter f p (cells s)) (glob s)).
Proof. intros [n H]%elem_of_dom. exact (run_st_last f p s n H). Qed.

Lemma nx_dom h p v : nx h p = Some v -> p ∈ dom h.
Proof. unfold nx. intros H. apply fmap_Some in H as (n & H & _). apply elem_of_dom. eauto. Qed.

Lemma pv_dom h p v : pv h p = Some v -> p ∈ dom h.
Proof. unfold pv. intros H. apply fmap_Some in H as (n & H & _). apply elem_of_dom. eauto. Qed.

Lemma dom_const {A} (v : A) h p : p ∈ dom h -> const v <$> h !! p = Some v.
Proof. intros [n H]%elem_of_dom. now rewrite H. Qed.

Lemma chain_app h a l1 b l2 z : chain h a (l1 ++ b :: l2) z <-> chain h a l1 b /\ chain h b l2 z.
Proof. revert a. induction l1 as [|c l1 IH]; intros a; cbn; [done |]. rewrite IH. tauto. Qed.

(** A ring looked at from another element. *)
Lemma ring_rotate h q l1 x l2 : ring h q (l1 ++ x :: l2) <-> ring h x (l2 ++ q :: l1).
Proof.
  unfold ring. rewrite !chain_app.
  assert (q :: l1 ++ x :: l2 ≡ₚ x :: l2 ++ q :: l1) as -> by solve_Permutation. tauto.
Qed.

(** A chain depends on [next] of its elements but the last, and on [prev] of
    its elements but the first. *)
Lemma chain_frame h h' a l z :
  (forall x, x ∈ a :: l -> nx h' x = nx h x) -> (forall x, x ∈ l ++ [z] -> pv h' x = pv h x) ->
  chain h a l z -> chain h' a l z.
Proof.
  revert a. induction l as [|b l IH]; intros a Hn Hp; cbn; unfold link.
  - rewrite Hn by left. rewrite Hp by left. done.
  - intros [[H1 H2] H3]. rewrite Hn by left. rewrite Hp by left. split; [done |].
    apply IH; [| | exact H3]; intros x Hx; [apply Hn | apply Hp]; now right.
Qed.

(** A chain with a new end. *)
Lemma chain_close h h' a l z z' :
  NoDup (a :: l) -> chain h a l z ->
  (forall x, x ∈ a :: l -> x <> List.last l a -> nx h' x = nx h x) -> (forall x, x ∈ l -> pv h' x = pv h x) ->
  nx h' (List.last l a) = Some z' -> pv h' z' = Some (List.last l a) -> chain h' a l z'.
Proof.
  revert a. induction l as [|b l IH]; intros a Hd Hc Hn Hp En Ep; [done |].
  destruct Hc as [[H1 H2] Hc]. apply NoDup_cons in Hd as [Ha Hd].
  assert (List.last (b :: l) a = List.last l b) as E.
  { destruct l as [|c l _] using rev_ind; [done | now rewrite app_comm_cons, !last_last]. }
  assert (List.last l b ∈ b :: l) as Hl.
  { destruct l as [|c l _] using rev_ind; [left |]. rewrite last_last. right. apply elem_of_app. right. left. }
  rewrite E in *. split; [split |].
  - rewrite Hn; [done | left |]. intros ->. now apply Ha.
  - rewrite Hp; [done | left].
  - apply IH; try done; intros x Hx; [intros Hne; apply Hn; [now right | done] | apply Hp; now right].
Qed.

Lemma ring_head h q l : ring h q l -> nx h q = Some (hd q l).
Proof. intros [_ H]. destruct l; apply H. Qed.

Lemma ring_last h q l : ring h q l -> pv h q = Some (List.last l q).
Proof.
  intros [_ H]. destruct l as [|b l _] using rev_ind; [apply H |]. apply chain_app in H as [_ H].
  rewrite last_last. apply H.
Qed.

Lemma chain_dom h a l z : chain h a l z -> Forall (fun x => x ∈ dom h) (a :: l).
Proof.
  revert a. induction l as [|b l IH]; intros a; cbn; intros H.
  - constructor; [| constructor]. destruct H as [H _]. now apply nx_dom in H.
  - destruct H as [[H _] H']. constructor; [now apply nx_dom in H |]. now apply IH.
Qed.

Lemma ring_dom h q l x : ring h q l -> x ∈ q :: l -> x ∈ dom h.
Proof. intros [_ H] Hx. apply chain_dom in H. rewrite Forall_forall in H. auto. Qed.
End Rings.

(** Runs a program over queues; the links it reads are found by rewriting with
    the equations of the context. *)
Ltac q_links := cbn [cells];
  repeat first [rewrite nx_set_prev | rewrite pv_set_next | rewrite nx_set_next | rewrite pv_set_prev];
  repeat (case_decide; subst; try done); try done.
Ltac q_dom := cbn [cells]; rewrite ?dom_alter_L; eauto using nx_dom, pv_dom.

(** Decides which cell is looked at. *)
Ltac q_cases := repeat (case_decide; subst; try done; try tauto; try congruence).

Section Operations.
Implicit Types (h : gmap Z ngx_queue_t) (l : list Z) (s : store ngx_queue_t unit).

Definition q_unchanged (l : list Z) s s' : Prop := forall x, x ∉ l -> cells s' !! x = cells s !! x.

Lemma insert_head_spec s q l x :
  ring (cells s) q l -> x ∈ dom (cells s) -> x ∉ q :: l ->
  exists s', ngx_queue_insert_head q x s = Some (tt, s') /\ ring (cells s') q (x :: l) /\
    q_unchanged (q :: x :: l) s s'.
Proof.
  intros H Hx Hxl. pose proof (ring_head _ _ _ H) as Hh. set (f := hd q l) in *.
  assert (f ∈ q :: l) as Hf by (subst f; destruct l; cbn; [left | right; left]).
  pose proof (ring_dom _ _ _ _ H Hf) as Hfd. pose proof (ring_dom _ _ _ q H ltac:(left)) as Hqd.
  unfold ngx_queue_insert_head. rewrite (run_qnext _ f) by done.
  rewrite run_set by done. rewrite (run_qnext _ f) by (q_links; now apply dom_const).
  rewrite run_set by q_dom. rewrite run_set by q_dom. rewrite run_set_last by q_dom.
  eexists; split; [reflexivity |]. cbn [cells]. set (h' := alter _ q _).
  assert (forall y, nx h' y = if decide (q = y) then Some x else if decide (x = y) then Some f else nx (cells s) y) as Hn.
  { intros y. unfold h'. rewrite nx_set_next, !nx_set_prev, nx_set_next.
    destruct (decide (q = y)); [apply dom_const; q_dom |]. destruct (decide (x = y)); [now apply dom_const | done]. }
  assert (forall y, pv h' y = if decide (x = y) then Some q else if decide (f = y) then Some x else pv (cells s) y) as Hp.
  { intros y. unfold h'. rewrite pv_set_next, !pv_set_prev, pv_set_next.
    destruct (decide (x = y)); [apply dom_const; q_dom |]. destruct (decide (f = y)); [apply dom_const; q_dom | done]. }
  destruct H as [Hnd Hc]. rewrite not_elem_of_cons in Hxl. destruct Hxl as [Hxq Hxl].
  pose proof Hnd as Hnd'. apply NoDup_cons in Hnd as [Hq Hnd].
  assert (f <> x) as Hfx by (intros <-; apply elem_of_cons in Hf; tauto).
  split; [split |].
  - constructor; [rewrite not_elem_of_cons; split; [intros ->; tauto | done] | constructor; tauto].
  - cbn. split; [split; [rewrite Hn; q_cases | rewrite Hp; q_cases] |].
    destruct l as [|b l]; cbn in f; subst f.
    + split; [rewrite Hn | rewrite Hp]; q_cases.
    + rewrite not_elem_of_cons in Hxl, Hq. apply NoDup_cons in Hnd as [Hb Hnd].
      split; [split; [rewrite Hn | rewrite Hp]; q_cases |].
      eapply chain_frame; [| | exact (proj2 Hc)]; intros y Hy; [rewrite Hn | rewrite Hp].
      * apply elem_of_cons in Hy. q_cases; naive_solver.
      * apply elem_of_app in Hy. rewrite list_elem_of_singleton in Hy. q_cases; naive_solver.
  - intros y Hy. rewrite !not_elem_of_cons in Hy. cbn [cells]. unfold h'.
    assert (f <> y) by (intros ->; apply elem_of_cons in Hf; tauto).
    rewrite !lookup_alter_ne; try done; intros ->; tauto.
Qed.


Lemma insert_after_spec s q l1 p l2 x :
  ring (cells s) q (l1 ++ p :: l2) -> x ∈ dom (cells s) -> x ∉ q :: l1 ++ p :: l2 ->
  exists s', ngx_queue_insert_after p x s = Some (tt, s') /\ ring (cells s') q (l1 ++ p :: x :: l2) /\
    q_unchanged (q :: x :: l1 ++ p :: l2) s s'.
Proof.
  intros H Hx Hxl. apply ring_rotate in H.
  assert (q :: l1 ++ p :: l2 ≡ₚ p :: l2 ++ q :: l1) as Hp by solve_Permutation. rewrite Hp in Hxl.
  destruct (insert_head_spec s p _ x H Hx Hxl) as (s' & R & H' & U). exists s'. split; [exact R |].
  split; [now apply (ring_rotate _ p (x :: l2) q l1) in H' |].
  intros y Hy. apply U. intros Q. apply Hy.
  assert (q :: x :: l1 ++ p :: l2 ≡ₚ p :: x :: l2 ++ q :: l1) as -> by solve_Permutation. exact Q.
Qed.

Lemma last_in {A} (l : list A) q : List.last l q ∈ q :: l.
Proof.
  destruct l as [|b l _] using rev_ind; [left |]. rewrite last_last. right. apply elem_of_app. right. left.
Qed.

Lemma insert_tail_spec s q l x :
  ring (cells s) q l -> x ∈ dom (cells s) -> x ∉ q :: l ->
  exists s', ngx_queue_insert_tail q x s = Some (tt, s') /\ ring (cells s') q (l ++ [x]) /\
    q_unchanged (q :: x :: l) s s'.
Proof.
  intros H Hx Hxl. pose proof (ring_last _ _ _ H) as Hh. pose proof (last_in l q) as Hf. set (f := List.last l q) in *.
  pose proof (ring_dom _ _ _ _ H Hf) as Hfd. pose proof (ring_dom _ _ _ q H ltac:(left)) as Hqd.
  assert (f <> x) as Hfx by (intros <-; tauto).
  unfold ngx_queue_insert_tail. rewrite (run_qprev _ f) by done.
  rewrite run_set by done. rewrite (run_qprev _ f) by (q_links; now apply dom_const).
  rewrite run_set by q_dom. rewrite run_set by q_dom. rewrite run_set_last by q_dom.
  eexists; split; [reflexivity |]. cbn [cells]. set (h' := alter _ q _).
  assert (forall y, pv h' y = if decide (q = y) then Some x else if decide (x = y) then Some f else pv (cells s) y) as Hp.
  { intros y. unfold h'. rewrite pv_set_prev, !pv_set_next, pv_set_prev.
    destruct (decide (q = y)); [apply dom_const; q_dom |]. destruct (decide (x = y)); [now apply dom_const | done]. }
  assert (forall y, nx h' y = if decide (x = y) then Some q else if decide (f = y) then Some x else nx (cells s) y) as Hn.
  { intros y. unfold h'. rewrite nx_set_prev, !nx_set_next, nx_set_prev.
    destruct (decide (x = y)); [apply dom_const; q_dom |]. destruct (decide (f = y)); [apply dom_const; q_dom | done]. }
  destruct H as [Hnd Hc]. split; [split |].
  - assert (q :: l ++ [x] ≡ₚ x :: q :: l) as -> by solve_Permutation. now constructor.
  - apply chain_app. rewrite not_elem_of_cons in Hxl. destruct Hxl as [Hxq Hxl]. pose proof Hnd as Hq.
    apply NoDup_cons in Hq as [Hq _].
    split; [| split; [rewrite Hn; q_cases | rewrite Hp; q_cases]].
    apply (chain_close (cells s) _ _ _ q); try done; fold f.
    + intros y Hy Hyf. rewrite Hn. rewrite elem_of_cons in Hy. q_cases; naive_solver.
    + intros y Hy. rewrite Hp. q_cases.
    + rewrite Hn. q_cases.
    + rewrite Hp. q_cases.
  - intros y Hy. rewrite !not_elem_of_cons in Hy. cbn [cells]. unfold h'.
    assert (f <> y) by (intros ->; apply elem_of_cons in Hf; tauto).
    rewrite !lookup_alter_ne; try done; intros ->; tauto.
Qed.

(** Removing the element we look from leaves a ring of the others. *)
Lemma remove_first_spec s x a m :
  ring (cells s) x (a :: m) ->
  exists s', ngx_queue_remove x s = Some (tt, s') /\ ring (cells s') a m /\ q_unchanged (a :: m) s s' /\
    nx (cells s') x = nx (cells s) x.
Proof.
  intros H. pose proof (ring_last _ _ _ H) as Hl. pose proof (ring_head _ _ _ H) as Hh. cbn [hd] in Hh.
  assert (List.last (a :: m) x = List.last m a) as El by (destruct m as [|b m _] using rev_ind; [done |]; now rewrite app_comm_cons, !last_last).
  rewrite El in Hl. set (z := List.last m a) in *. pose proof (last_in m a) as Hz. fold z in Hz.
  pose proof (ring_dom _ _ _ a H ltac:(right; left)) as Had.
  pose proof (ring_dom _ _ _ z H ltac:(now right)) as Hzd.
  destruct H as [Hnd Hc]. apply NoDup_cons in Hnd as [Hx Hnd].
  assert (x <> a) as Hxa by (intros ->; apply Hx; left).
  assert (x <> z) as Hxz by (intros ->; now apply Hx).
  unfold ngx_queue_remove. rewrite (run_qnext _ a) by done. rewrite (run_qprev _ z) by done. rewrite run_set by done.
  rewrite (run_qprev _ z) by (q_links; congruence). rewrite (run_qnext _ a) by q_links. rewrite run_set_last by q_dom.
  eexists; split; [reflexivity |]. cbn [cells]. set (h' := alter _ z _).
  assert (forall y, pv h' y = if decide (a = y) then Some z else pv (cells s) y) as Hp.
  { intros y. unfold h'. rewrite pv_set_next, pv_set_prev. destruct (decide (a = y)); [now apply dom_const | done]. }
  assert (forall y, nx h' y = if decide (z = y) then Some a else nx (cells s) y) as Hn.
  { intros y. unfold h'. rewrite nx_set_next, nx_set_prev. destruct (decide (z = y)); [apply dom_const; q_dom | done]. }
  split; [split; [exact Hnd |] | split].
  - destruct Hc as [_ Hc]. apply NoDup_cons in Hnd as Ha. destruct Ha as [Ha _].
    apply (chain_close (cells s) _ _ _ x); try done; fold z.
    + intros y Hy Hyf. rewrite Hn. q_cases.
    + intros y Hy. rewrite Hp. q_cases.
    + rewrite Hn. q_cases.
    + rewrite Hp. q_cases.
  - intros y Hy. cbn [cells]. unfold h'. rewrite !lookup_alter_ne; try done; intros ->; first [exact (Hy Hz) | apply Hy; left].
  - rewrite Hn. q_cases.
Qed.

Lemma remove_spec s q l1 x l2 :
  ring (cells s) q (l1 ++ x :: l2) ->
  exists s', ngx_queue_remove x s = Some (tt, s') /\ ring (cells s') q (l1 ++ l2) /\
    q_unchanged (q :: l1 ++ l2) s s'.
Proof.
  intros H. apply ring_rotate in H. destruct l2 as [|a l2]; cbn [app] in H.
  - destruct (remove_first_spec s x q l1 H) as (s' & R & H' & U & _). exists s'. rewrite app_nil_r. done.
  - destruct (remove_first_spec s x a _ H) as (s' & R & H' & U & _). exists s'. split; [exact R |].
    apply ring_rotate in H'. split; [exact H' |]. intros y Hy. apply U. intros Q. apply Hy.
    assert (q :: l1 ++ a :: l2 ≡ₚ a :: l2 ++ q :: l1) as -> by solve_Permutation. exact Q.
Qed.

(** [ngx_queue_split]: from [q] on the elements go to the queue [n]. *)
Lemma split_spec s (h : Z) l1 q l2 n :
  ring (cells s) h (l1 ++ q :: l2) -> n ∈ dom (cells s) -> n ∉ h :: l1 ++ q :: l2 ->
  exists s', ngx_queue_split h q n s = Some (tt, s') /\ ring (cells s') h l1 /\ ring (cells s') n (q :: l2).
Proof.
  intros H Hnd Hn. pose proof (ring_last _ _ _ H) as Hl.
  assert (List.last (l1 ++ q :: l2) h = List.last l2 q) as El.
  { destruct l2 as [|b l2 _] using rev_ind; [now rewrite last_last |].
    rewrite app_comm_cons, app_assoc, !last_last. done. }
  rewrite El in Hl. set (z := List.last l2 q) in *. pose proof (last_in l2 q) as Hz. fold z in Hz.
  set (p := List.last l1 h). pose proof (last_in l1 h) as Hp. fold p in Hp.
  assert (pv (cells s) q = Some p) as Hqp.
  { pose proof (proj1 (ring_rotate _ _ _ _ _) H) as Hr. apply ring_last in Hr. rewrite Hr. f_equal.
    unfold p. destruct l1 as [|b l1 _] using rev_ind; [now rewrite last_last |].
    rewrite app_comm_cons, app_assoc, !last_last. done. }
  assert (forall y, y ∈ h :: l1 ++ q :: l2 -> y ∈ dom (cells s)) as Hdom by (intros y; apply ring_dom, H).
  rewrite not_elem_of_cons, not_elem_of_app, not_elem_of_cons in Hn. destruct Hn as (Hnh & Hn1 & Hnq & Hn2).
  destruct H as [Hnodup Hc]. apply NoDup_cons in Hnodup as [Hh Hnodup].
  rewrite not_elem_of_app, not_elem_of_cons in Hh. destruct Hh as (Hh1 & Hhq & Hh2).
  apply NoDup_app in Hnodup as (N1 & N12 & N2). apply NoDup_cons in N2 as [Hq2 N2].
  assert (q ∉ l1) as Hq1 by (intros Q; apply (N12 q Q); left).
  assert (z <> h /\ z <> n) as [Hzh Hzn] by (split; intros Q; rewrite Q in Hz; apply elem_of_cons in Hz; naive_solver).
  assert (p <> q /\ p <> n) as [Hpq Hpn] by (split; intros Q; rewrite Q in Hp; apply elem_of_cons in Hp; naive_solver).
  assert (p <> z) as Hpz.
  { intros ->. apply elem_of_cons in Hp as [-> | Hp]; [done |]. exact (N12 _ Hp Hz). }
  assert (q ∈ dom (cells s) /\ h ∈ dom (cells s) /\ z ∈ dom (cells s) /\ p ∈ dom (cells s)) as (Dq & Dh & Dz & Dp).
  { split_and!; apply Hdom; rewrite elem_of_cons, elem_of_app; rewrite !elem_of_cons in *; tauto. }
  unfold ngx_queue_split. rewrite (run_qprev _ z) by done. rewrite run_set by done.
  rewrite (run_qprev _ z) by (q_links; now apply dom_const).
  rewrite run_set by q_dom. rewrite run_set by q_dom.
  rewrite (run_qprev _ p) by q_links. rewrite run_set by q_dom.
  rewrite (run_qprev _ p) by (q_links; apply dom_const; q_dom).
  rewrite run_set by q_dom. rewrite run_set_last by q_dom.
  eexists; split; [reflexivity |]. cbn [cells]. set (h' := alter _ q _).
  assert (forall y, pv h' y = if decide (q = y) then Some n else if decide (h = y) then Some p else
    if decide (n = y) then Some z else pv (cells s) y) as Ep.
  { intros y. unfold h'. rewrite pv_set_prev, pv_set_next, pv_set_prev, !pv_set_next, pv_set_prev.
    repeat case_decide; try done; apply dom_const; q_dom. }
  assert (forall y, nx h' y = if decide (p = y) then Some h else if decide (n = y) then Some q else
    if decide (z = y) then Some n else nx (cells s) y) as En.
  { intros y. unfold h'. rewrite nx_set_prev, nx_set_next, nx_set_prev, !nx_set_next, nx_set_prev.
    repeat case_decide; try done; apply dom_const; q_dom. }
  apply chain_app in Hc as [Hc1 Hc2].
  split; (split; [repeat constructor; rewrite ?not_elem_of_cons; tauto |]).
  - apply (chain_close (cells s) _ _ _ q); [now constructor | done |..]; fold p.
    + intros y Hy Hyp. rewrite En. rewrite elem_of_cons in Hy.
      assert (z <> y) by (intros <-; destruct Hy as [-> | Hy]; [done | exact (N12 _ Hy Hz)]).
      q_cases; naive_solver.
    + intros y Hy. rewrite Ep. q_cases.
    + rewrite En. q_cases.
    + rewrite Ep. q_cases.
  - split; [split; [rewrite En; q_cases | rewrite Ep; q_cases] |].
    apply (chain_close (cells s) _ _ _ h); [now constructor | done |..]; fold z.
    + intros y Hy Hyz. rewrite En.
      assert (p <> y) by (intros <-; apply elem_of_cons in Hp as [-> | Hp]; [rewrite elem_of_cons in Hy; tauto | exact (N12 _ Hp Hy)]).
      rewrite elem_of_cons in Hy. q_cases; naive_solver.
    + intros y Hy. rewrite Ep. q_cases.
    + rewrite En. q_cases.
    + rewrite Ep. q_cases.
Qed.

(** [ngx_queue_add]: the elements of the queue [n] follow those of [h]. *)
Lemma add_spec s (h : Z) l n m :
  ring (cells s) h l -> ring (cells s) n m -> m <> [] -> NoDup (h :: n :: l ++ m) ->
  exists s', ngx_queue_add h n s = Some (tt, s') /\ ring (cells s') h (l ++ m).
Proof.
  intros H H' Hm Hnd. destruct m as [|a m]; [done |].
  pose proof (ring_last _ _ _ H) as Hl. set (p := List.last l h) in *. pose proof (last_in l h) as Hp. fold p in Hp.
  pose proof (ring_head _ _ _ H') as Ha. cbn in Ha. pose proof (ring_last _ _ _ H') as Hz.
  assert (List.last (a :: m) n = List.last m a) as El by (destruct m as [|b m _] using rev_ind; [done |]; now rewrite app_comm_cons, !last_last).
  rewrite El in Hz. set (z := List.last m a) in *. pose proof (last_in m a) as Hzm. fold z in Hzm.
  pose proof (ring_dom _ _ _ p H Hp) as Dp. pose proof (ring_dom _ _ _ h H ltac:(left)) as Dh.
  pose proof (ring_dom _ _ _ z H' ltac:(now right)) as Dz. pose proof (ring_dom _ _ _ a H' ltac:(right; left)) as Da.
  apply NoDup_cons in Hnd as [Hh Hnd]. apply NoDup_cons in Hnd as [Hn Hnd].
  rewrite not_elem_of_cons, not_elem_of_app in Hh. destruct Hh as (Hhn & Hhl & Hhm).
  rewrite not_elem_of_app in Hn. destruct Hn as [Hnl Hnm].
  pose proof Hnd as Hnd'. apply NoDup_app in Hnd' as (Nl & Nlm & Nm).
  assert (p ∉ a :: m) as Hpm by (intros Q; apply elem_of_cons in Hp as [E | Hp]; [now rewrite E in Q | exact (Nlm _ Hp Q)]).
  assert (p <> n) as Hpn by (intros ->; apply elem_of_cons in Hp; naive_solver).
  assert (p <> z) as Hpz by congruence.
  assert (z <> h /\ z <> n /\ a <> h /\ a <> n) as (Hzh & Hzn & Hah & Han) by (rewrite not_elem_of_cons in Hhm, Hnm; rewrite elem_of_cons in Hzm; naive_solver).
  unfold ngx_queue_add. rewrite (run_qprev _ p), (run_qnext _ a) by done. rewrite run_set by done.
  rewrite (run_qnext _ a) by q_links. rewrite (run_qprev _ p) by q_links. rewrite run_set by q_dom.
  rewrite (run_qprev _ z) by q_links. rewrite run_set by q_dom.
  rewrite (run_qprev _ z) by (q_links; apply dom_const; q_dom). rewrite run_set_last by q_dom.
  eexists; split; [reflexivity |]. cbn [cells]. set (h' := alter _ z _).
  assert (forall y, pv h' y = if decide (h = y) then Some z else if decide (a = y) then Some p else pv (cells s) y) as Ep.
  { intros y. unfold h'. rewrite pv_set_next, !pv_set_prev, pv_set_next.
    repeat case_decide; try done; apply dom_const; q_dom. }
  assert (forall y, nx h' y = if decide (z = y) then Some h else if decide (p = y) then Some a else nx (cells s) y) as En.
  { intros y. unfold h'. rewrite nx_set_next, !nx_set_prev, nx_set_next.
    repeat case_decide; try done; apply dom_const; q_dom. }
  destruct H as [_ Hc]. destruct H' as [_ [_ Hc']]. split.
  - constructor; [rewrite not_elem_of_app; tauto | done].
  - apply chain_app. split.
    + apply (chain_close (cells s) _ _ _ h); [now constructor | done |..]; fold p.
      * intros y Hy Hyp. rewrite En.
        assert (z <> y) by (intros <-; apply elem_of_cons in Hy as [E | Hy]; [done | exact (Nlm _ Hy Hzm)]). q_cases.
      * intros y Hy. rewrite Ep. assert (a <> y) by (intros <-; apply (Nlm _ Hy); left). q_cases.
      * rewrite En. q_cases.
      * rewrite Ep. q_cases.
    + apply (chain_close (cells s) _ _ _ n); [done | done |..]; fold z.
      * intros y Hy Hyz. rewrite En. q_cases.
      * intros y Hy. rewrite Ep. apply NoDup_cons in Nm as [Nm _]. rewrite not_elem_of_cons in Hhm. q_cases.
      * rewrite En. q_cases.
      * rewrite Ep. q_cases.
Qed.
End Operations.

(** ** The middle of a queue *)

Section Middle.
Implicit Types (h : gmap Z ngx_queue_t) (l : list Z) (s : store ngx_queue_t unit).

Lemma chain_nx h a l z i x y :
  chain h a l z -> l !! i = Some x -> (l ++ [z]) !! S i = Some y -> nx h x = Some y.
Proof.
  intros Hc Hx Hy. apply list_elem_of_split_length in Hx as (l1 & l2 & -> & ->).
  apply chain_app in Hc as [_ Hc]. rewrite <- app_assoc, lookup_app_r, Nat.sub_succ_l, Nat.sub_diag in Hy by lia.
  destruct l2 as [|b l2]; cbn in Hy; injection Hy as <-; apply Hc.
Qed.

Lemma ring_size s q l : ring (cells s) q l -> (length l < size (cells s))%nat.
Proof.
  intros [Hnd Hc]. apply chain_dom in Hc. rewrite <- size_dom.
  apply (Nat.lt_le_trans _ (length (q :: l))); [cbn; lia |].
  rewrite <- (size_list_to_set (C := gset Z) (q :: l)) by exact Hnd.
  apply subseteq_size. intros x Hx. apply elem_of_list_to_set in Hx. rewrite Forall_forall in Hc. auto.
Qed.

Lemma ring_idx_eq h q l i j x :
  ring h q l -> l !! i = Some x -> l !! j = Some x -> i = j.
Proof. intros [Hnd _] Hi Hj. apply NoDup_cons in Hnd as [_ Hnd]. exact (NoDup_lookup _ _ _ _ Hnd Hi Hj). Qed.

Lemma last_lookup_idx l q : l <> [] -> l !! (length l - 1)%nat = Some (List.last l q).
Proof.
  destruct l as [|b l _] using rev_ind; [done |]. intros _. rewrite last_last, length_app. cbn.
  rewrite lookup_app_r by lia. now replace (length l + 1 - 1 - length l)%nat with 0%nat by lia.
Qed.

Lemma queue_middle_spec fuel s q l i m n :
  ring (cells s) q l -> l !! i = Some m -> l !! (2 * i)%nat = Some n -> (2 * i + 1 < length l)%nat ->
  (length l < 2 * (i + fuel))%nat ->
  exists x, queue_middle fuel q m n s = Some (x, s) /\ l !! (length l / 2)%nat = Some x.
Proof.
  revert i m n. induction fuel as [|fuel IH]; intros i m n H Hm Hn Hi Hfuel; [lia |]. cbn [queue_middle].
  unfold ngx_queue_next, ngx_queue_last.
  assert (l <> []) as Hne by (intros ->; cbn in Hi; lia).
  pose proof (ring_last _ _ _ H) as Hl. pose proof (last_lookup_idx l q Hne) as Hz. set (z := List.last l q) in *.
  assert (forall j x, l !! j = Some x -> (S j < length l)%nat -> exists y, l !! S j = Some y /\ nx (cells s) x = Some y) as Hnext.
  { intros j x Hx Hj. destruct (lookup_lt_is_Some_2 l (S j) Hj) as [y Hy]. exists y. split; [done |].
    destruct H as [_ Hc]. apply (chain_nx _ _ _ _ j x y Hc Hx). now apply lookup_app_l_Some. }
  destruct (Hnext i m Hm ltac:(lia)) as (m1 & Hm1 & Nm). destruct (Hnext _ n Hn ltac:(lia)) as (n1 & Hn1 & Nn).
  rewrite (run_qnext _ _ _ _ Nm), (run_qnext _ _ _ _ Nn), (run_qprev _ _ _ _ Hl).
  destruct (decide (n1 = z)) as [-> | Hne1].
  - pose proof (ring_idx_eq _ _ _ _ _ _ H Hn1 Hz) as E. exists m1. split; [done |].
    replace (length l / 2)%nat with (S i); [done |]. replace (length l) with (S i * 2)%nat by lia. now rewrite Nat.div_mul.
  - assert (2 * i + 2 < length l)%nat as Hi2.
    { destruct (decide (length l = 2 * i + 2)%nat) as [E | E]; [| lia]. exfalso. apply Hne1.
      rewrite E in Hz. replace (2 * i + 2 - 1)%nat with (S (2 * i)) in Hz by lia. congruence. }
    destruct (Hnext _ n1 Hn1 ltac:(lia)) as (n2 & Hn2 & Nn2).
    rewrite (run_qnext _ _ _ _ Nn2), (run_qprev _ _ _ _ Hl).
    destruct (decide (n2 = z)) as [-> | Hne2].
    + pose proof (ring_idx_eq _ _ _ _ _ _ H Hn2 Hz) as E. exists m1. split; [done |].
      replace (length l / 2)%nat with (S i); [done |]. replace (length l) with (1 + S i * 2)%nat by lia.
      rewrite Nat.div_add by lia. done.
    + apply (IH (S i)); try done.
      * now replace (2 * S i)%nat with (S (S (2 * i))) by lia.
      * destruct (decide (length l = 2 * i + 3)%nat) as [E | E]; [| lia]. exfalso. apply Hne2.
        rewrite E in Hz. replace (2 * i + 3 - 1)%nat with (S (S (2 * i))) in Hz by lia. congruence.
      * lia.
Qed.

(** [ngx_queue_middle] returns the middle element, the first of the second
    half when the number is even. *)
Lemma middle_spec s q l :
  ring (cells s) q l -> l <> [] ->
  exists x, ngx_queue_middle q s = Some (x, s) /\ l !! (length l / 2)%nat = Some x.
Proof.
  intros H Hne. unfold ngx_queue_middle, ngx_queue_head, ngx_queue_last.
  pose proof (ring_head _ _ _ H) as Hh. pose proof (ring_last _ _ _ H) as Hl.
  pose proof (last_lookup_idx l q Hne) as Hz. pose proof (ring_size _ _ _ H) as Hsize.
  rewrite (run_qnext _ _ _ _ Hh), (run_qprev _ _ _ _ Hl).
  destruct l as [|a l]; [done |]. cbn [hd] in *.
  destruct (decide _) as [E | E].
  - rewrite <- E in Hz. pose proof (ring_idx_eq _ _ _ 0%nat _ a H eq_refl Hz) as E0. cbn in E0.
    exists a. split; [done |]. destruct l; [done | cbn in E0; lia].
  - rewrite (run_qnext _ _ _ _ Hh), run_room.
    apply (queue_middle_spec _ s q (a :: l) 0 a a H eq_refl eq_refl).
    + destruct l; cbn in *; [congruence | lia].
    + cbn in *. lia.
Qed.
End Middle.

(** ** Sorting *)

Section SortSpec.
Variable cmp : Z -> Z -> Z.

(** Insertion from the back: [q] comes after the last element that is not
    greater.  The list is reversed. *)
Fixpoint insert_back (q : Z) (rl : list Z) : list Z :=
  match rl with
  | [] => [q]
  | c :: rl' => if cmp c q <=? 0 then q :: c :: rl' else c :: insert_back q rl'
  end.

Definition insertion_sort (l : list Z) : list Z := rev (fold_left (fun acc q => insert_back q acc) l []).

Implicit Types (h : gmap Z ngx_queue_t) (l : list Z) (s : store ngx_queue_t unit).

Lemma ring_prev h q l1 c l2 : ring h q (l1 ++ c :: l2) -> pv h c = Some (List.last l1 q).
Proof.
  intros H. apply ring_rotate, ring_last in H. rewrite H. f_equal.
  destruct l1 as [|b l1 _] using rev_ind; [now rewrite last_last |].
  rewrite app_comm_cons, app_assoc, !last_last. done.
Qed.

(** The inner loop finds the place. *)
Lemma sort_find_spec fuel s queue q A c B :
  ring (cells s) queue (A ++ c :: B) -> (length A < fuel)%nat ->
  exists l1 l2, A ++ [c] = l1 ++ l2 /\ rev (insert_back q (rev (A ++ [c]))) = l1 ++ q :: l2 /\
    sort_find cmp fuel queue q c s = Some (List.last l1 queue, s).
Proof.
  revert A c B. induction fuel as [|fuel IH]; intros A c B H Hfuel; [lia |]. cbn [sort_find].
  rewrite rev_unit. cbn [insert_back]. destruct (cmp c q <=? 0) eqn:Hc.
  - exists (A ++ [c]), []. rewrite app_nil_r. split; [done |]. split; [| now rewrite last_last].
    cbn. now rewrite rev_involutive.
  - unfold ngx_queue_prev. rewrite (run_qprev _ _ _ _ (ring_prev _ _ _ _ _ H)).
    destruct A as [|a A _] using rev_ind.
    + cbn. rewrite decide_True by done. exists [], [c]. done.
    + rewrite last_last. unfold ngx_queue_sentinel. rewrite decide_False.
      * rewrite <- app_assoc in H. rewrite length_app in Hfuel. cbn in Hfuel.
        destruct (IH A a (c :: B) H ltac:(lia)) as (l1 & l2 & E1 & E2 & E3).
        exists l1, (l2 ++ [c]). split; [now rewrite E1, app_assoc |]. split; [| exact E3].
        cbn [rev]. rewrite E2, <- app_assoc. done.
      * intros ->. destruct H as [Hnd _]. apply NoDup_cons in Hnd as [Hnd _]. apply Hnd.
        apply elem_of_app. left. apply elem_of_app. right. left.
Qed.

Lemma queue_sort_spec fuel s queue P R :
  ring (cells s) queue (P ++ R) -> P <> [] -> (length R < fuel)%nat ->
  exists s', queue_sort cmp fuel queue (hd queue R) s = Some (tt, s') /\
    ring (cells s') queue (rev (fold_left (fun acc q => insert_back q acc) R (rev P))).
Proof.
  revert s P R. induction fuel as [|fuel IH]; intros s P R H HP Hfuel; [lia |]. cbn [queue_sort].
  unfold ngx_queue_sentinel. destruct R as [|q R].
  - rewrite decide_True by done. exists s. rewrite app_nil_r in H. cbn. now rewrite rev_involutive.
  - cbn [hd]. rewrite decide_False.
    2:{ intros ->. destruct H as [Hnd _]. apply NoDup_cons in Hnd as [Hnd _]. apply Hnd. apply elem_of_app. right. left. }
    unfold ngx_queue_prev, ngx_queue_next.
    rewrite (run_qprev _ _ _ _ (ring_prev _ _ _ _ _ H)).
    assert (nx (cells s) q = Some (hd queue R)) as Hnx.
    { apply ring_rotate, ring_head in H. rewrite H. now destruct R. }
    rewrite (run_qnext _ _ _ _ Hnx).
    pose proof (ring_dom _ _ _ q H) as Hqd.
    destruct (remove_spec _ _ _ _ _ H) as (s1 & R1 & H1 & U1). rewrite (run_bind _ _ _ _ _ R1), run_room.
    destruct P as [|c P _] using rev_ind; [done |]. rewrite last_last.
    assert (q ∉ queue :: (P ++ [c]) ++ R) as Hq.
    { destruct H as [Hnd _].
      assert (queue :: (P ++ [c]) ++ q :: R ≡ₚ q :: queue :: (P ++ [c]) ++ R) as Q by solve_Permutation.
      rewrite Q in Hnd. now apply NoDup_cons in Hnd. }
    assert (q ∈ dom (cells s1)) as Hq1.
    { apply elem_of_dom. rewrite U1 by exact Hq. apply elem_of_dom, Hqd. right. apply elem_of_app. right. left. }
    pose proof H1 as H1'. rewrite <- app_assoc in H1'. cbn in H1'.
    pose proof (ring_size _ _ _ H1) as Hsize. rewrite !length_app in Hsize. cbn in Hsize.
    destruct (sort_find_spec (S (size (cells s1))) s1 queue q P c R H1' ltac:(lia)) as (l1 & l2 & E1 & E2 & E3).
    rewrite (run_bind _ _ _ _ _ E3). rewrite E1 in H1, Hq.
    assert (exists s2, ngx_queue_insert_after (List.last l1 queue) q s1 = Some (tt, s2) /\
      ring (cells s2) queue ((l1 ++ q :: l2) ++ R)) as (s2 & R2 & H2).
    { destruct l1 as [|p l1 _] using rev_ind.
      - cbn [List.last app] in *. destruct (insert_head_spec s1 queue _ q H1 Hq1 Hq) as (s2 & R2 & H2 & _). eauto.
      - rewrite last_last. rewrite <- !app_assoc in H1, Hq |- *. cbn [app] in *.
        destruct (insert_after_spec s1 queue l1 p (l2 ++ R) q H1 Hq1 Hq) as (s2 & R2 & H2 & _). eauto. }
    rewrite (run_bind _ _ _ _ _ R2).
    destruct (IH s2 (l1 ++ q :: l2) R H2) as (s3 & R3 & H3); [now destruct l1 | cbn in Hfuel; lia |].
    exists s3. split; [exact R3 |]. cbn [fold_left]. rewrite <- E2, rev_involutive in H3. exact H3.
Qed.

(** [ngx_queue_sort] is the insertion sort of the list of elements. *)
Lemma queue_sort_runs s q l :
  ring (cells s) q l -> exists s', ngx_queue_sort cmp q s = Some (tt, s') /\ ring (cells s') q (insertion_sort l).
Proof.
  intros H. unfold ngx_queue_sort, ngx_queue_head, ngx_queue_last.
  pose proof (ring_head _ _ _ H) as Hh. pose proof (ring_last _ _ _ H) as Hl. pose proof (ring_size _ _ _ H) as Hsize.
  rewrite (run_qnext _ _ _ _ Hh), (run_qprev _ _ _ _ Hl). destruct l as [|a l].
  - cbn. rewrite decide_True by done. now exists s.
  - cbn [hd]. destruct (decide _) as [E | E].
    + exists s. split; [done |]. assert (l = []) as ->; [| done].
      pose proof (last_lookup_idx (a :: l) q ltac:(done)) as Hz. rewrite <- E in Hz.
      pose proof (ring_idx_eq _ _ _ 0%nat _ a H eq_refl Hz) as E0. cbn in E0. destruct l; [done | cbn in E0; lia].
    + unfold ngx_queue_next.
      assert (nx (cells s) a = Some (hd q l)) as Hnx.
      { pose proof (proj1 (ring_rotate _ q [] a l) H) as Hr. apply ring_head in Hr. rewrite Hr. now destruct l. }
      rewrite (run_qnext _ _ _ _ Hnx), run_room. cbn in Hsize.
      exact (queue_sort_spec (S (size (cells s))) s q [a] l H ltac:(done) ltac:(lia)).
Qed.
End SortSpec.

(** A comparison function that orders the elements, some of which may be
    equal. *)
Class TotalPreorder (cmp : Z -> Z -> Z) : Prop := {
  cmp_total a b : cmp a b <= 0 \/ cmp b a <= 0;
  cmp_trans a b c : cmp a b <= 0 -> cmp b c <= 0 -> cmp a c <= 0 }.

Section Stable.
Context {cmp : Z -> Z -> Z} `{!TotalPreorder cmp}.
Implicit Types (l : list Z) (s : store ngx_queue_t unit).

Definition same_order (x y : Z) : Prop := cmp x y <= 0 /\ cmp y x <= 0.

#[local] Instance same_order_dec x y : Decision (same_order x y).
Proof. unfold same_order. apply _. Defined.

Lemma rev_reverse l : rev l = reverse l.
Proof. apply rev_alt. Qed.

Lemma insert_back_perm q l : insert_back cmp q l ≡ₚ q :: l.
Proof.
  induction l as [|c l IH]; cbn; [done |]. destruct (cmp c q <=? 0); [done |]. rewrite IH. apply Permutation_swap.
Qed.

Lemma insert_back_sorted q l :
  StronglySorted (fun a b => cmp b a <= 0) l -> StronglySorted (fun a b => cmp b a <= 0) (insert_back cmp q l).
Proof.
  induction 1 as [|c l Hs IH Hc]; cbn; [repeat constructor |]. destruct (Z.leb_spec (cmp c q) 0) as [Q | Q].
  - constructor; [now constructor |]. constructor; [done |]. eapply Forall_impl; [exact Hc |].
    intros y Hy. cbn in *. exact (cmp_trans _ _ _ Hy Q).
  - constructor; [done |]. rewrite insert_back_perm. constructor; [| done]. destruct (cmp_total c q); [lia | done].
Qed.

Lemma insert_back_stable x q l :
  filter (same_order x) (insert_back cmp q l) = filter (same_order x) (q :: l).
Proof.
  induction l as [|c l IH]; cbn [insert_back]; [done |]. destruct (Z.leb_spec (cmp c q) 0) as [Q | Q]; [done |].
  rewrite (filter_cons _ c), IH, !(filter_cons _ q), (filter_cons _ c).
  destruct (decide (same_order x q)) as [[H1 H2] |], (decide (same_order x c)) as [[H3 H4] |]; try done.
  pose proof (cmp_trans _ _ _ H4 H1). lia.
Qed.

Lemma fold_insert_back l acc :
  StronglySorted (fun a b => cmp b a <= 0) acc ->
  let r := fold_left (fun acc q => insert_back cmp q acc) l acc in
  StronglySorted (fun a b => cmp b a <= 0) r /\ r ≡ₚ rev l ++ acc /\
  forall x, filter (same_order x) r = filter (same_order x) (rev l ++ acc).
Proof.
  revert acc. induction l as [|q l IH]; intros acc Hs; cbn; [done |].
  destruct (IH (insert_back cmp q acc) (insert_back_sorted q acc Hs)) as (H1 & H2 & H3).
  split; [exact H1 |]. split.
  - rewrite H2, insert_back_perm, <- app_assoc. done.
  - intros x. now rewrite H3, <- app_assoc, !(filter_app _ (rev l)), insert_back_stable.
Qed.

Lemma sorted_rev l : StronglySorted (fun a b => cmp b a <= 0) l -> StronglySorted (fun a b => cmp a b <= 0) (rev l).
Proof.
  induction 1 as [|c l Hs IH Hc]; cbn; [constructor |]. apply StronglySorted_app. split_and!; [| done | repeat constructor].
  intros y z Hy Hz. apply list_elem_of_singleton in Hz as ->.
  rewrite rev_reverse in Hy. apply (proj1 (elem_of_reverse _ _)) in Hy. exact (proj1 (Forall_forall _ _) Hc y Hy).
Qed.

(** C40: [ngx_queue_sort] ends and leaves a well-formed queue of the same
    elements in ascending order, those that compare equal in their former
    order. *)
Theorem queue_sort_correct s q l :
  ring (cells s) q l ->
  exists s' l', ngx_queue_sort cmp q s = Some (tt, s') /\ ring (cells s') q l' /\
    l' ≡ₚ l /\ StronglySorted (fun a b => cmp a b <= 0) l' /\
    forall x, filter (same_order x) l' = filter (same_order x) l.
Proof.
  intros H. destruct (queue_sort_runs cmp s q l H) as (s' & R & H').
  exists s', (insertion_sort cmp l). split; [exact R |]. split; [exact H' |].
  destruct (fold_insert_back l [] ltac:(constructor)) as (H1 & H2 & H3). rewrite app_nil_r in H2, H3.
  unfold insertion_sort. split_and!.
  - rewrite H2, !rev_reverse, reverse_involutive. done.
  - now apply sorted_rev.
  - intros x. rewrite !rev_reverse, filter_reverse, H3, rev_reverse, filter_reverse. apply reverse_involutive.
Qed.
End Stable.

(** A queue 1 of the elements 2, 3 and 4, in descending order. *)
Definition example_queue : store ngx_queue_t unit :=
  mk_store {[ 1 := mk_queue 4 2; 2 := mk_queue 1 3; 3 := mk_queue 2 4; 4 := mk_queue 3 1 ]} tt.

Definition descending (a b : Z) : Z := b - a.

#[local] Instance descending_order : TotalPreorder descending.
Proof. split; unfold descending; lia. Qed.

Lemma queue_sort_correct_witness :
  exists s' l', ngx_queue_sort descending 1 example_queue = Some (tt, s') /\ ring (cells s') 1 l' /\ l' ≡ₚ [2; 3; 4] /\ StronglySorted (fun a b => descending a b <= 0) l' /\
    forall x, filter (same_order (cmp := descending) x) l' = filter (same_order (cmp := descending) x) [2; 3; 4].
Proof.
  apply queue_sort_correct. split; [apply (bool_decide_unpack _); reflexivity |]. now repeat split.
Defined.
