(* ===== verification/NgxRadix.v ===== *)
(** The radix trees of the core (core/ngx_radix_tree.c): prefixes of 32-bit and of
    128-bit keys with a value, in nodes that come from pages of the pool. *)
From S2P Require Export NgxStore.

(** ** Data *)

Record ngx_radix_node_t := mk_rnode { r_right : Z; r_left : Z; r_parent : Z; r_value : Z }.

Definition set_rright v n := mk_rnode v (r_left n) (r_parent n) (r_value n).
Definition set_rleft v n := mk_rnode (r_right n) v (r_parent n) (r_value n).
Definition set_rparent v n := mk_rnode (r_right n) (r_left n) v (r_value n).
Definition set_rvalue v n := mk_rnode (r_right n) (r_left n) (r_parent n) v.

(** [rt_pool] are the pages that [ngx_pmemalign] is going to answer with, [None]
    for NULL. *)
Record ngx_radix_tree_t := mk_rtree {
  rt_root : Z; rt_free : Z; rt_start : Z; rt_size : Z; rt_pool : list (option Z) }.

Definition set_rroot v t := mk_rtree v (rt_free t) (rt_start t) (rt_size t) (rt_pool t).
Definition set_rfree v t := mk_rtree (rt_root t) v (rt_start t) (rt_size t) (rt_pool t).
Definition set_rpage start size pool t := mk_rtree (rt_root t) (rt_free t) start size pool.

(** [(uintptr_t) -1] *)
Definition NGX_RADIX_NO_VALUE : Z := 2 ^ 64 - 1.

(** [sizeof(ngx_radix_node_t)] *)
Definition node_size : Z := 32.

Abbreviation rprog := (prog ngx_radix_node_t ngx_radix_tree_t).

(** Memory that was not used before: its content is not known. *)
Definition new_cell (uninit : ngx_radix_node_t) (p : Z) : rprog unit := fun s =>
  Some (tt, mk_store (<[p := uninit]> (cells s)) (glob s)).

(** Reading past the end of an array. *)
Definition out_of_bounds {A} : rprog A := fun _ => None.

(** ** The bits of a key *)

(** What the loops do to [bit] (and [i]): [more] is their test of the mask,
    [dir] their test of the key, [step] the move to the next bit. *)
Class Cursor (C K : Type) := {
  cur_start : C;
  more : C -> K -> bool;
  dir : C -> K -> option bool;
  cur_step : C -> C;
  cur_limit : nat;
}.

Definition cursor32 : Cursor Z Z := {|
  cur_start := 0x80000000;
  more bit mask := negb (Z.land bit mask =? 0);
  dir bit key := Some (negb (Z.land key bit =? 0));
  cur_step bit := Z.shiftr bit 1;
  cur_limit := 32;
|}.

#[export] Existing Instance cursor32.

(** [i] and [bit]; the loops over the mask leave at [i == 16]. *)
Definition cursor128 : Cursor (nat * Z) (list Z) := {|
  cur_start := (0%nat, 0x80);
  more '(i, bit) mask := negb (i =? 16)%nat && negb (Z.land bit (List.nth i mask 0) =? 0);
  dir '(i, bit) key := match key !! i with Some k => Some (negb (Z.land k bit =? 0)) | None => None end;
  cur_step '(i, bit) :=
    let bit := Z.shiftr bit 1 in
    if bit =? 0 then (S i, 0x80) else (i, bit);
  cur_limit := 128;
|}.

#[export] Existing Instance cursor128.

Section Tree.
Context (ngx_pagesize : Z) (uninit : ngx_radix_node_t).

Definition ngx_radix_alloc : rprog Z :=
  t ← get;
  if decide (rt_free t <> 0) then
    let p := rt_free t in
    right ← ld r_right p;
    put (set_rfree right t);;
    mret p
  else
    let t' :=
      if rt_size t <? node_size then
        match rt_pool t with
        | Some page :: pool => Some (set_rpage page ngx_pagesize pool t)
        | _ => None
        end
      else Some t in
    match t' with
    | None =>
        put (set_rpage 0 (rt_size t) (List.tl (rt_pool t)) t);;
        mret 0
    | Some t =>
        let p := rt_start t in
        put (set_rpage (rt_start t + node_size) (rt_size t - node_size) (rt_pool t) t);;
        new_cell uninit p;;
        mret p
    end.

Definition radix_child (d : bool) (node : Z) : rprog Z := if d then ld r_right node else ld r_left node.
Definition set_radix_child (d : bool) (v node : Z) : rprog unit :=
  if d then st (set_rright v) node else st (set_rleft v) node.

Section Ops.
Context `{Cursor C K}.

(** The first loop of the insertion: [bit], [node] and [next] after it. *)
Fixpoint insert_walk (fuel : nat) (c : C) (key mask : K) (node next : Z) : rprog (C * Z * Z) :=
  match fuel with
  | O => out_of_fuel
  | S fuel' =>
      if negb (more c mask) then mret (c, node, next) else
      match dir c key with
      | None => out_of_bounds
      | Some d =>
          next ← radix_child d node;
          if decide (next = 0) then mret (c, node, next)
          else insert_walk fuel' (cur_step c) key mask next next
      end
  end.

(** The second: the new nodes; [None] is [NGX_ERROR]. *)
Fixpoint insert_grow (fuel : nat) (c : C) (key mask : K) (node : Z) : rprog (option Z) :=
  match fuel with
  | O => out_of_fuel
  | S fuel' =>
      if negb (more c mask) then mret (Some node) else
      next ← ngx_radix_alloc;
      if decide (next = 0) then mret None else
      st (set_rright 0) next;;
      st (set_rleft 0) next;;
      st (set_rparent node) next;;
      st (set_rvalue NGX_RADIX_NO_VALUE) next;;
      match dir c key with
      | None => out_of_bounds
      | Some d =>
          set_radix_child d next node;;
          insert_grow fuel' (cur_step c) key mask next
      end
  end.

Definition radix_insert (key mask : K) (value : Z) : rprog Z :=
  t ← get;
  '(c, node, next) ← insert_walk (S cur_limit) cur_start key mask (rt_root t) (rt_root t);
  if decide (next <> 0) then
    v ← ld r_value node;
    if decide (v <> NGX_RADIX_NO_VALUE) then mret NGX_BUSY
    else st (set_rvalue value) node;; mret NGX_OK
  else
    r ← insert_grow (S cur_limit) c key mask node;
    match r with
    | None => mret NGX_ERROR
    | Some node => st (set_rvalue value) node;; mret NGX_OK
    end.

Fixpoint delete_walk (fuel : nat) (c : C) (key mask : K) (node : Z) : rprog Z :=
  match fuel with
  | O => out_of_fuel
  | S fuel' =>
      if decide (node = 0) then mret node else
      if negb (more c mask) then mret node else
      match dir c key with
      | None => out_of_bounds
      | Some d =>
          node ← radix_child d node;
          delete_walk fuel' (cur_step c) key mask node
      end
  end.

(** The nodes that go to the free list: from a leaf upwards. *)
Fixpoint delete_up (fuel : nat) (node : Z) : rprog Z :=
  match fuel with
  | O => out_of_fuel
  | S fuel' =>
      parent ← ld r_parent node;
      pr ← ld r_right parent;
      set_radix_child (bool_decide (pr = node)) 0 parent;;
      t ← get;
      st (set_rright (rt_free t)) node;;
      put (set_rfree node t);;
      node ← ld r_parent node;
      right ← ld r_right node;
      left ← ld r_left node;
      if decide (right <> 0 \/ left <> 0) then mret NGX_OK else
      v ← ld r_value node;
      if decide (v <> NGX_RADIX_NO_VALUE) then mret NGX_OK else
      parent ← ld r_parent node;
      if decide (parent = 0) then mret NGX_OK else
      delete_up fuel' node
  end.

Definition radix_delete (key mask : K) : rprog Z :=
  t ← get;
  node ← delete_walk (S cur_limit) cur_start key mask (rt_root t);
  if decide (node = 0) then mret NGX_ERROR else
  right ← ld r_right node;
  left ← ld r_left node;
  if decide (right <> 0 \/ left <> 0) then
    v ← ld r_value node;
    if decide (v <> NGX_RADIX_NO_VALUE) then st (set_rvalue NGX_RADIX_NO_VALUE) node;; mret NGX_OK
    else mret NGX_ERROR
  else delete_up cur_limit node.

Fixpoint find_loop (fuel : nat) (c : C) (key : K) (value node : Z) : rprog Z :=
  match fuel with
  | O => out_of_fuel
  | S fuel' =>
      if decide (node = 0) then mret value else
      v ← ld r_value node;
      let value := if decide (v <> NGX_RADIX_NO_VALUE) then v else value in
      match dir c key with
      | None => out_of_bounds
      | Some d =>
          node ← radix_child d node;
          find_loop fuel' (cur_step c) key value node
      end
  end.

Definition radix_find (key : K) : rprog Z :=
  t ← get;
  find_loop (S (S cur_limit)) cur_start key NGX_RADIX_NO_VALUE (rt_root t).
End Ops.

Definition ngx_radix32tree_insert (key mask value : Z) : rprog Z := radix_insert key mask value.
Definition ngx_radix32tree_delete (key mask : Z) : rprog Z := radix_delete key mask.
Definition ngx_radix32tree_find (key : Z) : rprog Z := radix_find key.

Definition ngx_radix128tree_insert (key mask : list Z) (value : Z) : rprog Z := radix_insert key mask value.
Definition ngx_radix128tree_delete (key mask : list Z) : rprog Z := radix_delete key mask.
Definition ngx_radix128tree_find (key : list Z) : rprog Z := radix_find key.

(** ** Creation *)

(** [do ... while (key)]: all the prefixes of one length; [false] is a NULL result. *)
Fixpoint prealloc_keys (fuel : nat) (key mask inc : Z) : rprog bool :=
  match fuel with
  | O => out_of_fuel
  | S fuel' =>
      rc ← ngx_radix32tree_insert key mask NGX_RADIX_NO_VALUE;
      if decide (rc <> NGX_OK) then mret false else
      let key := (key + inc) mod 2 ^ 32 in
      if decide (key = 0) then mret true else prealloc_keys fuel' key mask inc
  end.

(** [while (preallocate--)] *)
Fixpoint prealloc (preallocate : nat) (mask inc : Z) : rprog bool :=
  match preallocate with
  | O => mret true
  | S preallocate =>
      let mask := Z.lor (Z.shiftr mask 1) 0x80000000 in
      ok ← prealloc_keys (Z.to_nat (2 ^ 32 / Z.max inc 1)) 0 mask inc;
      if negb ok then mret false else prealloc preallocate mask (Z.shiftr inc 1)
  end.

Definition default_prealloc : Z :=
  let n := ngx_pagesize / node_size in
  if n =? 128 then 6 else if n =? 256 then 7 else 8.

(** [got_tree] is whether the pool had the memory for the tree itself. *)
Definition ngx_radix_tree_create (got_tree : bool) (preallocate : Z) : rprog bool :=
  if negb got_tree then mret false else
  t ← get;
  put (mk_rtree (rt_root t) 0 0 0 (rt_pool t));;
  root ← ngx_radix_alloc;
  t ← get;
  put (set_rroot root t);;
  if decide (root = 0) then mret false else
  st (set_rright 0) root;;
  st (set_rleft 0) root;;
  st (set_rparent 0) root;;
  st (set_rvalue NGX_RADIX_NO_VALUE) root;;
  if decide (preallocate = 0) then mret true else
  let preallocate := if decide (preallocate = -1) then default_prealloc else preallocate in
  prealloc (Z.to_nat preallocate) 0 0x80000000.
End Tree.
