(* ===== verification/RadixRepr.v ===== *)
(** What the radix tree of core/ngx_radix_tree.c computes: a finite map from
    prefixes to values, with the longest prefix as the answer of a search. *)
From S2P Require Export NgxRadix.

(** ** The representation *)

(** A prefix is the list of its bits; [T] has the node of each prefix that has
    one, and [V] the values. *)
Section Repr.
Context (limit : nat).

Definition addr (T : gmap (list bool) Z) (q : list bool) : Z := default 0 (T !! q).

Definition above (T : gmap (list bool) Z) (q : list bool) : Z :=
  match q with [] => 0 | _ => addr T (removelast q) end.

Definition node_at (T V : gmap (list bool) Z) (q : list bool) : ngx_radix_node_t :=
  mk_rnode (addr T (q ++ [true])) (addr T (q ++ [false])) (above T q) (default NGX_RADIX_NO_VALUE (V !! q)).

Record tree_ok (h : gmap Z ngx_radix_node_t) (root : Z) (T V : gmap (list bool) Z) : Prop := {
  t_root : T !! [] = Some root;
  t_closed : forall q d, is_Some (T !! (q ++ [d])) -> is_Some (T !! q);
  t_inj : forall q q' a, T !! q = Some a -> T !! q' = Some a -> q = q';
  t_node : forall q a, T !! q = Some a -> a <> 0 /\ h !! a = Some (node_at T V q);
  t_val : forall q v, V !! q = Some v -> is_Some (T !! q) /\ v <> NGX_RADIX_NO_VALUE;
  t_depth : forall q, is_Some (T !! q) -> (length q <= limit)%nat;
}.

(** The addresses that [ngx_radix_alloc] is going to hand out: the free list, the
    rest of the page and the pages to come. *)
Fixpoint chain (h : gmap Z ngx_radix_node_t) (p : Z) (F : list Z) : Prop :=
  match F with
  | [] => p = 0
  | a :: F => p = a /\ exists n, h !! a = Some n /\ chain h (r_right n) F
  end.

Definition slots (start size : Z) : list Z :=
  List.map (fun i => start + node_size * Z.of_nat i) (List.seq 0 (Z.to_nat (size / node_size))).

Definition supply (pagesize : Z) (t : ngx_radix_tree_t) : list Z :=
  slots (rt_start t) (rt_size t) ++
  List.flat_map (fun p => match p with Some page => slots page pagesize | None => [] end) (rt_pool t).

Record mem_ok (pagesize : Z) (s : store ngx_radix_node_t ngx_radix_tree_t) (T : gmap (list bool) Z) (F : list Z) : Prop := {
  m_chain : chain (cells s) (rt_free (glob s)) F;
  m_free_nodup : NoDup F;
  m_free : forall a, a ∈ F -> a <> 0 /\ forall q, T !! q <> Some a;
  m_size : 0 <= rt_size (glob s);
  m_nodup : NoDup (supply pagesize (glob s));
  m_supply : forall a, a ∈ supply pagesize (glob s) -> a <> 0 /\ cells s !! a = None;
  m_null : cells s !! 0 = None;
}.

(** A tree in memory that stands for the map [V]; a node for all the bits of a key
    has a value. *)
Definition radix_ok (pagesize : Z) (s : store ngx_radix_node_t ngx_radix_tree_t) (V : gmap (list bool) Z) : Prop :=
  exists T F, tree_ok (cells s) (rt_root (glob s)) T V /\ mem_ok pagesize s T F /\
    forall q, is_Some (T !! q) -> length q = limit -> is_Some (V !! q).
End Repr.

(** *** Lemmas on the representation *)

Implicit Types (T V : gmap (list bool) Z) (q r : list bool) (h : gmap Z ngx_radix_node_t).

Lemma removelast_snoc {A} (q : list A) d : removelast (q ++ [d]) = q.
Proof. apply removelast_last. Qed.

Lemma above_snoc T q d : above T (q ++ [d]) = addr T q.
Proof. unfold above. rewrite removelast_snoc. by destruct q. Qed.

Lemma addr_some T q a : T !! q = Some a -> addr T q = a.
Proof. unfold addr. by intros ->. Qed.

Lemma addr_none T q : T !! q = None -> addr T q = 0.
Proof. unfold addr. by intros ->. Qed.

Lemma snoc_inj {A} (q r : list A) d e : q ++ [d] = r ++ [e] -> q = r /\ d = e.
Proof. intros H. apply app_inj_tail in H. done. Qed.

Lemma snoc_ne {A} (q : list A) d : q ++ [d] <> q.
Proof. intros H. apply (f_equal length) in H. rewrite length_app in H. cbn in H. lia. Qed.

Lemma tree_above_some limit h root T V q d : tree_ok limit h root T V -> T !! q = None -> T !! (q ++ [d]) = None.
Proof.
  intros H E. destruct (T !! (q ++ [d])) eqn:E'; [| done]. destruct (t_closed _ _ _ _ _ H q d) as [x E2]; [by rewrite E' |]. congruence.
Qed.

Lemma tree_addr limit h root T V q : tree_ok limit h root T V -> addr T q = 0 <-> T !! q = None.
Proof.
  intros H. unfold addr. destruct (T !! q) eqn:E; [| done]. cbn. split; [| done]. intros ->. by destruct (t_node _ _ _ _ _ H q 0 E).
Qed.

Lemma node_at_ext T T' V V' q :
  (forall d, T' !! (q ++ [d]) = T !! (q ++ [d])) -> above T' q = above T q -> V' !! q = V !! q -> node_at T' V' q = node_at T V q.
Proof. intros H1 H2 H3. unfold node_at, addr. by rewrite !H1, H2, H3. Qed.

Lemma above_ext T T' q : (forall r d, q = r ++ [d] -> T' !! r = T !! r) -> above T' q = above T q.
Proof. intros H. destruct q as [| d r _] using rev_ind; [done |]. rewrite !above_snoc. unfold addr. by rewrite (H r d eq_refl). Qed.

(** A new node [p] as the child [d] of the node of [q]. *)
Lemma attach limit h h' root T V q a d p :
  tree_ok limit h root T V -> T !! q = Some a -> T !! (q ++ [d]) = None -> p <> 0 -> (forall r, T !! r <> Some p) ->
  (length q < limit)%nat ->
  h' !! p = Some (mk_rnode 0 0 a NGX_RADIX_NO_VALUE) ->
  h' !! a = Some (if d then set_rright p (node_at T V q) else set_rleft p (node_at T V q)) ->
  (forall b, b <> a -> b <> p -> is_Some (h !! b) -> h' !! b = h !! b) ->
  tree_ok limit h' root (<[q ++ [d] := p]> T) V.
Proof.
  intros H Ha Hn Hp Hf Hd Ep Ea Eo. split.
  - rewrite lookup_insert_ne; [apply H |]. by destruct q.
  - intros r e. rewrite !lookup_insert_is_Some. intros [E | [N S]].
    + apply snoc_inj in E as [-> ->]. right. split; [apply snoc_ne | by rewrite Ha].
    + destruct (decide (q ++ [d] = r)) as [<- | N']; [by left |]. right. split; [done |]. by apply (t_closed _ _ _ _ _ H r e).
  - intros r r' b. rewrite !lookup_insert_Some. intros [[E1 E2] | [N E]] [[E1' E2'] | [N' E']]; subst; try done; try (exfalso; eapply Hf; eassumption).
    by apply (t_inj _ _ _ _ _ H r r' b).
  - intros r b. rewrite lookup_insert_Some. intros [[<- <-] | [N E]].
    + split; [done |]. rewrite Ep. unfold node_at, addr. rewrite above_snoc, !lookup_insert_ne by (intros E; symmetry in E; by apply snoc_ne in E).
      rewrite !(tree_above_some _ _ _ _ _ _ _ H Hn). unfold addr. rewrite lookup_insert_ne, Ha by apply snoc_ne. cbn [default from_option].
      destruct (V !! (q ++ [d])) eqn:EV; [| done]. destruct (t_val _ _ _ _ _ H _ _ EV) as [[x E] _]. congruence.
    + destruct (t_node _ _ _ _ _ H r b E) as [Nb Eb]. split; [done |].
      destruct (decide (r = q)) as [-> | Nr].
      * assert (b = a) as -> by congruence. rewrite Ea. unfold node_at at 1. unfold node_at, addr.
        rewrite (above_ext (<[q ++ [d] := p]> T) T q).
        2: { intros r e ->. rewrite lookup_insert_ne; [done |]. intros E'. apply (f_equal length) in E'. rewrite !length_app in E'. cbn in E'. lia. }
        destruct d; rewrite lookup_insert_eq, lookup_insert_ne by (intros E'; by apply snoc_inj in E' as [_ ?]); reflexivity.
      * rewrite Eo; [| intros ->; apply Nr; by apply (t_inj _ _ _ _ _ H r q a) | intros ->; by apply (Hf r) | by rewrite Eb]. rewrite Eb. f_equal.
        symmetry. apply node_at_ext; [| | done].
        -- intros e. rewrite lookup_insert_ne; [done |]. intros E'. apply snoc_inj in E' as [-> _]. done.
        -- apply above_ext. intros r' e ->. rewrite lookup_insert_ne; [done |]. intros <-.
           by rewrite (tree_above_some _ _ _ _ _ _ _ H Hn) in E.
  - intros r v EV. destruct (t_val _ _ _ _ _ H r v EV) as [S N]. split; [| done]. rewrite lookup_insert_is_Some.
    destruct (decide (q ++ [d] = r)); [by left | by right].
  - intros r. rewrite lookup_insert_is_Some. intros [<- | [_ S]]; [rewrite length_app; cbn; lia | by apply (t_depth _ _ _ _ _ H)].
Qed.

(** The value of a node changes. *)
Lemma assign limit h h' root T V V' q a :
  tree_ok limit h root T V -> T !! q = Some a ->
  h' !! a = Some (set_rvalue (default NGX_RADIX_NO_VALUE (V' !! q)) (node_at T V q)) ->
  (forall b, b <> a -> h' !! b = h !! b) -> (forall r, r <> q -> V' !! r = V !! r) ->
  (forall v, V' !! q = Some v -> v <> NGX_RADIX_NO_VALUE) ->
  tree_ok limit h' root T V'.
Proof.
  intros H Ha Ea Eo EV Hv. split; try apply H.
  - intros r b E. destruct (t_node _ _ _ _ _ H r b E) as [N Eb]. split; [done |]. destruct (decide (r = q)) as [-> | Nr].
    + assert (b = a) as -> by congruence. by rewrite Ea.
    + rewrite Eo, Eb; [| intros ->; apply Nr; by apply (t_inj _ _ _ _ _ H r q a)]. f_equal. symmetry. apply node_at_ext; [done | done |]. by apply EV.
  - intros r v E. destruct (decide (r = q)) as [-> | Nr]; [split; [by rewrite Ha | by apply Hv] |].
    rewrite EV in E by done. by apply (t_val _ _ _ _ _ H).
Qed.

(** A leaf goes away. *)
Lemma detach limit h h' root T V q d a b :
  tree_ok limit h root T V -> T !! q = Some b -> T !! (q ++ [d]) = Some a ->
  (forall e, T !! ((q ++ [d]) ++ [e]) = None) ->
  h' !! b = Some (if d then set_rright 0 (node_at T V q) else set_rleft 0 (node_at T V q)) ->
  (forall c, c <> a -> c <> b -> h' !! c = h !! c) ->
  tree_ok limit h' root (delete (q ++ [d]) T) (delete (q ++ [d]) V).
Proof.
  intros H Hb Ha Hl Eb Eo. split.
  - rewrite lookup_delete_ne; [apply H |]. by destruct q.
  - intros r e. rewrite !lookup_delete_is_Some. intros [N S]. split; [| by apply (t_closed _ _ _ _ _ H r e)].
    intros <-. rewrite Hl in S. by destruct S.
  - intros r r' c. rewrite !lookup_delete_Some. intros [_ E] [_ E']. by apply (t_inj _ _ _ _ _ H r r' c).
  - intros r c. rewrite lookup_delete_Some. intros [N E]. destruct (t_node _ _ _ _ _ H r c E) as [Nc Ec]. split; [done |].
    destruct (decide (r = q)) as [-> | Nr].
    + assert (c = b) as -> by congruence. rewrite Eb. unfold node_at, addr.
      rewrite (above_ext (delete (q ++ [d]) T) T q).
      2: { intros r e ->. rewrite lookup_delete_ne; [done |]. intros E'. apply (f_equal length) in E'. rewrite !length_app in E'. cbn in E'. lia. }
      rewrite (lookup_delete_ne V) by done.
      destruct d; rewrite lookup_delete_eq, lookup_delete_ne by (intros E'; by apply snoc_inj in E' as [_ ?]); reflexivity.
    + rewrite Eo; [| intros ->; apply N; by apply (t_inj _ _ _ _ _ H _ r a) | intros ->; apply Nr; by apply (t_inj _ _ _ _ _ H r q b)].
      rewrite Ec. f_equal. symmetry. apply node_at_ext; [| | by rewrite lookup_delete_ne].
      * intros e. rewrite lookup_delete_ne; [done |]. intros E'. by apply snoc_inj in E' as [<- _].
      * apply above_ext. intros r' e ->. rewrite lookup_delete_ne; [done |]. intros <-. by rewrite Hl in E.
  - intros r v. rewrite lookup_delete_Some, lookup_delete_is_Some. intros [N E]. destruct (t_val _ _ _ _ _ H r v E). done.
  - intros r. rewrite lookup_delete_is_Some. intros [_ S]. by apply (t_depth _ _ _ _ _ H).
Qed.

(** *** Memory *)

Lemma chain_ext h h' p F : chain h p F -> (forall a, a ∈ F -> h' !! a = h !! a) -> chain h' p F.
Proof.
  revert p. induction F as [| a F IH]; intros p; [done |]. intros [-> (n & E & C)] Ex. split; [done |]. exists n.
  rewrite Ex by apply list_elem_of_here. split; [done |]. apply IH; [done |]. intros b Hb. apply Ex. by apply list_elem_of_further.
Qed.

Lemma slots_cons start size : node_size <= size -> slots start size = start :: slots (start + node_size) (size - node_size).
Proof.
  intros H. unfold slots, node_size in *. replace size with (1 * 32 + (size - 32)) at 1 by lia.
  rewrite Z.div_add_l, Z2Nat.inj_add, Nat.add_1_l by (try apply Z.div_pos; lia).
  cbn [List.seq List.map]. f_equal; [lia |]. rewrite <- seq_shift, map_map. apply map_ext. intros i. lia.
Qed.

Lemma slots_nil start size : size < node_size -> slots start size = [].
Proof. intros H. unfold slots, node_size in *. pose proof (Z.div_lt_upper_bound size 32 1 ltac:(lia) ltac:(lia)). by replace (Z.to_nat (size / 32)) with 0%nat by lia. Qed.

Lemma chain_not_fresh h p F a : chain h p F -> h !! a = None -> a ∉ F.
Proof.
  intros C Fp Ha. revert p C. induction F as [| b F IH]; intros p; [by apply elem_of_nil in Ha |].
  intros [-> (n & E & C)]. apply elem_of_cons in Ha as [<- | Ha]; [congruence | by eapply IH].
Qed.

Section Alloc.
Context (pagesize : Z) (uninit : ngx_radix_node_t) (Hpage : node_size <= pagesize).

(** The free list and the page were used up, all the pages that the pool gave are
    taken, and then it answered NULL, or has no more answers. *)
Definition refused (g g' : ngx_radix_tree_t) :=
  rt_free g' = 0 /\ rt_size g' < node_size /\
  exists pages, rt_pool g = List.map Some pages ++ None :: rt_pool g' \/ rt_pool g = List.map Some pages /\ rt_pool g' = [].

(** The pages taken in between. *)
Definition used (g g' : ngx_radix_tree_t) := exists pages, rt_pool g = List.map Some pages ++ rt_pool g'.

Lemma used_refl g : used g g.
Proof. by exists []. Qed.

Lemma used_trans g1 g2 g3 : used g1 g2 -> used g2 g3 -> used g1 g3.
Proof. intros [l E] [l' E']. exists (l ++ l'). by rewrite E, E', List.map_app, app_assoc. Qed.

Lemma used_refused g g1 g2 : used g g1 -> refused g1 g2 -> refused g g2.
Proof.
  intros [l E] (H1 & H2 & l' & [E' | [E' E'']]); (split; [done | split; [done |]]).
  - exists (l ++ l'). left. by rewrite E, E', List.map_app, app_assoc.
  - exists (l ++ l'). right. by rewrite E, E', List.map_app.
Qed.

(** What an allocation leaves: no node, and everything as it was, or the address
    [p] of a struct that nothing refers to. *)
Definition spare_ok (s : store ngx_radix_node_t ngx_radix_tree_t) T p :=
  p <> 0 /\ (forall q, T !! q <> Some p) /\ (exists n, cells s !! p = Some n) /\
  exists F, mem_ok pagesize s T F /\ p ∉ F.

Lemma alloc_ok s T F : mem_ok pagesize s T F -> (forall q a, T !! q = Some a -> is_Some (cells s !! a)) ->
  exists p s', ngx_radix_alloc pagesize uninit s = Some (p, s') /\ rt_root (glob s') = rt_root (glob s) /\
    (forall a, is_Some (cells s !! a) -> cells s' !! a = cells s !! a) /\
    (p = 0 /\ mem_ok pagesize s' T F /\ refused (glob s) (glob s') \/ spare_ok s' T p /\ used (glob s) (glob s')).
Proof.
  intros M HT. unfold ngx_radix_alloc. rewrite run_get. destruct (decide (rt_free (glob s) <> 0)) as [N | N].
  - destruct M as [M1 M2 M3 M4 M5 M6 M7]. destruct F as [| a F]; [done |]. destruct M1 as [E (n & En & C)]. rewrite E.
    erewrite run_ld by exact En. rewrite run_put. eexists _, _. split; [reflexivity |]. cbn [glob cells set_rfree rt_root]. split; [done |]. split; [done |].
    right. split; [| by exists []]. destruct (M3 a) as [Na Fa]; [apply list_elem_of_here |]. split; [done |]. split; [done |]. split; [by exists n |].
    apply NoDup_cons in M2 as [D1 D2]. exists F. split; [| done]. split; cbn [cells glob set_rfree rt_free rt_size]; try done.
    intros b Hb. apply M3. by apply list_elem_of_further.
  - cbv zeta. 
    assert (forall t, rt_root t = rt_root (glob s) -> rt_free t = rt_free (glob s) -> node_size <= rt_size t -> used (glob s) t ->
      supply pagesize t = supply pagesize (glob s) -> 
      exists p s', (put (set_rpage (rt_start t + node_size) (rt_size t - node_size) (rt_pool t) t);; new_cell uninit (rt_start t);; mret (rt_start t)) s = Some (p, s') /\
        rt_root (glob s') = rt_root (glob s) /\ (forall a, is_Some (cells s !! a) -> cells s' !! a = cells s !! a) /\
        (p = 0 /\ mem_ok pagesize s' T F /\ refused (glob s) (glob s') \/ spare_ok s' T p /\ used (glob s) (glob s'))) as G.
    { intros t Er Ef Hs Hu Es. rewrite run_put. eexists _, _. split; [reflexivity |]. cbn [glob cells set_rpage rt_root]. split; [done |].
      destruct M as [M1 M2 M3 M4 M5 M6 M7]. rewrite <- Es in M5, M6. unfold supply in M5, M6. rewrite slots_cons in M5, M6 by done.
      cbn [app] in M5, M6. destruct (M6 (rt_start t)) as [Np Fp]; [apply list_elem_of_here |].
      split. { intros a [n Ha]. rewrite lookup_insert_ne; [done |]. intros <-. congruence. }
      right. split; [| exact Hu]. split; [done |]. split; [intros q Hq; destruct (HT _ _ Hq); congruence |]. split; [eexists; apply lookup_insert_eq |].
      apply NoDup_cons in M5 as [D1 D2]. exists F. split.
      - split; cbn [cells glob set_rpage rt_free rt_size rt_start]; try done; try lia.
        + rewrite Ef. apply (chain_ext (cells s)); [done |]. intros a Ha. rewrite lookup_insert_ne; [done |]. intros <-. by apply (chain_not_fresh _ _ _ _ M1 Fp).
        + intros a Ha. destruct (M6 a) as [Na Fa]; [by apply list_elem_of_further |]. split; [done |].
          rewrite lookup_insert_ne; [done |]. intros <-. done.
        + by rewrite lookup_insert_ne.
      - by apply (chain_not_fresh _ _ _ _ M1 Fp). }
    destruct (Z.ltb_spec (rt_size (glob s)) node_size) as [L | L]; [| apply G; try done; by exists []].
    destruct (rt_pool (glob s)) as [| [page |] pool] eqn:EP.
    + rewrite run_put. eexists _, _. split; [reflexivity |]. split; [done |]. split; [done |]. left. split; [done |].
      split; [| split; [apply dec_stable; exact N | split; [exact L |]]; exists []; right; by rewrite EP].
      destruct M as [M1 M2 M3 M4 M5 M6 M7]. assert (supply pagesize (set_rpage 0 (rt_size (glob s)) (List.tl []) (glob s)) = supply pagesize (glob s)) as ES.
      { unfold supply. cbn [set_rpage rt_start rt_size rt_pool List.tl]. by rewrite !slots_nil, EP by done. }
      split; cbn [cells glob]; rewrite ?ES; done.
    + apply G; [done | done | done | by exists [page] |]. unfold supply. cbn [set_rpage rt_start rt_size rt_pool]. rewrite EP, (slots_nil (rt_start (glob s))) by done. done.
    + rewrite run_put. eexists _, _. split; [reflexivity |]. split; [done |]. split; [done |]. left. split; [done |].
      split; [| split; [apply dec_stable; exact N | split; [exact L |]]; exists []; left; by rewrite EP].
      destruct M as [M1 M2 M3 M4 M5 M6 M7]. assert (supply pagesize (set_rpage 0 (rt_size (glob s)) (List.tl (None :: pool)) (glob s)) = supply pagesize (glob s)) as ES.
      { unfold supply. cbn [set_rpage rt_start rt_size rt_pool List.tl]. by rewrite !slots_nil, EP by done. }
      split; cbn [cells glob]; rewrite ?ES; done.
Qed.
End Alloc.
