(* ===== verification/RadixMap.v ===== *)
(** The operations of the radix trees refine a finite map from prefixes to values:
    the walks, the two cursors, creation, and the properties. *)
From S2P Require Export RadixRepr.

Lemma mem_ok_cells pagesize s s' T T' F :
  mem_ok pagesize s T F -> glob s' = glob s -> (forall b, b ∈ F -> cells s' !! b = cells s !! b) ->
  (forall b, cells s !! b = None -> cells s' !! b = None) ->
  (forall b q, b ∈ F -> T' !! q = Some b -> T !! q = Some b) -> mem_ok pagesize s' T' F.
Proof.
  intros [M1 M2 M3 M4 M5 M6 M7] Eg EF EN ET. split; rewrite ?Eg; try done.
  - by apply (chain_ext (cells s)).
  - intros a Ha. destruct (M3 a Ha) as [N E]. split; [done |]. intros q Hq. apply (E q). by apply ET.
  - intros a Ha. destruct (M6 a Ha) as [N E]. split; [done |]. by apply EN.
  - by apply EN.
Qed.

Lemma closed_prefix limit h root T V q r : tree_ok limit h root T V -> is_Some (T !! (q ++ r)) -> is_Some (T !! q).
Proof.
  intros H. induction r as [| d r IH] using rev_ind; [by rewrite !app_nil_r |]. rewrite app_assoc. intros S. apply IH.
  by apply (t_closed _ _ _ _ _ H _ d).
Qed.

(** ** The walks *)

Implicit Types (T V : gmap (list bool) Z) (q r : list bool) (h : gmap Z ngx_radix_node_t).

Section Walks.
Context `{Cursor C K} (pagesize : Z) (uninit : ngx_radix_node_t) (Hpage : node_size <= pagesize) (limit : nat).

(** The bits of the mask from [c] on are set as long as [π], and the key has the
    bits of [π] there. *)
Fixpoint follows (c : C) (key mask : K) (π : list bool) : Prop :=
  match π with
  | [] => more c mask = false
  | d :: π => more c mask = true /\ dir c key = Some d /\ follows (cur_step c) key mask π
  end.

Lemma run_radix_child {B} T V q a d (f : Z -> prog ngx_radix_node_t ngx_radix_tree_t B) s :
  tree_ok limit (cells s) (rt_root (glob s)) T V -> T !! q = Some a ->
  (x ← radix_child d a; f x) s = f (addr T (q ++ [d])) s.
Proof. intros HT Ha. destruct (t_node _ _ _ _ _ HT q a Ha) as [_ E]. destruct d; cbn [radix_child]; by rewrite (run_ld _ _ _ _ _ E). Qed.

Lemma insert_walk_ok π : forall fuel c key mask q a next s T V,
  tree_ok limit (cells s) (rt_root (glob s)) T V -> T !! q = Some a -> next <> 0 ->
  follows c key mask π -> (length π < fuel)%nat ->
  exists π1 π2 c' b next', π = π1 ++ π2 /\ T !! (q ++ π1) = Some b /\ follows c' key mask π2 /\
    insert_walk fuel c key mask a next s = Some ((c', b, next'), s) /\
    (next' <> 0 /\ π2 = [] \/ next' = 0 /\ exists d π3, π2 = d :: π3 /\ T !! ((q ++ π1) ++ [d]) = None).
Proof.
  induction π as [| d π IH]; intros [| fuel] c key mask q a next s T V HT Ha Hn Hf Hl; try (cbn in Hl; lia); cbn [insert_walk follows] in *.
  - exists [], [], c, a, next. rewrite !app_nil_r. split_and!; [done | done | done | by rewrite Hf | by left].
  - destruct Hf as (Hm & Hd & Hf). rewrite Hm, Hd. cbn [negb]. rewrite (run_radix_child T V q a d _ s HT Ha).
    destruct (decide (addr T (q ++ [d]) = 0)) as [E | E].
    + exists [], (d :: π), c, a, (addr T (q ++ [d])). rewrite !app_nil_r. split_and!; [done | done | done | done |]. right. split; [done |].
      exists d, π. split; [done |]. by apply (tree_addr _ _ _ _ _ _ HT).
    + destruct (T !! (q ++ [d])) as [b |] eqn:Eb; [| by rewrite addr_none in E]. rewrite (addr_some _ _ _ Eb) in *.
      destruct (IH fuel (cur_step c) key mask (q ++ [d]) b b s T V HT Eb E Hf ltac:(cbn in Hl; lia)) as (π1 & π2 & c' & b' & n' & E1 & E2 & E3 & E4 & E5).
      exists (d :: π1), π2, c', b', n'. rewrite <- app_assoc in E2, E5. cbn [app] in E2, E5. subst π. split_and!; try done.
Qed.

Lemma set_radix_child_st d v node : set_radix_child d v node = st (if d then set_rright v else set_rleft v) node.
Proof. by destruct d. Qed.

Lemma insert_grow_ok π : forall fuel c key mask q a s T V F,
  tree_ok limit (cells s) (rt_root (glob s)) T V -> mem_ok pagesize s T F -> T !! q = Some a ->
  match π with [] => True | d :: _ => T !! (q ++ [d]) = None end ->
  follows c key mask π -> (length π < fuel)%nat -> (length q + length π <= limit)%nat ->
  exists res s' T' F', insert_grow pagesize uninit fuel c key mask a s = Some (res, s') /\ rt_root (glob s') = rt_root (glob s) /\
    tree_ok limit (cells s') (rt_root (glob s')) T' V /\ mem_ok pagesize s' T' F' /\
    (forall r, is_Some (T !! r) -> is_Some (T' !! r)) /\
    match res with
    | Some b => T' !! (q ++ π) = Some b /\ used (glob s) (glob s') /\ forall r, is_Some (T' !! r) -> is_Some (T !! r) \/ r = q ++ π \/ (length r < length q + length π)%nat
    | None => π <> [] /\ refused (glob s) (glob s') /\ forall r, is_Some (T' !! r) -> is_Some (T !! r) \/ (length r < length q + length π)%nat
    end.
Proof.
  induction π as [| d π IH]; intros [| fuel] c key mask q a s T V F HT HM Ha Hd Hf Hl Hq; try (cbn in Hl; lia); cbn [insert_grow follows] in *.
  - rewrite Hf. cbn [negb]. exists (Some a), s, T, F. rewrite !app_nil_r. split_and!; try done; [apply used_refl |]. intros r S. by left.
  - destruct Hf as (Hm & Hdir & Hf). rewrite Hm, Hdir. cbn [negb].
    destruct (alloc_ok pagesize uninit Hpage s T F HM) as (p & s1 & R & Er & Eo & Hp).
    { intros r b E. destruct (t_node _ _ _ _ _ HT r b E) as [_ ->]. done. }
    rewrite (run_bind _ _ _ _ _ R). destruct (t_node _ _ _ _ _ HT q a Ha) as [Na Ea].
    assert (cells s1 !! a = Some (node_at T V q)) as Ea1 by (by rewrite Eo, Ea).
    destruct Hp as [(-> & HM1 & Hrf) | [(Np & Fp & [n En] & F1 & HM1 & NF) Hus]].
    { rewrite decide_True by done. exists None, s1, T, F. split_and!; try done; [| intros r S; by left]. rewrite Er.
      split; try apply HT. intros r b E. destruct (t_node _ _ _ _ _ HT r b E) as [N E1]. split; [done |]. by rewrite Eo, E1. }
    rewrite decide_False by done. assert (p <> a) as Npa by (intros ->; by apply (Fp q)).
    repeat prog_step. rewrite set_radix_child_st. repeat prog_step.
    match goal with |- context [insert_grow _ _ _ _ _ _ _ ?s2] => set (s2' := s2) end.
    assert (cells s2' !! p = Some (mk_rnode 0 0 a NGX_RADIX_NO_VALUE)) as C1.
    { subst s2'. cbn [cells]. rewrite lookup_alter_ne by done. rewrite !lookup_alter_eq, En. reflexivity. }
    assert (cells s2' !! a = Some (if d then set_rright p (node_at T V q) else set_rleft p (node_at T V q))) as C2.
    { subst s2'. cbn [cells]. rewrite lookup_alter_eq, !lookup_alter_ne, Ea1 by done. by destruct d. }
    assert (forall b, b <> a -> b <> p -> cells s2' !! b = cells s1 !! b) as C3.
    { intros b N1 N2. subst s2'. cbn [cells]. by rewrite !lookup_alter_ne by done. }
    assert (glob s2' = glob s1) as G2 by done. clearbody s2'.
    assert (tree_ok limit (cells s2') (rt_root (glob s2')) (<[q ++ [d] := p]> T) V) as HT2.
    { rewrite G2, Er. apply (attach limit (cells s) (cells s2') _ T V q a d p HT Ha Hd Np Fp); [cbn in Hq; lia | done | done |].
      intros b N1 N2 S. rewrite C3 by done. by apply Eo. }
    assert (mem_ok pagesize s2' (<[q ++ [d] := p]> T) F1) as HM2.
    { assert (a ∉ F1) as NaF by (intros Hin; destruct (m_free _ _ _ _ HM1 a Hin) as [_ X]; by apply (X q)).
      apply (mem_ok_cells pagesize s1 s2' T _ F1 HM1 G2).
      - intros b Hb. apply C3; by intros ->.
      - intros b Eb. rewrite C3; [done | intros ->; congruence | intros ->; congruence].
      - intros b r Hb. rewrite lookup_insert_Some. intros [[_ <-] | [_ E]]; [done | done]. }
    destruct (IH fuel (cur_step c) key mask (q ++ [d]) p s2' _ V F1 HT2 HM2) as (res & s3 & T3 & F3 & R3 & Er3 & HT3 & HM3 & Ex & Sh).
    { apply lookup_insert_eq. }
    { destruct π as [| e π]; [done |]. rewrite lookup_insert_ne by (intros E; symmetry in E; by apply snoc_ne in E).
      by apply (tree_above_some _ _ _ _ _ _ _ HT). }
    { done. } { cbn in Hl; lia. } { rewrite length_app. cbn in *. lia. }
    exists res, s3, T3, F3. rewrite R3, Er3, G2, Er. split_and!; [done | done | by rewrite <- Er, <- G2, <- Er3 | done | |].
    { intros r S. apply Ex. rewrite lookup_insert_is_Some. destruct (decide (q ++ [d] = r)); [by left | by right]. }
    assert (forall r, is_Some (<[q ++ [d] := p]> T !! r) -> is_Some (T !! r) \/ r = q ++ [d]) as New.
    { intros r. rewrite lookup_insert_is_Some. intros [<- | [_ S]]; [by right | by left]. }
    rewrite length_app in Sh. rewrite <- app_assoc in Sh. cbn [length app] in *. destruct res as [b |].
    + destruct Sh as (Sb & Hu & Sh). split; [done |]. split; [rewrite G2 in Hu; by apply (used_trans _ _ _ Hus) |]. intros r S. apply Sh in S as [S | [S | S]]; [| by right; left | right; right; lia].
      apply New in S as [S | ->]; [by left |]. destruct π; [by right; left |]. right. right. rewrite length_app. cbn. lia.
    + destruct Sh as (Nπ & Hrf & Sh). split; [done |]. split; [rewrite G2 in Hrf; by apply (used_refused _ _ _ Hus) |]. intros r S. apply Sh in S as [S | S]; [| right; lia]. apply New in S as [S | ->]; [by left |].
      right. rewrite length_app. cbn. destruct π; [done | cbn; lia].
Qed.

(** The map with a new value; [NGX_RADIX_NO_VALUE] is no value. *)
Definition bind_value (π : list bool) (value : Z) V : gmap (list bool) Z :=
  if decide (value = NGX_RADIX_NO_VALUE) then V else <[π := value]> V.

Lemma bind_value_default π value V :
  V !! π = None -> default NGX_RADIX_NO_VALUE (bind_value π value V !! π) = value.
Proof. intros E. unfold bind_value. destruct (decide _) as [-> |]; [by rewrite E | by rewrite lookup_insert_eq]. Qed.

Lemma no_node_no_value h root T V q r : tree_ok limit h root T V -> T !! q = None -> V !! (q ++ r) = None.
Proof.
  intros HT E. destruct (V !! (q ++ r)) eqn:EV; [| done]. destruct (t_val _ _ _ _ _ HT _ _ EV) as [S _].
  apply (closed_prefix _ _ _ _ _ _ _ HT) in S as [x S]. congruence.
Qed.

Lemma assign_run s T V F π a value :
  tree_ok limit (cells s) (rt_root (glob s)) T V -> mem_ok pagesize s T F -> T !! π = Some a -> V !! π = None ->
  (forall r, is_Some (T !! r) -> length r = limit -> is_Some (V !! r) \/ r = π) ->
  value <> NGX_RADIX_NO_VALUE \/ (length π < limit)%nat ->
  exists s', (st (set_rvalue value) a;; mret NGX_OK) s = Some (NGX_OK, s') /\ glob s' = glob s /\ radix_ok limit pagesize s' (bind_value π value V).
Proof.
  intros HT HM Ha EV Hfull Hv. destruct (t_node _ _ _ _ _ HT π a Ha) as [Na Ea]. rewrite (run_st _ _ _ _ _ Ea).
  eexists. split; [reflexivity |]. split; [done |]. exists T, F. split; [| split].
  - cbn [cells glob]. apply (assign limit (cells s) _ _ T V _ π a HT Ha).
    + by rewrite lookup_alter_eq, Ea, bind_value_default.
    + intros b N. by rewrite lookup_alter_ne by done.
    + intros r N. unfold bind_value. destruct (decide _); [done | by rewrite lookup_insert_ne by done].
    + intros v. unfold bind_value. destruct (decide _) as [_ | N]; [by rewrite EV | rewrite lookup_insert_eq; by intros [= <-]].
  - apply (mem_ok_cells pagesize s _ T T F HM); cbn [cells glob]; try done.
    + intros b Hb. rewrite lookup_alter_ne; [done |]. intros <-. destruct (m_free _ _ _ _ HM a Hb) as [_ X]. by apply (X π).
    + intros b Eb. rewrite lookup_alter_ne; [done |]. intros <-. congruence.
  - intros r S L. unfold bind_value. destruct (Hfull r S L) as [SV | ->].
    + destruct (decide _); [done |]. apply lookup_insert_is_Some. destruct (decide (π = r)); [by left | by right].
    + destruct Hv as [N | N]; [| lia]. rewrite decide_False by done. rewrite lookup_insert_eq. by eexists.
Qed.

Lemma radix_insert_ok s V π key mask value :
  radix_ok limit pagesize s V -> follows cur_start key mask π -> (length π <= cur_limit)%nat -> (length π <= limit)%nat ->
  value <> NGX_RADIX_NO_VALUE \/ (length π < limit)%nat ->
  exists rc s', radix_insert pagesize uninit key mask value s = Some (rc, s') /\
    if decide (is_Some (V !! π)) then rc = NGX_BUSY /\ s' = s
    else rc = NGX_OK /\ used (glob s) (glob s') /\ radix_ok limit pagesize s' (bind_value π value V) \/ rc = NGX_ERROR /\ refused (glob s) (glob s') /\ radix_ok limit pagesize s' V.
Proof.
  intros (T & F & HT & HM & HF) Hf Hc Hl Hv. unfold radix_insert. rewrite run_get.
  pose proof (t_root _ _ _ _ _ HT) as Hr. destruct (t_node _ _ _ _ _ HT _ _ Hr) as [Nr _].
  destruct (insert_walk_ok π (S cur_limit) cur_start key mask [] _ _ s T V HT Hr Nr Hf ltac:(lia))
    as (π1 & π2 & c & b & next & Eπ & Hb & Hf2 & R & Hn). rewrite (run_bind _ _ _ _ _ R). cbn [app] in Hb, Hn.
  destruct (t_node _ _ _ _ _ HT π1 b Hb) as [Nb Eb].
  destruct Hn as [[Hn ->] | [-> (d & π3 & -> & Hd)]].
  - rewrite decide_True by done. rewrite app_nil_r in Eπ. subst π1. rewrite (run_ld _ _ _ _ _ Eb). cbn [node_at r_value].
    destruct (V !! π) as [v |] eqn:EV; cbn [default from_option].
    + destruct (t_val _ _ _ _ _ HT _ _ EV) as [_ Nv]. rewrite !decide_True by (done || by eexists). eexists _, _. by split.
    + destruct (decide (NGX_RADIX_NO_VALUE <> NGX_RADIX_NO_VALUE)) as [X | _]; [by destruct X |].
      destruct (assign_run s T V F π b value HT HM Hb EV) as (s' & R' & Eg & Ok); [intros r S L; left; by apply HF | done |].
      rewrite R'. exists NGX_OK, s'. split; [done |]. rewrite decide_False by (by intros [? ?]). left. rewrite Eg. split_and!; [done | apply used_refl | done].
  - destruct (decide (0 <> 0)) as [X | _]; [by destruct X |].
    assert (V !! π = None) as EV. { subst π. rewrite (cons_middle d π1 π3), app_assoc. by apply (no_node_no_value _ _ _ _ _ _ HT). }
    destruct (insert_grow_ok (d :: π3) (S cur_limit) c key mask π1 b s T V F HT HM Hb Hd Hf2) as (res & s1 & T1 & F1 & R1 & Er & HT1 & HM1 & Ex & Sh).
    { rewrite Eπ, length_app in Hc. lia. } { rewrite Eπ, length_app in Hl. lia. }
    rewrite (run_bind _ _ _ _ _ R1). rewrite <- Eπ in Sh. rewrite <- length_app, <- Eπ in Sh. destruct res as [p |].
    + destruct Sh as (Sp & Hu & Sh).
      destruct (assign_run s1 T1 V F1 π p value HT1 HM1 Sp EV) as (s' & R' & Eg & Ok); [| done |].
      { intros r S L. apply Sh in S as [S | [-> | S]]; [left; by apply HF | by right | lia]. }
      rewrite R'. exists NGX_OK, s'. split; [done |]. rewrite decide_False by (rewrite EV; by intros [? ?]). left. by rewrite Eg.
    + destruct Sh as (_ & Hrf & Sh). exists NGX_ERROR, s1. split; [done |]. rewrite decide_False by (rewrite EV; by intros [? ?]). right. split; [done |]. split; [done |].
      exists T1, F1. split_and!; try done. intros r S L. apply Sh in S as [S | S]; [by apply HF | lia].
Qed.

Lemma delete_walk_ok π : forall fuel c key mask q s T V,
  tree_ok limit (cells s) (rt_root (glob s)) T V -> follows c key mask π -> (length π < fuel)%nat ->
  delete_walk fuel c key mask (addr T q) s = Some (addr T (q ++ π), s).
Proof.
  induction π as [| d π IH]; intros [| fuel] c key mask q s T V HT Hf Hl; try (cbn in Hl; lia); cbn [delete_walk follows] in *.
  - rewrite Hf, app_nil_r. cbn [negb]. by destruct (decide _).
  - destruct Hf as (Hm & Hd & Hf). destruct (decide (addr T q = 0)) as [E | E].
    + rewrite E. rewrite (addr_none T (q ++ d :: π)); [done |]. apply (tree_addr _ _ _ _ _ _ HT) in E.
      destruct (T !! (q ++ d :: π)) eqn:E'; [| done]. destruct (closed_prefix _ _ _ _ _ q (d :: π) HT) as [x E2]; [by rewrite E' | congruence].
    + rewrite Hm, Hd. cbn [negb]. destruct (T !! q) as [a |] eqn:Ea; [| by rewrite addr_none in E].
      rewrite (addr_some _ _ _ Ea), (run_radix_child T V q a d _ s HT Ea).
      rewrite (IH fuel _ key mask (q ++ [d]) s T V HT Hf) by (cbn in Hl; lia). by rewrite <- app_assoc.
Qed.

Lemma delete_none V π : V !! π = None -> delete π V = V.
Proof. apply delete_id. Qed.

(** What the climb from a leaf leaves. *)
Definition deleted (s s' : store ngx_radix_node_t ngx_radix_tree_t) T V π :=
  exists T' F', tree_ok limit (cells s') (rt_root (glob s')) T' (delete π V) /\ mem_ok pagesize s' T' F' /\
    (forall r, is_Some (T' !! r) -> is_Some (T !! r) /\ r <> π).

Lemma delete_up_ok : forall fuel q d a s T V F,
  tree_ok limit (cells s) (rt_root (glob s)) T V -> mem_ok pagesize s T F -> T !! (q ++ [d]) = Some a ->
  (forall e, T !! ((q ++ [d]) ++ [e]) = None) -> (length q < fuel)%nat ->
  exists s', delete_up fuel a s = Some (NGX_OK, s') /\ deleted s s' T V (q ++ [d]).
Proof.
  induction fuel as [| fuel IH]; intros q d a s T V F HT HM Ha Hl Hq; [lia |]. cbn [delete_up].
  destruct (t_node _ _ _ _ _ HT _ _ Ha) as [Na Ea]. destruct (t_closed _ _ _ _ _ HT q d) as [b Hb]; [by rewrite Ha |].
  destruct (t_node _ _ _ _ _ HT _ _ Hb) as [Nb Eb].
  rewrite (run_ld _ _ _ _ _ Ea). cbn [node_at r_parent]. rewrite above_snoc, (addr_some _ _ _ Hb).
  rewrite (run_ld _ _ _ _ _ Eb). cbn [node_at r_right].
  assert (bool_decide (addr T (q ++ [true]) = a) = d) as ->.
  { destruct d; [by rewrite (addr_some _ _ _ Ha), bool_decide_true | apply bool_decide_false]. intros E.
    destruct (T !! (q ++ [true])) eqn:Et; [| by rewrite addr_none in E]. rewrite (addr_some _ _ _ Et) in E. subst.
    pose proof (t_inj _ _ _ _ _ HT _ _ _ Et Ha) as X. by apply snoc_inj in X as [_ ?]. }
  rewrite set_radix_child_st. rewrite (run_st _ _ _ _ _ Eb). rewrite run_get. cbn [glob].
  assert (a <> b) as Nab. { intros ->. pose proof (t_inj _ _ _ _ _ HT _ _ _ Ha Hb) as X. by apply snoc_ne in X. }
  repeat prog_step. cbn [node_at set_rright r_parent]. rewrite above_snoc, (addr_some _ _ _ Hb).
  match goal with |- context [mbind _ _ ?s1] => set (s2 := s1) end.
  assert (cells s2 !! b = Some (if d then set_rright 0 (node_at T V q) else set_rleft 0 (node_at T V q))) as C1.
  { subst s2. cbn [cells]. rewrite lookup_alter_ne, lookup_alter_eq, Eb by done. by destruct d. }
  assert (exists n, cells s2 !! a = Some n /\ r_right n = rt_free (glob s)) as (na & C2 & Ena).
  { subst s2. cbn [cells]. rewrite lookup_alter_eq, lookup_alter_ne, Ea by done. eexists. split; [reflexivity | done]. }
  assert (forall c, c <> a -> c <> b -> cells s2 !! c = cells s !! c) as C3.
  { intros c N1 N2. subst s2. cbn [cells]. by rewrite !lookup_alter_ne by done. }
  assert (glob s2 = set_rfree a (glob s)) as G2 by done. clearbody s2.
  set (T2 := delete (q ++ [d]) T). set (V2 := delete (q ++ [d]) V).
  assert (tree_ok limit (cells s2) (rt_root (glob s2)) T2 V2) as HT2.
  { rewrite G2. cbn [rt_root set_rfree]. by apply (detach limit (cells s) (cells s2) _ T V q d a b). }
  assert (mem_ok pagesize s2 T2 (a :: F)) as HM2.
  { destruct HM as [M1 M2 M3 M4 M5 M6 M7].
    assert (a ∉ F) as NF by (intros X; destruct (M3 a X) as [_ Y]; by apply (Y (q ++ [d]))).
    split; rewrite ?G2; cbn [rt_free rt_size set_rfree].
    - split; [done |]. exists na. split; [done |]. rewrite Ena. apply (chain_ext (cells s)); [done |].
      intros c Hc. apply C3; [by intros -> |]. intros ->. destruct (M3 b Hc) as [_ Y]. by apply (Y q).
    - by apply NoDup_cons.
    - intros c Hc. apply elem_of_cons in Hc as [-> | Hc].
      + split; [done |]. intros r Hr. unfold T2 in Hr. apply lookup_delete_Some in Hr as [N Hr]. apply N. by apply (t_inj _ _ _ _ _ HT _ _ _ Ha Hr).
      + destruct (M3 c Hc) as [N Y]. split; [done |]. intros r Hr. apply lookup_delete_Some in Hr as [_ Hr]. by apply (Y r).
    - done.
    - done.
    - intros c Hc. destruct (M6 c Hc) as [N Y]. split; [done |]. rewrite C3; [done | intros ->; congruence | intros ->; congruence].
    - by rewrite C3 by congruence. }
  assert (deleted s s2 T V (q ++ [d])) as Done.
  { exists T2, (a :: F). split; [done |]. split; [done |]. intros r. unfold T2. rewrite lookup_delete_is_Some. intros [N S]. by split. }
  assert (T2 !! q = Some b) as Hb2 by (unfold T2; rewrite lookup_delete_ne; [done | apply snoc_ne]).
  destruct (t_node _ _ _ _ _ HT2 q b Hb2) as [_ Eb2]. do 2 rewrite (run_ld _ _ _ _ _ Eb2). cbn [node_at r_right r_left].
  destruct (decide (_ \/ _)) as [_ | Leaf]; [exists s2; by split |]. rewrite (run_ld _ _ _ _ _ Eb2). cbn [node_at r_value].
  destruct (decide _) as [_ | EV]; [exists s2; by split |]. rewrite (run_ld _ _ _ _ _ Eb2). cbn [node_at r_parent].
  destruct (decide _) as [_ | Up]; [exists s2; by split |].
  destruct q as [| e q' _] using rev_ind; [done |].
  assert (V2 !! (q' ++ [e]) = None) as NV.
  { destruct (V2 !! (q' ++ [e])) eqn:EV2; [| done]. destruct (t_val _ _ _ _ _ HT2 _ _ EV2) as [_ N]. destruct EV. exact N. }
  destruct (IH q' e b s2 T2 V2 (a :: F) HT2 HM2 Hb2) as (s3 & R & T3 & F3 & HT3 & HM3 & Sub).
  { intros e'. apply (tree_addr _ _ _ _ _ _ HT2). apply dec_stable. intros X. apply Leaf. destruct e'; [by left | by right]. }
  { rewrite length_app in Hq. cbn in Hq. lia. }
  exists s3. split; [done |]. exists T3, F3. rewrite (delete_none V2) in HT3 by done. split; [done |]. split; [done |].
  intros r S. apply Sub in S as [S _]. unfold T2 in S. apply lookup_delete_is_Some in S as [N S]. by split.
Qed.

(** The root has no children. *)
Definition lone_root (s : store ngx_radix_node_t ngx_radix_tree_t) : Prop :=
  exists n, cells s !! rt_root (glob s) = Some n /\ r_right n = 0 /\ r_left n = 0.

(** Then the deletion of the empty prefix follows the null pointer to the parent
    of the root. *)
Lemma radix_delete_lone s V key mask :
  radix_ok limit pagesize s V -> follows cur_start key mask [] -> lone_root s ->
  radix_delete key mask s = None /\ forall q, q <> [] -> V !! q = None.
Proof.
  intros (T & F & HT & HM & HF) Hf (n & En & Er & El). pose proof (t_root _ _ _ _ _ HT) as Hr.
  destruct (t_node _ _ _ _ _ HT _ _ Hr) as [Na Ca]. assert (n = node_at T V []) as -> by congruence. cbn [node_at r_right r_left app] in Er, El.
  split.
  - unfold radix_delete. rewrite run_get.
    pose proof (delete_walk_ok [] (S cur_limit) cur_start key mask [] s T V HT Hf ltac:(cbn; lia)) as R.
    cbn [app] in R. rewrite (addr_some _ _ _ Hr) in R. rewrite (run_bind _ _ _ _ _ R), decide_False by done.
    do 2 rewrite (run_ld _ _ _ _ _ Ca). cbn [node_at r_right r_left app]. rewrite decide_False by tauto.
    destruct cur_limit as [| fuel]; [done |]. cbn [delete_up]. rewrite (run_ld _ _ _ _ _ Ca). cbn [node_at r_parent above].
    unfold ld, mbind, prog_bind. by rewrite (m_null _ _ _ _ HM).
  - intros q Hq. destruct q as [| d q]; [done |]. apply (no_node_no_value _ _ _ _ [d] q HT).
    apply (tree_addr _ _ _ _ _ _ HT). by destruct d.
Qed.

Lemma radix_delete_ok s V π key mask :
  radix_ok limit pagesize s V -> follows cur_start key mask π -> (length π <= cur_limit)%nat -> (limit <= cur_limit)%nat ->
  ~ (π = [] /\ lone_root s) ->
  exists (rc : Z) s', radix_delete key mask s = Some (rc, s') /\
    if decide (is_Some (V !! π)) then rc = NGX_OK /\ radix_ok limit pagesize s' (delete π V)
    else (rc = NGX_OK \/ rc = NGX_ERROR) /\ radix_ok limit pagesize s' V.
Proof.
  intros (T & F & HT & HM & HF) Hf Hc Hlim Hπ. unfold radix_delete. rewrite run_get.
  pose proof (delete_walk_ok π (S cur_limit) cur_start key mask [] s T V HT Hf ltac:(lia)) as R.
  rewrite (addr_some _ _ _ (t_root _ _ _ _ _ HT)) in R. rewrite (run_bind _ _ _ _ _ R). cbn [app].
  destruct (decide (addr T π = 0)) as [E | E].
  { apply (tree_addr _ _ _ _ _ _ HT) in E. pose proof (no_node_no_value _ _ _ _ _ [] HT E) as EV. rewrite app_nil_r in EV.
    exists NGX_ERROR, s. split; [done |]. rewrite decide_False by (rewrite EV; by intros [? ?]). split; [by right |]. by exists T, F. }
  destruct (T !! π) as [a |] eqn:Ea; [| by rewrite addr_none in E]. rewrite (addr_some _ _ _ Ea).
  destruct (t_node _ _ _ _ _ HT π a Ea) as [Na Ca]. do 2 rewrite (run_ld _ _ _ _ _ Ca). cbn [node_at r_right r_left].
  destruct (decide (_ \/ _)) as [Inner | Leaf].
  - rewrite (run_ld _ _ _ _ _ Ca). cbn [node_at r_value]. destruct (decide _) as [NV | NV].
    + rewrite (run_st _ _ _ _ _ Ca). eexists _, _. split; [reflexivity |].
      rewrite decide_True. 2: { destruct (V !! π); [by eexists | by destruct NV]. } split; [done |]. exists T, F. split; [| split].
      * cbn [cells glob]. apply (assign limit (cells s) _ _ T V _ π a HT Ea).
        -- by rewrite lookup_alter_eq, Ca, lookup_delete_eq.
        -- intros b N. by rewrite lookup_alter_ne by done.
        -- intros r N. by rewrite lookup_delete_ne by done.
        -- intros v. by rewrite lookup_delete_eq.
      * apply (mem_ok_cells pagesize s _ T T F HM); cbn [cells glob]; try done.
        -- intros b Hb. rewrite lookup_alter_ne; [done |]. intros <-. destruct (m_free _ _ _ _ HM a Hb) as [_ X]. by apply (X π).
        -- intros b Eb. rewrite lookup_alter_ne; [done |]. intros <-. congruence.
      * intros r S L. apply lookup_delete_is_Some. split; [| by apply HF]. intros <-.
        assert (exists d, is_Some (T !! (π ++ [d]))) as [d Sd].
        { destruct Inner as [I | I]; [exists true | exists false]; apply not_eq_None_Some; intros X; by rewrite addr_none in I. }
        apply (t_depth _ _ _ _ _ HT) in Sd. rewrite length_app in Sd. cbn in Sd. lia.
    + exists NGX_ERROR, s. split; [done |].
      assert (V !! π = None) as EV. { destruct (V !! π) eqn:EV; [| done]. destruct (t_val _ _ _ _ _ HT _ _ EV) as [_ N]. destruct NV. exact N. }
      rewrite decide_False by (rewrite EV; by intros [? ?]). split; [by right |]. by exists T, F.
  - destruct π as [| d q _] using rev_ind.
    { destruct Hπ. split; [done |]. exists (node_at T V []). assert (a = rt_root (glob s)) as <- by (pose proof (t_root _ _ _ _ _ HT); congruence).
      split; [done |]. cbn [node_at r_right r_left]. split; apply dec_stable; tauto. }
    destruct (delete_up_ok cur_limit q d a s T V F HT HM Ea) as (s' & R' & T' & F' & HT' & HM' & Sub).
    { intros e. apply (tree_addr _ _ _ _ _ _ HT). apply dec_stable. intros X. apply Leaf. destruct e; [by left | by right]. }
    { rewrite length_app in Hc. cbn in Hc. lia. }
    exists NGX_OK, s'. split; [done |]. assert (radix_ok limit pagesize s' (delete (q ++ [d]) V)) as Ok.
    { exists T', F'. split; [done |]. split; [done |]. intros r S L. apply Sub in S as [S N]. apply lookup_delete_is_Some. split; [done |]. by apply HF. }
    destruct (decide _) as [S | S]; [by split |]. split; [by left |]. rewrite (delete_none V) in Ok; [done |]. destruct (V !! (q ++ [d])); [destruct S; by eexists | done].
Qed.

(** The value of the longest prefix of [q ++ β], from [q] on; [acc] is that of the
    prefixes before. *)
Fixpoint longest V q (β : list bool) (acc : Z) : Z :=
  let acc := default acc (V !! q) in
  match β with
  | [] => acc
  | d :: β => longest V (q ++ [d]) β acc
  end.

Lemma longest_none V β : forall q acc, (forall r, V !! (q ++ r) = None) -> longest V q β acc = acc.
Proof.
  induction β as [| d β IH]; intros q acc EN; cbn [longest]; pose proof (EN []) as E; rewrite app_nil_r in E; rewrite E; [done |].
  apply IH. intros r. rewrite <- app_assoc. apply EN.
Qed.

Fixpoint reads (c : C) (key : K) (β : list bool) (c' : C) : Prop :=
  match β with
  | [] => c = c'
  | d :: β => dir c key = Some d /\ reads (cur_step c) key β c'
  end.

Lemma find_loop_ok β c' : forall fuel c key q acc s T V,
  tree_ok limit (cells s) (rt_root (glob s)) T V -> (length q + length β = limit)%nat -> reads c key β c' -> (S (length β) < fuel)%nat ->
  find_loop fuel c key acc (addr T q) s =
  if decide (is_Some (T !! (q ++ β)) /\ dir c' key = None) then None else Some (longest V q β acc, s).
Proof.
  induction β as [| d β IH]; intros [| fuel] c key q acc s T V HT Hq Hr Hl; try (cbn in Hl; lia); cbn [find_loop reads longest] in *.
  - subst c'. rewrite app_nil_r. destruct (T !! q) as [a |] eqn:Ea.
    + destruct (t_node _ _ _ _ _ HT q a Ea) as [Na Ca]. rewrite (addr_some _ _ _ Ea), decide_False by done.
      rewrite (run_ld _ _ _ _ _ Ca). cbn [node_at r_value]. destruct (dir c key) as [d |] eqn:Ed.
      * rewrite (run_radix_child T V q a d _ s HT Ea). rewrite addr_none.
        2: { destruct (T !! (q ++ [d])) eqn:X; [| done]. assert (length (q ++ [d]) <= limit)%nat as L; [apply (t_depth _ _ _ _ _ HT); by rewrite X |].
             rewrite length_app in L. cbn in *. lia. }
        rewrite (decide_False (P := is_Some (Some a) /\ Some d = None)) by (by intros [_ ?]).
        destruct fuel as [| fuel]; [cbn in Hl; lia |]. cbn [find_loop]. rewrite decide_True by done. f_equal. f_equal.
        destruct (V !! q) as [v |] eqn:EV; cbn [default from_option]; [| by destruct (decide _)].
        destruct (t_val _ _ _ _ _ HT _ _ EV) as [_ N]. by rewrite decide_True.
      * rewrite decide_True; [done |]. split; [by eexists | done].
    + rewrite (addr_none _ _ Ea), decide_True by done. rewrite decide_False by (intros [[? ?] _]; done).
      pose proof (no_node_no_value _ _ _ _ _ [] HT Ea) as EV. rewrite app_nil_r in EV. by rewrite EV.
  - destruct Hr as [Hd Hr]. destruct (T !! q) as [a |] eqn:Ea.
    + destruct (t_node _ _ _ _ _ HT q a Ea) as [Na Ca]. rewrite (addr_some _ _ _ Ea), decide_False by done.
      rewrite (run_ld _ _ _ _ _ Ca). cbn [node_at r_value]. rewrite Hd. rewrite (run_radix_child T V q a d _ s HT Ea).
      rewrite (IH fuel _ key (q ++ [d]) _ s T V HT) by (done || (rewrite ?length_app; cbn in *; lia)). rewrite <- app_assoc. cbn [app].
      destruct (decide _); [done |]. f_equal. f_equal. f_equal.
      destruct (V !! q) as [v |] eqn:EV; cbn [default from_option]; [| by destruct (decide _)].
      destruct (t_val _ _ _ _ _ HT _ _ EV) as [_ N]. by rewrite decide_True.
    + rewrite (addr_none _ _ Ea), decide_True by done.
      assert (forall r, V !! (q ++ r) = None) as EV by (intros r; by apply (no_node_no_value _ _ _ _ _ _ HT)).
      rewrite decide_False. 2: { intros [S _]. apply (closed_prefix _ _ _ _ _ _ _ HT) in S as [x S]. congruence. }
      pose proof (longest_none V (d :: β) q acc EV) as L. cbn [longest] in L. by rewrite L.
Qed.

Lemma radix_find_ok s V β c' key :
  radix_ok limit pagesize s V -> reads cur_start key β c' -> length β = limit -> cur_limit = limit ->
  radix_find key s = if decide (is_Some (V !! β) /\ dir c' key = None) then None else Some (longest V [] β NGX_RADIX_NO_VALUE, s).
Proof.
  intros (T & F & HT & HM & HF) Hr Hβ Hc. unfold radix_find. rewrite run_get, <- (addr_some _ _ _ (t_root _ _ _ _ _ HT)), Hc.
  rewrite (find_loop_ok β c' _ cur_start key [] _ s T V HT) by (done || (cbn; lia)). cbn [app].
  assert (is_Some (T !! β) <-> is_Some (V !! β)) as E.
  { split; [intros S; by apply HF | intros [v S]; by destruct (t_val _ _ _ _ _ HT _ _ S)]. }
  destruct (decide (is_Some (T !! β) /\ _)) as [D | D], (decide (is_Some (V !! β) /\ _)) as [D' | D']; tauto || done.
Qed.
End Walks.

(** [v] is the value of the longest prefix of [β] that has one. *)
Definition is_longest V (β : list bool) (v : Z) : Prop :=
  (exists k, (k <= length β)%nat /\ V !! (take k β) = Some v /\ forall j, (k < j <= length β)%nat -> V !! (take j β) = None) \/
  v = NGX_RADIX_NO_VALUE /\ forall k, (k <= length β)%nat -> V !! (take k β) = None.

Lemma longest_spec V β : is_longest V β (longest V [] β NGX_RADIX_NO_VALUE).
Proof.
  enough (forall q acc, let l := longest V q β acc in
    (exists k, (k <= length β)%nat /\ V !! (q ++ take k β) = Some l /\ forall j, (k < j <= length β)%nat -> V !! (q ++ take j β) = None) \/
    l = acc /\ forall k, (k <= length β)%nat -> V !! (q ++ take k β) = None) as G by exact (G [] NGX_RADIX_NO_VALUE).
  induction β as [| d β IH]; intros q acc; cbn [longest]; cbv zeta.
  - destruct (V !! q) as [v |] eqn:E.
    + left. exists 0%nat. cbn. rewrite app_nil_r. split; [done |]. split; [done | lia].
    + right. split; [done |]. intros k Hk. by rewrite take_nil, app_nil_r.
  - destruct (IH (q ++ [d]) (default acc (V !! q))) as [(k & Hk & E & N) | [E N]].
    + left. exists (S k). cbn [take length]. rewrite <- app_assoc in E. split; [lia |]. split; [exact E |]. intros [| j] Hj; [lia |].
      cbn [take length] in *. specialize (N j ltac:(lia)). by rewrite <- app_assoc in N.
    + rewrite E. destruct (V !! q) as [v |] eqn:Eq; cbn [default from_option].
      * left. exists 0%nat. cbn [take length]. rewrite app_nil_r. split; [lia |]. split; [done |]. intros [| j] Hj; [lia |].
        cbn [take length] in *. specialize (N j ltac:(lia)). by rewrite <- app_assoc in N.
      * right. split; [done |]. intros [| k] Hk; cbn [take length] in *; [by rewrite app_nil_r |]. specialize (N k ltac:(lia)). by rewrite <- app_assoc in N.
Qed.

(** ** The two cursors *)

(** How many bits of the mask are set before the first that is not. *)
Fixpoint leading (m : list bool) : nat :=
  match m with true :: m => S (leading m) | _ => 0%nat end.

Definition bits32 (key : Z) : list bool := List.map (fun i => Z.testbit key (31 - Z.of_nat i)) (List.seq 0 32).

Definition bits8 (b : Z) : list bool := List.map (fun i => Z.testbit b (7 - Z.of_nat i)) (List.seq 0 8).

Definition bits128 (key : list Z) : list bool := List.flat_map bits8 key.

(** What a cursor promises: it reads the bits of the key and of the mask in
    order, and stops after the last one. *)
Class CursorBits (C K : Type) `{Cursor C K} := {
  key_bits : K -> list bool;
  key_ok : K -> Prop;
  key_bits_length : forall key, key_ok key -> length (key_bits key) = cur_limit;
  more_bit : forall i mask, key_ok mask -> (i < cur_limit)%nat -> more (Nat.iter i cur_step cur_start) mask = List.nth i (key_bits mask) false;
  more_end : forall mask, more (Nat.iter cur_limit cur_step cur_start) mask = false;
  dir_bit : forall i key, key_ok key -> (i < cur_limit)%nat -> dir (Nat.iter i cur_step cur_start) key = Some (List.nth i (key_bits key) false);
}.

Section Bits.
Context `{CursorBits C K}.

Definition prefix_bits (key mask : K) : list bool := take (leading (key_bits mask)) (key_bits key).

Lemma iter_step i : cur_step (Nat.iter i cur_step cur_start) = Nat.iter (S i) cur_step cur_start.
Proof. done. Qed.

Lemma drop_nth (l : list bool) i : (i < length l)%nat -> drop i l = List.nth i l false :: drop (S i) l.
Proof. revert i. induction l as [| x l IH]; intros [| i] L; cbn in *; try lia; [done |]. apply IH. lia. Qed.

Lemma follows_bits key mask : key_ok key -> key_ok mask ->
  forall n i, (n + i = cur_limit)%nat -> follows (Nat.iter i cur_step cur_start) key mask (take (leading (drop i (key_bits mask))) (drop i (key_bits key))).
Proof.
  intros Hk Hm. induction n as [| n IH]; intros i E.
  - cbn in E. subst i. rewrite (drop_ge (key_bits mask)) by (by rewrite key_bits_length). cbn [leading take follows]. apply more_end.
  - rewrite (drop_nth (key_bits mask)), (drop_nth (key_bits key)) by (rewrite key_bits_length; [lia | done]).
    destruct (List.nth i (key_bits mask) false) eqn:B; cbn [leading take follows].
    + rewrite more_bit, dir_bit by (done || lia). split; [done |]. split; [done |]. rewrite iter_step. apply IH. lia.
    + rewrite more_bit by (done || lia). done.
Qed.

Lemma follows_prefix key mask : key_ok key -> key_ok mask -> follows cur_start key mask (prefix_bits key mask).
Proof. intros Hk Hm. exact (follows_bits key mask Hk Hm cur_limit 0%nat (Nat.add_0_r _)). Qed.

Lemma prefix_length key mask : key_ok key -> (length (prefix_bits key mask) <= cur_limit)%nat.
Proof. intros Hk. unfold prefix_bits. rewrite length_take, key_bits_length by done. lia. Qed.

Lemma reads_bits key : key_ok key ->
  forall n i, (n + i = cur_limit)%nat -> reads (Nat.iter i cur_step cur_start) key (drop i (key_bits key)) (Nat.iter cur_limit cur_step cur_start).
Proof.
  intros Hk. induction n as [| n IH]; intros i E.
  - cbn in E. subst i. rewrite drop_ge by (by rewrite key_bits_length). done.
  - rewrite drop_nth by (rewrite key_bits_length; [lia | done]). cbn [reads]. rewrite dir_bit by (done || lia). split; [done |].
    rewrite iter_step. apply IH. lia.
Qed.
End Bits.

Lemma nth_map_seq {A} (f : nat -> A) n i d : (i < n)%nat -> List.nth i (List.map f (List.seq 0 n)) d = f i.
Proof. intros L. rewrite nth_indep with (d' := f 0%nat) by (by rewrite length_map, length_seq). by rewrite map_nth, seq_nth. Qed.

Lemma iter32 i : (i < 32)%nat -> Nat.iter i cur_step (cur_start : Z) = Z.shiftl 1 (31 - Z.of_nat i).
Proof. intros L. do 32 (destruct i as [| i]; [reflexivity |]). lia. Qed.

#[export] Instance bits_32 : CursorBits Z Z.
Proof.
  refine {| key_bits := bits32; key_ok _ := True |}.
  { intros. unfold bits32. by rewrite length_map, length_seq. }
  {
  intros i mask _ L. rewrite iter32 by done. unfold bits32. rewrite nth_map_seq by done. cbn [more cursor32].
  rewrite Z.land_comm, land_bit_zero, negb_involutive by (cbn in L; lia). done. }
  { done. }
  intros i key _ L. rewrite iter32 by done. unfold bits32. rewrite nth_map_seq by done. cbn [dir cursor32].
  rewrite land_bit_zero, negb_involutive by (cbn in L; lia). done.
Defined.

Lemma iter128 i : (i <= 128)%nat -> Nat.iter i cur_step (cur_start : nat * Z) = ((i / 8)%nat, Z.shiftl 1 (7 - Z.of_nat (i mod 8))).
Proof. intros L. do 129 (destruct i as [| i]; [reflexivity |]). lia. Qed.

Lemma length_bits128 key : length (bits128 key) = (8 * length key)%nat.
Proof. unfold bits128. induction key as [| b key IH]; [done |]. cbn [List.flat_map]. rewrite length_app, IH. cbn. lia. Qed.

Lemma nth_bits128 key i : (i < 8 * length key)%nat ->
  List.nth i (bits128 key) false = Z.testbit (List.nth (i / 8) key 0) (7 - Z.of_nat (i mod 8)).
Proof.
  revert i. induction key as [| b key IH]; intros i L; [cbn in L; lia |]. unfold bits128. cbn [List.flat_map length] in *.
  destruct (Nat.lt_ge_cases i 8) as [S | S].
  - rewrite app_nth1 by done. rewrite Nat.div_small, Nat.mod_small by done. unfold bits8. by rewrite nth_map_seq.
  - rewrite app_nth2 by done. change (length (bits8 b)) with 8%nat. change (List.flat_map bits8 key) with (bits128 key).
    rewrite IH by lia. replace i with ((i - 8) + 1 * 8)%nat at 3 4 by lia. by rewrite Nat.div_add, Nat.Div0.mod_add, Nat.add_1_r.
Qed.

#[export] Instance bits_128 : CursorBits (nat * Z) (list Z).
Proof.
  refine {| key_bits := bits128; key_ok key := length key = 16%nat |}.
  { intros key L. by rewrite length_bits128, L. }
  {
  intros i mask L Hi. cbn in L. change cur_limit with 128%nat in Hi. rewrite iter128, nth_bits128 by (rewrite ?L; lia). cbn [more cursor128].
  assert (i / 8 < 16)%nat as D by (apply Nat.Div0.div_lt_upper_bound; lia). pose proof (Nat.mod_upper_bound i 8 ltac:(done)).
  rewrite (proj2 (Nat.eqb_neq (i / 8) 16)) by lia. cbn [negb andb]. rewrite Z.land_comm, land_bit_zero, negb_involutive by lia. done. }
  { done. }
  intros i key L Hi. cbn in L. change cur_limit with 128%nat in Hi. rewrite iter128, nth_bits128 by (rewrite ?L; lia). cbn [dir cursor128].
  assert (i / 8 < 16)%nat as D by (apply Nat.Div0.div_lt_upper_bound; lia). pose proof (Nat.mod_upper_bound i 8 ltac:(done)).
  destruct (nth_lookup_or_length key (i / 8) 0) as [-> | X]; [| lia].
  rewrite land_bit_zero, negb_involutive by lia. done.
Defined.

(** ** Creation *)

Lemma single_ok limit pagesize s root F :
  (0 < limit)%nat -> root <> 0 -> rt_root (glob s) = root -> cells s !! root = Some (mk_rnode 0 0 0 NGX_RADIX_NO_VALUE) ->
  mem_ok pagesize s {[ [] := root ]} F -> radix_ok limit pagesize s ∅.
Proof.
  intros L N Er E M. exists {[ [] := root ]}, F. split; [| split; [exact M |]].
  - split.
    + by rewrite Er, lookup_singleton_eq.
    + intros q d [x S]. apply lookup_singleton_Some in S as [X _]. by destruct q.
    + intros q q' a H1 H2. apply lookup_singleton_Some in H1 as [<- _]. by apply lookup_singleton_Some in H2 as [<- _].
    + intros q a H1. apply lookup_singleton_Some in H1 as [<- <-]. done.
    + intros q v H1. by rewrite lookup_empty in H1.
    + intros q [x S]. apply lookup_singleton_Some in S as [<- _]. cbn. lia.
  - intros q [x S]. apply lookup_singleton_Some in S as [<- _]. cbn. lia.
Qed.

Section Create.
Context (pagesize : Z) (uninit : ngx_radix_node_t) (Hpage : node_size <= pagesize) (limit : nat) (Hlimit : (32 <= limit)%nat).

Lemma prealloc_keys_ok mask inc : 0 < inc -> (leading (bits32 mask) < 32)%nat ->
  forall fuel key s, (0 < fuel)%nat -> key = (2 ^ 32 - Z.of_nat fuel * inc) mod 2 ^ 32 -> Z.of_nat fuel * inc <= 2 ^ 32 ->
  radix_ok limit pagesize s ∅ ->
  exists b s', prealloc_keys pagesize uninit fuel key mask inc s = Some (b, s') /\ radix_ok limit pagesize s' ∅ /\
    if b then used (glob s) (glob s') else refused (glob s) (glob s').
Proof.
  intros Hi Hm. induction fuel as [| fuel IH]; intros key s Hf Hk Hb Ok; [lia |]. cbn [prealloc_keys]. unfold ngx_radix32tree_insert.
  pose proof (@prefix_length Z Z _ bits_32 key mask I) as PL. assert (length (prefix_bits key mask) < 32)%nat as PL'.
  { unfold prefix_bits. rewrite length_take. cbn [key_bits bits_32]. lia. }
  destruct (radix_insert_ok pagesize uninit Hpage limit s ∅ (prefix_bits key mask) key mask NGX_RADIX_NO_VALUE Ok
    (@follows_prefix Z Z _ bits_32 key mask I I) PL ltac:(lia) ltac:(right; lia)) as (rc & s1 & R & G).
  rewrite decide_False in G by (rewrite lookup_empty; by intros [? ?]). rewrite (run_bind _ _ _ _ _ R).
  destruct G as [(-> & Hu & Ok1) | (-> & Hrf & Ok1)].
  - destruct (decide (NGX_OK <> NGX_OK)) as [X | _]; [by destruct X |]. cbv zeta. unfold bind_value in Ok1. rewrite decide_True in Ok1 by done.
    assert ((key + inc) mod 2 ^ 32 = (2 ^ 32 - Z.of_nat fuel * inc) mod 2 ^ 32) as E.
    { subst key. rewrite Z.add_mod_idemp_l by done. f_equal. lia. }
    rewrite E. destruct (decide _) as [Z0 | NZ]; [exists true, s1; by split_and! |].
    destruct (IH ((2 ^ 32 - Z.of_nat fuel * inc) mod 2 ^ 32) s1) as (b & s2 & R2 & Ok2 & Hb2); [| done | nia | done |].
    { destruct fuel; [| lia]. destruct NZ. cbn [Z.of_nat]. by rewrite Z.mul_0_l, Z.sub_0_r, Z.mod_same. }
    exists b, s2. split; [exact R2 |]. split; [done |]. destruct b; [by apply (used_trans _ _ _ Hu) | by apply (used_refused _ _ _ Hu)].
  - rewrite decide_True by done. by exists false, s1.
Qed.

Definition next_mask (mask : Z) : Z := Z.lor (Z.shiftr mask 1) 0x80000000.

Lemma prealloc_ok n : forall i s, (i + n <= 8)%nat -> radix_ok limit pagesize s ∅ ->
  exists b s', prealloc pagesize uninit n (Nat.iter i next_mask 0) (Z.shiftr 0x80000000 (Z.of_nat i)) s = Some (b, s') /\ radix_ok limit pagesize s' ∅ /\
    if b then used (glob s) (glob s') else refused (glob s) (glob s').
Proof.
  induction n as [| n IH]; intros i s Hi Ok; cbn [prealloc].
  - exists true, s. split_and!; [done | done | apply used_refl].
  - change (Z.lor (Z.shiftr (Nat.iter i next_mask 0) 1) 0x80000000) with (Nat.iter (S i) next_mask 0).
    assert (forall inc, inc = Z.shiftr 0x80000000 (Z.of_nat i) ->
      0 < inc /\ (leading (bits32 (Nat.iter (S i) next_mask 0%Z)) < 32)%nat /\ (0 < Z.to_nat (2 ^ 32 / Z.max inc 1))%nat /\
      0 = (2 ^ 32 - Z.of_nat (Z.to_nat (2 ^ 32 / Z.max inc 1)) * inc) mod 2 ^ 32 /\ Z.of_nat (Z.to_nat (2 ^ 32 / Z.max inc 1)) * inc <= 2 ^ 32) as A.
    { intros inc ->. do 8 (destruct i as [| i]; [vm_compute; repeat split; try discriminate; lia |]). lia. }
    specialize (A _ eq_refl) as (A1 & A2 & A3 & A4 & A5).
    destruct (prealloc_keys_ok _ _ A1 A2 _ 0 s A3 A4 A5 Ok) as (b & s1 & R & Ok1 & Hf). rewrite (run_bind _ _ _ _ _ R).
    destruct b; cbn [negb]; [| by exists false, s1].
    rewrite Z.shiftr_shiftr by lia. replace (Z.of_nat i + 1) with (Z.of_nat (S i)) by lia.
    destruct (IH (S i) s1) as (b & s2 & R2 & Ok2 & Hb2); [lia | done |]. exists b, s2. split; [exact R2 |]. split; [done |].
    destruct b; [by apply (used_trans _ _ _ Hf) | by apply (used_refused _ _ _ Hf)].
Qed.

Lemma radix_create_spec s got preallocate :
  mem_ok pagesize (mk_store (cells s) (mk_rtree (rt_root (glob s)) 0 0 0 (rt_pool (glob s)))) ∅ [] -> -1 <= preallocate <= 8 ->
  exists b s', ngx_radix_tree_create pagesize uninit got preallocate s = Some (b, s') /\
    if b then radix_ok limit pagesize s' ∅
    else got = false \/ refused (mk_rtree (rt_root (glob s)) 0 0 0 (rt_pool (glob s))) (glob s').
Proof.
  intros M Hp. unfold ngx_radix_tree_create. destruct got; cbn [negb]; [| exists false, s; split; [done | by left]].
  rewrite run_get, run_put. cbn [cells glob]. set (s0 := mk_store _ _) in *.
  destruct (alloc_ok pagesize uninit Hpage s0 ∅ [] M) as (p & s1 & R & Er & Eo & G); [intros q a E; by rewrite lookup_empty in E |].
  rewrite (run_bind _ _ _ _ _ R), run_get, run_put. destruct G as [(-> & M1 & Hrf) | [(Np & Fp & [nd En] & F & M1 & NF) Hu]].
  { rewrite decide_True by done. exists false. eexists. split; [reflexivity |]. right. exact Hrf. }
  rewrite decide_False by done. repeat prog_step.
  match goal with |- context [mk_store ?c ?g] => set (s2 := mk_store c g) end.
  assert (radix_ok limit pagesize s2 ∅) as Ok.
  { apply (single_ok limit pagesize s2 p F); [lia | done | done | |].
    - subst s2. cbn [cells]. by rewrite !lookup_alter_eq, En.
    - subst s2. destruct M1 as [M1 M2 M3 M4 M5 M6 M7]. split; cbn [cells glob set_rroot rt_free rt_size]; try done.
      + apply (chain_ext (cells s1)); [done |]. intros a Ha. rewrite !lookup_alter_ne; [done | by intros -> ..].
      + intros a Ha. destruct (M3 a Ha) as [N _]. split; [done |]. intros q Hq. apply lookup_singleton_Some in Hq as [_ ->]. done.
      + intros a Ha. destruct (M6 a Ha) as [N X]. split; [done |]. assert (p <> a) by (intros ->; congruence). by rewrite !lookup_alter_ne.
      + by rewrite !lookup_alter_ne. }
  assert (used (glob s0) (glob s2)) as Hu2 by exact Hu. change (mk_rtree _ 0 0 0 _) with (glob s0).
  clearbody s2. destruct (decide (preallocate = 0)) as [-> | N0]; [by exists true, s2 |].
  set (n := if decide (preallocate = -1) then default_prealloc pagesize else preallocate).
  assert (0 <= n <= 8) as Hn.
  { subst n. destruct (decide _); [unfold default_prealloc; destruct (_ =? _); [lia |]; destruct (_ =? _); lia | lia]. }
  destruct (prealloc_ok (Z.to_nat n) 0 s2 ltac:(lia) Ok) as (b & s3 & R3 & Ok3 & Hf). exists b, s3. split; [exact R3 |].
  destruct b; [done | right; by apply (used_refused _ _ _ Hu2)].
Qed.
End Create.

(** ** The properties *)

Section Refines.
Context `{CursorBits C K} (pagesize : Z) (uninit : ngx_radix_node_t) (Hpage : node_size <= pagesize).

Lemma radix_ops s V key mask value :
  radix_ok cur_limit pagesize s V -> key_ok key -> key_ok mask ->
  let π := prefix_bits key mask in
  (value <> NGX_RADIX_NO_VALUE \/ (length π < cur_limit)%nat -> exists rc s', radix_insert pagesize uninit key mask value s = Some (rc, s') /\
    if decide (is_Some (V !! π)) then rc = NGX_BUSY /\ s' = s
    else rc = NGX_OK /\ used (glob s) (glob s') /\ radix_ok cur_limit pagesize s' (bind_value π value V) \/
      rc = NGX_ERROR /\ refused (glob s) (glob s') /\ radix_ok cur_limit pagesize s' V) /\
  (π = [] /\ lone_root s -> radix_delete key mask s = None /\ forall q, q <> [] -> V !! q = None) /\
  (~ (π = [] /\ lone_root s) -> exists rc s', radix_delete key mask s = Some (rc, s') /\
    if decide (is_Some (V !! π)) then rc = NGX_OK /\ radix_ok cur_limit pagesize s' (delete π V)
    else (rc = NGX_OK \/ rc = NGX_ERROR) /\ radix_ok cur_limit pagesize s' V) /\
  (dir (Nat.iter cur_limit cur_step cur_start) key <> None \/ V !! key_bits key = None ->
    exists v, radix_find key s = Some (v, s) /\ is_longest V (key_bits key) v).
Proof.
  intros Ok Hk Hm π. pose proof (follows_prefix key mask Hk Hm) as Hf. pose proof (prefix_length key mask Hk) as Hl. fold π in Hf, Hl.
  split; [| split; [| split]].
  - intros Hv. exact (radix_insert_ok pagesize uninit Hpage cur_limit s V π key mask value Ok Hf Hl Hl Hv).
  - intros [E L]. rewrite E in Hf. exact (radix_delete_lone pagesize cur_limit s V key mask Ok Hf L).
  - intros Hπ. by apply radix_delete_ok.
  - intros He. pose proof (reads_bits key Hk cur_limit 0%nat (Nat.add_0_r _)) as Hr.
    exists (longest V [] (key_bits key) NGX_RADIX_NO_VALUE). split; [| apply longest_spec].
    rewrite (radix_find_ok pagesize cur_limit s V _ _ key Ok Hr) by (done || by apply key_bits_length).
    rewrite decide_False; [done |]. intros [[x S] D]. rewrite drop_0 in S. destruct He as [He | He]; [done | congruence].
Qed.
End Refines.

(** C6: the tree of 32-bit keys is a finite map from prefixes to values.
    Whatever was inserted and deleted before, an insertion binds the prefix
    that the key and the mask give, is refused with [NGX_BUSY] when the prefix
    has a value, and fails only when the pool gives no memory, without changing
    the map; a deletion removes the binding of a prefix that has one; a search
    returns the value of the longest prefix of the key that has one.
    [NGX_RADIX_NO_VALUE], which stands for no value, binds nothing; its insertion
    for a prefix of all the bits of a key is left out, since it would leave a leaf
    without a value.  Every one of these calls ends and follows no invalid pointer
    but one: the deletion of the empty prefix from a tree that consists of its
    root, which has no other prefix, follows the null parent of the root. *)
Theorem radix32_refines pagesize uninit s V key mask value :
  node_size <= pagesize -> radix_ok 32 pagesize s V ->
  let π := prefix_bits key mask in
  (value <> NGX_RADIX_NO_VALUE \/ (length π < 32)%nat ->
    exists rc s', ngx_radix32tree_insert pagesize uninit key mask value s = Some (rc, s') /\
    if decide (is_Some (V !! π)) then rc = NGX_BUSY /\ s' = s
    else rc = NGX_OK /\ used (glob s) (glob s') /\ radix_ok 32 pagesize s' (bind_value π value V) \/
      rc = NGX_ERROR /\ refused (glob s) (glob s') /\ radix_ok 32 pagesize s' V) /\
  (π = [] /\ lone_root s -> ngx_radix32tree_delete key mask s = None /\ forall q, q <> [] -> V !! q = None) /\
  (~ (π = [] /\ lone_root s) -> exists rc s', ngx_radix32tree_delete key mask s = Some (rc, s') /\
    if decide (is_Some (V !! π)) then rc = NGX_OK /\ radix_ok 32 pagesize s' (delete π V)
    else (rc = NGX_OK \/ rc = NGX_ERROR) /\ radix_ok 32 pagesize s' V) /\
  (exists v, ngx_radix32tree_find key s = Some (v, s) /\ is_longest V (bits32 key) v).
Proof.
  intros Hp Ok π. destruct (@radix_ops Z Z _ bits_32 pagesize uninit Hp s V key mask value Ok I I) as (G1 & G2 & G3 & G4).
  split; [exact G1 |]. split; [exact G2 |]. split; [exact G3 |]. apply G4. by left.
Qed.

(** C7: the tree of 128-bit keys is such a map too, for the same insertions, with the
    same exception for the deletion of the empty prefix and another one: a search for a key all of whose
    128 bits are a prefix with a value reads past the key's sixteen bytes. *)
Theorem radix128_refines pagesize uninit s V key mask value :
  node_size <= pagesize -> radix_ok 128 pagesize s V -> length key = 16%nat -> length mask = 16%nat ->
  let π := prefix_bits key mask in
  (value <> NGX_RADIX_NO_VALUE \/ (length π < 128)%nat ->
    exists rc s', ngx_radix128tree_insert pagesize uninit key mask value s = Some (rc, s') /\
    if decide (is_Some (V !! π)) then rc = NGX_BUSY /\ s' = s
    else rc = NGX_OK /\ used (glob s) (glob s') /\ radix_ok 128 pagesize s' (bind_value π value V) \/
      rc = NGX_ERROR /\ refused (glob s) (glob s') /\ radix_ok 128 pagesize s' V) /\
  (π = [] /\ lone_root s -> ngx_radix128tree_delete key mask s = None /\ forall q, q <> [] -> V !! q = None) /\
  (~ (π = [] /\ lone_root s) -> exists rc s', ngx_radix128tree_delete key mask s = Some (rc, s') /\
    if decide (is_Some (V !! π)) then rc = NGX_OK /\ radix_ok 128 pagesize s' (delete π V)
    else (rc = NGX_OK \/ rc = NGX_ERROR) /\ radix_ok 128 pagesize s' V) /\
  match V !! bits128 key with
  | None => exists v, ngx_radix128tree_find key s = Some (v, s) /\ is_longest V (bits128 key) v
  | Some _ => ngx_radix128tree_find key s = out_of_bounds s
  end.
Proof.
  intros Hp Ok Hk Hm π. destruct (@radix_ops _ _ _ bits_128 pagesize uninit Hp s V key mask value Ok Hk Hm) as (G1 & G2 & G3 & G4).
  split; [exact G1 |]. split; [exact G2 |]. split; [exact G3 |]. destruct (V !! bits128 key) eqn:E; [| apply G4; by right].
  pose proof (@reads_bits _ _ _ bits_128 key Hk cur_limit 0%nat (Nat.add_0_r _)) as Hr.
  unfold ngx_radix128tree_find. rewrite (radix_find_ok pagesize 128 s V _ _ key Ok Hr) by (done || by apply (@key_bits_length _ _ _ bits_128)).
  rewrite decide_True; [done |]. rewrite drop_0. split; [by exists z |]. rewrite iter128 by done.
  cbn [dir cursor128]. rewrite lookup_ge_None_2; [done |]. rewrite Hk. done.
Qed.

(** C8: a new tree is well formed and empty, for either width of keys, with any
    number of levels allocated in advance that the callers ask for; there is
    none only when the pool had no memory for the tree itself, or gave pages that
    were all used up before it answered NULL. *)
Theorem radix_create_ok limit pagesize uninit s got preallocate :
  node_size <= pagesize -> (32 <= limit)%nat -> -1 <= preallocate <= 8 ->
  mem_ok pagesize (mk_store (cells s) (mk_rtree (rt_root (glob s)) 0 0 0 (rt_pool (glob s)))) ∅ [] ->
  exists b s', ngx_radix_tree_create pagesize uninit got preallocate s = Some (b, s') /\
    if b then radix_ok limit pagesize s' ∅
    else got = false \/ refused (mk_rtree (rt_root (glob s)) 0 0 0 (rt_pool (glob s))) (glob s').
Proof. intros Hp Hl Hn M. exact (radix_create_spec pagesize uninit Hp limit Hl s got preallocate M Hn). Qed.

(** *** Concrete trees *)

Definition ex_uninit := mk_rnode 1 2 3 4.
Definition ex_pool : store ngx_radix_node_t ngx_radix_tree_t := mk_store ∅ (mk_rtree 0 0 0 0 [Some 8192]).

Lemma ex_pool_ok : mem_ok 96 ex_pool ∅ [].
Proof.
  split; cbn [cells glob ex_pool rt_free rt_size]; try done.
  - by apply NoDup_nil.
  - intros a Ha. by apply elem_of_nil in Ha.
  - refine (bool_decide_eq_true_1 _ _); vm_compute; reflexivity.
  - intros a Ha. rewrite lookup_empty. split; [| done]. intros ->. revert Ha. refine (bool_decide_eq_true_1 _ _); vm_compute; reflexivity.
Qed.

Lemma radix_create_ok_witness : exists s', ngx_radix_tree_create 96 ex_uninit true 0 ex_pool = Some (true, s') /\ radix_ok 32 96 s' ∅.
Proof.
  destruct (radix_create_ok 32 96 ex_uninit ex_pool true 0 ltac:(done) ltac:(lia) ltac:(lia) ex_pool_ok) as (b & s' & R & G).
  vm_compute in R. injection R as <- <-. eexists. split; [reflexivity | exact G].
Defined.

(** The root alone, at 8192, and room for two more nodes. *)
Definition ex_tree : store ngx_radix_node_t ngx_radix_tree_t :=
  mk_store {[ 8192 := mk_rnode 0 0 0 NGX_RADIX_NO_VALUE ]} (mk_rtree 8192 0 8224 64 []).

Lemma ex_tree_ok limit : (0 < limit)%nat -> radix_ok limit 96 ex_tree ∅.
Proof.
  intros L. apply (single_ok limit 96 ex_tree 8192 []); [done | done | done | done |]. split; cbn [cells glob ex_tree rt_free rt_size]; try done.
  - by apply NoDup_nil.
  - intros a Ha. by apply elem_of_nil in Ha.
  - refine (bool_decide_eq_true_1 _ _); vm_compute; reflexivity.
  - intros a Ha. change (supply 96 (mk_rtree 8192 0 8224 64 [])) with [8224; 8256] in Ha.
    rewrite lookup_singleton_ne; [split; [| done]; intros -> | intros <-]; revert Ha; refine (bool_decide_eq_true_1 _ _); vm_compute; reflexivity.
Qed.

Lemma radix32_refines_witness : exists s', ngx_radix32tree_insert 96 ex_uninit 0x80000000 0xc0000000 7 ex_tree = Some (NGX_OK, s') /\
  radix_ok 32 96 s' {[ [true; false] := 7 ]}.
Proof.
  destruct (proj1 (radix32_refines 96 ex_uninit ex_tree ∅ 0x80000000 0xc0000000 7 ltac:(done) (ex_tree_ok 32 ltac:(lia))) ltac:(left; done)) as (rc & s' & R & G).
  change (prefix_bits 0x80000000 0xc0000000) with [true; false] in G. rewrite lookup_empty in G. rewrite decide_False in G by (by intros [? ?]).
  vm_compute in R. injection R as <- <-. destruct G as [(_ & _ & G) | (G & _)]; [| discriminate]. eexists. split; [vm_compute; reflexivity | exact G].
Defined.

Lemma radix128_refines_witness : exists v, ngx_radix128tree_find (List.repeat 5 16) ex_tree = Some (v, ex_tree) /\ is_longest ∅ (bits128 (List.repeat 5 16)) v.
Proof.
  exact (proj2 (proj2 (proj2 (radix128_refines 96 ex_uninit ex_tree ∅ (List.repeat 5 16) (List.repeat 255 16) 7
    ltac:(done) (ex_tree_ok 128 ltac:(lia)) eq_refl eq_refl)))).
Defined.

(** The empty prefix cannot be deleted from a tree without other prefixes: the
    root has no parent. *)
Example radix_delete_root : ngx_radix32tree_delete 0 0 ex_tree = None.
Proof. vm_compute. reflexivity. Qed.

(** A key with a value for all of its 128 bits. *)
Example radix128_find_overreads : exists s,
  (ngx_radix_tree_create 8192 ex_uninit true 0;; ngx_radix128tree_insert 8192 ex_uninit (List.repeat 1 16) (List.repeat 255 16) 7) ex_pool = Some (NGX_OK, s) /\
  ngx_radix128tree_find (List.repeat 1 16) s = None.
Proof. eexists. split; [vm_compute; reflexivity | vm_compute; reflexivity]. Qed.
