(* ===== verification/HpackHuffman.v ===== *)
(** The Huffman code of HPACK (http/ngx_http_huff_encode.c,
    http/ngx_http_huff_decode.c): strings as codes one bit after the other,
    filled up with ones to whole bytes. *)
From S2P Require Import Prelude NgxHash.
From S2P Require Export HuffTables.

(** ** Decoding *)

(** [*state], [*ending] and the bytes written to [*dst] *)
Record huff_decoder := mk_decoder { hd_state : Z; hd_ending : Z; hd_dst : list Z }.

Definition huff_code_at (state bits : Z) : ngx_http_huff_decode_code_t :=
  nth (Z.to_nat bits) (nth (Z.to_nat state) ngx_http_huff_decode_codes []) (hcode 0 0 0 0).

Definition ngx_http_huff_decode_bits (bits : Z) (h : huff_decoder) : Z * huff_decoder :=
  let code := huff_code_at (hd_state h) bits in
  if hc_next code =? hd_state h then (NGX_ERROR, h)
  else
    let dst := if hc_emit code =? 0 then hd_dst h else hd_dst h ++ [hc_sym code] in
    (NGX_OK, mk_decoder (hc_next code) (hc_ending code) dst).

Fixpoint huff_decode_loop (src : list Z) (h : huff_decoder) : Z * huff_decoder :=
  match src with
  | [] => (NGX_OK, h)
  | ch :: src' =>
      let '(rc, h) := ngx_http_huff_decode_bits (Z.shiftr ch 4) h in
      if negb (rc =? NGX_OK) then (NGX_ERROR, h) else
      let '(rc, h) := ngx_http_huff_decode_bits (Z.land ch 0xf) h in
      if negb (rc =? NGX_OK) then (NGX_ERROR, h) else
      huff_decode_loop src' h
  end.

(** The return code, the state after the call, and the bytes before [*dst]. *)
Definition ngx_http_huff_decode (state : Z) (src dst : list Z) (last : bool) : Z * Z * list Z :=
  let '(rc, h) := huff_decode_loop src (mk_decoder state 1 dst) in
  if negb (rc =? NGX_OK) then (NGX_ERROR, hd_state h, hd_dst h)
  else if last then
    if hd_ending h =? 0 then (NGX_ERROR, hd_state h, hd_dst h)
    else (NGX_OK, 0, hd_dst h)
  else (NGX_OK, hd_state h, hd_dst h).

(** ** Encoding *)

(** The eight bytes of a word, the first one the highest. *)
Definition ngx_http_huff_encode_buf (buf : Z) : list Z :=
  List.map (fun k => Z.shiftr buf k mod 256) [56; 48; 40; 32; 24; 16; 8; 0].

(** [None] where the code returns 0.  [dst] are the bytes written, so that
    [hlen] is its length. *)
Fixpoint huff_encode_loop (table : list ngx_http_huff_encode_code_t) (len : Z) (src dst : list Z)
    (buf pending : Z) : option (list Z * Z * Z) :=
  match src with
  | [] => Some (dst, buf, pending)
  | c :: src' =>
      let next := nth (Z.to_nat c) table (ecode 0 0) in
      let code := ec_code next in
      let pending := pending + ec_len next in
      if pending <? 64 then
        huff_encode_loop table len src' dst (Z.lor buf (u64 (Z.shiftl code (64 - pending)))) pending
      else if len <=? Z.of_nat (List.length dst) + 8 then None
      else
        let pending := pending - 64 in
        let buf := Z.lor buf (Z.shiftr code pending) in
        let dst := dst ++ ngx_http_huff_encode_buf buf in
        let buf := if pending =? 0 then 0 else u64 (Z.shiftl code (64 - pending)) in
        huff_encode_loop table len src' dst buf pending
  end.

(** The last loop, for [pending] a multiple of 8 that is not 0. *)
Fixpoint huff_encode_rest (fuel : nat) (buf pending : Z) : list Z :=
  match fuel with
  | O => []
  | S fuel' =>
      let pending := pending - 8 in
      Z.shiftr buf pending mod 256 :: (if pending =? 0 then [] else huff_encode_rest fuel' buf pending)
  end.

Definition ngx_align (d a : Z) : Z := Z.land (d + (a - 1)) (Z.lnot (a - 1)).

(** The bytes of the code, none when it would not be shorter than [src]. *)
Definition ngx_http_huff_encode (src : list Z) (lower : bool) : list Z :=
  let table := if lower then ngx_http_huff_encode_table_lc else ngx_http_huff_encode_table in
  let len := Z.of_nat (List.length src) in
  match huff_encode_loop table len src [] 0 0 with
  | None => []
  | Some (dst, buf, pending) =>
      if pending =? 0 then dst else
      let buf := Z.lor buf (Z.shiftr (2 ^ 64 - 1) pending) in
      let pending := ngx_align pending 8 in
      if len <=? Z.of_nat (List.length dst) + pending / 8 then [] else
      let buf := Z.shiftr buf (64 - pending) in
      dst ++ huff_encode_rest (Z.to_nat (pending / 8)) buf pending
  end.

Example huff_www : ngx_http_huff_encode str "www.example.com" false =
  [0xf1; 0xe3; 0xc2; 0xe5; 0xf2; 0x3a; 0x6b; 0xa0; 0xab; 0x90; 0xf4; 0xff].
Proof. reflexivity. Qed.

Example huff_www_back : ngx_http_huff_decode 0 (ngx_http_huff_encode str "www.example.com" false) [] true =
  (NGX_OK, 0, str "www.example.com").
Proof. reflexivity. Qed.

(** ** Bits *)

(** The low [n] bits of a number, the highest first. *)
Fixpoint bits (n : nat) (z : Z) : list bool :=
  match n with
  | O => []
  | S n' => Z.testbit z (Z.of_nat n') :: bits n' z
  end.

Definition value (l : list bool) : Z := horner 2 (List.map Z.b2z l).

Lemma length_bits n z : List.length (bits n z) = n.
Proof. induction n; cbn; congruence. Qed.

Lemma bits_app n m z : bits (n + m) z = bits n (Z.shiftr z (Z.of_nat m)) ++ bits m z.
Proof.
  induction n as [|n IH]; [done |]. cbn [Nat.add bits app]. rewrite IH. f_equal.
  rewrite Z.shiftr_spec by lia. f_equal. lia.
Qed.

Lemma bits_ext n x y : (forall i, 0 <= i < Z.of_nat n -> Z.testbit x i = Z.testbit y i) -> bits n x = bits n y.
Proof.
  induction n as [|n IH]; intros H; [done |]. cbn. f_equal; [apply H; lia | apply IH; intros; apply H; lia].
Qed.

Lemma bits_mod n m z : Z.of_nat n <= m -> bits n (z mod 2 ^ m) = bits n z.
Proof. intros H. apply bits_ext. intros i Hi. apply Z.mod_pow2_bits_low. lia. Qed.

Lemma value_cons b l : value (b :: l) = Z.b2z b * 2 ^ Z.of_nat (List.length l) + value l.
Proof. unfold value. cbn [List.map]. rewrite horner_cons, List.length_map. reflexivity. Qed.

Lemma value_app l m : value (l ++ m) = value l * 2 ^ Z.of_nat (List.length m) + value m.
Proof.
  induction l as [|b l IH]; [change (value []) with 0; cbn [app]; lia |]. cbn [app]. rewrite !value_cons, IH, List.length_app.
  rewrite Nat2Z.inj_add, Z.pow_add_r by lia. ring.
Qed.

Lemma value_range l : 0 <= value l < 2 ^ Z.of_nat (List.length l).
Proof.
  induction l as [|b l IH]; [cbn; lia |]. rewrite value_cons. cbn [List.length]. rewrite Nat2Z.inj_succ, Z.pow_succ_r by lia.
  destruct b; cbn [Z.b2z]; lia.
Qed.

Lemma bits_value l : bits (List.length l) (value l) = l.
Proof.
  induction l as [|b l IH]; [done |]. cbn [List.length bits]. rewrite value_cons. f_equal.
  - pose proof (value_range l). rewrite Z.add_comm, Z.testbit_eqb by lia.
    rewrite Z.div_add, Z.div_small by lia. now destruct b.
  - rewrite <- (bits_mod _ (Z.of_nat (List.length l))) by lia.
    rewrite Z.add_comm, Z.mod_add, Z.mod_small by (pose proof (value_range l); lia). exact IH.
Qed.

Lemma value_bits n z : 0 <= z < 2 ^ Z.of_nat n -> value (bits n z) = z.
Proof.
  revert z. induction n as [|n IH]; intros z Hz; [cbn in *; unfold value; cbn; lia |].
  cbn [bits]. rewrite value_cons, length_bits. rewrite <- (bits_mod n (Z.of_nat n)) by lia.
  rewrite Nat2Z.inj_succ, Z.pow_succ_r in Hz by lia.
  rewrite IH by (apply Z.mod_pos_bound; lia).
  rewrite (Z.div_mod z (2 ^ Z.of_nat n)) at 3 by lia. rewrite Z.testbit_eqb by lia.
  assert (0 <= z / 2 ^ Z.of_nat n < 2) as Hq by (split; [apply Z.div_pos; lia | apply Z.div_lt_upper_bound; lia]).
  rewrite Z.mod_small by lia. destruct (Z.eqb_spec (z / 2 ^ Z.of_nat n) 1); cbn [Z.b2z]; lia.
Qed.

Lemma value_zeros n : value (List.repeat false n) = 0.
Proof. induction n as [|n IH]; [done |]. cbn [List.repeat]. rewrite value_cons, IH. cbn. lia. Qed.

Lemma value_ones n : value (List.repeat true n) = 2 ^ Z.of_nat n - 1.
Proof.
  induction n as [|n IH]; [done |]. cbn [List.repeat]. rewrite value_cons, IH, List.repeat_length.
  rewrite Nat2Z.inj_succ, Z.pow_succ_r by lia. cbn. lia.
Qed.

Lemma shiftr_value l m : Z.shiftr (value (l ++ m)) (Z.of_nat (List.length m)) = value l.
Proof.
  rewrite Z.shiftr_div_pow2, value_app by lia. pose proof (value_range m).
  rewrite Z.div_add_l, Z.div_small by lia. lia.
Qed.

(** The bits of a sequence of bytes. *)
Definition bits_of_bytes (l : list Z) : list bool := List.flat_map (bits 8) l.

Lemma bits_of_bytes_app l m : bits_of_bytes (l ++ m) = bits_of_bytes l ++ bits_of_bytes m.
Proof. apply List.flat_map_app. Qed.

Lemma length_bits_of_bytes l : List.length (bits_of_bytes l) = (8 * List.length l)%nat.
Proof. induction l as [|b l IH]; [done |]. cbn [bits_of_bytes List.flat_map]. rewrite List.length_app, length_bits. fold (bits_of_bytes l). cbn [List.length]. lia. Qed.

(** Two halves of four bits. *)
Lemma bits_byte b : bits 8 b = bits 4 (Z.shiftr b 4) ++ bits 4 (Z.land b 0xf).
Proof.
  change 8%nat with (4 + 4)%nat. rewrite bits_app. f_equal. change 0xf with (Z.ones 4).
  rewrite land_low by lia. symmetry. now apply bits_mod.
Qed.

Lemma bits_of_byte_inj b c : byte b -> byte c -> bits 8 b = bits 8 c -> b = c.
Proof. intros Hb Hc H. unfold byte in *. rewrite <- (value_bits 8 b), <- (value_bits 8 c), H by (cbn; lia). done. Qed.

Lemma bits_byte_mod z : bits 8 (z mod 256) = bits 8 z.
Proof. change 256 with (2 ^ 8). now apply bits_mod. Qed.

(** ** The code *)

Definition code_bits (e : ngx_http_huff_encode_code_t) : list bool := bits (Z.to_nat (ec_len e)) (ec_code e).

Definition char_code (c : Z) : list bool := code_bits (nth (Z.to_nat c) ngx_http_huff_encode_table (ecode 0 0)).

(** The bits of a string, one code after the other. *)
Definition huff_text (s : list Z) : list bool := List.flat_map char_code s.

(** The tree of the code: it shows that no code starts another. *)
Inductive htree := HNone | HLeaf (c : Z) | HNode (l r : htree).

Fixpoint htree_insert (b : list bool) (c : Z) (t : htree) : htree :=
  match b with
  | [] => HLeaf c
  | x :: b' =>
      let '(l, r) := match t with HNode l r => (l, r) | _ => (HNone, HNone) end in
      if x then HNode l (htree_insert b' c r) else HNode (htree_insert b' c l) r
  end.

Definition huff_tree : htree :=
  Eval vm_compute in List.fold_left (fun t c => htree_insert (char_code c) c t) all_bytes HNone.

(** The first character of a sequence of bits, and the bits after it. *)
Fixpoint huff_read (t : htree) (b : list bool) : option (Z * list bool) :=
  match t with
  | HNone => None
  | HLeaf c => Some (c, b)
  | HNode l r => match b with [] => None | x :: b' => huff_read (if x then r else l) b' end
  end.

Definition list_beq (a b : list bool) : bool := if List.list_eq_dec Bool.bool_dec a b then true else false.

Lemma list_beq_eq a b : list_beq a b = true -> a = b.
Proof. unfold list_beq. now destruct (List.list_eq_dec Bool.bool_dec a b). Qed.

(** What the automaton has read since the last character, for each state, as a
    number whose bits follow its highest one. *)
Definition state_paths : list (list bool) := Eval vm_compute in List.map (fun z => bits (Z.to_nat (Z.log2 z)) z) [
  0x1; 0x2; 0x4; 0x8; 0x10; 0x11; 0x9; 0x12;
  0x13; 0x5; 0xa; 0x14; 0x15; 0x2a; 0x2b; 0xb;
  0x16; 0x2c; 0x2d; 0x17; 0x2e; 0x2f; 0x3; 0x6;
  0xc; 0x18; 0x30; 0x31; 0x19; 0x32; 0x33; 0xd;
  0x1a; 0x34; 0x35; 0x1b; 0x36; 0x37; 0x6e; 0x6f;
  0x7; 0xe; 0x1c; 0x38; 0x70; 0x71; 0x39; 0x72;
  0x73; 0x1d; 0x3a; 0x74; 0x75; 0x3b; 0x76; 0x77;
  0xf; 0x1e; 0x3c; 0x78; 0x79; 0x3d; 0x7a; 0x7b;
  0x1f; 0x3e; 0x7c; 0x7d; 0x3f; 0x7e; 0xfc; 0xfd;
  0x7f; 0xfe; 0xff; 0x1fe; 0x3fc; 0x3fd; 0x1ff; 0x3fe;
  0x7fd; 0x3ff; 0x7fe; 0xffd; 0x7ff; 0xffe; 0x1ffc; 0x1ffd;
  0xfff; 0x1ffe; 0x1fff; 0x3ffe; 0x3fff; 0x7ffe; 0x7fff; 0xffff;
  0x1fffe; 0x3fffc; 0x7fff8; 0x7fff9; 0xffff3; 0x3fffd; 0x7fffa; 0xffff4;
  0xffff5; 0x7fffb; 0xffff6; 0xffff7; 0x1fffee; 0x1fffef; 0x1ffff; 0x3fffe;
  0x7fffc; 0xffff8; 0x1ffff0; 0x1ffff1; 0xffff9; 0x1ffff2; 0x1ffff3; 0x7fffd;
  0xffffa; 0x1ffff4; 0x3fffe9; 0x1ffff5; 0x3fffea; 0x3fffeb; 0xffffb; 0x1ffff6;
  0x3fffec; 0x3fffed; 0x1ffff7; 0x3fffee; 0x3fffef; 0x3ffff; 0x7fffe; 0xffffc;
  0x1ffff8; 0x3ffff0; 0x3ffff1; 0x1ffff9; 0x3ffff2; 0x3ffff3; 0xffffd; 0x1ffffa;
  0x3ffff4; 0x3ffff5; 0x1ffffb; 0x3ffff6; 0x7fffec; 0x7fffed; 0x3ffff7; 0x7fffee;
  0x7fffef; 0x7ffff; 0xffffe; 0x1ffffc; 0x3ffff8; 0x7ffff0; 0x7ffff1; 0x3ffff9;
  0x7ffff2; 0x7ffff3; 0x1ffffd; 0x3ffffa; 0x7ffff4; 0x7ffff5; 0x3ffffb; 0x7ffff6;
  0x7ffff7; 0xfffff; 0x1ffffe; 0x3ffffc; 0x7ffff8; 0x7ffff9; 0x3ffffd; 0x7ffffa;
  0xfffff5; 0x7ffffb; 0xfffff6; 0xfffff7; 0x1fffff; 0x3ffffe; 0x7ffffc; 0xfffff8;
  0xfffff9; 0x7ffffd; 0xfffffa; 0xfffffb; 0x1fffff6; 0x1fffff7; 0x3fffff; 0x7ffffe;
  0xfffffc; 0x1fffff8; 0x3fffff0; 0x3fffff1; 0x1fffff9; 0x3fffff2; 0x3fffff3; 0xfffffd;
  0x1fffffa; 0x3fffff4; 0x3fffff5; 0x1fffffb; 0x3fffff6; 0x3fffff7; 0x7ffffef; 0x7fffff;
  0xfffffe; 0x1fffffc; 0x3fffff8; 0x7fffff0; 0x7fffff1; 0x3fffff9; 0x7fffff2; 0x7fffff3;
  0x1fffffd; 0x3fffffa; 0x7fffff4; 0x7fffff5; 0x3fffffb; 0x7fffff6; 0x7fffff7; 0xffffff;
  0x1fffffe; 0x3fffffc; 0x7fffff8; 0xffffff1; 0x7fffff9; 0xffffff2; 0xffffff3; 0x3fffffd;
  0x7fffffa; 0xffffff4; 0xffffff5; 0x7fffffb; 0xffffff6; 0xffffff7; 0x1ffffff; 0x3fffffe;
  0x7fffffc; 0xffffff8; 0xffffff9; 0x7fffffd; 0xffffffa; 0xffffffb; 0x3ffffff; 0x7fffffe;
  0xffffffc; 0xffffffd; 0x7ffffff; 0xffffffe; 0xfffffff; 0x1fffffff; 0x3ffffffe; 0x3fffffff ].

Definition path (q : Z) : list bool := nth (Z.to_nat q) state_paths [].

(** No character starts with thirty ones. *)
Definition ones (n : nat) : list bool := List.repeat true n.

Definition is_ones (b : list bool) : bool := List.forallb id b.

Definition small (n m : Z) : bool := (0 <=? n) && (n <? m).

(** The automaton does what its paths say, on four bits [n] in state [q]. *)
Definition transition_ok (q n : Z) : bool :=
  let code := huff_code_at q n in
  let p := path q ++ bits 4 n in
  if hc_next code =? q then list_beq (List.firstn 30 p) (ones 30)
  else small (hc_next code) 256 && (hc_ending code =? Z.b2z (is_ones (path (hc_next code)))) &&
    (if hc_emit code =? 0 then list_beq p (path (hc_next code))
     else small (hc_sym code) 256 && list_beq p (char_code (hc_sym code) ++ path (hc_next code))).

Definition all_nibbles : list Z := List.map Z.of_nat (List.seq 0 16).

Lemma transitions_ok : List.forallb (fun q => List.forallb (transition_ok q) all_nibbles) all_bytes = true.
Proof. vm_compute. reflexivity. Qed.

Lemma paths_unread : forall_bytes (fun q => match huff_read huff_tree (path q) with None => true | _ => false end &&
  (List.length (path q) <? 30)%nat) = true.
Proof. vm_compute. reflexivity. Qed.

Lemma codes_read : forall_bytes (fun c => match huff_read huff_tree (char_code c) with Some (c', []) => c' =? c | _ => false end &&
  (5 <=? List.length (char_code c))%nat) = true.
Proof. vm_compute. reflexivity. Qed.

Lemma ones_unread : List.forallb (fun n => match huff_read huff_tree (ones n) with None => true | _ => false end) (List.seq 0 30) = true.
Proof. reflexivity. Qed.

Ltac split_ands := repeat match goal with |- _ /\ _ => split end.

Lemma huff_read_app t b c r m : huff_read t b = Some (c, r) -> huff_read t (b ++ m) = Some (c, r ++ m).
Proof.
  revert b. induction t as [| c' | l IHl r' IHr]; intros b; cbn; [done | intros [= -> ->]; done |].
  destruct b as [|[] b]; cbn [app]; [done | apply IHr | apply IHl].
Qed.

Lemma small_spec n m : small n m = true <-> 0 <= n < m.
Proof. unfold small. rewrite Bool.andb_true_iff, Z.leb_le, Z.ltb_lt. tauto. Qed.

Lemma read_code c m : byte c -> huff_read huff_tree (char_code c ++ m) = Some (c, m).
Proof.
  intros H. pose proof (forall_bytes_spec _ codes_read c H) as Q. cbv beta in Q. apply andb_prop in Q as [Q _].
  destruct (huff_read huff_tree (char_code c)) as [[c' [|]]|] eqn:E; try done.
  apply Z.eqb_eq in Q as ->. exact (huff_read_app _ _ _ _ m E).
Qed.

Lemma char_code_length c : byte c -> (5 <= List.length (char_code c))%nat.
Proof.
  intros H. pose proof (forall_bytes_spec _ codes_read c H) as Q. cbv beta in Q. apply andb_prop in Q as [_ Q].
  now apply Nat.leb_le.
Qed.

Lemma read_path q : byte q -> huff_read huff_tree (path q) = None.
Proof.
  intros H. pose proof (forall_bytes_spec _ paths_unread q H) as Q. cbv beta in Q. apply andb_prop in Q as [Q _].
  now destruct (huff_read huff_tree (path q)).
Qed.

Lemma length_path q : byte q -> (List.length (path q) < 30)%nat.
Proof.
  intros H. pose proof (forall_bytes_spec _ paths_unread q H) as Q. cbv beta in Q. apply andb_prop in Q as [_ Q].
  now apply Nat.ltb_lt.
Qed.

Lemma read_ones k : (k < 30)%nat -> huff_read huff_tree (ones k) = None.
Proof.
  intros H. pose proof (proj1 (List.forallb_forall _ _) ones_unread k) as Q. cbv beta in Q.
  destruct (huff_read huff_tree (ones k)); [| done]. discriminate Q. apply List.in_seq. lia.
Qed.

Lemma read_thirty m : huff_read huff_tree (ones 30 ++ m) = None.
Proof. reflexivity. Qed.

Lemma is_ones_spec b : is_ones b = true <-> b = ones (List.length b).
Proof.
  unfold is_ones, ones. induction b as [|x b IH]; [done |]. cbn. destruct x; cbn; [| split; discriminate].
  rewrite IH. split; [congruence | intros [= H]; exact H].
Qed.

Definition nibble (n : Z) : Prop := 0 <= n < 16.

(** What one step does. *)
Lemma decode_bits_cases q e d n :
  byte q -> nibble n ->
  let r := ngx_http_huff_decode_bits n (mk_decoder q e d) in
  (r = (NGX_ERROR, mk_decoder q e d) /\ exists m, path q ++ bits 4 n = ones 30 ++ m) \/
  (exists q' l, r = (NGX_OK, mk_decoder q' (Z.b2z (is_ones (path q'))) (d ++ l)) /\ byte q' /\ Forall byte l /\
     path q ++ bits 4 n = huff_text l ++ path q' /\ (List.length l <= 1)%nat).
Proof.
  intros Hq Hn. cbv zeta.
  pose proof (forall_bytes_spec _ transitions_ok q Hq) as Q. cbv beta in Q.
  rewrite List.forallb_forall in Q. specialize (Q n). unfold transition_ok in Q.
  assert (List.In n all_nibbles) as Hin.
  { apply List.in_map_iff. exists (Z.to_nat n). split; [unfold nibble in Hn; lia |]. apply List.in_seq. unfold nibble in Hn. lia. }
  specialize (Q Hin). unfold ngx_http_huff_decode_bits. cbn [hd_state hd_dst]. cbv zeta in Q.
  set (code := huff_code_at q n) in *. clearbody code. destruct (hc_next code =? q).
  - left. split; [done |]. apply list_beq_eq in Q. exists (List.skipn 30 (path q ++ bits 4 n)).
    rewrite <- Q. symmetry. apply List.firstn_skipn.
  - right. apply andb_prop in Q as [Q1 Q]. apply andb_prop in Q1 as [Q1 Q2]. apply small_spec in Q1. apply Z.eqb_eq in Q2.
    exists (hc_next code). destruct (hc_emit code =? 0).
    + exists []. rewrite app_nil_r, Q2. apply list_beq_eq in Q. rewrite Q. split_ands; first [done | cbn; lia | constructor].
    + apply andb_prop in Q as [Q3 Q]. apply small_spec in Q3. apply list_beq_eq in Q. exists [hc_sym code]. rewrite Q2, Q.
      cbn. rewrite app_nil_r. split_ands; first [done | cbn; lia | constructor; [exact Q3 | constructor]].
Qed.

(** The four-bit halves of bytes. *)
Definition nibbles (src : list Z) : list Z := List.flat_map (fun ch => [Z.shiftr ch 4; Z.land ch 0xf]) src.

Fixpoint run_nibbles (ns : list Z) (h : huff_decoder) : Z * huff_decoder :=
  match ns with
  | [] => (NGX_OK, h)
  | n :: ns' =>
      let '(rc, h) := ngx_http_huff_decode_bits n h in
      if negb (rc =? NGX_OK) then (NGX_ERROR, h) else run_nibbles ns' h
  end.

Lemma decode_loop_nibbles src h : huff_decode_loop src h = run_nibbles (nibbles src) h.
Proof.
  revert h. induction src as [|ch src IH]; intros h; [done |]. cbn [huff_decode_loop nibbles List.flat_map app run_nibbles].
  destruct (ngx_http_huff_decode_bits (Z.shiftr ch 4) h) as [rc h1]. destruct (negb (rc =? NGX_OK)); [done |].
  destruct (ngx_http_huff_decode_bits (Z.land ch 0xf) h1) as [rc' h2]. destruct (negb (rc' =? NGX_OK)); [done |]. apply IH.
Qed.

Lemma nibbles_ok src : Forall byte src -> Forall nibble (nibbles src).
Proof.
  induction 1 as [|b l Hb _ IH]; [constructor |]. cbn. repeat constructor; try exact IH; unfold nibble, byte in *.
  - rewrite Z.shiftr_div_pow2 by lia. apply Z.div_pos; lia.
  - rewrite Z.shiftr_div_pow2 by lia. apply Z.div_lt_upper_bound; lia.
  - change 0xf with (Z.ones 4). rewrite land_low by lia. apply Z.mod_pos_bound. lia.
  - change 0xf with (Z.ones 4). rewrite land_low by lia. apply Z.mod_pos_bound. lia.
Qed.

Lemma nibbles_bits src : List.flat_map (bits 4) (nibbles src) = bits_of_bytes src.
Proof.
  induction src as [|b l IH]; [done |]. cbn [nibbles List.flat_map app]. fold (nibbles l). rewrite IH, app_assoc, <- bits_byte. done.
Qed.

Lemma huff_text_app a b : huff_text (a ++ b) = huff_text a ++ huff_text b.
Proof. apply List.flat_map_app. Qed.

Lemma huff_text_length l : Forall byte l -> (5 * List.length l <= List.length (huff_text l))%nat.
Proof.
  induction 1 as [|c l Hc _ IH]; [done |]. cbn [huff_text List.flat_map]. rewrite List.length_app. fold (huff_text l).
  pose proof (char_code_length c Hc). cbn [List.length]. lia.
Qed.

(** The end of a run: the bits read are the characters written and a path. *)
Lemma run_nibbles_sound ns q e d :
  byte q -> Forall nibble ns ->
  exists rc q' e' l, run_nibbles ns (mk_decoder q e d) = (rc, mk_decoder q' e' (d ++ l)) /\ byte q' /\ Forall byte l /\
    (5 * List.length l + List.length (path q') <= List.length (path q) + 4 * List.length ns)%nat /\
    (rc = NGX_OK -> path q ++ List.flat_map (bits 4) ns = huff_text l ++ path q' /\
       e' = match ns with [] => e | _ => Z.b2z (is_ones (path q')) end).
Proof.
  intros Hq Hns. revert q e d Hq. induction Hns as [|n ns Hn _ IH]; intros q e d Hq.
  { exists NGX_OK, q, e, []. cbn. rewrite !app_nil_r. split_ands; first [done | lia | constructor]. }
  cbn [run_nibbles]. destruct (decode_bits_cases q e d n Hq Hn) as [[E _] | (q1 & l1 & E & Hq1 & Hl1 & Ep & _)]; rewrite E.
  - cbn [negb Z.eqb NGX_ERROR NGX_OK]. exists NGX_ERROR, q, e, []. rewrite app_nil_r.
    split_ands; first [done | cbn [List.length]; lia | constructor].
  - change (NGX_OK =? NGX_OK) with true. cbn [negb].
    destruct (IH q1 (Z.b2z (is_ones (path q1))) (d ++ l1) Hq1) as (rc & q' & e' & l & R & Hq' & Hl & Hlen & HOK).
    exists rc, q', e', (l1 ++ l). rewrite app_assoc. split; [exact R |]. split; [exact Hq' |].
    split; [now apply Forall_app |]. pose proof (f_equal (@List.length _) Ep) as El.
    rewrite !List.length_app, length_bits in El. pose proof (huff_text_length l1 Hl1). rewrite List.length_app.
    split; [cbn [List.length]; lia |]. intros Hrc. destruct (HOK Hrc) as [E1 E2].
    cbn [List.flat_map]. rewrite app_assoc, Ep, <- app_assoc, E1, huff_text_app, app_assoc. split; [done |].
    rewrite E2. destruct ns; [| done]. cbn in R. injection R as <- <- <- _. done.
Qed.

#[local] Arguments path : simpl never.
#[local] Arguments char_code : simpl never.
#[local] Arguments huff_tree : simpl never.

(** A sequence of codes and ones that starts with a character's code. *)
Lemma text_starts l k c r : Forall byte l -> byte c -> (k < 30)%nat ->
  char_code c ++ r = huff_text l ++ ones k -> exists l', l = c :: l' /\ r = huff_text l' ++ ones k.
Proof.
  intros Hl Hc Hk E. pose proof (read_code c r Hc) as Q. rewrite E in Q. destruct Hl as [|c' l Hc' Hl].
  - cbn [huff_text List.flat_map app] in Q. now rewrite read_ones in Q.
  - cbn [huff_text List.flat_map] in Q. rewrite <- app_assoc, (read_code c' _ Hc') in Q. injection Q as -> <-. eauto.
Qed.

Lemma text_no_thirty l k m : Forall byte l -> (k < 30)%nat -> ones 30 ++ m <> huff_text l ++ ones k.
Proof.
  intros Hl Hk E. pose proof (read_thirty m) as Q. rewrite E in Q. destruct Hl as [|c l Hc Hl].
  - pose proof (f_equal (@List.length _) E) as El. rewrite !List.length_app in El. cbn [huff_text List.flat_map List.length] in El.
    unfold ones in El. rewrite !List.repeat_length in El. lia.
  - cbn [huff_text List.flat_map] in Q. now rewrite <- app_assoc, (read_code c _ Hc) in Q.
Qed.

Lemma run_nibbles_complete ns q e d l k :
  byte q -> Forall nibble ns -> Forall byte l -> (k < 30)%nat ->
  path q ++ List.flat_map (bits 4) ns = huff_text l ++ ones k ->
  exists q' e', run_nibbles ns (mk_decoder q e d) = (NGX_OK, mk_decoder q' e' (d ++ l)) /\ byte q' /\ path q' = ones k /\
    e' = match ns with [] => e | _ => 1 end.
Proof.
  intros Hq Hns Hl Hk. revert q e d l Hq Hl. induction Hns as [|n ns Hn _ IH]; intros q e d l Hq Hl E.
  { cbn in E. rewrite app_nil_r in E. pose proof (read_path q Hq) as Q. rewrite E in Q. destruct Hl as [|c l Hc Hl].
    - exists q, e. cbn. rewrite app_nil_r. split_ands; done.
    - cbn [huff_text List.flat_map] in Q. now rewrite <- app_assoc, (read_code c _ Hc) in Q. }
  cbn [run_nibbles]. cbn [List.flat_map] in E. rewrite app_assoc in E.
  destruct (decode_bits_cases q e d n Hq Hn) as [[_ [m Em]] | (q1 & l1 & R & Hq1 & Hl1 & Ep & Hone)].
  { exfalso. rewrite Em, <- app_assoc in E. now apply text_no_thirty in E. }
  rewrite R. change (NGX_OK =? NGX_OK) with true. cbn [negb]. rewrite Ep, <- app_assoc in E.
  assert (exists l2, l = l1 ++ l2 /\ path q1 ++ List.flat_map (bits 4) ns = huff_text l2 ++ ones k) as (l2 & -> & E2).
  { destruct Hl1 as [|c l1 Hc Hl1]; [exists l; done |]. destruct l1; [| cbn in Hone; lia].
    cbn [huff_text List.flat_map] in E. rewrite app_nil_r in E. destruct (text_starts l k c _ Hl Hc Hk E) as (l' & -> & E'). now exists l'. }
  apply Forall_app in Hl as [_ Hl2].
  destruct (IH q1 (Z.b2z (is_ones (path q1))) (d ++ l1) l2 Hq1 Hl2 E2) as (q' & e' & R' & Hq' & Hp & He').
  exists q', e'. rewrite app_assoc. split_ands; try done. rewrite He'. destruct ns; [| done].
  cbn in R'. injection R' as -> _. rewrite Hp. unfold is_ones, ones. now rewrite (proj2 (List.forallb_forall _ _)) by (intros x Hx; now apply List.repeat_spec in Hx).
Qed.

(** ** The decoder *)

Lemma huff_decode_spec src out :
  Forall byte src ->
  ngx_http_huff_decode 0 src [] true = (NGX_OK, 0, out) <->
  Forall byte out /\ exists k, (k < 30)%nat /\ bits_of_bytes src = huff_text out ++ ones k.
Proof.
  intros Hsrc. unfold ngx_http_huff_decode. rewrite decode_loop_nibbles. pose proof (nibbles_ok src Hsrc) as Hns.
  rewrite <- nibbles_bits. assert (byte 0) as H0 by (unfold byte; lia). split.
  - destruct (run_nibbles_sound (nibbles src) 0 1 [] H0 Hns) as (rc & q' & e' & l & R & Hq' & Hl & _ & HOK).
    rewrite R. destruct (Z.eqb_spec rc NGX_OK) as [-> | Hrc]; cbn [negb hd_ending hd_dst hd_state app]; [| discriminate].
    destruct (HOK eq_refl) as [E1 E2]. destruct (Z.eqb_spec e' 0) as [| He]; [discriminate |]. intros [= <-].
    split; [done |]. exists (List.length (path q')). split; [now apply length_path |].
    change (path 0) with (@nil bool) in E1. cbn [app] in E1. rewrite E1. f_equal. apply is_ones_spec.
    destruct (nibbles src); [| destruct (is_ones (path q')); [done | now destruct He]].
    cbn in R. injection R as <- _ _. done.
  - intros (Hout & k & Hk & E).
    destruct (run_nibbles_complete (nibbles src) 0 1 [] out k H0 Hns Hout Hk) as (q' & e' & R & _ & _ & He); [now rewrite E |].
    rewrite R. cbn [negb hd_ending hd_dst app]. replace e' with 1 by now destruct (nibbles src). done.
Qed.

(** The pieces of a string that arrive one after the other, with [last] for
    the last one only. *)
Fixpoint huff_decode_pieces (state : Z) (pieces : list (list Z)) (last dst : list Z) : Z * Z * list Z :=
  match pieces with
  | [] => ngx_http_huff_decode state last dst true
  | p :: pieces' =>
      let '(rc, state, dst) := ngx_http_huff_decode state p dst false in
      if negb (rc =? NGX_OK) then (rc, state, dst) else huff_decode_pieces state pieces' last dst
  end.

Lemma run_nibbles_app a b h :
  run_nibbles (a ++ b) h = (let '(rc, h') := run_nibbles a h in if negb (rc =? NGX_OK) then (NGX_ERROR, h') else run_nibbles b h').
Proof.
  revert h. induction a as [|n a IH]; intros h; [cbn; now destruct (run_nibbles b h) |]. cbn [app run_nibbles].
  destruct (ngx_http_huff_decode_bits n h) as [rc h1]. destruct (negb (rc =? NGX_OK)) eqn:E; [done |]. apply IH.
Qed.

Lemma run_nibbles_ending ns q e e' d : ns <> [] ->
  fst (run_nibbles ns (mk_decoder q e d)) = fst (run_nibbles ns (mk_decoder q e' d)) /\
  hd_state (snd (run_nibbles ns (mk_decoder q e d))) = hd_state (snd (run_nibbles ns (mk_decoder q e' d))) /\
  hd_dst (snd (run_nibbles ns (mk_decoder q e d))) = hd_dst (snd (run_nibbles ns (mk_decoder q e' d))) /\
  (fst (run_nibbles ns (mk_decoder q e d)) = NGX_OK ->
   hd_ending (snd (run_nibbles ns (mk_decoder q e d))) = hd_ending (snd (run_nibbles ns (mk_decoder q e' d)))).
Proof.
  destruct ns as [|n ns]; [done |]. intros _. cbn [run_nibbles]. unfold ngx_http_huff_decode_bits. cbn [hd_state hd_dst].
  destruct (hc_next _ =? q); cbn [negb]; [split_ands; done | split_ands; done].
Qed.

(** a string that arrives in pieces is decoded to the same result as in
    one; the last piece is not empty. *)
Theorem huff_decode_any_split state pieces last dst :
  last <> [] ->
  huff_decode_pieces state pieces last dst = ngx_http_huff_decode state (List.concat pieces ++ last) dst true.
Proof.
  intros Hlast. revert state dst. induction pieces as [|p pieces IH]; intros state dst; [done |].
  cbn [huff_decode_pieces List.concat]. unfold ngx_http_huff_decode at 1 2. rewrite !decode_loop_nibbles.
  replace (nibbles ((p ++ List.concat pieces) ++ last)) with (nibbles p ++ nibbles (List.concat pieces ++ last))
    by (rewrite <- app_assoc; symmetry; apply List.flat_map_app).
  rewrite run_nibbles_app. destruct (run_nibbles (nibbles p) (mk_decoder state 1 dst)) as [rc [q e d]].
  destruct (negb (rc =? NGX_OK)) eqn:E; cbn [hd_state hd_dst]; [done |].
  change (NGX_OK =? NGX_OK) with true. cbn [negb]. rewrite IH. unfold ngx_http_huff_decode. rewrite decode_loop_nibbles.
  assert (nibbles (List.concat pieces ++ last) <> []) as Hne.
  { destruct (List.concat pieces) as [|c cs]; [destruct last; done | done]. }
  destruct (run_nibbles_ending _ q 1 e d Hne) as (E1 & E2 & E3 & E4).
  destruct (run_nibbles _ (mk_decoder q 1 d)) as [rc1 h1], (run_nibbles _ (mk_decoder q e d)) as [rc2 h2].
  cbn [fst snd] in *. subst rc2. rewrite E2, E3. destruct (Z.eqb_spec rc1 NGX_OK) as [-> |]; cbn [negb]; [| done]. now rewrite E4.
Qed.

(** What the decoder writes, on any input and in any number of calls since
    the start of a string, fits in the memory that
    [ngx_http_v2_state_field_len] allocates for it: 8/5 of the length. *)
Theorem huff_decode_fits state src dst last read :
  byte state -> Forall byte src ->
  5 * Z.of_nat (List.length dst) + Z.of_nat (List.length (path state)) <= 8 * read ->
  let '(rc, state', dst') := ngx_http_huff_decode state src dst last in
  Z.of_nat (List.length dst') <= (read + Z.of_nat (List.length src)) * 8 / 5 /\ byte state' /\
  5 * Z.of_nat (List.length dst') + Z.of_nat (List.length (path state')) <= 8 * (read + Z.of_nat (List.length src)).
Proof.
  intros Hq Hsrc Hread. unfold ngx_http_huff_decode. rewrite decode_loop_nibbles.
  destruct (run_nibbles_sound (nibbles src) state 1 dst Hq (nibbles_ok src Hsrc)) as (rc & q' & e' & l & R & Hq' & Hl & Hlen & _).
  rewrite R. cbn [hd_state hd_dst hd_ending].
  assert (List.length (nibbles src) = (2 * List.length src)%nat) as El.
  { clear. induction src as [|c src IH]; [done |]. cbn [nibbles List.flat_map app List.length]. fold (nibbles src). lia. }
  assert (5 * Z.of_nat (List.length (dst ++ l)) + Z.of_nat (List.length (path q')) <= 8 * (read + Z.of_nat (List.length src)))
    as Hb by (rewrite List.length_app; lia).
  assert (Z.of_nat (List.length (dst ++ l)) <= (read + Z.of_nat (List.length src)) * 8 / 5) as Hd
    by (apply Z.div_le_lower_bound; lia).
  destruct (negb (rc =? NGX_OK)); [done |]. destruct last; [| done]. destruct (e' =? 0); [done |].
  split_ands; [done | unfold byte; lia | change (path 0) with (@nil bool); cbn [List.length]; lia].
Qed.

(** A string may end in eight ones and more, although the specification of
    HPACK wants fewer: one byte 255 is the empty string. *)
Example huff_long_padding : ngx_http_huff_decode 0 [0xff] [] true = (NGX_OK, 0, []).
Proof. reflexivity. Qed.

(** ** The encoder *)

(** What the table and the loop compute on: each code is as long as it says. *)
Definition table_ok (table : list ngx_http_huff_encode_code_t) : bool :=
  forall_bytes (fun c => let e := nth (Z.to_nat c) table (ecode 0 0) in
    (5 <=? ec_len e) && (ec_len e <=? 30) && small (ec_code e) (2 ^ ec_len e)).

Lemma tables_ok : table_ok ngx_http_huff_encode_table && table_ok ngx_http_huff_encode_table_lc = true.
Proof. vm_compute. reflexivity. Qed.

Lemma table_lc : forall_bytes (fun c => list_beq (code_bits (nth (Z.to_nat c) ngx_http_huff_encode_table_lc (ecode 0 0)))
  (char_code (ngx_tolower c)) && small (ngx_tolower c) 256) = true.
Proof. vm_compute. reflexivity. Qed.

Definition text_by (table : list ngx_http_huff_encode_code_t) (s : list Z) : list bool :=
  List.flat_map (fun c => code_bits (nth (Z.to_nat c) table (ecode 0 0))) s.

Lemma table_code table c : table_ok table = true -> byte c ->
  let e := nth (Z.to_nat c) table (ecode 0 0) in
  ec_code e = value (code_bits e) /\ ec_len e = Z.of_nat (List.length (code_bits e)) /\ (5 <= List.length (code_bits e) <= 30)%nat.
Proof.
  intros Ht Hc. pose proof (forall_bytes_spec _ Ht c Hc) as Q. cbv beta zeta in Q |- *.
  set (e := nth (Z.to_nat c) table (ecode 0 0)) in *. clearbody e. apply andb_prop in Q as [Q Q3]. apply andb_prop in Q as [Q1 Q2].
  apply Z.leb_le in Q1, Q2. apply small_spec in Q3. unfold code_bits. rewrite length_bits.
  rewrite value_bits by (rewrite Z2Nat.id; lia). split_ands; lia.
Qed.

(** The pending bits [P] at the top of the buffer. *)
Definition held (P : list bool) : Z := value P * 2 ^ (64 - Z.of_nat (List.length P)).

Lemma held_add P C :
  (List.length P + List.length C <= 64)%nat ->
  Z.lor (held P) (value C * 2 ^ (64 - Z.of_nat (List.length P + List.length C))) = held (P ++ C).
Proof.
  intros H. unfold held. pose proof (value_range C). rewrite <- Z.shiftl_mul_pow2 by lia.
  rewrite Z.lor_comm, Z.lor_comm, lor_shiftl_add; [| lia |].
  - rewrite value_app, List.length_app, Nat2Z.inj_add.
    replace (64 - Z.of_nat (List.length P)) with (Z.of_nat (List.length C) + (64 - (Z.of_nat (List.length P) + Z.of_nat (List.length C)))) by lia.
    rewrite Z.pow_add_r by lia. ring.
  - split; [apply Z.mul_nonneg_nonneg; lia |].
    replace (64 - Z.of_nat (List.length P)) with (Z.of_nat (List.length C) + (64 - Z.of_nat (List.length P + List.length C))) by lia.
    rewrite Z.pow_add_r by lia. apply Z.mul_lt_mono_pos_r; lia.
Qed.

Lemma encode_buf_bits z : bits_of_bytes (ngx_http_huff_encode_buf z) = bits 64 z.
Proof.
  change (bits 64 z) with (bits (8 + (8 + (8 + (8 + (8 + (8 + (8 + (8 + 0)))))))) z).
  unfold ngx_http_huff_encode_buf. cbn [List.map bits_of_bytes List.flat_map]. rewrite !bits_byte_mod, !bits_app. reflexivity.
Qed.

Lemma encode_buf_bytes z : Forall byte (ngx_http_huff_encode_buf z) /\ List.length (ngx_http_huff_encode_buf z) = 8%nat.
Proof. split; [| done]. unfold ngx_http_huff_encode_buf. repeat constructor; apply Z.mod_pos_bound; lia. Qed.

Lemma held_full P : List.length P = 64%nat -> bits 64 (held P) = P.
Proof. intros H. unfold held. rewrite H. change (64 - Z.of_nat 64) with 0. rewrite Z.mul_1_r, <- H. apply bits_value. Qed.

(** The word after the one that is full. *)
Lemma held_carry C1 C2 :
  (0 < List.length C1)%nat -> (List.length C2 < 64)%nat ->
  (if Z.of_nat (List.length C2) =? 0 then 0 else u64 (Z.shiftl (value (C1 ++ C2)) (64 - Z.of_nat (List.length C2)))) = held C2.
Proof.
  intros H1 H2. unfold held. destruct (Z.eqb_spec (Z.of_nat (List.length C2)) 0) as [E | E].
  - destruct C2; [done | cbn in E; lia].
  - pose proof (value_range C2). rewrite Z.shiftl_mul_pow2 by lia. unfold u64.
    rewrite value_app, Z.mul_add_distr_r, <- Z.mul_assoc, <- Z.pow_add_r by lia.
    replace (Z.of_nat (List.length C2) + (64 - Z.of_nat (List.length C2))) with 64 by lia.
    rewrite Z.add_comm, Z.mod_add, Z.mod_small; [done | | lia]. split; [apply Z.mul_nonneg_nonneg; lia |].
    replace (2 ^ 64) with (2 ^ Z.of_nat (List.length C2) * 2 ^ (64 - Z.of_nat (List.length C2)))
      by (rewrite <- Z.pow_add_r by lia; f_equal; lia).
    apply Z.mul_lt_mono_pos_r; lia.
Qed.

(** The loop: the words written and the bits held are the codes so far; it
    gives up when the words are no fewer than the [len] bytes. *)
Lemma huff_encode_loop_spec table len src dst P :
  table_ok table = true -> Forall byte src -> (List.length P < 64)%nat -> Forall byte dst ->
  (dst = [] \/ Z.of_nat (List.length dst) < len) ->
  let r := huff_encode_loop table len src dst (held P) (Z.of_nat (List.length P)) in
  let total := bits_of_bytes dst ++ P ++ text_by table src in
  (r = None /\ 8 * len <= Z.of_nat (List.length total)) \/
  (exists dst' P', r = Some (dst', held P', Z.of_nat (List.length P')) /\ (List.length P' < 64)%nat /\ Forall byte dst' /\
    bits_of_bytes dst' ++ P' = total /\ (dst' = [] \/ Z.of_nat (List.length dst') < len)).
Proof.
  intros Ht Hsrc. revert dst P. induction Hsrc as [|c src Hc _ IH]; intros dst P HP Hd Hlt; cbv zeta; cbn [huff_encode_loop].
  { right. exists dst, P. cbn. rewrite app_nil_r. split_ands; done. }
  destruct (table_code table c Ht Hc) as (Ev & El & Hlen). cbv zeta in Ev, El, Hlen.
  cbn [text_by List.flat_map]. fold (text_by table src).
  set (e := nth (Z.to_nat c) table (ecode 0 0)) in *. set (C := code_bits e) in *. clearbody C. rewrite Ev, El.
  rewrite <- Nat2Z.inj_add. pose proof (value_range C) as HC.
  destruct (Z.ltb_spec (Z.of_nat (List.length P + List.length C)) 64) as [Hs | Hs].
  - unfold u64. rewrite Z.shiftl_mul_pow2 by lia. rewrite Z.mod_small.
    2:{ split; [apply Z.mul_nonneg_nonneg; lia |].
        apply Z.lt_le_trans with (2 ^ Z.of_nat (List.length C) * 2 ^ (64 - Z.of_nat (List.length P + List.length C))).
        - apply Z.mul_lt_mono_pos_r; lia.
        - rewrite <- Z.pow_add_r by lia. apply Z.pow_le_mono_r; lia. }
    rewrite held_add, <- List.length_app by lia.
    specialize (IH dst (P ++ C) ltac:(rewrite List.length_app; lia) Hd Hlt). cbv zeta in IH. now rewrite <- app_assoc in IH.
  - destruct (Z.leb_spec len (Z.of_nat (List.length dst) + 8)) as [Hl | Hl].
    + left. split; [done |]. rewrite !List.length_app, length_bits_of_bytes. lia.
    + destruct (List.firstn_skipn (64 - List.length P) C). set (n := (64 - List.length P)%nat) in *.
      pose proof (List.length_firstn n C) as L1. pose proof (List.length_skipn n C) as L2.
      set (C1 := List.firstn n C) in *. set (C2 := List.skipn n C) in *. clearbody C1 C2. rewrite List.length_app in *.
      replace (Z.of_nat (List.length P + (List.length C1 + List.length C2)) - 64) with (Z.of_nat (List.length C2)) by lia.
      rewrite shiftr_value, held_carry by lia.
      assert (Z.lor (held P) (value C1) = held (P ++ C1)) as ->.
      { rewrite <- held_add by lia. f_equal. replace (64 - Z.of_nat (List.length P + List.length C1)) with 0 by lia. lia. }
      destruct (encode_buf_bytes (held (P ++ C1))) as [Hb Hbl].
      specialize (IH (dst ++ ngx_http_huff_encode_buf (held (P ++ C1))) C2 ltac:(lia) ltac:(now apply Forall_app)
        ltac:(right; rewrite List.length_app, Hbl; lia)).
      cbv zeta in IH. rewrite bits_of_bytes_app, encode_buf_bits, held_full in IH by (rewrite List.length_app; lia).
      rewrite <- !app_assoc in IH. rewrite <- (app_assoc C1 C2). exact IH.
Qed.

Lemma ngx_align_8 n : 0 <= n -> ngx_align n 8 = 8 * ((n + 7) / 8).
Proof.
  intros H. unfold ngx_align. change (8 - 1) with 7. change (Z.land (n + 7) (Z.lnot 7)) with (Z.land (n + 7) (Z.lnot (Z.ones 3))).
  rewrite <- Z.ldiff_land, Z.ldiff_ones_r, Z.shiftl_mul_pow2, Z.shiftr_div_pow2 by lia. change (2 ^ 3) with 8. lia.
Qed.

Lemma encode_rest_bits n buf : (0 < n)%nat ->
  bits_of_bytes (huff_encode_rest n buf (8 * Z.of_nat n)) = bits (8 * n) buf /\
  List.length (huff_encode_rest n buf (8 * Z.of_nat n)) = n /\ Forall byte (huff_encode_rest n buf (8 * Z.of_nat n)).
Proof.
  induction n as [|n IH]; intros Hn; [lia |]. cbn [huff_encode_rest].
  replace (8 * Z.of_nat (S n) - 8) with (8 * Z.of_nat n) by lia.
  assert (byte (Z.shiftr buf (8 * Z.of_nat n) mod 256)) as Hb by (apply Z.mod_pos_bound; lia).
  replace (8 * S n)%nat with (8 + 8 * n)%nat by lia. rewrite bits_app.
  replace (Z.of_nat (8 * n)) with (8 * Z.of_nat n) by lia.
  destruct (Z.eqb_spec (8 * Z.of_nat n) 0) as [E | E].
  - assert (n = 0%nat) as -> by lia. cbn [bits_of_bytes List.flat_map]. rewrite bits_byte_mod.
    split_ands; [done | done | now constructor].
  - destruct (IH ltac:(lia)) as (E1 & E2 & E3). cbn [bits_of_bytes List.flat_map List.length]. fold (bits_of_bytes (huff_encode_rest n buf (8 * Z.of_nat n))).
    rewrite bits_byte_mod, E1, E2. split_ands; [done | done | now constructor].
Qed.

(** [e] are the bytes whose bits are [b] and then fewer than eight ones. *)
Definition packs (e : list Z) (b : list bool) : Prop :=
  Forall byte e /\ exists k, (k < 8)%nat /\ bits_of_bytes e = b ++ ones k.

Lemma ones_app n m : ones (n + m) = ones n ++ ones m.
Proof. apply List.repeat_app. Qed.

Lemma length_ones n : List.length (ones n) = n.
Proof. apply List.repeat_length. Qed.

(** The last bits, filled up with ones. *)
Lemma fill_rest P n : (0 < List.length P < 64)%nat -> n = ((List.length P + 7) / 8)%nat ->
  let buf := Z.lor (held P) (Z.shiftr (2 ^ 64 - 1) (Z.of_nat (List.length P))) in
  let pending := ngx_align (Z.of_nat (List.length P)) 8 in
  pending = 8 * Z.of_nat n /\
  packs (huff_encode_rest n (Z.shiftr buf (64 - pending)) pending) P /\
  List.length (huff_encode_rest n (Z.shiftr buf (64 - pending)) pending) = n.
Proof.
  intros HP Hn. cbv zeta.
  assert (ngx_align (Z.of_nat (List.length P)) 8 = 8 * Z.of_nat n) as Hpend.
  { rewrite ngx_align_8 by lia. rewrite Hn, Nat2Z.inj_div. do 2 f_equal. lia. }
  rewrite Hpend. split; [done |].
  assert (List.length P <= 8 * n < List.length P + 8)%nat as Hr.
  { subst n. pose proof (Nat.div_mod (List.length P + 7) 8 ltac:(lia)). pose proof (Nat.mod_upper_bound (List.length P + 7) 8 ltac:(lia)). lia. }
  assert (Z.lor (held P) (Z.shiftr (2 ^ 64 - 1) (Z.of_nat (List.length P))) = held (P ++ ones (64 - List.length P))) as ->.
  { rewrite <- held_add by (rewrite length_ones; lia). f_equal. rewrite length_ones.
    replace (64 - Z.of_nat (List.length P + (64 - List.length P))) with 0 by lia. rewrite Z.mul_1_r. unfold ones. rewrite value_ones.
    change (2 ^ 64 - 1) with (Z.ones 64). rewrite Z.shiftr_div_pow2, Z.ones_div_pow2 by lia. rewrite Z.ones_equiv.
    replace (64 - Z.of_nat (List.length P)) with (Z.of_nat (64 - List.length P)) by lia. lia. }
  assert (Z.shiftr (held (P ++ ones (64 - List.length P))) (64 - 8 * Z.of_nat n) = value (P ++ ones (8 * n - List.length P))) as ->.
  { unfold held. rewrite List.length_app, length_ones. replace (64 - Z.of_nat (List.length P + (64 - List.length P))) with 0 by lia.
    rewrite Z.mul_1_r. replace (64 - List.length P)%nat with ((8 * n - List.length P) + (64 - 8 * n))%nat by lia.
    rewrite ones_app, app_assoc. replace (64 - 8 * Z.of_nat n) with (Z.of_nat (List.length (ones (64 - 8 * n)))) by (rewrite length_ones; lia).
    apply shiftr_value. }
  destruct (encode_rest_bits n (value (P ++ ones (8 * n - List.length P))) ltac:(lia)) as (E1 & E2 & E3).
  split; [| exact E2]. split; [exact E3 |]. exists (8 * n - List.length P)%nat. split; [lia |]. rewrite E1.
  replace (8 * n)%nat with (List.length (P ++ ones (8 * n - List.length P))) at 1 by (rewrite List.length_app, length_ones; lia).
  apply bits_value.
Qed.

Lemma text_lc src : Forall byte src -> text_by ngx_http_huff_encode_table_lc src = huff_text (ngx_strlow src).
Proof.
  induction 1 as [|c src Hc _ IH]; [done |]. cbn [text_by huff_text ngx_strlow List.map List.flat_map].
  fold (text_by ngx_http_huff_encode_table_lc src). rewrite IH. f_equal.
  pose proof (forall_bytes_spec _ table_lc c Hc) as Q. cbv beta in Q. apply andb_prop in Q as [Q _]. now apply list_beq_eq in Q.
Qed.

Lemma strlow_bytes src : Forall byte src -> Forall byte (ngx_strlow src).
Proof.
  induction 1 as [|c src Hc _ IH]; [constructor |]. constructor; [| exact IH].
  pose proof (forall_bytes_spec _ table_lc c Hc) as Q. cbv beta in Q. apply andb_prop in Q as [_ Q]. now apply small_spec in Q.
Qed.

(** The string that is encoded. *)
Definition lowered (src : list Z) (lower : bool) : list Z := if lower then ngx_strlow src else src.

Lemma huff_encode_spec src lower :
  Forall byte src ->
  let text := huff_text (lowered src lower) in
  if (Z.of_nat (List.length text) + 7) / 8 <? Z.of_nat (List.length src)
  then packs (ngx_http_huff_encode src lower) text else ngx_http_huff_encode src lower = [].
Proof.
  intros Hsrc. cbv zeta. unfold ngx_http_huff_encode, lowered.
  set (table := if lower then ngx_http_huff_encode_table_lc else ngx_http_huff_encode_table). set (len := Z.of_nat (List.length src)).
  replace (huff_text (if lower then ngx_strlow src else src)) with (text_by table src)
    by (unfold table; destruct lower; [now apply text_lc | done]).
  assert (table_ok table = true) as Ht.
  { pose proof tables_ok as Q. apply andb_prop in Q as [Q1 Q2]. unfold table. now destruct lower. }
  pose proof (huff_encode_loop_spec table len src [] [] Ht Hsrc ltac:(cbn; lia) ltac:(constructor) ltac:(now left)) as Q. cbv zeta in Q.
  change (held []) with 0 in Q. change (Z.of_nat (List.length (@nil bool))) with 0 in Q. cbn [bits_of_bytes List.flat_map app] in Q.
  assert (src = [] -> text_by table src = []) as Hnil by (now intros ->).
  set (text := text_by table src) in *. clearbody text.
  pose proof (Z.div_mod (Z.of_nat (List.length text) + 7) 8 ltac:(lia)) as Hdiv.
  pose proof (Z.mod_pos_bound (Z.of_nat (List.length text) + 7) 8 ltac:(lia)) as Hmod.
  set (n := (Z.of_nat (List.length text) + 7) / 8) in *.
  destruct Q as [[-> Hlen] | (dst & P & -> & HP & Hd & E & Hlt)].
  { destruct (Z.ltb_spec n len); [lia | done]. }
  pose proof (f_equal (@List.length _) E) as El. rewrite List.length_app, length_bits_of_bytes in El.
  destruct (Z.eqb_spec (Z.of_nat (List.length P)) 0) as [E0 | E0].
  - destruct P; [| cbn in E0; lia]. rewrite app_nil_r in E. cbn [List.length] in El.
    destruct (Z.ltb_spec n len) as [Hn | Hn]; [| destruct Hlt as [-> | Hlt]; [done | lia]].
    split; [done |]. exists 0%nat. split; [lia |]. cbn. now rewrite app_nil_r.
  - destruct (fill_rest P ((List.length P + 7) / 8) ltac:(lia) eq_refl) as (E1 & [Hp (k & Hk & Ek)] & Hl). cbv zeta in *.
    set (m := ((List.length P + 7) / 8)%nat) in *.
    pose proof (f_equal (@List.length _) Ek) as El2. rewrite length_bits_of_bytes, Hl, List.length_app, length_ones in El2.
    rewrite E1 in *. replace (8 * Z.of_nat m / 8) with (Z.of_nat m) by (symmetry; rewrite Z.mul_comm; apply Z.div_mul; lia).
    rewrite Nat2Z.id. assert (n = Z.of_nat (List.length dst) + Z.of_nat m) as -> by lia.
    destruct (Z.ltb_spec (Z.of_nat (List.length dst) + Z.of_nat m) len), (Z.leb_spec len (Z.of_nat (List.length dst) + Z.of_nat m)); try lia; [| done].
    split; [now apply Forall_app |]. exists k. split; [done |]. now rewrite bits_of_bytes_app, Ek, app_assoc, E.
Qed.

Lemma lowered_bytes src lower : Forall byte src -> Forall byte (lowered src lower).
Proof. intros H. destruct lower; [now apply strlow_bytes | done]. Qed.

(** What the encoder writes, the decoder reads back, in small letters if
    asked; the encoder answers 0 exactly when the codes, filled up to whole
    bytes, are not shorter than the string. *)
Theorem huff_encode_round_trip src lower :
  Forall byte src ->
  let size := (Z.of_nat (List.length (huff_text (lowered src lower))) + 7) / 8 in
  let code := ngx_http_huff_encode src lower in
  if size <? Z.of_nat (List.length src)
  then Z.of_nat (List.length code) = size /\ ngx_http_huff_decode 0 code [] true = (NGX_OK, 0, lowered src lower)
  else code = [].
Proof.
  intros Hsrc. cbv zeta. pose proof (huff_encode_spec src lower Hsrc) as Q. cbv zeta in Q.
  destruct (_ <? _) in Q |- *; [| done]. destruct Q as (He & k & Hk & E). split.
  - pose proof (f_equal (@List.length _) E) as El. rewrite length_bits_of_bytes, List.length_app, length_ones in El.
    apply Z.div_unique with (7 - Z.of_nat k); lia.
  - apply huff_decode_spec; [exact He |]. split; [now apply lowered_bytes |]. exists k. split; [lia | exact E].
Qed.

(** C28: the decoder accepts exactly the codes of strings followed by fewer than
    thirty ones, and returns the string. *)
Theorem huff_decode_exact src :
  Forall byte src ->
  (exists out k, Forall byte out /\ (k < 30)%nat /\ bits_of_bytes src = huff_text out ++ ones k /\
     ngx_http_huff_decode 0 src [] true = (NGX_OK, 0, out)) \/
  (forall out k, Forall byte out -> (k < 30)%nat -> bits_of_bytes src <> huff_text out ++ ones k) /\
  fst (fst (ngx_http_huff_decode 0 src [] true)) = NGX_ERROR.
Proof.
  intros Hsrc. pose proof (fun out => huff_decode_spec src out Hsrc) as Q. cbv beta in Q.
  assert (forall r, r = ngx_http_huff_decode 0 src [] true -> fst (fst r) = NGX_ERROR \/ exists out, r = (NGX_OK, 0, out)) as Hr.
  { intros r ->. unfold ngx_http_huff_decode. destruct (huff_decode_loop _ _) as [rc h].
    destruct (negb (rc =? NGX_OK)); [now left |]. destruct (hd_ending h =? 0); [now left | right; eauto]. }
  destruct (Hr _ eq_refl) as [He | [out E]].
  - right. split; [| exact He]. intros out k Hout Hk E. rewrite (proj2 (Q out)) in He by eauto. discriminate.
  - left. destruct (proj1 (Q out) E) as (Hout & k & Hk & Eb). exists out, k. now split_ands.
Qed.

Lemma huff_encode_round_trip_witness :
  let size := 12 in
  let code := ngx_http_huff_encode str "WWW.example.com" true in
  Z.of_nat (List.length code) = size /\ ngx_http_huff_decode 0 code [] true = (NGX_OK, 0, str "www.example.com").
Proof.
  refine (huff_encode_round_trip str "WWW.example.com" true _). repeat constructor; discriminate.
Defined.

Lemma huff_decode_exact_witness :
  (exists out k, Forall byte out /\ (k < 30)%nat /\ bits_of_bytes [0xf1; 0xe3; 0xff] = huff_text out ++ ones k /\
     ngx_http_huff_decode 0 [0xf1; 0xe3; 0xff] [] true = (NGX_OK, 0, out)) \/
  (forall out k, Forall byte out -> (k < 30)%nat -> bits_of_bytes [0xf1; 0xe3; 0xff] <> huff_text out ++ ones k) /\
  fst (fst (ngx_http_huff_decode 0 [0xf1; 0xe3; 0xff] [] true)) = NGX_ERROR.
Proof. refine (huff_decode_exact [0xf1; 0xe3; 0xff] _). repeat constructor; discriminate. Defined.

Lemma huff_decode_any_split_witness :
  huff_decode_pieces 0 [[0xf1]; []; [0xe3]] [0xff] [] = ngx_http_huff_decode 0 [0xf1; 0xe3; 0xff] [] true.
Proof. refine (huff_decode_any_split 0 [[0xf1]; []; [0xe3]] [0xff] [] _). discriminate. Defined.

Lemma huff_decode_fits_witness :
  let '(rc, state', dst') := ngx_http_huff_decode 0 [0xf1; 0xe3] [] false in
  Z.of_nat (List.length dst') <= (0 + 2) * 8 / 5 /\ byte state' /\
  5 * Z.of_nat (List.length dst') + Z.of_nat (List.length (path state')) <= 8 * (0 + 2).
Proof.
  refine (huff_decode_fits 0 [0xf1; 0xe3] [] false 0 _ _ _); [unfold byte; lia | repeat constructor; discriminate | discriminate].
Defined.
