(* ===== verification/HpackString.v ===== *)
(** The integers and strings of HPACK: how http/v2/ngx_http_v2_encode.c writes
    them and [ngx_http_v2_parse_int] (http/v2/ngx_http_v2.c) reads them. *)
From S2P Require Import Prelude NgxHash.
From S2P Require Export HpackHuffman.

Definition NGX_HTTP_V2_INT_OCTETS : Z := 4.
Definition NGX_HTTP_V2_ENCODE_RAW : Z := 0.
Definition NGX_HTTP_V2_ENCODE_HUFF : Z := 0x80.

Definition ngx_http_v2_prefix (bits : Z) : Z := Z.shiftl 1 bits - 1.

(** ** Writing *)

Fixpoint write_int_loop (fuel : nat) (value : Z) : list Z :=
  match fuel with
  | O => []
  | S fuel' =>
      if 128 <=? value then (value mod 128 + 128) mod 256 :: write_int_loop fuel' (value / 128)
      else [value mod 256]
  end.

(** [first] is the byte at [pos] before the call; the bytes from [pos] after
    it.  Ten rounds are enough for a 64-bit value. *)
Definition ngx_http_v2_write_int (first prefix value : Z) : list Z :=
  if value <? prefix then [Z.lor first value mod 256]
  else Z.lor first prefix mod 256 :: write_int_loop 10 (value - prefix).

Definition ngx_http_v2_string_encode (src : list Z) (lower : bool) : list Z :=
  let tmp := ngx_http_huff_encode src lower in
  let hlen := Z.of_nat (List.length tmp) in
  if 0 <? hlen then ngx_http_v2_write_int NGX_HTTP_V2_ENCODE_HUFF (ngx_http_v2_prefix 7) hlen ++ tmp
  else
    ngx_http_v2_write_int NGX_HTTP_V2_ENCODE_RAW (ngx_http_v2_prefix 7) (Z.of_nat (List.length src)) ++
    (if lower then ngx_strlow src else src).

(** ** Reading *)

(** The octets after the first up to [end]: the value and the length read. *)
Fixpoint parse_int_loop (input : list Z) (used value shift : Z) : option (Z * Z) :=
  match input with
  | [] => None
  | octet :: input' =>
      let used := used + 1 in
      let value := u64 (value + u64 (Z.shiftl (Z.land octet 0x7f) shift)) in
      if octet <? 128 then Some (value, used) else parse_int_loop input' used value (shift + 7)
  end.

(** [input] are the bytes from [*pos] to [end] and [length] is
    [h2c->state.length]: the value or the error, the length left, and how far
    [*pos] moves.  [None] is a read behind [end]. *)
Definition ngx_http_v2_parse_int (length : Z) (input : list Z) (prefix : Z) : option (Z * Z * Z) :=
  match input with
  | [] => None
  | c :: rest =>
      let value := Z.land c prefix in
      if negb (value =? prefix) then
        if length =? 0 then Some (NGX_ERROR, length, 0) else Some (value, length - 1, 1)
      else
        let size := Z.of_nat (List.length input) in
        let size := if NGX_HTTP_V2_INT_OCTETS <? size then NGX_HTTP_V2_INT_OCTETS else size in
        match parse_int_loop (List.firstn (Z.to_nat (size - 1)) rest) 1 value 0 with
        | Some (value, used) =>
            if length <? used then Some (NGX_ERROR, length, 0) else Some (value, length - used, used)
        | None =>
            if length <=? size then Some (NGX_ERROR, length, 0)
            else if size =? NGX_HTTP_V2_INT_OCTETS then Some (NGX_DECLINED, length, 0)
            else Some (NGX_AGAIN, length, 0)
        end
  end.

Example write_1337 : ngx_http_v2_write_int 0 (ngx_http_v2_prefix 5) 1337 = [31; 154; 10].
Proof. reflexivity. Qed.

Example parse_1337 : ngx_http_v2_parse_int 10 [31; 154; 10; 7] (ngx_http_v2_prefix 5) = Some (1337, 7, 3).
Proof. reflexivity. Qed.

(** ** Integers *)

(** The value of octets of seven bits, the lowest first. *)
Fixpoint septets (l : list Z) : Z :=
  match l with
  | [] => 0
  | o :: l' => o mod 128 + 128 * septets l'
  end.

Lemma write_int_loop_septets fuel v :
  0 <= v < 128 ^ Z.of_nat fuel -> (0 < fuel)%nat ->
  let l := write_int_loop fuel v in
  Forall byte l /\ septets l = v /\ (forall n, (0 < n)%nat -> v < 128 ^ Z.of_nat n -> (List.length l <= n)%nat) /\
  exists l' o, l = l' ++ [o] /\ Forall (fun o => 128 <= o) l' /\ o < 128.
Proof.
  revert v. induction fuel as [|fuel IH]; intros v Hv Hf; [lia |]. cbn [write_int_loop].
  destruct (Z.leb_spec 128 v) as [H | H].
  - rewrite Nat2Z.inj_succ, Z.pow_succ_r in Hv by lia.
    assert (0 <= v / 128 < 128 ^ Z.of_nat fuel) as Hd by (split; [apply Z.div_pos; lia | apply Z.div_lt_upper_bound; lia]).
    assert (0 < fuel)%nat as Hf' by (destruct fuel; [cbn in Hd; pose proof (Z.div_str_pos v 128); lia | lia]).
    destruct (IH (v / 128) Hd Hf') as (H1 & H2 & H3 & l' & o & E & H4 & H5). cbv zeta.
    pose proof (Z.mod_pos_bound v 128 ltac:(lia)) as Hm. rewrite (Z.mod_small (v mod 128 + 128)) by lia.
    split_ands.
    + constructor; [unfold byte; lia | exact H1].
    + cbn [septets]. rewrite H2. replace (v mod 128 + 128) with (v mod 128 + 1 * 128) by lia.
      rewrite Z.mod_add, Z.mod_mod by lia. pose proof (Z.div_mod v 128). lia.
    + intros n Hn Hvn. cbn [List.length]. destruct n as [|[|n]]; [lia | cbn in Hvn; lia |].
      apply le_n_S, H3; [lia |]. apply Z.div_lt_upper_bound; [lia |]. rewrite (Nat2Z.inj_succ (S n)), Z.pow_succ_r in Hvn by lia. lia.
    + exists ((v mod 128 + 128) :: l'), o. rewrite E. split_ands; [done | constructor; [lia | done] | done].
  - cbv zeta. rewrite Z.mod_small by lia. split_ands.
    + constructor; [unfold byte; lia | constructor].
    + cbn. rewrite Z.mod_small by lia. lia.
    + intros n Hn _. cbn. lia.
    + exists [], v. split_ands; [done | constructor | done].
Qed.

Lemma parse_int_loop_septets l o rest used value shift n :
  Forall (fun o => 128 <= o) l -> Forall byte (l ++ [o]) -> o < 128 -> 0 <= value -> 0 <= shift -> (List.length l < n)%nat ->
  value + 2 ^ shift * septets (l ++ [o]) < 2 ^ 64 ->
  parse_int_loop (List.firstn n (l ++ o :: rest)) used value shift =
  Some (value + 2 ^ shift * septets (l ++ [o]), used + Z.of_nat (List.length l) + 1).
Proof.
  intros Hl Hb Ho Hv Hs Hn Hlim. revert used value shift n Hv Hs Hn Hlim.
  assert (forall l, Forall byte l -> 0 <= septets l) as Hpos.
  { induction 1 as [|x l' Hx _ IH]; cbn; [lia |]. pose proof (Z.mod_pos_bound x 128). lia. }
  assert (forall x shift, 0 <= x -> 0 <= shift -> u64 (Z.shiftl (Z.land x 0x7f) shift) = u64 (2 ^ shift * (x mod 128))) as Hterm.
  { intros x shift Hx Hs. change 0x7f with (Z.ones 7). rewrite land_low, Z.shiftl_mul_pow2 by lia. f_equal. change (2 ^ 7) with 128. lia. }
  assert (forall a b, 0 <= a -> 0 <= b -> a + b < 2 ^ 64 -> u64 (a + u64 b) = a + b) as Hu.
  { intros a b Ha Hb' Hab. unfold u64. rewrite (Z.mod_small b), Z.mod_small; lia. }
  induction Hl as [|x l Hx _ IH]; intros used value shift n Hv Hs Hn Hlim; (destruct n as [|n]; [cbn in Hn; lia |]);
    cbn [app List.firstn parse_int_loop septets List.length] in *.
  - apply Forall_inv in Hb. unfold byte in Hb. pose proof (Z.mod_pos_bound o 128 ltac:(lia)).
    pose proof (Z.pow_pos_nonneg 2 shift ltac:(lia) Hs).
    rewrite Hterm, Hu by nia. destruct (Z.ltb_spec o 128); [| lia]. f_equal. f_equal; nia.
  - pose proof (Forall_inv Hb) as Hxb. apply Forall_inv_tail in Hb. unfold byte in Hxb.
    pose proof (Z.mod_pos_bound x 128 ltac:(lia)). pose proof (Z.pow_pos_nonneg 2 shift ltac:(lia) Hs). pose proof (Hpos _ Hb).
    assert (2 ^ (shift + 7) = 2 ^ shift * 128) as Ep by (rewrite Z.pow_add_r; lia).
    rewrite Hterm, Hu by nia. destruct (Z.ltb_spec x 128); [lia |].
    rewrite (IH Hb) by (rewrite ?Ep; nia || lia). rewrite Ep. f_equal. f_equal; nia.
Qed.

Lemma prefix_ones k : 0 <= k -> ngx_http_v2_prefix k = Z.ones k.
Proof. intros H. unfold ngx_http_v2_prefix. now rewrite Z.ones_equiv, Z.shiftl_1_l. Qed.

(** The prefix of a byte whose low bits were clear. *)
Lemma land_prefix k first v :
  0 <= k <= 8 -> Z.land first (Z.ones k) = 0 -> 0 <= v < 2 ^ k -> Z.land (Z.lor first v mod 256) (Z.ones k) = v.
Proof.
  intros Hk Hf Hv. rewrite land_low by lia. change 256 with (2 ^ 8).
  replace (2 ^ 8) with (2 ^ (8 - k) * 2 ^ k) by (rewrite <- Z.pow_add_r by lia; f_equal; lia).
  rewrite Z.mod_mod_divide by apply Z.divide_factor_r.
  rewrite <- land_low, Z.land_lor_distr_l, Hf, Z.lor_0_l, land_low, Z.mod_small by lia. done.
Qed.

Lemma length_write_int k first v : 0 <= k <= 8 -> 0 <= v < ngx_http_v2_prefix k + 2 ^ 21 ->
  (List.length (ngx_http_v2_write_int first (ngx_http_v2_prefix k) v) <= 4)%nat.
Proof.
  intros Hk Hv. unfold ngx_http_v2_write_int. destruct (Z.ltb_spec v (ngx_http_v2_prefix k)); [cbn; lia |].
  destruct (write_int_loop_septets 10 (v - ngx_http_v2_prefix k)) as (_ & _ & H3 & _); [cbn; lia | lia |].
  cbn [List.length]. apply le_n_S, H3; [lia | cbn; lia].
Qed.

Lemma parse_int_write_int k first v rest length :
  1 <= k <= 8 -> byte first -> Z.land first (ngx_http_v2_prefix k) = 0 -> 0 <= v < ngx_http_v2_prefix k + 2 ^ 21 ->
  let enc := ngx_http_v2_write_int first (ngx_http_v2_prefix k) v in
  Z.of_nat (List.length enc) <= length ->
  ngx_http_v2_parse_int length (enc ++ rest) (ngx_http_v2_prefix k) =
  Some (v, length - Z.of_nat (List.length enc), Z.of_nat (List.length enc)).
Proof.
  intros Hk Hb Hf Hv. cbv zeta. unfold ngx_http_v2_write_int. rewrite prefix_ones in * by lia.
  assert (Z.ones k = 2 ^ k - 1) as Ho by (rewrite Z.ones_equiv; lia).
  pose proof (Z.pow_pos_nonneg 2 k ltac:(lia) ltac:(lia)).
  destruct (Z.ltb_spec v (Z.ones k)) as [Hs | Hs]; intros Hlen.
  - cbn [app ngx_http_v2_parse_int]. rewrite land_prefix by (done || lia).
    destruct (Z.eqb_spec v (Z.ones k)); [lia |]. cbn [negb List.length] in *. destruct (Z.eqb_spec length 0); [lia |]. done.
  - destruct (write_int_loop_septets 10 (v - Z.ones k)) as (H1 & H2 & H3 & l & o & El & H4 & H5); [cbn; lia | lia |].
    specialize (H3 3%nat ltac:(lia) ltac:(cbn; lia)). rewrite El in *. rewrite List.length_app in H3. cbn [List.length] in H3.
    cbn [app ngx_http_v2_parse_int]. rewrite land_prefix by (done || lia). rewrite Z.eqb_refl. cbn [negb].
    cbn [List.length] in *. rewrite !List.length_app in *. cbn [List.length] in *. rewrite <- app_assoc. cbn [app].
    set (size := if _ <? _ then _ else _).
    assert (List.length l < Z.to_nat (size - 1))%nat as Hsize.
    { unfold size, NGX_HTTP_V2_INT_OCTETS. case Z.ltb_spec; lia. }
    pose proof (Z.pow_le_mono_r 2 k 8 ltac:(lia) ltac:(lia)).
    rewrite parse_int_loop_septets by (rewrite ?H2; done || lia). rewrite H2, Z.mul_1_l.
    destruct (Z.ltb_spec length (1 + Z.of_nat (List.length l) + 1)); [lia |]. f_equal. f_equal; [f_equal |]; lia.
Qed.

Lemma parse_int_loop_app a b used value shift :
  match parse_int_loop a used value shift with
  | Some r => parse_int_loop (a ++ b) used value shift = Some r
  | None => match parse_int_loop (a ++ b) used value shift with Some (_, u) => used + Z.of_nat (List.length a) < u | None => True end
  end.
Proof.
  revert used value shift. induction a as [|o a IH]; intros used value shift; cbn [app parse_int_loop List.length].
  - revert used value shift. induction b as [|o b IHb]; intros; cbn [parse_int_loop]; [done |].
    destruct (o <? 128); [lia |]. specialize (IHb (used + 1) (u64 (value + u64 (Z.shiftl (Z.land o 0x7f) shift))) (shift + 7)).
    destruct (parse_int_loop b _ _ _) as [[]|]; [lia | done].
  - destruct (o <? 128); [done |].
    specialize (IH (used + 1) (u64 (value + u64 (Z.shiftl (Z.land o 0x7f) shift))) (shift + 7)).
    destruct (parse_int_loop a _ _ _); [done |]. destruct (parse_int_loop (a ++ b) _ _ _) as [[]|]; [lia | done].
Qed.

(** An integer is read the same when more bytes have arrived, unless the
    answer was to wait for them. *)
Theorem parse_int_any_split length a b prefix rc length' used :
  ngx_http_v2_parse_int length a prefix = Some (rc, length', used) -> rc <> NGX_AGAIN ->
  ngx_http_v2_parse_int length (a ++ b) prefix = Some (rc, length', used).
Proof.
  unfold ngx_http_v2_parse_int, NGX_HTTP_V2_INT_OCTETS. destruct a as [|c a]; [done |]. cbn [app].
  destruct (negb (Z.land c prefix =? prefix)); [done |]. cbn [List.length]. rewrite List.length_app.
  set (size := if 4 <? Z.of_nat (S (List.length a)) then 4 else Z.of_nat (S (List.length a))).
  set (size' := if 4 <? Z.of_nat (S (List.length a + List.length b)) then 4 else Z.of_nat (S (List.length a + List.length b))).
  assert (size <= size' <= 4 /\ (size = 4 \/ size = Z.of_nat (S (List.length a))) /\ (size = 4 -> size' = 4) /\ 1 <= size /\ size - 1 <= Z.of_nat (List.length a)) as (H1 & H2 & H3 & H4 & H5).
  { unfold size, size'. destruct (Z.ltb_spec 4 (Z.of_nat (S (List.length a)))), (Z.ltb_spec 4 (Z.of_nat (S (List.length a + List.length b)))); lia. }
  clearbody size size'.
  assert (exists m, List.firstn (Z.to_nat (size' - 1)) (a ++ b) = List.firstn (Z.to_nat (size - 1)) a ++ m) as [m Em].
  { exists (List.skipn (Z.to_nat (size - 1)) (List.firstn (Z.to_nat (size' - 1)) (a ++ b))).
    rewrite <- (List.firstn_skipn (Z.to_nat (size - 1)) (List.firstn (Z.to_nat (size' - 1)) (a ++ b))) at 1. f_equal.
    rewrite List.firstn_firstn, Nat.min_l, List.firstn_app by lia.
    replace (Z.to_nat (size - 1) - List.length a)%nat with 0%nat by lia. cbn. now rewrite app_nil_r. }
  pose proof (parse_int_loop_app (List.firstn (Z.to_nat (size - 1)) a) m 1 (Z.land c prefix) 0) as Q. rewrite Em.
  assert (Z.of_nat (List.length (List.firstn (Z.to_nat (size - 1)) a)) = size - 1) as El by (rewrite List.length_firstn; lia).
  destruct (parse_int_loop (List.firstn (Z.to_nat (size - 1)) a) 1 (Z.land c prefix) 0) as [[v u]|] eqn:E; [now rewrite Q |].
  rewrite El in Q.
  destruct (Z.leb_spec length size) as [Hl | Hl].
  - intros [= <- <- <-] _. destruct (parse_int_loop (_ ++ m) 1 (Z.land c prefix) 0) as [[v u]|].
    + destruct (Z.ltb_spec length u); [done | lia].
    + destruct (Z.leb_spec length size'); [done | lia].
  - destruct (Z.eqb_spec size 4) as [Es | Es].
    + intros [= <- <- <-] _. assert (m = []) as ->.
      { pose proof (f_equal (@List.length _) Em) as Q'. rewrite List.length_app, !List.length_firstn, List.length_app in Q'. rewrite (H3 Es), Es in *.
        destruct m; [done | cbn in Q'; lia]. }
      rewrite app_nil_r, E.
      rewrite (H3 Es). destruct (Z.leb_spec length 4); [lia | done].
    + intros [= <- _ _] Hne. now destruct Hne.
Qed.

(** ** Strings *)

(** Reading a string that has arrived in full, as [ngx_http_v2_state_field_len]
    and then [ngx_http_v2_state_field_huff] or [ngx_http_v2_state_field_raw]
    do: the string, the length left and the bytes after it.  This is a composition
    of the modelled parsers for the statement of the round trip, not a function
    of the source. *)
Definition read_string (length : Z) (input : list Z) : option (list Z * Z * list Z) :=
  match ngx_http_v2_parse_int length input (ngx_http_v2_prefix 7) with
  | Some (len, length', used) =>
      let field := List.firstn (Z.to_nat len) (List.skipn (Z.to_nat used) input) in
      let rest := List.skipn (Z.to_nat len) (List.skipn (Z.to_nat used) input) in
      if (len <? 0) || (length' <? len) || (Z.of_nat (List.length field) <? len) then None
      else if Z.shiftr (nth 0 input 0) 7 =? 1 then
        let '(rc, _, out) := ngx_http_huff_decode 0 field [] true in
        if rc =? NGX_OK then Some (out, length' - len, rest) else None
      else Some (field, length' - len, rest)
  | None => None
  end.

Lemma write_int_head first v :
  first = 0 \/ first = 0x80 -> 0 <= v ->
  Z.shiftr (nth 0 (ngx_http_v2_write_int first (ngx_http_v2_prefix 7) v) 0) 7 = Z.shiftr first 7.
Proof.
  intros Hf Hv. unfold ngx_http_v2_write_int. change (ngx_http_v2_prefix 7) with 127.
  assert (forall x, 0 <= x <= 127 -> Z.shiftr (Z.lor first x mod 256) 7 = Z.shiftr first 7) as H.
  { intros x Hx. rewrite !Z.shiftr_div_pow2 by lia. destruct Hf as [-> | ->].
    - rewrite Z.lor_0_l, (Z.mod_small x), !Z.div_small by lia. done.
    - change 0x80 with (Z.shiftl 1 7). rewrite lor_shiftl_add, Z.mod_small by lia. rewrite Z.div_add_l, Z.div_small by lia. done. }
  destruct (v <? 127) eqn:E; cbn [nth]; apply H; [apply Z.ltb_lt in E; lia | lia].
Qed.

Lemma read_written first data rest length :
  first = 0 \/ first = 0x80 ->
  let n := Z.of_nat (List.length data) in
  let enc := ngx_http_v2_write_int first (ngx_http_v2_prefix 7) n ++ data in
  n < 127 + 2 ^ 21 -> Z.of_nat (List.length enc) <= length ->
  read_string length (enc ++ rest) =
  (if Z.shiftr first 7 =? 1 then
     let '(rc, _, out) := ngx_http_huff_decode 0 data [] true in
     if rc =? NGX_OK then Some (out, length - Z.of_nat (List.length enc), rest) else None
   else Some (data, length - Z.of_nat (List.length enc), rest)).
Proof.
  intros Hf. cbv zeta. intros Hn Hlen. rewrite List.length_app in *. unfold read_string. rewrite <- !app_assoc.
  set (int := ngx_http_v2_write_int first (ngx_http_v2_prefix 7) (Z.of_nat (List.length data))) in *.
  assert (ngx_http_v2_parse_int length (int ++ data ++ rest) (ngx_http_v2_prefix 7) =
    Some (Z.of_nat (List.length data), length - Z.of_nat (List.length int), Z.of_nat (List.length int))) as ->.
  { apply parse_int_write_int; fold int; change (ngx_http_v2_prefix 7) with 127; try lia.
    - destruct Hf as [-> | ->]; unfold byte; lia.
    - destruct Hf as [-> | ->]; reflexivity. }
  cbv zeta. rewrite !Nat2Z.id, List.skipn_app, List.skipn_all, Nat.sub_diag. cbn [List.skipn app].
  rewrite !List.skipn_O, List.firstn_app, List.firstn_all, Nat.sub_diag, List.skipn_app, List.skipn_all, Nat.sub_diag. rewrite ?List.skipn_O, List.firstn_O. cbn [app].
  rewrite app_nil_r.
  destruct (Z.ltb_spec (Z.of_nat (List.length data)) 0); [lia |].
  destruct (Z.ltb_spec (length - Z.of_nat (List.length int)) (Z.of_nat (List.length data))); [lia |].
  destruct (Z.ltb_spec (Z.of_nat (List.length data)) (Z.of_nat (List.length data))); [lia |]. cbn [orb].
  replace (nth 0 (int ++ data ++ rest) 0) with (nth 0 int 0) by (unfold int, ngx_http_v2_write_int; now destruct (_ <? _)).
  unfold int at 1. rewrite write_int_head by (done || lia).
  replace (length - Z.of_nat (List.length int + List.length data)) with (length - Z.of_nat (List.length int) - Z.of_nat (List.length data)) by lia.
  done.
Qed.

(** C29: a string of less than 2 megabytes, written by
    [ngx_http_v2_string_encode] with the Huffman code or without, is read back
    from the bytes written and the ones after them. *)
Theorem string_encode_round_trip src lower rest length :
  Forall byte src -> Z.of_nat (List.length src) < 127 + 2 ^ 21 ->
  let enc := ngx_http_v2_string_encode src lower in
  Z.of_nat (List.length enc) <= length ->
  read_string length (enc ++ rest) = Some (lowered src lower, length - Z.of_nat (List.length enc), rest).
Proof.
  intros Hsrc Hn. cbv zeta. unfold ngx_http_v2_string_encode, NGX_HTTP_V2_ENCODE_HUFF, NGX_HTTP_V2_ENCODE_RAW.
  pose proof (huff_encode_spec src lower Hsrc) as Q. cbv zeta in Q.
  destruct (Z.ltb_spec 0 (Z.of_nat (List.length (ngx_http_huff_encode src lower)))) as [Hc | Hc]; intros Hlen.
  - destruct (Z.ltb_spec ((Z.of_nat (List.length (huff_text (lowered src lower))) + 7) / 8) (Z.of_nat (List.length src))) as [Hs |];
      [| rewrite Q in Hc; cbn in Hc; lia].
    destruct Q as (He & k & Hk & E).
    pose proof (f_equal (@List.length _) E) as El. rewrite length_bits_of_bytes, List.length_app, length_ones in El.
    assert (Z.of_nat (List.length (ngx_http_huff_encode src lower)) < Z.of_nat (List.length src)).
    { pose proof (Z.div_mod (Z.of_nat (List.length (huff_text (lowered src lower))) + 7) 8 ltac:(lia)).
      pose proof (Z.mod_pos_bound (Z.of_nat (List.length (huff_text (lowered src lower))) + 7) 8 ltac:(lia)). lia. }
    rewrite (read_written 0x80) by (try (now right); lia). change (Z.shiftr 0x80 7 =? 1) with true. cbn iota.
    rewrite (proj2 (huff_decode_spec _ (lowered src lower) He)); [done |]. split; [now apply lowered_bytes |]. exists k. split; [lia | exact E].
  - fold (lowered src lower) in *. assert (List.length (lowered src lower) = List.length src) as El by (destruct lower; [apply List.length_map | done]).
    rewrite <- El in *. rewrite (read_written 0) by (try (now left); lia). done.
Qed.

Lemma parse_int_any_split_witness :
  ngx_http_v2_parse_int 10 ([31; 154; 10] ++ [7; 9]) (ngx_http_v2_prefix 5) = Some (1337, 7, 3).
Proof. refine (parse_int_any_split 10 [31; 154; 10] [7; 9] (ngx_http_v2_prefix 5) 1337 7 3 eq_refl _). discriminate. Defined.

Lemma string_encode_round_trip_witness :
  read_string 40 (ngx_http_v2_string_encode str "www.example.com" false ++ [1; 2]) = Some (str "www.example.com", 40 - 13, [1; 2]).
Proof.
  refine (string_encode_round_trip str "www.example.com" false [1; 2] 40 _ _ _); [repeat constructor; discriminate | reflexivity | discriminate].
Defined.
