(* ===== verification/HpackTable.v ===== *)
(** The header tables of HPACK (http/v2/ngx_http_v2_table.c): the static table,
    and the dynamic one, whose entries are structs that are used again and
    whose bytes lie in a ring of 4096. *)
From S2P Require Export NgxStore.
#[global] Open Scope Z_scope.

(** ** Data *)

(** A name and a value. *)
Definition header : Type := list Z * list Z.

(** [ngx_http_v2_header_t] as an entry of the table: two strings in the
    storage. *)
Record ngx_http_v2_header_t := mk_header {
  name_len : Z; name_data : Z; value_len : Z; value_data : Z }.

(** [h2c->hpack], with the memory that [storage] points into and the answers
    that the pool's allocations are going to give, [NULL] or an address.
    [entries] is [None] before the first header is added. *)
Record ngx_http_v2_hpack_t := mk_hpack {
  entries : option (list Z);
  added : Z; deleted : Z; reused : Z; allocated : Z;
  h_size : Z; h_free : Z; storage : Z; h_pos : Z;
  memory : mem; pool : list Z }.

Definition set_entries v h := mk_hpack v (added h) (deleted h) (reused h) (allocated h) (h_size h) (h_free h) (storage h) (h_pos h) (memory h) (pool h).
Definition set_added v h := mk_hpack (entries h) v (deleted h) (reused h) (allocated h) (h_size h) (h_free h) (storage h) (h_pos h) (memory h) (pool h).
Definition set_deleted v h := mk_hpack (entries h) (added h) v (reused h) (allocated h) (h_size h) (h_free h) (storage h) (h_pos h) (memory h) (pool h).
Definition set_reused v h := mk_hpack (entries h) (added h) (deleted h) v (allocated h) (h_size h) (h_free h) (storage h) (h_pos h) (memory h) (pool h).
Definition set_allocated v h := mk_hpack (entries h) (added h) (deleted h) (reused h) v (h_size h) (h_free h) (storage h) (h_pos h) (memory h) (pool h).
Definition set_size v h := mk_hpack (entries h) (added h) (deleted h) (reused h) (allocated h) v (h_free h) (storage h) (h_pos h) (memory h) (pool h).
Definition set_free v h := mk_hpack (entries h) (added h) (deleted h) (reused h) (allocated h) (h_size h) v (storage h) (h_pos h) (memory h) (pool h).
Definition set_storage v h := mk_hpack (entries h) (added h) (deleted h) (reused h) (allocated h) (h_size h) (h_free h) v (h_pos h) (memory h) (pool h).
Definition set_pos v h := mk_hpack (entries h) (added h) (deleted h) (reused h) (allocated h) (h_size h) (h_free h) (storage h) v (memory h) (pool h).
Definition set_memory v h := mk_hpack (entries h) (added h) (deleted h) (reused h) (allocated h) (h_size h) (h_free h) (storage h) (h_pos h) v (pool h).
Definition set_pool v h := mk_hpack (entries h) (added h) (deleted h) (reused h) (allocated h) (h_size h) (h_free h) (storage h) (h_pos h) (memory h) v.

Abbreviation hprog := (prog ngx_http_v2_header_t ngx_http_v2_hpack_t).

(** An update of the fields of [h2c->hpack]. *)
Definition upd_hpack (f : ngx_http_v2_hpack_t -> ngx_http_v2_hpack_t) : hprog unit := h ← get; put (f h).

Definition NGX_HTTP_V2_TABLE_SIZE : Z := 4096.

Definition ngx_http_v2_static_table : list header := [
  (str ":authority", str "");
  (str ":method", str "GET");
  (str ":method", str "POST");
  (str ":path", str "/");
  (str ":path", str "/index.html");
  (str ":scheme", str "http");
  (str ":scheme", str "https");
  (str ":status", str "200");
  (str ":status", str "204");
  (str ":status", str "206");
  (str ":status", str "304");
  (str ":status", str "400");
  (str ":status", str "404");
  (str ":status", str "500");
  (str "accept-charset", str "");
  (str "accept-encoding", str "gzip, deflate");
  (str "accept-language", str "");
  (str "accept-ranges", str "");
  (str "accept", str "");
  (str "access-control-allow-origin", str "");
  (str "age", str "");
  (str "allow", str "");
  (str "authorization", str "");
  (str "cache-control", str "");
  (str "content-disposition", str "");
  (str "content-encoding", str "");
  (str "content-language", str "");
  (str "content-length", str "");
  (str "content-location", str "");
  (str "content-range", str "");
  (str "content-type", str "");
  (str "cookie", str "");
  (str "date", str "");
  (str "etag", str "");
  (str "expect", str "");
  (str "expires", str "");
  (str "from", str "");
  (str "host", str "");
  (str "if-match", str "");
  (str "if-modified-since", str "");
  (str "if-none-match", str "");
  (str "if-range", str "");
  (str "if-unmodified-since", str "");
  (str "last-modified", str "");
  (str "link", str "");
  (str "location", str "");
  (str "max-forwards", str "");
  (str "proxy-authenticate", str "");
  (str "proxy-authorization", str "");
  (str "range", str "");
  (str "referer", str "");
  (str "refresh", str "");
  (str "retry-after", str "");
  (str "server", str "");
  (str "set-cookie", str "");
  (str "strict-transport-security", str "");
  (str "transfer-encoding", str "");
  (str "user-agent", str "");
  (str "vary", str "");
  (str "via", str "");
  (str "www-authenticate", str "") ].

Definition NGX_HTTP_V2_STATIC_TABLE_ENTRIES : Z := Z.of_nat (length ngx_http_v2_static_table).

(** ** Operations *)

(** [ngx_palloc]: the next answer of the pool, [NULL] when there is none. *)
Definition ngx_palloc : hprog Z :=
  h ← get;
  match pool h with
  | [] => mret NULL
  | a :: p => put (set_pool p h);; mret a
  end.

(** The struct at an address that has just been allocated. *)
Definition new_header (a : Z) : hprog unit := fun s =>
  Some (tt, mk_store (<[a := mk_header 0 0 0 0]> (cells s)) (glob s)).

(** [h2c->hpack.entries[i % h2c->hpack.allocated]] *)
Definition entry_at (i : Z) : hprog Z := fun s =>
  match entries (glob s) with
  | Some l => match nth_error l (Z.to_nat (i mod allocated (glob s))) with Some a => Some (a, s) | None => None end
  | None => None
  end.

Definition ngx_http_v2_get_static_name (index : Z) : option (list Z) :=
  fst <$> nth_error ngx_http_v2_static_table (Z.to_nat (index - 1)).

Definition ngx_http_v2_get_static_value (index : Z) : option (list Z) :=
  snd <$> nth_error ngx_http_v2_static_table (Z.to_nat (index - 1)).

(** The copy of [len] bytes of the ring from [data] on. *)
Definition ring_copy (data len : Z) : hprog (list Z) :=
  h ← get;
  let rest := storage h + NGX_HTTP_V2_TABLE_SIZE - data in
  mret (if rest <? len
        then bytes_at (memory h) data (Z.to_nat rest) ++ bytes_at (memory h) (storage h) (Z.to_nat (len - rest))
        else bytes_at (memory h) data (Z.to_nat len)).

(** The return code and [h2c->state.header] afterwards. *)
Definition ngx_http_v2_get_indexed_header (header0 : header) (index : Z) (name_only : bool) : hprog (Z * header) :=
  if index =? 0 then mret (NGX_ERROR, header0) else
  let index := index - 1 in
  if index <? NGX_HTTP_V2_STATIC_TABLE_ENTRIES then
    mret (NGX_OK, nth (Z.to_nat index) ngx_http_v2_static_table header0)
  else
  let index := index - NGX_HTTP_V2_STATIC_TABLE_ENTRIES in
  h ← get;
  if index <? added h - deleted h then
    entry ← entry_at (added h - index - 1);
    p ← ngx_palloc;
    if decide (p = NULL) then mret (NGX_ERROR, header0) else
    len ← ld name_len entry;
    data ← ld name_data entry;
    name ← ring_copy data len;
    if (name_only : bool) then mret (NGX_OK, (name, header0.2)) else
    p ← ngx_palloc;
    if decide (p = NULL) then mret (NGX_ERROR, (name, header0.2)) else
    len ← ld value_len entry;
    data ← ld value_data entry;
    value ← ring_copy data len;
    mret (NGX_OK, (name, value))
  else mret (NGX_ERROR, header0).

(** One more of the oldest entries is deleted. *)
Definition table_evict : hprog unit :=
  h ← get;
  entry ← entry_at (deleted h);
  upd_hpack (set_deleted (deleted h + 1));;
  nlen ← ld name_len entry;
  vlen ← ld value_len entry;
  upd_hpack (fun h => set_free (h_free h + (32 + nlen + vlen)) h).

(** The loop of [ngx_http_v2_table_account]; it runs once at least. *)
Fixpoint account_loop (fuel : nat) (size : Z) : hprog unit :=
  match fuel with
  | O => out_of_fuel
  | S fuel' =>
      table_evict;;
      h ← get;
      if h_free h <? size then account_loop fuel' size else mret tt
  end.

(** The number of entries is fuel enough. *)
Definition table_fuel : hprog nat := h ← get; mret (S (Z.to_nat (added h - deleted h))).

Definition ngx_http_v2_table_account (size : Z) : hprog Z :=
  let size := size + 32 in
  h ← get;
  if size <=? h_free h then
    upd_hpack (set_free (h_free h - size));; mret NGX_OK
  else if h_size h <? size then
    upd_hpack (fun h => set_free (h_size h) (set_deleted (added h) h));; mret NGX_DECLINED
  else
    fuel ← table_fuel;
    account_loop fuel size;;
    upd_hpack (fun h => set_free (h_free h - size) h);;
    mret NGX_OK.

(** Writing a string into the ring when [avail] bytes are left before its end:
    the new position. *)
Definition ring_write (l : list Z) (avail : Z) : hprog unit :=
  upd_hpack (fun h =>
    let len := Z.of_nat (length l) in
    if len <=? avail then set_pos (h_pos h + len) (set_memory (write (memory h) (h_pos h) l) h)
    else
      let M := write (memory h) (h_pos h) (firstn (Z.to_nat avail) l) in
      let M := write M (storage h) (skipn (Z.to_nat avail) l) in
      set_pos (storage h + (len - avail)) (set_memory M h)).

(** The first use: [false] when an allocation fails. *)
Definition table_create : hprog bool :=
  upd_hpack (fun h => set_free NGX_HTTP_V2_TABLE_SIZE (set_size NGX_HTTP_V2_TABLE_SIZE (set_allocated 64 h)));;
  p ← ngx_palloc;
  if decide (p = NULL) then mret false else
  upd_hpack (set_entries (Some (repeat NULL 64)));;
  p ← ngx_palloc;
  upd_hpack (set_storage p);;
  if decide (p = NULL) then mret false else
  upd_hpack (set_pos p);;
  mret true.

(** The struct for a new entry, one of a deleted entry if there is one. *)
Definition take_entry : hprog (option Z) :=
  h ← get;
  if reused h =? deleted h then
    a ← ngx_palloc;
    if decide (a = NULL) then mret None else
    new_header a;;
    mret (Some a)
  else
    a ← entry_at (reused h);
    upd_hpack (set_reused (reused h + 1));;
    mret (Some a).

(** The strings of the header go to the ring and the entry describes them. *)
Definition fill_entry (entry : Z) (name value : list Z) : hprog unit :=
  h ← get;
  let nlen := Z.of_nat (length name) in
  let avail := storage h + NGX_HTTP_V2_TABLE_SIZE - h_pos h in
  st (fun e => mk_header nlen (h_pos h) (value_len e) (value_data e)) entry;;
  ring_write name avail;;
  let avail := if nlen <=? avail then avail else NGX_HTTP_V2_TABLE_SIZE in
  let avail := avail - nlen in
  h ← get;
  st (fun e => mk_header (name_len e) (name_data e) (Z.of_nat (length value)) (h_pos h)) entry;;
  ring_write value avail.

(** A longer array when all places are taken: [false] when there is none. *)
Definition table_grow : hprog bool :=
  h ← get;
  if allocated h =? added h - deleted h then
    p ← ngx_palloc;
    if decide (p = NULL) then mret false else
    let index := Z.to_nat (deleted h mod allocated h) in
    let old := default [] (entries h) in
    upd_hpack (fun h =>
      set_allocated (allocated h + 64) (set_reused 0 (set_deleted 0 (set_added (allocated h)
        (set_entries (Some (skipn index old ++ firstn index old ++ repeat NULL 64)) h)))));;
    mret true
  else mret true.

(** [ngx_http_v2_add_header] from the accounting on. *)
Definition table_store (name value : list Z) : hprog Z :=
  entry ← take_entry;
  match entry with
  | None => mret NGX_ERROR
  | Some entry =>
      fill_entry entry name value;;
      ok ← table_grow;
      if negb ok then mret NGX_ERROR else
      h ← get;
      upd_hpack (fun h => set_added (added h + 1)
        (set_entries ((fun l => <[Z.to_nat (added h mod allocated h) := entry]> l) <$> entries h) h));;
      mret NGX_OK
  end.

Definition ngx_http_v2_add_header (name value : list Z) : hprog Z :=
  h ← get;
  ok ← match entries h with None => table_create | Some _ => mret true end;
  if negb ok then mret NGX_ERROR else
  rc ← ngx_http_v2_table_account (Z.of_nat (length name) + Z.of_nat (length value));
  if negb (rc =? NGX_OK) then mret NGX_OK else
  table_store name value.

Fixpoint size_loop (fuel : nat) (needed : Z) : hprog unit :=
  match fuel with
  | O => out_of_fuel
  | S fuel' =>
      h ← get;
      if h_free h <? needed then table_evict;; size_loop fuel' needed else mret tt
  end.

(** [needed] is signed, and the two sizes are at most 4096. *)
Definition ngx_http_v2_table_size (size : Z) : hprog Z :=
  if NGX_HTTP_V2_TABLE_SIZE <? size then mret NGX_ERROR else
  h ← get;
  let needed := h_size h - size in
  fuel ← table_fuel;
  size_loop fuel needed;;
  upd_hpack (fun h => set_free (h_free h - needed) (set_size size h));;
  mret NGX_OK.

(** The table of a new connection, all zeroes. *)
Definition hpack_init (p : list Z) : store ngx_http_v2_header_t ngx_http_v2_hpack_t :=
  mk_store ∅ (mk_hpack None 0 0 0 0 0 0 0 0 (fun _ => 0) p).

Example add_and_get :
  exists s, (ngx_http_v2_add_header str "a" str "bc";; ngx_http_v2_add_header str "d" str "";;
    ngx_http_v2_get_indexed_header ([], []) 63 false) (hpack_init [1000; 2000; 10; 20; 30; 40]) =
    Some ((NGX_OK, (str "a", str "bc")), s).
Proof. eexists. vm_compute. reflexivity. Qed.

(** ** The ring *)

Abbreviation ring_size := NGX_HTTP_V2_TABLE_SIZE.

(** The place [v] of an endless tape of bytes, of which the ring at [base]
    holds the last 4096, is [p]. *)
Definition at_ring (base p v : Z) : Prop := 0 <= p - base <= ring_size /\ (p - base) mod ring_size = v mod ring_size.

Definition place (base v : Z) : Z := base + v mod ring_size.

(** The bytes [l] are on the tape from [v] on. *)
Definition on_tape (M : mem) (base v : Z) (l : list Z) : Prop :=
  forall k, 0 <= k < Z.of_nat (length l) -> M (place base (v + k)) = nth (Z.to_nat k) l 0.

Lemma nth_bytes_at M a n k d : (k < n)%nat -> nth k (bytes_at M a n) d = M (a + Z.of_nat k).
Proof.
  revert a k. induction n as [|n IH]; intros a k Hk; [lia |]. destruct k; cbn [bytes_at nth]; [f_equal; lia |].
  rewrite IH by lia. f_equal. lia.
Qed.

Lemma write_lookup M a l x :
  write M a l x = if (a <=? x) && (x <? a + Z.of_nat (length l)) then nth (Z.to_nat (x - a)) l 0 else M x.
Proof.
  revert M a. induction l as [|c l IH]; intros M a; cbn [write length].
  - destruct (Z.leb_spec a x), (Z.ltb_spec x (a + Z.of_nat 0)); cbn; try done. lia.
  - rewrite IH. destruct (Z.leb_spec (a + 1) x), (Z.leb_spec a x), (Z.ltb_spec x (a + 1 + Z.of_nat (length l))),
      (Z.ltb_spec x (a + Z.of_nat (S (length l)))); cbn [andb]; try lia; try (now rewrite upd_ne by lia).
    + replace (Z.to_nat (x - a)) with (S (Z.to_nat (x - (a + 1)))) by lia. done.
    + replace x with a by lia. rewrite upd_eq, Z.sub_diag. done.
Qed.

Lemma place_eq base p v k : at_ring base p v -> p - base + k < ring_size -> 0 <= k -> place base (v + k) = p + k.
Proof.
  intros [H1 H2] Hk H0. unfold place, ring_size in *. rewrite Zplus_mod, <- H2, <- Zplus_mod, Z.mod_small by lia. lia.
Qed.

Lemma place_wrap base p v k : at_ring base p v -> ring_size <= p - base + k < 2 * ring_size -> place base (v + k) = p + k - ring_size.
Proof.
  intros [H1 H2] Hk. unfold place, ring_size in *. rewrite Zplus_mod, <- H2, <- Zplus_mod.
  rewrite <- (Z.mod_add _ (-1)), Z.mod_small by lia. lia.
Qed.

Lemma place_inj base v i j : 0 <= i < j -> j < i + ring_size -> place base (v + i) <> place base (v + j).
Proof.
  unfold place, ring_size. intros H1 H2 E. assert ((v + i) mod 4096 = (v + j) mod 4096) as E' by lia.
  pose proof (Z.div_mod (v + i) 4096 ltac:(lia)). pose proof (Z.div_mod (v + j) 4096 ltac:(lia)). nia.
Qed.

(** Reading from the ring. *)
Lemma ring_copy_spec (s : store ngx_http_v2_header_t ngx_http_v2_hpack_t) p v l :
  let h := glob s in
  at_ring (storage h) p v -> on_tape (memory h) (storage h) v l -> Z.of_nat (length l) <= ring_size ->
  ring_copy p (Z.of_nat (length l)) s = Some (l, s).
Proof.
  intros h Hp Hl Hlen. unfold ring_copy. rewrite run_get. cbv zeta. fold h. unfold mret, prog_ret. do 2 f_equal.
  pose proof Hp as [H1 _]. unfold NGX_HTTP_V2_TABLE_SIZE in *.
  destruct (Z.ltb_spec (storage h + 4096 - p) (Z.of_nat (length l))) as [Hr | Hr].
  - apply (List.nth_ext _ _ 0 0); rewrite List.length_app, !length_bytes_at; [lia |]. intros k Hk.
    replace k with (Z.to_nat (Z.of_nat k)) at 2 by lia. rewrite <- Hl by lia.
    destruct (Nat.lt_ge_cases k (Z.to_nat (storage h + 4096 - p))).
    + rewrite List.app_nth1 by (rewrite length_bytes_at; lia). rewrite nth_bytes_at by lia.
      rewrite (place_eq _ p) by (try done; unfold NGX_HTTP_V2_TABLE_SIZE; lia). done.
    + rewrite List.app_nth2, length_bytes_at, nth_bytes_at by (rewrite ?length_bytes_at; lia).
      rewrite (place_wrap _ p) by (try done; unfold NGX_HTTP_V2_TABLE_SIZE; lia).
      f_equal. unfold NGX_HTTP_V2_TABLE_SIZE. lia.
  - apply (List.nth_ext _ _ 0 0); rewrite !length_bytes_at; [lia |]. intros k Hk.
    replace k with (Z.to_nat (Z.of_nat k)) at 2 by lia. rewrite <- Hl, nth_bytes_at by lia.
    rewrite (place_eq _ p) by (try done; unfold NGX_HTTP_V2_TABLE_SIZE; lia). done.
Qed.

(** The bytes of the tape that a write of [n] bytes at [v] leaves. *)
Definition tape_kept (M M' : mem) (base v n : Z) : Prop :=
  forall x, (forall k, 0 <= k < n -> x <> place base (v + k)) -> base <= x < base + ring_size -> M' x = M x.

(** Writing to it: [avail] bytes are left before the end, or at least as many
    as are written. *)
Lemma ring_write_spec (s : store ngx_http_v2_header_t ngx_http_v2_hpack_t) l avail v :
  let h := glob s in
  at_ring (storage h) (h_pos h) v -> Z.of_nat (length l) <= ring_size ->
  avail = storage h + ring_size - h_pos h \/ Z.of_nat (length l) <= avail <= storage h + ring_size - h_pos h ->
  exists p M, ring_write l avail s = Some (tt, mk_store (cells s) (set_pos p (set_memory M h))) /\
    p = (if Z.of_nat (length l) <=? avail then h_pos h + Z.of_nat (length l) else storage h + (Z.of_nat (length l) - avail)) /\
    at_ring (storage h) p (v + Z.of_nat (length l)) /\ on_tape M (storage h) v l /\
    tape_kept (memory h) M (storage h) v (Z.of_nat (length l)).
Proof.
  intros h Hp Hlen Ha. unfold ring_write, upd_hpack. rewrite run_get. fold h. unfold put. cbv zeta.
  pose proof Hp as [H1 H2]. set (n := Z.of_nat (length l)) in *. unfold ring_size in *.
  destruct (Z.leb_spec n avail) as [Hn | Hn].
  - eexists _, _. split; [reflexivity |]. split_and!.
    + done.
    + split; unfold ring_size; [lia |]. replace (h_pos h + n - storage h) with (h_pos h - storage h + n) by lia.
      rewrite Zplus_mod, H2, <- Zplus_mod. done.
    + intros k Hk. rewrite (place_eq _ (h_pos h)) by (try done; unfold ring_size; lia). rewrite write_lookup.
      destruct (Z.leb_spec (h_pos h) (h_pos h + k)), (Z.ltb_spec (h_pos h + k) (h_pos h + Z.of_nat (length l))); try lia.
      cbn [andb]. f_equal. lia.
    + intros x Hx _. rewrite write_lookup.
      destruct (Z.leb_spec (h_pos h) x), (Z.ltb_spec x (h_pos h + Z.of_nat (length l))); try done. exfalso.
      apply (Hx (x - h_pos h)); [lia |]. rewrite (place_eq _ (h_pos h)) by (try done; unfold ring_size; lia). lia.
  - destruct Ha as [Ha | Ha]; [| lia]. eexists _, _. split; [reflexivity |].
    assert (length (firstn (Z.to_nat avail) l) = Z.to_nat avail) as L1 by (rewrite List.length_firstn; lia).
    assert (length (skipn (Z.to_nat avail) l) = (length l - Z.to_nat avail)%nat) as L2 by apply List.length_skipn.
    split_and!.
    + done.
    + split; unfold ring_size; [lia |]. replace (storage h + (n - avail) - storage h) with ((h_pos h - storage h) + n + (-1) * 4096) by lia.
      rewrite Z.mod_add, Zplus_mod, H2, <- Zplus_mod by lia. done.
    + intros k Hk. rewrite !write_lookup, L1, L2. destruct (Z.lt_ge_cases k avail).
      * rewrite (place_eq _ (h_pos h)) by (try done; unfold ring_size; lia).
        destruct (Z.leb_spec (storage h) (h_pos h + k)), (Z.ltb_spec (h_pos h + k) (storage h + Z.of_nat (length l - Z.to_nat avail))),
          (Z.leb_spec (h_pos h) (h_pos h + k)), (Z.ltb_spec (h_pos h + k) (h_pos h + Z.of_nat (Z.to_nat avail))); try lia; cbn [andb].
        rewrite List.nth_firstn. destruct (Nat.ltb_spec (Z.to_nat (h_pos h + k - h_pos h)) (Z.to_nat avail)); [f_equal; lia | lia].
      * rewrite (place_wrap _ (h_pos h)) by (try done; unfold ring_size; lia). unfold ring_size.
        destruct (Z.leb_spec (storage h) (h_pos h + k - 4096)), (Z.ltb_spec (h_pos h + k - 4096) (storage h + Z.of_nat (length l - Z.to_nat avail))); try lia; cbn [andb].
        rewrite List.nth_skipn. f_equal. lia.
    + intros x Hx Hr. rewrite !write_lookup, L1, L2.
      destruct (Z.leb_spec (storage h) x), (Z.ltb_spec x (storage h + Z.of_nat (length l - Z.to_nat avail))); cbn [andb]; try lia.
      * exfalso. apply (Hx (x - h_pos h + 4096)); [lia |]. rewrite (place_wrap _ (h_pos h)) by (try done; unfold ring_size; lia). unfold ring_size. lia.
      * destruct (Z.leb_spec (h_pos h) x), (Z.ltb_spec x (h_pos h + Z.of_nat (Z.to_nat avail))); cbn [andb]; try done. exfalso.
        apply (Hx (x - h_pos h)); [lia |]. rewrite (place_eq _ (h_pos h)) by (try done; unfold ring_size; lia). lia.
Qed.

(** ** The specification *)

Definition hlen (x : header) : Z := Z.of_nat (length x.1) + Z.of_nat (length x.2).

(** The size of an entry, as RFC 7541 counts it. *)
Definition hsize (x : header) : Z := 32 + hlen x.

Fixpoint used (l : list header) : Z :=
  match l with
  | [] => 0
  | x :: l' => hsize x + used l'
  end.

(** The newest entries that fit. *)
Fixpoint fit (max : Z) (l : list header) : list header :=
  match l with
  | [] => []
  | x :: l' => if hsize x <=? max then x :: fit (max - hsize x) l' else []
  end.

(** The dynamic table: whether it has been used, its greatest size and the
    headers, the newest first. *)
Record table := mk_table { t_used : bool; t_max : Z; t_list : list header }.

(** The first header to be added sets the size to 4096, whatever it was. *)
Definition table_add (x : header) (t : table) : table :=
  let max := if t_used t then t_max t else NGX_HTTP_V2_TABLE_SIZE in
  mk_table true max (if max <? hsize x then [] else x :: fit (max - hsize x) (t_list t)).

Definition table_resize (n : Z) (t : table) : table := mk_table (t_used t) n (fit n (t_list t)).

(** The header of an index, over both tables; the first is number 1. *)
Definition table_get (i : Z) (t : table) : option header :=
  if i <=? 0 then None else nth_error (ngx_http_v2_static_table ++ t_list t) (Z.to_nat (i - 1)).

Lemma hlen_nonneg x : 0 <= hlen x.
Proof. unfold hlen. lia. Qed.

Lemma used_nonneg l : 0 <= used l.
Proof. induction l as [|x l IH]; cbn; [lia |]. pose proof (hlen_nonneg x). unfold hsize. lia. Qed.

Lemma used_app a b : used (a ++ b) = used a + used b.
Proof. induction a as [|x a IH]; cbn [app used]; lia. Qed.

Lemma used_rev l : used (rev l) = used l.
Proof. induction l as [|x l IH]; [done |]. cbn [rev used]. rewrite used_app, IH. cbn. lia. Qed.

Lemma fit_all max l : used l <= max -> fit max l = l.
Proof.
  revert max. induction l as [|x l IH]; intros max H; [done |]. cbn [fit used] in *. pose proof (used_nonneg l).
  destruct (Z.leb_spec (hsize x) max); [| lia]. f_equal. apply IH. lia.
Qed.

Lemma fit_stop max a y b : used a <= max < used a + hsize y -> fit max (a ++ y :: b) = a.
Proof.
  revert max. induction a as [|x a IH]; intros max H; cbn [app fit used] in *.
  - destruct (Z.leb_spec (hsize y) max); [lia | done].
  - pose proof (used_nonneg a). destruct (Z.leb_spec (hsize x) max); [| lia]. f_equal. apply IH. lia.
Qed.

(** ** The entries in the ring *)

Abbreviation hstore := (store ngx_http_v2_header_t ngx_http_v2_hpack_t).

(** [h2c->hpack.entries[i % h2c->hpack.allocated]] *)
Definition slot (h : ngx_http_v2_hpack_t) (i : Z) : Z :=
  nth (Z.to_nat (i mod allocated h)) (default [] (entries h)) NULL.

(** The array of entries: the places from [reused] to [added] hold structs of
    their own. *)
Record slots_ok (s : hstore) : Prop := {
  slots_array : exists l, entries (glob s) = Some l /\ Z.of_nat (length l) = allocated (glob s) /\ 0 < allocated (glob s);
  slots_order : 0 <= reused (glob s) <= deleted (glob s) /\ deleted (glob s) <= added (glob s) /\
    added (glob s) - reused (glob s) <= allocated (glob s);
  slots_inj i j : reused (glob s) <= i < added (glob s) -> reused (glob s) <= j < added (glob s) ->
    slot (glob s) i = slot (glob s) j -> i = j;
  slots_cells i : reused (glob s) <= i < added (glob s) -> slot (glob s) i ∈ dom (cells s) }.

(** An entry describes a header whose bytes are on the tape from [v] on. *)
Record describes (h : ngx_http_v2_hpack_t) (v : Z) (x : header) (e : ngx_http_v2_header_t) : Prop := {
  describes_name : name_len e = Z.of_nat (length x.1) /\ at_ring (storage h) (name_data e) v;
  describes_value : value_len e = Z.of_nat (length x.2) /\ at_ring (storage h) (value_data e) (v + Z.of_nat (length x.1));
  describes_bytes : on_tape (memory h) (storage h) v x.1 /\ on_tape (memory h) (storage h) (v + Z.of_nat (length x.1)) x.2 }.

(** The places from [i] on hold the entries of [l], one after the other on the
    tape. *)
Fixpoint holds_headers (s : hstore) (i v : Z) (l : list header) : Prop :=
  match l with
  | [] => True
  | x :: l' => (exists e, cells s !! slot (glob s) i = Some e /\ describes (glob s) v x e) /\
      holds_headers s (i + 1) (v + hlen x) l'
  end.

Fixpoint tape_len (l : list header) : Z :=
  match l with
  | [] => 0
  | x :: l' => hlen x + tape_len l'
  end.

(** The table holds [l], the oldest header first. *)
Record live (s : hstore) (l : list header) : Prop := {
  live_slots : slots_ok s;
  live_count : added (glob s) - deleted (glob s) = Z.of_nat (length l);
  live_fits : 0 <= h_free (glob s) /\ h_free (glob s) + used l = h_size (glob s) /\ h_size (glob s) <= ring_size;
  live_ring : exists v, holds_headers s (deleted (glob s)) v l /\ at_ring (storage (glob s)) (h_pos (glob s)) (v + tape_len l) }.

Lemma tape_len_used l : tape_len l + 32 * Z.of_nat (length l) = used l.
Proof. induction l as [|x l IH]; cbn [tape_len used length]; unfold hsize; lia. Qed.

Lemma tape_len_app a b : tape_len (a ++ b) = tape_len a + tape_len b.
Proof. induction a as [|x a IH]; cbn [app tape_len]; lia. Qed.

Lemma run_upd {B} f (k : hprog B) (s : hstore) : (upd_hpack f;; k) s = k (mk_store (cells s) (f (glob s))).
Proof. done. Qed.

Lemma run_entry {B} i (f : Z -> hprog B) (s : hstore) : slots_ok s -> (a ← entry_at i; f a) s = f (slot (glob s) i) s.
Proof.
  intros [(l & El & Hl & Ha) _ _ _]. unfold mbind, prog_bind, entry_at, slot. rewrite El. change (default [] (Some l)) with l.
  pose proof (Z.mod_pos_bound i _ Ha). destruct (nth_error l (Z.to_nat (i mod allocated (glob s)))) eqn:E.
  - apply (List.nth_error_nth _ _ NULL) in E. now rewrite E.
  - apply List.nth_error_None in E. lia.
Qed.

Definition evicted (n f : Z) (s : hstore) : hstore := mk_store (cells s) (set_free f (set_deleted n (glob s))).

(** Fewer entries: the later ones stay where they are. *)
Lemma holds_headers_mono s s' i v l :
  cells s' = cells s -> slot (glob s') = slot (glob s) -> storage (glob s') = storage (glob s) ->
  memory (glob s') = memory (glob s) -> holds_headers s i v l -> holds_headers s' i v l.
Proof.
  intros Hc Hs Hst Hm. revert i v. induction l as [|x l IH]; intros i v; cbn; [done |].
  intros [(e & He & [H1 H2 H3]) Hl]. split; [| now apply IH]. exists e. rewrite Hc, Hs. split; [done |]. split; now rewrite ?Hst, ?Hm.
Qed.

(** What the evictions preserve, whatever the sizes. *)
Record part (s : hstore) (l : list header) : Prop := {
  part_slots : slots_ok s;
  part_count : added (glob s) - deleted (glob s) = Z.of_nat (length l);
  part_ring : exists v, holds_headers s (deleted (glob s)) v l /\ at_ring (storage (glob s)) (h_pos (glob s)) (v + tape_len l) }.

Lemma live_part s l : live s l -> part s l.
Proof. intros [H1 H2 _ H3]. now split. Qed.

Lemma part_evicted s a l f : part s (a ++ l) -> part (evicted (deleted (glob s) + Z.of_nat (length a)) f s) l.
Proof.
  intros [[H1 H2 H3 H4] Hn (v & Hv & Hp)]. rewrite List.length_app in Hn. split.
  - split; cbn [evicted glob set_free set_deleted entries allocated reused deleted added cells]; try done. lia.
  - cbn. lia.
  - exists (v + tape_len a). cbn [evicted glob set_free set_deleted deleted storage h_pos].
    rewrite tape_len_app, Z.add_assoc in Hp. split; [| exact Hp].
    assert (holds_headers s (deleted (glob s) + Z.of_nat (length a)) (v + tape_len a) l) as Q.
    { clear -Hv. revert Hv. generalize (deleted (glob s)) as i. revert v. induction a as [|x a IH]; intros v i; cbn [app holds_headers tape_len length].
      - intros Hv. replace (i + Z.of_nat 0) with i by lia. now rewrite Z.add_0_r.
      - intros [_ Hv]. apply IH in Hv. replace (i + Z.of_nat (S (length a))) with (i + 1 + Z.of_nat (length a)) by lia.
        now rewrite Z.add_assoc. }
    eapply holds_headers_mono; [| | | | exact Q]; done.
Qed.

Lemma evict_spec {B} s x l (k : hprog B) :
  part s (x :: l) -> (table_evict;; k) s = k (evicted (deleted (glob s) + 1) (h_free (glob s) + hsize x) s).
Proof.
  intros [Hs Hn (v & [(e & He & [[N _] [V _] _]) _] & _)]. unfold table_evict.
  rewrite run_assoc, run_get, run_assoc, (run_entry _ _ _ Hs), run_assoc, run_upd, run_assoc.
  erewrite run_ld by exact He. rewrite run_assoc. erewrite run_ld by exact He. rewrite run_upd.
  unfold evicted. rewrite N, V. f_equal. f_equal. cbn [glob set_deleted h_free]. f_equal. unfold hsize, hlen. lia.
Qed.

Lemma evicted_twice n f n' f' s : evicted n' f' (evicted n f s) = evicted n' f' s.
Proof. done. Qed.

(** The evictions stop with the newest entries that leave room. *)
Lemma account_loop_spec fuel s l size :
  part s l -> h_free (glob s) < size -> size <= h_free (glob s) + used l -> (length l < fuel)%nat ->
  exists a y b, l = a ++ y :: b /\
    account_loop fuel size s = Some (tt, evicted (deleted (glob s) + Z.of_nat (length (a ++ [y])))
      (h_free (glob s) + used (a ++ [y])) s) /\
    h_free (glob s) + used a < size <= h_free (glob s) + used (a ++ [y]).
Proof.
  revert s l. induction fuel as [|fuel IH]; intros s l H Hlt Hle Hf; [lia |]. cbn [account_loop].
  destruct l as [|x l]; [cbn in Hle; lia |]. rewrite (evict_spec s x l _ H), run_get. cbn [evicted glob set_free h_free].
  destruct (Z.ltb_spec (h_free (glob s) + hsize x) size) as [Hc | Hc].
  - assert (part (evicted (deleted (glob s) + 1) (h_free (glob s) + hsize x) s) l) as H' by exact (part_evicted s [x] l _ H).
    destruct (IH _ l H') as (a & y & b & El & R & Hb); cbn [evicted glob set_free set_deleted h_free deleted length used] in *; try lia.
    exists (x :: a), y, b. rewrite El in *. split; [done |]. cbn [app used length]. split; [| lia].
    rewrite R, evicted_twice. do 2 f_equal. f_equal; lia.
  - exists [], x, l. split; [done |]. cbn [app used length]. split; [| lia]. unfold mret, prog_ret. do 3 f_equal. lia.
Qed.

Lemma size_loop_spec fuel s l needed :
  part s l -> needed <= h_free (glob s) + used l -> (length l < fuel)%nat ->
  exists a b, l = a ++ b /\
    size_loop fuel needed s = Some (tt, evicted (deleted (glob s) + Z.of_nat (length a)) (h_free (glob s) + used a) s) /\
    needed <= h_free (glob s) + used a /\ (forall a' y, a = a' ++ [y] -> h_free (glob s) + used a' < needed).
Proof.
  revert s l. induction fuel as [|fuel IH]; intros s l H Hle Hf; [lia |]. cbn [size_loop]. rewrite run_get.
  destruct (Z.ltb_spec (h_free (glob s)) needed) as [Hc | Hc].
  - destruct l as [|x l]; [cbn in Hle; lia |]. rewrite (evict_spec s x l _ H).
    assert (part (evicted (deleted (glob s) + 1) (h_free (glob s) + hsize x) s) l) as H' by exact (part_evicted s [x] l _ H).
    destruct (IH _ l H') as (a & b & El & R & H1 & H2); cbn [evicted glob set_free set_deleted h_free deleted length used] in *; try lia.
    exists (x :: a), b. rewrite El in *. split; [done |]. cbn [app used length]. split_and!; [| lia |].
    + rewrite R, evicted_twice. do 2 f_equal. f_equal; lia.
    + intros a' y Ea. destruct a' as [|x' a']; injection Ea as <- Ea; cbn [used]; [lia |]. specialize (H2 _ _ Ea). lia.
  - exists [], l. split; [done |]. cbn [used length]. split_and!; [| lia |].
    + unfold mret, prog_ret, evicted. do 2 f_equal. destruct s as [c []]. unfold set_free, set_deleted. cbn [glob cells]. cbn. f_equal. rewrite !Z.add_0_r. reflexivity.
    + intros a' y Ea. now destruct a'.
Qed.

(** ** Making room *)

Lemma evicted_same s : evicted (deleted (glob s)) (h_free (glob s)) s = s.
Proof. now destruct s as [c []]. Qed.

Lemma part_drop s l : part s l -> part (evicted (added (glob s)) (h_size (glob s)) s) [].
Proof.
  intros H. pose proof H as [_ Hn _]. rewrite <- (app_nil_r l) in H. apply (part_evicted _ l [] (h_size (glob s))) in H.
  now replace (deleted (glob s) + Z.of_nat (length l)) with (added (glob s)) in H by lia.
Qed.

Lemma account_spec s l x :
  live s l ->
  (h_size (glob s) < hsize x /\
   ngx_http_v2_table_account (hlen x) s = Some (NGX_DECLINED, evicted (added (glob s)) (h_size (glob s)) s)) \/
  (hsize x <= h_size (glob s) /\ exists a b, l = a ++ b /\ rev b = fit (h_size (glob s) - hsize x) (rev l) /\
   ngx_http_v2_table_account (hlen x) s =
     Some (NGX_OK, evicted (deleted (glob s) + Z.of_nat (length a)) (h_size (glob s) - used b - hsize x) s) /\
   0 <= h_size (glob s) - used b - hsize x).
Proof.
  intros H. pose proof (live_part _ _ H) as Hp. destruct H as [_ Hn (Hf & Hu & _) _].
  unfold ngx_http_v2_table_account. replace (hlen x + 32) with (hsize x) by (unfold hsize; lia). rewrite run_get.
  pose proof (used_nonneg l). pose proof (hlen_nonneg x).
  destruct (Z.leb_spec (hsize x) (h_free (glob s))) as [H1 | H1].
  - right. split; [lia |]. exists [], l. split_and!; [done | | | lia].
    + symmetry. apply fit_all. rewrite used_rev. lia.
    + rewrite run_upd. unfold mret, prog_ret, evicted. cbn [length]. do 2 f_equal. f_equal.
      replace (h_size (glob s) - used l - hsize x) with (h_free (glob s) - hsize x) by lia.
      rewrite Z.add_0_r. now destruct s as [c []].
  - destruct (Z.ltb_spec (h_size (glob s)) (hsize x)) as [H2 | H2]; [left; split; [lia |]; now rewrite run_upd |].
    right. split; [lia |]. unfold table_fuel. rewrite run_assoc, run_get, run_ret.
    destruct (account_loop_spec (S (Z.to_nat (added (glob s) - deleted (glob s)))) s l (hsize x) Hp ltac:(lia) ltac:(lia) ltac:(lia))
      as (a & y & b & El & R & Hb).
    exists (a ++ [y]), b. rewrite (run_bind _ _ _ _ _ R), run_upd. rewrite !used_app in *. cbn [used] in *.
    assert (used l = used a + (hsize y + used b)) as Eu by (rewrite El, used_app; reflexivity).
    split_and!; [now rewrite <- app_assoc | | | lia].
    + rewrite El, List.rev_app_distr. cbn [rev]. rewrite <- app_assoc. symmetry. apply (fit_stop _ (rev b)).
      rewrite used_rev. lia.
    + unfold mret, prog_ret, evicted. cbn [glob set_free h_free cells]. do 2 f_equal. f_equal.
      replace (h_size (glob s) - used b - hsize x) with (h_free (glob s) + (used a + (hsize y + 0)) - hsize x) by lia. done.
Qed.

(** ** The parts of [ngx_http_v2_add_header] *)

(** The answers of the pool are addresses that nothing uses. *)
Record pool_ok (s : hstore) : Prop := {
  pool_fresh : NoDup (pool (glob s));
  pool_unused a : a ∈ pool (glob s) -> a <> NULL /\ a ∉ dom (cells s) }.

Lemma palloc_spec {B} (f : Z -> hprog B) s :
  (pool (glob s) = [] /\ (a ← ngx_palloc; f a) s = f NULL s) \/
  (exists a p, pool (glob s) = a :: p /\ (a ← ngx_palloc; f a) s = f a (mk_store (cells s) (set_pool p (glob s)))).
Proof.
  unfold ngx_palloc. rewrite run_assoc, run_get. destruct (pool (glob s)) as [|a p] eqn:E; [now left |].
  right. exists a, p. split; [done |]. rewrite run_assoc, run_put. done.
Qed.

(** All but the bookkeeping of the slots is as before. *)
Definition same_ring (h h' : ngx_http_v2_hpack_t) : Prop :=
  entries h' = entries h /\ added h' = added h /\ deleted h' = deleted h /\ allocated h' = allocated h /\
  h_size h' = h_size h /\ h_free h' = h_free h /\ storage h' = storage h /\ h_pos h' = h_pos h /\ memory h' = memory h.

(** [a] is a struct that none of the places uses, and there is a free place, or
    all are taken by live entries. *)
Record taken (s : hstore) (a : Z) : Prop := {
  taken_cell : a ∈ dom (cells s);
  taken_apart i : reused (glob s) <= i < added (glob s) -> slot (glob s) i <> a;
  taken_free : added (glob s) - reused (glob s) < allocated (glob s) \/
    added (glob s) - deleted (glob s) = allocated (glob s) /\ reused (glob s) = deleted (glob s) }.

Lemma slot_same h h' : entries h' = entries h -> allocated h' = allocated h -> slot h' = slot h.
Proof. unfold slot. now intros -> ->. Qed.

Lemma take_entry_spec s l :
  part s l -> pool_ok s ->
  (pool (glob s) = [] /\ exists s', take_entry s = Some (None, s')) \/
  (exists a s', take_entry s = Some (Some a, s') /\ part s' l /\ pool_ok s' /\ same_ring (glob s) (glob s') /\ taken s' a /\
   (length (pool (glob s)) <= S (length (pool (glob s'))))%nat).
Proof.
  intros Hp [Hn Hu]. pose proof Hp as [Hs Hc (v & Hv & Hpos)]. pose proof Hs as [Ha Ho Hi Hd].
  unfold take_entry. rewrite run_get. destruct (Z.eqb_spec (reused (glob s)) (deleted (glob s))) as [E | E].
  - match goal with |- context [mbind ?f ngx_palloc] => destruct (palloc_spec f s) as [[Ep R] | (a & p & Ep & R)] end; rewrite R.
    + left. split; [done |]. rewrite decide_True by done. now eexists.
    + right. rewrite Ep in *. destruct (Hu a) as [Ha0 Had]; [left |]. rewrite decide_False by done.
      eexists a, _. split; [reflexivity |]. cbn [cells glob]. split_and!.
      * split; cbn [cells glob set_pool added deleted].
        -- split; cbn [cells glob set_pool entries allocated reused added deleted]; try done.
           intros i Hir. rewrite dom_insert_L. apply elem_of_union_r. exact (Hd i Hir).
        -- done.
        -- exists v. split; [| exact Hpos]. clear -Hv Had Hd Ho Hc. cbn [set_pool glob].
           assert (forall i v, reused (glob s) <= i -> i + Z.of_nat (length l) <= added (glob s) -> holds_headers s i v l ->
             holds_headers (mk_store (<[a:=mk_header 0 0 0 0]> (cells s)) (set_pool p (glob s))) i v l) as Q.
           { clear Hv Hc. induction l as [|x l IH]; intros i w H1 H2; cbn [holds_headers length] in *; [done |].
             intros [(e & He & [D1 D2 D3]) Hl]. split; [| apply IH; [lia | lia | done]]. exists e.
             change (slot (glob (mk_store _ (set_pool p (glob s)))) i) with (slot (glob s) i). cbn [cells].
             rewrite lookup_insert_ne; [split; [done |]; now split |]. intros ->. apply Had. now apply elem_of_dom. }
           apply Q; [lia | lia | exact Hv].
      * split; cbn [glob set_pool pool cells]; [now apply NoDup_cons in Hn |]. apply NoDup_cons in Hn as [Hn1 _].
        intros b Hb. destruct (Hu b) as [Hb0 Hbd]; [now right |]. split; [done |]. rewrite dom_insert_L, not_elem_of_union, not_elem_of_singleton.
        split; [| done]. now intros ->.
      * done.
      * split; cbn [cells glob set_pool reused added deleted allocated].
        -- rewrite dom_insert_L. apply elem_of_union_l. now apply elem_of_singleton.
        -- intros i Hir Hsl. apply Had. rewrite <- Hsl. exact (Hd i Hir).
        -- lia.
      * done.
  - right. rewrite (run_entry _ _ _ Hs), run_upd. eexists _, _. split; [reflexivity |]. cbn [cells glob]. split_and!.
    + split; cbn [cells glob set_reused added deleted]; [| done | exists v; split; [| exact Hpos]].
      * split; cbn [cells glob set_reused entries allocated reused added deleted]; try done; [lia | |].
        -- intros i j Hi1 Hj1. apply Hi; lia.
        -- intros i Hir. apply Hd. lia.
      * eapply holds_headers_mono; [| | | | exact Hv]; done.
    + now split.
    + done.
    + split; cbn [cells glob set_reused reused added deleted allocated].
      * apply Hd. lia.
      * intros i Hir Hsl. apply Hi in Hsl; lia.
      * lia.
    + cbn. lia.
Qed.

Lemma on_tape_kept M M' base v l w n :
  on_tape M base v l -> tape_kept M M' base w n -> v + Z.of_nat (length l) <= w -> w + n <= v + ring_size -> on_tape M' base v l.
Proof.
  intros Hl Hk H1 H2 k Hr. rewrite <- (Hl k Hr). apply Hk.
  - intros j Hj. replace (w + j) with (v + (w - v + j)) by lia. apply place_inj; lia.
  - unfold place. pose proof (Z.mod_pos_bound (v + k) ring_size ltac:(unfold ring_size; lia)). lia.
Qed.

Lemma tape_kept_trans M1 M2 M3 base v n m :
  0 <= n -> 0 <= m -> tape_kept M1 M2 base v n -> tape_kept M2 M3 base (v + n) m -> tape_kept M1 M3 base v (n + m).
Proof.
  intros Hn Hm H1 H2 x Hx Hr. rewrite H2, H1; try done.
  - intros k Hk. apply Hx. lia.
  - intros k Hk. replace (v + n + k) with (v + (n + k)) by lia. apply Hx. lia.
Qed.

(** The headers stay when only other structs and other bytes change. *)
Lemma holds_headers_frame s s' i v l w n :
  slot (glob s') = slot (glob s) -> storage (glob s') = storage (glob s) ->
  (forall j, i <= j < i + Z.of_nat (length l) -> cells s' !! slot (glob s) j = cells s !! slot (glob s) j) ->
  tape_kept (memory (glob s)) (memory (glob s')) (storage (glob s)) w n ->
  v + tape_len l <= w -> w + n <= v + ring_size ->
  holds_headers s i v l -> holds_headers s' i v l.
Proof.
  intros Hs Hst Hc Hk. revert i v Hc. induction l as [|x l IH]; intros i v Hc H1 H2; cbn [holds_headers tape_len length] in *; [done |].
  assert (0 <= tape_len l) by (clear; induction l as [|y l IH]; cbn [tape_len]; [lia | pose proof (hlen_nonneg y); lia]).
  pose proof (hlen_nonneg x). intros [(e & He & [D1 D2 [D3 D4]]) Hl]. split.
  - exists e. rewrite Hs, Hc by lia. split; [done |]. unfold hlen in *. split; rewrite ?Hst; try done. split.
    + eapply on_tape_kept; [exact D3 | exact Hk | lia | lia].
    + eapply on_tape_kept; [exact D4 | exact Hk | lia | lia].
  - apply IH; [intros j Hj; apply Hc; lia | lia | lia | done].
Qed.

Lemma fill_entry_spec s l a x :
  part s l -> taken s a -> hlen x + tape_len l <= ring_size ->
  exists e p M v, fill_entry a x.1 x.2 s =
      Some (tt, mk_store (<[a := e]> (cells s)) (set_pos p (set_memory M (glob s)))) /\
    let h' := set_pos p (set_memory M (glob s)) in
    holds_headers (mk_store (<[a := e]> (cells s)) h') (deleted (glob s)) v l /\
    describes h' (v + tape_len l) x e /\ at_ring (storage (glob s)) p (v + tape_len l + hlen x).
Proof.
  intros [Hs Hc (v & Hv & Hpos)] [Hd Hap _] Hlen. apply elem_of_dom in Hd as [e0 He0]. set (h := glob s) in *.
  assert (0 <= tape_len l) by (clear; induction l as [|y l IH]; cbn [tape_len]; [lia | pose proof (hlen_nonneg y); lia]).
  unfold hlen in *. set (n := Z.of_nat (length x.1)) in *. set (m := Z.of_nat (length x.2)) in *.
  set (w := v + tape_len l) in *. set (avail := storage h + ring_size - h_pos h).
  unfold fill_entry. rewrite run_get. cbv zeta. fold h n m avail. erewrite run_st by exact He0.
  set (s1 := mk_store (alter _ a (cells s)) (glob s)).
  destruct (ring_write_spec s1 x.1 avail w Hpos) as (p1 & M1 & R1 & Ep & P1 & T1 & K1); [unfold n in *; lia | now left |].
  cbn [glob s1] in P1, T1, K1, Ep. fold h n in R1, P1, T1, K1, Ep.
  rewrite (run_bind _ _ _ _ _ R1), run_get. cbn [glob h_pos set_pos].
  erewrite run_st; [| cbn [cells s1]; rewrite lookup_alter_eq, He0; reflexivity]. fold h. cbn [cells glob].
  set (avail' := (if n <=? avail then avail else NGX_HTTP_V2_TABLE_SIZE) - n).
  set (s2 := mk_store _ (set_pos p1 _)).
  destruct (ring_write_spec s2 x.2 avail' (w + n) P1) as (p2 & M2 & R2 & _ & P2 & T2 & K2).
  { fold m. unfold ring_size in *. lia. }
  { cbn [glob s2 storage set_pos set_memory h_pos]. unfold avail', avail, ring_size in *. rewrite Ep. destruct Hpos as [Hp0 _]. unfold ring_size in Hp0.
    change (glob s1) with h. fold m. destruct (Z.leb_spec n (storage h + 4096 - h_pos h)); [left; lia | right; lia]. }
  cbn [glob s2 storage set_pos set_memory memory] in P2, T2, K2. fold m in P2, K2.
  exists (mk_header n (h_pos h) m p1), p2, M2, v. rewrite R2. split_and!.
  - do 3 f_equal. cbn [s2 s1 cells]. apply map_eq. intros q. destruct (decide (q = a)) as [-> | Hq].
    + now rewrite lookup_insert_eq, !lookup_alter_eq, He0.
    + now rewrite lookup_insert_ne, !lookup_alter_ne by done.
  - assert (tape_kept (memory h) M2 (storage h) w (n + m)) as K
      by (apply (tape_kept_trans _ M1); [unfold n; lia | unfold m; lia | exact K1 | exact K2]).
    eapply (holds_headers_frame s); [done | done | | exact K | unfold w; lia | unfold w, ring_size in Hlen |- *; lia | exact Hv].
    intros j Hj. cbn [cells]. rewrite lookup_insert_ne; [done |]. intros Q. apply (Hap j); [| done].
    pose proof (slots_order _ Hs) as Ho. fold h in Ho. lia.
  - cbn [set_pos set_memory storage memory]. split; cbn [name_len name_data value_len value_data memory storage]; try done.
    fold n. split; [| exact T2]. eapply on_tape_kept; [exact T1 | exact K2 | unfold n; lia | unfold ring_size in Hlen |- *; lia].
  - replace (v + tape_len l + (n + m)) with (w + n + m) by (unfold w; lia). exact P2.
Qed.

 (** After the check for a longer array: the same entries, and a free place. *)
Lemma table_grow_spec s l v x e a :
  slots_ok s -> added (glob s) - deleted (glob s) = Z.of_nat (length l) -> pool_ok s -> taken s a ->
  holds_headers s (deleted (glob s)) v l -> describes (glob s) (v + tape_len l) x e ->
  (pool (glob s) = [] /\ exists s', table_grow s = Some (false, s')) \/
  (exists h', table_grow s = Some (true, mk_store (cells s) h') /\ let s' := mk_store (cells s) h' in
   slots_ok s' /\ (forall i, reused h' <= i < added h' -> slot h' i <> a) /\ added h' - reused h' < allocated h' /\
   added h' - deleted h' = Z.of_nat (length l) /\ holds_headers s' (deleted h') v l /\ describes h' (v + tape_len l) x e /\
   h_size h' = h_size (glob s) /\ h_free h' = h_free (glob s) /\ storage h' = storage (glob s) /\ h_pos h' = h_pos (glob s) /\
   pool_ok s' /\ (length (pool (glob s)) <= S (length (pool h')))%nat).
Proof.
  intros Hs Hc [Hn Hu] [Hcell Hap Hfree] Hv He. pose proof Hs as [(ents & Ea & El & Hpos) Ho Hi Hd].
  unfold table_grow. rewrite run_get. destruct (Z.eqb_spec (allocated (glob s)) (added (glob s) - deleted (glob s))) as [E | E].
  2:{ right. exists (glob s). destruct s as [c h]. split; [done |]. cbn [glob cells] in *. split_and!; first [done | lia | now split]. }
  match goal with |- context [mbind ?f ngx_palloc] => destruct (palloc_spec f s) as [[Ep R] | (b & p & Ep & R)] end; rewrite R.
  { left. split; [done |]. rewrite decide_True by done. now eexists. }
  right. rewrite Ep in *. destruct (Hu b) as [Hb0 _]; [left |]. rewrite decide_False by done. cbv zeta. rewrite run_upd.
  cbn [glob cells set_pool entries]. eexists. split; [reflexivity |]. cbv zeta.
  rewrite Ea. change (default [] (Some ents)) with ents.
  set (n := allocated (glob s)) in *. set (d := deleted (glob s)) in *. set (k := Z.to_nat (d mod n)).
  set (h' := set_allocated _ _).
  pose proof (Z.mod_pos_bound d n Hpos) as Hk.
  assert (forall i, 0 <= i < n -> slot h' i = slot (glob s) (d + i)) as Hslot.
  { intros i Hir. unfold slot. cbn [h' set_pool set_allocated allocated set_reused set_deleted set_added set_entries entries]. rewrite Ea.
    change (default [] (Some ents)) with ents. change (default [] (Some ?u)) with u. fold n.
    rewrite (Z.mod_small i) by lia. rewrite <- (Z.add_mod_idemp_l d) by lia.
    assert (length (skipn k ents) = (Z.to_nat n - k)%nat) as L1 by (rewrite List.length_skipn; lia).
    assert (length (firstn k ents) = k) as L2 by (rewrite List.length_firstn; lia).
    destruct (Z.lt_ge_cases (d mod n + i) n) as [Hlt | Hge].
    - rewrite List.app_nth1 by lia. rewrite List.nth_skipn, (Z.mod_small (d mod n + i)) by lia. f_equal. unfold k. lia.
    - rewrite List.app_nth2, L1 by lia. rewrite List.app_nth1 by lia. rewrite List.nth_firstn.
      replace ((d mod n + i) mod n) with (d mod n + i - n) by (rewrite <- (Z.mod_add (d mod n + i) (-1) n) by lia; rewrite (Z.mod_small (d mod n + i + _)); lia).
      destruct (Nat.ltb_spec (Z.to_nat i - (Z.to_nat n - k)) k); [f_equal; unfold k; lia | unfold k in *; lia]. }
  assert (forall j w ls, 0 <= j -> j + Z.of_nat (length ls) <= n -> holds_headers s (d + j) w ls ->
    holds_headers (mk_store (cells s) h') j w ls) as Hh.
  { intros j w ls. revert j w. induction ls as [|y ls IH]; intros j w Hj Hl; cbn [holds_headers length] in *; [done |].
    intros [(e' & He' & [D1 D2 D3]) Hls]. split.
    - exists e'. cbn [cells glob]. rewrite Hslot by lia. split; [done |]. now split.
    - apply IH; [lia | lia |]. now replace (d + (j + 1)) with (d + j + 1) by lia. }
  split_and!; try done.
  - split; cbn [cells glob h' set_allocated allocated set_reused reused set_deleted deleted set_added added set_entries set_pool entries]; fold n.
    + eexists. split; [reflexivity |]. rewrite !List.length_app, List.length_skipn, List.length_firstn, List.repeat_length. lia.
    + lia.
    + intros i j Hi1 Hj1. fold h'. rewrite !Hslot by lia. intros Q. apply Hi in Q; lia.
    + intros i Hi1. fold h'. rewrite Hslot by lia. apply Hd. lia.
  - cbn [h' set_allocated allocated set_reused reused set_deleted deleted set_added added set_entries set_pool entries]. fold n h'.
    intros i Hi1. rewrite Hslot by lia. apply Hap. lia.
  - cbn. lia.
  - cbn. fold n. lia.
  - change (deleted h') with 0. apply Hh; [lia | lia |]. now rewrite Z.add_0_r.
  - destruct He as [D1 D2 D3]. now split.
  - split; cbn [cells glob h' set_allocated set_reused set_deleted set_added set_entries set_pool pool];
      [now apply NoDup_cons in Hn | intros q Hq; apply Hu; now right].
Qed.

(** The last steps of the addition. *)
Definition put_entry (a : Z) (s : hstore) : hstore :=
  mk_store (cells s) (set_added (added (glob s) + 1)
    (set_entries ((fun l => <[Z.to_nat (added (glob s) mod allocated (glob s)) := a]> l) <$> entries (glob s)) (glob s))).

Lemma mod_close n i d : d - n < i <= d -> i mod n = d mod n -> i = d.
Proof.
  intros H E. assert ((d - i) mod n = 0) as Q by (rewrite Zminus_mod, E, Z.sub_diag; apply Z.mod_0_l; lia).
  rewrite Z.mod_small in Q; lia.
Qed.

Lemma slot_put_entry s a i :
  slots_ok s -> added (glob s) - allocated (glob s) < i <= added (glob s) ->
  slot (glob (put_entry a s)) i = if i =? added (glob s) then a else slot (glob s) i.
Proof.
  intros [(l & El & Hl & Hp) _ _ _] Hi. unfold slot, put_entry.
  cbn [glob set_added set_entries entries allocated]. rewrite El. cbn [fmap option_fmap option_map].
  change (default [] (Some ?u)) with u. set (n := allocated (glob s)) in *. set (d := added (glob s)) in *.
  pose proof (Z.mod_pos_bound i n Hp). pose proof (Z.mod_pos_bound d n Hp).
  rewrite !nth_lookup. destruct (Z.eqb_spec i d) as [-> | Hne].
  - rewrite list_lookup_insert_eq by lia. done.
  - rewrite list_lookup_insert_ne; [done |]. intros Q. apply Z2Nat.inj in Q; [| lia | lia].
    symmetry in Q. apply mod_close in Q; [done | lia].
Qed.

Lemma holds_headers_snoc s i v l x :
  holds_headers s i v l ->
  (exists e, cells s !! slot (glob s) (i + Z.of_nat (length l)) = Some e /\ describes (glob s) (v + tape_len l) x e) ->
  holds_headers s i v (l ++ [x]).
Proof.
  revert i v. induction l as [|y l IH]; intros i v; cbn [app holds_headers tape_len length].
  - rewrite !Z.add_0_r. intros _ H. now split.
  - intros [Hy Hl] H. split; [exact Hy |]. apply IH; [exact Hl |].
    replace (i + 1 + Z.of_nat (length l)) with (i + Z.of_nat (S (length l))) by lia. now rewrite <- Z.add_assoc.
Qed.

(** The entry for [x] goes to the free place. *)
Lemma put_entry_live s a l v x e :
  slots_ok s -> (forall i, reused (glob s) <= i < added (glob s) -> slot (glob s) i <> a) ->
  added (glob s) - reused (glob s) < allocated (glob s) -> added (glob s) - deleted (glob s) = Z.of_nat (length l) ->
  holds_headers s (deleted (glob s)) v l -> describes (glob s) (v + tape_len l) x e -> cells s !! a = Some e ->
  at_ring (storage (glob s)) (h_pos (glob s)) (v + tape_len l + hlen x) ->
  0 <= h_free (glob s) -> h_free (glob s) + used l + hsize x = h_size (glob s) -> h_size (glob s) <= ring_size ->
  live (put_entry a s) (l ++ [x]).
Proof.
  intros Hs Hap Hfree Hc Hv He Ha Hpos H0 Hu Hm. pose proof Hs as [(ents & Ea & El & Hp) Ho Hi Hd].
  pose proof (fun i => slot_put_entry s a i Hs) as Hslot. set (s' := put_entry a s) in *.
  split.
  - split; cbn [s' put_entry cells glob set_added set_entries entries allocated reused added deleted].
    + rewrite Ea. eexists. split; [reflexivity |]. cbn. rewrite length_insert. done.
    + lia.
    + fold s'. change (mk_store (cells s) _) with s'. intros i j Hi1 Hj1. fold (put_entry a s).
      change (set_added _ _) with (glob s'). rewrite !Hslot by lia.
      destruct (Z.eqb_spec i (added (glob s))), (Z.eqb_spec j (added (glob s))); intros Q; try lia.
      * exfalso. apply (Hap j); [lia | done].
      * exfalso. apply (Hap i); [lia | done].
      * apply Hi; [lia | lia | done].
    + change (set_added _ _) with (glob s'). intros i Hi1. rewrite Hslot by lia.
      destruct (Z.eqb_spec i (added (glob s))); [apply elem_of_dom; eauto | apply Hd; lia].
  - cbn. rewrite List.length_app. cbn. lia.
  - cbn. rewrite used_app. cbn. lia.
  - exists v. change (deleted (glob s')) with (deleted (glob s)). rewrite tape_len_app. cbn [tape_len].
    rewrite Z.add_0_r, Z.add_assoc. split; [| exact Hpos].
    assert (forall i w ls, deleted (glob s) <= i -> i + Z.of_nat (length ls) <= added (glob s) -> holds_headers s i w ls -> holds_headers s' i w ls) as Hh.
    { intros i w ls. revert i w. induction ls as [|y ls IH]; intros i w H1 H2; cbn [holds_headers length] in *; [done |].
      intros [(e' & He' & [D1 D2 D3]) Hls]. split; [| apply IH; [lia | lia | done]].
      exists e'. rewrite Hslot by lia. destruct (Z.eqb_spec i (added (glob s))); [lia |]. split; [done |]. now split. }
    apply holds_headers_snoc; [apply Hh; [lia | lia | done] |]. exists e.
    replace (deleted (glob s) + Z.of_nat (length l)) with (added (glob s)) by lia. rewrite Hslot by lia. rewrite Z.eqb_refl.
    split; [exact Ha |]. destruct He as [D1 D2 D3]. now split.
Qed.

(** ** The operations *)

(** The state of the code for a table. *)
Definition represents (s : hstore) (t : table) : Prop :=
  h_size (glob s) = t_max t /\
  match entries (glob s) with
  | None => t_used t = false /\ t_list t = [] /\ h_free (glob s) = t_max t /\ 0 <= t_max t <= ring_size /\
      added (glob s) = 0 /\ deleted (glob s) = 0 /\ reused (glob s) = 0
  | Some _ => t_used t = true /\ live s (rev (t_list t))
  end.

Lemma pool_ok_next s c h p a : pool_ok s -> pool (glob s) = a :: p -> c = cells s -> pool h = p -> pool_ok (mk_store c h).
Proof.
  intros [Hn Hu] E -> Hp. rewrite E in Hn, Hu. apply NoDup_cons in Hn as [_ Hn].
  split; cbn [glob cells]; rewrite Hp; [done |]. intros b Hb. apply Hu. now right.
Qed.

Lemma create_spec s :
  pool_ok s -> added (glob s) = 0 -> deleted (glob s) = 0 -> reused (glob s) = 0 ->
  ((length (pool (glob s)) < 2)%nat /\ exists s', table_create s = Some (false, s')) \/
  (exists s', table_create s = Some (true, s') /\ live s' [] /\ pool_ok s' /\ h_size (glob s') = ring_size /\
    entries (glob s') <> None /\ (length (pool (glob s)) <= S (S (length (pool (glob s')))))%nat).
Proof.
  intros Hp Ha Hd Hr. unfold table_create. rewrite run_upd. set (s1 := mk_store (cells s) _).
  assert (pool_ok s1) as Hp1 by (destruct Hp as [H1 H2]; now split).
  match goal with |- context [mbind ?f ngx_palloc] => destruct (palloc_spec f s1) as [[Ep R] | (b & p & Ep & R)] end; rewrite R.
  { left. cbn in Ep. rewrite Ep. split; [cbn; lia |]. rewrite decide_True by done. now eexists. }
  destruct (pool_unused _ Hp1 b) as [Hb _]; [rewrite Ep; left |]. rewrite decide_False by done. rewrite run_upd.
  set (s2 := mk_store (cells (mk_store (cells s1) _)) _).
  assert (pool_ok s2) as Hp2 by (eapply (pool_ok_next s1); [done | exact Ep | done | done]).
  match goal with |- context [mbind ?f ngx_palloc] => destruct (palloc_spec f s2) as [[Ep2 R2] | (q & p2 & Ep2 & R2)] end; rewrite R2.
  { left. cbn in Ep, Ep2. rewrite Ep, Ep2. split; [cbn; lia |]. rewrite run_upd, decide_True by done. now eexists. }
  destruct (pool_unused _ Hp2 q) as [Hq _]; [rewrite Ep2; left |]. rewrite run_upd, decide_False by done. rewrite run_upd.
  right. eexists. split; [reflexivity |]. split_and!.
  - cbn. split.
    + split; cbn; [eexists; split; [reflexivity |]; now split | lia | intros i j ?; lia | intros i ?; lia].
    + cbn. lia.
    + cbn. unfold ring_size. lia.
    + exists 0. cbn. unfold at_ring, ring_size. rewrite Z.sub_diag. split; [done |]. split; [lia | done].
  - eapply (pool_ok_next s2); [done | exact Ep2 | done | done].
  - done.
  - done.
  - cbn in *. rewrite Ep, Ep2. cbn. lia.
Qed.

Lemma table_store_spec s l x :
  part s l -> pool_ok s -> entries (glob s) <> None ->
  0 <= h_free (glob s) -> h_free (glob s) + used l + hsize x = h_size (glob s) -> h_size (glob s) <= ring_size ->
  ((length (pool (glob s)) < 2)%nat /\ exists s', table_store x.1 x.2 s = Some (NGX_ERROR, s')) \/
  (exists s', table_store x.1 x.2 s = Some (NGX_OK, s') /\ live s' (l ++ [x]) /\ pool_ok s' /\ entries (glob s') <> None /\
    h_size (glob s') = h_size (glob s) /\ (length (pool (glob s)) <= S (S (length (pool (glob s')))))%nat).
Proof.
  intros P2 Hp2 Hne F1 F2 F3. unfold table_store.
  destruct (take_entry_spec s l P2 Hp2) as [(E0 & s' & R2) | (q & s3 & R2 & P3 & Hp3 & S3 & T3 & L3)]; rewrite (run_bind _ _ _ _ _ R2).
  { left. rewrite E0. split; [cbn; lia |]. now eexists. }
  destruct S3 as (Se & Sa & Sd & Sal & Ssz & Sf & Sst & Spos & Sm).
  pose proof (tape_len_used l). pose proof (used_nonneg l).
  destruct (fill_entry_spec s3 l q x P3 T3) as (e & p & M & v & R3 & Hv & He & Hpos); [unfold hsize in *; lia |].
  rewrite (run_bind _ _ _ _ _ R3). cbv zeta in Hv, He. set (s4 := mk_store _ _) in *.
  destruct P3 as [P3s P3c _]. destruct T3 as [T3c T3a T3f].
  assert (dom (cells s4) = dom (cells s3)) as Hdom by (cbn [s4 cells]; rewrite dom_insert_L; set_solver).
  assert (slots_ok s4) as Hs4.
  { destruct P3s as [G1 G2 G3 G4]. split; try done. intros i Hi. rewrite Hdom. exact (G4 i Hi). }
  assert (pool_ok s4) as Hp4.
  { destruct Hp3 as [G1 G2]. split; [exact G1 |]. intros c Hc. rewrite Hdom. exact (G2 c Hc). }
  assert (taken s4 q) as T4 by (split; [now rewrite Hdom | exact T3a | exact T3f]).
  destruct (table_grow_spec s4 l v x e q Hs4 P3c Hp4 T4 Hv He) as [(E0 & s' & R4) | (h' & R4 & K)]; rewrite (run_bind _ _ _ _ _ R4).
  { left. cbn in E0. rewrite E0 in L3. split; [cbn in L3; lia |]. now eexists. }
  cbv zeta in K. destruct K as (K1 & K2 & K3 & K4 & K5 & K6 & K7 & K8 & K9 & K10 & K11 & K12). cbn [negb].
  rewrite run_get, run_upd. right. eexists. split; [reflexivity |].
  change (mk_store (cells (mk_store (cells s4) h')) _) with (put_entry q (mk_store (cells s4) h')).
  cbn [s4 glob set_pos set_memory h_size h_free storage h_pos pool] in K7, K8, K9, K10, K12.
  split_and!.
  - apply (put_entry_live _ _ _ v x e); cbn [glob cells]; try done; try lia.
    + cbn [s4 cells]. now rewrite lookup_insert_eq.
    + rewrite K9, K10. exact Hpos.
  - destruct K11 as [G1 G2]. now split.
  - cbn [put_entry glob set_added set_entries entries].
    destruct (slots_array _ K1) as (ents' & Ea' & _). cbn [glob] in Ea'. now rewrite Ea'.
  - cbn. congruence.
  - cbn [put_entry glob set_added set_entries pool]. lia.
Qed.

(** [ngx_http_v2_add_header] when the table has been created. *)
Lemma add_live s l x :
  live s l -> pool_ok s -> entries (glob s) <> None ->
  let t := table_add x (mk_table true (h_size (glob s)) (rev l)) in
  ((length (pool (glob s)) < 2)%nat /\ exists s', ngx_http_v2_add_header x.1 x.2 s = Some (NGX_ERROR, s')) \/
  (exists s', ngx_http_v2_add_header x.1 x.2 s = Some (NGX_OK, s') /\ represents s' t /\ pool_ok s' /\
    (length (pool (glob s)) <= S (S (length (pool (glob s')))))%nat).
Proof.
  intros H Hp Hne. cbv zeta. unfold ngx_http_v2_add_header. rewrite run_get.
  destruct (entries (glob s)) as [ents|] eqn:Ee; [| done]. rewrite run_ret. cbn [negb].
  change (Z.of_nat (length x.1) + Z.of_nat (length x.2)) with (hlen x).
  unfold table_add. cbn [t_used t_max t_list]. destruct (live_fits _ _ H) as (F1 & F2 & F3).
  destruct (account_spec s l x H) as [[Hbig R] | (Hle & a & b & El & Eb & R & Hfree)]; rewrite (run_bind _ _ _ _ _ R);
    case Z.ltb_spec; intros Hc; try lia.
  { right. eexists. split; [reflexivity |]. split_and!.
    - split; [done |]. cbn [evicted glob set_free set_deleted entries]. rewrite Ee. split; [done |].
      destruct (part_drop s l (live_part _ _ H)) as [P1 P2 P3]. pose proof (used_nonneg l).
      split; [done | done | cbn; lia | done].
    - destruct Hp as [H1 H2]. now split.
    - cbn. lia. }
  change (NGX_OK =? NGX_OK) with true. cbn [negb]. rewrite <- Eb. set (s2 := evicted _ _ s) in *.
  assert (part s2 b) as P2 by (apply part_evicted; rewrite <- El; now apply live_part).
  assert (pool_ok s2) as Hp2 by (destruct Hp as [H1 H2]; now split).
  destruct (table_store_spec s2 b x P2 Hp2) as [(L & s' & R2) | (s' & R2 & H' & Hp' & Hne' & Es & L)];
    [cbn; congruence | cbn; lia | cbn; lia | cbn; lia | |].
  - left. split; [exact L |]. now exists s'.
  - right. exists s'. split_and!; [exact R2 | | exact Hp' | exact L]. split; [exact Es |].
    destruct (entries (glob s')); [| done]. cbn [t_list t_used rev]. now rewrite List.rev_involutive.
Qed.

(** [ngx_http_v2_add_header] in general. *)
Lemma add_header_spec s t x :
  represents s t -> pool_ok s ->
  ((length (pool (glob s)) < 4)%nat /\ exists s', ngx_http_v2_add_header x.1 x.2 s = Some (NGX_ERROR, s')) \/
  (exists s', ngx_http_v2_add_header x.1 x.2 s = Some (NGX_OK, s') /\ represents s' (table_add x t) /\ pool_ok s' /\
    (length (pool (glob s)) <= 4 + length (pool (glob s')))%nat).
Proof.
  intros [Hm H] Hp. destruct (entries (glob s)) as [ents|] eqn:Ee.
  - destruct H as [Hu H]. destruct (add_live s _ x H Hp ltac:(congruence)) as [(L & s' & R) | (s' & R & Hr & Hp' & L)].
    + left. split; [lia | eauto].
    + right. exists s'. split_and!; try done; [| lia]. destruct t as [u m l]. cbn in *. subst u m. now rewrite List.rev_involutive in Hr.
  - destruct H as (Hu & Hl & Hf & Hb & Ha & Hd & Hre).
    destruct (create_spec s Hp Ha Hd Hre) as [(L & s' & R) | (s1 & R & H1 & Hp1 & Es & Hne & L)].
    + left. split; [lia |]. exists s'. unfold ngx_http_v2_add_header. rewrite run_get, Ee, (run_bind _ _ _ _ _ R). done.
    + assert (ngx_http_v2_add_header x.1 x.2 s = ngx_http_v2_add_header x.1 x.2 s1) as ->.
      { unfold ngx_http_v2_add_header. rewrite !run_get, Ee, (run_bind _ _ _ _ _ R). destruct (entries (glob s1)); [done | done]. }
      destruct (add_live s1 _ x H1 Hp1 Hne) as [(L1 & s' & R1) | (s' & R1 & Hr & Hp' & L1)].
      * left. split; [lia | eauto].
      * right. exists s'. split_and!; try done; [| lia]. destruct t as [u m l]. cbn in *. subst u l. now rewrite Es in Hr.
Qed.

Lemma part_sizes s l n f : part s l -> part (mk_store (cells s) (set_free f (set_size n (glob s)))) l.
Proof.
  intros [[G1 G2 G3 G4] Hc (v & Hv & Hp)]. split; [now split | done |]. exists v. split; [| exact Hp].
  eapply holds_headers_mono; [| | | | exact Hv]; done.
Qed.

(** [ngx_http_v2_table_size] *)
Lemma table_size_spec s t n :
  represents s t -> pool_ok s -> 0 <= n ->
  (ring_size < n /\ ngx_http_v2_table_size n s = Some (NGX_ERROR, s)) \/
  (n <= ring_size /\ exists s', ngx_http_v2_table_size n s = Some (NGX_OK, s') /\ represents s' (table_resize n t) /\
    pool_ok s' /\ pool (glob s') = pool (glob s)).
Proof.
  intros [Hm H] Hp Hn. unfold ngx_http_v2_table_size. destruct (Z.ltb_spec NGX_HTTP_V2_TABLE_SIZE n) as [Hb | Hb]; [now left |].
  right. split; [done |]. rewrite run_get. unfold table_fuel. rewrite run_assoc, run_get, run_ret. cbv zeta.
  destruct (entries (glob s)) as [ents|] eqn:Ee.
  - destruct H as [Hu H]. destruct (live_fits _ _ H) as (F1 & F2 & F3). pose proof (live_count _ _ H).
    destruct (size_loop_spec (S (Z.to_nat (added (glob s) - deleted (glob s)))) s (rev (t_list t)) (h_size (glob s) - n)
      (live_part _ _ H)) as (a & b & El & R & H1 & H2); [lia | lia |].
    rewrite (run_bind _ _ _ _ _ R), run_upd. eexists. split; [reflexivity |].
    pose proof (live_part _ _ H) as Hq. rewrite El in Hq. apply (part_evicted _ _ _ (h_free (glob s) + used a)) in Hq.
    apply (part_sizes _ _ n (h_free (glob s) + used a - (h_size (glob s) - n))) in Hq as [P1 P2 P3].
    assert (used (rev (t_list t)) = used a + used b) as Eu by (now rewrite El, used_app).
    split_and!; [| destruct Hp; now split | done].
    split; [done |]. cbn [glob set_free set_size entries evicted set_deleted]. rewrite Ee.
    split; [done |]. cbn [t_list table_resize].
    assert (fit n (t_list t) = rev b) as ->.
    { assert (t_list t = rev b ++ rev a) as -> by now rewrite <- List.rev_app_distr, <- El, List.rev_involutive.
      destruct a as [|y a _] using rev_ind; [cbn; rewrite app_nil_r; apply fit_all; rewrite used_rev; cbn in *; lia |].
      rewrite List.rev_app_distr. cbn [rev app]. apply fit_stop. specialize (H2 _ _ eq_refl). rewrite used_rev.
      rewrite used_app in *. cbn [used] in *. lia. }
    rewrite List.rev_involutive. split; [exact P1 | exact P2 | cbn; lia | exact P3].
  - destruct H as (Hu & Hl & Hf & Hb' & Ha & Hd & Hre). rewrite Ha, Hd. cbn [Z.to_nat Z.sub Z.opp Z.add size_loop].
    rewrite run_assoc, run_get. destruct (Z.ltb_spec (h_free (glob s)) (h_size (glob s) - n)); [lia |].
    rewrite run_ret, run_upd. eexists. split; [reflexivity |]. split_and!; [| destruct Hp; now split | done].
    split; [done |]. cbn [glob set_free set_size entries added deleted reused h_free]. rewrite Ee. cbn [table_resize t_used t_list t_max].
    rewrite Hl. split_and!; try done. lia.
Qed.

Lemma holds_headers_nth s i v l k x :
  holds_headers s i v l -> nth_error l k = Some x ->
  exists e w, cells s !! slot (glob s) (i + Z.of_nat k) = Some e /\ describes (glob s) w x e.
Proof.
  revert i v k. induction l as [|y l IH]; intros i v [|k]; cbn [holds_headers nth_error]; [done | done | |].
  - intros [(e & He & D) _] [= <-]. exists e, v. now rewrite Z.add_0_r.
  - intros [_ Hl] Hx. destruct (IH _ _ _ Hl Hx) as (e & w & He & D). exists e, w.
    replace (i + Z.of_nat (S k)) with (i + 1 + Z.of_nat k) by lia. done.
Qed.

Lemma used_nth l k x : nth_error l k = Some x -> hsize x <= used l.
Proof.
  revert k. induction l as [|y l IH]; intros [|k]; cbn [nth_error used]; [done | done | |].
  - intros [= <-]. pose proof (used_nonneg l). lia.
  - intros H. apply IH in H. pose proof (hlen_nonneg y). unfold hsize in *. lia.
Qed.

(** The pool is no part of the table. *)
Lemma represents_pool s h t : represents s t -> (exists p, h = set_pool p (glob s)) -> represents (mk_store (cells s) h) t.
Proof.
  intros [Hm H] [p ->]. split; [exact Hm |]. cbn [glob set_pool entries]. destruct (entries (glob s)); [| exact H].
  destruct H as [Hu [[G1 G2 G3 G4] Hc Hf (v & Hv & Hp)]]. split; [exact Hu |]. split; [now split | done | done |].
  exists v. split; [| exact Hp]. eapply holds_headers_mono; [| | | | exact Hv]; done.
Qed.

(** [ngx_http_v2_get_indexed_header] *)
Lemma get_header_spec s t i x0 :
  represents s t -> pool_ok s -> 0 <= i -> (2 <= length (pool (glob s)))%nat ->
  exists s', ngx_http_v2_get_indexed_header x0 i false s =
      Some (match table_get i t with Some x => (NGX_OK, x) | None => (NGX_ERROR, x0) end, s') /\
    represents s' t /\ pool_ok s' /\ (length (pool (glob s)) <= 2 + length (pool (glob s')))%nat.
Proof.
  intros Hr Hp Hi Hlen. unfold ngx_http_v2_get_indexed_header, table_get. pose proof Hr as [_ H].
  assert (forall r, exists s', (mret r : hprog (Z * header)) s = Some (r, s') /\ represents s' t /\ pool_ok s' /\
    (length (pool (glob s)) <= 2 + length (pool (glob s')))%nat) as Hstay by (intros r; exists s; split_and!; done || lia).
  destruct (Z.eqb_spec i 0) as [-> |]; [apply Hstay |]. destruct (Z.leb_spec i 0); [lia |].
  set (j := i - 1). destruct (Z.ltb_spec j NGX_HTTP_V2_STATIC_TABLE_ENTRIES) as [Hs | Hs].
  { rewrite List.nth_error_app1 by (unfold NGX_HTTP_V2_STATIC_TABLE_ENTRIES in Hs; lia).
    rewrite (List.nth_error_nth' _ x0) by (unfold NGX_HTTP_V2_STATIC_TABLE_ENTRIES in Hs; lia). apply Hstay. }
  rewrite List.nth_error_app2 by (unfold NGX_HTTP_V2_STATIC_TABLE_ENTRIES in Hs; lia). rewrite run_get.
  set (k := j - NGX_HTTP_V2_STATIC_TABLE_ENTRIES).
  replace (Z.to_nat j - length ngx_http_v2_static_table)%nat with (Z.to_nat k) by (unfold k, NGX_HTTP_V2_STATIC_TABLE_ENTRIES; lia).
  assert (added (glob s) - deleted (glob s) = Z.of_nat (length (t_list t))) as Hc.
  { destruct (entries (glob s)); [destruct H as [_ H]; rewrite (live_count _ _ H), List.length_rev; done |].
    destruct H as (_ & -> & _ & _ & -> & -> & _). done. }
  rewrite Hc. destruct (Z.ltb_spec k (Z.of_nat (length (t_list t)))) as [Hk | Hk].
  2:{ assert (nth_error (t_list t) (Z.to_nat k) = None) as -> by (apply List.nth_error_None; lia). apply Hstay. }
  destruct (entries (glob s)) as [ents|] eqn:Ee; [| destruct H as (_ & El & _); rewrite El in Hk; cbn in Hk; lia].
  destruct H as [Hu H]. pose proof H as [Hsl _ (F1 & F2 & F3) (v & Hv & _)].
  destruct (nth_error (t_list t) (Z.to_nat k)) as [x|] eqn:Ex; [| apply List.nth_error_None in Ex; lia].
  set (m := (length (t_list t) - S (Z.to_nat k))%nat).
  assert (nth_error (rev (t_list t)) m = Some x) as Ex'.
  { rewrite List.nth_error_rev. destruct (Nat.ltb_spec m (length (t_list t))); [| unfold m in *; lia].
    rewrite <- Ex. f_equal. unfold m. lia. }
  destruct (holds_headers_nth s _ _ _ _ _ Hv Ex') as (e & w & He & [[N1 N2] [V1 V2] [T1 T2]]).
  pose proof (used_nth _ _ _ Ex) as Hsz. rewrite used_rev in F2. unfold hsize, hlen in Hsz.
  rewrite (run_entry _ _ _ Hsl). replace (added (glob s) - k - 1) with (deleted (glob s) + Z.of_nat m) by (unfold m; lia).
  match goal with |- context [mbind ?f ngx_palloc] => destruct (palloc_spec f s) as [[Ep R] | (b & p & Ep & R)] end; rewrite R;
    [rewrite Ep in Hlen; cbn in Hlen; lia |].
  destruct (pool_unused _ Hp b) as [Hb _]; [rewrite Ep; left |]. rewrite decide_False by done. set (s1 := mk_store (cells s) _).
  assert (pool_ok s1) as Hp1 by (eapply (pool_ok_next s); [done | exact Ep | done | done]).
  erewrite run_ld by exact He. erewrite run_ld by exact He. rewrite N1.
  rewrite (run_bind _ _ _ _ _ (ring_copy_spec s1 (name_data e) w x.1 N2 T1 ltac:(lia))).
  match goal with |- context [mbind ?f ngx_palloc] => destruct (palloc_spec f s1) as [[Ep2 R2] | (q & p2 & Ep2 & R2)] end; rewrite R2;
    [cbn in Ep2; rewrite Ep, Ep2 in Hlen; cbn in Hlen; lia |].
  destruct (pool_unused _ Hp1 q) as [Hq _]; [rewrite Ep2; left |]. rewrite decide_False by done. set (s2 := mk_store (cells s1) _).
  assert (pool_ok s2) as Hp2 by (eapply (pool_ok_next s1); [done | exact Ep2 | done | done]).
  erewrite run_ld by exact He. erewrite run_ld by exact He. rewrite V1.
  rewrite (run_bind _ _ _ _ _ (ring_copy_spec s2 (value_data e) _ x.2 V2 T2 ltac:(lia))).
  exists s2. split_and!; [now destruct x | | exact Hp2 | cbn in Ep2 |- *; rewrite Ep, Ep2; cbn; lia].
  apply (represents_pool s1); [apply (represents_pool s); [done | now eexists] | now eexists].
Qed.

(** ** Sequences of operations *)

Inductive table_op :=
| AddHeader (x : header)
| SetSize (n : Z)
| GetHeader (i : Z).

Definition op_ok (o : table_op) : Prop :=
  match o with AddHeader _ => True | SetSize n => 0 <= n | GetHeader i => 0 <= i end.

Definition no_header : header := ([], []).

Definition run_op (o : table_op) : hprog (Z * header) :=
  match o with
  | AddHeader x => rc ← ngx_http_v2_add_header x.1 x.2; mret (rc, no_header)
  | SetSize n => rc ← ngx_http_v2_table_size n; mret (rc, no_header)
  | GetHeader i => ngx_http_v2_get_indexed_header no_header i false
  end.

Fixpoint run_ops (ops : list table_op) : hprog (list (Z * header)) :=
  match ops with
  | [] => mret []
  | o :: ops' => r ← run_op o; rs ← run_ops ops'; mret (r :: rs)
  end.

Definition spec_op (o : table_op) (t : table) : (Z * header) * table :=
  match o with
  | AddHeader x => ((NGX_OK, no_header), table_add x t)
  | SetSize n => if NGX_HTTP_V2_TABLE_SIZE <? n then ((NGX_ERROR, no_header), t) else ((NGX_OK, no_header), table_resize n t)
  | GetHeader i => (match table_get i t with Some x => (NGX_OK, x) | None => (NGX_ERROR, no_header) end, t)
  end.

Fixpoint spec_ops (ops : list table_op) (t : table) : list (Z * header) :=
  match ops with
  | [] => []
  | o :: ops' => (spec_op o t).1 :: spec_ops ops' (spec_op o t).2
  end.

Lemma run_op_spec o s t :
  op_ok o -> represents s t -> pool_ok s -> (4 <= length (pool (glob s)))%nat ->
  exists s', run_op o s = Some ((spec_op o t).1, s') /\ represents s' (spec_op o t).2 /\ pool_ok s' /\
    (length (pool (glob s)) <= 4 + length (pool (glob s')))%nat.
Proof.
  intros Ho Hr Hp Hl. destruct o as [x | n | i]; cbn [run_op spec_op op_ok] in *.
  - destruct (add_header_spec s t x Hr Hp) as [(L & _) | (s' & R & Hr' & Hp' & L)]; [lia |].
    exists s'. now rewrite (run_bind _ _ _ _ _ R).
  - destruct (table_size_spec s t n Hr Hp Ho) as [[Hn R] | (Hn & s' & R & Hr' & Hp' & L)];
      case Z.ltb_spec; intros Hc; try lia; cbn [fst snd]; rewrite (run_bind _ _ _ _ _ R).
    + exists s. split_and!; done || lia.
    + exists s'. split_and!; try done. rewrite L. lia.
  - destruct (get_header_spec s t i no_header Hr Hp Ho ltac:(lia)) as (s' & R & Hr' & Hp' & L).
    exists s'. split_and!; try done. lia.
Qed.

Lemma run_ops_spec ops s t :
  Forall op_ok ops -> represents s t -> pool_ok s -> (4 * length ops <= length (pool (glob s)))%nat ->
  exists s', run_ops ops s = Some (spec_ops ops t, s').
Proof.
  intros Ho. revert s t. induction Ho as [|o ops Ho _ IH]; intros s t Hr Hp Hl; cbn [run_ops spec_ops length] in *; [now exists s |].
  destruct (run_op_spec o s t Ho Hr Hp ltac:(lia)) as (s1 & R1 & Hr1 & Hp1 & L1).
  destruct (IH s1 _ Hr1 Hp1 ltac:(lia)) as (s2 & R2). exists s2.
  now rewrite (run_bind _ _ _ _ _ R1), (run_bind _ _ _ _ _ R2).
Qed.

(** C27: from an empty connection on, whatever headers are added, sizes set and
    headers asked for, the ring buffer with its entries used again answers
    what a list of headers answers from which the oldest ones are dropped;
    nothing is read through a pointer that is not valid, and all loops end. *)
Theorem hpack_table_refines ops p :
  Forall op_ok ops -> NoDup (NULL :: p) -> (4 * length ops <= length p)%nat ->
  exists s', run_ops ops (hpack_init p) = Some (spec_ops ops (mk_table false 0 []), s').
Proof.
  intros Ho Hp Hl. apply NoDup_cons in Hp as [Hp0 Hp]. apply run_ops_spec; [exact Ho | | | exact Hl].
  - split; [done |]. cbn. unfold ring_size. split_and!; done || lia.
  - split; [exact Hp |]. intros a Ha. split; [intros ->; done |]. cbn. set_solver.
Qed.

(** C30: an addition fails only when an allocation fails, which four answers of
    the pool rule out. *)
Theorem hpack_add_fails_without_memory s t x :
  represents s t -> pool_ok s ->
  exists rc s', ngx_http_v2_add_header x.1 x.2 s = Some (rc, s') /\ (rc = NGX_OK \/ rc = NGX_ERROR) /\
    (rc = NGX_ERROR -> (length (pool (glob s)) < 4)%nat) /\
    (rc = NGX_OK -> represents s' (table_add x t) /\ used (t_list (table_add x t)) <= t_max (table_add x t) <= NGX_HTTP_V2_TABLE_SIZE).
Proof.
  intros Hr Hp. destruct (add_header_spec s t x Hr Hp) as [(L & s' & R) | (s' & R & Hr' & Hp' & L)].
  - exists NGX_ERROR, s'. split_and!; [done | now right | done | done].
  - exists NGX_OK, s'. split_and!; [done | now left | done |]. intros _. split; [exact Hr' |].
    destruct Hr' as [Hm H]. destruct (entries (glob s')); [| now destruct H].
    destruct H as [_ H]. destruct (live_fits _ _ H) as (F1 & F2 & F3). rewrite used_rev in F2. rewrite <- Hm.
    unfold ring_size in *. lia.
Qed.

(** The first header makes the table 4096 bytes large, also when the client has
    just set its size to 0. *)
Example first_add_forgets_size :
  spec_ops [SetSize 0; AddHeader (str "a", str "b"); GetHeader 62] (mk_table false 0 []) =
  [(NGX_OK, no_header); (NGX_OK, no_header); (NGX_OK, (str "a", str "b"))].
Proof. reflexivity. Qed.

Lemma hpack_table_refines_witness :
  exists s', run_ops [SetSize 0; AddHeader (str "a", str "b"); SetSize 70; AddHeader (str "cd", str "e"); GetHeader 63; GetHeader 62]
    (hpack_init (seqZ 1 24)) =
    Some ([(NGX_OK, no_header); (NGX_OK, no_header); (NGX_OK, no_header); (NGX_OK, no_header); (NGX_OK, (str "a", str "b"));
      (NGX_OK, (str "cd", str "e"))], s').
Proof.
  refine (hpack_table_refines [SetSize 0; AddHeader (str "a", str "b"); SetSize 70; AddHeader (str "cd", str "e"); GetHeader 63; GetHeader 62]
    (seqZ 1 24) _ _ _).
  - repeat constructor; discriminate.
  - apply (bool_decide_unpack _). reflexivity.
  - apply (bool_decide_unpack _). reflexivity.
Defined.

Lemma hpack_add_fails_without_memory_witness :
  exists rc s', ngx_http_v2_add_header str "a" str "b" (hpack_init [1; 2; 3; 4]) = Some (rc, s') /\ (rc = NGX_OK \/ rc = NGX_ERROR) /\
    (rc = NGX_ERROR -> (4 < 4)%nat) /\
    (rc = NGX_OK -> represents s' (table_add (str "a", str "b") (mk_table false 0 [])) /\
      used (t_list (table_add (str "a", str "b") (mk_table false 0 []))) <= t_max (table_add (str "a", str "b") (mk_table false 0 [])) <= NGX_HTTP_V2_TABLE_SIZE).
Proof.
  refine (hpack_add_fails_without_memory (hpack_init [1; 2; 3; 4]) (mk_table false 0 []) (str "a", str "b") _ _).
  - split; [done |]. cbn. unfold NGX_HTTP_V2_TABLE_SIZE. split_and!; done || lia.
  - split; [apply (bool_decide_unpack _); reflexivity |]. intros a Ha. split; [| cbn; set_solver].
    cbn in Ha. unfold NULL. set_unfold. lia.
Defined.
