(* ===== verification/NgxSprintf.v ===== *)
(** Formatted output (core/ngx_string.c): [ngx_vslprintf], which the logs and
    the headers are written with, and its helpers for numbers and strings.  The
    bytes written are a list and [room] is [last - buf]; [None] is undefined
    behaviour of the C code. *)
From S2P Require Import Prelude HttpRequest.
From S2P Require Export NgxNumber.
From Stdlib Require Import SpecFloat.
Export Number.
#[global] Open Scope Z_scope.

(** ** Integers of C *)

(** The conversion of an integer to the signed and unsigned types of [w] bits. *)
Definition signed (w z : Z) : Z :=
  let m := z mod 2 ^ w in if m <? 2 ^ (w - 1) then m else m - 2 ^ w.
Definition unsigned (w z : Z) : Z := z mod 2 ^ w.

(** ** Numbers *)

Definition NGX_INT64_LEN : nat := 20.
Definition NGX_INT_T_LEN : Z := Z.of_nat NGX_INT64_LEN.
Definition NGX_ATOMIC_T_LEN : Z := Z.of_nat NGX_INT64_LEN.
Definition NGX_MAX_UINT32_VALUE : Z := 0xffffffff.

(** [room] is what is left of [temp] before [p]; [p] are the bytes from there
    on. *)
Fixpoint dec_digits (room : nat) (n : Z) (p : list Z) : option (list Z) :=
  match room with
  | O => None
  | S room' =>
      let p := (n mod 10 + chr "0") :: p in
      let n := n / 10 in
      if n =? 0 then Some p else dec_digits room' n p
  end.

Fixpoint hex_digits (room : nat) (hex : list Z) (n : Z) (p : list Z) : option (list Z) :=
  match room with
  | O => None
  | S room' =>
      let p := nth (Z.to_nat (Z.land n 0xf)) hex 0 :: p in
      let n := Z.shiftr n 4 in
      if n =? 0 then Some p else hex_digits room' hex n p
  end.

Definition hex_lower : list Z := str "0123456789abcdef".
Definition hex_upper_chars : list Z := str "0123456789ABCDEF".

(** [n] is [width - len]. *)
Fixpoint pad_loop (n : nat) (room zero : Z) : list Z :=
  match n with
  | O => []
  | S n' => if 0 <? room then zero :: pad_loop n' (room - 1) zero else []
  end.

Definition ngx_sprintf_num (room ui64 zero hexadecimal width : Z) : option (list Z) :=
  p ← (if hexadecimal =? 0 then
         if ui64 <=? NGX_MAX_UINT32_VALUE then dec_digits NGX_INT64_LEN (unsigned 32 ui64) []
         else dec_digits NGX_INT64_LEN ui64 []
       else if hexadecimal =? 1 then hex_digits NGX_INT64_LEN hex_lower ui64 []
       else hex_digits NGX_INT64_LEN hex_upper_chars ui64 []);
  let len := Z.of_nat (length p) in
  let pad := pad_loop (Z.to_nat (width - len)) room zero in
  let room := room - Z.of_nat (length pad) in
  let len := if room <? len then room else len in
  Some (pad ++ firstn (Z.to_nat len) p).

(** ** Strings *)

(** [(size_t) -1]: the string is null-terminated. *)
Definition NO_LENGTH : Z := 2 ^ 64 - 1.

(** [src] are the bytes that may be read from the pointer on. *)
Fixpoint copy_terminated (src : list Z) (room : Z) : option (list Z) :=
  match src with
  | [] => None
  | c :: src' =>
      if negb (c =? 0) && (0 <? room) then cons c <$> copy_terminated src' (room - 1) else Some []
  end.

Fixpoint hex_terminated (hex src : list Z) (room : Z) : option (list Z) :=
  match src with
  | [] => None
  | c :: src' =>
      if negb (c =? 0) && (1 <? room) then
        (fun l => nth (Z.to_nat (Z.shiftr c 4)) hex 0 :: nth (Z.to_nat (Z.land c 0xf)) hex 0 :: l) <$>
          hex_terminated hex src' (room - 2)
      else Some []
  end.

Fixpoint hex_counted (hex src : list Z) (len room : Z) : option (list Z) :=
  if negb (len =? 0) && (1 <? room) then
    match src with
    | [] => None
    | c :: src' =>
        (fun l => nth (Z.to_nat (Z.shiftr c 4)) hex 0 :: nth (Z.to_nat (Z.land c 0xf)) hex 0 :: l) <$>
          hex_counted hex src' (len - 1) (room - 2)
    end
  else Some [].

Definition ngx_sprintf_str (room : Z) (src : list Z) (len hexadecimal : Z) : option (list Z) :=
  if hexadecimal =? 0 then
    if len =? NO_LENGTH then copy_terminated src room
    else
      let len := Z.min room len in
      if Z.of_nat (length src) <? len then None else Some (firstn (Z.to_nat len) src)
  else
    let hex := if hexadecimal =? 1 then hex_lower else hex_upper_chars in
    if len =? NO_LENGTH then hex_terminated hex src room else hex_counted hex src len room.

(** ** Conversions *)

(** What follows the format: an integer of any type, a pointer to bytes that
    may be read (with the terminating zero if there is one), a [ngx_str_t *] or
    [ngx_variable_value_t *] with its bytes, and a double. *)
Inductive arg :=
| VInt (z : Z)
| VPtr (l : list Z)
| VStr (l : list Z)
| VDouble (f : spec_float).

(** The variables of [ngx_vslprintf] for one conversion. *)
Record conv := mk_conv {
  cv_zero : Z; cv_width : Z; cv_sign : bool; cv_hex : Z; cv_max_width : bool; cv_frac_width : Z; cv_slen : Z }.

(** The loops over the digits of a width: the number and what follows. *)
Fixpoint format_digits (width : Z) (fmt : list Z) : Z * list Z :=
  match fmt with
  | c :: fmt' =>
      if (chr "0" <=? c) && (c <=? chr "9") then format_digits (u64 (width * 10 + (c - chr "0"))) fmt'
      else (width, fmt)
  | [] => (width, [])
  end.

(** The loop over the flags, which ["."] with its digits ends. *)
Fixpoint format_flags (fmt : list Z) (args : list arg) (v : conv) : option (list Z * list arg * conv) :=
  let '(mk_conv zero width sign hex max_width frac_width slen) := v in
  match fmt with
  | c :: fmt' =>
      if c =? chr "u" then format_flags fmt' args (mk_conv zero width false hex max_width frac_width slen)
      else if c =? chr "m" then format_flags fmt' args (mk_conv zero width sign hex true frac_width slen)
      else if c =? chr "X" then format_flags fmt' args (mk_conv zero width false 2 max_width frac_width slen)
      else if c =? chr "x" then format_flags fmt' args (mk_conv zero width false 1 max_width frac_width slen)
      else if c =? chr "." then
        let '(frac_width, fmt') := format_digits frac_width fmt' in
        Some (fmt', args, mk_conv zero width sign hex max_width frac_width slen)
      else if c =? chr "*" then
        match args with
        | VInt z :: args' => format_flags fmt' args' (mk_conv zero width sign hex max_width frac_width (u64 z))
        | _ => None
        end
      else Some (fmt, args, v)
  | [] => Some ([], args, v)
  end.

(** The integer conversions: for the character [c] and the argument [z], the
    number as [i64] with [sign] or as [ui64] without. *)
Definition format_integer (c z : Z) (v : conv) : option (bool * Z * conv) :=
  let '(mk_conv zero width sign hex max_width frac_width slen) := v in
  let with_width w := mk_conv zero (if max_width then w else width) sign hex max_width frac_width slen in
  if (c =? chr "O") || (c =? chr "T") then Some (true, signed 64 z, v)
  else if c =? chr "P" then Some (true, signed 32 z, v)
  else if c =? chr "M" then
    if signed 64 z =? -1 then Some (true, -1, v) else Some (false, unsigned 64 z, v)
  else if (c =? chr "z") || (c =? chr "l") || (c =? chr "L") then
    Some (sign, if sign then signed 64 z else unsigned 64 z, v)
  else if c =? chr "i" then
    Some (sign, if sign then signed 64 z else unsigned 64 z, with_width NGX_INT_T_LEN)
  else if (c =? chr "d") || (c =? chr "D") then
    Some (sign, if sign then signed 32 z else unsigned 32 z, v)
  else if c =? chr "A" then
    Some (sign, if sign then signed 64 z else unsigned 64 z, with_width NGX_ATOMIC_T_LEN)
  else if c =? chr "r" then Some (true, signed 64 z, v)
  else if c =? chr "p" then Some (false, unsigned 64 z, mk_conv (chr "0") 16 false 2 max_width frac_width slen)
  else None.

(** The sign goes out without a check of the room. *)
Definition print_integer (room : Z) (sign : bool) (n : Z) (v : conv) : option (list Z) :=
  if (sign : bool) && (n <? 0) then
    cons (chr "-") <$> ngx_sprintf_num (room - 1) (u64 (- n)) (cv_zero v) (cv_hex v) (cv_width v)
  else ngx_sprintf_num room (u64 n) (cv_zero v) (cv_hex v) (cv_width v).

(** Doubles: IEEE 754 binary64. *)
Definition d_prec : Z := 53.
Definition d_emax : Z := 1024.
Definition d_of_int (n : Z) : spec_float := binary_normalize d_prec d_emax n 0 false.
Definition d_half : spec_float := binary_normalize d_prec d_emax 1 (-1) false.

(** The conversion to an integer type with values from [lo] to [hi]; it is
    undefined outside. *)
Definition d_truncate (lo hi : Z) (f : spec_float) : option Z :=
  match f with
  | S754_zero _ => Some 0
  | S754_finite s m e =>
      let a := Z.shiftl (Zpos m) e in
      let n := if s then - a else a in
      if (lo <=? n) && (n <=? hi) then Some n else None
  | _ => None
  end.

(** The loop [for (n = frac_width; n; n--) scale *= 10]. *)
Definition frac_scale (frac_width : Z) : Z := Nat.iter (Z.to_nat frac_width) (fun scale => u64 (scale * 10)) 1.

(** [ui64] and [frac] of a double that is not negative. *)
Definition double_parts (f : spec_float) (frac_width : Z) : option (Z * Z) :=
  i64 ← d_truncate (- 2 ^ 63) (2 ^ 63 - 1) f;
  let ui64 := unsigned 64 i64 in
  if frac_width =? 0 then Some (ui64, 0) else
  let scale := frac_scale frac_width in
  frac ← d_truncate 0 (2 ^ 64 - 1)
    (SFadd d_prec d_emax
       (SFmul d_prec d_emax (SFsub d_prec d_emax f (d_of_int ui64)) (d_of_int scale)) d_half);
  if frac =? scale then Some (u64 (ui64 + 1), 0) else Some (ui64, frac).

Definition print_double (room : Z) (f : spec_float) (v : conv) : option (list Z) :=
  let minus := SFltb f (S754_zero false) in
  let '(sign, room) := if minus then ([chr "-"], room - 1) else ([], room) in
  let f := if minus then SFopp f else f in
  '(ui64, frac) ← double_parts f (cv_frac_width v);
  num ← ngx_sprintf_num room ui64 (cv_zero v) 0 (cv_width v);
  if cv_frac_width v =? 0 then Some (sign ++ num) else
  let room := room - Z.of_nat (length num) in
  let '(point, room) := if 0 <? room then ([chr "."], room - 1) else ([], room) in
  frac ← ngx_sprintf_num room frac (chr "0") 0 (cv_frac_width v);
  Some (sign ++ num ++ point ++ frac).

(** One conversion, from the flags on: the bytes written, the rest of the format and
    of the arguments.  A format that ends inside a conversion is read past its
    end. *)
Definition format_switch (room : Z) (fmt : list Z) (args : list arg) (v : conv) :
    option (list Z * list Z * list arg) :=
  match fmt with
  | [] => None
  | c :: fmt =>
      if (c =? chr "V") || (c =? chr "v") then
        match args with
        | VStr l :: args =>
            out ← ngx_sprintf_str room l (Z.of_nat (length l)) (cv_hex v); Some (out, fmt, args)
        | _ => None
        end
      else if c =? chr "s" then
        match args with
        | VPtr l :: args => out ← ngx_sprintf_str room l (cv_slen v) (cv_hex v); Some (out, fmt, args)
        | _ => None
        end
      else if c =? chr "f" then
        match args with
        | VDouble f :: args => out ← print_double room f v; Some (out, fmt, args)
        | _ => None
        end
      else if c =? chr "c" then
        match args with
        | VInt d :: args => Some ([Z.land d 0xff], fmt, args)
        | _ => None
        end
      else if c =? chr "Z" then Some ([0], fmt, args)
      else if c =? chr "N" then Some ([LF], fmt, args)
      else if c =? chr "%" then Some ([chr "%"], fmt, args)
      else if bool_decide (In c (str "OPTMzidlDLArp")) then
        match args with
        | VInt z :: args =>
            '(sign, n, v) ← format_integer c z v;
            out ← print_integer room sign n v;
            Some (out, fmt, args)
        | _ => None
        end
      else Some ([c], fmt, args)
  end.

Definition conversion (room : Z) (fmt : list Z) (args : list arg) : option (list Z * list Z * list arg) :=
  let zero := match fmt with c :: _ => if c =? chr "0" then chr "0" else chr " " | [] => chr " " end in
  let '(width, fmt) := format_digits 0 fmt in
  '(fmt, args, v) ← format_flags fmt args (mk_conv zero width true 0 false 0 NO_LENGTH);
  format_switch room fmt args v.

(** The loop over the format; the first [skip] characters are passed over, since the
    conversion before has consumed them. *)
Fixpoint vslprintf_loop (skip : nat) (room : Z) (fmt : list Z) (args : list arg) {struct fmt} : option (list Z) :=
  match fmt with
  | [] => Some []
  | c :: fmt' =>
      match skip with
      | S skip => vslprintf_loop skip room fmt' args
      | O =>
          if negb (0 <? room) then Some []
          else if c =? chr "%" then
            '(out, rest, args') ← conversion room fmt' args;
            l ← vslprintf_loop (length fmt' - length rest) (room - Z.of_nat (length out)) fmt' args';
            Some (out ++ l)
          else cons c <$> vslprintf_loop 0 (room - 1) fmt' args
      end
  end.

Definition ngx_vslprintf (room : Z) (fmt : list Z) (args : list arg) : option (list Z) := vslprintf_loop 0 room fmt args.

(** [last] is [(void * ) -1]. *)
Definition ngx_sprintf (buf : Z) (fmt : list Z) (args : list arg) : option (list Z) :=
  ngx_vslprintf (2 ^ 64 - 1 - buf) fmt args.

Definition ngx_snprintf (max : Z) (fmt : list Z) (args : list arg) : option (list Z) :=
  ngx_vslprintf max fmt args.

Definition ngx_slprintf (buf last : Z) (fmt : list Z) (args : list arg) : option (list Z) :=
  ngx_vslprintf (last - buf) fmt args.

Example sprintf_status :
  ngx_snprintf 100 (str "%ui %02d %4d|%xd|%V:%*s|%s%c%Z") [VInt 200; VInt 7; VInt (-12); VInt 255; VStr (str "name"); VInt 2; VPtr (str "value"); VPtr (str "x" ++ [0]); VInt 65] =
  Some (str "200 07 -  12|ff|name:va|xA" ++ [0]).
Proof. reflexivity. Qed.

Example sprintf_double :
  ngx_snprintf 100 (str "%.3f") [VDouble (SFdiv d_prec d_emax (d_of_int (-10)) (d_of_int 3))] = Some (str "-3.333").
Proof. vm_compute. reflexivity. Qed.

(** ** The digits of a number *)

Definition num_digits (ui64 hexadecimal : Z) : option (list Z) :=
  if hexadecimal =? 0 then
    if ui64 <=? NGX_MAX_UINT32_VALUE then dec_digits NGX_INT64_LEN (unsigned 32 ui64) []
    else dec_digits NGX_INT64_LEN ui64 []
  else if hexadecimal =? 1 then hex_digits NGX_INT64_LEN hex_lower ui64 []
  else hex_digits NGX_INT64_LEN hex_upper_chars ui64 [].

(** The number with its padding, in as much room as it takes. *)
Definition padded (zero width : Z) (p : list Z) : list Z :=
  repeat zero (Z.to_nat (width - Z.of_nat (length p))) ++ p.

(** A text that is cut off where the room ends. *)
Definition cut (room : Z) (l : list Z) : list Z := firstn (Z.to_nat room) l.

Lemma pad_loop_repeat n room zero : pad_loop n room zero = firstn (Z.to_nat room) (repeat zero n).
Proof.
  revert room. induction n as [| n IH]; intros room; cbn [pad_loop repeat]; [now rewrite firstn_nil |].
  destruct (Z.ltb_spec 0 room).
  - replace (Z.to_nat room) with (S (Z.to_nat (room - 1))) by lia. cbn [firstn]. now rewrite IH.
  - now replace (Z.to_nat room) with O by lia.
Qed.

Lemma sprintf_num_cut room ui64 zero hexadecimal width :
  0 <= room ->
  ngx_sprintf_num room ui64 zero hexadecimal width =
  (fun p => cut room (padded zero width p)) <$> num_digits ui64 hexadecimal.
Proof.
  intros Hroom. unfold ngx_sprintf_num. fold (num_digits ui64 hexadecimal).
  destruct (num_digits ui64 hexadecimal) as [p |]; cbn; [| done]. f_equal.
  rewrite pad_loop_repeat. unfold padded, cut. set (n := Z.to_nat (width - _)).
  rewrite List.firstn_app, !List.length_firstn, List.repeat_length. f_equal.
  destruct (Z.ltb_spec (room - Z.of_nat (Nat.min (Z.to_nat room) n)) (Z.of_nat (length p))) as [Hl | Hl].
  - f_equal. lia.
  - rewrite !firstn_all2 by lia. done.
Qed.

Lemma dec_digits_spec room n p :
  0 <= n < 10 ^ Z.of_nat room -> (0 < room)%nat ->
  exists ds, dec_digits room n p = Some (ds ++ p) /\ ds <> [] /\ (length ds <= room)%nat /\
    Forall (fun c => is_digit c = true) ds /\ decimal_from 0 ds = Some n /\
    (n = 0 \/ forall d, head ds = Some d -> d <> chr "0").
Proof.
  revert n p. induction room as [| room IH]; intros n p Hn H0; [lia |].
  cbn [dec_digits]. pose proof (Z.mod_pos_bound n 10 ltac:(lia)) as Hm. pose proof (Z.div_mod n 10 ltac:(lia)) as Hd.
  assert (is_digit (n mod 10 + 48) = true) as Hdig by (unfold is_digit; lia).
  destruct (Z.eqb_spec (n / 10) 0) as [E | E].
  - exists [n mod 10 + 48]. split_and!; try done; try (cbn; lia).
    + repeat constructor; exact Hdig.
    + cbn [decimal_from]. rewrite Hdig. f_equal. lia.
    + destruct (decide (n = 0)) as [-> | Hne]; [now left | right]. intros d [= <-]. lia.
  - destruct (IH (n / 10) (n mod 10 + 48 :: p)) as (ds & -> & Hne & Hlen & HF & Hval & Hhead).
    + rewrite Nat2Z.inj_succ, Z.pow_succ_r in Hn by lia. split; [apply Z.div_pos; lia |].
      apply Z.div_lt_upper_bound; lia.
    + destruct room; [| lia]. cbn in Hn. assert (n / 10 = 0) by (apply Z.div_small; lia). lia.
    + exists (ds ++ [n mod 10 + 48]). rewrite <- List.app_assoc. split_and!; try done.
      * intros Q. destruct ds; discriminate Q.
      * rewrite List.length_app. cbn. lia.
      * apply List.Forall_app. split; [done | repeat constructor; exact Hdig].
      * rewrite decimal_from_app, Hval. cbn. rewrite Hdig. f_equal. lia.
      * right. destruct Hhead as [Hz | Hhead]; [lia |]. intros d Q. apply Hhead.
        destruct ds; [done |]. exact Q.
Qed.

Lemma hexadecimal_from_app v l1 l2 :
  hexadecimal_from v (l1 ++ l2) = match hexadecimal_from v l1 with Some n => hexadecimal_from n l2 | None => None end.
Proof.
  revert v. induction l1 as [|c l IH]; intros v; [done |]. cbn [List.app hexadecimal_from].
  destruct (hex_digit c); [apply IH | done].
Qed.

Lemma hex_digits_spec hex room n p :
  (forall d, 0 <= d < 16 -> hex_digit (nth (Z.to_nat d) hex 0) = Some d) ->
  0 <= n < 16 ^ Z.of_nat room -> (0 < room)%nat ->
  exists ds, hex_digits room hex n p = Some (ds ++ p) /\ ds <> [] /\ (length ds <= room)%nat /\
    hexadecimal_from 0 ds = Some n.
Proof.
  intros Hhex. revert n p. induction room as [| room IH]; intros n p Hn H0; [lia |].
  cbn [hex_digits]. change 0xf with (Z.ones 4). rewrite land_low, Z.shiftr_div_pow2 by lia.
  change (2 ^ 4) with 16.
  pose proof (Z.mod_pos_bound n 16 ltac:(lia)) as Hm. pose proof (Z.div_mod n 16 ltac:(lia)) as Hd.
  set (c := nth (Z.to_nat (n mod 16)) hex 0). assert (hex_digit c = Some (n mod 16)) as Hc by (now apply Hhex).
  destruct (Z.eqb_spec (n / 16) 0) as [E | E].
  - exists [c]. split_and!; try done; try (cbn; lia). cbn [hexadecimal_from]. rewrite Hc. f_equal. lia.
  - destruct (IH (n / 16) (c :: p)) as (ds & -> & Hne & Hlen & Hval).
    + rewrite Nat2Z.inj_succ, Z.pow_succ_r in Hn by lia. split; [apply Z.div_pos; lia |].
      apply Z.div_lt_upper_bound; lia.
    + destruct room; [| lia]. cbn in Hn. assert (n / 16 = 0) by (apply Z.div_small; lia). lia.
    + exists (ds ++ [c]). rewrite <- List.app_assoc. split_and!; try done.
      * intros Q. destruct ds; discriminate Q.
      * rewrite List.length_app. cbn. lia.
      * rewrite hexadecimal_from_app, Hval. cbn. rewrite Hc. f_equal. lia.
Qed.

Lemma hex_digit_chars hex d :
  hex = hex_lower \/ hex = hex_upper_chars -> 0 <= d < 16 -> hex_digit (nth (Z.to_nat d) hex 0) = Some d.
Proof.
  intros Hhex Hd.
  assert (forallb (fun k => bool_decide (hex_digit (nth k hex 0) = Some (Z.of_nat k))) (seq 0 16) = true) as Q
    by (destruct Hhex as [-> | ->]; reflexivity).
  rewrite forallb_forall in Q. specialize (Q (Z.to_nat d)). rewrite in_seq in Q.
  specialize (Q ltac:(lia)). apply bool_decide_eq_true in Q. rewrite Q. f_equal. lia.
Qed.

(** Every number of 64 bits fits the buffer on the stack. *)
Lemma num_digits_spec ui64 hexadecimal :
  0 <= ui64 < 2 ^ 64 ->
  exists ds, num_digits ui64 hexadecimal = Some ds /\ ds <> [] /\ (length ds <= NGX_INT64_LEN)%nat /\
    if hexadecimal =? 0 then decimal ds = Some ui64 /\ Forall (fun c => is_digit c = true) ds
    else hexadecimal_from 0 ds = Some ui64.
Proof.
  intros Hn. unfold num_digits. assert (2 ^ 64 <= 10 ^ Z.of_nat NGX_INT64_LEN) by (apply Z.leb_le; reflexivity).
  assert (0 < NGX_INT64_LEN)%nat as Hpos by (apply Nat.ltb_lt; reflexivity).
  assert (2 ^ 64 <= 16 ^ Z.of_nat NGX_INT64_LEN) by (apply Z.leb_le; reflexivity).
  destruct (hexadecimal =? 0).
  - assert ((if ui64 <=? NGX_MAX_UINT32_VALUE then dec_digits NGX_INT64_LEN (unsigned 32 ui64) []
      else dec_digits NGX_INT64_LEN ui64 []) = dec_digits NGX_INT64_LEN ui64 []) as ->.
    { destruct (Z.leb_spec ui64 NGX_MAX_UINT32_VALUE); [| done]. f_equal. unfold unsigned.
      apply Z.mod_small. unfold NGX_MAX_UINT32_VALUE in *. lia. }
    destruct (dec_digits_spec NGX_INT64_LEN ui64 []) as (ds & -> & Hne & Hlen & HF & Hval & _);
      [lia | exact Hpos |].
    rewrite List.app_nil_r. exists ds. split_and!; try done. destruct ds; done.
  - assert (forall hex, hex = hex_lower \/ hex = hex_upper_chars -> exists ds, hex_digits NGX_INT64_LEN hex ui64 [] = Some ds /\
      ds <> [] /\ (length ds <= NGX_INT64_LEN)%nat /\ hexadecimal_from 0 ds = Some ui64) as Q.
    { intros hex Hhex. destruct (hex_digits_spec hex NGX_INT64_LEN ui64 []) as (ds & E & R);
        [intros; now apply hex_digit_chars | lia | exact Hpos |].
      rewrite List.app_nil_r in E. exists ds. exact (conj E R). }
    destruct (hexadecimal =? 1); apply Q; auto.
Qed.

(** ** Truncation *)


Lemma length_cut room l : 0 <= room -> Z.of_nat (length (cut room l)) <= room.
Proof. unfold cut. rewrite List.length_firstn. lia. Qed.

Lemma cut_0 room l : room <= 0 -> cut room l = [].
Proof. intros H. unfold cut. now replace (Z.to_nat room) with O by lia. Qed.

Lemma cut_cons room c l : 0 < room -> cut room (c :: l) = c :: cut (room - 1) l.
Proof. intros H. unfold cut. now replace (Z.to_nat room) with (S (Z.to_nat (room - 1))) by lia. Qed.

Lemma cut_cut r R l : r <= R -> cut r (cut R l) = cut r l.
Proof. intros H. unfold cut. rewrite List.firstn_firstn. f_equal. lia. Qed.

Lemma cut_app room a b : cut room (a ++ b) = cut room a ++ cut (room - Z.of_nat (length a)) b.
Proof. unfold cut. rewrite List.firstn_app. do 2 f_equal. lia. Qed.

Lemma cut_all room l : Z.of_nat (length l) <= room -> cut room l = l.
Proof. intros H. unfold cut. apply firstn_all2. lia. Qed.

(** A piece of output never exceeds the room, and, if [P], what it writes into
    less room is what the larger text starts with.  It is used with [lo] bytes
    of room at least. *)
Definition cuts (P : Prop) (lo : Z) (f : Z -> option (list Z)) : Prop :=
  forall R l, lo <= R -> f R = Some l ->
    Z.of_nat (length l) <= R /\ (P -> forall r, lo <= r <= R -> f r = Some (cut r l)).

Lemma cuts_ext P lo f g : (forall r, f r = g r) -> cuts P lo f -> cuts P lo g.
Proof.
  intros E H R l HR Eg. rewrite <- E in Eg. destruct (H R l HR Eg) as [H1 H2]. split; [done |].
  intros HP r Hr. rewrite <- E. auto.
Qed.

Lemma cuts_weaken (P Q : Prop) lo lo' f : lo <= lo' -> (Q -> P) -> cuts P lo f -> cuts Q lo' f.
Proof.
  intros Hlo HQ H R l HR E. destruct (H R l ltac:(lia) E) as [H1 H2]. split; [done |].
  intros HP r Hr. apply H2; [auto | lia].
Qed.

Lemma cuts_none P lo : cuts P lo (fun _ => None).
Proof. done. Qed.

(** Bytes that are written without a check. *)
Lemma cuts_cons P c f : cuts P 0 f -> cuts P 1 (fun room => cons c <$> f (room - 1)).
Proof.
  intros H R l HR E. destruct (f (R - 1)) as [l' |] eqn:El; [| done]. injection E as <-.
  destruct (H (R - 1) l' ltac:(lia) El) as [H1 H2]. split; [cbn; lia |]. intros HP r Hr.
  rewrite (H2 HP) by lia. cbn. now rewrite cut_cons by lia.
Qed.

Lemma cuts_char P c : cuts P 1 (fun _ => Some [c]).
Proof.
  intros R l HR [= <-]. split; [cbn; lia |]. intros _ r Hr. now rewrite cut_all by (cbn; lia).
Qed.

Lemma cuts_app P f g :
  cuts P 0 f -> cuts P 0 g ->
  cuts P 0 (fun room => a ← f room; b ← g (room - Z.of_nat (length a)); Some (a ++ b)).
Proof.
  intros Hf Hg R l HR E. destruct (f R) as [a |] eqn:Ea; [| done]. cbn in E.
  destruct (Hf R a HR Ea) as [Ha1 Ha2]. destruct (g _) as [b |] eqn:Eb; [| done]. injection E as <-.
  destruct (Hg (R - Z.of_nat (length a)) b ltac:(lia) Eb) as [Hb1 Hb2]. split; [rewrite List.length_app; lia |].
  intros HP r Hr. rewrite (Ha2 HP) by lia. cbn.
  assert (length (cut r a) = Nat.min (Z.to_nat r) (length a)) as -> by apply List.length_firstn.
  rewrite (Hb2 HP) by lia. cbn. rewrite cut_app. f_equal. f_equal. unfold cut.
  replace (Z.to_nat (r - Z.of_nat (Nat.min (Z.to_nat r) (length a)))) with (Z.to_nat (r - Z.of_nat (length a))) by lia.
  done.
Qed.

(** A byte that is written if there is room. *)
Lemma cuts_checked P c g :
  cuts P 0 g ->
  cuts P 0 (fun room => b ← g (if 0 <? room then room - 1 else room); Some ((if 0 <? room then [c] else []) ++ b)).
Proof.
  intros Hg R l HR E. destruct (g _) as [b |] eqn:Eb; [| done]. injection E as <-.
  destruct (Hg (if 0 <? R then R - 1 else R) b ltac:(destruct (Z.ltb_spec 0 R); lia) Eb) as [H1 H2].
  split; [rewrite List.length_app; destruct (Z.ltb_spec 0 R); cbn; lia |].
  intros HP r Hr. rewrite (H2 HP) by (destruct (Z.ltb_spec 0 r), (Z.ltb_spec 0 R); lia). cbn.
  destruct (Z.ltb_spec 0 r), (Z.ltb_spec 0 R); try lia.
  - cbn. now rewrite cut_cons by lia.
  - now rewrite !cut_0 by lia.
  - now rewrite !cut_0 by lia.
Qed.

(** *** Numbers and strings *)

Lemma cuts_num P ui64 zero hexadecimal width :
  cuts P 0 (fun room => ngx_sprintf_num room ui64 zero hexadecimal width).
Proof.
  intros R l HR E. rewrite sprintf_num_cut in E by done.
  destruct (num_digits ui64 hexadecimal) as [p |] eqn:Ep; [| done]. injection E as <-.
  split; [now apply length_cut |]. intros _ r Hr. rewrite sprintf_num_cut, Ep by lia. cbn. f_equal.
  now rewrite cut_cut by lia.
Qed.

Lemma cuts_copy_terminated P src : cuts P 0 (copy_terminated src).
Proof.
  induction src as [| c src IH]; intros R l HR E; [done |]. cbn [copy_terminated] in E |- *.
  destruct (c =? 0) eqn:Ec; cbn [negb andb] in *.
  { injection E as <-. split; [cbn; lia |]. intros _ r Hr. unfold cut. now rewrite firstn_nil. }
  destruct (Z.ltb_spec 0 R) as [H0 | H0].
  - destruct (copy_terminated src (R - 1)) as [l' |] eqn:El; [| done]. injection E as <-.
    destruct (IH (R - 1) l' ltac:(lia) El) as [Hlen Hcut]. split; [cbn; lia |]. intros HP r Hr.
    destruct (Z.ltb_spec 0 r); [| now rewrite cut_0 by lia].
    now rewrite (Hcut HP), cut_cons by lia.
  - injection E as <-. split; [cbn; lia |]. intros _ r Hr.
    destruct (Z.ltb_spec 0 r); [lia |]. now rewrite cut_0 by lia.
Qed.

Lemma length_hex_terminated hex src room l :
  0 <= room -> hex_terminated hex src room = Some l -> Z.of_nat (length l) <= room.
Proof.
  revert room l. induction src as [| c src IH]; intros room l Hr E; [done |]. cbn [hex_terminated] in E.
  destruct (negb (c =? 0)); cbn [andb] in E; [destruct (Z.ltb_spec 1 room) |]; try (injection E as <-; cbn; lia).
  destruct (hex_terminated hex src (room - 2)) as [l' |] eqn:El; [| done]. injection E as <-.
  apply IH in El; cbn; lia.
Qed.

Lemma length_hex_counted hex src len room l :
  0 <= room -> hex_counted hex src len room = Some l -> Z.of_nat (length l) <= room.
Proof.
  revert len room l. induction src as [| c src IH]; intros len room l Hr E; cbn [hex_counted] in E;
    (destruct (negb (len =? 0)); cbn [andb] in E; [destruct (Z.ltb_spec 1 room) |]); try (injection E as <-; cbn; lia);
    [done |].
  destruct (hex_counted hex src (len - 1) (room - 2)) as [l' |] eqn:El; [| done]. injection E as <-.
  apply IH in El; cbn; lia.
Qed.

Lemma cuts_str src len hexadecimal :
  0 <= len -> cuts (hexadecimal = 0) 0 (fun room => ngx_sprintf_str room src len hexadecimal).
Proof.
  intros Hlen R l HR. unfold ngx_sprintf_str. destruct (Z.eqb_spec hexadecimal 0) as [-> | Hh].
  - destruct (len =? NO_LENGTH); [apply cuts_copy_terminated; done |].
    destruct (Z.ltb_spec (Z.of_nat (length src)) (Z.min R len)) as [| Hl]; [done |]. intros [= <-].
    fold (cut (Z.min R len) src). split; [pose proof (length_cut (Z.min R len) src); lia |].
    intros _ r Hr. destruct (Z.ltb_spec (Z.of_nat (length src)) (Z.min r len)) as [| Hl']; [lia |].
    fold (cut (Z.min r len) src). f_equal. unfold cut. rewrite List.firstn_firstn. f_equal. lia.
  - intros E. split; [| done]. destruct (len =? NO_LENGTH);
      [eapply length_hex_terminated | eapply length_hex_counted]; eauto.
Qed.

Lemma cuts_integer P sign n v : cuts P 1 (fun room => print_integer room sign n v).
Proof.
  unfold print_integer. destruct (sign && (n <? 0)).
  - apply (cuts_cons P (chr "-") (fun room => ngx_sprintf_num room _ _ _ _)), cuts_num.
  - eapply cuts_weaken; [| | apply (cuts_num P)]; [lia | done].
Qed.

#[local] Arguments ngx_sprintf_num : simpl never.

(** What [print_double] writes after the sign. *)
Definition print_parts (v : conv) (ui64 frac room : Z) : option (list Z) :=
  a ← ngx_sprintf_num room ui64 (cv_zero v) 0 (cv_width v);
  b ← (fun room =>
         if cv_frac_width v =? 0 then Some []
         else
           b ← ngx_sprintf_num (if 0 <? room then room - 1 else room) frac (chr "0") 0 (cv_frac_width v);
           Some ((if 0 <? room then [chr "."] else []) ++ b)) (room - Z.of_nat (length a));
  Some (a ++ b).

Lemma cuts_parts P v ui64 frac : cuts P 0 (print_parts v ui64 frac).
Proof.
  apply (cuts_app P (fun room => ngx_sprintf_num room ui64 (cv_zero v) 0 (cv_width v))); [apply cuts_num |].
  destruct (cv_frac_width v =? 0).
  - intros R l HR [= <-]. split; [cbn; lia |]. intros _ r Hr. unfold cut. now rewrite firstn_nil.
  - apply (cuts_checked P (chr ".") (fun room => ngx_sprintf_num room frac (chr "0") 0 (cv_frac_width v))), cuts_num.
Qed.

Lemma print_double_parts room f v :
  print_double room f v =
  let minus := SFltb f (S754_zero false) in
  '(ui64, frac) ← double_parts (if minus then SFopp f else f) (cv_frac_width v);
  if minus then cons (chr "-") <$> print_parts v ui64 frac (room - 1) else print_parts v ui64 frac room.
Proof.
  unfold print_double, print_parts. cbv zeta. destruct (SFltb f (S754_zero false));
    (destruct (double_parts _ _) as [[ui64 frac] |]; cbn; [| done]);
    (match goal with |- context [ngx_sprintf_num ?x ui64 ?y ?z ?w] => destruct (ngx_sprintf_num x ui64 y z w) as [a |] end;
     cbn; [| done]);
    (destruct (cv_frac_width v =? 0); cbn; [now rewrite List.app_nil_r |]);
    (match goal with |- context [0 <? ?x] => destruct (0 <? x) end); cbn;
    (match goal with |- context [ngx_sprintf_num ?x frac ?y ?z ?w] => destruct (ngx_sprintf_num x frac y z w) end); done.
Qed.

Lemma cuts_double P f v : cuts P 1 (fun room => print_double room f v).
Proof.
  eapply cuts_ext; [intros r; symmetry; apply print_double_parts |]. cbv zeta.
  destruct (double_parts _ _) as [[ui64 frac] |]; cbn; [| apply cuts_none].
  destruct (SFltb f (S754_zero false)).
  - apply (cuts_cons P (chr "-") (print_parts v ui64 frac)), cuts_parts.
  - eapply cuts_weaken; [| | apply (cuts_parts P)]; [lia | done].
Qed.

(** *** The loop *)

Definition not_hex (c : Z) : Prop := c <> chr "x" /\ c <> chr "X".
Definition not_string (a : arg) : Prop := match a with VPtr _ | VStr _ => False | _ => True end.

(** The format has no hexadecimal conversion of a string, for the simplest of
    reasons. *)
Definition no_hex_strings (fmt : list Z) (args : list arg) : Prop :=
  Forall not_hex fmt \/ Forall not_string args.

Lemma format_digits_suffix n fmt : snd (format_digits n fmt) `suffix_of` fmt.
Proof.
  revert n. induction fmt as [| c fmt IH]; intros n; cbn [format_digits]; [done |].
  destruct (_ && _); [| done]. apply suffix_cons_r, IH.
Qed.

Lemma format_flags_spec fmt args v fmt' args' v' :
  format_flags fmt args v = Some (fmt', args', v') -> 0 <= cv_slen v ->
  fmt' `suffix_of` fmt /\ args' `suffix_of` args /\ 0 <= cv_slen v' /\
  (Forall not_hex fmt -> cv_hex v' = cv_hex v).
Proof.
  revert args v. induction fmt as [| c fmt IH]; intros args v E Hs; destruct v as [zero width sign hex mw fw slen];
    cbn [format_flags] in E; [injection E as <- <- <-; done |].
  repeat match type of E with (if ?b then _ else _) = _ => destruct b eqn:?Eb end.
  all: try (apply IH in E as (H1 & H2 & H3 & H4); [| cbn in Hs |- *; lia]; split_and!; [now apply suffix_cons_r | done | done |];
    intros HF; destruct (Forall_inv HF) as [Hx HX]; apply Forall_inv_tail in HF; rewrite (H4 HF); cbn; try done; lia).
  - pose proof (format_digits_suffix fw fmt) as Hd. destruct (format_digits fw fmt) as [w fmt2]. injection E as <- <- <-.
    cbn in *. split_and!; [now apply suffix_cons_r | done | done | done].
  - destruct args as [| [z | | |] args]; try done. apply IH in E as (H1 & H2 & H3 & H4);
      [| cbn; unfold u64; apply Z.mod_pos_bound; lia]. split_and!; [now apply suffix_cons_r | now apply suffix_cons_r | done |].
    intros HF. now rewrite (H4 (Forall_inv_tail HF)).
  - injection E as <- <- <-. done.
Qed.

#[local] Ltac written E := (injection E as <- <- <-; split_and!; [apply suffix_cons_r; done | first [done | apply suffix_cons_r; done] | cbn; lia |
    cbn; lia | intros _ r Hr; rewrite cut_all by (cbn; lia); done]).

Lemma format_switch_cuts R fmt args v out fmt' args' :
  0 < R -> 0 <= cv_slen v -> format_switch R fmt args v = Some (out, fmt', args') ->
  fmt' `suffix_of` fmt /\ args' `suffix_of` args /\ (length fmt' < length fmt)%nat /\
  Z.of_nat (length out) <= R /\
  (cv_hex v = 0 \/ Forall not_string args ->
   forall r, 0 < r <= R -> format_switch r fmt args v = Some (cut r out, fmt', args')).
Proof.
  intros HR Hs E. destruct fmt as [| c fmt]; [done |]. cbn [format_switch] in E |- *.
  assert (forall (P : Prop) f, cuts P 1 f -> f R = Some out -> Z.of_nat (length out) <= R /\
    (P -> forall r, 0 < r <= R -> f r = Some (cut r out))) as Q.
  { intros P f Hf Ef. destruct (Hf R out ltac:(lia) Ef) as [H1 H2]. split; [done |]. intros HP r Hr. apply H2; [done | lia]. }
  assert (forall f, cuts (cv_hex v = 0) 0 f -> cuts (cv_hex v = 0) 1 f) as Hw.
  { intros f Hf. eapply cuts_weaken; [| | exact Hf]; [lia | done]. }
  repeat match type of E with (if ?b then _ else _) = _ => destruct b eqn:?Eb end.
  all: try written E.
  all: (destruct args as [| [z | l | l | f] args]; try done).
  all: try written E.
  all: [> destruct (ngx_sprintf_str _ _ _ _) as [o |] eqn:Eo; [| done]; cbn in E; injection E as -> <- <-;
          apply (Q _ _ (Hw _ (cuts_str l (Z.of_nat (length l)) (cv_hex v) ltac:(lia)))) in Eo as [H1 H2]
        | destruct (ngx_sprintf_str _ _ _ _) as [o |] eqn:Eo; [| done]; cbn in E; injection E as -> <- <-;
          apply (Q _ _ (Hw _ (cuts_str l (cv_slen v) (cv_hex v) Hs))) in Eo as [H1 H2]
        | destruct (print_double _ _ _) as [o |] eqn:Eo; [| done]; cbn in E; injection E as -> <- <-;
          apply (Q _ _ (cuts_double True f v)) in Eo as [H1 H2]
        | destruct (format_integer c z v) as [[[sign n] v'] |]; cbn in E; [| discriminate E];
          destruct (print_integer _ _ _ _) as [o |] eqn:Eo; [| done]; cbn in E; injection E as -> <- <-;
          apply (Q _ _ (cuts_integer True sign n v')) in Eo as [H1 H2] ].
  all: split_and!; [apply suffix_cons_r; done | apply suffix_cons_r; done | cbn; lia | done |].
  all: intros Hp r Hr; cbn; rewrite H2; try done.
  all: destruct Hp as [| Hp]; [done |]; now destruct (Forall_inv Hp).
Qed.

Lemma conversion_cuts R fmt args out fmt' args' :
  0 < R -> conversion R fmt args = Some (out, fmt', args') ->
  fmt' `suffix_of` fmt /\ args' `suffix_of` args /\ (length fmt' < length fmt)%nat /\
  Z.of_nat (length out) <= R /\
  (no_hex_strings fmt args -> forall r, 0 < r <= R -> conversion r fmt args = Some (cut r out, fmt', args')).
Proof.
  intros HR E. unfold conversion in E |- *. set (zero := match fmt with [] => _ | _ => _ end) in *.
  pose proof (format_digits_suffix 0 fmt) as Hd. destruct (format_digits 0 fmt) as [width fmt1]. cbn [snd] in Hd.
  destruct (format_flags fmt1 args _) as [[[fmt2 args2] v] |] eqn:Ef; cbn in E |- *; [| done].
  apply format_flags_spec in Ef as (H1 & H2 & Hs & Hx); [| cbn; unfold NO_LENGTH; lia].
  apply format_switch_cuts in E as (H3 & H4 & Hl & Hlen & Hcut); [| done | done].
  pose proof (suffix_length _ _ Hd). pose proof (suffix_length _ _ H1).
  split_and!; [etrans; [eassumption |]; etrans; eassumption | etrans; eassumption | lia | done |].
  intros Hn r Hr. apply Hcut; [| done]. destruct Hn as [Hn | Hn]; [left | right].
  - rewrite Hx; [done |]. destruct Hd as [k ->]. now apply Forall_app in Hn as [_ Hn].
  - destruct H2 as [k ->]. now apply Forall_app in Hn as [_ Hn].
Qed.

Lemma no_hex_strings_suffix fmt args fmt' args' :
  fmt' `suffix_of` fmt -> args' `suffix_of` args -> no_hex_strings fmt args -> no_hex_strings fmt' args'.
Proof.
  intros [k ->] [k' ->] [H | H]; [left | right]; now apply Forall_app in H as [_ H].
Qed.

(** *** Rounds of the loop *)

Lemma vslprintf_skip pre rest R args :
  vslprintf_loop (length pre) R (pre ++ rest) args = vslprintf_loop 0 R rest args.
Proof. induction pre as [| c pre IH]; [done | exact IH]. Qed.

(** A conversion. *)
Lemma loop_percent R fmt args :
  0 < R ->
  vslprintf_loop 0 R (chr "%" :: fmt) args =
  '(out, rest, args') ← conversion R fmt args; app out <$> vslprintf_loop 0 (R - Z.of_nat (length out)) rest args'.
Proof.
  intros HR. cbn [vslprintf_loop]. destruct (Z.ltb_spec 0 R); [| lia]. change (chr "%" =? chr "%") with true. cbn [negb].
  destruct (conversion R fmt args) as [[[out rest] args'] |] eqn:E; [| done]. cbn [mbind option_bind].
  apply conversion_cuts in E as ((pre & ->) & _); [| done]. rewrite List.length_app.
  replace (length pre + length rest - length rest)%nat with (length pre) by lia. rewrite vslprintf_skip.
  now destruct (vslprintf_loop 0 _ rest args').
Qed.

Lemma loop_conversion R fmt args out fmt' args' :
  0 < R -> conversion R fmt args = Some (out, fmt', args') ->
  vslprintf_loop 0 R (chr "%" :: fmt) args = app out <$> vslprintf_loop 0 (R - Z.of_nat (length out)) fmt' args'.
Proof. intros HR E. rewrite loop_percent, E by done. done. Qed.

(** A character that is not a conversion. *)
Lemma loop_char R c fmt args :
  0 < R -> c <> chr "%" -> vslprintf_loop 0 R (c :: fmt) args = cons c <$> vslprintf_loop 0 (R - 1) fmt args.
Proof.
  intros HR Hc. cbn [vslprintf_loop]. destruct (Z.ltb_spec 0 R); [| lia]. now destruct (Z.eqb_spec c (chr "%")).
Qed.

Lemma loop_full R fmt args : R <= 0 -> vslprintf_loop 0 R fmt args = Some [].
Proof. intros HR. destruct fmt as [| c fmt]; [done |]. cbn [vslprintf_loop]. now destruct (Z.ltb_spec 0 R); [lia |]. Qed.

Lemma vslprintf_loop_cuts n R fmt args out :
  (length fmt < n)%nat -> 0 <= R -> vslprintf_loop 0 R fmt args = Some out ->
  Z.of_nat (length out) <= R /\
  (no_hex_strings fmt args -> forall r, 0 <= r <= R -> vslprintf_loop 0 r fmt args = Some (cut r out)).
Proof.
  revert R fmt args out. induction n as [| n IH]; intros R fmt args out Hn0 HR E; [lia |]. destruct fmt as [| c fmt].
  { injection E as <-. split; [cbn; lia |]. intros _ r Hr. unfold cut. now rewrite firstn_nil. }
  cbn [length] in Hn0. destruct (Z.ltb_spec 0 R) as [H0 | H0].
  2:{ rewrite loop_full in E by done. injection E as <-. split; [cbn; lia |]. intros _ r Hr. now rewrite cut_0, loop_full by lia. }
  destruct (Z.eq_dec c (chr "%")) as [-> | Hc].
  - rewrite loop_percent in E by done. destruct (conversion R fmt args) as [[[o fmt'] args'] |] eqn:Ec; cbn in E; [| done].
    apply conversion_cuts in Ec as (Hf & Ha & Hl & Hlen & Hcut); [| done].
    destruct (vslprintf_loop 0 _ fmt' args') as [rest |] eqn:El; [| done]. injection E as <-.
    apply IH in El as [Hl1 Hl2]; [| lia | lia]. split; [rewrite List.length_app; lia |].
    intros Hn r Hr. destruct (Z.ltb_spec 0 r); [| now rewrite cut_0, loop_full by lia].
    assert (no_hex_strings fmt args) as Hn' by (eapply no_hex_strings_suffix; [apply suffix_cons_r; done | done | done]).
    assert (no_hex_strings fmt' args') as Hn'' by (eapply no_hex_strings_suffix; eassumption).
    rewrite (loop_conversion _ _ _ _ _ _ ltac:(done) (Hcut Hn' r ltac:(lia))).
    assert (length (cut r o) = Nat.min (Z.to_nat r) (length o)) as -> by apply List.length_firstn.
    rewrite (Hl2 Hn'') by lia. cbn. rewrite cut_app. f_equal. f_equal. unfold cut.
    replace (Z.to_nat (r - Z.of_nat (Nat.min (Z.to_nat r) (length o)))) with (Z.to_nat (r - Z.of_nat (length o))) by lia.
    done.
  - rewrite loop_char in E by done. destruct (vslprintf_loop 0 (R - 1) fmt args) as [rest |] eqn:El; [| done]. injection E as <-.
    apply IH in El as [Hl1 Hl2]; [| lia | lia]. split; [cbn; lia |].
    intros Hn r Hr. destruct (Z.ltb_spec 0 r); [| now rewrite cut_0, loop_full by lia].
    rewrite loop_char, Hl2 by first [done | lia | eapply no_hex_strings_suffix; [apply suffix_cons_r; done | done | done]].
    now rewrite cut_cons by lia.
Qed.

(** *** Arguments that suit a format *)

(** What stands before the letter of a conversion. *)
Definition conversion_start (fmt : list Z) (args : list arg) : option (list Z * list arg * conv) :=
  let zero := match fmt with c :: _ => if c =? chr "0" then chr "0" else chr " " | [] => chr " " end in
  let '(width, fmt) := format_digits 0 fmt in
  format_flags fmt args (mk_conv zero width true 0 false 0 NO_LENGTH).

(** A pointer to a string that may be read: up to its zero, or as many bytes as
    the conversion asks for. *)
Definition string_ok (v : conv) (l : list Z) : Prop :=
  if cv_slen v =? NO_LENGTH then In 0 l else cv_slen v <= Z.of_nat (length l).

(** A double whose integer part and fraction, with the digits asked for, fit 64 bits. *)
Definition double_ok (v : conv) (f : spec_float) : Prop :=
  is_Some (double_parts (if SFltb f (S754_zero false) then SFopp f else f) (cv_frac_width v)).

(** What the conversion [c] takes from the arguments. *)
Inductive takes (v : conv) : Z -> list arg -> list arg -> Prop :=
| takes_str c l args : In c (str "Vv") -> Z.of_nat (length l) < NO_LENGTH -> takes v c (VStr l :: args) args
| takes_ptr l args : string_ok v l -> takes v (chr "s") (VPtr l :: args) args
| takes_double f args : double_ok v f -> takes v (chr "f") (VDouble f :: args) args
| takes_int c z args : In c (str "cOPTMzidlDLArp") -> takes v c (VInt z :: args) args
| takes_none c args : ~ In c (str "VvsfcOPTMzidlDLArp") -> takes v c args args.

Inductive suits : list Z -> list arg -> Prop :=
| suits_end args : suits [] args
| suits_char c fmt args : c <> chr "%" -> suits fmt args -> suits (c :: fmt) args
| suits_conversion fmt args c fmt' args' v args'' :
    conversion_start fmt args = Some (c :: fmt', args', v) -> takes v c args' args'' -> suits fmt' args'' ->
    suits (chr "%" :: fmt) args.

Lemma num_some room ui64 zero hexadecimal width :
  0 <= ui64 < 2 ^ 64 -> is_Some (ngx_sprintf_num room ui64 zero hexadecimal width).
Proof.
  intros Hn. destruct (num_digits_spec ui64 hexadecimal Hn) as (ds & E & _). unfold ngx_sprintf_num.
  fold (num_digits ui64 hexadecimal). rewrite E. cbn. eauto.
Qed.

Lemma u64_bounds z : 0 <= u64 z < 2 ^ 64.
Proof. apply Z.mod_pos_bound. lia. Qed.

Lemma integer_some room sign n v : is_Some (print_integer room sign n v).
Proof.
  unfold print_integer. destruct (_ && _); [| apply num_some, u64_bounds].
  destruct (num_some (room - 1) (u64 (- n)) (cv_zero v) (cv_hex v) (cv_width v) (u64_bounds _)) as [l ->]. cbn. eauto.
Qed.

Lemma d_truncate_range lo hi f n : lo <= 0 <= hi -> d_truncate lo hi f = Some n -> lo <= n <= hi.
Proof.
  intros Hr. unfold d_truncate. destruct f as [s | | | s m e]; try done; [intros [= <-]; lia |].
  cbv zeta. destruct (_ && _) eqn:E; [intros [= <-]; lia | done].
Qed.

Lemma double_some room f v : double_ok v f -> is_Some (print_double room f v).
Proof.
  intros [[ui64 frac] E]. rewrite print_double_parts. cbv zeta. rewrite E. cbn [mbind option_bind].
  assert (0 <= ui64 < 2 ^ 64 /\ 0 <= frac < 2 ^ 64) as [Hu Hf].
  { unfold double_parts in E. destruct (d_truncate (- 2 ^ 63) (2 ^ 63 - 1) _) as [i |]; [| done]. cbn [mbind option_bind] in E.
    assert (0 <= unsigned 64 i < 2 ^ 64) as Hi by (apply Z.mod_pos_bound; lia).
    destruct (cv_frac_width v =? 0); [injection E as <- <-; lia |].
    destruct (d_truncate 0 (2 ^ 64 - 1) _) as [g |] eqn:Eg; [| done]. cbn [mbind option_bind] in E.
    apply d_truncate_range in Eg; [| lia]. pose proof (u64_bounds (unsigned 64 i + 1)). destruct (g =? _); injection E as <- <-; lia. }
  assert (forall room, is_Some (print_parts v ui64 frac room)) as Hp.
  { intros r. unfold print_parts. destruct (num_some r ui64 (cv_zero v) 0 (cv_width v) Hu) as [a ->]. cbn [mbind option_bind].
    destruct (cv_frac_width v =? 0); [cbn; eauto |]. 
    match goal with |- context [ngx_sprintf_num ?x frac ?y ?z ?w] => destruct (num_some x frac y z w Hf) as [b ->] end. cbn. eauto. }
  destruct (SFltb f (S754_zero false)); [| apply Hp]. destruct (Hp (room - 1)) as [l ->]. cbn. eauto.
Qed.

Lemma copy_terminated_some l room : In 0 l -> is_Some (copy_terminated l room).
Proof.
  revert room. induction l as [| c l IH]; intros room Hin; [done |]. cbn [copy_terminated].
  destruct (Z.eqb_spec c 0); [cbn; eauto |]. destruct Hin as [? | Hin]; [done |]. destruct (0 <? room); [| cbn; eauto].
  destruct (IH (room - 1) Hin) as [o Ho]. cbn [negb andb]. rewrite Ho. cbn. eauto.
Qed.

Lemma hex_terminated_some hex l room : In 0 l -> is_Some (hex_terminated hex l room).
Proof.
  revert room. induction l as [| c l IH]; intros room Hin; [done |]. cbn [hex_terminated].
  destruct (Z.eqb_spec c 0); [cbn; eauto |]. destruct Hin as [? | Hin]; [done |]. destruct (1 <? room); [| cbn; eauto].
  destruct (IH (room - 2) Hin) as [o Ho]. cbn [negb andb]. rewrite Ho. cbn. eauto.
Qed.

Lemma hex_counted_some hex l len room : 0 <= len <= Z.of_nat (length l) -> is_Some (hex_counted hex l len room).
Proof.
  revert len room. induction l as [| c l IH]; intros len room Hl; cbn [hex_counted length] in *;
    (destruct (Z.eqb_spec len 0); [cbn; eauto |]); [lia |]. destruct (1 <? room); [| cbn; eauto].
  destruct (IH (len - 1) (room - 2) ltac:(lia)) as [o Ho]. cbn [negb andb]. rewrite Ho. cbn. eauto.
Qed.

Lemma str_some room l len hexadecimal :
  0 <= room -> 0 <= len -> (if len =? NO_LENGTH then In 0 l else len <= Z.of_nat (length l)) ->
  is_Some (ngx_sprintf_str room l len hexadecimal).
Proof.
  intros Hr Hlen Hl. unfold ngx_sprintf_str. destruct (len =? NO_LENGTH); destruct (hexadecimal =? 0).
  - now apply copy_terminated_some.
  - now apply hex_terminated_some.
  - destruct (Z.ltb_spec (Z.of_nat (length l)) (Z.min room len)); [lia | eauto].
  - now apply hex_counted_some.
Qed.

Lemma switch_some R c fmt args v args' :
  0 < R -> 0 <= cv_slen v -> takes v c args args' -> exists out, format_switch R (c :: fmt) args v = Some (out, fmt, args').
Proof.
  intros HR Hs H. destruct H as [c l args Hc Hl | l args Hl | f args Hf | c z args Hc | c args Hc].
  - destruct (str_some R l (Z.of_nat (length l)) (cv_hex v)) as [o Ho]; [lia | lia | |].
    { destruct (Z.eqb_spec (Z.of_nat (length l)) NO_LENGTH); lia. }
    exists o. destruct Hc as [<- | [<- | []]]; cbn -[ngx_sprintf_str]; rewrite Ho; done.
  - destruct (str_some R l (cv_slen v) (cv_hex v)) as [o Ho]; [lia | done | exact Hl |].
    exists o. cbn -[ngx_sprintf_str]. rewrite Ho. done.
  - destruct (double_some R f v Hf) as [o Ho]. exists o. cbn -[print_double]. rewrite Ho. done.
  - assert (c = chr "c" \/ In c (str "OPTMzidlDLArp")) as [-> | Hi] by (cbn in Hc |- *; intuition congruence); [eauto |].
    assert (format_switch R (c :: fmt) (VInt z :: args) v =
      '(sign, n, v) ← format_integer c z v; out ← print_integer R sign n v; Some (out, fmt, args)) as ->
      by (cbn in Hi; repeat (destruct Hi as [<- | Hi]; [reflexivity |]); done).
    assert (exists sign n v', format_integer c z v = Some (sign, n, v')) as (sign & n & v' & ->).
    { destruct v. cbn in Hi. repeat (destruct Hi as [<- | Hi]; [cbn; try case_match; eauto |]). done. }
    cbn [mbind option_bind]. destruct (integer_some R sign n v') as [o ->]. cbn. eauto.
  - assert (forall x, In x (str "VvsfcOPTMzidlDLArp") -> (c =? x) = false) as Q by (intros x Hx; apply Z.eqb_neq; intros ->; done).
    cbn [format_switch]. rewrite !(Q (chr "V")), !(Q (chr "v")), !(Q (chr "s")), !(Q (chr "f")), !(Q (chr "c")) by (cbn; tauto). cbn [orb].
    destruct (c =? chr "Z"); [eauto |]. destruct (c =? chr "N"); [eauto |]. destruct (c =? chr "%"); [eauto |].
    rewrite bool_decide_false; [eauto |]. intros Hin. apply Hc. cbn in Hin |- *. tauto.
Qed.

Lemma suits_some room fmt args : suits fmt args -> 0 <= room -> is_Some (vslprintf_loop 0 room fmt args).
Proof.
  intros H. revert room. induction H as [args | c fmt args Hc _ IH | fmt args c fmt' args' v args'' E Ht _ IH]; intros room Hr.
  - eexists. reflexivity.
  - destruct (Z.ltb_spec 0 room); [| rewrite loop_full by lia; eauto]. rewrite loop_char by done.
    destruct (IH (room - 1) ltac:(lia)) as [l ->]. cbn. eauto.
  - destruct (Z.ltb_spec 0 room); [| rewrite loop_full by lia; eauto].
    assert (0 <= cv_slen v) as Hs.
    { unfold conversion_start in E. destruct (format_digits 0 fmt). apply format_flags_spec in E; [tauto | cbn; unfold NO_LENGTH; lia]. }
    destruct (switch_some room c fmt' args' v args'' ltac:(lia) Hs Ht) as [out Eo].
    assert (conversion room fmt args = Some (out, fmt', args'')) as Ec.
    { unfold conversion. unfold conversion_start in E. destruct (format_digits 0 fmt). rewrite E. exact Eo. }
    rewrite (loop_conversion _ _ _ _ _ _ ltac:(done) Ec). apply conversion_cuts in Ec as (_ & _ & _ & Hl & _); [| done].
    destruct (IH (room - Z.of_nat (length out)) ltac:(lia)) as [l ->]. cbn. eauto.
Qed.

(** ** Properties *)

(** C39: what a formatted text writes never exceeds the buffer, whatever the
    format and the arguments are (also "%p", "%c" and the minus signs, which
    are written without a check of their own); and the loop ends with a text
    whenever the arguments suit the format: there is one of the right type for
    every conversion, the strings are as long as what is read of them and the
    doubles fit 64 bits. *)
Theorem vslprintf_in_bounds room fmt args :
  0 <= room ->
  (forall out, ngx_vslprintf room fmt args = Some out -> Z.of_nat (length out) <= room) /\
  (suits fmt args -> exists out, ngx_vslprintf room fmt args = Some out).
Proof.
  intros HR. split.
  - intros out E. exact (proj1 (vslprintf_loop_cuts (S (length fmt)) _ _ _ _ (Nat.lt_succ_diag_r _) HR E)).
  - intros Hs. exact (suits_some room fmt args Hs HR).
Qed.

(** a text that does not fit is cut off: the smaller buffer holds what the
    text of a larger one starts with.  (Strings in hexadecimal are left out:
    of these a byte is left unused when the room is odd, and the text goes on
    in it.) *)
Theorem snprintf_truncates max max' fmt args out :
  0 <= max <= max' -> no_hex_strings fmt args -> ngx_snprintf max' fmt args = Some out ->
  ngx_snprintf max fmt args = Some (firstn (Z.to_nat max) out).
Proof.
  intros Hm Hn E. eapply (vslprintf_loop_cuts (S (length fmt))); [apply Nat.lt_succ_diag_r | | exact E | exact Hn | exact Hm]. lia.
Qed.

Example hex_string_goes_on :
  ngx_snprintf 3 (str "%xV!") [VStr (str "AB")] = Some (str "41!") /\
  ngx_snprintf 9 (str "%xV!") [VStr (str "AB")] = Some (str "4142!").
Proof. split; reflexivity. Qed.

(** ** Numbers *)

Lemma decimal_from_zeroes n l : decimal_from 0 (repeat (chr "0") n ++ l) = decimal_from 0 l.
Proof. induction n as [| n IH]; [done |]. cbn. exact IH. Qed.

(** A width from one to nine as the formats of the sources have it, written
    with a zero in front or without. *)
Definition width_text (zero : bool) (w : Z) : list Z := (if zero then [chr "0"] else []) ++ [chr "0" + w].

Definition pad_char (zero : bool) : Z := if zero then chr "0" else chr " ".

Lemma width_cases (P : Z -> Prop) : (forall k, (k < 9)%nat -> P (Z.of_nat (S k))) -> forall w, 1 <= w <= 9 -> P w.
Proof. intros H w Hw. replace w with (Z.of_nat (S (Z.to_nat (w - 1)))) by lia. apply H. lia. Qed.

Lemma conversion_number zero w rest n args room :
  1 <= w <= 9 ->
  (conversion room (width_text zero w ++ str "ui" ++ rest) (VInt n :: args) =
   out ← ngx_sprintf_num room (u64 (unsigned 64 n)) (pad_char zero) 0 w; Some (out, rest, args)) /\
  (conversion room (width_text zero w ++ str "d" ++ rest) (VInt n :: args) =
   out ← print_integer room true (signed 32 n) (mk_conv (pad_char zero) w true 0 false 0 NO_LENGTH); Some (out, rest, args)).
Proof.
  revert w. apply width_cases. intros k Hk. do 9 (destruct k as [| k]; [destruct zero; split; reflexivity |]). lia.
Qed.

Lemma sprintf_num_all room ui64 zero hexadecimal width ds :
  num_digits ui64 hexadecimal = Some ds -> Z.of_nat (length ds) <= room -> width <= room ->
  ngx_sprintf_num room ui64 zero hexadecimal width = Some (padded zero width ds).
Proof.
  intros E Hl Hw. rewrite sprintf_num_cut, E by lia. cbn. f_equal. apply cut_all. unfold padded.
  rewrite List.length_app, List.repeat_length. lia.
Qed.

Lemma sprintf_one fmt args out args' :
  conversion (2 ^ 64 - 1) fmt args = Some (out, [], args') ->
  ngx_sprintf 0 (chr "%" :: fmt) args = Some out.
Proof.
  intros E. unfold ngx_sprintf, ngx_vslprintf. change (2 ^ 64 - 1 - 0) with (2 ^ 64 - 1).
  rewrite (loop_conversion (2 ^ 64 - 1) _ _ _ _ _ eq_refl E). cbn. now rewrite List.app_nil_r.
Qed.

(** "%05ui", "%5ui", ...: the decimal digits of the number, padded on the
    left to the width.  With zeroes for padding [ngx_atoi] reads the number
    back, and so does [ngx_hextoi] from "%xi" and "%Xi". *)
Theorem sprintf_number_round_trip zero w n :
  1 <= w <= 9 -> 0 <= n <= NGX_MAX_INT_T_VALUE ->
  (exists ds, decimal ds = Some n /\ Forall (fun c => is_digit c = true) ds /\
     ngx_sprintf 0 (chr "%" :: width_text zero w ++ str "ui") [VInt n] =
       Some (repeat (pad_char zero) (Z.to_nat (w - Z.of_nat (length ds))) ++ ds)) /\
  (exists out, ngx_sprintf 0 (chr "%" :: width_text true w ++ str "ui") [VInt n] = Some out /\ ngx_atoi out = n) /\
  (forall x, x = chr "x" \/ x = chr "X" ->
     exists out, ngx_sprintf 0 [chr "%"; x; chr "i"] [VInt n] = Some out /\ ngx_hextoi out = n).
Proof.
  intros Hw Hn. assert (0 <= n < 2 ^ 64) as Hn' by (unfold NGX_MAX_INT_T_VALUE in Hn; lia).
  assert (u64 (unsigned 64 n) = n) as Eu by (unfold u64, unsigned; rewrite (Z.mod_small n) by lia; apply Z.mod_small; lia).
  assert (Z.of_nat NGX_INT64_LEN = 20) as E20 by reflexivity.
  assert (forall zero, exists ds, decimal ds = Some n /\ Forall (fun c => is_digit c = true) ds /\
    ngx_sprintf 0 (chr "%" :: width_text zero w ++ str "ui") [VInt n] = Some (padded (pad_char zero) w ds)) as Q.
  { intros z. destruct (num_digits_spec n 0 Hn') as (ds & E & _ & Hl & Hd & HF). exists ds. split_and!; [done | done |].
    eapply (sprintf_one _ _ _ []). rewrite <- (List.app_nil_r (str "ui")).
    rewrite (proj1 (conversion_number z w [] n [] _ Hw)), Eu, (sprintf_num_all _ _ _ _ _ ds E) by lia. done. }
  split; [| split].
  - apply Q.
  - destruct (Q true) as (ds & Hd & HF & E). eexists. split; [exact E |].
    unfold ngx_atoi. rewrite ato_spec by done.
    unfold decimal, padded in *. destruct ds as [| d ds]; [done |]. unfold pad_char.
    assert (decimal_from 0 (repeat (chr "0") (Z.to_nat (w - Z.of_nat (length (d :: ds)))) ++ d :: ds) = Some n) as Ed
      by (rewrite decimal_from_zeroes; exact Hd).
    destruct (repeat _ _ ++ d :: ds) eqn:El; [now apply List.app_eq_nil in El as [_ El] |]. rewrite Ed. cbn.
    destruct (Z.leb_spec n NGX_MAX_INT_T_VALUE); [done | lia].
  - intros x Hx.
    assert (forall h, (h = 1 \/ h = 2) -> exists ds, num_digits n h = Some ds /\ (length ds <= NGX_INT64_LEN)%nat /\
      ngx_hextoi ds = n) as Qh.
    { intros h Hh. destruct (num_digits_spec n h Hn') as (ds & E & Hne & Hl & Hd). exists ds. split_and!; [done | done |].
      replace (h =? 0) with false in Hd by lia. unfold ngx_hextoi. destruct ds as [| d ds]; [done |].
      rewrite hextoi_loop_spec, Hd by done. cbn.
      destruct (Z.leb_spec n NGX_MAX_INT_T_VALUE); [done | lia]. }
    assert (forall h ds, num_digits n h = Some ds -> (length ds <= NGX_INT64_LEN)%nat ->
      ngx_sprintf_num (2 ^ 64 - 1) (u64 (unsigned 64 n)) (chr " ") h 0 = Some ds) as Qn.
    { intros h ds E Hl. rewrite Eu, (sprintf_num_all _ _ _ _ _ ds E) by lia. unfold padded.
      now replace (Z.to_nat (0 - Z.of_nat (length ds))) with O by lia. }
    destruct Hx as [-> | ->]; [destruct (Qh 1 ltac:(lia)) as (ds & E & Hl & Hh) | destruct (Qh 2 ltac:(lia)) as (ds & E & Hl & Hh)];
      exists ds; (split; [| done]); apply (sprintf_one _ _ _ []).
    + transitivity (out ← ngx_sprintf_num (2 ^ 64 - 1) (u64 (unsigned 64 n)) (chr " ") 1 0; Some (out, @nil Z, @nil arg)); [reflexivity |].
      now rewrite (Qn 1 ds).
    + transitivity (out ← ngx_sprintf_num (2 ^ 64 - 1) (u64 (unsigned 64 n)) (chr " ") 2 0; Some (out, @nil Z, @nil arg)); [reflexivity |].
      now rewrite (Qn 2 ds).
Qed.

Lemma vslprintf_in_bounds_witness :
  ngx_vslprintf 3 (str "%d%d") [VInt (-1); VInt (-2)] = Some (str "-1-") /\ Z.of_nat (length (str "-1-")) <= 3 /\
  exists out, ngx_vslprintf 3 (str "%s:%d") [VPtr (str "ab" ++ [0]); VInt 5] = Some out.
Proof.
  split; [reflexivity |]. split.
  - exact (proj1 (vslprintf_in_bounds 3 (str "%d%d") [VInt (-1); VInt (-2)] ltac:(discriminate)) (str "-1-") eq_refl).
  - apply (proj2 (vslprintf_in_bounds 3 (str "%s:%d") [VPtr (str "ab" ++ [0]); VInt 5] ltac:(discriminate))).
    eapply suits_conversion; [reflexivity | apply takes_ptr; right; right; left; reflexivity |].
    apply suits_char; [discriminate |]. eapply suits_conversion; [reflexivity | apply takes_int; cbn; tauto | apply suits_end].
Defined.

Lemma snprintf_truncates_witness :
  ngx_snprintf 6 (str "%V: %05ui") [VStr (str "age"); VInt 60] = Some (str "age: 0").
Proof.
  refine (snprintf_truncates 6 100 (str "%V: %05ui") [VStr (str "age"); VInt 60] (str "age: 00060") _ _ eq_refl).
  - split; discriminate.
  - left. repeat constructor; discriminate.
Defined.

Lemma sprintf_number_round_trip_witness :
  exists out, ngx_sprintf 0 (str "%05ui") [VInt 200] = Some out /\ ngx_atoi out = 200.
Proof.
  exact (proj1 (proj2 (sprintf_number_round_trip true 5 200 ltac:(split; discriminate) ltac:(split; discriminate)))).
Defined.
