(* ===== verification/NgxInet.v ===== *)
(** Addresses (core/ngx_inet.c): the texts of IPv4 and IPv6 addresses, which
    are read and written, and CIDR blocks with the addresses they match.  An
    IPv4 address is a number of 32 bits in network order, as in [in_addr_t] on
    a machine that stores the low byte first; an IPv6 address is its sixteen
    bytes. *)
From S2P Require Import Prelude HttpRequest NgxSprintf.
From stdpp Require Import base list option.
Export Number.
#[global] Open Scope Z_scope.

(** ** IPv4 *)

Definition INADDR_NONE : Z := 0xffffffff.

Definition htonl (v : Z) : Z :=
  Z.lor (Z.lor (Z.shiftl (Z.land v 0xff) 24) (Z.shiftl (Z.land (Z.shiftr v 8) 0xff) 16))
    (Z.lor (Z.shiftl (Z.land (Z.shiftr v 16) 0xff) 8) (Z.land (Z.shiftr v 24) 0xff)).

Definition ntohl := htonl.

(** [addr], [octet] and [n] after the loop. *)
Fixpoint inet_addr_loop (text : list Z) (addr octet n : Z) : option (Z * Z * Z) :=
  match text with
  | [] => Some (addr, octet, n)
  | c :: text =>
      if (chr "0" <=? c) && (c <=? chr "9") then
        let octet := octet * 10 + (c - chr "0") in
        if 255 <? octet then None else inet_addr_loop text addr octet n
      else if c =? chr "." then
        inet_addr_loop text ((Z.shiftl addr 8 mod 2 ^ 32 + octet) mod 2 ^ 32) 0 (n + 1)
      else None
  end.

Definition ngx_inet_addr (text : list Z) : Z :=
  match inet_addr_loop text 0 0 0 with
  | None => INADDR_NONE
  | Some (addr, octet, n) =>
      if n =? 3 then htonl ((Z.shiftl addr 8 mod 2 ^ 32 + octet) mod 2 ^ 32) else INADDR_NONE
  end.

(** ** IPv6 *)

(** [i_out] are the bytes written so far, [i_zero] where [zero] points among
    them, [i_digit] the [len4 - 1] bytes at [digit]. *)
Record in6_vars := mk_in6 {
  i_out : list Z; i_n : Z; i_nibbles : Z; i_word : Z; i_zero : option nat; i_digit : option (list Z) }.

Definition put_word (word : Z) (out : list Z) : list Z := out ++ [Z.shiftr word 8 mod 256; Z.land word 0xff].

(** What a digit adds to [word * 16]. *)
Definition inet6_digit (c : Z) : option Z :=
  if (chr "0" <=? c) && (c <=? chr "9") then Some (c - chr "0")
  else
    let c := Z.lor c 0x20 in
    if (chr "a" <=? c) && (c <=? chr "f") then Some (c - chr "a" + 10) else None.

(** [None] is [NGX_ERROR]. *)
Fixpoint inet6_loop (text : list Z) (v : in6_vars) : option in6_vars :=
  match text with
  | [] => Some v
  | c :: text =>
      if c =? chr ":" then
        if negb (i_nibbles v =? 0) then
          let out := put_word (i_word v) (i_out v) in
          let n := i_n v - 1 in
          if negb (n =? 0) then inet6_loop text (mk_in6 out n 0 0 (i_zero v) (Some text)) else None
        else
          match i_zero v with
          | None =>
              inet6_loop text
                (mk_in6 (i_out v) (i_n v) (i_nibbles v) (i_word v) (Some (length (i_out v))) (Some text))
          | Some _ => None
          end
      else if (c =? chr ".") && negb (i_nibbles v =? 0) then
        match i_digit v with
        | None => None
        | Some digit =>
            if i_n v <? 2 then None
            else
              let word := ngx_inet_addr digit in
              if word =? INADDR_NONE then None
              else
                let word := ntohl word in
                let out := i_out v ++ [Z.land (Z.shiftr word 24) 0xff; Z.land (Z.shiftr word 16) 0xff] in
                Some (mk_in6 out (i_n v - 1) (i_nibbles v) word (i_zero v) (i_digit v))
        end
      else
        let nibbles := i_nibbles v + 1 in
        if 4 <? nibbles then None
        else
          match inet6_digit c with
          | Some d => inet6_loop text (mk_in6 (i_out v) (i_n v) nibbles (i_word v * 16 + d) (i_zero v) (i_digit v))
          | None => None
          end
  end.

(** After the loop: the last word, and zeros at [zero], above which the bytes
    move up. *)
Definition inet6_finish (v : in6_vars) : option (list Z) :=
  if (i_nibbles v =? 0) && bool_decide (i_zero v = None) then None
  else
    let out := put_word (i_word v) (i_out v) in
    let n := i_n v - 1 in
    if negb (n =? 0) then
      match i_zero v with
      | Some zero => Some (take zero out ++ repeat 0 (Z.to_nat (n * 2)) ++ drop zero out)
      | None => None
      end
    else if bool_decide (i_zero v = None) then Some out else None.

(** The sixteen bytes written for [NGX_OK]. *)
Definition ngx_inet6_addr (p : list Z) : option (list Z) :=
  match p with
  | [] => None
  | c :: rest =>
      let p := if c =? chr ":" then rest else p in
      match inet6_loop p (mk_in6 [] 8 0 0 None None) with
      | Some v => inet6_finish v
      | None => None
      end
  end.

Definition NGX_INET6_ADDRSTRLEN : Z := 45.

Definition NO_ZERO : Z := 2 ^ 64 - 1.

Definition byte_at (p : list Z) (i : Z) : Z := nth (Z.to_nat i) p 0.

(** The longest run of zero words: [zero] and [max]; [k] words are left. *)
Fixpoint zero_scan (k : nat) (p : list Z) (i zero last max n : Z) : Z * Z :=
  match k with
  | O => if max <? n then (last, n) else (zero, max)
  | S k =>
      if negb (byte_at p i =? 0) || negb (byte_at p (i + 1) =? 0) then
        let '(zero, max) := if max <? n then (last, n) else (zero, max) in
        zero_scan k p (i + 2) zero last max 0
      else
        let last := if n =? 0 then i else last in
        zero_scan k p (i + 2) zero last max (n + 1)
  end.

Fixpoint print_words (fuel : nat) (p : list Z) (i n zero max : Z) : option (list Z) :=
  match fuel with
  | O => None
  | S fuel =>
      if negb (i <? n) then Some []
      else if i =? zero then cons (chr ":") <$> print_words fuel p (i + (max - 1) * 2 + 2) n zero max
      else
        w ← ngx_sprintf 0 (str "%xd") [VInt (byte_at p i * 256 + byte_at p (i + 1))];
        rest ← print_words fuel p (i + 2) n zero max;
        Some (w ++ (if i <? 14 then [chr ":"] else []) ++ rest)
  end.

Definition print_octets (p : list Z) (i : Z) : option (list Z) :=
  ngx_sprintf 0 (str "%ud.%ud.%ud.%ud") [VInt (byte_at p i); VInt (byte_at p (i + 1)); VInt (byte_at p (i + 2)); VInt (byte_at p (i + 3))].

(** The text written; its length is what the function returns. *)
Definition ngx_inet6_ntop (p : list Z) (len : Z) : option (list Z) :=
  if len <? NGX_INET6_ADDRSTRLEN then Some []
  else
    let '(zero, max) := zero_scan 8 p 0 NO_ZERO NO_ZERO 1 0 in
    let n :=
      if zero =? 0 then
        if (max =? 5) && (byte_at p 10 =? 0xff) && (byte_at p 11 =? 0xff) || (max =? 6) ||
          (max =? 7) && negb (byte_at p 14 =? 0) && negb (byte_at p 15 =? 1) then 12
        else 16
      else 16 in
    words ← print_words 9 p 0 n zero max;
    tail ← (if n =? 12 then print_octets p 12 else Some []);
    Some ((if zero =? 0 then [chr ":"] else []) ++ words ++ tail).

(** ** Either family *)

Inductive in_address := In4 (addr : list Z) | In6 (addr : list Z).

Definition ngx_inet_ntop (addr : in_address) (len : Z) : option (list Z) :=
  match addr with
  | In4 p => ngx_snprintf len (str "%ud.%ud.%ud.%ud") [VInt (byte_at p 0); VInt (byte_at p 1); VInt (byte_at p 2); VInt (byte_at p 3)]
  | In6 p => ngx_inet6_ntop p len
  end.

(** ** Addresses of sockets *)

(** A [struct sockaddr] without the port.  [sun_path] are the bytes that the
    length of the address covers, none if it ends before them. *)
Inductive sockaddr := SaIn (s_addr : Z) | SaIn6 (s6_addr : list Z) | SaUnix (sun_path : list Z).

(** The bytes in memory of a number. *)
Definition in_bytes (a : Z) : list Z := [a mod 2 ^ 8; a / 2 ^ 8 mod 2 ^ 8; a / 2 ^ 16 mod 2 ^ 8; a / 2 ^ 24 mod 2 ^ 8].

Fixpoint ngx_strnlen (p : list Z) : Z :=
  match p with
  | [] => 0
  | c :: p => if c =? 0 then 0 else ngx_strnlen p + 1
  end.

(** The text written and the length that is returned; [sa_port] is
    [ntohs] of the port of [sa]. *)
Definition ngx_sock_ntop (sa : sockaddr) (sa_port len : Z) (port : bool) : option (list Z * Z) :=
  match sa with
  | SaIn a =>
      let p := in_bytes a in
      text ← (if port then
                ngx_snprintf len (str "%ud.%ud.%ud.%ud:%d")
                  [VInt (byte_at p 0); VInt (byte_at p 1); VInt (byte_at p 2); VInt (byte_at p 3); VInt sa_port]
              else
                ngx_snprintf len (str "%ud.%ud.%ud.%ud")
                  [VInt (byte_at p 0); VInt (byte_at p 1); VInt (byte_at p 2); VInt (byte_at p 3)]);
      Some (text, Z.of_nat (length text))
  | SaIn6 p =>
      text ← ngx_inet6_ntop p len;
      if port then
        tail ← ngx_sprintf 0 (str "]:%d") [VInt sa_port];
        let text := chr "[" :: text ++ tail in
        Some (text, Z.of_nat (length text))
      else Some (text, Z.of_nat (length text))
  | SaUnix path =>
      text ← (if bool_decide (path = []) then ngx_snprintf len (str "unix:%Z") []
              else ngx_snprintf len (str "unix:%*s%Z") [VInt (ngx_strnlen path); VPtr path]);
      Some (text, Z.of_nat (length text) - 1)
  end.

(** [ngx_strlchr]: what is before the first such character and after it. *)
Fixpoint split_chr (sep : Z) (text : list Z) : list Z * option (list Z) :=
  match text with
  | [] => ([], None)
  | c :: text =>
      if c =? sep then ([], Some text)
      else let '(before, after) := split_chr sep text in (c :: before, after)
  end.

(** [memory] tells whether the pool has memory for the address. *)
Definition ngx_parse_addr (text : list Z) (memory : bool) : Z * option sockaddr :=
  let inaddr := ngx_inet_addr text in
  if negb (inaddr =? INADDR_NONE) then
    if memory then (NGX_OK, Some (SaIn inaddr)) else (NGX_ERROR, None)
  else
    match ngx_inet6_addr text with
    | Some inaddr6 => if memory then (NGX_OK, Some (SaIn6 inaddr6)) else (NGX_ERROR, None)
    | None => (NGX_DECLINED, None)
    end.

(** From [p++] on: [text] and [len] are those of the address, [p] the port. *)
Definition parse_port (text p : list Z) (memory : bool) : Z * option (sockaddr * Z) :=
  let port := ngx_atoi p in
  if (port <? 1) || (65535 <? port) then (NGX_DECLINED, None)
  else
    let '(rc, addr) := ngx_parse_addr text memory in
    if negb (rc =? NGX_OK) then (rc, None) else (NGX_OK, (fun sa => (sa, port)) <$> addr).

(** The address with its port, which is 0 in the memory the pool gives. *)
Definition ngx_parse_addr_port (text : list Z) (memory : bool) : Z * option (sockaddr * Z) :=
  let '(rc, addr) := ngx_parse_addr text memory in
  if negb (rc =? NGX_DECLINED) then (rc, (fun sa => (sa, 0)) <$> addr)
  else
    match text with
    | [] => (NGX_DECLINED, None)
    | c :: rest =>
        if c =? chr "[" then
          match split_chr (chr "]") rest with
          | (addr, Some (colon :: p)) =>
              if negb (colon =? chr ":") then (NGX_DECLINED, None) else parse_port addr p memory
          | _ => (NGX_DECLINED, None)
          end
        else
          match split_chr (chr ":") text with
          | (addr, Some p) => parse_port addr p memory
          | (_, None) => (NGX_DECLINED, None)
          end
    end.

(** ** CIDR blocks *)

(** The family and the member of the union for it. *)
Inductive ngx_cidr_t :=
| CidrIn (addr mask : Z)
| CidrIn6 (addr mask : list Z)
| CidrUnix.

(** The loop over the bytes: [addr], [mask] and [rc]. *)
Fixpoint cidr6_loop (addr : list Z) (shift rc : Z) : list Z * list Z * Z :=
  match addr with
  | [] => ([], [], rc)
  | a :: addr =>
      let s := if 8 <? shift then 8 else shift in
      let shift := shift - s in
      let m := Z.shiftl 0xff (8 - s) mod 256 in
      let '(a, rc) := if negb (a =? Z.land a m) then (Z.land a m, NGX_DONE) else (a, rc) in
      let '(addr, mask, rc) := cidr6_loop addr shift rc in
      (a :: addr, m :: mask, rc)
  end.

Definition cidr_mask (shift : Z) : Z :=
  if negb (shift =? 0) then htonl (Z.shiftl 0xffffffff (32 - shift) mod 2 ^ 32) else 0.

(** [None] is [NGX_ERROR]. *)
Definition ngx_ptocidr (text : list Z) : option (Z * ngx_cidr_t) :=
  let '(addr, mask) := split_chr (chr "/") text in
  let inaddr := ngx_inet_addr addr in
  if negb (inaddr =? INADDR_NONE) then
    match mask with
    | None => Some (NGX_OK, CidrIn inaddr 0xffffffff)
    | Some mask =>
        let shift := ngx_atoi mask in
        if shift =? NGX_ERROR then None
        else if 32 <? shift then None
        else
          let m := cidr_mask shift in
          if inaddr =? Z.land inaddr m then Some (NGX_OK, CidrIn inaddr m)
          else Some (NGX_DONE, CidrIn (Z.land inaddr m) m)
    end
  else
    match ngx_inet6_addr addr with
    | None => None
    | Some addr6 =>
        match mask with
        | None => Some (NGX_OK, CidrIn6 addr6 (repeat 0xff 16))
        | Some mask =>
            let shift := ngx_atoi mask in
            if shift =? NGX_ERROR then None
            else if 128 <? shift then None
            else
              let '(a, m, rc) := cidr6_loop addr6 shift NGX_OK in Some (rc, CidrIn6 a m)
        end
    end.


(** [IN6_IS_ADDR_V4MAPPED] *)
Definition v4mapped (p : list Z) : bool :=
  forallb (fun b => b =? 0) (take 10 p) && (byte_at p 10 =? 0xff) && (byte_at p 11 =? 0xff).

Definition mapped_inaddr (p : list Z) : Z :=
  let inaddr := Z.shiftl (byte_at p 12) 24 mod 2 ^ 32 in
  let inaddr := (inaddr + Z.shiftl (byte_at p 13) 16) mod 2 ^ 32 in
  let inaddr := (inaddr + Z.shiftl (byte_at p 14) 8) mod 2 ^ 32 in
  let inaddr := (inaddr + byte_at p 15) mod 2 ^ 32 in
  htonl inaddr.

(** [family] with the address, after the first conditional. *)
Definition match_family (sa : sockaddr) : sockaddr :=
  match sa with
  | SaIn6 p => if v4mapped p then SaIn (mapped_inaddr p) else sa
  | _ => sa
  end.

Fixpoint match6 (a addr mask : list Z) : bool :=
  match a, addr, mask with
  | x :: a, y :: addr, m :: mask => if negb (Z.land x m =? y) then false else match6 a addr mask
  | _, _, _ => true
  end.

Definition cidr_matches (sa : sockaddr) (cidr : ngx_cidr_t) : bool :=
  match sa, cidr with
  | SaIn inaddr, CidrIn addr mask => Z.land inaddr mask =? addr
  | SaIn6 p, CidrIn6 addr mask => match6 p addr mask
  | SaUnix _, CidrUnix => true
  | _, _ => false
  end.

Fixpoint cidr_loop (sa : sockaddr) (cidrs : list ngx_cidr_t) : Z :=
  match cidrs with
  | [] => NGX_DECLINED
  | cidr :: cidrs => if cidr_matches sa cidr then NGX_OK else cidr_loop sa cidrs
  end.

Definition ngx_cidr_match (sa : sockaddr) (cidrs : list ngx_cidr_t) : Z := cidr_loop (match_family sa) cidrs.

Example inet_addr_texts :
  map (fun l => ngx_inet_addr l) [str "127.0.0.1"; str "1..2.3"; str "1.2.3"; str "1.2.3.256"; str "255.255.255.255"] =
  [0x0100007f; 0x03020001; INADDR_NONE; INADDR_NONE; INADDR_NONE].
Proof. reflexivity. Qed.

Example inet6_addr_texts :
  map (fun l => bool_decide (ngx_inet6_addr l = None))
    [str "::"; str "1:2:3:4:5:6:7::"; str ":1:2:3:4:5:6:7:8"; str "1::2:"; str "::ffff:255.255.255.255"; str "1::2::3"] =
  [false; true; false; false; true; true].
Proof. reflexivity. Qed.

Example cidr_mapped :
  map (fun r => match r with
         | Some (rc, cidr) => (rc, ngx_cidr_match (SaIn6 (repeat 0 10 ++ [255; 255; 10; 1; 2; 3])) [cidr])
         | None => (0, 0)
         end)
    [ngx_ptocidr (str "10.1.3.0/23"); ngx_ptocidr (str "10.1.2.0/24"); ngx_ptocidr (str "10.1.2.0/31"); ngx_ptocidr (str "fe80::/10")] =
  [(NGX_DONE, NGX_OK); (NGX_OK, NGX_OK); (NGX_OK, NGX_DECLINED); (NGX_OK, NGX_DECLINED)].
Proof. reflexivity. Qed.

Example addr_ports :
  map (fun l => ngx_parse_addr_port l true) [str "[::1]:80"; str "1.2.3.4:65535"; str "1.2.3.4:65536"; str "::1"; str "[::1]"] =
  [(NGX_OK, Some (SaIn6 (repeat 0 15 ++ [1]), 80)); (NGX_OK, Some (SaIn 0x04030201, 65535)); (NGX_DECLINED, None);
   (NGX_OK, Some (SaIn6 (repeat 0 15 ++ [1]), 0)); (NGX_DECLINED, None)].
Proof. reflexivity. Qed.

Example sock_ntop_unix :
  (ngx_sock_ntop (SaUnix (str "/run/s" ++ [0; 0])) 0 113 true, ngx_sock_ntop (SaIn6 (repeat 0 15 ++ [1])) 8080 53 true) =
  (Some (str "unix:/run/s" ++ [0], 11), Some (str "[::1]:8080", 10)).
Proof. reflexivity. Qed.

(** ** IPv4 addresses and their texts *)

(** The number with these bytes in memory. *)
Definition in_addr (p : list Z) : Z :=
  byte_at p 0 + byte_at p 1 * 2 ^ 8 + byte_at p 2 * 2 ^ 16 + byte_at p 3 * 2 ^ 24.

(** The fields of a text between the characters [sep]. *)
Fixpoint fields (sep : Z) (l : list Z) : list (list Z) :=
  match l with
  | [] => [[]]
  | c :: l =>
      if c =? sep then [] :: fields sep l
      else match fields sep l with f :: fs => (c :: f) :: fs | [] => [[c]] end
  end.

(** A number up to 255 that goes on from [acc]; no digits are 0. *)
Definition octet_from (acc : Z) (l : list Z) : option Z :=
  match decimal_from acc l with
  | Some v => if v <=? 255 then Some v else None
  | None => None
  end.

Fixpoint octets_fold (fs : list (list Z)) (addr octet n : Z) : option (Z * Z * Z) :=
  match fs with
  | [] => None
  | [f] => v ← octet_from octet f; Some (addr, v, n)
  | f :: fs => v ← octet_from octet f; octets_fold fs ((Z.shiftl addr 8 mod 2 ^ 32 + v) mod 2 ^ 32) 0 (n + 1)
  end.

Lemma fields_cons sep l : exists f fs, fields sep l = f :: fs.
Proof.
  destruct l as [| c l]; cbn; [eauto |]. destruct (c =? sep); [eauto |]. destruct (fields sep l); eauto.
Qed.

Lemma octet_from_cons acc c f :
  0 <= acc -> octet_from acc (c :: f) =
    if is_digit c then if 255 <? acc * 10 + (c - chr "0") then None else octet_from (acc * 10 + (c - chr "0")) f else None.
Proof.
  intros Ha. unfold octet_from. cbn [decimal_from]. unfold is_digit. destruct ((_ <=? c) && _) eqn:E; [| done].
  destruct (Z.ltb_spec 255 (acc * 10 + (c - 48))); [| done].
  destruct (decimal_from _ f) as [v |] eqn:Ed; [| done]. apply decimal_from_ge in Ed; [| lia].
  destruct (Z.leb_spec v 255); [lia | done].
Qed.

Lemma inet_addr_loop_fields text addr octet n :
  0 <= octet <= 255 -> inet_addr_loop text addr octet n = octets_fold (fields (chr ".") text) addr octet n.
Proof.
  revert addr octet n. induction text as [| c text IH]; intros addr octet n Ho; cbn [inet_addr_loop fields].
  - cbn. unfold octet_from. cbn. destruct (Z.leb_spec octet 255); [done | lia].
  - destruct (fields_cons (chr ".") text) as (f & fs & E).
    fold (is_digit c). destruct (is_digit c) eqn:Ec.
    + pose proof Ec as Hc. unfold is_digit in Ec. replace (c =? chr ".") with false by (cbn in *; lia). rewrite E.
      transitivity (octets_fold ((c :: f) :: fs) addr octet n); [| done].
      destruct (Z.ltb_spec 255 (octet * 10 + (c - chr "0"))) as [H | H].
      * assert (octet_from octet (c :: f) = None) as Q.
        { rewrite octet_from_cons by lia. rewrite Hc.
          destruct (Z.ltb_spec 255 (octet * 10 + (c - chr "0"))); [done | lia]. }
        destruct fs; cbn [octets_fold]; now rewrite Q.
      * rewrite IH by (cbn in *; lia). rewrite E.
        assert (octet_from octet (c :: f) = octet_from (octet * 10 + (c - chr "0")) f) as Q.
        { rewrite octet_from_cons by lia. rewrite Hc.
          destruct (Z.ltb_spec 255 (octet * 10 + (c - chr "0"))); [lia | done]. }
        destruct fs; cbn [octets_fold]; now rewrite Q.
    + destruct (c =? chr ".") eqn:Ed.
      * rewrite IH by lia. rewrite E. assert (octet_from octet [] = Some octet) as Q.
        { unfold octet_from. cbn. destruct (Z.leb_spec octet 255); [done | lia]. }
        destruct fs; cbn [octets_fold]; now rewrite Q.
      * rewrite E. assert (octet_from octet (c :: f) = None) as Q by (rewrite octet_from_cons, Ec by lia; done).
        destruct fs; cbn [octets_fold]; now rewrite Q.
Qed.

Lemma octets_fold_count fs addr octet n addr' octet' n' :
  octets_fold fs addr octet n = Some (addr', octet', n') -> n' = n + Z.of_nat (length fs) - 1.
Proof.
  revert addr octet n. induction fs as [| f fs IH]; intros addr octet n E; [done |].
  destruct fs as [| f' fs]; cbn [octets_fold] in E.
  - destruct (octet_from octet f); cbn in E; simplify_eq. cbn. lia.
  - destruct (octet_from octet f); [| done]. apply IH in E. cbn [length] in *. lia.
Qed.

Lemma octet_range l v : octet_from 0 l = Some v -> byte v.
Proof.
  unfold octet_from, byte. destruct (decimal_from 0 l) as [x |] eqn:E; [| done].
  apply decimal_from_ge in E; [| lia]. destruct (Z.leb_spec x 255); intros; simplify_eq; lia.
Qed.

(** The bytes of a number of 32 bits. *)
Lemma quad_bytes a b c d :
  byte a -> byte b -> byte c -> byte d ->
  let v := a * 2 ^ 24 + b * 2 ^ 16 + c * 2 ^ 8 + d in
  v mod 2 ^ 8 = d /\ v / 2 ^ 8 mod 2 ^ 8 = c /\ v / 2 ^ 16 mod 2 ^ 8 = b /\ v / 2 ^ 24 mod 2 ^ 8 = a.
Proof.
  intros Ha Hb Hc Hd v. unfold byte in *.
  assert (v / 2 ^ 8 = a * 2 ^ 16 + b * 2 ^ 8 + c) as -> by (symmetry; apply (Z.div_unique_pos _ _ _ d); unfold v; lia).
  assert (v / 2 ^ 16 = a * 2 ^ 8 + b) as -> by (symmetry; apply (Z.div_unique_pos _ _ _ (c * 2 ^ 8 + d)); unfold v; lia).
  assert (v / 2 ^ 24 = a) as -> by (symmetry; apply (Z.div_unique_pos _ _ _ (b * 2 ^ 16 + c * 2 ^ 8 + d)); unfold v; lia).
  split_and!; [| | | apply Z.mod_small; lia]; symmetry.
  - apply (Z.mod_unique_pos _ _ (a * 2 ^ 16 + b * 2 ^ 8 + c)); unfold v; lia.
  - apply (Z.mod_unique_pos _ _ (a * 2 ^ 8 + b)); lia.
  - apply (Z.mod_unique_pos _ _ a); lia.
Qed.

Lemma in_addr_quad a b c d : in_addr [a; b; c; d] = d * 2 ^ 24 + c * 2 ^ 16 + b * 2 ^ 8 + a.
Proof. transitivity (a + b * 2 ^ 8 + c * 2 ^ 16 + d * 2 ^ 24); [reflexivity | ring]. Qed.

Lemma htonl_bytes a b c d :
  byte a -> byte b -> byte c -> byte d ->
  htonl (a * 2 ^ 24 + b * 2 ^ 16 + c * 2 ^ 8 + d) = in_addr [a; b; c; d].
Proof.
  intros Ha Hb Hc Hd. unfold htonl. change 0xff with (Z.ones 8).
  rewrite !land_low, !Z.shiftr_div_pow2 by lia.
  destruct (quad_bytes a b c d Ha Hb Hc Hd) as (-> & -> & -> & ->). unfold byte in *.
  rewrite (Z.shiftl_mul_pow2 c 16) by lia.
  rewrite !lor_shiftl_add by lia.
  replace (d * 2 ^ 24 + c * 2 ^ 16) with (Z.shiftl (d * 2 ^ 8 + c) 16) by (rewrite Z.shiftl_mul_pow2 by lia; lia).
  rewrite lor_shiftl_add by lia.
  rewrite in_addr_quad. ring.
Qed.

Lemma push_octet x y : 0 <= x < 2 ^ 24 -> byte y -> (Z.shiftl x 8 mod 2 ^ 32 + y) mod 2 ^ 32 = x * 2 ^ 8 + y.
Proof. unfold byte. intros Hx Hy. rewrite Z.shiftl_mul_pow2, (Z.mod_small (x * 2 ^ 8)), Z.mod_small by lia. lia. Qed.

(** [ngx_inet_addr] accepts four numbers up to 255 between dots; one that has
    no digits is 0. *)
Lemma inet_addr_spec text :
  ngx_inet_addr text =
    match map (octet_from 0) (fields (chr ".") text) with
    | [Some a; Some b; Some c; Some d] => in_addr [a; b; c; d]
    | _ => INADDR_NONE
    end.
Proof.
  unfold ngx_inet_addr. rewrite inet_addr_loop_fields by lia.
  destruct (octets_fold _ 0 0 0) as [[[addr octet] n] |] eqn:E.
  - pose proof (octets_fold_count _ _ _ _ _ _ _ E) as Hn.
    destruct (Z.eqb_spec n 3) as [-> | H3].
    + destruct (fields (chr ".") text) as [| f0 [| f1 [| f2 [| f3 [| f4 fs]]]]]; cbn [length] in Hn; try lia.
      cbn [octets_fold] in E. cbn [map].
      destruct (octet_from 0 f0) as [a |] eqn:E0; [| done]. cbn in E.
      destruct (octet_from 0 f1) as [b |] eqn:E1; [| done]. cbn in E.
      destruct (octet_from 0 f2) as [c |] eqn:E2; [| done]. cbn in E.
      destruct (octet_from 0 f3) as [d |] eqn:E3; [| done]. cbn in E. simplify_eq.
      apply octet_range in E0, E1, E2, E3. rewrite <- htonl_bytes by done. f_equal.
      rewrite (push_octet 0), (push_octet (_ + a)), (push_octet (_ + b)), (push_octet (_ + c)) by (unfold byte in *; lia). lia.
    + destruct (map _ _) as [| [a |] [| [b |] [| [c |] [| [d |] [| e l]]]]] eqn:El; try done.
      apply (f_equal length) in El. rewrite List.length_map in El. cbn in El. lia.
  - destruct (fields (chr ".") text) as [| f0 [| f1 [| f2 [| f3 [| f4 fs]]]]]; cbn [map]; try done;
      cbn [octets_fold] in E; destruct (octet_from 0 f0) as [a |]; try done; cbn in E;
      destruct (octet_from 0 f1) as [b |]; try done; cbn in E;
      destruct (octet_from 0 f2) as [c |]; try done; cbn in E;
      destruct (octet_from 0 f3) as [d |]; done.
Qed.

(** ** Bounds *)

Lemma in_bytes_addr a b c d : byte a -> byte b -> byte c -> byte d -> in_bytes (in_addr [a; b; c; d]) = [a; b; c; d].
Proof.
  intros Ha Hb Hc Hd. unfold in_bytes. rewrite in_addr_quad.
  now destruct (quad_bytes d c b a Hd Hc Hb Ha) as (-> & -> & -> & ->).
Qed.

Lemma in_addr_range a b c d : byte a -> byte b -> byte c -> byte d -> 0 <= in_addr [a; b; c; d] < 2 ^ 32.
Proof.
  unfold byte. intros. rewrite in_addr_quad. lia.
Qed.

Lemma inet_addr_range text : 0 <= ngx_inet_addr text < 2 ^ 32.
Proof.
  rewrite inet_addr_spec. destruct (fields (chr ".") text) as [| f0 [| f1 [| f2 [| f3 [| f4 fs]]]]]; cbn [map];
    try (split; [discriminate | reflexivity]);
    repeat match goal with |- context [octet_from 0 ?f] => destruct (octet_from 0 f) eqn:? end;
    try (split; [discriminate | reflexivity]).
  apply in_addr_range; eauto using octet_range.
Qed.

Lemma put_word_bytes w out : Forall byte out -> Forall byte (put_word w out).
Proof.
  intros H. unfold put_word. apply Forall_app. split; [done |]. change 0xff with (Z.ones 8). rewrite land_low by lia.
  repeat constructor; apply Z.mod_pos_bound; lia.
Qed.

Lemma length_put_word w out : length (put_word w out) = (length out + 2)%nat.
Proof. unfold put_word. now rewrite List.length_app. Qed.

(** The bytes written and the words that remain are eight words. *)
Definition in6_ok (v : in6_vars) : Prop :=
  1 <= i_n v /\ Z.of_nat (length (i_out v)) = 2 * (8 - i_n v) /\ Forall byte (i_out v) /\
  (forall zero, i_zero v = Some zero -> (zero <= length (i_out v))%nat).

Lemma inet6_loop_ok text v v' : in6_ok v -> inet6_loop text v = Some v' -> in6_ok v'.
Proof.
  revert v. induction text as [| c text IH]; intros [out n nibbles word zero digit] (Hn & Hl & HF & Hz) E;
    cbn [inet6_loop i_out i_n i_nibbles i_word i_zero i_digit] in *.
  { now simplify_eq. }
  destruct (c =? chr ":"); [| destruct ((c =? chr ".") && _)].
  - destruct (negb (nibbles =? 0)).
    + destruct (Z.eqb_spec (n - 1) 0) as [| Hn1]; [done |]. cbn [negb] in E. apply IH in E; [done |]. split_and!; cbn.
      * lia.
      * rewrite length_put_word. lia.
      * now apply put_word_bytes.
      * intros z Q. rewrite length_put_word. specialize (Hz z Q). lia.
    + destruct zero; [done |]. apply IH in E; [done |]. split_and!; cbn; try done. intros z [= <-]. lia.
  - destruct digit as [d |]; [| done]. destruct (Z.ltb_spec n 2); [done |].
    destruct (ngx_inet_addr d =? INADDR_NONE); [done |]. simplify_eq. split_and!; cbn.
    + lia.
    + rewrite List.length_app. cbn. lia.
    + apply Forall_app. split; [done |]. change 0xff with (Z.ones 8). rewrite !land_low by lia.
      repeat constructor; apply Z.mod_pos_bound; lia.
    + intros z Q. rewrite List.length_app. specialize (Hz z Q). lia.
  - destruct (4 <? nibbles + 1); [done |]. destruct (inet6_digit c); [| done]. apply IH in E; done.
Qed.

Lemma inet6_addr_bytes text p : ngx_inet6_addr text = Some p -> length p = 16%nat /\ Forall byte p.
Proof.
  unfold ngx_inet6_addr. destruct text as [| c rest]; [done |]. destruct (inet6_loop _ _) as [v |] eqn:E; [| done].
  apply inet6_loop_ok in E as (Hn & Hl & HF & Hz);
    [| split_and!; cbn; [lia | lia | constructor | done]].
  unfold inet6_finish. destruct (_ && _); [done |].
  pose proof (put_word_bytes (i_word v) _ HF) as HF'. pose proof (length_put_word (i_word v) (i_out v)) as Hl'.
  destruct (Z.eqb_spec (i_n v - 1) 0) as [| Hn1]; cbn [negb].
  - destruct (bool_decide _); intros; simplify_eq. split; [lia | done].
  - destruct (i_zero v) as [zero |]; [| done]. intros. simplify_eq. specialize (Hz _ eq_refl). split.
    + rewrite !List.length_app, List.repeat_length, List.length_firstn, List.length_skipn. lia.
    + apply Forall_app. split; [now apply Forall_take |]. apply Forall_app. split; [| now apply Forall_drop].
      induction (Z.to_nat _) as [| k IH]; cbn; constructor; [unfold byte; lia | done].
Qed.
