(* ===== verification/InetCidr.v ===== *)
(** CIDR blocks: [ngx_ptocidr] and [ngx_cidr_match] against the bits of the
    addresses. *)
From S2P Require Import Prelude HttpRequest NgxInet.
From stdpp Require Import base list option.
#[global] Open Scope Z_scope.

(** ** Specification *)

(** Bit [i] of an address, the high bit of the first byte first. *)
Definition addr_bit (p : list Z) (i : nat) : bool := Z.testbit (nth (i / 8) p 0) (7 - Z.of_nat (i mod 8)).

Definition same_prefix (shift : Z) (p q : list Z) : Prop := forall i, Z.of_nat i < shift -> addr_bit p i = addr_bit q i.

(** No bits are set from [shift] on. *)
Definition no_host_bits (shift : Z) (p : list Z) : Prop :=
  forall i, shift <= Z.of_nat i -> (i < 8 * length p)%nat -> addr_bit p i = false.

(** The bytes of the address a text gives. *)
Definition text_address (text : list Z) : option (list Z) :=
  if ngx_inet_addr text =? INADDR_NONE then ngx_inet6_addr text else Some (in_bytes (ngx_inet_addr text)).

(** The address of a block and the length of its prefix. *)
Definition text_prefix (text : list Z) : option (list Z * Z) :=
  let '(addr, mask) := split_chr (chr "/") text in
  p ← text_address addr;
  let bits := 8 * Z.of_nat (length p) in
  match mask with
  | None => Some (p, bits)
  | Some mask => shift ← decimal mask; if shift <=? bits then Some (p, shift) else None
  end.

(** The address that is matched: IPv6 addresses for IPv4 ones are these. *)
Definition sa_address (sa : sockaddr) : option (list Z) :=
  match sa with
  | SaIn a => Some (in_bytes a)
  | SaIn6 p => Some (if v4mapped p then drop 12 p else p)
  | SaUnix _ => None
  end.

Definition sa_ok (sa : sockaddr) : Prop :=
  match sa with
  | SaIn a => 0 <= a < 2 ^ 32
  | SaIn6 p => length p = 16%nat /\ Forall byte p
  | SaUnix _ => True
  end.

(** The block that a text gives has the address. *)
Definition text_covers (sa : sockaddr) (text : list Z) : Prop :=
  exists p shift q, text_prefix text = Some (p, shift) /\ sa_address sa = Some q /\
    length q = length p /\ same_prefix shift q p.

(** ** IPv4 masks *)

(** Where bit [i] of an address is in the number with its bytes. *)
Definition netbit (i : nat) : Z := 8 * Z.of_nat (i / 8) + (7 - Z.of_nat (i mod 8)).

Definition shifts (n : nat) : list Z := map Z.of_nat (seq 0 (S n)).

Lemma shifts_in n shift : 0 <= shift <= Z.of_nat n -> In shift (shifts n).
Proof. intros H. unfold shifts. apply in_map_iff. exists (Z.to_nat shift). rewrite in_seq. lia. Qed.

Lemma mask_bit shift i : 0 <= shift <= 32 -> (i < 32)%nat -> Z.testbit (cidr_mask shift) (netbit i) = (Z.of_nat i <? shift).
Proof.
  intros Hs Hi.
  assert (forallb (fun s => forallb (fun i => Bool.eqb (Z.testbit (cidr_mask s) (netbit i)) (Z.of_nat i <? s)) (seq 0 32))
    (shifts 32) = true) as Q by (vm_compute; reflexivity).
  rewrite forallb_forall in Q. specialize (Q shift (shifts_in 32 shift Hs)).
  rewrite forallb_forall in Q. specialize (Q i). rewrite in_seq in Q. apply eqb_prop, Q. lia.
Qed.

Lemma netbit_surj k : 0 <= k < 32 -> exists i, (i < 32)%nat /\ netbit i = k.
Proof.
  intros Hk.
  assert (forallb (fun k => existsb (fun i => netbit i =? k) (seq 0 32)) (shifts 31) = true) as Q by (vm_compute; reflexivity).
  rewrite forallb_forall in Q. specialize (Q k (shifts_in 31 k ltac:(lia))). apply existsb_exists in Q as (i & Hi & E).
  rewrite in_seq in Hi. exists i. split; [lia | now apply Z.eqb_eq].
Qed.

Lemma testbit_byte a k j : 0 <= k -> 0 <= j < 8 -> Z.testbit (a / 2 ^ k mod 2 ^ 8) j = Z.testbit a (k + j).
Proof.
  intros Hk Hj. rewrite Z.mod_pow2_bits_low by lia. rewrite Z.div_pow2_bits by lia. f_equal. lia.
Qed.

Lemma addr_bit_in a i : (i < 32)%nat -> addr_bit (in_bytes a) i = Z.testbit a (netbit i).
Proof.
  intros Hi. unfold addr_bit, netbit, in_bytes.
  assert (i / 8 < 4)%nat as H8 by (apply Nat.Div0.div_lt_upper_bound; lia).
  pose proof (Nat.mod_upper_bound i 8 ltac:(lia)) as Hm.
  destruct (i / 8)%nat as [| [| [| [| k]]]]; try lia; cbn [nth].
  - rewrite Z.mod_pow2_bits_low by lia. f_equal.
  - rewrite testbit_byte by lia. f_equal.
  - rewrite testbit_byte by lia. f_equal.
  - rewrite testbit_byte by lia. f_equal.
Qed.

Lemma masked_eq shift x y :
  0 <= shift <= 32 -> 0 <= x < 2 ^ 32 ->
  (Z.land x (cidr_mask shift) = Z.land y (cidr_mask shift) <-> same_prefix shift (in_bytes x) (in_bytes y)).
Proof.
  intros Hs Hx. split.
  - intros E i Hi. rewrite !addr_bit_in by lia. apply (f_equal (fun z => Z.testbit z (netbit i))) in E.
    rewrite !Z.land_spec, mask_bit in E by lia. destruct (Z.ltb_spec (Z.of_nat i) shift); [| lia].
    now rewrite !andb_true_r in E.
  - intros H. apply Z.bits_inj'. intros k Hk. rewrite !Z.land_spec.
    destruct (Z.ltb_spec k 32) as [Hk32 | Hk32].
    + destruct (netbit_surj k) as (i & Hi & <-); [lia |]. rewrite mask_bit by lia.
      destruct (Z.ltb_spec (Z.of_nat i) shift) as [Hi' |]; [| now rewrite !andb_false_r].
      specialize (H i Hi'). rewrite !addr_bit_in in H by lia. now rewrite H.
    + assert (Z.testbit (cidr_mask shift) k = false) as ->; [| now rewrite !andb_false_r].
      assert (forallb (fun s => (0 <=? cidr_mask s) && (cidr_mask s <? 2 ^ 32)) (shifts 32) = true) as Q by (vm_compute; reflexivity).
      rewrite forallb_forall in Q. specialize (Q shift (shifts_in 32 shift Hs)).
      rewrite <- (Z.mod_small (cidr_mask shift) (2 ^ 32)) by lia. apply Z.mod_pow2_bits_high. lia.
Qed.

(** ** IPv6 masks *)

Lemma addr_bit_cons b p i : addr_bit (b :: p) i = if (i <? 8)%nat then Z.testbit b (7 - Z.of_nat i) else addr_bit p (i - 8).
Proof.
  unfold addr_bit. destruct (Nat.ltb_spec i 8) as [H | H].
  - rewrite Nat.div_small, Nat.mod_small by done. done.
  - replace i with (i - 8 + 1 * 8)%nat at 1 2 by lia.
    rewrite Nat.div_add, Nat.Div0.mod_add by lia. now rewrite Nat.add_1_r.
Qed.

Lemma byte_mask_bit s j :
  0 <= s <= 8 -> 0 <= j < 8 -> Z.testbit (Z.shiftl 0xff (8 - s) mod 256) (7 - j) = (j <? s).
Proof.
  intros Hs Hj.
  assert (forallb (fun s => forallb (fun j => Bool.eqb (Z.testbit (Z.shiftl 0xff (8 - s) mod 256) (7 - j)) (j <? s)) (shifts 7))
    (shifts 8) = true) as Q by (vm_compute; reflexivity).
  rewrite forallb_forall in Q. specialize (Q s (shifts_in 8 s Hs)).
  rewrite forallb_forall in Q. specialize (Q j (shifts_in 7 j ltac:(lia))). now apply eqb_prop.
Qed.

Lemma byte_high b k : byte b -> 8 <= k -> Z.testbit b k = false.
Proof.
  unfold byte. intros Hb Hk. rewrite <- (Z.mod_small b (2 ^ 8)) by lia. apply Z.mod_pow2_bits_high. lia.
Qed.

Lemma byte_masked s x y :
  0 <= s <= 8 -> byte x ->
  (Z.land x (Z.shiftl 0xff (8 - s) mod 256) = Z.land y (Z.shiftl 0xff (8 - s) mod 256) <->
   forall j, 0 <= j < 8 -> j < s -> Z.testbit x (7 - j) = Z.testbit y (7 - j)).
Proof.
  intros Hs Hx. split.
  - intros E j Hj Hjs. apply (f_equal (fun z => Z.testbit z (7 - j))) in E.
    rewrite !Z.land_spec, byte_mask_bit in E by lia. replace (j <? s) with true in E by lia. now rewrite !andb_true_r in E.
  - intros H. apply Z.bits_inj'. intros k Hk. rewrite !Z.land_spec. destruct (Z.ltb_spec k 8) as [H8 | H8].
    + replace k with (7 - (7 - k)) by lia. rewrite byte_mask_bit by lia.
      destruct (Z.ltb_spec (7 - k) s); [| now rewrite !andb_false_r]. rewrite (H (7 - k)) by lia. done.
    + rewrite (byte_high (_ mod 256)) by (try done; apply Z.mod_pos_bound; lia). now rewrite !andb_false_r.
Qed.

Lemma byte_host s x :
  0 <= s <= 8 -> byte x ->
  (x = Z.land x (Z.shiftl 0xff (8 - s) mod 256) <-> forall j, 0 <= j < 8 -> s <= j -> Z.testbit x (7 - j) = false).
Proof.
  intros Hs Hx. split.
  - intros E j Hj Hjs. rewrite E, Z.land_spec, byte_mask_bit by lia. replace (j <? s) with false by lia. apply andb_false_r.
  - intros H. apply Z.bits_inj'. intros k Hk. rewrite Z.land_spec. destruct (Z.ltb_spec k 8) as [H8 | H8].
    + replace k with (7 - (7 - k)) by lia. rewrite byte_mask_bit by lia.
      destruct (Z.ltb_spec (7 - k) s) as [| Hks]; [now rewrite andb_true_r |]. rewrite (H (7 - k)) by lia. done.
    + now rewrite (byte_high x).
Qed.

Lemma same_prefix_cons shift s x y p q :
  s = Z.min shift 8 -> 
  (same_prefix shift (x :: p) (y :: q) <->
   (forall j, 0 <= j < 8 -> j < s -> Z.testbit x (7 - j) = Z.testbit y (7 - j)) /\ same_prefix (shift - s) p q).
Proof.
  intros ->. unfold same_prefix. split.
  - intros H. split.
    + intros j Hj Hjs. specialize (H (Z.to_nat j) ltac:(lia)). rewrite !addr_bit_cons in H.
      destruct (Nat.ltb_spec (Z.to_nat j) 8); [| lia]. now rewrite Z2Nat.id in H by lia.
    + intros i Hi. specialize (H (i + 8)%nat ltac:(lia)). rewrite !addr_bit_cons in H.
      destruct (Nat.ltb_spec (i + 8) 8); [lia |]. now rewrite Nat.add_sub in H.
  - intros [H1 H2] i Hi. rewrite !addr_bit_cons. destruct (Nat.ltb_spec i 8).
    + apply H1; lia.
    + apply H2. lia.
Qed.

Lemma no_host_bits_cons shift s x p :
  0 <= shift -> s = Z.min shift 8 ->
  (no_host_bits shift (x :: p) <->
   (forall j, 0 <= j < 8 -> s <= j -> Z.testbit x (7 - j) = false) /\ no_host_bits (shift - s) p).
Proof.
  intros Hs ->. unfold no_host_bits. split.
  - intros H. split.
    + intros j Hj Hjs. specialize (H (Z.to_nat j) ltac:(lia) ltac:(cbn; lia)). rewrite addr_bit_cons in H.
      destruct (Nat.ltb_spec (Z.to_nat j) 8); [| lia]. now rewrite Z2Nat.id in H by lia.
    + intros i Hi Hl. specialize (H (i + 8)%nat ltac:(lia) ltac:(cbn; lia)). rewrite addr_bit_cons in H.
      destruct (Nat.ltb_spec (i + 8) 8); [lia |]. now rewrite Nat.add_sub in H.
  - intros [H1 H2] i Hi Hl. rewrite addr_bit_cons. destruct (Nat.ltb_spec i 8).
    + apply H1; lia.
    + apply H2; cbn in Hl; lia.
Qed.

(** The loop over the bytes: what its mask compares, and when it tells that
    the address had other bits. *)
Lemma cidr6_loop_spec p shift rc a m rc' :
  Forall byte p -> 0 <= shift -> cidr6_loop p shift rc = (a, m, rc') ->
  length a = length p /\
  (forall q, length q = length p -> Forall byte q -> match6 q a m = true <-> same_prefix shift q p) /\
  (no_host_bits shift p /\ rc' = rc \/ ~ no_host_bits shift p /\ rc' = NGX_DONE).
Proof.
  intros HF. revert shift rc a m rc'. induction HF as [| x p Hx HF IH]; intros shift rc a m rc' Hs E.
  - cbn in E. simplify_eq. split_and!; [done | |].
    + intros q Hq _. destruct q; [| done]. done.
    + left. split; [| done]. intros i _ Hi. cbn in Hi. lia.
  - cbn [cidr6_loop] in E. set (s := if 8 <? shift then 8 else shift) in E.
    assert (s = Z.min shift 8) as Es by (unfold s; destruct (Z.ltb_spec 8 shift); lia).
    set (k := Z.shiftl 0xff (8 - s) mod 256) in E.
    destruct (cidr6_loop p (shift - s) (if negb (x =? Z.land x k) then NGX_DONE else rc)) as [[a1 m1] rc1] eqn:E1.
    assert ((a, m, rc') = (Z.land x k :: a1, k :: m1, rc1)) as Q.
    { rewrite <- E. destruct (Z.eqb_spec x (Z.land x k)) as [Q | Q]; cbn [negb] in E1 |- *; rewrite E1; [now rewrite <- Q | done]. }
    clear E. injection Q as -> -> ->. clearbody s. apply IH in E1 as (Hl & Hm & Hr); [| lia]. split_and!.
    + cbn. now rewrite Hl.
    + intros [| y q] Hq HFq; [done |]. apply Forall_cons_1 in HFq as [Hy HFq]. cbn in Hq. cbn [match6].
      rewrite (same_prefix_cons shift s y x q p) by done. pose proof (byte_masked s y x ltac:(lia) Hy) as Hk. fold k in Hk. specialize (Hm q ltac:(lia) HFq).
      destruct (Z.eqb_spec (Z.land y k) (Z.land x k)); cbn [negb]; naive_solver.
    + rewrite (no_host_bits_cons shift s x p) by done. pose proof (byte_host s x ltac:(lia) Hx) as Hh. fold k in Hh.
      destruct (Z.eqb_spec x (Z.land x k)); cbn [negb] in Hr; naive_solver.
Qed.

(** ** Addresses and blocks *)

Lemma mapped_inaddr_bytes p a b c d :
  length p = 12%nat -> byte a -> byte b -> byte c -> byte d ->
  mapped_inaddr (p ++ [a; b; c; d]) = in_addr [a; b; c; d].
Proof.
  intros Hp Ha Hb Hc Hd. rewrite <- htonl_bytes by done. unfold mapped_inaddr.
  assert (forall k : nat, byte_at (p ++ [a; b; c; d]) (12 + Z.of_nat k) = nth k [a; b; c; d] 0) as Q.
  { intros k. unfold byte_at. rewrite app_nth2, Hp by lia. f_equal. lia. }
  rewrite (Q 0%nat : byte_at (p ++ [a; b; c; d]) 12 = a), (Q 1%nat : byte_at (p ++ [a; b; c; d]) 13 = b),
    (Q 2%nat : byte_at (p ++ [a; b; c; d]) 14 = c), (Q 3%nat : byte_at (p ++ [a; b; c; d]) 15 = d).
  unfold byte in *.
  rewrite !Z.shiftl_mul_pow2 by lia. rewrite (Z.mod_small (a * 2 ^ 24)), (Z.mod_small (a * 2 ^ 24 + b * 2 ^ 16)),
    (Z.mod_small (a * 2 ^ 24 + b * 2 ^ 16 + c * 2 ^ 8)), Z.mod_small by lia. done.
Qed.

(** What is compared with the blocks. *)
Lemma match_family_spec sa :
  sa_ok sa ->
  match match_family sa with
  | SaIn a => 0 <= a < 2 ^ 32 /\ sa_address sa = Some (in_bytes a)
  | SaIn6 p => length p = 16%nat /\ Forall byte p /\ sa_address sa = Some p
  | SaUnix _ => sa_address sa = None
  end.
Proof.
  destruct sa as [a | p |]; cbn; [done | | done]. intros [Hl HF]. destruct (v4mapped p) eqn:E; [| done].
  assert (exists a b c d, drop 12 p = [a; b; c; d]) as (a & b & c & d & Ed).
  { assert (length (drop 12 p) = 4%nat) as H by (rewrite length_drop; lia).
    destruct (drop 12 p) as [| a [| b [| c [| d [| e l]]]]]; try discriminate H. eauto. }
  rewrite <- (take_drop 12 p), Ed in HF |- *. apply Forall_app in HF as [_ HF].
  inversion HF as [| ? ? Ha HF1]; subst. inversion HF1 as [| ? ? Hb HF2]; subst. inversion HF2 as [| ? ? Hc HF3]; subst.
  inversion HF3 as [| ? ? Hd _]; subst.
  assert (length (take 12 p) = 12%nat) as Ht by (rewrite length_take; lia).
  rewrite mapped_inaddr_bytes by done. rewrite drop_app_length' by done.
  split; [now apply in_addr_range |]. now rewrite in_bytes_addr.
Qed.

(** The block has the addresses that agree with [p] in the first [shift]
    bits. *)
Definition block_of (cidr : ngx_cidr_t) (p : list Z) (shift : Z) : Prop :=
  forall sa, sa_ok sa -> cidr_matches (match_family sa) cidr = true <->
    exists q, sa_address sa = Some q /\ length q = length p /\ same_prefix shift q p.

Lemma covers_in x shift :
  0 <= x < 2 ^ 32 -> 0 <= shift <= 32 -> block_of (CidrIn (Z.land x (cidr_mask shift)) (cidr_mask shift)) (in_bytes x) shift.
Proof.
  intros Hx Hs sa Hsa. pose proof (match_family_spec sa Hsa) as H. destruct (match_family sa) as [a | p |]; cbn [cidr_matches].
  - destruct H as [Ha ->]. rewrite Z.eqb_eq, masked_eq by lia. split; [eauto | intros (q & [= <-] & _ & Hq); done].
  - destruct H as (Hl & _ & ->). split; [done |]. intros (q & [= <-] & Hq & _). rewrite Hl in Hq. done.
  - split; [done |]. rewrite H. intros (q & Q & _). done.
Qed.

Lemma covers_in6 p shift a m rc rc' :
  length p = 16%nat -> Forall byte p -> 0 <= shift -> cidr6_loop p shift rc = (a, m, rc') -> block_of (CidrIn6 a m) p shift.
Proof.
  intros Hp HF Hs E sa Hsa. pose proof (match_family_spec sa Hsa) as H.
  apply cidr6_loop_spec in E as (_ & Hm & _); [| done | done].
  destruct (match_family sa) as [x | q |]; cbn [cidr_matches].
  - destruct H as [_ ->]. split; [done |]. intros (q & [= <-] & Hq & _). rewrite Hp in Hq. done.
  - destruct H as (Hl & HFq & ->). rewrite Hm by (try done; lia). split.
    + intros Q. exists q. split_and!; [done | lia | done].
    + intros (q' & [= <-] & _ & Q). done.
  - split; [done |]. rewrite H. intros (q & Q & _). done.
Qed.

Lemma land_host x shift :
  0 <= x < 2 ^ 32 -> 0 <= shift <= 32 -> x = Z.land x (cidr_mask shift) <-> no_host_bits shift (in_bytes x).
Proof.
  intros Hx Hs. split.
  - intros E i Hi Hl. cbn in Hl. rewrite addr_bit_in, E, Z.land_spec, mask_bit by lia.
    replace (Z.of_nat i <? shift) with false by lia. apply andb_false_r.
  - intros H. apply Z.bits_inj'. intros k Hk. rewrite Z.land_spec. destruct (Z.ltb_spec k 32) as [Hk32 | Hk32].
    + destruct (netbit_surj k) as (i & Hi & <-); [lia |]. rewrite mask_bit by lia.
      destruct (Z.ltb_spec (Z.of_nat i) shift) as [Hi' | Hi']; [now rewrite andb_true_r |].
      specialize (H i Hi' ltac:(cbn; lia)). rewrite addr_bit_in in H by lia. now rewrite H.
    + assert (Z.testbit x k = false) as ->; [| done].
      rewrite <- (Z.mod_small x (2 ^ 32)) by lia. apply Z.mod_pow2_bits_high. lia.
Qed.

Lemma atoi_shift {A} mask bits (f : Z -> option A) :
  0 <= bits <= 128 ->
  (if ngx_atoi mask =? NGX_ERROR then None else if bits <? ngx_atoi mask then None else f (ngx_atoi mask)) =
  (shift ← decimal mask; if shift <=? bits then f shift else None).
Proof.
  intros Hb. unfold ngx_atoi. rewrite ato_spec by done. unfold in_range.
  destruct (decimal mask) as [v |] eqn:E; cbn [mbind option_bind]; [| done].
  assert (0 <= v) as Hv by (destruct mask; [done |]; apply decimal_from_ge in E; lia).
  destruct (Z.leb_spec v NGX_MAX_INT_T_VALUE) as [Hm | Hm].
  - replace (v =? NGX_ERROR) with false by (unfold NGX_ERROR; lia).
    destruct (Z.ltb_spec bits v), (Z.leb_spec v bits); try lia; done.
  - unfold NGX_MAX_INT_T_VALUE in Hm. destruct (Z.leb_spec v bits); [lia | done].
Qed.

Lemma cidr6_full p rc : Forall byte p -> cidr6_loop p (8 * Z.of_nat (length p)) rc = (p, repeat 0xff (length p), rc).
Proof.
  induction 1 as [| x p Hx HF IH] in rc |- *; [done |]. cbn [cidr6_loop length repeat].
  replace (if 8 <? 8 * Z.of_nat (S (length p)) then 8 else 8 * Z.of_nat (S (length p))) with 8
    by (destruct (Z.ltb_spec 8 (8 * Z.of_nat (S (length p)))); lia).
  change (Z.shiftl 0xff (8 - 8) mod 256) with (Z.ones 8). rewrite land_low, Z.mod_small by (unfold byte in Hx; lia).
  rewrite Z.eqb_refl. cbn [negb]. replace (8 * Z.of_nat (S (length p)) - 8) with (8 * Z.of_nat (length p)) by lia.
  now rewrite IH.
Qed.

(** ** The texts of blocks *)

Lemma ptocidr_spec text :
  match text_prefix text with
  | None => ngx_ptocidr text = None
  | Some (p, shift) =>
      exists rc cidr, ngx_ptocidr text = Some (rc, cidr) /\
        (no_host_bits shift p /\ rc = NGX_OK \/ ~ no_host_bits shift p /\ rc = NGX_DONE) /\ block_of cidr p shift
  end.
Proof.
  unfold text_prefix, ngx_ptocidr, text_address. destruct (split_chr _ text) as [addr mask].
  destruct (Z.eqb_spec (ngx_inet_addr addr) INADDR_NONE) as [H4 | H4]; cbn [negb].
  - destruct (ngx_inet6_addr addr) as [p |] eqn:E6; [| done]. cbn [mbind option_bind].
    apply inet6_addr_bytes in E6 as [Hl HF]. rewrite Hl. change (8 * Z.of_nat 16) with 128.
    assert (forall shift, 0 <= shift -> exists rc cidr,
      (let '(a, m, rc) := cidr6_loop p shift NGX_OK in Some (rc, CidrIn6 a m)) = Some (rc, cidr) /\
      (no_host_bits shift p /\ rc = NGX_OK \/ ~ no_host_bits shift p /\ rc = NGX_DONE) /\ block_of cidr p shift) as Q.
    { intros shift Hs. destruct (cidr6_loop p shift NGX_OK) as [[a m] rc] eqn:E. exists rc, (CidrIn6 a m).
      split_and!; [done | apply (cidr6_loop_spec p shift NGX_OK a m rc HF Hs E) | exact (covers_in6 p shift a m NGX_OK rc Hl HF Hs E)]. }
    destruct mask as [mask |].
    + rewrite (atoi_shift mask 128 (fun shift => let '(a, m, rc) := cidr6_loop p shift NGX_OK in Some (rc, CidrIn6 a m))) by lia. destruct (decimal mask) as [shift |] eqn:Ed; [| done]. cbn [mbind option_bind].
      destruct (Z.leb_spec shift 128); [| done]. apply Q. destruct mask; [done |]. apply decimal_from_ge in Ed; lia.
    + specialize (Q 128 ltac:(lia)). pose proof (cidr6_full p NGX_OK HF) as Ef. rewrite Hl in Ef.
      change (8 * Z.of_nat 16) with 128 in Ef. rewrite Ef in Q. exact Q.
  - cbn [mbind option_bind]. pose proof (inet_addr_range addr) as Hr. set (x := ngx_inet_addr addr) in *.
    change (8 * Z.of_nat (length (in_bytes x))) with 32.
    assert (forall shift, 0 <= shift <= 32 -> exists rc cidr,
      (let m := cidr_mask shift in
       if x =? Z.land x m then Some (NGX_OK, CidrIn x m) else Some (NGX_DONE, CidrIn (Z.land x m) m)) = Some (rc, cidr) /\
      (no_host_bits shift (in_bytes x) /\ rc = NGX_OK \/ ~ no_host_bits shift (in_bytes x) /\ rc = NGX_DONE) /\
      block_of cidr (in_bytes x) shift) as Q.
    { intros shift Hs. cbv zeta. pose proof (land_host x shift Hr Hs) as Hh. pose proof (covers_in x shift Hr Hs) as Hb.
      destruct (Z.eqb_spec x (Z.land x (cidr_mask shift))) as [Q | Q].
      - rewrite <- Q in Hb. exists NGX_OK, (CidrIn x (cidr_mask shift)). split_and!; [done | left; tauto | exact Hb].
      - eexists NGX_DONE, _. split_and!; [reflexivity | right; tauto | exact Hb]. }
    destruct mask as [mask |].
    + rewrite (atoi_shift mask 32 (fun shift =>
        if x =? Z.land x (cidr_mask shift) then Some (NGX_OK, CidrIn x (cidr_mask shift))
        else Some (NGX_DONE, CidrIn (Z.land x (cidr_mask shift)) (cidr_mask shift)))) by lia.
      destruct (decimal mask) as [shift |] eqn:Ed; [| done]. cbn [mbind option_bind].
      destruct (Z.leb_spec shift 32); [| done]. apply Q. destruct mask; [done |]. apply decimal_from_ge in Ed; lia.
    + specialize (Q 32 ltac:(lia)). cbv zeta in Q. change (cidr_mask 32) with (Z.ones 32) in Q.
      rewrite land_low, Z.mod_small in Q by lia. rewrite Z.eqb_refl in Q. exact Q.
Qed.

(** C9: a text is a block exactly if it is an address, with a prefix length
    after "/" that is not longer than the address.  Bits of the address after
    the prefix are reported and cleared.  An address of a socket is found in a
    list of blocks exactly if it has the family and the prefix of one of the
    texts, where an IPv6 address that maps an IPv4 address is the latter. *)
Theorem cidr_match_prefixes :
  (forall text, ngx_ptocidr text = None <-> text_prefix text = None) /\
  (forall text p shift rc cidr, text_prefix text = Some (p, shift) -> ngx_ptocidr text = Some (rc, cidr) ->
     no_host_bits shift p /\ rc = NGX_OK \/ ~ no_host_bits shift p /\ rc = NGX_DONE) /\
  (forall texts cidrs sa, sa_ok sa -> Forall2 (fun text cidr => snd <$> ngx_ptocidr text = Some cidr) texts cidrs ->
     ngx_cidr_match sa cidrs = NGX_OK /\ Exists (text_covers sa) texts \/
     ngx_cidr_match sa cidrs = NGX_DECLINED /\ ~ Exists (text_covers sa) texts).
Proof.
  split; [| split].
  - intros text. pose proof (ptocidr_spec text) as H. destruct (text_prefix text) as [[p shift] |]; [| done].
    destruct H as (rc & cidr & -> & _). done.
  - intros text p shift rc cidr E E'. pose proof (ptocidr_spec text) as H. rewrite E, E' in H.
    destruct H as (rc' & cidr' & [= <- <-] & H & _). done.
  - intros texts cidrs sa Hsa. unfold ngx_cidr_match. induction 1 as [| text cidr texts cidrs E HF IH]; cbn [cidr_loop].
    + right. split; [done |]. intros Q. inversion Q.
    + assert (cidr_matches (match_family sa) cidr = true <-> text_covers sa text) as Hc.
      { pose proof (ptocidr_spec text) as H. unfold text_covers. destruct (text_prefix text) as [[p shift] |].
        - destruct H as (rc & cidr' & E' & _ & Hb). rewrite E' in E. cbn in E. simplify_eq. rewrite (Hb sa Hsa).
          split; [intros (q & Q); eauto | intros (p' & shift' & q & [= <- <-] & Q); eauto].
        - rewrite H in E. done. }
      rewrite Exists_cons. destruct (cidr_matches _ cidr); [left; split; [done | left; now apply Hc] |].
      destruct IH as [[-> IH] | [-> IH]]; [left; auto | right]. split; [done |]. intros [Q | Q]; [now apply Hc in Q | done].
Qed.

Lemma cidr_match_prefixes_witness :
  ngx_cidr_match (SaIn6 (repeat 0 10 ++ [255; 255; 10; 1; 3; 7])) [CidrIn6 (repeat 0 16) (repeat 0xff 16); CidrIn 0x0002010a 0x00feffff] = NGX_OK.
Proof.
  destruct (proj2 (proj2 cidr_match_prefixes) [str "::"; str "10.1.3.0/23"]
    [CidrIn6 (repeat 0 16) (repeat 0xff 16); CidrIn 0x0002010a 0x00feffff]
    (SaIn6 (repeat 0 10 ++ [255; 255; 10; 1; 3; 7]))) as [[E _] | [E _]].
  - split; [reflexivity |]. repeat constructor; discriminate.
  - repeat constructor.
  - exact E.
  - discriminate E.
Defined.
