(* ===== verification/InetText.v ===== *)
(** The texts of addresses: what [ngx_inet_ntop] writes, [ngx_inet_addr] and
    [ngx_inet6_addr] read back. *)
From S2P Require Import Prelude HttpRequest NgxSprintf NgxInet.
From stdpp Require Import base list option.
#[global] Open Scope Z_scope.

(** ** Octets and words *)

Definition dec_text (v : Z) : list Z := match num_digits v 0 with Some ds => ds | None => [] end.

Definition hex_text (w : Z) : list Z := match num_digits w 1 with Some ds => ds | None => [] end.

Lemma dec_text_spec v :
  byte v ->
  num_digits v 0 = Some (dec_text v) /\ (1 <= length (dec_text v) <= 3)%nat /\
  Forall (fun c => is_digit c = true) (dec_text v) /\ octet_from 0 (dec_text v) = Some v.
Proof.
  intros Hv.
  assert (forall_bytes (fun v => bool_decide (num_digits v 0 = Some (dec_text v)) && (1 <=? length (dec_text v))%nat &&
    (length (dec_text v) <=? 3)%nat && forallb is_digit (dec_text v) && bool_decide (octet_from 0 (dec_text v) = Some v)) = true)
    as Q by (vm_compute; reflexivity).
  pose proof (forall_bytes_spec _ Q v Hv) as Q1. clear Q. rename Q1 into Q. cbv beta in Q.
  repeat (apply andb_prop in Q as [Q ?]). apply bool_decide_eq_true in Q. split_and!; try done.
  - now apply Nat.leb_le.
  - now apply Nat.leb_le.
  - apply List.Forall_forall. now apply forallb_forall.
  - now apply bool_decide_eq_true_1 in H.
Qed.

Lemma hex_digits_more k room hex n p l : hex_digits room hex n p = Some l -> hex_digits (room + k) hex n p = Some l.
Proof.
  revert n p. induction room as [| room IH]; intros n p; [done |]. cbn [hex_digits Nat.add].
  destruct (_ =? 0); [done | apply IH].
Qed.

Lemma hex_text_spec w :
  0 <= w < 2 ^ 16 ->
  num_digits w 1 = Some (hex_text w) /\ (1 <= length (hex_text w) <= 4)%nat /\ hexadecimal_from 0 (hex_text w) = Some w.
Proof.
  intros Hw. destruct (hex_digits_spec hex_lower 4 w []) as (ds & E & Hne & Hl & Hv);
    [intros; apply hex_digit_chars; auto | exact Hw | lia |].
  rewrite List.app_nil_r in E. apply (hex_digits_more 16) in E.
  assert (num_digits w 1 = Some ds) as En by exact E. unfold hex_text. rewrite En.
  split_and!; try done. destruct ds; [done | cbn; lia].
Qed.

Lemma print_hex w : 0 <= w < 2 ^ 16 -> ngx_sprintf 0 (str "%xd") [VInt w] = Some (hex_text w).
Proof.
  intros Hw. destruct (hex_text_spec w Hw) as (E & Hl & _).
  apply (sprintf_one _ _ _ []).
  transitivity (out ← ngx_sprintf_num (2 ^ 64 - 1) (u64 (unsigned 32 w)) (chr " ") 1 0; Some (out, @nil Z, @nil arg)); [reflexivity |].
  unfold u64, unsigned. rewrite !Z.mod_small by (rewrite ?Z.mod_small; lia).
  rewrite (sprintf_num_all _ _ _ _ _ _ E) by lia. unfold padded.
  now replace (Z.to_nat (0 - Z.of_nat (length (hex_text w)))) with O by lia.
Qed.

Lemma loop_ud room rest v args :
  byte v -> 3 <= room ->
  vslprintf_loop 0 room (str "%ud" ++ rest) (VInt v :: args) =
  (fun l => dec_text v ++ l) <$> vslprintf_loop 0 (room - Z.of_nat (length (dec_text v))) rest args.
Proof.
  intros Hv Hr. destruct (dec_text_spec v Hv) as (E & Hl & _). cbn [List.app]. apply loop_conversion; [lia |].
  transitivity (out ← ngx_sprintf_num room (u64 (unsigned 32 v)) (chr " ") 0 0; Some (out, rest, args)); [reflexivity |].
  unfold byte in Hv. unfold u64, unsigned. rewrite !Z.mod_small by (rewrite ?Z.mod_small; lia).
  rewrite (sprintf_num_all _ _ _ _ _ _ E) by lia. unfold padded.
  now replace (Z.to_nat (0 - Z.of_nat (length (dec_text v)))) with O by lia.
Qed.

Definition dotted_text (a b c d : Z) : list Z :=
  dec_text a ++ chr "." :: dec_text b ++ chr "." :: dec_text c ++ chr "." :: dec_text d.

Lemma print_dotted room a b c d :
  byte a -> byte b -> byte c -> byte d -> 15 <= room ->
  ngx_vslprintf room (str "%ud.%ud.%ud.%ud") [VInt a; VInt b; VInt c; VInt d] = Some (dotted_text a b c d).
Proof.
  intros Ha Hb Hc Hd Hr. unfold ngx_vslprintf, dotted_text.
  destruct (dec_text_spec a Ha) as (_ & Hla & _), (dec_text_spec b Hb) as (_ & Hlb & _), (dec_text_spec c Hc) as (_ & Hlc & _),
    (dec_text_spec d Hd) as (_ & Hld & _).
  change (str "%ud.%ud.%ud.%ud") with (str "%ud" ++ chr "." :: str "%ud" ++ chr "." :: str "%ud" ++ chr "." :: str "%ud" ++ []).
  rewrite loop_ud by (done || lia). rewrite loop_char by (done || lia).
  rewrite loop_ud by (done || lia). rewrite loop_char by (done || lia).
  rewrite loop_ud by (done || lia). rewrite loop_char by (done || lia).
  rewrite loop_ud by (done || lia). cbn. now rewrite List.app_nil_r.
Qed.

Lemma fields_app sep f l : Forall (fun c => c <> sep) f -> fields sep (f ++ sep :: l) = f :: fields sep l.
Proof.
  induction 1 as [| c f Hc Hf IH]; cbn [List.app fields].
  - now rewrite Z.eqb_refl.
  - destruct (Z.eqb_spec c sep); [done |]. now rewrite IH.
Qed.

Lemma fields_one sep f : Forall (fun c => c <> sep) f -> fields sep f = [f].
Proof.
  induction 1 as [| c f Hc Hf IH]; cbn [fields]; [done |]. destruct (Z.eqb_spec c sep); [done |]. now rewrite IH.
Qed.

Lemma read_dotted a b c d :
  byte a -> byte b -> byte c -> byte d -> ngx_inet_addr (dotted_text a b c d) = in_addr [a; b; c; d].
Proof.
  intros Ha Hb Hc Hd.
  assert (forall v, byte v -> Forall (fun c => c <> chr ".") (dec_text v) /\ octet_from 0 (dec_text v) = Some v) as Q.
  { intros v Hv. destruct (dec_text_spec v Hv) as (_ & _ & HF & E). split; [| done].
    eapply Forall_impl; [| exact HF]. intros x Hx ->. discriminate Hx. }
  destruct (Q a Ha), (Q b Hb), (Q c Hc), (Q d Hd). rewrite inet_addr_spec. unfold dotted_text.
  rewrite !fields_app, fields_one by done. cbn [map].
  repeat match goal with H : octet_from 0 _ = Some _ |- _ => rewrite H; clear H end. done.
Qed.

(** ** The words of an IPv6 address *)

Definition word_at (p : list Z) (j : nat) : Z := byte_at p (2 * Z.of_nat j) * 256 + byte_at p (2 * Z.of_nat j + 1).

(** The bytes of [k] words from [j] on. *)
Definition word_bytes (p : list Z) (j k : nat) : list Z :=
  concat (map (fun j => [byte_at p (2 * Z.of_nat j); byte_at p (2 * Z.of_nat j + 1)]) (seq j k)).

Definition item (p : list Z) (j : nat) : list Z := hex_text (word_at p j) ++ (if (j <? 7)%nat then [chr ":"] else []).

Definition items (p : list Z) (j k : nat) : list Z := concat (map (item p) (seq j k)).

Lemma byte_at_byte p i : Forall byte p -> byte (byte_at p i).
Proof.
  intros HF. unfold byte_at. destruct (nth_in_or_default (Z.to_nat i) p 0) as [H | ->]; [| unfold byte; lia].
  rewrite List.Forall_forall in HF. auto.
Qed.

Lemma word_at_range p j : Forall byte p -> 0 <= word_at p j < 2 ^ 16.
Proof.
  intros HF. unfold word_at. pose proof (byte_at_byte p (2 * Z.of_nat j) HF) as H1.
  pose proof (byte_at_byte p (2 * Z.of_nat j + 1) HF) as H2. unfold byte in *. lia.
Qed.

Lemma put_word_at p j out :
  Forall byte p -> put_word (word_at p j) out = out ++ [byte_at p (2 * Z.of_nat j); byte_at p (2 * Z.of_nat j + 1)].
Proof.
  intros HF. unfold put_word, word_at. pose proof (byte_at_byte p (2 * Z.of_nat j) HF) as H1.
  pose proof (byte_at_byte p (2 * Z.of_nat j + 1) HF) as H2. unfold byte in *.
  change 0xff with (Z.ones 8). rewrite land_low, Z.shiftr_div_pow2 by lia.
  rewrite <- (Z.div_unique_pos _ (2 ^ 8) (byte_at p (2 * Z.of_nat j)) (byte_at p (2 * Z.of_nat j + 1))) by lia.
  rewrite <- (Z.mod_unique_pos (byte_at p (2 * Z.of_nat j) * 256 + byte_at p (2 * Z.of_nat j + 1)) (2 ^ 8) (byte_at p (2 * Z.of_nat j)) (byte_at p (2 * Z.of_nat j + 1))) by lia.
  now rewrite Z.mod_small by lia.
Qed.

Lemma word_bytes_S p j k : word_bytes p j (S k) = word_bytes p j 1 ++ word_bytes p (S j) k.
Proof. done. Qed.

Lemma word_bytes_app p j k l : word_bytes p j (k + l) = word_bytes p j k ++ word_bytes p (j + k) l.
Proof. unfold word_bytes. now rewrite seq_app, map_app, concat_app. Qed.

Lemma items_app p j k l : items p j (k + l) = items p j k ++ items p (j + k) l.
Proof. unfold items. now rewrite seq_app, map_app, concat_app. Qed.

Lemma length_word_bytes p j k : length (word_bytes p j k) = (2 * k)%nat.
Proof. revert j. induction k as [| k IH]; intros j; [done |]. rewrite word_bytes_S, List.length_app, IH. cbn. lia. Qed.

Lemma word_bytes_all p : length p = 16%nat -> word_bytes p 0 8 = p.
Proof. intros H. do 16 (destruct p as [| ? p]; [discriminate H |]). destruct p; [done | discriminate H]. Qed.

Lemma word_bytes_zero p j k :
  (forall i, (j <= i < j + k)%nat -> byte_at p (2 * Z.of_nat i) = 0 /\ byte_at p (2 * Z.of_nat i + 1) = 0) ->
  word_bytes p j k = repeat 0 (2 * k).
Proof.
  revert j. induction k as [| k IH]; intros j H; [done |]. rewrite word_bytes_S, IH by (intros; apply H; lia).
  unfold word_bytes. cbn [seq map concat]. destruct (H j) as [-> ->]; [lia |].
  replace (2 * S k)%nat with (S (S (2 * k))) by lia. done.
Qed.

(** ** What is written *)

Lemma print_words_plain p N zero max fuel j k :
  Forall byte p -> k = (N - j)%nat -> (N <= 8)%nat -> (forall i, (j <= i < N)%nat -> 2 * Z.of_nat i <> zero) -> (k < fuel)%nat ->
  print_words fuel p (2 * Z.of_nat j) (2 * Z.of_nat N) zero max = Some (items p j k).
Proof.
  intros HF. revert j fuel. induction k as [| k IH]; intros j fuel Hk HN Hz Hf; (destruct fuel as [| fuel]; [lia |]);
    cbn [print_words].
  - destruct (Z.ltb_spec (2 * Z.of_nat j) (2 * Z.of_nat N)); [lia | done].
  - destruct (Z.ltb_spec (2 * Z.of_nat j) (2 * Z.of_nat N)); [| lia]. cbn [negb].
    destruct (Z.eqb_spec (2 * Z.of_nat j) zero) as [E |]; [now destruct (Hz j ltac:(lia)) |].
    fold (word_at p j). rewrite print_hex by now apply word_at_range. cbn [mbind option_bind].
    replace (2 * Z.of_nat j + 2) with (2 * Z.of_nat (S j)) by lia.
    rewrite IH by (try lia; intros; apply Hz; lia). cbn [mbind option_bind].
    change (items p j (S k)) with (item p j ++ items p (S j) k). unfold item at 1. rewrite <- List.app_assoc.
    destruct (Z.ltb_spec (2 * Z.of_nat j) 14), (Nat.ltb_spec j 7); try lia; done.
Qed.

Lemma print_words_zero p N m fuel j k :
  Forall byte p -> (j + k < N)%nat -> (N <= 8)%nat -> (1 <= m)%nat -> (8 - j < fuel)%nat ->
  print_words fuel p (2 * Z.of_nat j) (2 * Z.of_nat N) (2 * Z.of_nat (j + k)) (Z.of_nat m) =
  Some (items p j k ++ chr ":" :: items p (j + k + m) (N - (j + k + m))).
Proof.
  intros HF. revert j fuel. induction k as [| k IH]; intros j fuel Hk HN Hm Hf; (destruct fuel as [| fuel]; [lia |]);
    cbn [print_words].
  - destruct (Z.ltb_spec (2 * Z.of_nat j) (2 * Z.of_nat N)); [| lia]. cbn [negb].
    destruct (Z.eqb_spec (2 * Z.of_nat j) (2 * Z.of_nat (j + 0))) as [E |]; [| lia].
    replace (2 * Z.of_nat j + (Z.of_nat m - 1) * 2 + 2) with (2 * Z.of_nat (j + 0 + m)) by lia.
    rewrite (print_words_plain p N _ _ fuel (j + 0 + m) (N - (j + 0 + m))); try done; try lia.
  - destruct (Z.ltb_spec (2 * Z.of_nat j) (2 * Z.of_nat N)); [| lia]. cbn [negb].
    destruct (Z.eqb_spec (2 * Z.of_nat j) (2 * Z.of_nat (j + S k))) as [E |]; [lia |].
    fold (word_at p j). rewrite print_hex by now apply word_at_range. cbn [mbind option_bind].
    replace (2 * Z.of_nat j + 2) with (2 * Z.of_nat (S j)) by lia. replace (j + S k)%nat with (S j + k)%nat by lia.
    rewrite IH by lia. cbn [mbind option_bind].
    change (items p j (S k)) with (item p j ++ items p (S j) k). unfold item at 1. rewrite <- !List.app_assoc.
    destruct (Z.ltb_spec (2 * Z.of_nat j) 14), (Nat.ltb_spec j 7); try lia; done.
Qed.

(** The scan looks at which words are zero only. *)
Fixpoint scan_words (words : list bool) (i zero last max n : Z) : Z * Z :=
  match words with
  | [] => if max <? n then (last, n) else (zero, max)
  | nonzero :: words =>
      if (nonzero : bool) then
        let '(zero, max) := if max <? n then (last, n) else (zero, max) in
        scan_words words (i + 2) zero last max 0
      else scan_words words (i + 2) zero (if n =? 0 then i else last) max (n + 1)
  end.

Definition nonzero_word (p : list Z) (j : nat) : bool :=
  negb (byte_at p (2 * Z.of_nat j) =? 0) || negb (byte_at p (2 * Z.of_nat j + 1) =? 0).

Lemma zero_scan_words p k j zero last max n :
  zero_scan k p (2 * Z.of_nat j) zero last max n = scan_words (map (nonzero_word p) (seq j k)) (2 * Z.of_nat j) zero last max n.
Proof.
  revert j zero last max n. induction k as [| k IH]; intros; [done |]. cbn [zero_scan seq map scan_words].
  replace (2 * Z.of_nat j + 2) with (2 * Z.of_nat (S j)) by lia. unfold nonzero_word at 1.
  destruct (_ || _); [| apply IH]. destruct (max <? n); apply IH.
Qed.

Fixpoint patterns (n : nat) : list (list bool) :=
  match n with
  | O => [[]]
  | S n => map (cons true) (patterns n) ++ map (cons false) (patterns n)
  end.

Lemma patterns_all l : In l (patterns (length l)).
Proof.
  induction l as [| b l IH]; cbn [length patterns]; [now left |]. apply in_app_iff.
  destruct b; [left | right]; apply in_map; exact IH.
Qed.

(** Either no word or a run of [m] zero words from [j] on is left out. *)
Definition scan_ok (words : list bool) : bool :=
  let '(zero, max) := scan_words words 0 NO_ZERO NO_ZERO 1 0 in
  (zero =? NO_ZERO) ||
  existsb (fun j => existsb (fun m =>
    (zero =? 2 * Z.of_nat j) && (max =? Z.of_nat m) && (j + m <=? 8)%nat &&
    forallb (fun i => negb (nth i words true)) (seq j m)) (seq 2 7)) (seq 0 8).

Lemma scan_spec p :
  exists zero max, zero_scan 8 p 0 NO_ZERO NO_ZERO 1 0 = (zero, max) /\
    (zero = NO_ZERO \/ exists j m : nat, zero = 2 * Z.of_nat j /\ max = Z.of_nat m /\ (2 <= m)%nat /\ (j + m <= 8)%nat /\
       forall i, (j <= i < j + m)%nat -> byte_at p (2 * Z.of_nat i) = 0 /\ byte_at p (2 * Z.of_nat i + 1) = 0).
Proof.
  rewrite (zero_scan_words p 8 0). set (words := map (nonzero_word p) (seq 0 8)).
  assert (scan_ok words = true) as Q.
  { assert (forallb scan_ok (patterns 8) = true) as Q by (vm_compute; reflexivity).
    rewrite forallb_forall in Q. apply Q. exact (patterns_all words). }
  unfold scan_ok in Q. change (2 * Z.of_nat 0) with 0. destruct (scan_words words 0 NO_ZERO NO_ZERO 1 0) as [zero max].
  exists zero, max. split; [done |]. apply orb_prop in Q as [Q | Q]; [left; now apply Z.eqb_eq | right].
  apply existsb_exists in Q as (j & Hj & Q). apply existsb_exists in Q as (m & Hm & Q).
  rewrite in_seq in Hj, Hm. repeat (apply andb_prop in Q as [Q ?]). exists j, m.
  apply Nat.leb_le in H0. split_and!; try lia. intros i Hi.
  rewrite forallb_forall in H. specialize (H i ltac:(rewrite in_seq; lia)). apply negb_true_iff in H.
  assert (nth i words true = nonzero_word p i) as E.
  { unfold words. rewrite (nth_indep _ true (nonzero_word p 0)) by (rewrite List.length_map, List.length_seq; lia).
    rewrite map_nth. f_equal. rewrite seq_nth by lia. done. }
  rewrite E in H. unfold nonzero_word in H. apply orb_false_elim in H as [Ha Hb].
  apply negb_false_iff in Ha, Hb. lia.
Qed.

(** ** What is read *)

Lemma inet6_digit_hex c : inet6_digit c = hex_digit c.
Proof. done. Qed.

Lemma inet6_loop_hex ds rest out n nibbles word w zero digit :
  hexadecimal_from word ds = Some w -> 0 <= nibbles -> nibbles + Z.of_nat (length ds) <= 4 ->
  inet6_loop (ds ++ rest) (mk_in6 out n nibbles word zero digit) =
  inet6_loop rest (mk_in6 out n (nibbles + Z.of_nat (length ds)) w zero digit).
Proof.
  revert nibbles word. induction ds as [| c ds IH]; intros nibbles word E Hn Hl; cbn [hexadecimal_from length List.app] in *.
  - simplify_eq. now rewrite Z.add_0_r.
  - destruct (hex_digit c) as [d |] eqn:Ed; [| done]. cbn [inet6_loop i_out i_n i_nibbles i_word i_zero i_digit].
    destruct (Z.eqb_spec c (chr ":")) as [-> | _]; [discriminate Ed |].
    destruct (Z.eqb_spec c (chr ".")) as [-> | _]; [discriminate Ed |]. cbn [andb].
    destruct (Z.ltb_spec 4 (nibbles + 1)); [lia |]. rewrite inet6_digit_hex, Ed, IH by (done || lia). do 2 f_equal. lia.
Qed.

Lemma inet6_loop_word w rest out n zero digit :
  0 <= w < 2 ^ 16 -> 2 <= n ->
  inet6_loop (hex_text w ++ chr ":" :: rest) (mk_in6 out n 0 0 zero digit) =
  inet6_loop rest (mk_in6 (put_word w out) (n - 1) 0 0 zero (Some rest)).
Proof.
  intros Hw Hn. destruct (hex_text_spec w Hw) as (_ & Hl & E).
  rewrite (inet6_loop_hex _ _ _ _ _ _ _ _ _ E) by lia. cbn [inet6_loop i_out i_n i_nibbles i_word i_zero i_digit].
  change (chr ":" =? chr ":") with true. cbv iota.
  destruct (Z.eqb_spec (0 + Z.of_nat (length (hex_text w))) 0); [lia |]. cbn [negb].
  destruct (Z.eqb_spec (n - 1) 0); [lia | done].
Qed.

(** Words that a colon follows. *)
Lemma inet6_loop_items p rest j k out n zero digit :
  Forall byte p -> (j + k <= 7)%nat -> Z.of_nat k < n ->
  inet6_loop (items p j k ++ rest) (mk_in6 out n 0 0 zero digit) =
  inet6_loop rest (mk_in6 (out ++ word_bytes p j k) (n - Z.of_nat k) 0 0 zero (if (k =? 0)%nat then digit else Some rest)).
Proof.
  intros HF. revert j out n digit. induction k as [| k IH]; intros j out n digit Hj Hn.
  - cbn [Nat.eqb]. change (word_bytes p j 0) with (@nil Z). rewrite List.app_nil_r. do 2 f_equal. lia.
  - change (items p j (S k)) with (item p j ++ items p (S j) k). unfold item. destruct (Nat.ltb_spec j 7); [| lia].
    rewrite <- !List.app_assoc. cbn [List.app]. rewrite (inet6_loop_word (word_at p j)) by (try lia; now apply word_at_range).
    rewrite IH by lia. rewrite word_bytes_S, put_word_at by done. rewrite <- List.app_assoc. cbn [Nat.eqb].
    replace (n - 1 - Z.of_nat k) with (n - Z.of_nat (S k)) by lia. destruct k; done.
Qed.

Lemma last_item p : item p 7 = hex_text (word_at p 7).
Proof. unfold item. cbn [Nat.ltb Nat.leb]. apply List.app_nil_r. Qed.

(** The last word. *)
Lemma inet6_last p out n zero digit :
  Forall byte p ->
  inet6_loop (hex_text (word_at p 7)) (mk_in6 out n 0 0 zero digit) =
  Some (mk_in6 out n (Z.of_nat (length (hex_text (word_at p 7)))) (word_at p 7) zero digit).
Proof.
  intros HF. destruct (hex_text_spec (word_at p 7) (word_at_range p 7 HF)) as (_ & Hl & E).
  rewrite <- (List.app_nil_r (hex_text _)) at 1. rewrite (inet6_loop_hex _ _ _ _ _ _ _ _ _ E) by lia. done.
Qed.

Definition read_rest (text : list Z) (v : in6_vars) : option (list Z) :=
  match inet6_loop text v with Some v => inet6_finish v | None => None end.

Lemma hex_text_head w : 0 <= w < 2 ^ 16 -> exists c l, hex_text w = c :: l /\ c <> chr ":".
Proof.
  intros Hw. destruct (hex_text_spec w Hw) as (_ & Hl & E). destruct (hex_text w) as [| c l]; [cbn in Hl; lia |].
  exists c, l. split; [done |]. intros ->. discriminate E.
Qed.

Lemma read_items p k l :
  Forall byte p -> ngx_inet6_addr (items p 0 (S k) ++ l) = read_rest (items p 0 (S k) ++ l) (mk_in6 [] 8 0 0 None None).
Proof.
  intros HF. destruct (hex_text_head (word_at p 0) (word_at_range p 0 HF)) as (c & t & E & Hc).
  change (items p 0 (S k)) with (item p 0 ++ items p 1 k). unfold item. rewrite E, <- !List.app_assoc.
  cbn [List.app ngx_inet6_addr]. destruct (Z.eqb_spec c (chr ":")); done.
Qed.

(** No words are left out. *)
Lemma read_all p : Forall byte p -> length p = 16%nat -> ngx_inet6_addr (items p 0 8) = Some p.
Proof.
  intros HF Hl. rewrite <- (List.app_nil_r (items p 0 8)), read_items, List.app_nil_r by done.
  rewrite (items_app p 0 7 1 : items p 0 8 = _). change (items p (0 + 7) 1) with (item p 7 ++ []).
  rewrite last_item, List.app_nil_r. unfold read_rest. rewrite inet6_loop_items by (done || lia).
  rewrite inet6_last by done. unfold inet6_finish. cbn [i_out i_n i_nibbles i_word i_zero i_digit].
  destruct (hex_text_spec (word_at p 7) (word_at_range p 7 HF)) as (_ & Hh & _).
  destruct (Z.eqb_spec (Z.of_nat (length (hex_text (word_at p 7)))) 0); [lia |]. cbn [andb].
  change (negb (8 - Z.of_nat 7 - 1 =? 0)) with false. cbv iota. rewrite put_word_at by done. cbn [List.app].
  rewrite bool_decide_eq_true_2 by done.
  transitivity (Some (word_bytes p 0 8)); [now rewrite (word_bytes_app p 0 7 1 : word_bytes p 0 8 = _) | now rewrite word_bytes_all].
Qed.

(** The words after those left out. *)
Lemma read_tail p j m digit :
  Forall byte p -> (2 <= m)%nat -> (j + m <= 8)%nat ->
  read_rest (items p (j + m) (8 - (j + m))) (mk_in6 (word_bytes p 0 j) (8 - Z.of_nat j) 0 0 (Some (2 * j)%nat) digit) =
  Some (word_bytes p 0 j ++ repeat 0 (2 * m) ++ word_bytes p (j + m) (8 - (j + m))).
Proof.
  intros HF Hm Hj. unfold read_rest. 
  destruct (8 - (j + m))%nat as [| k] eqn:Ek.
  - cbn [items seq map concat inet6_loop]. unfold inet6_finish. cbn [i_out i_n i_nibbles i_word i_zero i_digit].
    rewrite bool_decide_eq_false_2 by done. rewrite andb_false_r.
    destruct (Z.eqb_spec (8 - Z.of_nat j - 1) 0); [lia |]. cbn [negb]. f_equal.
    unfold put_word. rewrite take_app_length' by (rewrite length_word_bytes; lia).
    rewrite drop_app_length' by (rewrite length_word_bytes; lia). f_equal.
    change (word_bytes p (j + m) 0) with (@nil Z). rewrite List.app_nil_r.
    change ([Z.shiftr 0 8 mod 256; Z.land 0 0xff]) with (repeat 0 2). rewrite <- repeat_app. f_equal. lia.
  - replace (S k) with (k + 1)%nat by lia. rewrite items_app. replace (j + m + k)%nat with 7%nat by lia.
    change (items p 7 1) with (item p 7 ++ []). rewrite last_item, List.app_nil_r.
    rewrite inet6_loop_items by (done || lia). rewrite inet6_last by done.
    unfold inet6_finish. cbn [i_out i_n i_nibbles i_word i_zero i_digit].
    rewrite bool_decide_eq_false_2 by done. rewrite andb_false_r.
    destruct (Z.eqb_spec (8 - Z.of_nat j - Z.of_nat k - 1) 0); [lia |]. cbn [negb]. f_equal.
    rewrite put_word_at, <- List.app_assoc by done.
    rewrite take_app_length' by (rewrite length_word_bytes; lia).
    rewrite drop_app_length' by (rewrite length_word_bytes; lia). f_equal.
    rewrite word_bytes_app. replace (j + m + k)%nat with 7%nat by lia. f_equal. f_equal. lia.
Qed.

(** Decimal digits are read as hexadecimal ones first. *)
Lemma dec_hexadecimal l z : Forall (fun c => is_digit c = true) l -> exists w, hexadecimal_from z l = Some w.
Proof.
  intros HF. revert z. induction HF as [| x l Hx HF IH]; intros z; [cbn; eauto |]. cbn [hexadecimal_from].
  unfold is_digit in Hx. unfold hex_digit. rewrite Hx. apply IH.
Qed.

(** The tail in dotted form. *)
Lemma read_dotted_tail p k digit a b c d :
  Forall byte p -> (k <= 4)%nat -> byte a -> byte b -> byte c -> byte d -> (k = 0%nat -> digit = Some (dotted_text a b c d)) ->
  read_rest (items p (6 - k) k ++ dotted_text a b c d) (mk_in6 [] 8 0 0 (Some 0%nat) digit) =
  if in_addr [a; b; c; d] =? INADDR_NONE then None
  else Some (repeat 0 (2 * (6 - k)) ++ word_bytes p (6 - k) k ++ [a; b; c; d]).
Proof.
  intros HF Hk Ha Hb Hc Hd Hdig. unfold read_rest. rewrite inet6_loop_items by (done || lia).
  assert ((if (k =? 0)%nat then digit else Some (dotted_text a b c d)) = Some (dotted_text a b c d)) as ->
    by (destruct (Nat.eqb_spec k 0); auto).
  destruct (dec_text_spec a Ha) as (_ & Hl & HFd & _).
  destruct (dec_hexadecimal (dec_text a) 0 HFd) as [w Hw].
  unfold dotted_text at 1. rewrite (inet6_loop_hex _ _ _ _ _ _ _ _ _ Hw) by lia.
  cbn [inet6_loop i_out i_n i_nibbles i_word i_zero i_digit].
  change (chr "." =? chr ":") with false. change (chr "." =? chr ".") with true. cbv iota.
  destruct (Z.eqb_spec (0 + Z.of_nat (length (dec_text a))) 0); [lia |]. cbn [negb andb].
  destruct (Z.ltb_spec (8 - Z.of_nat k) 2); [lia |]. rewrite read_dotted by done.
  destruct (in_addr [a; b; c; d] =? INADDR_NONE); [done |].
  assert (ntohl (in_addr [a; b; c; d]) = a * 2 ^ 24 + b * 2 ^ 16 + c * 2 ^ 8 + d) as ->.
  { unfold ntohl. rewrite in_addr_quad, htonl_bytes by done. apply in_addr_quad. }
  unfold inet6_finish. cbn [i_out i_n i_nibbles i_word i_zero i_digit].
  rewrite bool_decide_eq_false_2 by done. rewrite andb_false_r.
  destruct (Z.eqb_spec (8 - Z.of_nat k - 1 - 1) 0); [lia |]. cbn [negb]. rewrite drop_0, take_0. f_equal. cbn [List.app].
  replace (Z.to_nat ((8 - Z.of_nat k - 1 - 1) * 2)) with (2 * (6 - k))%nat by lia. f_equal.
  unfold put_word. rewrite <- List.app_assoc. f_equal. change 0xff with (Z.ones 8).
  rewrite !land_low, !Z.shiftr_div_pow2 by lia. change 256 with (2 ^ 8).
  now destruct (quad_bytes a b c d Ha Hb Hc Hd) as (-> & -> & -> & ->).
Qed.

(** ** Round trips *)

(** Colons that stand for a run of words. *)
Lemma read_gap p j m l :
  Forall byte p -> (0 < j)%nat -> (2 <= m)%nat -> (j + m <= 8)%nat -> l = items p (j + m) (8 - (j + m)) ->
  ngx_inet6_addr (items p 0 j ++ chr ":" :: l) =
  Some (word_bytes p 0 j ++ repeat 0 (2 * m) ++ word_bytes p (j + m) (8 - (j + m))).
Proof.
  intros HF H0 Hm Hj ->. rewrite <- (read_tail p j m (Some (items p (j + m) (8 - (j + m))))) by done.
  destruct j as [| j]; [lia |]. rewrite read_items by done. unfold read_rest. rewrite inet6_loop_items by (done || lia).
  cbn [inet6_loop i_out i_n i_nibbles i_word i_zero i_digit List.app]. change (chr ":" =? chr ":") with true. cbv iota.
  change (negb (0 =? 0)) with false. cbv iota. rewrite length_word_bytes. done.
Qed.

Lemma read_gap_first text : ngx_inet6_addr (chr ":" :: chr ":" :: text) = read_rest text (mk_in6 [] 8 0 0 (Some 0%nat) (Some text)).
Proof. done. Qed.

Lemma length_items p j k : Forall byte p -> (length (items p j k) <= 5 * k)%nat.
Proof.
  intros HF. revert j. induction k as [| k IH]; intros j; [cbn; lia |].
  change (items p j (S k)) with (item p j ++ items p (S j) k). rewrite List.length_app. specialize (IH (S j)).
  unfold item. rewrite List.length_app. destruct (hex_text_spec (word_at p j) (word_at_range p j HF)) as (_ & Hl & _).
  destruct (j <? 7)%nat; cbn; lia.
Qed.

Lemma length_dotted a b c d : byte a -> byte b -> byte c -> byte d -> (length (dotted_text a b c d) <= 15)%nat.
Proof.
  intros Ha Hb Hc Hd. destruct (dec_text_spec a Ha) as (_ & Hla & _), (dec_text_spec b Hb) as (_ & Hlb & _),
    (dec_text_spec c Hc) as (_ & Hlc & _), (dec_text_spec d Hd) as (_ & Hld & _).
  unfold dotted_text. rewrite List.length_app. cbn [length]. rewrite List.length_app. cbn [length].
  rewrite List.length_app. cbn [length]. lia.
Qed.

(** The texts the functions write end in 255.255.255.255, which is not read. *)
Definition ends_broadcast (p : list Z) : Prop :=
  take 10 p = repeat 0 10 /\ (take 2 (drop 10 p) = [0; 0] \/ take 2 (drop 10 p) = [255; 255]) /\ drop 12 p = repeat 255 4.

Lemma inet6_ntop_text p len :
  Forall byte p -> length p = 16%nat -> NGX_INET6_ADDRSTRLEN <= len ->
  ngx_inet6_ntop p len = Some (items p 0 8) \/
  (exists j m, (0 < j)%nat /\ (2 <= m)%nat /\ (j + m <= 8)%nat /\ word_bytes p j m = repeat 0 (2 * m) /\
     ngx_inet6_ntop p len = Some (items p 0 j ++ chr ":" :: items p (j + m) (8 - (j + m)))) \/
  (exists m, (2 <= m)%nat /\ (m <= 8)%nat /\ word_bytes p 0 m = repeat 0 (2 * m) /\
     ngx_inet6_ntop p len = Some (chr ":" :: chr ":" :: items p m (8 - m))) \/
  (exists m, (5 <= m)%nat /\ (m <= 7)%nat /\ word_bytes p 0 m = repeat 0 (2 * m) /\
     (m = 5%nat -> byte_at p 10 = 255 /\ byte_at p 11 = 255) /\
     ngx_inet6_ntop p len = Some (chr ":" :: chr ":" :: items p m (6 - m) ++
       dotted_text (byte_at p 12) (byte_at p 13) (byte_at p 14) (byte_at p 15))).
Proof.
  intros HF Hl Hlen. unfold ngx_inet6_ntop. destruct (Z.ltb_spec len NGX_INET6_ADDRSTRLEN); [lia |].
  destruct (scan_spec p) as (zero & max & -> & [-> | (j & m & -> & -> & Hm & Hj & Hz)]).
  - left. change (NO_ZERO =? 0) with false. cbv beta iota zeta.
    assert (forall i, (0 <= i < 8)%nat -> 2 * Z.of_nat i <> NO_ZERO) as Hz by (unfold NO_ZERO; lia).
    rewrite (print_words_plain p 8 NO_ZERO max 9 0 8 HF eq_refl ltac:(lia) Hz ltac:(lia) : print_words 9 p 0 16 NO_ZERO max = _).
    change (16 =? 12) with false. cbn [mbind option_bind]. now rewrite List.app_nil_r.
  - right. assert (word_bytes p j m = repeat 0 (2 * m)) as Hw by (apply word_bytes_zero; apply Hz).
    destruct j as [| j].
    + right. change (2 * Z.of_nat 0 =? 0) with true. cbv iota.
      destruct (_ || _) eqn:E.
      * right. exists m.
        assert ((5 <= m <= 7)%nat /\ (m = 5%nat -> byte_at p 10 = 255 /\ byte_at p 11 = 255)) as [Hm5 H5] by lia.
        split_and!; try tauto; try lia; try done. change (12 =? 12) with true. cbv iota.
        rewrite (print_words_zero p 6 m 9 0 0 HF ltac:(lia) ltac:(lia) ltac:(lia) ltac:(lia) :
          print_words 9 p 0 12 (2 * Z.of_nat 0) (Z.of_nat m) = _). cbn [mbind option_bind].
        unfold print_octets, ngx_sprintf. change (12 + 1) with 13. change (12 + 2) with 14. change (12 + 3) with 15.
        rewrite print_dotted by (try lia; now apply byte_at_byte). done.
      * left. exists m. split_and!; try lia; try done. change (16 =? 12) with false. cbv iota.
        rewrite (print_words_zero p 8 m 9 0 0 HF ltac:(lia) ltac:(lia) ltac:(lia) ltac:(lia) :
          print_words 9 p 0 16 (2 * Z.of_nat 0) (Z.of_nat m) = _). cbn [mbind option_bind].
        now rewrite List.app_nil_r.
    + left. exists (S j), m. split_and!; try lia; try done.
      destruct (Z.eqb_spec (2 * Z.of_nat (S j)) 0); [lia |]. cbv iota. change (16 =? 12) with false. cbv iota.
      rewrite (print_words_zero p 8 m 9 0 (S j) HF ltac:(lia) ltac:(lia) ltac:(lia) ltac:(lia) :
        print_words 9 p 0 16 (2 * Z.of_nat (S j)) (Z.of_nat m) = _). cbn [mbind option_bind].
      now rewrite List.app_nil_r.
Qed.

Lemma in_addr_none a b c d :
  byte a -> byte b -> byte c -> byte d -> in_addr [a; b; c; d] = INADDR_NONE -> [a; b; c; d] = repeat 255 4.
Proof. unfold byte. intros Ha Hb Hc Hd. rewrite in_addr_quad. unfold INADDR_NONE. intros E. cbn. repeat f_equal; lia. Qed.

Lemma words_6 p : length p = 16%nat -> word_bytes p 0 6 ++ [byte_at p 12; byte_at p 13; byte_at p 14; byte_at p 15] = p.
Proof. intros H. transitivity (word_bytes p 0 8); [| now apply word_bytes_all]. now rewrite (word_bytes_app p 0 6 2 : word_bytes p 0 8 = _). Qed.

(** The text in dotted form is read back unless the address ends so. *)
Lemma read_mapped p m :
  Forall byte p -> length p = 16%nat -> (5 <= m)%nat -> (m <= 7)%nat -> word_bytes p 0 m = repeat 0 (2 * m) ->
  (m = 5%nat -> byte_at p 10 = 255 /\ byte_at p 11 = 255) ->
  let text := chr ":" :: chr ":" :: items p m (6 - m) ++
    dotted_text (byte_at p 12) (byte_at p 13) (byte_at p 14) (byte_at p 15) in
  ngx_inet6_addr text = Some p \/ ngx_inet6_addr text = None /\ ends_broadcast p.
Proof.
  intros HF Hl Hm5 Hm7 Hw H5 text. unfold text. rewrite read_gap_first.
  assert (items p m (6 - m) = items p (6 - (6 - m)) (6 - m)) as ->
    by (destruct (Nat.eq_dec m 7%nat) as [-> |]; [done | now replace (6 - (6 - m))%nat with m by lia]).
  rewrite read_dotted_tail by (try done; try lia; try (now apply byte_at_byte); intros ->; done).
  assert (repeat 0 (2 * (6 - (6 - m))) ++ word_bytes p (6 - (6 - m)) (6 - m) = word_bytes p 0 6) as Hp.
  { replace (6 - (6 - m))%nat with (Nat.min m 6) by lia. destruct (Nat.eq_dec m 7%nat) as [-> |].
    - apply (f_equal (take 12)) in Hw. exact (eq_sym Hw).
    - replace (Nat.min m 6) with m by lia. rewrite <- Hw, <- (word_bytes_app p 0 m (6 - m) : _ = word_bytes p 0 m ++ word_bytes p m (6 - m)). f_equal. lia. }
  rewrite List.app_assoc, Hp, words_6 by done.
  destruct (Z.eqb_spec (in_addr [byte_at p 12; byte_at p 13; byte_at p 14; byte_at p 15]) INADDR_NONE) as [E | E]; [right | now left].
  split; [done |]. apply in_addr_none in E; try (now apply byte_at_byte).
  pose proof (words_6 p Hl) as E6. rewrite E in E6. destruct (Nat.eq_dec m 5%nat) as [-> |].
  - destruct (H5 eq_refl) as [H10 H11]. rewrite (word_bytes_app p 0 5 1 : word_bytes p 0 6 = _), Hw in E6.
    change (word_bytes p (0 + 5) 1) with [byte_at p 10; byte_at p 11] in E6. rewrite H10, H11 in E6. rewrite <- E6.
    split_and!; try done. right. done.
  - assert (word_bytes p 0 6 = repeat 0 12) as H6.
    { destruct (Nat.eq_dec m 6%nat) as [-> |]; [done |]. replace m with 7%nat in Hw by lia. apply (f_equal (take 12)) in Hw. exact Hw. }
    rewrite H6 in E6. rewrite <- E6. split_and!; try done. left. done.
Qed.

(** Every text that is written is read back, unless the address ends so. *)
Lemma inet6_ntop_read p len :
  Forall byte p -> length p = 16%nat -> NGX_INET6_ADDRSTRLEN <= len ->
  exists text, ngx_inet6_ntop p len = Some text /\ (length text <= 39)%nat /\
    (ngx_inet6_addr text = Some p \/ ngx_inet6_addr text = None /\ ends_broadcast p).
Proof.
  intros HF Hl Hlen.
  destruct (inet6_ntop_text p len HF Hl Hlen) as [E | [(j & m & Hj & Hm & Hjm & Hw & E) | [(m & Hm & Hm8 & Hw & E) |
    (m & Hm & Hm7 & Hw & H5 & E)]]]; rewrite E; eexists; (split; [reflexivity |]).
  - split; [| left; now apply read_all]. rewrite (items_app p 0 7 1 : items p 0 8 = _), List.length_app.
    change (items p (0 + 7) 1) with (item p 7 ++ []). rewrite last_item, List.app_nil_r.
    pose proof (length_items p 0 7 HF). destruct (hex_text_spec (word_at p 7) (word_at_range p 7 HF)) as (_ & Q & _). lia.
  - split.
    + rewrite List.length_app. cbn [length]. pose proof (length_items p 0 j HF). pose proof (length_items p (j + m) (8 - (j + m)) HF). lia.
    + left. rewrite (read_gap p j m) by (done || lia). rewrite <- Hw, <- (word_bytes_app p j m).
      rewrite <- (word_bytes_app p 0 j _ : _ = word_bytes p 0 j ++ word_bytes p j _).
      replace (j + (m + (8 - (j + m))))%nat with 8%nat by lia. now rewrite word_bytes_all.
  - split.
    + cbn [length]. pose proof (length_items p m (8 - m) HF). lia.
    + left. rewrite read_gap_first, (read_tail p 0 m) by (done || lia). change (word_bytes p 0 0) with (@nil Z). cbn [List.app].
      rewrite <- Hw, <- (word_bytes_app p 0 m). replace (m + (8 - (0 + m)))%nat with 8%nat by lia.
      now rewrite word_bytes_all.
  - split; [| now apply read_mapped].
    cbn [length]. rewrite List.length_app. pose proof (length_items p m (6 - m) HF).
    pose proof (length_dotted (byte_at p 12) (byte_at p 13) (byte_at p 14) (byte_at p 15) (byte_at_byte p 12 HF)
      (byte_at_byte p 13 HF) (byte_at_byte p 14 HF) (byte_at_byte p 15 HF)). lia.
Qed.

Lemma broadcast_texts p len :
  length p = 16%nat -> NGX_INET6_ADDRSTRLEN <= len -> ends_broadcast p ->
  exists text, ngx_inet6_ntop p len = Some text /\ ngx_inet6_addr text = None.
Proof.
  intros Hl Hlen (H1 & H2 & H3).
  assert (p = take 10 p ++ take 2 (drop 10 p) ++ drop 12 p) as ->.
  { rewrite <- (take_drop 10 p) at 1. f_equal. rewrite <- (take_drop 2 (drop 10 p)) at 1. now rewrite drop_drop. }
  rewrite H1, H3. unfold ngx_inet6_ntop. destruct (Z.ltb_spec len NGX_INET6_ADDRSTRLEN); [lia |].
  destruct H2 as [-> | ->]; eexists; split; [reflexivity | reflexivity | reflexivity | reflexivity].
Qed.

(** C10: every IPv4 address is read back from the text it is written as.  The
    text of an IPv6 address has 39 characters at most, which the buffer has
    room for, and is read back unless it ends in 255.255.255.255; this address
    is refused then. *)
Theorem inet_text_round_trip :
  (forall a b c d len, byte a -> byte b -> byte c -> byte d -> 15 <= len ->
     exists text, ngx_inet_ntop (In4 [a; b; c; d]) len = Some text /\ Z.of_nat (length text) <= 15 /\
       ngx_inet_addr text = in_addr [a; b; c; d]) /\
  (forall p len, length p = 16%nat -> Forall byte p -> NGX_INET6_ADDRSTRLEN <= len ->
     exists text, ngx_inet_ntop (In6 p) len = Some text /\ Z.of_nat (length text) <= 39 /\
       (~ ends_broadcast p -> ngx_inet6_addr text = Some p) /\ (ends_broadcast p -> ngx_inet6_addr text = None)).
Proof.
  split.
  - intros a b c d len Ha Hb Hc Hd Hlen. exists (dotted_text a b c d). split_and!.
    + exact (print_dotted len a b c d Ha Hb Hc Hd Hlen).
    + pose proof (length_dotted a b c d Ha Hb Hc Hd). lia.
    + now apply read_dotted.
  - intros p len Hl HF Hlen. cbn [ngx_inet_ntop].
    assert (exists text, ngx_inet6_ntop p len = Some text /\ (length text <= 39)%nat /\
      (ngx_inet6_addr text = Some p \/ ngx_inet6_addr text = None /\ ends_broadcast p)) as (text & E & Ht & Hr).
    { destruct (inet6_ntop_read p len HF Hl Hlen) as (text & Q). eauto. }
    exists text. split_and!; [done | lia | |].
    + intros Hb. destruct Hr as [Hr | [_ Hr]]; done.
    + intros Hb. destruct (broadcast_texts p len Hl Hlen Hb) as (text' & E' & Hn). now simplify_eq.
Qed.

Lemma inet_text_round_trip_witness :
  exists text, ngx_inet_ntop (In6 (0x20 :: 1 :: 0xd :: 0xb8 :: repeat 0 11 ++ [1])) 45 = Some text /\ Z.of_nat (length text) <= 39.
Proof.
  destruct (proj2 inet_text_round_trip (0x20 :: 1 :: 0xd :: 0xb8 :: repeat 0 11 ++ [1]) 45) as (text & E & Hl & _).
  - reflexivity.
  - repeat constructor; discriminate.
  - discriminate.
  - exists text. exact (conj E Hl).
Defined.
