(* ===== verification/InetPort.v ===== *)
(** Addresses with ports: [ngx_parse_addr_port] reads what [ngx_sock_ntop]
    writes. *)
From S2P Require Import Prelude HttpRequest NgxSprintf NgxInet InetText.
From stdpp Require Import base list option.
#[global] Open Scope Z_scope.

(** ** What is not an address *)

(** Characters other than digits and dots. *)
Lemma inet_addr_loop_other c text addr octet n :
  is_digit c = false -> c <> chr "." -> In c text -> inet_addr_loop text addr octet n = None.
Proof.
  intros Hd Hc. revert addr octet n. induction text as [| x text IH]; intros addr octet n Hin; [done |].
  cbn [inet_addr_loop]. fold (is_digit x). destruct Hin as [-> | Hin].
  - rewrite Hd. destruct (Z.eqb_spec c (chr ".")); done.
  - destruct (is_digit x); [destruct (255 <? _); [done | now apply IH] |]. destruct (x =? chr "."); [now apply IH | done].
Qed.

Lemma inet_addr_other c text : is_digit c = false -> c <> chr "." -> In c text -> ngx_inet_addr text = INADDR_NONE.
Proof. intros Hd Hc Hin. unfold ngx_inet_addr. now rewrite (inet_addr_loop_other c). Qed.

(** A dot that no colon precedes. *)
Lemma inet6_addr_dotted v rest : byte v -> ngx_inet6_addr (dec_text v ++ chr "." :: rest) = None.
Proof.
  intros Hv. destruct (dec_text_spec v Hv) as (_ & Hl & HF & _). destruct (dec_hexadecimal (dec_text v) 0 HF) as [w Hw].
  assert (forall l, read_rest l (mk_in6 [] 8 0 0 None None) = ngx_inet6_addr l \/ exists t, l = chr ":" :: t \/ l = []) as Q.
  { intros [| c l]; [right; exists []; auto |]. cbn [ngx_inet6_addr]. destruct (Z.eqb_spec c (chr ":")) as [-> |]; [eauto | now left]. }
  destruct (Q (dec_text v ++ chr "." :: rest)) as [<- | [t [E | E]]].
  - unfold read_rest. rewrite (inet6_loop_hex _ _ _ _ _ _ _ _ _ Hw) by lia.
    cbn [inet6_loop i_out i_n i_nibbles i_word i_zero i_digit].
    change (chr "." =? chr ":") with false. change (chr "." =? chr ".") with true. cbv iota.
    destruct (Z.eqb_spec (0 + Z.of_nat (length (dec_text v))) 0); [lia | done].
  - destruct (dec_text v) as [| x l]; [cbn in Hl; lia |]. cbn in E. injection E as -> _. inversion HF. discriminate.
  - destruct (dec_text v); discriminate E.
Qed.

(** ** Splitting *)

Lemma split_chr_app sep l rest : Forall (fun c => c <> sep) l -> split_chr sep (l ++ sep :: rest) = (l, Some rest).
Proof.
  induction 1 as [| c l Hc HF IH]; cbn [List.app split_chr]; [now rewrite Z.eqb_refl |].
  destruct (Z.eqb_spec c sep); [done |]. now rewrite IH.
Qed.

(** The characters of texts. *)
Definition inet_char (c : Z) : Prop := hex_digit c <> None \/ c = chr "." \/ c = chr ":".

Lemma hex_chars l acc w : hexadecimal_from acc l = Some w -> Forall inet_char l.
Proof.
  revert acc. induction l as [| c l IH]; intros acc E; constructor; cbn [hexadecimal_from] in E;
    destruct (hex_digit c) eqn:Ec; try done; [left; congruence | eauto].
Qed.

Lemma dec_chars v : byte v -> Forall inet_char (dec_text v) /\ Forall (fun c => c <> chr ":") (dec_text v).
Proof.
  intros Hv. destruct (dec_text_spec v Hv) as (_ & _ & HF & _). split.
  - destruct (dec_hexadecimal (dec_text v) 0 HF) as [w Hw]. exact (hex_chars _ _ _ Hw).
  - eapply Forall_impl; [| exact HF]. intros x Hx ->. discriminate Hx.
Qed.

Lemma dotted_chars a b c d :
  byte a -> byte b -> byte c -> byte d ->
  Forall inet_char (dotted_text a b c d) /\ Forall (fun c => c <> chr ":") (dotted_text a b c d).
Proof.
  intros Ha Hb Hc Hd. destruct (dec_chars a Ha), (dec_chars b Hb), (dec_chars c Hc), (dec_chars d Hd). unfold dotted_text.
  split; do 3 (apply Forall_app; split; [done |]; apply List.Forall_cons; [unfold inet_char; auto; discriminate |]); done.
Qed.

Lemma items_chars p j k : Forall byte p -> Forall inet_char (items p j k).
Proof.
  intros HF. revert j. induction k as [| k IH]; intros j; [constructor |].
  change (items p j (S k)) with (item p j ++ items p (S j) k). apply Forall_app. split; [| apply IH].
  unfold item. apply Forall_app. destruct (hex_text_spec (word_at p j) (word_at_range p j HF)) as (_ & _ & E).
  split; [exact (hex_chars _ _ _ E) |]. destruct (j <? 7)%nat; [| constructor]. apply List.Forall_cons; [unfold inet_char; auto | constructor].
Qed.

Lemma inet6_ntop_chars p len text :
  Forall byte p -> length p = 16%nat -> NGX_INET6_ADDRSTRLEN <= len -> ngx_inet6_ntop p len = Some text -> Forall inet_char text.
Proof.
  intros HF Hl Hlen E. assert (inet_char (chr ":")) as Hc by (unfold inet_char; auto).
  destruct (inet6_ntop_text p len HF Hl Hlen) as [E' | [(j & m & _ & _ & _ & _ & E') | [(m & _ & _ & _ & E') |
    (m & _ & _ & _ & _ & E')]]]; rewrite E in E'; injection E' as ->.
  - now apply items_chars.
  - apply Forall_app. split; [now apply items_chars |]. apply List.Forall_cons; [done | now apply items_chars].
  - do 2 (apply List.Forall_cons; [done |]). now apply items_chars.
  - do 2 (apply List.Forall_cons; [done |]). apply Forall_app. split; [now apply items_chars |]. apply dotted_chars; now apply byte_at_byte.
Qed.

(** Every text has a colon. *)
Lemma inet6_ntop_colon p len text :
  Forall byte p -> length p = 16%nat -> NGX_INET6_ADDRSTRLEN <= len -> ngx_inet6_ntop p len = Some text -> In (chr ":") text.
Proof.
  intros HF Hl Hlen E. destruct (inet6_ntop_text p len HF Hl Hlen) as [E' | [(j & m & _ & _ & _ & _ & E') | [(m & _ & _ & _ & E') |
    (m & _ & _ & _ & _ & E')]]]; rewrite E in E'; injection E' as ->; try now left.
  - change (items p 0 8) with ((hex_text (word_at p 0) ++ [chr ":"]) ++ items p 1 7).
    apply in_app_iff. left. apply in_app_iff. right. now left.
  - apply in_app_iff. right. now left.
Qed.

Lemma inet_char_bracket c : inet_char c -> c <> chr "]".
Proof. intros [H | [-> | ->]]; [| discriminate | discriminate]. intros ->. now apply H. Qed.

(** ** Ports *)

Definition port_text (port : Z) : list Z := match num_digits port 0 with Some ds => ds | None => [] end.

Lemma port_text_spec port :
  0 <= port <= 65535 ->
  num_digits port 0 = Some (port_text port) /\ (length (port_text port) <= 20)%nat /\ ngx_atoi (port_text port) = port.
Proof.
  intros Hp. destruct (num_digits_spec port 0) as (ds & E & Hne & Hl & Hd & _); [lia |]. unfold port_text. rewrite E.
  split_and!; [done | exact Hl |]. unfold ngx_atoi. rewrite ato_spec, Hd by done. cbn.
  destruct (Z.leb_spec port NGX_MAX_INT_T_VALUE); [done | unfold NGX_MAX_INT_T_VALUE in *; lia].
Qed.

Lemma loop_port room port :
  0 <= port <= 65535 -> 20 <= room ->
  vslprintf_loop 0 room (str "%d") [VInt port] = Some (port_text port).
Proof.
  intros Hp Hr. destruct (port_text_spec port Hp) as (E & Hl & _).
  assert (signed 32 port = port) as Es.
  { unfold signed. rewrite Z.mod_small by lia. destruct (Z.ltb_spec port (2 ^ (32 - 1))); lia. }
  change (str "%d") with (chr "%" :: str "d"). erewrite (loop_conversion room _ _ (port_text port) [] []).
  - cbn. now rewrite List.app_nil_r.
  - lia.
  - transitivity (out ← print_integer room true (signed 32 port) (mk_conv (chr " ") 0 true 0 false 0 NO_LENGTH); Some (out, @nil Z, @nil arg)); [reflexivity |].
    rewrite Es. unfold print_integer. cbn [cv_zero cv_hex cv_width]. destruct (Z.ltb_spec port 0); [lia |]. cbn [andb].
    unfold u64. rewrite Z.mod_small by lia. rewrite (sprintf_num_all _ _ _ _ _ _ E) by lia. unfold padded.
    now replace (Z.to_nat (0 - Z.of_nat (length (port_text port)))) with O by lia.
Qed.

Lemma print_tail port : 0 <= port <= 65535 -> ngx_sprintf 0 (str "]:%d") [VInt port] = Some (str "]:" ++ port_text port).
Proof.
  intros Hp. unfold ngx_sprintf, ngx_vslprintf. change (str "]:%d") with (chr "]" :: chr ":" :: str "%d").
  rewrite !loop_char by (done || lia). rewrite loop_port by lia. done.
Qed.

Lemma print_dotted_port room a b c d port :
  byte a -> byte b -> byte c -> byte d -> 0 <= port <= 65535 -> 45 <= room ->
  ngx_vslprintf room (str "%ud.%ud.%ud.%ud:%d") [VInt a; VInt b; VInt c; VInt d; VInt port] =
  Some (dotted_text a b c d ++ chr ":" :: port_text port).
Proof.
  intros Ha Hb Hc Hd Hp Hr. unfold ngx_vslprintf, dotted_text.
  destruct (dec_text_spec a Ha) as (_ & Hla & _), (dec_text_spec b Hb) as (_ & Hlb & _), (dec_text_spec c Hc) as (_ & Hlc & _),
    (dec_text_spec d Hd) as (_ & Hld & _).
  change (str "%ud.%ud.%ud.%ud:%d") with
    (str "%ud" ++ chr "." :: str "%ud" ++ chr "." :: str "%ud" ++ chr "." :: str "%ud" ++ chr ":" :: str "%d").
  repeat first [rewrite loop_ud by (done || lia) | rewrite loop_char by (done || lia)].
  rewrite loop_port by lia. cbn. repeat (rewrite <- List.app_assoc; cbn). done.
Qed.

Lemma in_addr_bytes x : 0 <= x < 2 ^ 32 -> in_addr (in_bytes x) = x.
Proof.
  intros Hx. unfold in_bytes. rewrite in_addr_quad.
  change (x / 2 ^ 16) with (x / (2 ^ 8 * 2 ^ 8)). change (x / 2 ^ 24) with (x / (2 ^ 8 * (2 ^ 8 * 2 ^ 8))).
  rewrite <- !Z.div_div by lia. rewrite (Z.mod_small (x / 2 ^ 8 / 2 ^ 8 / 2 ^ 8)).
  - pose proof (Z.div_mod x (2 ^ 8)). pose proof (Z.div_mod (x / 2 ^ 8) (2 ^ 8)).
    pose proof (Z.div_mod (x / 2 ^ 8 / 2 ^ 8) (2 ^ 8)). lia.
  - split; [repeat apply Z.div_pos; lia |]. repeat apply Z.div_lt_upper_bound; lia.
Qed.

Lemma in_bytes_byte x : exists a b c d, in_bytes x = [a; b; c; d] /\ byte a /\ byte b /\ byte c /\ byte d.
Proof. do 4 eexists. split; [reflexivity |]. unfold byte. split_and!; apply Z.mod_pos_bound; lia. Qed.

(** What [parse_port] makes of a port and of a text that may be an address. *)
Lemma parse_port_zero addr memory : parse_port addr (port_text 0) memory = (NGX_DECLINED, None).
Proof. reflexivity. Qed.

Lemma parse_port_read addr port memory :
  1 <= port <= 65535 ->
  parse_port addr (port_text port) memory =
  let '(rc, sa) := ngx_parse_addr addr memory in
  if negb (rc =? NGX_OK) then (rc, None) else (NGX_OK, (fun sa => (sa, port)) <$> sa).
Proof.
  intros Hp. destruct (port_text_spec port) as (_ & _ & Ha); [lia |]. unfold parse_port. rewrite Ha.
  now replace ((port <? 1) || (65535 <? port)) with false by lia.
Qed.

(** Text that is no address as a whole. *)
Lemma parse_addr_declined text memory :
  ngx_inet_addr text = INADDR_NONE -> ngx_inet6_addr text = None -> ngx_parse_addr text memory = (NGX_DECLINED, None).
Proof. intros E1 E2. unfold ngx_parse_addr. now rewrite E1, E2. Qed.

Lemma addr_port_in x port :
  0 <= x < 2 ^ 32 -> exists text, (forall len, 0 <= port <= 65535 -> 45 <= len ->
    ngx_sock_ntop (SaIn x) port len true = Some (text ++ chr ":" :: port_text port, Z.of_nat (length (text ++ chr ":" :: port_text port)))) /\
  ngx_inet_addr text = x /\ ngx_inet6_addr text = None /\
  forall memory, ngx_parse_addr_port (text ++ chr ":" :: port_text port) memory = parse_port text (port_text port) memory.
Proof.
  intros Hx. destruct (in_bytes_byte x) as (a & b & c & d & E & Ha & Hb & Hc & Hd). exists (dotted_text a b c d). split_and!.
  - intros len Hp Hlen. unfold ngx_sock_ntop. rewrite E. cbv zeta.
    change (byte_at [a; b; c; d] 0) with a. change (byte_at [a; b; c; d] 1) with b. change (byte_at [a; b; c; d] 2) with c.
    change (byte_at [a; b; c; d] 3) with d. unfold ngx_snprintf. now rewrite print_dotted_port.
  - rewrite read_dotted by done. rewrite <- E. now apply in_addr_bytes.
  - unfold dotted_text. now apply inet6_addr_dotted.
  - intros memory. destruct (dotted_chars a b c d Ha Hb Hc Hd) as [_ HF]. unfold ngx_parse_addr_port. rewrite parse_addr_declined.
    + cbn [negb Z.eqb]. change (negb (NGX_DECLINED =? NGX_DECLINED)) with false. cbv iota. rewrite split_chr_app by done.
      destruct (dotted_text a b c d ++ chr ":" :: port_text port) as [| h t] eqn:Et; [now destruct (dotted_text a b c d) |].
      destruct (Z.eqb_spec h (chr "[")) as [-> |]; [exfalso | done].
      destruct (dec_text_spec a Ha) as (_ & Hl & HFd & _). unfold dotted_text in Et.
      destruct (dec_text a); [cbn in Hl; lia |]. cbn in Et. injection Et as -> _. inversion HFd. discriminate.
    + apply (inet_addr_other (chr ":")); [done | done |]. apply in_app_iff. right. now left.
    + unfold dotted_text. rewrite <- List.app_assoc. cbn [List.app]. now apply inet6_addr_dotted.
Qed.

Lemma addr_port_in6 text port memory :
  Forall inet_char text ->
  ngx_parse_addr_port (chr "[" :: text ++ chr "]" :: chr ":" :: port_text port) memory = parse_port text (port_text port) memory.
Proof.
  intros HF. unfold ngx_parse_addr_port. rewrite parse_addr_declined.
  - change (negb (NGX_DECLINED =? NGX_DECLINED)) with false. change (chr "[" =? chr "[") with true. cbv iota.
    rewrite split_chr_app; [done |]. eapply Forall_impl; [| exact HF]. intros x. apply inet_char_bracket.
  - apply (inet_addr_other (chr "[")); [done | done | now left].
  - reflexivity.
Qed.

(** The addresses whose texts are no addresses: 255.255.255.255 and the IPv6
    addresses that are written with it at the end. *)
Definition unreadable (sa : sockaddr) : Prop :=
  match sa with SaIn a => a = INADDR_NONE | SaIn6 p => ends_broadcast p | SaUnix _ => False end.

(** An address of the Internet. *)
Definition inet_sockaddr (sa : sockaddr) : Prop :=
  match sa with SaIn a => 0 <= a < 2 ^ 32 | SaIn6 p => length p = 16%nat /\ Forall byte p | SaUnix _ => False end.

(** The text with the port consists of the one of the address and of the one of
    the port. *)
Lemma addr_port_text sa port len :
  inet_sockaddr sa -> 0 <= port <= 65535 -> NGX_INET6_ADDRSTRLEN <= len ->
  exists addr text, ngx_sock_ntop sa port len true = Some (text, Z.of_nat (length text)) /\
    (forall memory, ngx_parse_addr_port text memory = parse_port addr (port_text port) memory) /\
    (unreadable sa -> forall memory, ngx_parse_addr addr memory = (NGX_DECLINED, None)) /\
    (~ unreadable sa -> ngx_parse_addr addr true = (NGX_OK, Some sa) /\ ngx_parse_addr addr false = (NGX_ERROR, None)).
Proof.
  intros Hsa Hp Hlen. destruct sa as [x | p |]; [| | done].
  - destruct (addr_port_in x port Hsa) as (addr & E & Ea & Ea6 & E1). exists addr. eexists. split; [exact (E len Hp Hlen) |].
    split; [exact E1 |]. unfold ngx_parse_addr. rewrite Ea, Ea6. cbn [unreadable]. split; [now intros -> |].
    intros Hn. now destruct (Z.eqb_spec x INADDR_NONE).
  - destruct Hsa as (Hl & HF). destruct (inet6_ntop_read p len HF Hl Hlen) as (addr & E & _ & Hr).
    pose proof (inet6_ntop_chars p len addr HF Hl Hlen E) as HFc.
    exists addr, (chr "[" :: addr ++ chr "]" :: chr ":" :: port_text port). split.
    { cbn [ngx_sock_ntop]. rewrite E. cbn [mbind option_bind]. now rewrite print_tail by done. }
    split; [intros memory; now apply addr_port_in6 |].
    assert (ngx_inet_addr addr = INADDR_NONE) as Hi.
    { apply (inet_addr_other (chr ":")); [done | done |]. now apply (inet6_ntop_colon p len). }
    unfold ngx_parse_addr. rewrite Hi. cbn [unreadable]. split.
    + intros Hb. destruct (broadcast_texts p len Hl Hlen Hb) as (text' & E' & Hn). now simplify_eq; rewrite Hn.
    + intros Hb. destruct Hr as [-> | [_ Hr]]; done.
Qed.

(** C11: for every address of the Internet and every port [ngx_sock_ntop] writes a
    text that [ngx_parse_addr_port] reads back as the address with the port;
    without memory for the address the answer is [NGX_ERROR].  The
    exceptions are the port 0, 255.255.255.255 and the IPv6 addresses whose
    texts end so: these texts are declined. *)
Theorem addr_port_round_trip sa port len :
  inet_sockaddr sa -> 0 <= port <= 65535 -> NGX_INET6_ADDRSTRLEN <= len ->
  exists text, ngx_sock_ntop sa port len true = Some (text, Z.of_nat (length text)) /\
    (port = 0 \/ unreadable sa -> forall memory, ngx_parse_addr_port text memory = (NGX_DECLINED, None)) /\
    (port <> 0 -> ~ unreadable sa ->
       ngx_parse_addr_port text true = (NGX_OK, Some (sa, port)) /\ ngx_parse_addr_port text false = (NGX_ERROR, None)).
Proof.
  intros Hsa Hp Hlen. destruct (addr_port_text sa port len Hsa Hp Hlen) as (addr & text & E & Er & Hu & Hr).
  exists text. split; [exact E |]. rewrite !Er. split.
  - intros [-> | Hb] memory; rewrite Er; [apply parse_port_zero |].
    destruct (Z.eq_dec port 0) as [-> |]; [apply parse_port_zero |]. rewrite parse_port_read by lia. now rewrite Hu.
  - intros Hn Hb. rewrite !parse_port_read by lia. destruct (Hr Hb) as [-> ->]. done.
Qed.

Lemma addr_port_round_trip_witness :
  exists text, ngx_sock_ntop (SaIn6 (repeat 0 15 ++ [1])) 8080 113 true = Some (text, Z.of_nat (length text)) /\
    ngx_parse_addr_port text true = (NGX_OK, Some (SaIn6 (repeat 0 15 ++ [1]), 8080)).
Proof.
  destruct (addr_port_round_trip (SaIn6 (repeat 0 15 ++ [1])) 8080 113) as (text & E & _ & E1).
  - split; [reflexivity |]. repeat constructor; discriminate.
  - split; discriminate.
  - discriminate.
  - exists text. split; [exact E |]. apply E1; [discriminate |]. intros (_ & _ & Q). discriminate Q.
Defined.
