(* ===== verification/HttpTime.v ===== *)
(** Dates: [ngx_parse_http_time] (core/ngx_parse_time.c), [ngx_gmtime] and
    [ngx_http_time] (core/ngx_times.c). *)
From S2P Require Import Prelude HttpRequest.
From S2P Require Export NgxSprintf.
#[global] Open Scope Z_scope.

(** ** Parsing *)

Definition mday : list Z := [31; 28; 31; 30; 31; 30; 31; 31; 30; 31; 30; 31].

Inductive time_format := no | rfc822 | rfc850 | isoc.

#[export] Instance time_format_dec : EqDecision time_format.
Proof. solve_decision. Defined.

(** The day of the week: [p] behind it and the format as far as it is known.
    [n] is [end - p]. *)
Fixpoint skip_weekday (n : nat) (M : mem) (p : Z) : Z * time_format :=
  match n with
  | O => (p, no)
  | S n' =>
      if M p =? chr "," then (p, no)
      else if M p =? chr " " then (p, isoc)
      else skip_weekday n' M (p + 1)
  end.

Fixpoint skip_spaces (n : nat) (M : mem) (p : Z) : Z :=
  match n with
  | O => p
  | S n' => if M p =? chr " " then skip_spaces n' M (p + 1) else p
  end.

(** Two and four digits at [p]; [None] is [return NGX_ERROR], here and in what
    follows. *)
Definition two_digits (M : mem) (p : Z) : option Z :=
  if (M p <? chr "0") || (chr "9" <? M p) || (M (p + 1) <? chr "0") || (chr "9" <? M (p + 1)) then None
  else Some ((M p - chr "0") * 10 + (M (p + 1) - chr "0")).

Definition four_digits (M : mem) (p : Z) : option Z :=
  if (M p <? chr "0") || (chr "9" <? M p) || (M (p + 1) <? chr "0") || (chr "9" <? M (p + 1))
     || (M (p + 2) <? chr "0") || (chr "9" <? M (p + 2)) || (M (p + 3) <? chr "0") || (chr "9" <? M (p + 3))
  then None
  else Some ((M p - chr "0") * 1000 + (M (p + 1) - chr "0") * 100
             + (M (p + 2) - chr "0") * 10 + (M (p + 3) - chr "0")).

(** The day of the formats that start with it: [p], the format, the day (the
    value from NGX_SUPPRESS_WARN where it comes later). *)
Definition time_day (M : mem) (p end_ : Z) (fmt : time_format) : option (Z * time_format * Z) :=
  if bool_decide (fmt = isoc) then Some (p, isoc, 32) else
  day ← two_digits M p;
  let p := p + 2 in
  if M p =? chr " " then
    if end_ - p <? 18 then None else Some (p + 1, rfc822, day)
  else if M p =? chr "-" then Some (p + 1, rfc850, day)
  else None.

(** The month, counted from 0. *)
Definition time_month (M : mem) (p : Z) : option Z :=
  let c := M p in
  if c =? chr "J" then
    Some (if M (p + 1) =? chr "a" then 0 else if M (p + 2) =? chr "n" then 5 else 6)
  else if c =? chr "F" then Some 1
  else if c =? chr "M" then Some (if M (p + 2) =? chr "r" then 2 else 4)
  else if c =? chr "A" then Some (if M (p + 1) =? chr "p" then 3 else 7)
  else if c =? chr "S" then Some 8
  else if c =? chr "O" then Some 9
  else if c =? chr "N" then Some 10
  else if c =? chr "D" then Some 11
  else None.

(** The year, of two or four digits, where it follows the month. *)
Definition time_year (M : mem) (p : Z) (fmt : time_format) : option (Z * Z) :=
  match fmt with
  | rfc822 => year ← four_digits M p; Some (p + 4, year)
  | rfc850 =>
      year ← two_digits M p;
      Some (p + 2, year + (if year <? 70 then 2000 else 1900))
  | _ => Some (p, 2038)
  end.

(** The day where it follows the month, of one digit or two. *)
Definition isoc_day (M : mem) (p end_ : Z) (fmt : time_format) (day : Z) : option (Z * Z) :=
  if negb (bool_decide (fmt = isoc)) then Some (p, day) else
  let p := if M p =? chr " " then p + 1 else p in
  if (M p <? chr "0") || (chr "9" <? M p) then None else
  let day := M p - chr "0" in
  let p := p + 1 in
  '(p, day) ← (if M p =? chr " " then Some (p, day)
               else if (M p <? chr "0") || (chr "9" <? M p) then None
               else Some (p + 1, day * 10 + (M p - chr "0")));
  if end_ - p <? 14 then None else Some (p, day).

(** The time of day: hours, minutes and seconds; [p] is left at the seconds. *)
Definition time_clock (M : mem) (p : Z) : option (Z * Z * Z * Z) :=
  if negb (M p =? chr " ") then None else
  let p := p + 1 in
  hour ← two_digits M p;
  let p := p + 2 in
  if negb (M p =? chr ":") then None else
  let p := p + 1 in
  min ← two_digits M p;
  let p := p + 2 in
  if negb (M p =? chr ":") then None else
  let p := p + 1 in
  sec ← two_digits M p;
  Some (p, hour, min, sec).

Definition isoc_year (M : mem) (p : Z) (fmt : time_format) (year : Z) : option Z :=
  if negb (bool_decide (fmt = isoc)) then Some year else
  let p := p + 2 in
  if negb (M p =? chr " ") then None else four_digits M (p + 1).

(** The checks of the numbers. *)
Definition time_valid (day month year hour min sec : Z) : bool :=
  if (23 <? hour) || (59 <? min) || (59 <? sec) then false
  else if (day =? 29) && (month =? 1) then
    negb (negb (Z.land year 3 =? 0) || ((year mod 100 =? 0) && negb (year mod 400 =? 0)))
  else negb (nth (Z.to_nat month) mday 0 <? day).

(** The seconds since 1970, in unsigned 64-bit arithmetic. *)
Definition gauss_time (day month year hour min sec : Z) : Z :=
  let month := month - 1 in
  let '(month, year) := if month <=? 0 then (month + 12, u64 (year - 1)) else (month, year) in
  let days := u64 (u64 (365 * year) + year / 4 - year / 100 + year / 400
                   + 367 * month / 12 - 30 + day - 1 - 719527 + 31 + 28) in
  let time := u64 (days * 86400 + hour * 3600 + min * 60 + sec) in
  signed 64 time.

(** From behind the day of the week and the spaces on. *)
Definition parse_date (M : mem) (p end_ : Z) (fmt : time_format) : option Z :=
  if end_ - p <? 18 then None else
  '(p, fmt, day) ← time_day M p end_ fmt;
  month ← time_month M p;
  let p := p + 3 in
  if (bool_decide (fmt = rfc822) && negb (M p =? chr " ")) || (bool_decide (fmt = rfc850) && negb (M p =? chr "-"))
  then None else
  let p := p + 1 in
  '(p, year) ← time_year M p fmt;
  '(p, day) ← isoc_day M p end_ fmt day;
  '(p, hour, min, sec) ← time_clock M p;
  year ← isoc_year M p fmt year;
  if time_valid day month year hour min sec then Some (gauss_time day month year hour min sec) else None.

(** [ngx_parse_http_time(value, len)] *)
Definition ngx_parse_http_time (M : mem) (value len : Z) : Z :=
  let end_ := value + len in
  let '(p, fmt) := skip_weekday (Z.to_nat (end_ - value)) M value in
  let p := p + 1 in
  let p := skip_spaces (Z.to_nat (end_ - p)) M p in
  default NGX_ERROR (parse_date M p end_ fmt).

(** ** Printing *)

Record ngx_tm := mk_tm {
  ngx_tm_sec : Z; ngx_tm_min : Z; ngx_tm_hour : Z; ngx_tm_mday : Z; ngx_tm_mon : Z; ngx_tm_year : Z; ngx_tm_wday : Z }.

(** All variables but [yday] are unsigned; [days] and [year] are small enough
    for the sums to stay in range. *)
Definition ngx_gmtime (t : Z) : ngx_tm :=
  let t := if t <? 0 then 0 else t in
  let days := t / 86400 in
  let sec := t mod 86400 in
  let '(days, sec) := if 2932896 <? days then (2932896, 86399) else (days, sec) in
  let wday := (4 + days) mod 7 in
  let hour := sec / 3600 in
  let sec := sec mod 3600 in
  let min := sec / 60 in
  let sec := sec mod 60 in
  let days := u64 (days - (31 + 28) + 719527) in
  let year := (days + 2) * 400 / (365 * 400 + 100 - 4 + 1) in
  let yday := signed 64 (u64 (days - (365 * year + year / 4 - year / 100 + year / 400))) in
  let '(yday, year) :=
    if yday <? 0 then
      let leap := Z.b2z ((year mod 4 =? 0) && (negb (year mod 100 =? 0) || (year mod 400 =? 0))) in
      (signed 64 (u64 (365 + leap + yday)), u64 (year - 1))
    else (yday, year) in
  let mon := u64 (Z.quot ((yday + 31) * 10) 306) in
  let mday := u64 (yday - (367 * mon / 12 - 30) + 1) in
  let '(year, mon) := if 306 <=? yday then (u64 (year + 1), u64 (mon - 10)) else (year, u64 (mon + 2)) in
  mk_tm (signed 32 sec) (signed 32 min) (signed 32 hour) (signed 32 mday) (signed 32 mon) (signed 32 year)
    (signed 32 wday).

Definition week : list (list Z) := [str "Sun"; str "Mon"; str "Tue"; str "Wed"; str "Thu"; str "Fri"; str "Sat"].
Definition months : list (list Z) :=
  [str "Jan"; str "Feb"; str "Mar"; str "Apr"; str "May"; str "Jun";
   str "Jul"; str "Aug"; str "Sep"; str "Oct"; str "Nov"; str "Dec"].

(** A string literal as an argument. *)
Definition VLit (l : list Z) : arg := VPtr (l ++ [0]).

Definition ngx_http_time (buf t : Z) : option (list Z) :=
  let tm := ngx_gmtime t in
  ngx_sprintf buf (str "%s, %02d %s %4d %02d:%02d:%02d GMT")
    [VLit (nth (Z.to_nat (ngx_tm_wday tm)) week []);
     VInt (ngx_tm_mday tm);
     VLit (nth (Z.to_nat (ngx_tm_mon tm - 1)) months []);
     VInt (ngx_tm_year tm);
     VInt (ngx_tm_hour tm);
     VInt (ngx_tm_min tm);
     VInt (ngx_tm_sec tm)].

Definition ngx_http_cookie_time (buf t : Z) : option (list Z) :=
  let tm := ngx_gmtime t in
  ngx_sprintf buf
    (if 2037 <? ngx_tm_year tm then str "%s, %02d-%s-%d %02d:%02d:%02d GMT"
     else str "%s, %02d-%s-%02d %02d:%02d:%02d GMT")
    [VLit (nth (Z.to_nat (ngx_tm_wday tm)) week []);
     VInt (ngx_tm_mday tm);
     VLit (nth (Z.to_nat (ngx_tm_mon tm - 1)) months []);
     VInt (if 2037 <? ngx_tm_year tm then ngx_tm_year tm else Z.rem (ngx_tm_year tm) 100);
     VInt (ngx_tm_hour tm);
     VInt (ngx_tm_min tm);
     VInt (ngx_tm_sec tm)].

Example http_time_example : ngx_http_time 0 784111777 = Some (str "Sun, 06 Nov 1994 08:49:37 GMT").
Proof. vm_compute. reflexivity. Qed.

Example parse_three_formats :
  let parse l := ngx_parse_http_time (mem_of 100 l) 100 (Z.of_nat (length l)) in
  parse (str "Sun, 06 Nov 1994 08:49:37 GMT") = 784111777 /\
  parse (str "Sunday, 06-Nov-94 08:49:37 GMT") = 784111777 /\
  parse (str "Sun Nov  6 08:49:37 1994") = 784111777.
Proof. vm_compute. repeat split. Qed.

(** ** The calendar *)

Definition is_leap (y : Z) : bool := (y mod 4 =? 0) && (negb (y mod 100 =? 0) || (y mod 400 =? 0)).

Definition year_days (y : Z) : Z := 365 + Z.b2z (is_leap y).

(** The days of the month [m], counted from 0, of the year [y]. *)
Definition month_days (y m : Z) : Z := nth (Z.to_nat m) mday 0 + Z.b2z (is_leap y && (m =? 1)).

(** The days before a year, from the year 0 on, and before a month of it. *)
Fixpoint days_before_year (y : nat) : Z :=
  match y with O => 0 | S y' => days_before_year y' + year_days (Z.of_nat y') end.

Fixpoint days_before_month (y : Z) (m : nat) : Z :=
  match m with O => 0 | S m' => days_before_month y m' + month_days y (Z.of_nat m') end.

(** A date and time of the calendar and its seconds since 1970. *)
Definition valid_date (day month year hour min sec : Z) : Prop :=
  0 <= month < 12 /\ 1 <= day <= month_days year month /\ 0 <= hour < 24 /\ 0 <= min < 60 /\ 0 <= sec < 60.

Definition epoch_days (day month year : Z) : Z :=
  days_before_year (Z.to_nat year) + days_before_month year (Z.to_nat month) + (day - 1)
  - days_before_year 1970.

Definition epoch_seconds (day month year hour min sec : Z) : Z :=
  epoch_days day month year * 86400 + hour * 3600 + min * 60 + sec.

(** *** Gauss' formula *)

(** The days before March of the year [y], from March of the year 0 on. *)
Definition gauss_year (y : Z) : Z := 365 * y + y / 4 - y / 100 + y / 400.

Lemma gauss_year_step y : 0 <= y -> gauss_year (y + 1) = gauss_year y + year_days (y + 1).
Proof.
  intros Hy. unfold gauss_year, year_days, is_leap.
  destruct (Z.eqb_spec ((y + 1) mod 4) 0), (Z.eqb_spec ((y + 1) mod 100) 0), (Z.eqb_spec ((y + 1) mod 400) 0);
    cbn [negb andb orb Z.b2z]; Z.to_euclidean_division_equations; lia.
Qed.

Lemma days_before_year_gauss (y : nat) : days_before_year (S y) = 366 + gauss_year (Z.of_nat y).
Proof.
  induction y as [| y IH]; [reflexivity |].
  change (days_before_year (S (S y))) with (days_before_year (S y) + year_days (Z.of_nat (S y))).
  rewrite IH. replace (Z.of_nat (S y)) with (Z.of_nat y + 1) by lia. rewrite gauss_year_step; lia.
Qed.

(** The twelve months, by case analysis. *)
Ltac twelve m := let k := fresh in
  assert (m = 0 \/ m = 1 \/ m = 2 \/ m = 3 \/ m = 4 \/ m = 5 \/ m = 6 \/ m = 7 \/ m = 8 \/ m = 9 \/ m = 10 \/ m = 11)
    as k by lia;
  repeat (destruct k as [-> | k]); [.. | subst m].

Lemma days_before_month_gauss y m :
  0 <= m < 12 ->
  days_before_month y (Z.to_nat m) =
  if m <? 2 then 31 * m else 367 * (m - 1) / 12 - 30 + 59 + Z.b2z (is_leap y).
Proof.
  intros Hm. twelve m; match goal with |- days_before_month y ?n = _ => let k := eval vm_compute in n in change n with k end;
    cbn [days_before_month]; unfold month_days; destruct (is_leap y); reflexivity.
Qed.

Lemma signed_u64 z : - 2 ^ 63 <= z < 2 ^ 63 -> signed 64 (u64 z) = z.
Proof.
  intros H. unfold signed, u64. rewrite Z.mod_mod by lia. change (64 - 1) with 63.
  destruct (Z.leb_spec 0 z).
  - rewrite Z.mod_small by lia. destruct (Z.ltb_spec z (2 ^ 63)); lia.
  - rewrite <- (Z_mod_plus_full z 1), Z.mod_small by lia.
    destruct (Z.ltb_spec (z + 1 * 2 ^ 64) (2 ^ 63)); lia.
Qed.

Lemma signed_small w z : 0 < w -> 0 <= z < 2 ^ (w - 1) -> signed w z = z.
Proof.
  intros Hw H. unfold signed. assert (2 ^ w = 2 * 2 ^ (w - 1)) by (rewrite <- Z.pow_succ_r by lia; f_equal; lia).
  rewrite Z.mod_small by lia. destruct (Z.ltb_spec z (2 ^ (w - 1))); lia.
Qed.

Lemma u64_mul_add a b c : u64 (u64 a * b + c) = u64 (a * b + c).
Proof.
  unfold u64. rewrite <- Z.add_mod_idemp_l by lia. rewrite Z.mul_mod_idemp_l by lia.
  now rewrite Z.add_mod_idemp_l by lia.
Qed.

Lemma gauss_year_bounds y : 0 <= y < 10000 -> 0 <= gauss_year y <= 3652500.
Proof. intros H. unfold gauss_year. Z.to_euclidean_division_equations; lia. Qed.

(** The year and the month that Gauss' formula starts from. *)
Lemma gauss_time_formula day month year hour min sec :
  0 <= month < 12 -> 0 <= year < 10000 -> (2 <= month \/ 1 <= year) ->
  0 <= day < 100 -> 0 <= hour < 24 -> 0 <= min < 60 -> 0 <= sec < 60 ->
  gauss_time day month year hour min sec =
  (gauss_year (if month <? 2 then year - 1 else year)
   + 367 * (if month <? 2 then month + 11 else month - 1) / 12 - 30 + day - 1 - 719527 + 59) * 86400
  + hour * 3600 + min * 60 + sec.
Proof.
  intros Hm Hy Hy1 Hd Hh Hmi Hs. unfold gauss_time. cbv zeta.
  assert ((if month - 1 <=? 0 then (month - 1 + 12, u64 (year - 1)) else (month - 1, year)) =
    (if month <? 2 then month + 11 else month - 1, if month <? 2 then year - 1 else year)) as ->.
  { destruct (Z.leb_spec (month - 1) 0), (Z.ltb_spec month 2); try lia; [| done].
    rewrite u64_small by lia. f_equal. lia. }
  set (y := if month <? 2 then year - 1 else year). set (m := if month <? 2 then month + 11 else month - 1).
  assert (0 <= y < 10000) as Hy' by (subst y; destruct (Z.ltb_spec month 2); lia).
  assert (0 <= 367 * m / 12 <= 400) as Hm'
    by (subst m; destruct (Z.ltb_spec month 2); Z.to_euclidean_division_equations; lia).
  rewrite (u64_small (365 * y)) by lia. fold (gauss_year y).
  pose proof (gauss_year_bounds y Hy'). rewrite <- !Z.add_assoc, u64_mul_add, signed_u64 by lia. lia.
Qed.

Lemma days_before_year_pos y : 0 < y -> days_before_year (Z.to_nat y) = 366 + gauss_year (y - 1).
Proof.
  intros H. replace (Z.to_nat y) with (S (Z.to_nat (y - 1))) by lia.
  rewrite days_before_year_gauss. do 2 f_equal. lia.
Qed.

Lemma gauss_epoch day month year hour min sec :
  0 < year < 10000 -> 0 <= month < 12 -> 0 <= day < 100 -> 0 <= hour < 24 -> 0 <= min < 60 -> 0 <= sec < 60 ->
  gauss_time day month year hour min sec = epoch_seconds day month year hour min sec.
Proof.
  intros Hy Hm Hd Hh Hmi Hs. rewrite gauss_time_formula by lia. unfold epoch_seconds, epoch_days.
  rewrite days_before_month_gauss by done. change (days_before_year 1970) with 719528.
  rewrite days_before_year_pos by lia. pose proof (gauss_year_step (year - 1)) as Hstep.
  unfold year_days in Hstep. replace (year - 1 + 1) with year in Hstep by lia.
  destruct (Z.ltb_spec month 2) as [Hm2 | Hm2]; [| lia].
  assert (367 * (month + 11) / 12 = 336 + 31 * month) as ->; [| lia].
  assert (month = 0 \/ month = 1) as [-> | ->] by lia; reflexivity.
Qed.

Lemma time_valid_spec day month year hour min sec :
  0 <= month < 12 -> 0 <= day -> 0 <= hour -> 0 <= min -> 0 <= sec ->
  time_valid day month year hour min sec =
  ((day <=? month_days year month) && (hour <? 24) && (min <? 60) && (sec <? 60)).
Proof.
  intros Hm Hd Hh Hmi Hs. unfold time_valid, month_days, is_leap.
  change 3 with (Z.ones 2). rewrite land_low by lia. change (2 ^ 2) with 4.
  destruct (Z.ltb_spec 23 hour), (Z.ltb_spec hour 24); try lia; [cbn; now rewrite andb_false_r |].
  destruct (Z.ltb_spec 59 min), (Z.ltb_spec min 60); try lia; [cbn; now rewrite andb_false_r |].
  destruct (Z.ltb_spec 59 sec), (Z.ltb_spec sec 60); try lia; [cbn; now rewrite !andb_false_r |].
  cbn [orb]. rewrite !andb_true_r. destruct (Z.eqb_spec month 1) as [-> | Hne].
  - change (nth (Z.to_nat 1) mday 0) with 28. rewrite !andb_true_r.
    destruct (year mod 4 =? 0), (year mod 100 =? 0), (year mod 400 =? 0);
      destruct (Z.eqb_spec day 29), (Z.ltb_spec 28 day); cbn; lia.
  - rewrite !andb_false_r. cbn [Z.b2z]. generalize (nth (Z.to_nat month) mday 0). intros n. cbn [andb]. lia.
Qed.

Lemma month_days_range y m : 0 <= m < 12 -> 28 <= month_days y m <= 31.
Proof. intros Hm. unfold month_days. twelve m; destruct (is_leap y); vm_compute; split; discriminate. Qed.

(** ** [ngx_gmtime] *)

(** The last second of the year 9999. *)
Definition last_second : Z := 253402300799.

(** Where a day lies in the 400 years that the code divides by. *)
Lemma gauss_year_cycle y :
  0 <= y -> 146097 * y - 591 <= 400 * gauss_year y <= 146097 * y + 288.
Proof.
  intros Hy. unfold gauss_year.
  assert (y mod 100 = 25 * 0 + y mod 100) by lia.
  Z.to_euclidean_division_equations; lia.
Qed.

Lemma gmtime_year days :
  0 <= days < 4000000 ->
  let y := (days + 2) * 400 / 146097 in
  0 <= y < 12000 /\ gauss_year y <= days + 2 /\ days < gauss_year (y + 1).
Proof.
  intros Hd y. pose proof (Z.div_mod ((days + 2) * 400) 146097 ltac:(lia)) as E.
  pose proof (Z.mod_pos_bound ((days + 2) * 400) 146097 ltac:(lia)) as Hm. fold y in E.
  assert (0 <= y) by (apply Z.div_pos; lia).
  pose proof (gauss_year_cycle y ltac:(lia)). pose proof (gauss_year_cycle (y + 1) ltac:(lia)). lia.
Qed.

Lemma b2z_range b : 0 <= Z.b2z b <= 1.
Proof. destruct b; cbn; lia. Qed.

(** The empirical formulas for the month and the day, [m] counted from March. *)
Lemma gmtime_month yday :
  0 <= yday < 366 ->
  let m := (yday + 31) * 10 / 306 in
  let d := yday - (367 * m / 12 - 30) + 1 in
  let month := if 306 <=? yday then m - 11 else m + 1 in
  1 <= m <= 12 /\ 0 <= month < 12 /\ (month <? 2) = (306 <=? yday) /\ 1 <= d <= 31 /\
  d <= nth (Z.to_nat month) mday 0 + Z.b2z (yday =? 365).
Proof.
  intros Hy. cbv zeta.
  assert (forallb (fun k => let yday := Z.of_nat k in
    let m := (yday + 31) * 10 / 306 in
    let d := yday - (367 * m / 12 - 30) + 1 in
    let month := if 306 <=? yday then m - 11 else m + 1 in
    (1 <=? m) && (m <=? 12) && (0 <=? month) && (month <? 12) && Bool.eqb (month <? 2) (306 <=? yday) &&
    (1 <=? d) && (d <=? 31) && (d <=? nth (Z.to_nat month) mday 0 + Z.b2z (yday =? 365))) (seq 0 366) = true) as Q
    by reflexivity.
  rewrite forallb_forall in Q. specialize (Q (Z.to_nat yday)). rewrite in_seq, Z2Nat.id in Q by lia.
  specialize (Q ltac:(lia)). cbv zeta in Q. rewrite !andb_true_iff, !Z.leb_le, !Z.ltb_lt in Q.
  destruct Q as [[[[[[[H1 H2] H3] H4] H5] H6] H7] H8]. apply Bool.eqb_prop in H5. split_and!; done.
Qed.

(** The fields of [ngx_gmtime], from the day [days] after March of the year 0
    and the year [y] that begins in March. *)
Lemma gmtime_date days y sec min hour :
  719468 <= days <= 3652364 -> 0 <= y -> gauss_year y <= days < gauss_year (y + 1) ->
  0 <= sec < 60 -> 0 <= min < 60 -> 0 <= hour < 24 ->
  let yday := days - gauss_year y in
  let m := (yday + 31) * 10 / 306 in
  let d := yday - (367 * m / 12 - 30) + 1 in
  let month := if 306 <=? yday then m - 11 else m + 1 in
  let year := if 306 <=? yday then y + 1 else y in
  0 <= yday < 366 /\ 1970 <= year <= 9999 /\ valid_date d month year hour min sec /\
  epoch_seconds d month year hour min sec = (days - 719468) * 86400 + hour * 3600 + min * 60 + sec.
Proof.
  intros Hd Hy Hdays Hs Hmi Hh yday m d month year.
  assert (yday = days - gauss_year y) as Eyday by done. clearbody yday.
  pose proof (gauss_year_step y Hy) as Hstep. unfold year_days in Hstep.
  pose proof (gauss_year_cycle y Hy) as Hc1. pose proof (gauss_year_cycle (y + 1) ltac:(lia)) as Hc2.
  assert (0 <= yday < 365 + Z.b2z (is_leap (y + 1))) as Hyd by lia.
  assert (yday < 366) as Hyd' by (destruct (is_leap (y + 1)); cbn in Hyd; lia).
  pose proof (gmtime_month yday ltac:(lia)) as Q. cbv zeta in Q. fold m in Q. fold d in Q. fold month in Q.
  destruct Q as (Hm & Hmonth & Hjan & Hday1 & Hday2).
  assert (y = 1969 -> gauss_year y = 719162) as H1969 by (intros ->; reflexivity).
  assert (y = 9999 -> gauss_year y = 3652059) as H9999 by (intros ->; reflexivity).
  assert (1970 <= year <= 9999) as Hyear.
  { assert (1969 <= y <= 9999) as Hyr by lia. subst year. destruct (Z.leb_spec 306 yday); lia. }
  assert (valid_date d month year hour min sec) as Hv.
  { split_and!; try lia. unfold month_days. destruct (Z.eqb_spec yday 365) as [E | E].
    - assert (year = y + 1) as Ey by (subst year; destruct (Z.leb_spec 306 yday); lia).
      assert (is_leap (y + 1) = true) as Hl by (destruct (is_leap (y + 1)); [done | cbn in Hyd; lia]).
      assert (month = 1) as Em by (unfold month, m; rewrite E; reflexivity).
      rewrite Em, Ey, Hl. rewrite Em in Hday2. exact Hday2.
    - cbn [Z.b2z] in Hday2. pose proof (b2z_range (is_leap year && (month =? 1))). lia. }
  split_and!; try lia; try done.
  rewrite <- gauss_epoch by (destruct Hv; lia). rewrite gauss_time_formula by (destruct Hv; lia).
  rewrite Hjan. assert ((if 306 <=? yday then year - 1 else year) = y) as -> by (subst year; destruct (Z.leb_spec 306 yday); lia).
  assert ((if 306 <=? yday then month + 11 else month - 1) = m) as -> by (subst month; destruct (Z.leb_spec 306 yday); lia).
  unfold d. lia.
Qed.

Lemma gmtime_spec t :
  0 <= t <= last_second ->
  let tm := ngx_gmtime t in
  1970 <= ngx_tm_year tm <= 9999 /\
  valid_date (ngx_tm_mday tm) (ngx_tm_mon tm - 1) (ngx_tm_year tm) (ngx_tm_hour tm) (ngx_tm_min tm) (ngx_tm_sec tm) /\
  epoch_seconds (ngx_tm_mday tm) (ngx_tm_mon tm - 1) (ngx_tm_year tm) (ngx_tm_hour tm) (ngx_tm_min tm) (ngx_tm_sec tm) = t /\
  ngx_tm_wday tm = (4 + t / 86400) mod 7.
Proof.
  intros Ht. unfold ngx_gmtime. cbv zeta. unfold last_second in Ht.
  destruct (Z.ltb_spec t 0); [lia |].
  pose proof (Z.div_mod t 86400 ltac:(lia)) as Et. pose proof (Z.mod_pos_bound t 86400 ltac:(lia)) as Hts.
  set (days := t / 86400) in *. set (sec := t mod 86400) in *.
  destruct (Z.ltb_spec 2932896 days); [lia |].
  assert (0 <= days) by lia.
  rewrite (u64_small (days - (31 + 28) + 719527)) by lia.
  set (D := days - (31 + 28) + 719527). change (365 * 400 + 100 - 4 + 1) with 146097.
  pose proof (gmtime_year D ltac:(lia)) as Hy. cbv zeta in Hy. set (y := (D + 2) * 400 / 146097) in *.
  fold (gauss_year y). destruct Hy as (Hy0 & Hy1 & Hy2).
  pose proof (gauss_year_step y ltac:(lia)) as Hstep. unfold year_days in Hstep.
  pose proof (gauss_year_cycle y ltac:(lia)) as Hc1. pose proof (gauss_year_cycle (y + 1) ltac:(lia)) as Hc2.
  rewrite (signed_u64 (D - gauss_year y)) by lia.
  (* the year that the day falls into *)
  assert (exists y', 0 <= y' < 12000 /\ gauss_year y' <= D < gauss_year (y' + 1) /\
    (if D - gauss_year y <? 0 then
      (signed 64 (u64 (365 + Z.b2z ((y mod 4 =? 0) && (negb (y mod 100 =? 0) || (y mod 400 =? 0))) + (D - gauss_year y))), u64 (y - 1))
    else (D - gauss_year y, y)) = (D - gauss_year y', y')) as (y' & Hy' & HD & ->).
  { fold (is_leap y). destruct (Z.ltb_spec (D - gauss_year y) 0); [| exists y; split_and!; try done; lia].
    assert (0 < y) by (destruct (decide (y = 0)) as [E0 | E0]; [rewrite E0 in *; change (gauss_year 0) with 0 in *; lia | lia]).
    pose proof (gauss_year_step (y - 1) ltac:(lia)) as Hstep'. unfold year_days in Hstep'.
    replace (y - 1 + 1) with y in Hstep' by lia. pose proof (b2z_range (is_leap y)).
    exists (y - 1). rewrite signed_u64, u64_small by lia. replace (y - 1 + 1) with y by lia.
    split_and!; try lia. f_equal. lia. }
  pose proof (gmtime_date D y' (sec mod 3600 mod 60) (sec mod 3600 / 60) (sec / 3600)) as Q. cbv zeta in Q.
  assert (0 <= sec mod 3600 mod 60 < 60 /\ 0 <= sec mod 3600 / 60 < 60 /\ 0 <= sec / 3600 < 24 /\
    sec / 3600 * 3600 + sec mod 3600 / 60 * 60 + sec mod 3600 mod 60 = sec) as (Hsec & Hmin & Hhour & Hsum)
    by (Z.to_euclidean_division_equations; lia).
  specialize (Q ltac:(lia) ltac:(lia) HD Hsec Hmin Hhour). destruct Q as (Hyday & Hyear & Hvalid & Hepoch).
  set (yday := D - gauss_year y') in *.
  rewrite Z.quot_div_nonneg by lia. pose proof (gmtime_month yday ltac:(lia)) as Q. cbv zeta in Q.
  set (m := (yday + 31) * 10 / 306) in *. destruct Q as (Hm & Hmonth & _ & Hd & _).
  rewrite (u64_small m) by lia. rewrite (u64_small (yday - (367 * m / 12 - 30) + 1)) by lia.
  assert ((if 306 <=? yday then (u64 (y' + 1), u64 (m - 10)) else (y', u64 (m + 2))) =
    (if 306 <=? yday then y' + 1 else y', (if 306 <=? yday then m - 11 else m + 1) + 1)) as ->.
  { destruct (Z.leb_spec 306 yday); rewrite ?u64_small by lia; f_equal; lia. }
  cbn [ngx_tm_sec ngx_tm_min ngx_tm_hour ngx_tm_mday ngx_tm_mon ngx_tm_year ngx_tm_wday].
  set (month := if 306 <=? yday then m - 11 else m + 1) in *. set (year := if 306 <=? yday then y' + 1 else y') in *.
  pose proof (Z.mod_pos_bound (4 + days) 7 ltac:(lia)) as Hw.
  rewrite !signed_small by lia. replace (month + 1 - 1) with month by lia.
  split_and!; try done; try lia. 
Qed.

(** ** Dates as text *)

Definition d2 (n : Z) : list Z := [chr "0" + n / 10; chr "0" + n mod 10].
Definition d4 (n : Z) : list Z := d2 (n / 100) ++ d2 (n mod 100).

Definition month_name (m : Z) : list Z := nth (Z.to_nat m) months [].

Record date := mk_date { d_day : Z; d_month : Z; d_year : Z; d_hour : Z; d_min : Z; d_sec : Z }.

Definition clock_text (x : date) : list Z :=
  chr " " :: d2 (d_hour x) ++ chr ":" :: d2 (d_min x) ++ chr ":" :: d2 (d_sec x).

(** The third format has a day of one digit with a space in front of it, or
    without. *)
Definition isoc_day_text (pad : bool) (day : Z) : list Z :=
  if day <? 10 then (if pad then [chr " "] else []) ++ [chr "0" + day] else d2 day.

(** The three formats, from the first digit or the month on. *)
Definition date_text (f : time_format) (pad : bool) (x : date) : list Z :=
  match f with
  | isoc => month_name (d_month x) ++ chr " " :: isoc_day_text pad (d_day x) ++ clock_text x ++ chr " " :: d4 (d_year x)
  | rfc850 => d2 (d_day x) ++ chr "-" :: month_name (d_month x) ++ chr "-" :: d2 (d_year x mod 100) ++ clock_text x
  | _ => d2 (d_day x) ++ chr " " :: month_name (d_month x) ++ chr " " :: d4 (d_year x) ++ clock_text x
  end.

(** The numbers have the digits that the format has for them. *)
Definition date_digits (f : time_format) (x : date) : Prop :=
  0 <= d_month x < 12 /\ 0 <= d_day x < 100 /\ 0 <= d_hour x < 100 /\ 0 <= d_min x < 100 /\ 0 <= d_sec x < 100 /\
  match f with rfc850 => 1970 <= d_year x < 2070 | _ => 0 < d_year x < 10000 end.

Definition date_valid (x : date) : bool :=
  (d_day x <=? month_days (d_year x) (d_month x)) && (d_hour x <? 24) && (d_min x <? 60) && (d_sec x <? 60).

Definition date_seconds (x : date) : Z :=
  epoch_seconds (d_day x) (d_month x) (d_year x) (d_hour x) (d_min x) (d_sec x).

(** The day of the week, what ends it, and spaces. *)
Definition weekday_text (f : time_format) (wd : list Z) (spaces : nat) : list Z :=
  wd ++ (if bool_decide (f = isoc) then chr " " else chr ",") :: repeat (chr " ") spaces.

(** *** Reading the pieces *)

Section Pieces.
Context (M : mem).

Lemma read_char p c l : holds M p (c :: l) -> M p = c /\ holds M (p + 1) l.
Proof. done. Qed.

Lemma read_d2 p n l : 0 <= n < 100 -> holds M p (d2 n ++ l) -> two_digits M p = Some n /\ holds M (p + 2) l.
Proof.
  intros Hn (H1 & H2 & H). replace (p + 1 + 1) with (p + 2) in H by lia. split; [| done].
  unfold two_digits. rewrite H1, H2.
  assert (0 <= n / 10 < 10 /\ 0 <= n mod 10 < 10 /\ n = 10 * (n / 10) + n mod 10) as (? & ? & E)
    by (Z.to_euclidean_division_equations; lia).
  destruct (_ || _) eqn:Eb; [exfalso; lia |]. f_equal. lia.
Qed.

Lemma read_d4 p n l : 0 <= n < 10000 -> holds M p (d4 n ++ l) -> four_digits M p = Some n /\ holds M (p + 4) l.
Proof.
  intros Hn (H1 & H2 & H3 & H4 & H). split; [| replace (p + 4) with (p + 1 + 1 + 1 + 1) by lia; done].
  replace (p + 1 + 1) with (p + 2) in * by lia. replace (p + 2 + 1) with (p + 3) in * by lia.
  unfold four_digits. rewrite H1, H2, H3, H4.
  assert (0 <= n / 100 / 10 < 10 /\ 0 <= n / 100 mod 10 < 10 /\ 0 <= n mod 100 / 10 < 10 /\ 0 <= n mod 100 mod 10 < 10 /\
    n = 1000 * (n / 100 / 10) + 100 * (n / 100 mod 10) + 10 * (n mod 100 / 10) + n mod 100 mod 10)
    as (? & ? & ? & ? & E) by (Z.to_euclidean_division_equations; lia).
  destruct (_ || _) eqn:Eb; [exfalso; lia |]. f_equal. lia.
Qed.

Lemma read_month p m l : 0 <= m < 12 -> holds M p (month_name m ++ l) -> time_month M p = Some m /\ holds M (p + 3) l.
Proof.
  intros Hm H. assert (exists a b c, month_name m = [a; b; c]) as (a & b & c & E) by (twelve m; repeat eexists).
  rewrite E in H. destruct H as (H1 & H2 & H3 & H). replace (p + 3) with (p + 1 + 1 + 1) by lia. split; [| done].
  unfold time_month. replace (p + 2) with (p + 1 + 1) by lia. rewrite H1, H2, H3.
  twelve m; injection E as <- <- <-; reflexivity.
Qed.

Lemma read_clock p x l :
  0 <= d_hour x < 100 -> 0 <= d_min x < 100 -> 0 <= d_sec x < 100 -> holds M p (clock_text x ++ l) ->
  time_clock M p = Some (p + 7, d_hour x, d_min x, d_sec x) /\ holds M (p + 9) l.
Proof.
  intros Hh Hm Hs H. unfold clock_text in H. rewrite <- !List.app_comm_cons, <- !List.app_assoc in H.
  unfold time_clock. apply read_char in H as [-> H]. cbn [negb Z.eqb Pos.eqb].
  apply read_d2 in H as [-> H]; [| done]. cbn [mbind option_bind]. apply read_char in H as [-> H]. cbn [negb Z.eqb Pos.eqb].
  apply read_d2 in H as [-> H]; [| done]. cbn [mbind option_bind]. apply read_char in H as [-> H]. cbn [negb Z.eqb Pos.eqb].
  apply read_d2 in H as [-> H]; [| done]. cbn [mbind option_bind]. split; [replace (p + 7) with (p + 1 + 2 + 1 + 2 + 1) by lia; done |].
  replace (p + 9) with (p + 1 + 2 + 1 + 2 + 1 + 2) by lia. done.
Qed.

Lemma read_weekday wd c l p n :
  Forall (fun c => c <> chr "," /\ c <> chr " ") wd -> c = chr "," \/ c = chr " " ->
  holds M p (wd ++ c :: l) -> (length wd < n)%nat ->
  skip_weekday n M p = (p + Z.of_nat (length wd), if c =? chr " " then isoc else no) /\
  holds M (p + Z.of_nat (length wd) + 1) l.
Proof.
  intros Hwd Hc. revert p n. induction Hwd as [| d wd [Hd1 Hd2] _ IH]; intros p n H Hn; (destruct n as [| n]; [cbn in Hn; lia |]).
  - destruct H as [H1 H2]. cbn [skip_weekday length]. rewrite H1, Z.add_0_r.
    split; [destruct Hc as [-> | ->]; reflexivity | done].
  - destruct H as [H1 H2]. cbn [skip_weekday]. rewrite H1.
    destruct (Z.eqb_spec d (chr ",")); [done |]. destruct (Z.eqb_spec d (chr " ")); [done |].
    replace (p + Z.of_nat (length (d :: wd))) with (p + 1 + Z.of_nat (length wd)) by (cbn; lia).
    apply IH; [done | cbn in Hn; lia].
Qed.

Lemma read_spaces k c l p n :
  c <> chr " " -> holds M p (repeat (chr " ") k ++ c :: l) -> (k < n)%nat ->
  skip_spaces n M p = p + Z.of_nat k /\ holds M (p + Z.of_nat k) (c :: l).
Proof.
  intros Hc. revert p n. induction k as [| k IH]; intros p n H Hn; (destruct n as [| n]; [lia |]).
  - destruct H as [H1 H2]. cbn [skip_spaces]. rewrite H1, Z.add_0_r. now destruct (Z.eqb_spec c (chr " ")).
  - destruct H as [H1 H2]. cbn [skip_spaces]. rewrite H1. cbn [Z.eqb Pos.eqb].
    replace (p + Z.of_nat (S k)) with (p + 1 + Z.of_nat k) by lia. apply IH; [done | lia].
Qed.

End Pieces.

(** *** The three formats *)

Section Formats.
Context (M : mem) (p : Z) (x : date) (end_ : Z) (rest : list Z) (pad : bool).

(** What the parser gives for the date. *)
Definition date_result : option Z := if date_valid x then Some (date_seconds x) else None.

Lemma finish_date fmt :
  date_digits fmt x ->
  (if time_valid (d_day x) (d_month x) (d_year x) (d_hour x) (d_min x) (d_sec x)
   then Some (gauss_time (d_day x) (d_month x) (d_year x) (d_hour x) (d_min x) (d_sec x)) else None) = date_result.
Proof.
  intros (Hm & Hd & Hh & Hmi & Hs & Hy). rewrite time_valid_spec by lia. unfold date_result. fold (date_valid x).
  destruct (date_valid x) eqn:E; [| done]. unfold date_valid in E. f_equal.
  apply gauss_epoch; try lia. destruct fmt; lia.
Qed.

Ltac next_char H := apply read_char in H as [-> H]; cbn [Z.eqb Pos.eqb negb andb orb mbind option_bind].

Lemma parse_rfc822 :
  date_digits rfc822 x -> holds M p (date_text rfc822 pad x ++ rest) ->
  p + Z.of_nat (length (date_text rfc822 pad x)) <= end_ -> parse_date M p end_ no = date_result.
Proof.
  intros Hx H Hend. pose proof Hx as (Hm & Hd & Hh & Hmi & Hs & Hy).
  assert (length (date_text rfc822 pad x) = 20%nat) as Hl.
  { cbn [date_text]. rewrite List.length_app. cbn [length]. rewrite List.length_app.
    assert (length (month_name (d_month x)) = 3%nat) as -> by (destruct x as [? m ? ? ? ?]; cbn in *; twelve m; reflexivity).
    reflexivity. }
  rewrite Hl in Hend. cbn [date_text] in H. rewrite <- !List.app_assoc in H.
  unfold parse_date, time_day. destruct (Z.ltb_spec (end_ - p) 18); [lia |].
  rewrite bool_decide_false by done.
  apply read_d2 in H as [-> H]; [| done]. cbn [mbind option_bind].
  rewrite <- !List.app_comm_cons, <- !List.app_assoc in H. next_char H.
  destruct (Z.ltb_spec (end_ - (p + 2)) 18); [lia |]. cbn [mbind option_bind].
  apply read_month in H as [-> H]; [| done]. cbn [mbind option_bind].
  rewrite <- !List.app_comm_cons, <- !List.app_assoc in H. next_char H.
  rewrite (bool_decide_true (rfc822 = rfc822)), (bool_decide_false (rfc822 = rfc850)) by done. cbn [negb andb orb].
  cbn [time_year]. apply read_d4 in H as [-> H]; [| lia]. cbn [mbind option_bind].
  unfold isoc_day, isoc_year. rewrite (bool_decide_false (rfc822 = isoc)) by done. cbn [negb mbind option_bind].
  apply read_clock in H as [-> H]; [| done..]. cbn [mbind option_bind]. now apply (finish_date rfc822).
Qed.

Lemma parse_rfc850 :
  date_digits rfc850 x -> holds M p (date_text rfc850 pad x ++ rest) ->
  p + Z.of_nat (length (date_text rfc850 pad x)) <= end_ -> parse_date M p end_ no = date_result.
Proof.
  intros Hx H Hend. pose proof Hx as (Hm & Hd & Hh & Hmi & Hs & Hy).
  assert (length (date_text rfc850 pad x) = 18%nat) as Hl.
  { cbn [date_text]. rewrite List.length_app. cbn [length]. rewrite List.length_app.
    assert (length (month_name (d_month x)) = 3%nat) as -> by (destruct x as [? m ? ? ? ?]; cbn in *; twelve m; reflexivity).
    reflexivity. }
  rewrite Hl in Hend. cbn [date_text] in H. rewrite <- !List.app_assoc in H.
  unfold parse_date, time_day. destruct (Z.ltb_spec (end_ - p) 18); [lia |].
  rewrite bool_decide_false by done.
  apply read_d2 in H as [-> H]; [| done]. cbn [mbind option_bind].
  rewrite <- !List.app_comm_cons, <- !List.app_assoc in H. next_char H.
  apply read_month in H as [-> H]; [| done]. cbn [mbind option_bind].
  rewrite <- !List.app_comm_cons, <- !List.app_assoc in H. next_char H.
  rewrite (bool_decide_false (rfc850 = rfc822)), (bool_decide_true (rfc850 = rfc850)) by done. cbn [negb andb orb].
  cbn [time_year]. apply read_d2 in H as [-> H]; [| apply Z.mod_pos_bound; lia]. cbn [mbind option_bind].
  assert (d_year x mod 100 + (if d_year x mod 100 <? 70 then 2000 else 1900) = d_year x) as ->.
  { destruct (Z.ltb_spec (d_year x mod 100) 70); Z.to_euclidean_division_equations; lia. }
  unfold isoc_day, isoc_year. rewrite (bool_decide_false (rfc850 = isoc)) by done. cbn [negb mbind option_bind].
  apply read_clock in H as [-> H]; [| done..]. cbn [mbind option_bind]. now apply (finish_date rfc850).
Qed.

Lemma read_isoc_day q l :
  0 <= d_day x < 100 -> holds M q (isoc_day_text pad (d_day x) ++ clock_text x ++ l) ->
  q + Z.of_nat (length (isoc_day_text pad (d_day x))) + 14 <= end_ ->
  exists q', isoc_day M q end_ isoc 32 = Some (q', d_day x) /\ holds M q' (clock_text x ++ l).
Proof.
  intros Hd H Hend. unfold isoc_day. rewrite bool_decide_true by done. cbn [negb]. unfold isoc_day_text in *.
  destruct (Z.ltb_spec (d_day x) 10) as [Hd1 | Hd1].
  - assert (exists q1, (if M q =? chr " " then q + 1 else q) = q1 /\ holds M q1 ((chr "0" + d_day x) :: clock_text x ++ l) /\ q1 + 15 <= end_)
      as (q1 & -> & H1 & Hq1).
    { destruct pad; cbn [List.app length] in *.
      - next_char H. exists (q + 1). split_and!; [done | done | lia].
      - pose proof (proj1 H) as ->. exists q. destruct (Z.eqb_spec (chr "0" + d_day x) (chr " ")); [lia |].
        split_and!; [done | done | lia]. }
    apply read_char in H1 as [-> H1].
    destruct (_ || _) eqn:Eb; [exfalso; lia |]. pose proof (proj1 H1) as ->. cbn [Z.eqb Pos.eqb mbind option_bind].
    destruct (Z.ltb_spec (end_ - (q1 + 1)) 14); [lia |]. exists (q1 + 1). split; [do 2 f_equal; lia | done].
  - destruct H as (H1 & H2 & H). rewrite H1.
    assert (0 <= d_day x / 10 < 10 /\ 0 <= d_day x mod 10 < 10 /\ d_day x = 10 * (d_day x / 10) + d_day x mod 10)
      as (? & ? & E) by (Z.to_euclidean_division_equations; lia).
    destruct (Z.eqb_spec (chr "0" + d_day x / 10) (chr " ")); [lia |]. rewrite H1, H2.
    destruct (_ || _) eqn:Eb; [exfalso; lia |].
    destruct (Z.eqb_spec (chr "0" + d_day x mod 10) (chr " ")); [lia |]. clear Eb.
    destruct (_ || _) eqn:Eb; [exfalso; lia |]. cbn [mbind option_bind d2 length] in *.
    destruct (Z.ltb_spec (end_ - (q + 1 + 1)) 14); [lia |].
    exists (q + 1 + 1). split; [do 2 f_equal; lia | done].
Qed.

Lemma parse_isoc :
  date_digits isoc x -> holds M p (date_text isoc pad x ++ rest) ->
  p + Z.of_nat (length (date_text isoc pad x)) <= end_ -> parse_date M p end_ isoc = date_result.
Proof.
  intros Hx H Hend. pose proof Hx as (Hm & Hd & Hh & Hmi & Hs & Hy).
  assert (Z.of_nat (length (date_text isoc pad x)) = 18 + Z.of_nat (length (isoc_day_text pad (d_day x))) /\
    1 <= Z.of_nat (length (isoc_day_text pad (d_day x)))) as [Hl Hl1].
  { cbn [date_text]. rewrite List.length_app. cbn [length]. rewrite !List.length_app.
    assert (length (month_name (d_month x)) = 3%nat) as -> by (destruct x as [? m ? ? ? ?]; cbn in *; twelve m; reflexivity).
    cbn. split; [lia |]. unfold isoc_day_text. destruct (d_day x <? 10), pad; cbn; lia. }
  rewrite Hl in Hend. cbn [date_text] in H. rewrite <- !List.app_assoc in H.
  unfold parse_date, time_day. destruct (Z.ltb_spec (end_ - p) 18); [lia |].
  rewrite bool_decide_true by done. cbn [mbind option_bind].
  apply read_month in H as [-> H]; [| done]. cbn [mbind option_bind].
  rewrite <- !List.app_comm_cons, <- !List.app_assoc in H.
  rewrite (bool_decide_false (isoc = rfc822)), (bool_decide_false (isoc = rfc850)) by done. cbn [negb andb orb time_year mbind option_bind].
  apply read_char in H as [_ H]. apply read_isoc_day in H as (q' & -> & H); [| done | lia]. cbn [mbind option_bind].
  apply read_clock in H as [-> H]; [| done..]. cbn [mbind option_bind].
  unfold isoc_year. rewrite bool_decide_true by done. cbn [negb].
  replace (q' + 7 + 2) with (q' + 9) by lia. rewrite <- !List.app_comm_cons in H. next_char H.
  apply read_d4 in H as [-> H]; [| lia]. cbn [mbind option_bind]. now apply (finish_date isoc).
Qed.

End Formats.

(** *** The whole value *)

Definition date_length_le (f : time_format) : nat := match f with rfc850 => 18 | _ => 20 end.

Lemma date_text_head f pad x :
  f <> no -> date_digits f x -> exists c l, date_text f pad x = c :: l /\ c <> chr " ".
Proof.
  intros Hf (Hm & Hd & _). destruct f; [done | | |]; cbn [date_text].
  - exists (chr "0" + d_day x / 10). eexists. split; [reflexivity |]. Z.to_euclidean_division_equations; lia.
  - exists (chr "0" + d_day x / 10). eexists. split; [reflexivity |]. Z.to_euclidean_division_equations; lia.
  - destruct x as [? m ? ? ? ?]; cbn in *. twelve m; eexists _, _; (split; [reflexivity | discriminate]).
Qed.

Lemma parse_date_text M p end_ f pad x rest :
  f <> no -> date_digits f x -> holds M p (date_text f pad x ++ rest) ->
  p + Z.of_nat (length (date_text f pad x)) <= end_ ->
  parse_date M p end_ (if bool_decide (f = isoc) then isoc else no) = date_result x.
Proof.
  intros Hf Hx H Hend. destruct f; [done | rewrite bool_decide_false by done.. | rewrite bool_decide_true by done].
  - eapply parse_rfc822; eassumption.
  - eapply parse_rfc850; eassumption.
  - eapply parse_isoc; eassumption.
Qed.

Lemma parse_http_time_spec M value len f wd spaces pad x rest :
  f <> no -> Forall (fun c => c <> chr "," /\ c <> chr " ") wd -> date_digits f x ->
  holds M value (weekday_text f wd spaces ++ date_text f pad x ++ rest) ->
  Z.of_nat (length (weekday_text f wd spaces) + length (date_text f pad x)) <= len ->
  ngx_parse_http_time M value len = default NGX_ERROR (date_result x).
Proof.
  intros Hf Hwd Hx H Hlen. unfold weekday_text in *. rewrite <- List.app_assoc, <- List.app_comm_cons in H.
  rewrite List.length_app in Hlen. cbn [length] in Hlen. rewrite List.repeat_length in Hlen.
  set (c := if bool_decide (f = isoc) then chr " " else chr ",") in *.
  assert (c = chr "," \/ c = chr " ") as Hc by (unfold c; destruct (bool_decide _); auto).
  unfold ngx_parse_http_time. cbv zeta.
  apply (read_weekday M wd c _ value (Z.to_nat (value + len - value))) in H as [-> H]; [| done | done | lia].
  destruct (date_text_head f pad x Hf Hx) as (d & l & Ed & Hd).
  assert (holds M (value + Z.of_nat (length wd) + 1) (repeat (chr " ") spaces ++ d :: (l ++ rest))) as H'
    by (rewrite Ed in H; exact H).
  apply (read_spaces M spaces d _ _ (Z.to_nat (value + len - (value + Z.of_nat (length wd) + 1)))) in H' as [-> H'];
    [| done | rewrite Ed in Hlen; cbn in Hlen; lia].
  change (d :: (l ++ rest)) with ((d :: l) ++ rest) in H'. rewrite <- Ed in H'. f_equal.
  assert ((if c =? chr " " then isoc else no) = (if bool_decide (f = isoc) then isoc else no)) as ->
    by (unfold c; destruct (bool_decide _); reflexivity).
  eapply parse_date_text; [done | done | exact H' | lia].
Qed.

(** ** Printing *)

Lemma copy_terminated_all l room :
  Forall (fun c => c <> 0) l -> Z.of_nat (length l) <= room -> copy_terminated (l ++ [0]) room = Some l.
Proof.
  intros H. revert room. induction H as [| c l Hc _ IH]; intros room Hr; cbn [copy_terminated List.app]; [reflexivity |].
  cbn [length] in Hr. destruct (Z.eqb_spec c 0); [done |]. destruct (Z.ltb_spec 0 room); [| lia]. cbn [negb andb].
  now rewrite IH by lia.
Qed.

Lemma conversion_literal R l rest args :
  Forall (fun c => c <> 0) l -> Z.of_nat (length l) <= R ->
  conversion R (chr "s" :: rest) (VLit l :: args) = Some (l, rest, args).
Proof.
  intros Hl HR. transitivity (out ← copy_terminated (l ++ [0]) R; Some (out, rest, args)); [reflexivity |].
  now rewrite copy_terminated_all.
Qed.

Lemma num_digits_d2 n : 0 <= n < 100 -> option_map (padded (chr "0") 2) (num_digits n 0) = Some (d2 n).
Proof.
  intros Hn.
  assert (forallb (fun k => bool_decide (option_map (padded (chr "0") 2) (num_digits (Z.of_nat k) 0) = Some (d2 (Z.of_nat k))))
    (seq 0 100) = true) as Q by reflexivity.
  rewrite forallb_forall in Q. specialize (Q (Z.to_nat n)). rewrite in_seq, Z2Nat.id in Q by lia.
  specialize (Q ltac:(lia)). now apply bool_decide_eq_true in Q.
Qed.

Lemma conversion_02d R n rest args :
  0 <= n < 100 -> 2 <= R -> conversion R (chr "0" :: chr "2" :: chr "d" :: rest) (VInt n :: args) = Some (d2 n, rest, args).
Proof.
  intros Hn HR. change (chr "0" :: chr "2" :: chr "d" :: rest) with (width_text true 2 ++ str "d" ++ rest).
  rewrite (proj2 (conversion_number true 2 rest n args R ltac:(lia))). rewrite signed_small by lia.
  unfold print_integer. destruct (Z.ltb_spec n 0); [lia |]. cbn [andb cv_zero cv_hex cv_width pad_char].
  rewrite u64_small by lia. rewrite sprintf_num_cut by lia. pose proof (num_digits_d2 n Hn) as E.
  destruct (num_digits n 0); [| done]. injection E as E. cbn [fmap option_fmap option_map mbind option_bind]. rewrite E.
  now rewrite cut_all by (cbn; lia).
Qed.

Lemma dec_digits_step room n p :
  dec_digits (S room) n p = if n / 10 =? 0 then Some (n mod 10 + chr "0" :: p) else dec_digits room (n / 10) (n mod 10 + chr "0" :: p).
Proof. reflexivity. Qed.

Lemma num_digits_d4 n : 1000 <= n < 10000 -> num_digits n 0 = Some (d4 n).
Proof.
  intros Hn. unfold num_digits. cbn [Z.eqb]. unfold NGX_MAX_UINT32_VALUE. destruct (Z.leb_spec n 0xffffffff); [| lia].
  unfold unsigned. rewrite Z.mod_small by lia. change NGX_INT64_LEN with (S (S (S (S 16)))). rewrite !dec_digits_step.
  rewrite !Z.div_div by lia. change (10 * 10 * 10) with 1000. change (10 * 10) with 100. change (10 * 1000) with 10000.
  change (1000 * 10) with 10000.
  assert (n / 10 <> 0 /\ n / 100 <> 0 /\ n / 1000 <> 0 /\ n / 10000 = 0) as (H1 & H2 & H3 & H4)
    by (Z.to_euclidean_division_equations; lia).
  destruct (Z.eqb_spec (n / 10) 0); [done |]. destruct (Z.eqb_spec (n / 100) 0); [done |].
  destruct (Z.eqb_spec (n / 1000) 0); [done |]. rewrite H4. cbn [Z.eqb]. unfold d4, d2. cbn [List.app].
  f_equal. repeat (f_equal; [Z.to_euclidean_division_equations; lia |]).
  f_equal. Z.to_euclidean_division_equations; lia.
Qed.

Lemma conversion_4d R n rest args :
  1000 <= n < 10000 -> 4 <= R -> conversion R (chr "4" :: chr "d" :: rest) (VInt n :: args) = Some (d4 n, rest, args).
Proof.
  intros Hn HR. change (chr "4" :: chr "d" :: rest) with (width_text false 4 ++ str "d" ++ rest).
  rewrite (proj2 (conversion_number false 4 rest n args R ltac:(lia))). rewrite signed_small by lia.
  unfold print_integer. destruct (Z.ltb_spec n 0); [lia |]. cbn [andb cv_zero cv_hex cv_width pad_char].
  rewrite u64_small by lia. rewrite (sprintf_num_all _ _ _ _ _ _ (num_digits_d4 n Hn)) by (cbn; lia). reflexivity.
Qed.

(** The date that [ngx_gmtime] gives. *)
Definition date_of (tm : ngx_tm) : date :=
  mk_date (ngx_tm_mday tm) (ngx_tm_mon tm - 1) (ngx_tm_year tm) (ngx_tm_hour tm) (ngx_tm_min tm) (ngx_tm_sec tm).

Definition weekday_of (tm : ngx_tm) : list Z := nth (Z.to_nat (ngx_tm_wday tm)) week [].

(** A name of a day or month: three letters. *)
Definition three_letters (l : list Z) : Prop :=
  length l = 3%nat /\ Forall (fun c => c <> 0 /\ c <> chr "," /\ c <> chr " ") l.

Lemma week_letters d : 0 <= d < 7 -> three_letters (nth (Z.to_nat d) week []).
Proof.
  intros Hd. assert (d = 0 \/ d = 1 \/ d = 2 \/ d = 3 \/ d = 4 \/ d = 5 \/ d = 6) as H by lia.
  repeat (destruct H as [-> | H]); [.. | subst d]; split; try reflexivity; repeat constructor; discriminate.
Qed.

Lemma month_letters m : 0 <= m < 12 -> three_letters (month_name m).
Proof. intros Hm. twelve m; split; try reflexivity; repeat constructor; discriminate. Qed.

Lemma letters_nonzero l : three_letters l -> Forall (fun c => c <> 0) l.
Proof. intros [_ H]. eapply Forall_impl; [| exact H]. now intros c (H1 & _). Qed.

Lemma d2_length n : length (d2 n) = 2%nat.
Proof. reflexivity. Qed.

Lemma d4_length n : length (d4 n) = 4%nat.
Proof. reflexivity. Qed.

Lemma conversion_name R l rest args :
  three_letters l -> 3 <= R -> conversion R (chr "s" :: rest) (VLit l :: args) = Some (l, rest, args).
Proof. intros Hl HR. apply conversion_literal; [now apply letters_nonzero |]. rewrite (proj1 Hl). lia. Qed.

(** One round of the loop over a format. *)
Ltac conv_step L := erewrite loop_conversion; [| lia | apply L; first [lia | assumption]]; rewrite ?d2_length, ?d4_length.
Ltac char_step := rewrite loop_char by first [lia | discriminate].

Lemma http_time_text buf t :
  0 <= t <= last_second -> 0 <= buf < 2 ^ 63 ->
  let tm := ngx_gmtime t in
  ngx_http_time buf t = Some (weekday_text rfc822 (weekday_of tm) 1 ++ date_text rfc822 false (date_of tm) ++ str " GMT").
Proof.
  intros Ht Hbuf. cbv zeta. pose proof (gmtime_spec t Ht) as (Hy & Hv & _ & Hw). cbv zeta in Hy, Hv, Hw.
  unfold ngx_http_time. cbv zeta. set (tm := ngx_gmtime t) in *. destruct Hv as (Hm & Hd & Hh & Hmi & Hs).
  pose proof (month_days_range (ngx_tm_year tm) (ngx_tm_mon tm - 1) Hm) as Hmd.
  assert (0 <= ngx_tm_wday tm < 7) as Hw' by (rewrite Hw; apply Z.mod_pos_bound; lia).
  pose proof (week_letters _ Hw') as Lw. fold (weekday_of tm) in Lw |- *. pose proof (month_letters _ Hm) as Lm.
  fold (month_name (ngx_tm_mon tm - 1)).
  unfold ngx_sprintf, ngx_vslprintf. set (R := 2 ^ 64 - 1 - buf). assert (1000 < R) as HR by (unfold R; lia). clearbody R.
  cbn [length app]. pose proof (proj1 Lw) as Hlw. pose proof (proj1 Lm) as Hlm.
  conv_step conversion_name. rewrite Hlw. char_step. char_step.
  conv_step conversion_02d. char_step.
  conv_step conversion_name. rewrite Hlm. char_step.
  conv_step conversion_4d. do 3 (char_step; conv_step conversion_02d). do 4 char_step.
  unfold weekday_text, date_text, clock_text, date_of. cbn [d_day d_month d_year d_hour d_min d_sec].
  rewrite bool_decide_false by done. cbn [vslprintf_loop fmap option_fmap option_map repeat].
  f_equal. rewrite <- !List.app_assoc. cbn [app]. rewrite <- !List.app_assoc. reflexivity.
Qed.

(** ** Reads *)

Section Reads.
Context (M M' : mem) (a b : Z) (Hagree : agree M M' a b).

Lemma two_digits_ext p : a <= p -> p + 2 <= b -> two_digits M p = two_digits M' p.
Proof. intros H1 H2. unfold two_digits. now rewrite !(Hagree p), !(Hagree (p + 1)) by lia. Qed.

Lemma four_digits_ext p : a <= p -> p + 4 <= b -> four_digits M p = four_digits M' p.
Proof.
  intros H1 H2. unfold four_digits.
  now rewrite !(Hagree p), !(Hagree (p + 1)), !(Hagree (p + 2)), !(Hagree (p + 3)) by lia.
Qed.

Lemma time_month_ext p : a <= p -> p + 3 <= b -> time_month M p = time_month M' p.
Proof. intros H1 H2. unfold time_month. now rewrite !(Hagree p), !(Hagree (p + 1)), !(Hagree (p + 2)) by lia. Qed.

Lemma time_day_ext p fmt : a <= p -> p + 3 <= b -> time_day M p b fmt = time_day M' p b fmt.
Proof.
  intros H1 H2. unfold time_day. rewrite two_digits_ext by lia. destruct (bool_decide _); [done |].
  destruct (two_digits M' p); cbn; [| done]. now rewrite !(Hagree (p + 2)) by lia.
Qed.

Lemma time_day_room p fmt p' fmt' day :
  time_day M p b fmt = Some (p', fmt', day) ->
  match fmt' with
  | isoc => p' = p
  | rfc822 => p' = p + 3 /\ p + 20 <= b
  | rfc850 => p' = p + 3
  | no => False
  end.
Proof.
  unfold time_day. destruct (bool_decide _); [now intros [= <- <- <-] |].
  destruct (two_digits M p); cbn; [| done].
  destruct (M (p + 2) =? chr " "); [destruct (Z.ltb_spec (b - (p + 2)) 18); [done |] |].
  - intros [= <- <- <-]. lia.
  - destruct (M (p + 2) =? chr "-"); [| done]. intros [= <- <- <-]. lia.
Qed.

Lemma isoc_day_ext p fmt day :
  a <= p -> (fmt = isoc -> p + 3 <= b) -> isoc_day M p b fmt day = isoc_day M' p b fmt day.
Proof.
  intros H1 H2. unfold isoc_day. destruct (bool_decide_reflect (fmt = isoc)) as [E | _]; [| done]. specialize (H2 E). cbn [negb].
  rewrite (Hagree p) by lia. set (q := if M' p =? chr " " then p + 1 else p).
  assert (p <= q <= p + 1) by (unfold q; destruct (M' p =? chr " "); lia).
  rewrite !(Hagree q), !(Hagree (q + 1)) by lia. done.
Qed.

Lemma isoc_day_room p fmt day p' day' :
  isoc_day M p b fmt day = Some (p', day') -> if bool_decide (fmt = isoc) then p <= p' /\ p' + 14 <= b else p' = p.
Proof.
  unfold isoc_day. destruct (bool_decide _); cbn [negb]; [| now intros [= <- <-]].
  set (q := if M p =? chr " " then p + 1 else p).
  assert (p <= q <= p + 1) by (unfold q; destruct (M p =? chr " "); lia).
  destruct (_ || _); [done |]. destruct (M (q + 1) =? chr " "); cbn; [| destruct (_ || _); cbn; [done |]].
  - destruct (Z.ltb_spec (b - (q + 1)) 14); [done |]. intros [= <- <-]. lia.
  - destruct (Z.ltb_spec (b - (q + 1 + 1)) 14); [done |]. intros [= <- <-]. lia.
Qed.

Lemma time_clock_ext p : a <= p -> p + 9 <= b -> time_clock M p = time_clock M' p.
Proof.
  intros H1 H2. unfold time_clock. rewrite (Hagree p) by lia. destruct (negb _); [done |].
  rewrite (two_digits_ext (p + 1)) by lia. destruct (two_digits M' (p + 1)); cbn; [| done].
  rewrite (Hagree (p + 1 + 2)) by lia. destruct (negb _); [done |].
  rewrite (two_digits_ext (p + 1 + 2 + 1)) by lia. destruct (two_digits M' (p + 1 + 2 + 1)); cbn; [| done].
  rewrite (Hagree (p + 1 + 2 + 1 + 2)) by lia. destruct (negb _); [done |].
  now rewrite (two_digits_ext (p + 1 + 2 + 1 + 2 + 1)) by lia.
Qed.

Lemma time_clock_room p p' h m s : time_clock M p = Some (p', h, m, s) -> p' = p + 7.
Proof.
  unfold time_clock. destruct (negb _); [done |]. destruct (two_digits M (p + 1)); cbn; [| done].
  destruct (negb _); [done |]. destruct (two_digits M (p + 1 + 2 + 1)); cbn; [| done].
  destruct (negb _); [done |]. destruct (two_digits M (p + 1 + 2 + 1 + 2 + 1)); cbn; [| done]. intros [= <- _ _ _]. lia.
Qed.

Lemma time_year_ext p fmt :
  a <= p -> match fmt with rfc822 => p + 4 <= b | rfc850 => p + 2 <= b | _ => True end ->
  time_year M p fmt = time_year M' p fmt.
Proof. intros H1 H2. destruct fmt; cbn; [done | now rewrite four_digits_ext | now rewrite two_digits_ext | done]. Qed.

Lemma time_year_room p fmt p' y :
  time_year M p fmt = Some (p', y) -> p' = p + match fmt with rfc822 => 4 | rfc850 => 2 | _ => 0 end.
Proof.
  destruct fmt; cbn [time_year]; try (intros [= <- _]; lia).
  - destruct (four_digits M p); cbn; [intros [= <- _]; lia | done].
  - destruct (two_digits M p); cbn; [intros [= <- _]; lia | done].
Qed.

Lemma parse_date_ext p fmt : a <= p -> parse_date M p b fmt = parse_date M' p b fmt.
Proof.
  intros Hp. unfold parse_date. destruct (Z.ltb_spec (b - p) 18); [done |].
  rewrite <- time_day_ext by lia. destruct (time_day M p b fmt) as [[[p1 f] day] |] eqn:E1; cbn [mbind option_bind]; [| done].
  apply time_day_room in E1. assert (p <= p1 /\ p1 + 14 < b) as [Hp1 Hb1] by (destruct f; lia).
  rewrite <- time_month_ext by lia. destruct (time_month M p1) as [month |]; cbn [mbind option_bind]; [| done].
  rewrite (Hagree (p1 + 3)) by lia. destruct (_ || _); [done |].
  rewrite <- time_year_ext by (try destruct f; lia).
  destruct (time_year M (p1 + 3 + 1) f) as [[p2 y] |] eqn:E2; cbn [mbind option_bind]; [| done]. apply time_year_room in E2.
  rewrite <- isoc_day_ext by (destruct f; try lia; intros; lia).
  destruct (isoc_day M p2 b f day) as [[p3 day'] |] eqn:E3; cbn [mbind option_bind]; [| done]. apply isoc_day_room in E3.
  assert (a <= p3 /\ p3 + 9 <= b /\ (f = isoc -> p3 + 14 <= b)) as (H3 & H3' & H3'')
    by (destruct f; [done | rewrite bool_decide_false in E3 by done.. | rewrite bool_decide_true in E3 by done];
        repeat split; try lia; try done).
  rewrite <- time_clock_ext by lia. destruct (time_clock M p3) as [[[[p4 h] m] s] |] eqn:E4; cbn [mbind option_bind]; [| done].
  apply time_clock_room in E4. unfold isoc_year. destruct (bool_decide_reflect (f = isoc)) as [Ef | _]; cbn [negb]; [| done].
  specialize (H3'' Ef). rewrite (Hagree (p4 + 2)) by lia. destruct (negb _); [done |].
  now rewrite (four_digits_ext (p4 + 2 + 1)) by lia.
Qed.

Lemma skip_weekday_ext n p :
  a <= p -> p + Z.of_nat n <= b -> skip_weekday n M p = skip_weekday n M' p /\ p <= fst (skip_weekday n M p).
Proof.
  revert p. induction n as [| n IH]; intros p H1 H2; cbn [skip_weekday]; [cbn; split; [done | lia] |].
  rewrite (Hagree p) by lia. destruct (M' p =? chr ","); [cbn; split; [done | lia] |].
  destruct (M' p =? chr " "); [cbn; split; [done | lia] |]. destruct (IH (p + 1)) as [-> H]; [lia | lia |].
  split; [done |]. destruct (IH (p + 1)); lia || (rewrite <- (proj1 (IH (p + 1) ltac:(lia) ltac:(lia))); lia).
Qed.

Lemma skip_spaces_ext n p :
  a <= p -> p + Z.of_nat n <= b -> skip_spaces n M p = skip_spaces n M' p /\ p <= skip_spaces n M p.
Proof.
  revert p. induction n as [| n IH]; intros p H1 H2; cbn [skip_spaces]; [split; [done | lia] |].
  rewrite (Hagree p) by lia. destruct (M' p =? chr " "); [| split; [done | lia]].
  destruct (IH (p + 1) ltac:(lia) ltac:(lia)). split; [done | lia].
Qed.

End Reads.

(** ** Properties *)

(** C38: [ngx_parse_http_time] reads back what [ngx_http_time] writes, for every
    second from 1970 to the end of 9999; the text has 29 characters, and
    times before and after are written as the first and the last of these
    seconds. *)
Theorem http_time_round_trip buf t M value :
  0 <= buf < 2 ^ 63 ->
  exists out, ngx_http_time buf t = Some out /\ length out = 29%nat /\
    (holds M value out -> ngx_parse_http_time M value 29 = Z.max 0 (Z.min t last_second)).
Proof.
  intros Hbuf. set (t' := Z.max 0 (Z.min t last_second)).
  assert (ngx_gmtime t = ngx_gmtime t') as Et.
  { unfold t', last_second. destruct (Z.ltb_spec t 0).
    - replace (Z.max 0 (Z.min t 253402300799)) with 0 by lia. unfold ngx_gmtime. cbv zeta.
      destruct (Z.ltb_spec t 0); [done | lia].
    - destruct (Z.leb_spec t 253402300799); [f_equal; lia |].
      replace (Z.max 0 (Z.min t 253402300799)) with 253402300799 by lia. unfold ngx_gmtime. cbv zeta.
      destruct (Z.ltb_spec t 0); [lia |]. assert (2932896 < t / 86400) by (apply Z.lt_le_trans with 2932897; [lia | apply Z.div_le_lower_bound; lia]).
      destruct (Z.ltb_spec 2932896 (t / 86400)); [reflexivity | lia]. }
  assert (ngx_http_time buf t = ngx_http_time buf t') as -> by (unfold ngx_http_time; now rewrite Et).
  assert (0 <= t' <= last_second) as Ht by (unfold t', last_second; lia). clearbody t'. clear Et.
  eexists. split; [now apply http_time_text |].
  pose proof (gmtime_spec t' Ht) as (Hy & Hv & He & Hw). cbv zeta in Hy, Hv, He, Hw. set (tm := ngx_gmtime t') in *.
  destruct Hv as (Hm & Hd & Hh & Hmi & Hs). pose proof (month_days_range (ngx_tm_year tm) _ Hm) as Hmd.
  assert (three_letters (weekday_of tm)) as [Lw Fw] by (apply week_letters; rewrite Hw; apply Z.mod_pos_bound; lia).
  pose proof (month_letters _ Hm) as [Lm _].
  assert (length (weekday_text rfc822 (weekday_of tm) 1) = 5%nat) as L1
    by (unfold weekday_text; rewrite List.length_app, Lw; reflexivity).
  assert (length (date_text rfc822 false (date_of tm)) = 20%nat) as L2.
  { cbn [date_text date_of d_day d_month]. rewrite List.length_app. cbn [length]. rewrite List.length_app, Lm. reflexivity. }
  split; [rewrite !List.length_app, L1, L2; reflexivity |].
  assert (date_digits rfc822 (date_of tm)) as Hdig
    by (unfold date_digits, date_of; cbn [d_day d_month d_year d_hour d_min d_sec]; lia).
  intros H. rewrite (parse_http_time_spec M value 29 rfc822 _ _ _ _ _ ltac:(done)
    ltac:(eapply Forall_impl; [| exact Fw]; now intros c (_ & ? & ?)) Hdig H) by (rewrite L1, L2; lia).
  unfold date_result, date_valid, date_seconds. cbn [date_of d_day d_month d_year d_hour d_min d_sec]. rewrite He.
  destruct (_ && _) eqn:Eb; [done | exfalso; lia].
Qed.

(** [ngx_parse_http_time] on a date in any of the three formats, after any
    day of the week and any number of spaces, and whatever follows: the
    seconds since 1970 by the calendar, or [NGX_ERROR] if the month has no such day
    or the day no such time.  (The day 0 is accepted, as the day before the
    first.) *)
Theorem parse_http_time_exact M value len f wd spaces pad x rest :
  f <> no -> Forall (fun c => c <> chr "," /\ c <> chr " ") wd -> date_digits f x ->
  holds M value (weekday_text f wd spaces ++ date_text f pad x ++ rest) ->
  Z.of_nat (length (weekday_text f wd spaces) + length (date_text f pad x)) <= len ->
  ngx_parse_http_time M value len = if date_valid x then date_seconds x else NGX_ERROR.
Proof.
  intros Hf Hwd Hx H Hlen. rewrite (parse_http_time_spec M value len f wd spaces pad x rest) by done.
  unfold date_result. now destruct (date_valid x).
Qed.

(** [ngx_gmtime] gives the date of the calendar: a month of the year, a day
    of the month and a time of the day that are [t] seconds after the
    beginning of 1970, and the day of the week. *)
Theorem gmtime_calendar t :
  0 <= t <= last_second ->
  let tm := ngx_gmtime t in
  1970 <= ngx_tm_year tm <= 9999 /\
  valid_date (ngx_tm_mday tm) (ngx_tm_mon tm - 1) (ngx_tm_year tm) (ngx_tm_hour tm) (ngx_tm_min tm) (ngx_tm_sec tm) /\
  epoch_seconds (ngx_tm_mday tm) (ngx_tm_mon tm - 1) (ngx_tm_year tm) (ngx_tm_hour tm) (ngx_tm_min tm) (ngx_tm_sec tm) = t /\
  ngx_tm_wday tm = (4 + t / 86400) mod 7.
Proof. apply gmtime_spec. Qed.

(** Whatever the value is, [ngx_parse_http_time] uses no byte outside of
    it. *)
Theorem parse_http_time_reads_value M M' value len :
  0 <= len -> agree M M' value (value + len) ->
  ngx_parse_http_time M value len = ngx_parse_http_time M' value len.
Proof.
  intros Hlen Ha. unfold ngx_parse_http_time. cbv zeta.
  destruct (skip_weekday_ext M M' value (value + len) Ha (Z.to_nat (value + len - value)) value) as [<- H1]; [lia | lia |].
  destruct (skip_weekday _ M value) as [p f]. cbn [fst] in H1.
  destruct (Z.leb_spec (p + 1) (value + len)).
  - destruct (skip_spaces_ext M M' value (value + len) Ha (Z.to_nat (value + len - (p + 1))) (p + 1)) as [<- H2]; [lia | lia |].
    f_equal. apply (parse_date_ext M M' value); [done | lia].
  - replace (Z.to_nat (value + len - (p + 1))) with O by lia. cbn [skip_spaces].
    f_equal. apply (parse_date_ext M M' value); [done | lia].
Qed.

Example day_zero_accepted :
  let l := str "Mon, 00 Nov 1994 08:49:37 GMT" in
  ngx_parse_http_time (mem_of 100 l) 100 29 = date_seconds (mk_date 31 9 1994 8 49 37).
Proof. vm_compute. reflexivity. Qed.

(** The year before the year 0 is [2 ^ 64 - 1] in the formula, and January and
    February of the year 0 come out nearly three hours late. *)
Example year_zero_wraps :
  let l := str "Sat, 01 Jan 0000 00:00:00 GMT" in
  ngx_parse_http_time (mem_of 100 l) 100 29 = epoch_seconds 1 0 0 2 52 48.
Proof. vm_compute. reflexivity. Qed.

(** A cookie date after 2037 has a year of four digits, which the format with dashes
    is not read with. *)
Example cookie_time_2038 :
  exists out, ngx_http_cookie_time 0 2150000000 = Some out /\ out = str "Wed, 17-Feb-2038 06:13:20 GMT" /\
    ngx_parse_http_time (mem_of 100 out) 100 29 = NGX_ERROR.
Proof. eexists. split; [vm_compute; reflexivity | split; reflexivity]. Qed.

Lemma http_time_round_trip_witness :
  exists out, ngx_http_time 4096 784111777 = Some out /\ length out = 29%nat /\
    (holds (mem_of 100 (str "Sun, 06 Nov 1994 08:49:37 GMT")) 100 out ->
     ngx_parse_http_time (mem_of 100 (str "Sun, 06 Nov 1994 08:49:37 GMT")) 100 29 = 784111777).
Proof.
  exact (http_time_round_trip 4096 784111777 (mem_of 100 (str "Sun, 06 Nov 1994 08:49:37 GMT")) 100 ltac:(split; [discriminate | reflexivity])).
Defined.

Lemma parse_http_time_exact_witness :
  ngx_parse_http_time (mem_of 100 (str "Sunday, 06-Nov-94 08:49:37 GMT")) 100 30 = 784111777.
Proof.
  refine (parse_http_time_exact _ 100 30 rfc850 (str "Sunday") 1 false (mk_date 6 10 1994 8 49 37) (str " GMT") _ _ _ _ _).
  - discriminate.
  - repeat constructor; discriminate.
  - repeat split; discriminate.
  - apply (mem_of_holds 100 (str "Sunday, 06-Nov-94 08:49:37 GMT")).
  - discriminate.
Defined.

Lemma gmtime_calendar_witness :
  let tm := ngx_gmtime 951782400 in
  1970 <= ngx_tm_year tm <= 9999 /\
  valid_date (ngx_tm_mday tm) (ngx_tm_mon tm - 1) (ngx_tm_year tm) (ngx_tm_hour tm) (ngx_tm_min tm) (ngx_tm_sec tm) /\
  epoch_seconds (ngx_tm_mday tm) (ngx_tm_mon tm - 1) (ngx_tm_year tm) (ngx_tm_hour tm) (ngx_tm_min tm) (ngx_tm_sec tm) = 951782400 /\
  ngx_tm_wday tm = (4 + 951782400 / 86400) mod 7.
Proof. exact (gmtime_calendar 951782400 ltac:(split; discriminate)). Defined.

Lemma parse_http_time_reads_value_witness :
  ngx_parse_http_time (mem_of 100 (str "Sun, 06 Nov 1994 08:49:37 GMT")) 100 20 =
  ngx_parse_http_time (upd (mem_of 100 (str "Sun, 06 Nov 1994 08:49:37 GMT")) 120 0) 100 20.
Proof.
  refine (parse_http_time_reads_value _ _ 100 20 _ _); [discriminate |]. apply agree_sym, agree_upd. lia.
Defined.
