(* ===== verification/NgxParseTime.v ===== *)
(** Time spans of the configuration ("1d 12h", "30s", "500ms"):
    [ngx_parse_time] (core/ngx_parse.c). *)
From S2P Require Import Prelude HttpRequest.
#[global] Open Scope Z_scope.

(** [step], in the order of the enum. *)
Definition st_start : Z := 0.
Definition st_year : Z := 1.
Definition st_month : Z := 2.
Definition st_week : Z := 3.
Definition st_day : Z := 4.
Definition st_hour : Z := 5.
Definition st_min : Z := 6.
Definition st_sec : Z := 7.
Definition st_msec : Z := 8.
Definition st_last : Z := 9.

(** The unit at [c], with [rest] behind it: the new [step], the scale and what
    follows; [None] is [return NGX_ERROR]. *)
Definition time_unit (is_sec : bool) (step c : Z) (rest : list Z) : option (Z * Z * list Z) :=
  if c =? chr "y" then
    if st_start <? step then None else Some (st_year, 60 * 60 * 24 * 365, rest)
  else if c =? chr "M" then
    if st_month <=? step then None else Some (st_month, 60 * 60 * 24 * 30, rest)
  else if c =? chr "w" then
    if st_week <=? step then None else Some (st_week, 60 * 60 * 24 * 7, rest)
  else if c =? chr "d" then
    if st_day <=? step then None else Some (st_day, 60 * 60 * 24, rest)
  else if c =? chr "h" then
    if st_hour <=? step then None else Some (st_hour, 60 * 60, rest)
  else if c =? chr "m" then
    if match rest with c' :: _ => c' =? chr "s" | [] => false end then
      if is_sec || (st_msec <=? step) then None else Some (st_msec, 1, tail rest)
    else if st_min <=? step then None else Some (st_min, 60, rest)
  else if c =? chr "s" then
    if st_sec <=? step then None else Some (st_sec, 1, rest)
  else if c =? chr " " then
    if st_sec <=? step then None else Some (st_last, 1, rest)
  else None.

Fixpoint skip_blanks (l : list Z) : list Z :=
  match l with
  | c :: l' => if c =? chr " " then skip_blanks l' else l
  | [] => []
  end.

(** The local variables of the loop. *)
Record span := mk_span { sp_step : Z; sp_value : Z; sp_total : Z; sp_valid : bool }.

(** What the loop does for a number that a unit ends; the quotient
    [NGX_MAX_INT_T_VALUE / scale] is [max]. *)
Definition add_unit (is_sec : bool) (step scale value total : Z) : option Z :=
  let max := NGX_MAX_INT_T_VALUE / scale in
  let '(scale, max) :=
    if negb (step =? st_msec) && negb is_sec then (scale * 1000, max / 1000) else (scale, max) in
  if max <? value then None
  else
    let value := value * scale in
    if NGX_MAX_INT_T_VALUE - value <? total then None else Some (total + value).

(** The loop; every round takes a byte at least. *)
Fixpoint span_loop (fuel : nat) (is_sec : bool) (l : list Z) (s : span) : option span :=
  match fuel with
  | O => None
  | S fuel' =>
      match l with
      | [] => Some s
      | c :: rest =>
          let cutoff := NGX_MAX_INT_T_VALUE / 10 in
          let cutlim := NGX_MAX_INT_T_VALUE mod 10 in
          let value := sp_value s in
          if (chr "0" <=? c) && (c <=? chr "9") then
            if (cutoff <=? value) && ((cutoff <? value) || (cutlim <? c - chr "0")) then None
            else span_loop fuel' is_sec rest (mk_span (sp_step s) (value * 10 + (c - chr "0")) (sp_total s) true)
          else
            '(step, scale, rest) ← time_unit is_sec (sp_step s) c rest;
            total ← add_unit is_sec step scale value (sp_total s);
            span_loop fuel' is_sec (skip_blanks rest) (mk_span step 0 total (sp_valid s))
      end
  end.

Definition span_finish (is_sec : bool) (s : span) : option Z :=
  if negb (sp_valid s) then None else
  value ← (if is_sec then Some (sp_value s)
           else if NGX_MAX_INT_T_VALUE / 1000 <? sp_value s then None else Some (sp_value s * 1000));
  if NGX_MAX_INT_T_VALUE - value <? sp_total s then None else Some (sp_total s + value).

Definition ngx_parse_time (line : list Z) (is_sec : bool) : Z :=
  default NGX_ERROR (
    s ← span_loop (S (length line)) is_sec line (mk_span (if is_sec then st_start else st_month) 0 0 false);
    span_finish is_sec s).

Example parse_time_sec : ngx_parse_time (str "1d 12h30") true = 86400 + 12 * 3600 + 30.
Proof. reflexivity. Qed.
Example parse_time_msec : ngx_parse_time (str "1m 500ms") false = 60500.
Proof. reflexivity. Qed.

(** ** Exactness *)

(** The same reading in integers without bounds. *)
Fixpoint span_ref (fuel : nat) (is_sec : bool) (l : list Z) (s : span) : option span :=
  match fuel with
  | O => None
  | S fuel' =>
      match l with
      | [] => Some s
      | c :: rest =>
          if is_digit c then
            span_ref fuel' is_sec rest (mk_span (sp_step s) (sp_value s * 10 + (c - chr "0")) (sp_total s) true)
          else
            '(step, scale, rest) ← time_unit is_sec (sp_step s) c rest;
            span_ref fuel' is_sec (skip_blanks rest)
              (mk_span step 0 (sp_total s + sp_value s * scale * (if (step =? st_msec) || is_sec then 1 else 1000)) (sp_valid s))
      end
  end.

Definition span_sum (is_sec : bool) (s : span) : option Z :=
  if sp_valid s then Some (sp_total s + sp_value s * (if is_sec then 1 else 1000)) else None.

Definition time_span (line : list Z) (is_sec : bool) : option Z :=
  s ← span_ref (S (length line)) is_sec line (mk_span (if is_sec then st_start else st_month) 0 0 false);
  span_sum is_sec s.

Definition bounded (max : Z) (n : option Z) : option Z :=
  v ← n; if v <=? max then Some v else None.

Lemma time_unit_scale is_sec step c rest step' scale rest' :
  time_unit is_sec step c rest = Some (step', scale, rest') -> 0 < scale /\ (length rest' <= length rest)%nat.
Proof.
  unfold time_unit. intros H.
  repeat match type of H with (if ?b then _ else _) = _ => destruct b end; try done; injection H as <- <- <-;
    (split; [lia |]); try lia. destruct rest; cbn; lia.
Qed.

Lemma length_skip_blanks l : (length (skip_blanks l) <= length l)%nat.
Proof. induction l as [| c l IH]; cbn; [lia |]. destruct (c =? 32); cbn; lia. Qed.

(** Once the sum is too large nothing makes it smaller. *)
Lemma span_ref_grows fuel is_sec l s s' n :
  0 <= sp_value s -> 0 <= sp_total s -> span_ref fuel is_sec l s = Some s' -> span_sum is_sec s' = Some n ->
  sp_value s <= n /\ sp_total s <= n.
Proof.
  revert l s. induction fuel as [| fuel IH]; intros l s Hv Ht E Hn; [done |]. cbn [span_ref] in E.
  destruct l as [| c rest].
  - injection E as <-. unfold span_sum in Hn. destruct (sp_valid s); [| done]. injection Hn as <-.
    destruct is_sec; lia.
  - unfold is_digit in E. destruct (_ && _) eqn:Ec.
    + apply IH in E; cbn [sp_value sp_total] in *; try lia; done.
    + destruct (time_unit _ _ _ _) as [[[step scale] rest'] |] eqn:Eu; cbn [mbind option_bind] in E; [| done].
      apply time_unit_scale in Eu as [Hs _]. set (k := if _ || _ then 1 else 1000) in E.
      assert (1 <= k) by (unfold k; destruct (_ || _); lia). assert (1 <= scale * k) by nia.
      apply IH in E; cbn [sp_value sp_total] in *; try nia; done.
Qed.

Lemma span_ref_too_large fuel is_sec l s max :
  0 <= sp_value s -> 0 <= sp_total s -> (max < sp_value s \/ max < sp_total s) ->
  bounded max (s ← span_ref fuel is_sec l s; span_sum is_sec s) = None.
Proof.
  intros Hv Ht H. destruct (span_ref fuel is_sec l s) as [s' |] eqn:E; cbn; [| done].
  destruct (span_sum is_sec s') as [n |] eqn:En; cbn; [| done].
  pose proof (span_ref_grows _ _ _ _ _ _ Hv Ht E En). destruct (Z.leb_spec n max); [lia | done].
Qed.

(** The guard with the quotient. *)
Lemma add_unit_exact is_sec step scale value total :
  0 < scale -> 0 <= value -> 0 <= total ->
  add_unit is_sec step scale value total =
  bounded NGX_MAX_INT_T_VALUE (Some (total + value * scale * (if (step =? st_msec) || is_sec then 1 else 1000))).
Proof.
  intros Hs Hv Ht. unfold add_unit, bounded. cbn [mbind option_bind]. generalize NGX_MAX_INT_T_VALUE as max. intros max.
  assert (forall k, 0 < k -> (if max / k <? value then None
      else if max - value * k <? total then None else Some (total + value * k)) =
    (if total + value * k <=? max then Some (total + value * k) else None)) as Q.
  { intros k Hk. pose proof (Z.mul_succ_div_gt max k Hk).
    destruct (Z.ltb_spec (max / k) value).
    - destruct (Z.leb_spec (total + value * k) max); [nia | done].
    - destruct (Z.ltb_spec (max - value * k) total), (Z.leb_spec (total + value * k) max); try lia; done. }
  destruct (step =? st_msec), is_sec; cbn [negb andb orb]; rewrite ?Z.mul_1_r; try (apply Q; lia).
  rewrite Z.div_div by lia. rewrite <- (Z.mul_assoc value). apply Q. lia.
Qed.

Lemma span_loop_exact fuel is_sec l s :
  0 <= sp_value s <= NGX_MAX_INT_T_VALUE -> 0 <= sp_total s <= NGX_MAX_INT_T_VALUE ->
  (s ← span_loop fuel is_sec l s; span_finish is_sec s) =
  bounded NGX_MAX_INT_T_VALUE (s ← span_ref fuel is_sec l s; span_sum is_sec s).
Proof.
  revert l s. induction fuel as [| fuel IH]; intros l s Hv Ht; [done |]. cbn [span_loop span_ref].
  destruct l as [| c rest].
  - cbn [mbind option_bind]. unfold span_finish, span_sum. destruct (sp_valid s); cbn [negb]; [| done].
    destruct is_sec; cbn [mbind option_bind].
    + unfold bounded. cbn [mbind option_bind]. rewrite Z.mul_1_r.
      destruct (Z.ltb_spec (NGX_MAX_INT_T_VALUE - sp_value s) (sp_total s)),
        (Z.leb_spec (sp_total s + sp_value s) NGX_MAX_INT_T_VALUE); try lia; done.
    + pose proof (add_unit_exact false st_sec 1 (sp_value s) (sp_total s) ltac:(lia) ltac:(lia) ltac:(lia)) as Q.
      unfold add_unit in Q. cbn [st_sec st_msec Z.eqb Pos.eqb negb andb orb] in Q. rewrite Z.div_1_r, Z.mul_1_r in Q.
      rewrite <- Q. destruct (_ <? sp_value s); [done |]. reflexivity.
  - unfold is_digit. destruct (_ && _) eqn:Ec.
    + destruct ((NGX_MAX_INT_T_VALUE / 10 <=? sp_value s) && _) eqn:Eg.
      * cbn [mbind option_bind]. symmetry. apply span_ref_too_large; cbn [sp_value sp_total]; try lia.
        left. pose proof (Z.div_mod NGX_MAX_INT_T_VALUE 10 ltac:(lia)). pose proof (Z.mod_pos_bound NGX_MAX_INT_T_VALUE 10 ltac:(lia)). lia.
      * apply IH; cbn [sp_value sp_total]; [| lia]. pose proof (Z.div_mod NGX_MAX_INT_T_VALUE 10 ltac:(lia)). pose proof (Z.mod_pos_bound NGX_MAX_INT_T_VALUE 10 ltac:(lia)). lia.
    + destruct (time_unit _ _ _ _) as [[[step scale] rest'] |] eqn:Eu; cbn [mbind option_bind]; [| done].
      apply time_unit_scale in Eu as [Hs _]. rewrite add_unit_exact by lia.
      set (k := if _ || _ then 1 else 1000). assert (1 <= k) by (unfold k; destruct (_ || _); lia).
      assert (0 <= sp_value s * scale * k) by nia. unfold bounded at 1. cbn [mbind option_bind].
      destruct (Z.leb_spec (sp_total s + sp_value s * scale * k) NGX_MAX_INT_T_VALUE).
      * cbn [mbind option_bind]. apply IH; cbn [sp_value sp_total]; lia.
      * cbn [mbind option_bind]. symmetry. apply span_ref_too_large; cbn [sp_value sp_total]; lia.
Qed.

(** [ngx_parse_time] is exact: the sum of the numbers with their units, in
    seconds or milliseconds, as in integers without bounds; a span that does not
    fit [ngx_int_t] is refused, and no intermediate result overflows. *)
Theorem parse_time_exact line is_sec :
  ngx_parse_time line is_sec = default NGX_ERROR (bounded NGX_MAX_INT_T_VALUE (time_span line is_sec)).
Proof.
  unfold ngx_parse_time, time_span. f_equal. apply span_loop_exact; cbn; unfold NGX_MAX_INT_T_VALUE; lia.
Qed.

(** A number without a unit may follow any unit, also milliseconds. *)
Example seconds_after_milliseconds : ngx_parse_time (str "5ms1") false = 1005.
Proof. reflexivity. Qed.
