(* ===== verification/Spread.v ===== *)
(** How far apart numbers that add up to nothing can drift, when in every round
    some of them grow and the greatest of these pays for all.  [Spread] holds
    the arithmetic by which the current weights of the upstream servers stay
    within a machine word ([HttpRoundRobin]). *)
From S2P Require Import Prelude.
From Stdlib Require Import ZArith Lia List Bool.
#[global] Open Scope Z_scope.

(** ** Sums over the places below [n] *)

Fixpoint zsum (n : nat) (f : nat -> Z) : Z :=
  match n with O => 0 | S n => zsum n f + f n end.

Lemma zsum_ext n f g : (forall i, (i < n)%nat -> f i = g i) -> zsum n f = zsum n g.
Proof. induction n as [| n IH]; intros H; cbn; [done |]. rewrite IH, H; auto with arith. Qed.

Lemma zsum_le n f g : (forall i, (i < n)%nat -> f i <= g i) -> zsum n f <= zsum n g.
Proof.
  induction n as [| n IH]; intros H; cbn; [lia |].
  pose proof (H n ltac:(lia)). assert (zsum n f <= zsum n g) by (apply IH; auto with arith). lia.
Qed.

Lemma zsum_zero n : zsum n (fun _ => 0) = 0.
Proof. induction n as [| n IH]; cbn; [done |]. now rewrite IH. Qed.

Lemma zsum_nonneg n f : (forall i, (i < n)%nat -> 0 <= f i) -> 0 <= zsum n f.
Proof. intros H. rewrite <- (zsum_zero n). now apply zsum_le. Qed.

Lemma zsum_add n f g : zsum n (fun i => f i + g i) = zsum n f + zsum n g.
Proof. induction n as [| n IH]; cbn; [done |]. rewrite IH. lia. Qed.

Lemma zsum_shift n f : zsum (S n) f = f 0%nat + zsum n (fun i => f (S i)).
Proof. induction n as [| n IH]; [cbn; lia |]. cbn [zsum] in *. rewrite IH. lia. Qed.

Lemma zsum_pos n f : 0 < zsum n f -> exists i, (i < n)%nat /\ 0 < f i.
Proof.
  induction n as [| n IH]; cbn; [lia |]. intros H. destruct (Z.ltb_spec 0 (f n)); [exists n; lia |].
  destruct IH as (i & Hi & Hf); [lia |]. exists i. split; [lia | done].
Qed.

(** Only the place [j] makes a difference. *)
Lemma zsum_change n f g j :
  (j < n)%nat -> (forall i, (i < n)%nat -> i <> j -> g i = f i) -> zsum n g = zsum n f - f j + g j.
Proof.
  induction n as [| n IH]; intros Hj H; [lia |]. cbn. destruct (Nat.eq_dec j n) as [-> | Hne].
  - rewrite (zsum_ext n g f); [lia |]. intros i Hi. apply H; lia.
  - rewrite IH, (H n); [lia | lia | lia | lia |]. intros i Hi. apply H. lia.
Qed.

(** ** Sets of places *)

Definition part (n : nat) (K : nat -> bool) (x : nat -> Z) : Z := zsum n (fun i => if K i then x i else 0).

Definition card (n : nat) (K : nat -> bool) : Z := zsum n (fun i => Z.b2z (K i)).

Definition set_place (K : nat -> bool) (j : nat) (b : bool) : nat -> bool := fun i => if (i =? j)%nat then b else K i.

Lemma part_set n K x j b :
  (j < n)%nat -> part n (set_place K j b) x = part n K x - (if K j then x j else 0) + (if b then x j else 0).
Proof.
  intros Hj. unfold part. rewrite (zsum_change n (fun i => if K i then x i else 0) _ j Hj); unfold set_place.
  - now rewrite Nat.eqb_refl.
  - intros i _ Hne. now apply Nat.eqb_neq in Hne as ->.
Qed.

Lemma card_set n K j b : (j < n)%nat -> card n (set_place K j b) = card n K - Z.b2z (K j) + Z.b2z b.
Proof.
  intros Hj. unfold card. rewrite (zsum_change n (fun i => Z.b2z (K i)) _ j Hj); unfold set_place.
  - now rewrite Nat.eqb_refl.
  - intros i _ Hne. now apply Nat.eqb_neq in Hne as ->.
Qed.

Lemma part_all n x : part n (fun _ => true) x = zsum n x.
Proof. reflexivity. Qed.

Lemma card_all n : card n (fun _ => true) = Z.of_nat n.
Proof. unfold card. induction n as [| n IH]; cbn [zsum]; [done |]. rewrite IH. cbn. lia. Qed.

Lemma card_none n : card n (fun _ => false) = 0.
Proof. apply zsum_zero. Qed.

Lemma part_none n x : part n (fun _ => false) x = 0.
Proof. apply zsum_zero. Qed.

(** ** The bound

    No set of [k] of the [n] places has more than [k * (n - k) * W] in all. *)

Definition room (n : nat) (W : Z) (K : nat -> bool) : Z := card n K * (Z.of_nat n - card n K) * W.

Definition spread (n : nat) (W : Z) (x : nat -> Z) : Prop := forall K, part n K x <= room n W K.

Lemma spread_ext n W x y : (forall i, (i < n)%nat -> x i = y i) -> spread n W x -> spread n W y.
Proof.
  intros E H K. specialize (H K). unfold part in *. rewrite (zsum_ext n _ (fun i => if K i then x i else 0)); [done |].
  intros i Hi. now rewrite E.
Qed.

(** A single place, and all the others together. *)
Lemma spread_bound n W x i :
  spread n W x -> zsum n x = 0 -> (i < n)%nat -> - ((Z.of_nat n - 1) * W) <= x i <= (Z.of_nat n - 1) * W.
Proof.
  intros H H0 Hi. pose proof (H (set_place (fun _ => false) i true)) as Hup.
  pose proof (H (set_place (fun _ => true) i false)) as Hlow. unfold room in *.
  rewrite part_set, card_set in * by done. rewrite ?part_none, ?card_none, ?part_all, ?card_all, H0 in *. cbn [Z.b2z] in *. lia.
Qed.

Lemma spread_zero n W x : 0 <= W -> (forall i, (i < n)%nat -> x i = 0) -> spread n W x.
Proof.
  intros HW H K. unfold part, room. rewrite (zsum_ext n _ (fun _ => 0)), zsum_zero by (intros i Hi; rewrite H by done; now destruct (K i)).
  assert (0 <= card n K <= Z.of_nat n) as Hc.
  { rewrite <- (card_all n). unfold card. split; [apply zsum_nonneg | apply zsum_le]; intros i _; now destruct (K i). }
  apply Z.mul_nonneg_nonneg; [nia | done].
Qed.

(** ** A round *)

Section Round.
Context (n : nat) (W : Z) (x e : nat -> Z) (u : nat -> bool) (j : nat).

(** What the places in [u] grow by in all. *)
Definition growth : Z := zsum n (fun i => if u i then e i else 0).

Definition after_round (i : nat) : Z :=
  x i + (if u i then e i else 0) - (if (i =? j)%nat then growth else 0).

Hypothesis Hj : (j < n)%nat.
Hypothesis Huj : u j = true.
Hypothesis He : forall i, (i < n)%nat -> 0 <= e i.
Hypothesis HW : growth <= W.
Hypothesis Hbest : forall i, (i < n)%nat -> u i = true -> x i + e i <= x j + e j.

Definition grown (K : nat -> bool) : Z := zsum n (fun i => if K i && u i then e i else 0).

Lemma grown_range K : 0 <= grown K <= growth.
Proof.
  unfold grown, growth. split; [apply zsum_nonneg | apply zsum_le]; intros i Hi; specialize (He i Hi);
    destruct (K i), (u i); cbn; lia.
Qed.

Lemma zsum_one v : zsum n (fun i => if (i =? j)%nat then v else 0) = v.
Proof.
  rewrite (zsum_change n (fun _ => 0) _ j Hj), zsum_zero, Nat.eqb_refl; [lia |].
  intros i _ Hne. now apply Nat.eqb_neq in Hne as ->.
Qed.

Lemma part_after K : part n K after_round = part n K x + grown K - (if K j then growth else 0).
Proof.
  unfold part, grown. transitivity (zsum n (fun i => (if K i then x i else 0) + ((if K i && u i then e i else 0)
    + (if (i =? j)%nat then - (if K j then growth else 0) else 0)))).
  - apply zsum_ext. intros i _. unfold after_round. destruct (Nat.eqb_spec i j) as [-> |]; destruct (K _), (u _); cbn; lia.
  - rewrite !zsum_add, zsum_one. lia.
Qed.

Lemma zsum_after : zsum n after_round = zsum n x.
Proof.
  rewrite <- !part_all, part_after. replace (grown (fun _ => true)) with growth by reflexivity. lia.
Qed.

Lemma after_excess m : 1 <= m ->
  (forall K, part n K after_round <= room n W K + m) -> forall K, part n K x <= room n W K ->
  part n K after_round <= room n W K + (m - 1).
Proof.
  intros Hm Hall K Hx. destruct (Z.leb_spec (part n K after_round) (room n W K + (m - 1))) as [? | Hgt]; [done | exfalso].
  rewrite part_after in Hgt. pose proof (grown_range K) as Hg.
  destruct (K j) eqn:Kj; [lia |].
  destruct (zsum_pos n (fun i => if K i && u i then e i else 0)) as (b & Hb & Hpos); [fold (grown K); lia |].
  cbv beta in Hpos. destruct (K b) eqn:Kb; cbn in Hpos; [| lia]. destruct (u b) eqn:Ub; [| lia].
  assert (b <> j) as Hbj by congruence.
  pose proof (Hall (set_place K b false)) as Hminus. pose proof (Hall (set_place K j true)) as Hplus.
  unfold room in *. rewrite part_set, card_set in * by done. rewrite Kb, Kj in *. cbn [Z.b2z] in *. rewrite part_after, Kj in *.
  specialize (Hbest b Hb Ub). unfold after_round in *. rewrite Nat.eqb_refl, Huj, Ub in *.
  apply Nat.eqb_neq in Hbj. rewrite Hbj in *. set (k := card n K) in *. clearbody k. nia.
Qed.

(** The greatest pays, so the bound stays. *)
Lemma spread_after : spread n W x -> spread n W after_round.
Proof.
  intros Hx. assert (forall m, (Z.of_nat m <= W) -> forall K, part n K after_round <= room n W K + (W - Z.of_nat m)) as H.
  { induction m as [| m IH]; intros Hm K.
    - rewrite part_after. pose proof (grown_range K). pose proof (Hx K). destruct (K j); lia.
    - rewrite Nat2Z.inj_succ. replace (W - Z.succ (Z.of_nat m)) with (W - Z.of_nat m - 1) by lia.
      apply after_excess; [lia | intros K'; apply IH; lia | apply Hx]. }
  pose proof (grown_range (fun _ => true)) as HW0. intros K. specialize (H (Z.to_nat W) ltac:(lia) K). lia.
Qed.
End Round.
