(* ===== verification/HttpRoundRobin.v ===== *)
(** The choice of an upstream server: weighted round robin
    (http/ngx_http_upstream_round_robin.c).  An upstream is the chain of its
    groups of servers, [peers], [peers->next], with the servers of each as a
    list; weights are signed words and counters unsigned ones. *)
From S2P Require Import Prelude Spread.
From stdpp Require Import base list option relations.
#[global] Open Scope Z_scope.

Definition NGX_PEER_FAILED : Z := 4.

(** ** Data *)

(** A server of the configuration; [sv_addrs] are its addresses. *)
Record ngx_http_upstream_server_t := mk_server {
  sv_addrs : list Z; sv_weight : Z; sv_max_conns : Z; sv_max_fails : Z; sv_fail_timeout : Z;
  sv_down : bool; sv_backup : bool }.

(** [ngx_http_upstream_rr_peer_t]; [sockaddr] stands for the address. *)
Record rr_peer := mk_peer {
  sockaddr : Z;
  current_weight : Z; effective_weight : Z; weight : Z;
  conns : Z; max_conns : Z;
  fails : Z; accessed : Z; checked : Z;
  max_fails : Z; fail_timeout : Z;
  down : bool }.

(** [ngx_http_upstream_rr_peers_t] without the [next] field. *)
Record rr_peers := mk_peers {
  rp_number : Z; rp_total_weight : Z; rp_tries : Z; rp_single : bool; rp_weighted : bool;
  rp_peer : list rr_peer }.

(** [ngx_http_upstream_rr_peer_data_t]: the group and the server are given by
    their places; [tried] are the words of the bit map. *)
Record rr_data := mk_data {
  rrp_peers : nat; rrp_current : option (nat * nat); rrp_tried : list Z }.

Definition set_current_weight v p :=
  mk_peer (sockaddr p) v (effective_weight p) (weight p) (conns p) (max_conns p) (fails p) (accessed p) (checked p)
    (max_fails p) (fail_timeout p) (down p).
Definition set_effective_weight v p :=
  mk_peer (sockaddr p) (current_weight p) v (weight p) (conns p) (max_conns p) (fails p) (accessed p) (checked p)
    (max_fails p) (fail_timeout p) (down p).
Definition set_conns v p :=
  mk_peer (sockaddr p) (current_weight p) (effective_weight p) (weight p) v (max_conns p) (fails p) (accessed p)
    (checked p) (max_fails p) (fail_timeout p) (down p).
Definition set_fails v p :=
  mk_peer (sockaddr p) (current_weight p) (effective_weight p) (weight p) (conns p) (max_conns p) v (accessed p)
    (checked p) (max_fails p) (fail_timeout p) (down p).
Definition set_accessed v p :=
  mk_peer (sockaddr p) (current_weight p) (effective_weight p) (weight p) (conns p) (max_conns p) (fails p) v
    (checked p) (max_fails p) (fail_timeout p) (down p).
Definition set_checked v p :=
  mk_peer (sockaddr p) (current_weight p) (effective_weight p) (weight p) (conns p) (max_conns p) (fails p) (accessed p)
    v (max_fails p) (fail_timeout p) (down p).

Definition set_peer (l : list rr_peer) (g : rr_peers) : rr_peers :=
  mk_peers (rp_number g) (rp_total_weight g) (rp_tries g) (rp_single g) (rp_weighted g) l.

(** ** Configuration *)

(** A group of the configured servers: the backup ones or the others. *)
Section Config.
Context (servers : list ngx_http_upstream_server_t) (backup : bool).

Definition in_group : list ngx_http_upstream_server_t :=
  List.filter (fun s => Bool.eqb (sv_backup s) backup) servers.

(** The sums [n], [w] and [t]. *)
Definition group_number : Z := fold_right (fun s n => u64 (n + Z.of_nat (length (sv_addrs s)))) 0 in_group.
Definition group_weight : Z :=
  fold_right (fun s w => u64 (w + u64 (Z.of_nat (length (sv_addrs s)) * sv_weight s))) 0 in_group.
Definition group_tries : Z :=
  fold_right (fun s t => if sv_down s then t else u64 (t + Z.of_nat (length (sv_addrs s)))) 0 in_group.

Definition server_peers (s : ngx_http_upstream_server_t) : list rr_peer :=
  List.map (fun a => mk_peer a 0 (sv_weight s) (sv_weight s) 0 (sv_max_conns s) 0 0 0 (sv_max_fails s)
                      (sv_fail_timeout s) (sv_down s)) (sv_addrs s).

Definition group (single : bool) : rr_peers :=
  mk_peers group_number group_weight group_tries single (negb (group_weight =? group_number))
    (List.flat_map server_peers in_group).
End Config.

(** For an upstream with servers: [allocs] says which of the allocations succeed. *)
Definition init_servers (allocs : list bool) (servers : list ngx_http_upstream_server_t) : Z * list rr_peers :=
  let ok i := nth i allocs true in
  if group_number servers false =? 0 then (NGX_ERROR, [])
  else if negb (ok 0%nat && ok 1%nat) then (NGX_ERROR, [])
  else if group_number servers true =? 0 then
    (NGX_OK, [group servers false (group_number servers false =? 1)])
  else if negb (ok 2%nat && ok 3%nat) then (NGX_ERROR, [])
  else (NGX_OK, [group servers false false; group servers true false]).

(** For an upstream defined implicitly, with the addresses that its name resolves
    to. *)
Definition init_implicit (allocs : list bool) (port : Z) (resolved : option (list Z)) : Z * list rr_peers :=
  if port =? 0 then (NGX_ERROR, []) else
  match resolved with
  | None => (NGX_ERROR, [])
  | Some addrs =>
      if negb (nth 0 allocs true && nth 1 allocs true) then (NGX_ERROR, [])
      else
        let n := Z.of_nat (length addrs) in
        (NGX_OK, [mk_peers n n n (n =? 1) false
                    (List.map (fun a => mk_peer a 0 1 1 0 0 0 0 0 1 10 false) addrs)])
  end.

(** [ngx_http_upstream_init_round_robin]; [us->servers] may be null. *)
Definition ngx_http_upstream_init_round_robin (allocs : list bool) (servers : option (list ngx_http_upstream_server_t))
    (port : Z) (resolved : option (list Z)) : Z * list rr_peers :=
  match servers with
  | Some servers => init_servers allocs servers
  | None => init_implicit allocs port resolved
  end.

(** ** A request *)

(** [8 * sizeof(uintptr_t)] *)
Definition word_bits : Z := 64.
Definition words (n : Z) : Z := u64 (n + (word_bits - 1)) / word_bits.

(** The data of the request and [peer.tries]. *)
Definition rr_init (us : list rr_peers) : rr_data * Z :=
  match us with
  | [] => (mk_data 0 None [], 0)
  | g :: next =>
      let n := rp_number g in
      let n := match next with b :: _ => if n <? rp_number b then rp_number b else n | [] => n end in
      let tried := if n <=? word_bits then [0] else repeat 0 (Z.to_nat (words n)) in
      (mk_data 0 None tried, u64 (rp_tries g + match next with b :: _ => rp_tries b | [] => 0 end))
  end.

(** [ngx_http_upstream_init_round_robin_peer]: whether the data of the request
    can be allocated, and the bit map when it needs more than a word. *)
Definition ngx_http_upstream_init_round_robin_peer (data_ok tried_ok : bool) (us : list rr_peers) :
    Z * option (rr_data * Z) :=
  if negb data_ok then (NGX_ERROR, None)
  else
    let '(rrp, tries) := rr_init us in
    if negb (length (rrp_tried rrp) =? 1)%nat && negb tried_ok then (NGX_ERROR, None)
    else (NGX_OK, Some (rrp, tries)).

(** The word and the bit of the server [i]. *)
Definition tried_bit (tried : list Z) (i : Z) : Z :=
  Z.land (nth (Z.to_nat (i / word_bits)) tried 0) (Z.shiftl 1 (i mod word_bits)).

Definition mark_tried (tried : list Z) (i : Z) : list Z :=
  let n := Z.to_nat (i / word_bits) in
  <[n := Z.lor (nth n tried 0) (Z.shiftl 1 (i mod word_bits))]> tried.

(** The reasons to pass over a server. *)
Definition skipped (now : Z) (tried : list Z) (i : Z) (p : rr_peer) : bool :=
  negb (tried_bit tried i =? 0)
  || down p
  || (negb (max_fails p =? 0) && (max_fails p <=? fails p) && (s64 (now - checked p) <=? fail_timeout p))
  || (negb (max_conns p =? 0) && (max_conns p <=? conns p)).

(** The loop over the servers: [best] is the place and the weight of the best
    one so far. *)
Fixpoint select_loop (now : Z) (tried : list Z) (i : Z) (ps : list rr_peer) (best : option (Z * Z)) (total : Z) :
    list rr_peer * option (Z * Z) * Z :=
  match ps with
  | [] => ([], best, total)
  | peer :: next =>
      if skipped now tried i peer then
        let '(next, best, total) := select_loop now tried (i + 1) next best total in
        (peer :: next, best, total)
      else
        let peer := set_current_weight (s64 (current_weight peer + effective_weight peer)) peer in
        let total := s64 (total + effective_weight peer) in
        let peer :=
          if effective_weight peer <? weight peer then set_effective_weight (s64 (effective_weight peer + 1)) peer
          else peer in
        let best :=
          match best with
          | None => Some (i, current_weight peer)
          | Some (_, w) => if w <? current_weight peer then Some (i, current_weight peer) else best
          end in
        let '(next, best, total) := select_loop now tried (i + 1) next best total in
        (peer :: next, best, total)
  end.

(** What is done to the best server. *)
Definition use_peer (now total : Z) (best : rr_peer) : rr_peer :=
  let best := set_current_weight (s64 (current_weight best - total)) best in
  if fail_timeout best <? s64 (now - checked best) then set_checked now best else best.

(** [ngx_http_upstream_get_peer]: the servers, the place of the best and the bit
    map. *)
Definition ngx_http_upstream_get_peer (now : Z) (ps : list rr_peer) (tried : list Z) :
    list rr_peer * option nat * list Z :=
  let '(ps, best, total) := select_loop now tried 0 ps None 0 in
  match best with
  | None => (ps, None, tried)
  | Some (p, _) =>
      (alter (use_peer now total) (Z.to_nat p) ps, Some (Z.to_nat p), mark_tried tried p)
  end.

(** The choice in one group, [goto failed] as [None]. *)
Definition group_peer (now : Z) (g : rr_peers) (tried : list Z) : list rr_peer * option nat * list Z :=
  if rp_single g then
    match rp_peer g with
    | peer :: _ =>
        if down peer || (negb (max_conns peer =? 0) && (max_conns peer <=? conns peer))
        then (rp_peer g, None, tried) else (rp_peer g, Some 0%nat, tried)
    | [] => (rp_peer g, None, tried)
    end
  else ngx_http_upstream_get_peer now (rp_peer g) tried.

Definition add_conn (p : rr_peer) : rr_peer := set_conns (u64 (conns p + 1)) p.

(** [ngx_http_upstream_get_round_robin_peer] from the group [gi] on, which is
    the first of [us]. *)
Fixpoint rr_get (now : Z) (us : list rr_peers) (gi : nat) (rrp : rr_data) : Z * list rr_peers * rr_data :=
  match us with
  | [] => (NGX_BUSY, us, rrp)
  | g :: next =>
      let '(ps, found, tried) := group_peer now g (rrp_tried rrp) in
      match found with
      | Some p =>
          (NGX_OK, set_peer (alter add_conn p ps) g :: next, mk_data gi (Some (gi, p)) tried)
      | None =>
          let g := set_peer ps g in
          match next with
          | [] => (NGX_BUSY, g :: next, mk_data gi (rrp_current rrp) tried)
          | b :: _ =>
              let n := Z.to_nat (words (rp_number b)) in
              let tried := repeat 0 (Nat.min n (length tried)) ++ skipn n tried in
              let '(rc, next, rrp) := rr_get now next (S gi) (mk_data (S gi) (rrp_current rrp) tried) in
              (rc, g :: next, rrp)
          end
      end
  end.

Definition ngx_http_upstream_get_round_robin_peer (now : Z) (us : list rr_peers) (rrp : rr_data) :
    Z * list rr_peers * rr_data :=
  let '(rc, later, rrp') := rr_get now (skipn (rrp_peers rrp) us) (rrp_peers rrp) rrp in
  (rc, firstn (rrp_peers rrp) us ++ later, rrp').

(** What [ngx_http_upstream_free_round_robin_peer] does to the server. *)
Definition free_peer (now state : Z) (single : bool) (peer : rr_peer) : rr_peer :=
  if single then set_conns (u64 (conns peer - 1)) peer
  else
    let peer :=
      if negb (Z.land state NGX_PEER_FAILED =? 0) then
        let peer := set_checked now (set_accessed now (set_fails (u64 (fails peer + 1)) peer)) in
        let peer :=
          if negb (max_fails peer =? 0)
          then set_effective_weight (s64 (effective_weight peer - u64 (weight peer) / max_fails peer)) peer else peer in
        if effective_weight peer <? 0 then set_effective_weight 0 peer else peer
      else if accessed peer <? checked peer then set_fails 0 peer else peer in
    set_conns (u64 (conns peer - 1)) peer.

(** The servers and [pc->tries] afterwards. *)
Definition ngx_http_upstream_free_round_robin_peer (now state tries : Z) (us : list rr_peers) (rrp : rr_data) :
    list rr_peers * Z :=
  match rrp_current rrp, us !! rrp_peers rrp with
  | Some (_, p), Some g =>
      (<[rrp_peers rrp := set_peer (alter (free_peer now state (rp_single g)) p (rp_peer g)) g]> us,
       if rp_single g then 0 else if tries =? 0 then 0 else tries - 1)
  | _, _ => (us, tries)
  end.

(** ** The loop *)

Definition sum_cw (ps : list rr_peer) : Z := fold_right (fun p s => current_weight p + s) 0 ps.

Definition sum_w (ps : list rr_peer) : Z := fold_right (fun p s => weight p + s) 0 ps.

(** The weights of a server of a group whose weights are [W] in all, far enough
    from the ends of a word. *)
Definition ranged (W : Z) (p : rr_peer) : Prop :=
  0 <= effective_weight p <= weight p /\ weight p <= W /\
  - 2 ^ 63 <= current_weight p - W /\ current_weight p + W < 2 ^ 63.

(** What the loop makes of a server it does not pass over, when nothing overflows. *)
Definition bump (p : rr_peer) : rr_peer :=
  let p := set_current_weight (current_weight p + effective_weight p) p in
  if effective_weight p <? weight p then set_effective_weight (effective_weight p + 1) p else p.

Lemma bump_cw p : current_weight (bump p) = current_weight p + effective_weight p.
Proof. unfold bump. cbn. now destruct (_ <? _). Qed.

(** What the loop adds up. *)
Fixpoint gained (now : Z) (tried : list Z) (i : Z) (ps : list rr_peer) : Z :=
  match ps with
  | [] => 0
  | p :: ps => (if skipped now tried i p then 0 else effective_weight p) + gained now tried (i + 1) ps
  end.

Lemma select_loop_cons W now tried i p ps best total :
  ranged W p -> 0 <= total -> total + weight p < 2 ^ 63 ->
  select_loop now tried i (p :: ps) best total =
  if skipped now tried i p then
    let '(ps', best', total') := select_loop now tried (i + 1) ps best total in (p :: ps', best', total')
  else
    let w := current_weight (bump p) in
    let best := match best with None => Some (i, w) | Some (_, b) => if b <? w then Some (i, w) else best end in
    let '(ps', best', total') := select_loop now tried (i + 1) ps best (total + effective_weight p) in
    (bump p :: ps', best', total').
Proof.
  intros (H1 & H2 & H3 & H4) H5 H6. cbn [select_loop]. destruct (skipped now tried i p); [done |].
  rewrite bump_cw. unfold bump. cbn. rewrite (s64_small (total + _)) by lia.
  destruct (Z.ltb_spec (effective_weight p) (weight p)); rewrite !s64_small by lia; reflexivity.
Qed.

(** The best of [best] and the servers that are not passed over. *)
Definition best_spec (now : Z) (tried : list Z) (i : Z) (ps : list rr_peer) (best best' : option (Z * Z)) : Prop :=
  match best' with
  | None => best = None /\ forall k p, ps !! k = Some p -> skipped now tried (i + Z.of_nat k) p = true
  | Some (j, w) =>
      (best = Some (j, w) \/
       exists k p, ps !! k = Some p /\ j = i + Z.of_nat k /\ skipped now tried j p = false /\ w = current_weight (bump p)) /\
      (forall k p, ps !! k = Some p -> skipped now tried (i + Z.of_nat k) p = false -> current_weight (bump p) <= w) /\
      (forall j0 w0, best = Some (j0, w0) -> w0 <= w)
  end.

Lemma best_spec_skip now tried i p ps best best' :
  skipped now tried i p = true -> best_spec now tried (i + 1) ps best best' -> best_spec now tried i (p :: ps) best best'.
Proof.
  intros Es. unfold best_spec. destruct best' as [[j w] |]; cbv beta iota.
  - intros (Hor & Hmax & Hb). split_and!; [| | done].
    + destruct Hor as [-> | (k & q & Hk & -> & Hs & ->)]; [now left | right].
      exists (S k), q. split_and!; try done; lia.
    + intros [| k] q Hk Hs; cbn in Hk; [injection Hk as <-; rewrite Z.add_0_r in Hs; congruence |].
      apply (Hmax k q Hk). rewrite <- Hs. f_equal. lia.
  - intros [-> H]. split; [done |]. intros [| k] q Hk; cbn in Hk.
    + injection Hk as <-. now rewrite Z.add_0_r.
    + rewrite <- (H k q Hk). f_equal. lia.
Qed.

Lemma best_spec_take now tried i p ps best best' :
  skipped now tried i p = false ->
  best_spec now tried (i + 1) ps
    match best with
    | None => Some (i, current_weight (bump p))
    | Some (_, b) => if b <? current_weight (bump p) then Some (i, current_weight (bump p)) else best
    end best' ->
  best_spec now tried i (p :: ps) best best'.
Proof.
  intros Es. set (best1 := match best with None => _ | _ => _ end).
  assert (exists j1 w1, best1 = Some (j1, w1) /\ current_weight (bump p) <= w1 /\
    ((j1 = i /\ w1 = current_weight (bump p)) \/ best = Some (j1, w1)) /\ (forall j0 w0, best = Some (j0, w0) -> w0 <= w1))
    as (j1 & w1 & E1 & Hp & Hfrom & Hb1).
  { unfold best1. destruct best as [[j0 w0] |].
    - destruct (Z.ltb_spec w0 (current_weight (bump p))).
      + eexists _, _. split_and!; [done | lia | now left | intros ? ? [= <- <-]; lia].
      + eexists _, _. split_and!; [done | lia | now right | intros ? ? [= <- <-]; lia].
    - eexists _, _. split_and!; [done | lia | now left | done]. }
  rewrite E1. unfold best_spec. destruct best' as [[j w] |]; cbv beta iota; [| now intros [? _]].
  intros (Hor & Hmax & Hb). specialize (Hb _ _ eq_refl). split_and!.
  - destruct Hor as [[= <- <-] | (k & q & Hk & -> & Hs & ->)].
    + destruct Hfrom as [[-> ->] | ->]; [right; exists 0%nat, p | now left].
      split_and!; try done; lia.
    + right. exists (S k), q. split_and!; try done; lia.
  - intros [| k] q Hk Hs; cbn in Hk; [injection Hk as <-; lia |]. apply (Hmax k q Hk). rewrite <- Hs. f_equal. lia.
  - intros j0 w0 E. specialize (Hb1 _ _ E). lia.
Qed.

Lemma sum_w_nonneg W ps : Forall (ranged W) ps -> 0 <= sum_w ps.
Proof. intros H. induction H as [| p ps Hp _ IH]; cbn; [done |]. destruct Hp as (H1 & _). unfold sum_w in IH. lia. Qed.

Lemma select_loop_spec W now tried i ps best total ps' best' total' :
  Forall (ranged W) ps -> 0 <= total -> total + sum_w ps < 2 ^ 63 ->
  select_loop now tried i ps best total = (ps', best', total') ->
  (forall k p, ps !! k = Some p -> ps' !! k = Some (if skipped now tried (i + Z.of_nat k) p then p else bump p)) /\
  length ps' = length ps /\
  total' = total + gained now tried i ps /\ sum_cw ps' = sum_cw ps + gained now tried i ps /\
  best_spec now tried i ps best best'.
Proof.
  intros HF. revert i best total ps' best' total'.
  induction HF as [| p ps Hp HF IH]; intros i best total ps' best' total' Ht0 Htot E.
  { injection E as <- <- <-. split_and!; try done; cbn; try lia. unfold best_spec.
    destruct best as [[j w] |]; [| done]. split_and!; [now left | done | now intros ? ? [= <- <-]]. }
  pose proof Hp as (He & _). pose proof (sum_w_nonneg W ps HF) as Hw. unfold sum_w in Htot, Hw. cbn [fold_right] in Htot.
  rewrite (select_loop_cons W) in E by (done || lia). cbv zeta in E. cbn [sum_cw gained fold_right length]. fold (sum_cw ps).
  destruct (skipped now tried i p) eqn:Es;
    [destruct (select_loop _ _ _ _ best _) as [[ps1 b1] t1] eqn:E1 | destruct (select_loop _ _ _ _ _ (total + _)) as [[ps1 b1] t1] eqn:E1];
    injection E as <- <- <-; apply IH in E1 as (Hk & Hl & Ht & Hs & Hb); try (unfold sum_w; lia);
    (split_and!; [| cbn; lia | cbn; lia | cbn [sum_cw fold_right]; fold (sum_cw ps1); rewrite ?bump_cw; lia |
       first [now apply best_spec_skip | now apply best_spec_take]]).
  all: intros [| k] q Hq; [injection Hq as <-; now rewrite Z.add_0_r, Es |].
  all: change (ps !! k = Some q) in Hq; transitivity (ps1 !! k); [done |].
  all: rewrite (Hk k q Hq); now replace (i + 1 + Z.of_nat k) with (i + Z.of_nat (S k)) by lia.
Qed.

(** ** One choice *)

Lemma sum_cw_alter f n ps p :
  ps !! n = Some p -> sum_cw (alter f n ps) = sum_cw ps - current_weight p + current_weight (f p).
Proof.
  revert n. induction ps as [| q ps IH]; intros [| n] H; try done.
  - injection H as ->. cbn. lia.
  - specialize (IH n H). unfold sum_cw in *. cbn in *. lia.
Qed.

Lemma use_peer_cw now total b :
  - 2 ^ 63 <= current_weight b - total < 2 ^ 63 -> current_weight (use_peer now total b) = current_weight b - total.
Proof. intros H. unfold use_peer. cbn. rewrite (s64_small (_ - total) H). now destruct (_ <? _). Qed.

(** The weights of a group, none of which can overflow in a choice. *)
Definition fits (ps : list rr_peer) : Prop := Forall (ranged (sum_w ps)) ps.

Lemma fits_sum_w ps : fits ps -> sum_w ps < 2 ^ 63.
Proof. destruct ps as [| p ps]; [done |]. intros H. apply Forall_inv in H as (_ & _ & H1 & H2). lia. Qed.

Lemma gained_range W now tried i ps : Forall (ranged W) ps -> 0 <= gained now tried i ps <= sum_w ps.
Proof.
  intros H. revert i. induction H as [| p ps (H1 & _) _ IH]; intros i; cbn; [lia |].
  specialize (IH (i + 1)). unfold sum_w in IH. destruct (skipped _ _ _ _); lia.
Qed.

Lemma use_bump now tried ps n best :
  fits ps -> ps !! n = Some best ->
  current_weight (use_peer now (gained now tried 0 ps) (bump best)) =
    current_weight best + effective_weight best - gained now tried 0 ps.
Proof.
  intros Hf Hb. pose proof (gained_range _ now tried 0 ps Hf). unfold fits in Hf. rewrite Forall_lookup in Hf.
  destruct (Hf n best Hb) as (H1 & H2 & H3 & H4). rewrite use_peer_cw; rewrite bump_cw; lia.
Qed.

(** What a choice leaves as it is. *)
Definition kept (p p' : rr_peer) : Prop :=
  sockaddr p' = sockaddr p /\ weight p' = weight p /\ max_conns p' = max_conns p /\ max_fails p' = max_fails p /\
  fail_timeout p' = fail_timeout p /\ down p' = down p /\ fails p' = fails p /\
  effective_weight p <= effective_weight p' <= Z.max (effective_weight p) (weight p).

Lemma kept_refl p : kept p p.
Proof. repeat split; lia. Qed.

Lemma kept_bump p : kept p (bump p) /\ conns (bump p) = conns p.
Proof. unfold bump. cbn. destruct (Z.ltb_spec (effective_weight p) (weight p)); repeat split; cbn; lia. Qed.

Lemma kept_use now total p p' : kept p p' -> kept p (use_peer now total p').
Proof. unfold use_peer. cbn. destruct (_ <? _); exact id. Qed.

Lemma conns_use now total p : conns (use_peer now total p) = conns p.
Proof. unfold use_peer. cbn. now destruct (_ <? _). Qed.

Lemma get_peer_spec now ps tried ps' found tried' :
  fits ps ->
  ngx_http_upstream_get_peer now ps tried = (ps', found, tried') ->
  length ps' = length ps /\ sum_cw ps' = sum_cw ps /\
  match found with
  | None => ps' = ps /\ tried' = tried /\ forall k p, ps !! k = Some p -> skipped now tried (Z.of_nat k) p = true
  | Some n =>
      tried' = mark_tried tried (Z.of_nat n) /\
      exists best, ps !! n = Some best /\ skipped now tried (Z.of_nat n) best = false /\
        ps' !! n = Some (use_peer now (gained now tried 0 ps) (bump best)) /\
        (forall k p, ps !! k = Some p -> skipped now tried (Z.of_nat k) p = false ->
           current_weight (bump p) <= current_weight (bump best)) /\
        (forall k p, k <> n -> ps !! k = Some p ->
           ps' !! k = Some (if skipped now tried (Z.of_nat k) p then p else bump p))
  end.
Proof.
  intros Hfit. pose proof (fits_sum_w ps Hfit) as HW.
  unfold ngx_http_upstream_get_peer. destruct (select_loop now tried 0 ps None 0) as [[ps1 best] total] eqn:E.
  apply (select_loop_spec (sum_w ps)) in E as (Hk & Hl & Ht & Hs & Hb); [| done | done | lia]. rewrite Z.add_0_l in Ht. subst total. cbv zeta.
  destruct best as [[j w] |]; intros [= <- <- <-].
  - destruct Hb as ([? | (k & p & Hp & -> & Hskip & ->)] & Hmax & _); [done |]. rewrite Z.add_0_l in Hskip |- *. rewrite Nat2Z.id.
    pose proof (Hk k p Hp) as Hp1. rewrite Z.add_0_l, Hskip in Hp1.
    split_and!; [now rewrite length_alter | | done |].
    + rewrite (sum_cw_alter _ _ _ _ Hp1), (use_bump now tried ps k p Hfit Hp), bump_cw. lia.
    + exists p. split_and!; [done | done | | done |].
      * now rewrite list_lookup_alter_eq, Hp1.
      * intros k' q Hne Hq. rewrite list_lookup_alter_ne by done. apply (Hk k' q Hq).
  - destruct Hb as [_ Hall]. split_and!; [done | | | done | done].
    + assert (ps1 = ps) as -> by (apply list_eq_same_length with (n := length ps); [done | done |];
        intros k x y Hlt Hx Hy; rewrite (Hk k y Hy), (Hall k y Hy) in Hx; congruence). done.
    + apply list_eq_same_length with (n := length ps); [done | done |].
      intros k x y Hlt Hx Hy. rewrite (Hk k y Hy), (Hall k y Hy) in Hx. congruence.
Qed.

Lemma get_peer_kept now ps tried ps' found tried' k p' :
  fits ps -> ngx_http_upstream_get_peer now ps tried = (ps', found, tried') -> ps' !! k = Some p' ->
  exists p, ps !! k = Some p /\ kept p p'.
Proof.
  intros Hfit E Hk. apply (get_peer_spec _ _ _ _ _ _ Hfit) in E as (Hl & _ & Hf).
  destruct (lookup_lt_is_Some_2 ps k) as [p Hp]; [rewrite <- Hl; eapply lookup_lt_Some, Hk |]. exists p. split; [done |].
  destruct found as [n |]; [| destruct Hf as (-> & _); rewrite Hp in Hk; injection Hk as <-; apply kept_refl].
  destruct Hf as (_ & best & Hb & _ & Hb' & _ & Hrest). destruct (decide (k = n)) as [-> | Hne].
  - rewrite Hb' in Hk. rewrite Hb in Hp. injection Hk as <-. injection Hp as <-. apply kept_use, kept_bump.
  - rewrite (Hrest k p Hne Hp) in Hk. injection Hk as <-. destruct (skipped _ _ _ _); [apply kept_refl | apply kept_bump].
Qed.

(** ** The weights stay in range *)

(** What the server at the place [i] has. *)
Definition cw_at (ps : list rr_peer) (i : nat) : Z := from_option current_weight 0 (ps !! i).
Definition ew_at (ps : list rr_peer) (i : nat) : Z := from_option effective_weight 0 (ps !! i).

(** Weights for which no sum overflows, whatever the order of the choices: the
    current weights add up to 0 and have not drifted too far apart. *)
Record weights_ok (ps : list rr_peer) : Prop := {
  wo_effective : Forall (fun p => 0 <= effective_weight p <= weight p) ps;
  wo_small : Z.of_nat (length ps) * sum_w ps < 2 ^ 63;
  wo_sum : sum_cw ps = 0;
  wo_spread : spread (length ps) (sum_w ps) (cw_at ps) }.

Lemma sum_cw_zsum ps : sum_cw ps = zsum (length ps) (cw_at ps).
Proof.
  induction ps as [| p ps IH]; [done |]. cbn [length]. rewrite zsum_shift. cbn. fold (sum_cw ps). rewrite IH.
  reflexivity.
Qed.

Lemma sum_w_map ps : sum_w ps = fold_right Z.add 0 (List.map weight ps).
Proof. induction ps as [| p ps IH]; [done |]. cbn. unfold sum_w in IH. lia. Qed.

Lemma sum_w_same ps ps' :
  length ps' = length ps -> (forall i p', ps' !! i = Some p' -> exists p, ps !! i = Some p /\ weight p' = weight p) ->
  sum_w ps' = sum_w ps.
Proof.
  intros Hl H. rewrite !sum_w_map. f_equal. apply list_eq_same_length with (n := length ps);
    rewrite ?List.length_map; [done | done |]. intros i w' w _. rewrite !list_lookup_fmap.
  destruct (ps' !! i) as [p' |] eqn:E; [| done]. destruct (H i p' E) as (p & -> & Hw). cbn. congruence.
Qed.

Lemma weight_le_sum ps i p : Forall (fun p => 0 <= effective_weight p <= weight p) ps -> ps !! i = Some p -> weight p <= sum_w ps.
Proof.
  intros H. revert i. assert (forall l, Forall (fun p => 0 <= effective_weight p <= weight p) l -> 0 <= sum_w l) as Hpos.
  { intros l Hl. induction Hl as [| q l Hq _ IH]; cbn; [done |]. unfold sum_w in IH. lia. }
  induction H as [| q ps Hq H IH]; intros i Hi; [done |]. cbn. fold (sum_w ps). pose proof (Hpos ps H).
  destruct i as [| i]; [injection Hi as <- | specialize (IH i Hi)]; lia.
Qed.

Lemma weights_ok_bound ps i p :
  weights_ok ps -> ps !! i = Some p -> Z.abs (current_weight p) <= (Z.of_nat (length ps) - 1) * sum_w ps.
Proof.
  intros [_ _ H3 H4] Hi. rewrite sum_cw_zsum in H3. pose proof (spread_bound _ _ _ i H4 H3 (lookup_lt_Some _ _ _ Hi)) as H.
  unfold cw_at in H. rewrite Hi in H. cbn in H. lia.
Qed.

Lemma weights_ok_fits ps : weights_ok ps -> fits ps.
Proof.
  intros Hok. apply Forall_lookup. intros i p Hi. pose proof (weights_ok_bound ps i p Hok Hi) as Hb.
  destruct Hok as [H1 H2 _ _]. pose proof (weight_le_sum ps i p H1 Hi). rewrite Forall_lookup in H1. pose proof (H1 i p Hi).
  unfold ranged. lia.
Qed.

(** Servers at rest. *)
Lemma weights_ok_init ps :
  Forall (fun p => 0 <= effective_weight p <= weight p /\ current_weight p = 0) ps ->
  Z.of_nat (length ps) * sum_w ps < 2 ^ 63 -> weights_ok ps.
Proof.
  intros H Hs. rewrite Forall_lookup in H. assert (forall i, (i < length ps)%nat -> cw_at ps i = 0) as H0.
  { intros i Hi. unfold cw_at. destruct (ps !! i) as [p |] eqn:E; [apply (H i p E) | done]. }
  assert (Forall (fun p => 0 <= effective_weight p <= weight p) ps) as HF by (apply Forall_lookup; intros i p Hi; apply (H i p Hi)).
  split; [done | done | |].
  - rewrite sum_cw_zsum, (zsum_ext _ _ (fun _ => 0)) by exact H0. apply zsum_zero.
  - apply spread_zero; [| done]. destruct ps as [| p ps]; [done |].
    pose proof (weight_le_sum (p :: ps) 0 p HF eq_refl). destruct (H 0%nat p eq_refl). lia.
Qed.

(** Changes of the servers that leave the current weights. *)
Lemma weights_ok_same ps ps' :
  length ps' = length ps ->
  (forall i p', ps' !! i = Some p' -> exists p, ps !! i = Some p /\ weight p' = weight p /\
     current_weight p' = current_weight p /\ 0 <= effective_weight p' <= weight p') ->
  weights_ok ps -> weights_ok ps'.
Proof.
  intros Hl H [H1 H2 H3 H4]. assert (sum_w ps' = sum_w ps) as Hw by (apply sum_w_same; [done |]; intros i p' E; destruct (H i p' E) as (p & ? & ? & _); eauto).
  assert (forall i, (i < length ps)%nat -> cw_at ps i = cw_at ps' i) as Hc.
  { intros i Hi. unfold cw_at. destruct (lookup_lt_is_Some_2 ps' i) as [p' E]; [lia |].
    destruct (H i p' E) as (p & Hp & _ & Hcw & _). rewrite E, Hp. cbn. congruence. }
  split; rewrite ?Hl, ?Hw; [| done | |].
  - apply Forall_lookup. intros i p' E. destruct (H i p' E) as (p & _ & _ & _ & Hr). exact Hr.
  - rewrite sum_cw_zsum, Hl, <- (zsum_ext _ (cw_at ps)), <- sum_cw_zsum by done. done.
  - now apply (spread_ext _ _ (cw_at ps)).
Qed.

Lemma weights_ok_alter f n ps :
  (forall p, ps !! n = Some p -> weight (f p) = weight p /\ current_weight (f p) = current_weight p /\
     (0 <= effective_weight p <= weight p -> 0 <= effective_weight (f p) <= weight (f p))) ->
  weights_ok ps -> weights_ok (alter f n ps).
Proof.
  intros Hf Hok. apply (weights_ok_same ps); [apply length_alter | | done]. destruct Hok as [H1 _ _ _]. rewrite Forall_lookup in H1.
  intros i p' E. destruct (decide (i = n)) as [-> | Hne].
  - rewrite list_lookup_alter_eq in E. destruct (ps !! n) as [p |] eqn:Hp; [| done]. injection E as <-. destruct (Hf p eq_refl) as (E1 & E2 & E3). exists p. specialize (H1 n p Hp). split_and!; try done; lia.
  - rewrite list_lookup_alter_ne in E by done. exists p'. pose proof (H1 i p' E). split_and!; try done; lia.
Qed.

(** The servers that are not passed over. *)
Definition open (now : Z) (tried : list Z) (i : Z) (ps : list rr_peer) (k : nat) : bool :=
  from_option (fun p => negb (skipped now tried (i + Z.of_nat k) p)) false (ps !! k).

Lemma gained_growth now tried i ps : gained now tried i ps = growth (length ps) (ew_at ps) (open now tried i ps).
Proof.
  revert i. induction ps as [| p ps IH]; intros i; [done |]. cbn [gained length]. unfold growth. rewrite zsum_shift, IH.
  unfold open at 2. cbn. rewrite Z.add_0_r. f_equal; [now destruct (skipped now tried i p) |].
  apply zsum_ext. intros k _. unfold open. now replace (i + 1 + Z.of_nat k) with (i + Z.of_nat (S k)) by lia.
Qed.

(** A choice is a round of the abstract game. *)
Lemma get_peer_round now ps tried ps' n tried' i :
  fits ps -> ngx_http_upstream_get_peer now ps tried = (ps', Some n, tried') -> (i < length ps)%nat ->
  after_round (length ps) (cw_at ps) (ew_at ps) (open now tried 0 ps) n i = cw_at ps' i.
Proof.
  intros Hfit E Hi. apply (get_peer_spec _ _ _ _ _ _ Hfit) in E as (_ & _ & _ & best & Hb & Hskip & Hb' & _ & Hrest).
  unfold after_round. rewrite <- gained_growth. destruct (lookup_lt_is_Some_2 ps i Hi) as [p Hp].
  unfold open, cw_at, ew_at. rewrite Hp. cbn [from_option]. rewrite Z.add_0_l. destruct (Nat.eqb_spec i n) as [-> | Hne].
  - rewrite Hb in Hp. injection Hp as <-. rewrite Hb', Hskip. cbn. rewrite use_bump with (n := n) by done. done.
  - rewrite (Hrest i p Hne Hp). destruct (skipped now tried (Z.of_nat i) p); cbn [negb from_option]; rewrite ?bump_cw; lia.
Qed.

Lemma get_peer_weights_ok now ps tried ps' found tried' :
  weights_ok ps -> ngx_http_upstream_get_peer now ps tried = (ps', found, tried') -> weights_ok ps'.
Proof.
  intros Hok E. pose proof (weights_ok_fits ps Hok) as Hfit. pose proof (get_peer_spec _ _ _ _ _ _ Hfit E) as (Hl & Hs & Hf).
  destruct found as [n |]; [| now destruct Hf as (-> & _)]. pose proof Hok as [H1 H2 H3 H4]. rewrite Forall_lookup in H1.
  assert (sum_w ps' = sum_w ps) as Hw.
  { apply sum_w_same; [done |]. intros i p' Hi. destruct (get_peer_kept _ _ _ _ _ _ _ _ Hfit E Hi) as (p & ? & _ & ? & _); eauto. }
  split; rewrite ?Hl, ?Hw; [| done | lia |].
  - apply Forall_lookup. intros i p' Hi. destruct (get_peer_kept _ _ _ _ _ _ _ _ Hfit E Hi) as (p & Hp & _ & -> & _ & _ & _ & _ & _ & He).
    specialize (H1 i p Hp). lia.
  - eapply spread_ext; [intros i Hi; now apply (get_peer_round now ps tried ps' n tried') |].
    destruct Hf as (_ & best & Hb & Hskip & _ & Hmax & _).
    pose proof (gained_range _ now tried 0 ps Hfit) as Hg. rewrite gained_growth in Hg.
    apply spread_after; [eapply lookup_lt_Some, Hb | unfold open; rewrite Hb; cbn [from_option]; now rewrite Z.add_0_l, Hskip | | lia | | done].
    + intros i Hi. unfold ew_at. destruct (ps !! i) as [p |] eqn:Ep; [apply (H1 i p Ep) | done].
    + intros i Hi. unfold open, cw_at, ew_at. rewrite Hb. destruct (ps !! i) as [p |] eqn:Ep; [| done]. cbn [from_option].
      intros Hu. specialize (Hmax i p Ep). rewrite !bump_cw in Hmax. rewrite Z.add_0_l in Hu. apply Hmax. now destruct (skipped now tried (Z.of_nat i) p).
Qed.

(** ** Fairness *)

(** A server that never failed and has no limit of connections. *)
Definition healthy (p : rr_peer) : Prop :=
  down p = false /\ max_conns p = 0 /\ (max_fails p = 0 \/ fails p < max_fails p) /\
  effective_weight p = weight p /\ 0 < weight p.

Definition untried (tried : list Z) : Prop := forall i, tried_bit tried i = 0.

Lemma untried_zero n : untried (repeat 0 n).
Proof.
  intros i. unfold tried_bit. assert (nth (Z.to_nat (i / word_bits)) (repeat 0 n) 0 = 0) as ->; [| done].
  generalize (Z.to_nat (i / word_bits)). induction n as [| n IH]; intros [| k]; cbn; auto.
Qed.

Lemma healthy_not_skipped now tried i p : untried tried -> healthy p -> skipped now tried i p = false.
Proof.
  intros Ht (H1 & H2 & H3 & _ & _). unfold skipped. rewrite Ht, H1, H2. cbn.
  destruct H3 as [-> | H3]; [done |]. destruct (Z.leb_spec (max_fails p) (fails p)); [lia |]. now rewrite andb_false_r.
Qed.

Lemma gained_healthy now tried i ps : untried tried -> Forall healthy ps -> gained now tried i ps = sum_w ps.
Proof.
  intros Ht H. revert i. induction H as [| p ps Hp _ IH]; intros i; cbn; [done |].
  rewrite healthy_not_skipped, IH by done. unfold sum_w. destruct Hp as (_ & _ & _ & -> & _). done.
Qed.

Lemma healthy_bump p : healthy p -> bump p = set_current_weight (current_weight p + weight p) p.
Proof. intros (_ & _ & _ & H & _). unfold bump. cbn. rewrite H. now rewrite Z.ltb_irrefl. Qed.

(** If no server has a positive weight then neither has their sum. *)
Lemma sum_bump_le ps m :
  Forall healthy ps -> (forall k p, ps !! k = Some p -> current_weight (bump p) <= m) -> m <= 0 ->
  sum_cw ps + sum_w ps <= 0.
Proof.
  intros H. induction H as [| p ps Hp _ IH]; intros Hm H0; cbn; [lia |].
  pose proof (Hm 0%nat p eq_refl) as H1. rewrite bump_cw in H1. destruct Hp as (_ & _ & _ & Hw & _). rewrite Hw in H1.
  assert (sum_cw ps + sum_w ps <= 0) by (apply IH; [| done]; intros k q Hq; apply (Hm (S k) q Hq)).
  unfold sum_cw, sum_w in *. lia.
Qed.

Lemma sum_w_pos ps : Forall healthy ps -> ps <> [] -> 0 < sum_w ps.
Proof.
  intros H Hne. destruct H as [| p ps Hp H]; [done |]. clear Hne. assert (0 <= sum_w ps).
  { induction H as [| q ps Hq _ IH]; cbn; [lia |]. destruct Hq as (_ & _ & _ & _ & Hq). unfold sum_w in *. lia. }
  destruct Hp as (_ & _ & _ & _ & Hp). cbn. unfold sum_w in *. lia.
Qed.

(** One choice among healthy servers: every weight grows by the configured one,
    and the chosen server pays for all. *)
Lemma fair_choice now tried ps :
  Forall healthy ps -> ps <> [] -> untried tried -> weights_ok ps ->
  exists n ps', ngx_http_upstream_get_peer now ps tried = (ps', Some n, mark_tried tried (Z.of_nat n)) /\
    weights_ok ps' /\ length ps' = length ps /\ (n < length ps)%nat /\
    forall i p, ps !! i = Some p -> - sum_w ps < current_weight p -> exists p', ps' !! i = Some p' /\ healthy p' /\ weight p' = weight p /\
      current_weight p' = current_weight p + weight p - (if decide (i = n) then sum_w ps else 0) /\
      - sum_w ps < current_weight p'.
Proof.
  intros Hh Hne Ht Hok. pose proof (sum_w_pos ps Hh Hne) as HW. pose proof (weights_ok_fits ps Hok) as Hfit.
  destruct (ngx_http_upstream_get_peer now ps tried) as [[ps' found] tried'] eqn:E.
  pose proof (get_peer_weights_ok _ _ _ _ _ _ Hok E) as Hok'. destruct Hok as [_ _ H0 _].
  apply (get_peer_spec _ _ _ _ _ _ Hfit) in E as (Hl & Hs & Hfound). rewrite Forall_lookup in Hh.
  destruct found as [n |].
  2:{ destruct Hfound as (_ & _ & Hall). destruct ps as [| p ps]; [done |].
      specialize (Hall 0%nat p eq_refl). rewrite healthy_not_skipped in Hall; [done | done | apply (Hh 0%nat p eq_refl)]. }
  destruct Hfound as (-> & best & Hb & _ & Hb' & Hmax & Hrest).
  exists n, ps'. split_and!; [done | done | done | apply lookup_lt_Some in Hb; done |].
  assert (0 < current_weight (bump best)) as Hpos.
  { apply Z.nle_gt. intros Hle. pose proof (sum_bump_le ps (current_weight (bump best))) as Q.
    assert (sum_cw ps + sum_w ps <= 0); [| lia]. apply Q; [now apply Forall_lookup | | done].
    intros k p Hp. apply Hmax with k; [done |]. apply healthy_not_skipped; [done | eapply Hh, Hp]. }
  pose proof (use_bump now tried ps n best Hfit Hb) as Huse.
  rewrite gained_healthy in Hb', Huse by (done || now apply Forall_lookup).
  intros i p Hp Hlow. pose proof (Hh _ _ Hp) as Hhp. pose proof Hhp as (H1 & H2 & H3 & H4 & H5).
  destruct (decide (i = n)) as [-> | Hin].
  - rewrite Hb in Hp. injection Hp as <-. exists (use_peer now (sum_w ps) (bump best)).
    rewrite Huse, H4. rewrite bump_cw, H4 in Hpos. split_and!; try done; [| | lia].
    + rewrite healthy_bump by done. unfold use_peer. cbn. destruct (_ <? _); done.
    + rewrite healthy_bump by done. unfold use_peer. cbn. now destruct (_ <? _).
  - exists (bump p). rewrite (Hrest i p Hin Hp), healthy_not_skipped by done. rewrite bump_cw, H4.
    split_and!; try done; try lia; rewrite healthy_bump by done; done.
Qed.

(** A sequence of requests, at the times [nows]: the servers chosen and the
    upstream afterwards. *)
Fixpoint serve (nows : list Z) (us : list rr_peers) : list (option (nat * nat)) * list rr_peers :=
  match nows with
  | [] => ([], us)
  | now :: nows =>
      let '(_, us, rrp) := ngx_http_upstream_get_round_robin_peer now us (fst (rr_init us)) in
      let '(l, us) := serve nows us in
      (rrp_current rrp :: l, us)
  end.

Definition count_chosen (i : nat) (l : list (option (nat * nat))) : Z :=
  Z.of_nat (length (List.filter (fun c => bool_decide (c = Some (0%nat, i))) l)).

(** The first group with a weight for every server, after [k] requests of which
    [n i] went to the server [i]. *)
Definition fair_state (ws : list Z) (k : Z) (n : nat -> Z) (us : list rr_peers) : Prop :=
  let W := fold_right Z.add 0 ws in
  exists g backup, us = g :: backup /\ rp_single g = false /\ length (rp_peer g) = length ws /\
    weights_ok (rp_peer g) /\
    forall i w, ws !! i = Some w -> exists p, rp_peer g !! i = Some p /\ healthy p /\ weight p = w /\
      current_weight p = k * w - n i * W /\ - W < current_weight p.

Lemma sum_w_weights ws ps :
  length ps = length ws -> (forall i w, ws !! i = Some w -> exists p, ps !! i = Some p /\ weight p = w) ->
  sum_w ps = fold_right Z.add 0 ws.
Proof.
  revert ps. induction ws as [| w ws IH]; intros [| p ps] Hl H; try done.
  cbn. destruct (H 0%nat w eq_refl) as (q & [= <-] & <-). rewrite <- (IH ps); [done | now injection Hl |].
  intros i w' Hw. apply (H (S i) w' Hw).
Qed.

Lemma rr_init_untried us : untried (rrp_tried (fst (rr_init us))).
Proof.
  destruct us as [| g next]; [intros i; unfold tried_bit; cbn; destruct (Z.to_nat (i / word_bits)); reflexivity |].
  unfold rr_init. cbv zeta. cbn [fst rrp_tried]. destruct (_ <=? word_bits); [apply (untried_zero 1) | apply untried_zero].
Qed.

Lemma fair_step ws k n us now :
  ws <> [] -> fair_state ws k n us ->
  exists j us' rrp, ngx_http_upstream_get_round_robin_peer now us (fst (rr_init us)) = (NGX_OK, us', rrp) /\
    rrp_current rrp = Some (0%nat, j) /\ (j < length ws)%nat /\
    fair_state ws (k + 1) (fun i => n i + (if decide (i = j) then 1 else 0)) us'.
Proof.
  intros Hne (g & backup & -> & Hsingle & Hlen & Hok & Hp).
  assert (Forall healthy (rp_peer g)) as Hh.
  { apply Forall_lookup. intros i p Hi. destruct (lookup_lt_is_Some_2 ws i) as [w Hw];
      [rewrite <- Hlen; eapply lookup_lt_Some, Hi |]. destruct (Hp i w Hw) as (p' & Hp' & Hh & _). congruence. }
  assert (sum_w (rp_peer g) = fold_right Z.add 0 ws) as HW.
  { apply sum_w_weights; [done |]. intros i w Hw. destruct (Hp i w Hw) as (p & ? & _ & ? & _). eauto. }
  assert (rp_peer g <> []) as Hne' by (intros E; rewrite E in Hlen; destruct ws; done).
  pose proof (rr_init_untried (g :: backup)) as Ht. set (rrp := fst (rr_init (g :: backup))) in *.
  assert (rrp_peers rrp = 0%nat) as H0 by (unfold rrp, rr_init; reflexivity).
  destruct (fair_choice now (rrp_tried rrp) (rp_peer g) Hh Hne' Ht Hok) as (j & ps' & E & Hok' & Hl' & Hj & Hall).
  exists j. eexists _, _. split_and!.
  - unfold ngx_http_upstream_get_round_robin_peer. rewrite H0. cbn [skipn firstn rr_get app]. unfold group_peer.
    rewrite Hsingle, E. reflexivity.
  - reflexivity.
  - lia.
  - eexists _, backup. split; [reflexivity |]. cbn [rp_single rp_peer set_peer].
    split_and!; [done | now rewrite length_alter, Hl' | |].
    + now apply weights_ok_alter.
    + intros i w Hw. destruct (Hp i w Hw) as (p & Hi & Hhp & Hwp & Hcw & Hlow).
      destruct (Hall i p Hi ltac:(lia)) as (p' & Hi' & Hhp' & Hwp' & Hcw' & Hlow').
      rewrite HW in Hcw', Hlow'. destruct (decide (i = j)) as [-> | Hij].
      * exists (add_conn p'). rewrite list_lookup_alter_eq, Hi'. split_and!; [done | exact Hhp' | cbn; congruence | | exact Hlow'].
        cbn. rewrite Hcw', Hcw, Hwp. lia.
      * exists p'. rewrite list_lookup_alter_ne by done. split_and!; try done; [congruence |]. rewrite Hcw', Hcw, Hwp. lia.
Qed.

Lemma count_chosen_cons i c l :
  count_chosen i (c :: l) = (if decide (c = Some (0%nat, i)) then 1 else 0) + count_chosen i l.
Proof. unfold count_chosen. cbn [List.filter]. case_bool_decide as E; destruct (decide _); try done; cbn; lia. Qed.

Lemma serve_fair ws nows k n us :
  ws <> [] -> fair_state ws k n us ->
  let '(l, us') := serve nows us in
  length l = length nows /\ Forall (fun c => exists j, c = Some (0%nat, j) /\ (j < length ws)%nat) l /\
  fair_state ws (k + Z.of_nat (length nows)) (fun i => n i + count_chosen i l) us'.
Proof.
  intros Hne. revert k n us. induction nows as [| now nows IH]; intros k n us H; cbn [serve].
  - split_and!; [done | done |]. cbn. rewrite Z.add_0_r.
    destruct H as (g & b & E & H1 & H2 & H3 & H4). exists g, b. split_and!; try done. intros i w Hw.
    destruct (H4 i w Hw) as (p & ? & ? & ? & Hc & ?). exists p. split_and!; try done. rewrite Hc.
    change (count_chosen i []) with 0. now rewrite Z.add_0_r.
  - destruct (fair_step ws k n us now Hne H) as (j & us' & rrp & -> & Hcur & Hj & Hst).
    specialize (IH _ _ _ Hst). destruct (serve nows us') as [l us'']. destruct IH as (Hl & HF & Hst').
    split_and!; [cbn; lia | constructor; [eauto | done] |].
    destruct Hst' as (g & b & E & H1 & H2 & H3 & H4). exists g, b. split_and!; try done. intros i w Hw.
    destruct (H4 i w Hw) as (p & ? & ? & ? & Hc & ?). exists p. split_and!; try done.
    rewrite Hc, count_chosen_cons, Hcur. cbn [length]. rewrite Nat2Z.inj_succ.
    destruct (decide (i = j)) as [-> | Hij], (decide (Some (0%nat, _) = Some (0%nat, _))); try congruence; lia.
Qed.

(** Weights that are not negative and add up to nothing are all zero. *)
Lemma sum_cw_zero ps i p :
  (forall i p, ps !! i = Some p -> 0 <= current_weight p) -> sum_cw ps = 0 -> ps !! i = Some p -> current_weight p = 0.
Proof.
  assert (forall l, (forall i p, l !! i = Some p -> 0 <= current_weight p) -> 0 <= sum_cw l) as Hpos.
  { intros l. induction l as [| q l IH]; intros H; [cbn; lia |]. pose proof (H 0%nat q eq_refl).
    assert (0 <= sum_cw l) by (apply IH; intros k x Hx; apply (H (S k) x Hx)). unfold sum_cw in *. cbn. lia. }
  revert i. induction ps as [| q ps IH]; intros i H Hs Hi; [done |]. cbn in Hs. fold (sum_cw ps) in Hs.
  pose proof (H 0%nat q eq_refl) as Hq.
  assert (forall k x, ps !! k = Some x -> 0 <= current_weight x) as H' by (intros k x Hx; apply (H (S k) x Hx)).
  pose proof (Hpos ps H'). destruct i as [| i]; [injection Hi as <-; lia | apply (IH i); [done | lia | exact Hi]].
Qed.

Lemma fair_from ws us nows :
  ws <> [] -> fair_state ws 0 (fun _ => 0) us ->
  let W := fold_right Z.add 0 ws in
  let l := fst (serve nows us) in
  length l = length nows /\
  forall i w, ws !! i = Some w ->
    count_chosen i l * W < Z.of_nat (length nows) * w + W /\
    forall m, Z.of_nat (length nows) = m * W -> count_chosen i l = m * w.
Proof.
  intros Hne Hst W l. pose proof (serve_fair ws nows 0 _ us Hne Hst) as Q. unfold l.
  destruct (serve nows us) as [l' us']. destruct Q as (Hl & _ & g & b & _ & _ & Hlen & [_ _ Hsum _] & Hp).
  cbn [fst] in *. fold W in Hp. rewrite Z.add_0_l in Hp. split; [done |]. intros i w Hw.
  assert (0 < W) as HW.
  { pose proof (sum_w_pos (rp_peer g)) as Q. assert (sum_w (rp_peer g) = W) as <-.
    { apply sum_w_weights; [done |]. intros i' w' Hw'. destruct (Hp i' w' Hw') as (p & ? & _ & ? & _). eauto. }
    apply Q; [| intros E; rewrite E in Hlen; destruct ws; done]. apply Forall_lookup. intros i' p Hi'.
    destruct (lookup_lt_is_Some_2 ws i') as [w' Hw']; [rewrite <- Hlen; eapply lookup_lt_Some, Hi' |].
    destruct (Hp i' w' Hw') as (p' & ? & ? & _). congruence. }
  split.
  - destruct (Hp i w Hw) as (p & _ & _ & _ & Hc & Hlow). rewrite Hc, Z.add_0_l in Hlow. lia.
  - intros m Hm.
    assert (forall i p, rp_peer g !! i = Some p -> 0 <= current_weight p) as Hnonneg.
    { intros i' p Hi'. destruct (lookup_lt_is_Some_2 ws i') as [w' Hw']; [rewrite <- Hlen; eapply lookup_lt_Some, Hi' |].
      destruct (Hp i' w' Hw') as (p' & Hi'' & _ & _ & Hc & Hlow). rewrite Hi' in Hi''. injection Hi'' as <-.
      assert (current_weight p = (m * w' - count_chosen i' l') * W) as Ec by (rewrite Hc, Hm; ring).
      rewrite Ec in Hlow |- *. assert (- 1 < m * w' - count_chosen i' l') by nia. nia. }
    destruct (Hp i w Hw) as (p & Hi & _ & _ & Hc & _).
    pose proof (sum_cw_zero _ _ _ Hnonneg Hsum Hi) as H0.
    assert ((m * w - count_chosen i l') * W = 0) as Ec by (rewrite <- H0, Hc, Hm; ring). nia.
Qed.

(** The weights of a group of the configured servers, one for every address. *)
Definition weights (servers : list ngx_http_upstream_server_t) (backup : bool) : list Z :=
  List.flat_map (fun s => repeat (sv_weight s) (length (sv_addrs s))) (in_group servers backup).

(** No sum of the weights of a group overflows: the number of the servers times
    the sum of their weights is below 2^63. *)
Definition weights_small (servers : list ngx_http_upstream_server_t) (backup : bool) : Prop :=
  Z.of_nat (length (weights servers backup)) * fold_right Z.add 0 (weights servers backup) < 2 ^ 63.

(** A server that is up and has no limit of connections. *)
Definition plain_server (s : ngx_http_upstream_server_t) : Prop :=
  sv_down s = false /\ sv_max_conns s = 0 /\ 0 <= sv_max_fails s /\ 0 < sv_weight s.

Lemma weights_peers servers backup :
  weights servers backup = List.map weight (List.flat_map server_peers (in_group servers backup)).
Proof.
  unfold weights. induction (in_group servers backup) as [| s l IH]; [done |]. cbn. rewrite List.map_app, <- IH. f_equal.
  unfold server_peers. rewrite List.map_map. cbn. now rewrite List.map_const.
Qed.

Lemma group_number_weights servers backup :
  Z.of_nat (length (weights servers backup)) < 2 ^ 64 ->
  group_number servers backup = Z.of_nat (length (weights servers backup)).
Proof.
  unfold group_number, weights. induction (in_group servers backup) as [| s l IH]; [done |]. cbn [List.flat_map fold_right].
  rewrite List.length_app, List.repeat_length. intros H. rewrite IH, u64_small by lia. lia.
Qed.

(** The peers of a configured group at rest. *)
Lemma weights_small_ok servers backup :
  Forall (fun p => 0 <= effective_weight p <= weight p /\ current_weight p = 0)
    (List.flat_map server_peers (in_group servers backup)) ->
  weights_small servers backup -> weights_ok (List.flat_map server_peers (in_group servers backup)).
Proof.
  intros H Hs. apply weights_ok_init; [done |]. unfold weights_small in Hs. rewrite weights_peers, List.length_map in Hs.
  now rewrite sum_w_map.
Qed.

Lemma init_servers_group allocs servers us :
  init_servers allocs servers = (NGX_OK, us) -> (1 < length (weights servers false))%nat ->
  Z.of_nat (length (weights servers false)) < 2 ^ 64 ->
  exists backup, us = group servers false false :: backup.
Proof.
  intros E Hl Hl'. unfold init_servers in E. rewrite (group_number_weights servers false) in E by done.
  replace (Z.of_nat (length (weights servers false)) =? 1) with false in E by lia.
  repeat match type of E with (if ?b then _ else _) = _ => destruct b end; try done; injection E as <-; eauto.
Qed.

Lemma plain_peers servers backup :
  Forall plain_server servers ->
  Forall (fun p => healthy p /\ current_weight p = 0) (List.flat_map server_peers (in_group servers backup)).
Proof.
  intros Hs. apply List.Forall_flat_map, List.Forall_forall. intros s Hin. apply List.filter_In in Hin as [Hin _].
  rewrite List.Forall_forall in Hs. destruct (Hs s Hin) as (H1 & H2 & H3 & H4).
  unfold server_peers. apply List.Forall_map, List.Forall_forall. intros a _. cbn. split; [| done].
  unfold healthy. cbn. split_and!; try done. lia.
Qed.

Lemma length_sum_w ps : Forall healthy ps -> Z.of_nat (length ps) <= sum_w ps.
Proof.
  intros H. induction H as [| p ps Hp _ IH]; [done |]. destruct Hp as (_ & _ & _ & _ & Hp). cbn. fold (sum_w ps). lia.
Qed.

Lemma init_fair allocs servers us :
  init_servers allocs servers = (NGX_OK, us) -> (1 < length (weights servers false))%nat -> Forall plain_server servers ->
  weights_small servers false -> fair_state (weights servers false) 0 (fun _ => 0) us.
Proof.
  intros E Hl Hs Hsmall. pose proof (plain_peers servers false Hs) as Hp.
  assert (weights_ok (List.flat_map server_peers (in_group servers false))) as Hok.
  { apply weights_small_ok; [| done]. eapply List.Forall_impl; [| exact Hp].
    intros p [(_ & _ & _ & -> & ?) ?]. split; [lia | done]. }
  assert (Forall healthy (List.flat_map server_peers (in_group servers false))) as Hh
    by (eapply List.Forall_impl; [| exact Hp]; now intros p [H _]).
  pose proof (length_sum_w _ Hh) as Hn.
  destruct (init_servers_group _ _ _ E Hl) as [backup ->].
  { unfold weights_small in Hsmall. rewrite weights_peers, List.length_map in *. rewrite <- sum_w_map in Hsmall. nia. }
  exists (group servers false false), backup. cbn [group rp_single rp_peer].
  rewrite weights_peers, List.length_map, <- sum_w_map in *. set (ps := List.flat_map server_peers _) in *. clearbody ps.
  split_and!; [done | done | done | done |].
  assert (0 < sum_w ps) as HW by lia.
  intros i w Hw. rewrite list_lookup_fmap in Hw. destruct (ps !! i) as [p |] eqn:Hi; [| done]. injection Hw as <-.
  rewrite Forall_lookup in Hp. destruct (Hp i p Hi) as [H1 H2]. exists p. split_and!; try done; lia.
Qed.



(** Two servers of the greatest weight that the configuration accepts, 2^63 - 1:
    their sum overflows, and the first one gets both of the first two requests. *)
Example round_robin_overflow :
  let servers := [mk_server [1] (2 ^ 63 - 1) 0 1 10 false false; mk_server [2] (2 ^ 63 - 1) 0 1 10 false false] in
  fst (serve [0; 0] (snd (init_servers [] servers))) = [Some (0, 0); Some (0, 0)]%nat.
Proof. reflexivity. Qed.

(** ** Which server, and when there is none *)

Lemma mark_tried_spec tried n k :
  0 <= n -> 0 <= k -> (Z.to_nat (n / word_bits) < length tried)%nat ->
  (tried_bit (mark_tried tried n) k =? 0) = (tried_bit tried k =? 0) && negb (k =? n).
Proof.
  intros Hn Hk Hlen. unfold tried_bit, mark_tried. unfold word_bits in *.
  pose proof (Z.mod_pos_bound n 64 ltac:(lia)). pose proof (Z.mod_pos_bound k 64 ltac:(lia)).
  pose proof (Z.div_mod n 64 ltac:(lia)). pose proof (Z.div_mod k 64 ltac:(lia)).
  rewrite !land_bit_zero by lia. rewrite !nth_lookup.
  destruct (decide (Z.to_nat (k / 64) = Z.to_nat (n / 64))) as [E | E].
  - assert (k / 64 = n / 64) as E' by (pose proof (Z.div_pos n 64); pose proof (Z.div_pos k 64); lia).
    rewrite E, list_lookup_insert_eq by done. cbn [default from_option id]. rewrite Z.lor_spec, Z.shiftl_spec by lia.
    rewrite negb_orb. f_equal. f_equal. destruct (Z.eqb_spec k n) as [-> | Hne]; [now rewrite Z.sub_diag |].
    destruct (Z.ltb_spec (k mod 64 - n mod 64) 0); [now apply Z.testbit_neg_r |]. apply (Z.bits_above_log2 1); cbn; lia.
  - rewrite list_lookup_insert_ne by done. destruct (Z.eqb_spec k n) as [-> | Hne]; [done |]. now rewrite andb_true_r.
Qed.

(** A server is chosen that is up, has a connection to spare, has not
    failed too often too recently and has not been tried for this request, of
    the greatest current weight among these; it counts as tried from then on;
    and there is none exactly if every server is to be passed over, in which
    case nothing changes. *)
Theorem get_peer_best now ps tried ps' found tried' :
  fits ps ->
  (forall i, 0 <= i < Z.of_nat (length ps) -> (Z.to_nat (i / word_bits) < length tried)%nat) ->
  ngx_http_upstream_get_peer now ps tried = (ps', found, tried') ->
  match found with
  | None => ps' = ps /\ tried' = tried /\ forall k p, ps !! k = Some p -> skipped now tried (Z.of_nat k) p = true
  | Some n =>
      exists best, ps !! n = Some best /\ skipped now tried (Z.of_nat n) best = false /\
        (forall k p, ps !! k = Some p -> skipped now tried (Z.of_nat k) p = false ->
           current_weight p + effective_weight p <= current_weight best + effective_weight best) /\
        forall k, 0 <= k ->
          (tried_bit tried' k =? 0) = (tried_bit tried k =? 0) && negb (k =? Z.of_nat n)
  end.
Proof.
  intros Hfit Hlen E. apply (get_peer_spec _ _ _ _ _ _ Hfit) in E as (_ & _ & Hf). destruct found as [n |]; [| tauto].
  destruct Hf as (-> & best & Hb & Hskip & _ & Hmax & _). exists best. split_and!; [done | done | |].
  - intros k p Hp Hk. specialize (Hmax k p Hp Hk). rewrite !bump_cw in Hmax. done.
  - intros k Hk. apply mark_tried_spec; [lia | done |]. apply Hlen. apply lookup_lt_Some in Hb. lia.
Qed.

Lemma get_peer_best_witness :
  let ps := rp_peer (group [mk_server [1] 2 1 1 10 false false; mk_server [2] 1 0 1 10 false false] false false) in
  snd (fst (ngx_http_upstream_get_peer 0 ps [1])) = Some 1%nat /\
  exists best, ps !! 1%nat = Some best /\ skipped 0 [1] 1 best = false.
Proof.
  split; [reflexivity |].
  destruct (get_peer_best 0 (rp_peer (group [mk_server [1] 2 1 1 10 false false; mk_server [2] 1 0 1 10 false false] false false))
    [1] _ (Some 1%nat) _ ltac:(repeat constructor; cbn; lia) ltac:(intros i Hi; cbn in Hi; replace (i / word_bits) with 0 by (symmetry; apply Z.div_small; unfold word_bits; lia); cbn; lia)
    eq_refl) as (best & H1 & H2 & _).
  exists best. exact (conj H1 H2).
Defined.
