(* ===== verification/HttpRrConns.v ===== *)
(** The connections of the upstream servers: requests that begin, get a server
    and give it back in any order (http/ngx_http_upstream_round_robin.c). *)
From S2P Require Import Prelude.
From S2P Require Export HttpRoundRobin.
From stdpp Require Import base list option relations.
#[global] Open Scope Z_scope.

(** ** Requests and connections *)

(** A request: its data, [pc->tries], and whether it holds a connection. *)
Record rr_request := mk_rr_request { rq_data : rr_data; rq_tries : Z; rq_active : bool }.

Record world := mk_world { w_us : list rr_peers; w_reqs : list rr_request }.

(** What happens in any order: a request begins, asks for a server, and gives it
    back, with the state that it found the server in. *)
Inductive rr_step : world -> world -> Prop :=
| step_begin us reqs :
    Z.of_nat (length reqs) < 2 ^ 64 - 2 ->
    rr_step (mk_world us reqs) (mk_world us (reqs ++ [mk_rr_request (fst (rr_init us)) (snd (rr_init us)) false]))
| step_get us reqs i rq now rc us' d' :
    reqs !! i = Some rq -> rq_active rq = false ->
    ngx_http_upstream_get_round_robin_peer now us (rq_data rq) = (rc, us', d') ->
    rr_step (mk_world us reqs) (mk_world us' (<[i := mk_rr_request d' (rq_tries rq) (rc =? NGX_OK)]> reqs))
| step_free us reqs i rq now state us' tries' :
    reqs !! i = Some rq -> rq_active rq = true ->
    ngx_http_upstream_free_round_robin_peer now state (rq_tries rq) us (rq_data rq) = (us', tries') ->
    rr_step (mk_world us reqs) (mk_world us' (<[i := mk_rr_request (rq_data rq) tries' false]> reqs)).

(** The connections to a server of a group that are in use. *)
Definition holds_peer (g p : nat) (rq : rr_request) : bool :=
  rq_active rq && bool_decide (rrp_current (rq_data rq) = Some (g, p)).

Definition in_use (g p : nat) (reqs : list rr_request) : Z :=
  fold_right (fun rq n => Z.b2z (holds_peer g p rq) + n) 0 reqs.

Record peer_ok (n : Z) (p : rr_peer) : Prop := {
  po_conns : conns p = n;
  po_limit : max_conns p = 0 \/ n <= max_conns p;
  po_conf : 0 <= max_conns p /\ 0 <= max_fails p }.

Record rr_ok (w : world) : Prop := {
  ok_length : Z.of_nat (length (w_reqs w)) < 2 ^ 64 - 1;
  ok_peer : forall g G p P, w_us w !! g = Some G -> rp_peer G !! p = Some P -> peer_ok (in_use g p (w_reqs w)) P;
  ok_weights : forall g G, w_us w !! g = Some G -> weights_ok (rp_peer G);
  ok_request : forall rq, In rq (w_reqs w) -> rq_active rq = true ->
    exists G p P, rrp_current (rq_data rq) = Some (rrp_peers (rq_data rq), p) /\
      w_us w !! rrp_peers (rq_data rq) = Some G /\ rp_peer G !! p = Some P }.

Lemma in_use_cons g p rq l : in_use g p (rq :: l) = Z.b2z (holds_peer g p rq) + in_use g p l.
Proof. reflexivity. Qed.

Lemma in_use_app g p l1 l2 : in_use g p (l1 ++ l2) = in_use g p l1 + in_use g p l2.
Proof. induction l1 as [| rq l IH]; cbn; [done |]. unfold in_use in *. lia. Qed.

Lemma in_use_insert g p l i rq rq' :
  l !! i = Some rq ->
  in_use g p (<[i := rq']> l) = in_use g p l - Z.b2z (holds_peer g p rq) + Z.b2z (holds_peer g p rq').
Proof.
  revert i. induction l as [| q l IH]; intros [| i] H; try done.
  - injection H as ->. cbn. lia.
  - specialize (IH i H). change (<[S i := rq']> (q :: l)) with (q :: <[i := rq']> l). rewrite !in_use_cons. lia.
Qed.

Lemma in_use_range g p l : 0 <= in_use g p l <= Z.of_nat (length l).
Proof.
  induction l as [| rq l IH]; cbn; [lia |]. unfold in_use in *. destruct (holds_peer g p rq); cbn; lia.
Qed.

Lemma in_use_pos g p l i rq : l !! i = Some rq -> holds_peer g p rq = true -> 1 <= in_use g p l.
Proof.
  intros H Hh. set (rq' := mk_rr_request (rq_data rq) 0 false).
  pose proof (in_use_insert g p l i rq rq' H) as E. rewrite Hh in E.
  assert (holds_peer g p rq' = false) as E' by done. rewrite E' in E. unfold Z.b2z in E.
  pose proof (in_use_range g p (<[i := rq']> l)). lia.
Qed.

(** How a group changes when a server of it is chosen, if any is. *)
Record chosen (c : option nat) (G G' : rr_peers) : Prop := {
  ch_single : rp_single G' = rp_single G;
  ch_length : length (rp_peer G') = length (rp_peer G);
  ch_weights : weights_ok (rp_peer G');
  ch_peer : forall p P', rp_peer G' !! p = Some P' -> exists P, rp_peer G !! p = Some P /\ kept P P' /\
    if decide (c = Some p)
    then conns P' = u64 (conns P + 1) /\ (max_conns P = 0 \/ conns P < max_conns P) /\ down P = false
    else conns P' = conns P }.

Lemma kept_conn P P' : kept P P' -> kept P (add_conn P').
Proof. exact id. Qed.

Lemma chosen_refl G : weights_ok (rp_peer G) -> chosen None G G.
Proof. intros H. split; [done | done | done |]. intros p P' HP. exists P'. split_and!; [done | apply kept_refl | done]. Qed.

Lemma skipped_false now tried i p :
  skipped now tried i p = false -> (max_conns p = 0 \/ conns p < max_conns p) /\ down p = false /\ tried_bit tried i = 0.
Proof.
  unfold skipped. rewrite !orb_false_iff. intros [[[H1 H2] _] H3]. split_and!; [lia | done | lia].
Qed.

Lemma add_conn_weights n ps : weights_ok ps -> weights_ok (alter add_conn n ps).
Proof. now apply weights_ok_alter. Qed.

Lemma group_peer_chosen now g tried ps found tried' :
  weights_ok (rp_peer g) ->
  group_peer now g tried = (ps, found, tried') ->
  length ps = length (rp_peer g) /\
  chosen found g (set_peer (match found with Some p => alter add_conn p ps | None => ps end) g).
Proof.
  intros Hok. unfold group_peer. destruct (rp_single g) eqn:Es.
  - destruct (rp_peer g) as [| p l] eqn:El.
    { intros [= <- <- <-]. split; [done |]. split; cbn; rewrite ?El; done. }
    destruct (_ || _) eqn:Eb; intros [= <- <- <-]; (split; [done |]);
      (split; cbn [rp_single rp_peer set_peer]; rewrite ?El; [done | done | first [exact Hok | exact (add_conn_weights 0 _ Hok)] |]).
    + intros k P' Hk. exists P'. split_and!; [done | apply kept_refl | done].
    + intros [| k] P' Hk.
      * injection Hk as <-. exists p. rewrite decide_True by done. apply orb_false_iff in Eb as [Hd Hc].
        split_and!; [done | apply kept_conn, kept_refl | done | lia | done].
      * exists P'. rewrite decide_False by congruence. split_and!; [done | apply kept_refl | done].
  - intros E. pose proof (get_peer_weights_ok _ _ _ _ _ _ Hok E) as Hok'.
    apply (get_peer_spec _ _ _ _ _ _ (weights_ok_fits _ Hok)) in E as (Hl & Hs & Hf). split; [done |].
    destruct found as [n |].
    + destruct Hf as (-> & best & Hb & Hskip & Hb' & _ & Hrest).
      split; [done | cbn; now rewrite length_alter | now apply add_conn_weights |]. cbn [rp_peer set_peer].
      intros k P' Hk. destruct (decide (k = n)) as [-> | Hne].
      * rewrite list_lookup_alter_eq, Hb' in Hk. injection Hk as <-. exists best. rewrite decide_True by done.
        apply skipped_false in Hskip as (H1 & H2 & _).
        destruct (kept_bump best) as [Hk Hc]. split_and!; [done | | | done | done].
        -- apply kept_conn, (kept_use now (gained now tried 0 (rp_peer g)) _ _ Hk).
        -- cbn [conns add_conn set_conns]. now rewrite conns_use, Hc.
      * rewrite list_lookup_alter_ne in Hk by done.
        destruct (rp_peer g !! k) as [P |] eqn:HP; [| apply lookup_lt_Some in Hk; apply lookup_ge_None in HP; lia].
        rewrite (Hrest k P Hne HP) in Hk. exists P. rewrite decide_False by congruence.
        destruct (skipped now tried _ P); injection Hk as <-; [split_and!; [done | apply kept_refl | done] |].
        destruct (kept_bump P) as [Hkp Hc]. now split_and!.
    + destruct Hf as (-> & _ & _). split; [done | done | done |]. cbn [rp_peer set_peer]. intros k P' Hk. exists P'.
      split_and!; [done | apply kept_refl | done].
Qed.

(** Where the choice falls, group by group. *)
Definition place (c : option (nat * nat)) (g : nat) : option nat :=
  match c with Some (h, p) => if decide (h = g) then Some p else None | None => None end.

Lemma group_peer_found now g tried ps p tried' :
  weights_ok (rp_peer g) -> group_peer now g tried = (ps, Some p, tried') -> exists P, ps !! p = Some P.
Proof.
  intros Hok. unfold group_peer. destruct (rp_single g).
  - destruct (rp_peer g) as [| q l]; [done |]. destruct (_ || _); intros [= <- <- <-]. now exists q.
  - intros E. apply (get_peer_spec _ _ _ _ _ _ (weights_ok_fits _ Hok)) in E as (_ & _ & _ & best & _ & _ & H & _). eauto.
Qed.

Lemma rr_get_spec now us gi rrp rc us' rrp' :
  (forall g G, us !! g = Some G -> weights_ok (rp_peer G)) ->
  rr_get now us gi rrp = (rc, us', rrp') ->
  length us' = length us /\ exists c,
    (forall g G', us' !! g = Some G' -> exists G, us !! g = Some G /\ chosen (place c (gi + g)) G G') /\
    match c with
    | Some (h, p) =>
        rc = NGX_OK /\ rrp_current rrp' = Some (h, p) /\ rrp_peers rrp' = h /\ (gi <= h)%nat /\
        exists G' P, us' !! (h - gi)%nat = Some G' /\ rp_peer G' !! p = Some P
    | None => rc = NGX_BUSY
    end.
Proof.
  revert gi rrp rc us' rrp'. induction us as [| g next IH]; intros gi rrp rc us' rrp' Hall E; cbn [rr_get] in E.
  { injection E as <- <- <-. split; [done |]. exists None. split; [intros k G' H; exists G'; now destruct k | done]. }
  pose proof (Hall 0%nat g eq_refl) as Hok.
  assert (forall k G, next !! k = Some G -> weights_ok (rp_peer G)) as Hnext by (intros k G HG; apply (Hall (S k) G HG)).
  destruct (group_peer now g (rrp_tried rrp)) as [[ps found] tried] eqn:Eg.
  pose proof Eg as Eg'. apply (group_peer_chosen _ _ _ _ _ _ Hok) in Eg as [Hlen Hc]. destruct found as [p |].
  - injection E as <- <- <-. split; [done |]. exists (Some (gi, p)). split.
    + intros [| k] G' H; cbn in H.
      * injection H as <-. exists g. split; [done |]. cbn. now rewrite decide_True by lia.
      * exists G'. split; [done |]. cbn. rewrite decide_False by lia.
        eapply chosen_refl, Hnext, H.
    + split_and!; [done | done | done | lia |]. rewrite Nat.sub_diag.
      destruct (group_peer_found now g (rrp_tried rrp) ps p tried Hok Eg') as [P HP].
      eexists _, _. split; [reflexivity |]. cbn. now rewrite list_lookup_alter_eq, HP.
  - destruct next as [| b next].
    + injection E as <- <- <-. split; [done |]. exists None. split; [| done]. intros [| k] G' H; cbn in H; [| done].
      injection H as <-. exists g. done.
    + destruct (rr_get now (b :: next) (S gi) _) as [[rc1 next1] rrp1] eqn:E1. injection E as <- <- <-.
      apply (IH _ _ _ _ _ Hnext) in E1 as (Hl & c & Hg & Hc'). split; [cbn in *; lia |]. exists c. split.
      * intros [| k] G' H; cbn in H.
        -- injection H as <-. exists g. split; [done |]. rewrite Nat.add_0_r.
           assert (place c gi = None) as ->; [| exact Hc].
           destruct c as [[h p] |]; [| done]. cbn. rewrite decide_False; [done | destruct Hc' as (_ & _ & _ & ? & _); lia].
        -- destruct (Hg k G' H) as (G & HG & Hch). exists G. split; [done |].
           replace (gi + S k)%nat with (S gi + k)%nat by lia. done.
      * destruct c as [[h p] |]; [| done]. destruct Hc' as (-> & H1 & H2 & H3 & G' & P & H4 & H5).
        split_and!; [done | done | done | lia |]. exists G', P. split; [| done].
        replace (h - gi)%nat with (S (h - S gi)) by lia. done.
Qed.

Lemma get_spec now us rrp rc us' rrp' :
  (forall g G, us !! g = Some G -> weights_ok (rp_peer G)) ->
  ngx_http_upstream_get_round_robin_peer now us rrp = (rc, us', rrp') ->
  length us' = length us /\ exists c,
    (forall g G', us' !! g = Some G' -> exists G, us !! g = Some G /\ chosen (place c g) G G') /\
    match c with
    | Some (h, p) =>
        rc = NGX_OK /\ rrp_current rrp' = Some (h, p) /\ rrp_peers rrp' = h /\
        exists G' P, us' !! h = Some G' /\ rp_peer G' !! p = Some P
    | None => rc = NGX_BUSY
    end.
Proof.
  intros Hall. unfold ngx_http_upstream_get_round_robin_peer. set (n := rrp_peers rrp).
  destruct (rr_get now (skipn n us) n rrp) as [[rc1 later] rrp1] eqn:E. intros [= <- <- <-].
  apply rr_get_spec in E as (Hlater & c & Hg & Hc); [| intros k G HG; rewrite lookup_drop in HG; eapply Hall, HG]. fold n in Hc.
  split; [rewrite List.length_app, List.length_firstn; rewrite List.length_skipn in Hlater; lia |]. exists c.
  destruct (Nat.le_gt_cases (length us) n) as [Hlen | Hlen].
  { rewrite firstn_all2 by done. rewrite skipn_all2 in Hg by done.
    assert (later = []) as -> by (destruct later as [| G l]; [done | destruct (Hg 0%nat G eq_refl) as (? & ? & _); done]).
    assert (c = None) as -> by (destruct c as [[h p] |]; [destruct Hc as (_ & _ & _ & _ & G' & P & H & _); now destruct (h - n)%nat | done]).
    split; [| done]. intros g G' H. rewrite List.app_nil_r in H. exists G'. split; [done | eapply chosen_refl, Hall, H]. }
  assert (length (firstn n us) = n) as Hfn by (rewrite List.length_firstn; lia).
  assert (forall c g, match c with Some (h, _) => (n <= h)%nat | None => True end -> (g < n)%nat -> place c g = None) as Hplace.
  { intros [[h p] |] g H1 H2; [| done]. cbn. now rewrite decide_False by lia. }
  split.
  - intros g G' H. destruct (Nat.lt_ge_cases g n) as [Hlt | Hge].
    + rewrite lookup_app_l in H by lia. rewrite lookup_take_lt in H by done. exists G'. split; [done |].
      rewrite Hplace; [| destruct c as [[h p] |]; [destruct Hc; tauto | done] | done].
      eapply chosen_refl, Hall, H.
    + rewrite lookup_app_r, Hfn in H by lia. destruct (Hg _ _ H) as (G & HG & Hch). exists G.
      rewrite lookup_drop in HG. replace (n + (g - n))%nat with g in * by lia. done.
  - destruct c as [[h p] |]; [| done]. destruct Hc as (H1 & H2 & H3 & H4 & G' & P & H5 & H6).
    split_and!; try done. exists G', P. split; [| done]. now rewrite lookup_app_r, Hfn by lia.
Qed.

(** ** The invariant *)

Lemma peer_ok_kept n n' P P' :
  peer_ok n P -> kept P P' -> conns P' = n' -> (max_conns P = 0 \/ n' <= max_conns P) -> peer_ok n' P'.
Proof.
  intros [H1 H2 H4] (K1 & K2 & K3 & K4 & K5 & K6 & K7 & K8) Hn Hm. split; rewrite ?K2, ?K3, ?K4; done.
Qed.

Lemma holds_place d tries ok g p c :
  rrp_current d = c -> holds_peer g p (mk_rr_request d tries ok) = ok && bool_decide (c = Some (g, p)).
Proof. intros <-. done. Qed.

Lemma get_ok us reqs i rq now rc us' d' :
  rr_ok (mk_world us reqs) -> reqs !! i = Some rq -> rq_active rq = false ->
  ngx_http_upstream_get_round_robin_peer now us (rq_data rq) = (rc, us', d') ->
  rr_ok (mk_world us' (<[i := mk_rr_request d' (rq_tries rq) (rc =? NGX_OK)]> reqs)).
Proof.
  intros [Hlen Hpeer Hsum Hreq] Hi Ha E. cbn [w_us w_reqs] in *. apply (get_spec _ _ _ _ _ _ Hsum) in E as (Hus & c & Hg & Hc).
  set (rq' := mk_rr_request d' (rq_tries rq) (rc =? NGX_OK)).
  assert (forall g p, holds_peer g p rq' = bool_decide (c = Some (g, p))) as Hholds.
  { intros g p. unfold rq'. destruct c as [[h q] |].
    - destruct Hc as (-> & Hcur & _). now rewrite (holds_place _ _ _ _ _ _ Hcur).
    - subst rc. cbn. now rewrite bool_decide_false by done. }
  assert (forall g p, in_use g p (<[i := rq']> reqs) = in_use g p reqs + Z.b2z (bool_decide (c = Some (g, p)))) as Huse.
  { intros g p. rewrite (in_use_insert g p reqs i rq rq' Hi), Hholds.
    assert (holds_peer g p rq = false) as -> by (unfold holds_peer; now rewrite Ha). cbn. lia. }
  split; cbn [w_us w_reqs].
  - now rewrite length_insert.
  - intros g G' p P' HG' HP'. destruct (Hg g G' HG') as (G & HG & [Hs1 _ Hs2 Hch]).
    destruct (Hch p P' HP') as (P & HP & Hkept & Hif). specialize (Hpeer g G p P HG HP). rewrite Huse.
    pose proof (in_use_range g p reqs) as Hr. pose proof Hpeer as [Hconns Hlim Hconf].
    assert ((place c g = Some p) <-> c = Some (g, p)) as Hpl.
    { destruct c as [[h q] |]; cbn; [| done]. destruct (decide (h = g)) as [-> |]; split; congruence. }
    destruct (decide (place c g = Some p)) as [Hp | Hp].
    + destruct Hif as (Hc1 & Hc2 & _). rewrite bool_decide_true by tauto. cbn [Z.b2z].
      eapply (peer_ok_kept (in_use g p reqs)); [exact Hpeer | exact Hkept | | lia].
      rewrite Hc1, Hconns. unfold u64. apply Z.mod_small. lia.
    + rewrite bool_decide_false by tauto. cbn [Z.b2z]. rewrite Z.add_0_r.
      eapply (peer_ok_kept (in_use g p reqs)); [exact Hpeer | exact Hkept | congruence | lia].
  - intros g G' HG'. destruct (Hg g G' HG') as (G & HG & [_ _ Hs2 _]). exact Hs2.
  - intros r Hin Hact. apply list_elem_of_In, list_elem_of_lookup in Hin as [k Hk].
    destruct (decide (k = i)) as [-> | Hne].
    + rewrite list_lookup_insert_eq in Hk by (eapply lookup_lt_Some, Hi). injection Hk as <-. unfold rq' in *. cbn in *.
      destruct c as [[h q] |]; [| subst rc; done]. destruct Hc as (_ & H1 & H2 & G' & P & H3 & H4).
      exists G', q, P. rewrite H2. done.
    + rewrite list_lookup_insert_ne in Hk by done.
      destruct (Hreq r) as (G & p & P & H1 & H2 & H3); [apply list_elem_of_In; eapply list_elem_of_lookup_2, Hk | done |].
      destruct (lookup_lt_is_Some_2 us' (rrp_peers (rq_data r))) as [G' HG']; [rewrite Hus; eapply lookup_lt_Some, H2 |].
      destruct (Hg _ _ HG') as (G2 & HG2 & [_ Hl _ _]). rewrite H2 in HG2. injection HG2 as <-.
      destruct (lookup_lt_is_Some_2 (rp_peer G') p) as [P' HP']; [rewrite Hl; eapply lookup_lt_Some, H3 |].
      exists G', p, P'. done.
Qed.

Lemma free_peer_weights now state single P :
  0 <= effective_weight P <= weight P -> weight P < 2 ^ 63 -> 0 <= max_fails P ->
  let P' := free_peer now state single P in
  weight P' = weight P /\ current_weight P' = current_weight P /\ 0 <= effective_weight P' <= weight P'.
Proof.
  intros Hw Hw63 Hf. cbv zeta. unfold free_peer. destruct single; [cbn; lia |].
  destruct (negb (Z.land state NGX_PEER_FAILED =? 0)).
  - cbn [set_fails set_accessed set_checked max_fails weight effective_weight]. rewrite (u64_small (weight P)) by lia.
    destruct (Z.eqb_spec (max_fails P) 0) as [E | E]; cbn [negb].
    + cbn [set_checked set_accessed set_fails effective_weight]. destruct (Z.ltb_spec (effective_weight P) 0); [lia |].
      cbn; lia.
    + cbn [set_effective_weight effective_weight].
      assert (0 <= weight P / max_fails P <= weight P) by (split; [apply Z.div_pos | apply Z.div_le_upper_bound]; nia).
      rewrite s64_small by lia.
      destruct (Z.ltb_spec (effective_weight P - weight P / max_fails P) 0); cbn; lia.
  - destruct (accessed P <? checked P); cbn; lia.
Qed.

Lemma free_peer_ok now state single n P :
  peer_ok n P -> 1 <= n < 2 ^ 64 -> peer_ok (n - 1) (free_peer now state single P).
Proof.
  intros [H1 H2 H3] Hn. assert (u64 (conns P - 1) = n - 1) as Hc by (rewrite H1; apply u64_small; lia).
  unfold free_peer. repeat match goal with |- context [if ?b then _ else _] => destruct b end; split; cbn; lia.
Qed.

Lemma free_ok us reqs i rq now state us' tries' :
  rr_ok (mk_world us reqs) -> reqs !! i = Some rq -> rq_active rq = true ->
  ngx_http_upstream_free_round_robin_peer now state (rq_tries rq) us (rq_data rq) = (us', tries') ->
  rr_ok (mk_world us' (<[i := mk_rr_request (rq_data rq) tries' false]> reqs)).
Proof.
  intros [Hlen Hpeer Hsum Hreq] Hi Ha E. cbn [w_us w_reqs] in *.
  destruct (Hreq rq) as (G & p & P & Hcur & HG & HP); [apply list_elem_of_In; eapply list_elem_of_lookup_2, Hi | done |].
  unfold ngx_http_upstream_free_round_robin_peer in E. rewrite Hcur, HG in E. injection E as <- <-.
  set (g := rrp_peers (rq_data rq)) in *. set (f := free_peer now state (rp_single G)).
  set (G' := set_peer (alter f p (rp_peer G)) G).
  assert (g < length us)%nat as Hg by (eapply lookup_lt_Some, HG).
  assert (holds_peer g p rq = true) as Hh by (unfold holds_peer; rewrite Ha, Hcur; now rewrite bool_decide_true).
  pose proof (in_use_pos g p reqs i rq Hi Hh) as Hpos. pose proof (in_use_range g p reqs) as Hrange.
  pose proof (free_peer_ok now state (rp_single G) _ P (Hpeer g G p P HG HP) ltac:(lia)) as Hok. fold f in Hok.
  set (rq' := mk_rr_request (rq_data rq) _ false).
  assert (forall h q, in_use h q (<[i := rq']> reqs) = in_use h q reqs - (if decide (h = g /\ q = p) then 1 else 0)) as Huse.
  { intros h q. rewrite (in_use_insert h q reqs i rq rq' Hi). change (holds_peer h q rq') with false.
    unfold holds_peer. rewrite Ha, Hcur. cbn [andb].
    destruct (decide (h = g /\ q = p)) as [[-> ->] | Hne]; [rewrite bool_decide_true by done | rewrite bool_decide_false by naive_solver];
      unfold Z.b2z; lia. }
  split; cbn [w_us w_reqs].
  - now rewrite length_insert.
  - intros h H q Q HH HQ. rewrite Huse. destruct (decide (h = g)) as [-> | Hhg].
    + rewrite list_lookup_insert_eq in HH by done. injection HH as <-. cbn [G' set_peer rp_peer] in HQ.
      destruct (decide (q = p)) as [-> | Hqp].
      * rewrite list_lookup_alter_eq, HP in HQ. injection HQ as <-. rewrite decide_True by done. exact Hok.
      * rewrite list_lookup_alter_ne in HQ by done. rewrite decide_False by tauto. rewrite Z.sub_0_r. eapply Hpeer; eassumption.
    + rewrite list_lookup_insert_ne in HH by done. rewrite decide_False by tauto. rewrite Z.sub_0_r. eapply Hpeer; eassumption.
  - intros h H HH. destruct (decide (h = g)) as [-> | Hhg].
    + rewrite list_lookup_insert_eq in HH by done. injection HH as <-. cbn [G' set_peer rp_peer].
      pose proof (Hsum g G HG) as Hw. pose proof (weights_ok_fits _ Hw) as Hfit. pose proof (fits_sum_w _ Hfit).
      unfold fits in Hfit. rewrite Forall_lookup in Hfit. destruct (Hfit p P HP) as (Hr & Hle & _).
      destruct (Hpeer g G p P HG HP) as [_ _ [_ Hmf]].
      apply weights_ok_alter; [| done]. intros P0 HP0. rewrite HP in HP0. injection HP0 as <-.
      destruct (free_peer_weights now state (rp_single G) P) as (? & ? & ?); [lia | lia | done | tauto].
    + rewrite list_lookup_insert_ne in HH by done. eapply Hsum, HH.
  - intros r Hin Hact. apply list_elem_of_In, list_elem_of_lookup in Hin as [k Hk].
    destruct (decide (k = i)) as [-> | Hne].
    { rewrite list_lookup_insert_eq in Hk by (eapply lookup_lt_Some, Hi). injection Hk as <-. done. }
    rewrite list_lookup_insert_ne in Hk by done.
    destruct (Hreq r) as (H & q & Q & H1 & H2 & H3); [apply list_elem_of_In; eapply list_elem_of_lookup_2, Hk | done |].
    destruct (decide (rrp_peers (rq_data r) = g)) as [Eg | Hhg].
    + rewrite Eg in *. rewrite HG in H2. injection H2 as <-.
      destruct (lookup_lt_is_Some_2 (rp_peer G') q) as [Q' HQ'];
        [cbn; rewrite length_alter; eapply lookup_lt_Some, H3 |].
      exists G', q, Q'. now rewrite list_lookup_insert_eq by done.
    + exists H, q, Q. now rewrite list_lookup_insert_ne by done.
Qed.

(** Servers as the configuration allows them. *)
Definition server_ok (s : ngx_http_upstream_server_t) : Prop :=
  0 <= sv_weight s /\ 0 <= sv_max_conns s /\ 0 <= sv_max_fails s.

Lemma server_peers_ok servers backup :
  Forall server_ok servers ->
  Forall (fun p => peer_ok 0 p /\ 0 <= effective_weight p <= weight p /\ current_weight p = 0)
    (List.flat_map server_peers (in_group servers backup)).
Proof.
  intros Hs. apply List.Forall_flat_map, List.Forall_forall. intros s Hin. apply List.filter_In in Hin as [Hin _].
  rewrite List.Forall_forall in Hs. destruct (Hs s Hin) as (H1 & H2 & H3).
  unfold server_peers. apply List.Forall_map, List.Forall_forall. intros a _. cbn. split_and!; [split; cbn; lia | lia | lia | done].
Qed.

Lemma init_ok allocs servers us :
  Forall server_ok servers -> weights_small servers false -> weights_small servers true ->
  init_servers allocs servers = (NGX_OK, us) -> rr_ok (mk_world us []).
Proof.
  intros Hs Hsmall Hsmall' E.
  assert (forall G, In G us -> Forall (peer_ok 0) (rp_peer G) /\ weights_ok (rp_peer G)) as HG.
  { assert (forall b single, Forall (peer_ok 0) (rp_peer (group servers b single)) /\ weights_ok (rp_peer (group servers b single))) as Q.
    { intros b single. pose proof (server_peers_ok servers b Hs) as H. cbn [group rp_peer].
      split; [eapply List.Forall_impl; [| exact H]; now intros p [? _] |].
      apply weights_small_ok; [eapply List.Forall_impl; [| exact H]; intros p [_ ?]; done | now destruct b]. }
    unfold init_servers in E.
    repeat match type of E with (if ?b then _ else _) = _ => destruct b end; try done; injection E as <-;
      intros G HG; cbn in HG; repeat destruct HG as [<- | HG]; try done; apply Q. }
  split; cbn [w_us w_reqs].
  - cbn. lia.
  - intros g G p P Hg Hp. apply list_elem_of_lookup_2, list_elem_of_In in Hg. destruct (HG G Hg) as [H _].
    rewrite Forall_lookup in H. apply (H p P Hp).
  - intros g G Hg. apply list_elem_of_lookup_2, list_elem_of_In in Hg. apply (HG G Hg).
  - done.
Qed.

Lemma begin_ok us reqs rq :
  rr_ok (mk_world us reqs) -> Z.of_nat (length reqs) < 2 ^ 64 - 2 -> rq_active rq = false ->
  rr_ok (mk_world us (reqs ++ [rq])).
Proof.
  intros [Hlen Hpeer Hsum Hreq] Hl Ha. cbn [w_us w_reqs] in *. split; cbn [w_us w_reqs].
  - rewrite List.length_app. cbn. lia.
  - intros g G p P Hg Hp. rewrite in_use_app, in_use_cons. unfold holds_peer. rewrite Ha. cbn [andb Z.b2z].
    change (in_use g p []) with 0. rewrite !Z.add_0_r. eauto.
  - done.
  - intros r Hin Hact. apply in_app_or in Hin as [Hin | [<- | []]]; [eauto | congruence].
Qed.

(** C25: whatever the order in which requests begin, get a server and give it
    back: [conns] of a server is the number of requests that use it, never
    more than [max_conns] where that is set; the effective weight stays between 0
    and the configured one; the current weights of a group add up to 0, and
    none is further from 0 than the sum of the weights times the number of the
    other servers of the group.  As the weights are machine words, this is for
    groups of which the number of the servers times the sum of their weights is
    below 2^63; then nothing overflows. *)
Theorem round_robin_invariant allocs servers us w :
  Forall server_ok servers -> weights_small servers false -> weights_small servers true ->
  init_servers allocs servers = (NGX_OK, us) -> rtc rr_step (mk_world us []) w ->
  (forall g G, w_us w !! g = Some G -> sum_cw (rp_peer G) = 0 /\
    forall p P, rp_peer G !! p = Some P ->
      conns P = in_use g p (w_reqs w) /\ (max_conns P = 0 \/ conns P <= max_conns P) /\
      0 <= effective_weight P <= weight P /\
      Z.abs (current_weight P) <= (Z.of_nat (length (rp_peer G)) - 1) * sum_w (rp_peer G)).
Proof.
  intros Hs Hs1 Hs2 E Hr. assert (rr_ok w) as [Hlen Hpeer Hsum _].
  { pose proof (init_ok _ _ _ Hs Hs1 Hs2 E) as H0. revert H0. induction Hr as [| w1 w2 w3 Hstep _ IH]; [done |]. intros H0.
    apply IH. destruct Hstep; [now apply begin_ok | eapply get_ok; eassumption | eapply free_ok; eassumption]. }
  intros g G HG. pose proof (Hsum g G HG) as Hok. split; [apply Hok |]. intros p P HP.
  destruct (Hpeer g G p P HG HP) as [H1 H2 _]. pose proof (weights_ok_bound _ _ _ Hok HP).
  destruct Hok as [He _ _ _]. rewrite Forall_lookup in He. pose proof (He p P HP). split_and!; [done | lia | lia | lia | done].
Qed.

Lemma round_robin_invariant_witness :
  let servers := [mk_server [1] 2 1 1 10 false false; mk_server [2] 1 0 1 10 false false] in
  exists w, rtc rr_step (mk_world (snd (init_servers [] servers)) []) w /\
    forall g G, w_us w !! g = Some G -> sum_cw (rp_peer G) = 0 /\
      forall p P, rp_peer G !! p = Some P ->
        conns P = in_use g p (w_reqs w) /\ (max_conns P = 0 \/ conns P <= max_conns P) /\
        0 <= effective_weight P <= weight P /\
        Z.abs (current_weight P) <= (Z.of_nat (length (rp_peer G)) - 1) * sum_w (rp_peer G).
Proof.
  cbv zeta.
  assert (exists w, rtc rr_step (mk_world (snd (init_servers [] [mk_server [1] 2 1 1 10 false false; mk_server [2] 1 0 1 10 false false])) []) w
    /\ length (w_reqs w) = 1%nat) as (w & Hw & _).
  { eexists. split.
    eapply rtc_l; [apply step_begin; reflexivity |].
    eapply rtc_l; [eapply (step_get _ _ 0 _ 5); reflexivity |].
    eapply rtc_l; [eapply (step_free _ _ 0 _ 6 NGX_PEER_FAILED); reflexivity |].
    apply rtc_refl. reflexivity. }
  exists w. split; [exact Hw |].
  refine (round_robin_invariant [] [mk_server [1] 2 1 1 10 false false; mk_server [2] 1 0 1 10 false false] _ w _ eq_refl eq_refl eq_refl Hw).
  repeat constructor; discriminate.
Defined.
