(* ===== verification/NgxStrings.v ===== *)
(** Comparing and searching strings (core/ngx_string.c and ngx_string.h), on a
    memory.  A search that does not find anything gives [None], the null
    pointer.  Loops that only a zero byte ends take fuel, and [None] of a
    comparison is fuel that runs out. *)
From S2P Require Import Prelude HttpRequest.
From S2P Require Export NgxHash.
#[global] Open Scope Z_scope.

(** ** Comparing *)

Fixpoint ngx_strcasecmp (fuel : nat) (M : mem) (s1 s2 : Z) : option Z :=
  match fuel with
  | O => None
  | S fuel' =>
      let c1 := ngx_tolower (M s1) in
      let c2 := ngx_tolower (M s2) in
      if c1 =? c2 then if negb (c1 =? 0) then ngx_strcasecmp fuel' M (s1 + 1) (s2 + 1) else Some 0
      else Some (c1 - c2)
  end.

Fixpoint ngx_strncasecmp (n : nat) (M : mem) (s1 s2 : Z) : Z :=
  match n with
  | O => 0
  | S n' =>
      let c1 := ngx_tolower (M s1) in
      let c2 := ngx_tolower (M s2) in
      if c1 =? c2 then if negb (c1 =? 0) then ngx_strncasecmp n' M (s1 + 1) (s2 + 1) else 0
      else c1 - c2
  end.

(** [strncmp] and [memcmp] of the C library. *)
Fixpoint strncmp (n : nat) (M : mem) (s1 s2 : Z) : Z :=
  match n with
  | O => 0
  | S n' =>
      if M s1 =? M s2 then if negb (M s1 =? 0) then strncmp n' M (s1 + 1) (s2 + 1) else 0
      else M s1 - M s2
  end.

Fixpoint memcmp (n : nat) (M : mem) (s1 s2 : Z) : Z :=
  match n with
  | O => 0
  | S n' => if M s1 =? M s2 then memcmp n' M (s1 + 1) (s2 + 1) else M s1 - M s2
  end.

(** From the end. *)
Fixpoint ngx_rstrncmp (n : nat) (M : mem) (s1 s2 : Z) : Z :=
  match n with
  | O => 0
  | S n' =>
      let a := M (s1 + Z.of_nat n') in
      let b := M (s2 + Z.of_nat n') in
      if negb (a =? b) then a - b else ngx_rstrncmp n' M s1 s2
  end.

Definition upper (c : Z) : Z := if (chr "a" <=? c) && (c <=? chr "z") then (c - (chr "a" - chr "A")) mod 256 else c.

Fixpoint ngx_rstrncasecmp (n : nat) (M : mem) (s1 s2 : Z) : Z :=
  match n with
  | O => 0
  | S n' =>
      let c1 := upper (M (s1 + Z.of_nat n')) in
      let c2 := upper (M (s2 + Z.of_nat n')) in
      if negb (c1 =? c2) then c1 - c2 else ngx_rstrncasecmp n' M s1 s2
  end.

Definition ngx_memn2cmp (M : mem) (s1 s2 : Z) (n1 n2 : nat) : Z :=
  let '(n, z) := if (n1 <=? n2)%nat then (n1, -1) else (n2, 1) in
  let m := memcmp n M s1 s2 in
  if negb (m =? 0) || (n1 =? n2)%nat then m else z.

Fixpoint ngx_dns_strcmp (fuel : nat) (M : mem) (s1 s2 : Z) : option Z :=
  match fuel with
  | O => None
  | S fuel' =>
      let c1 := ngx_tolower (M s1) in
      let c2 := ngx_tolower (M s2) in
      if c1 =? c2 then if negb (c1 =? 0) then ngx_dns_strcmp fuel' M (s1 + 1) (s2 + 1) else Some 0
      else
        let c1 := if c1 =? chr "." then chr " " else c1 in
        let c2 := if c2 =? chr "." then chr " " else c2 in
        Some (c1 - c2)
  end.

(** For a file system with case. *)
Fixpoint ngx_filename_cmp (n : nat) (M : mem) (s1 s2 : Z) : Z :=
  match n with
  | O => 0
  | S n' =>
      let c1 := M s1 in
      let c2 := M s2 in
      if c1 =? c2 then if negb (c1 =? 0) then ngx_filename_cmp n' M (s1 + 1) (s2 + 1) else 0
      else if (c1 =? 0) || (c2 =? 0) then c1 - c2
      else
        let c1 := if c1 =? chr "/" then 0 else c1 in
        let c2 := if c2 =? chr "/" then 0 else c2 in
        c1 - c2
  end.

(** ** Searching *)

(** [n] is [last - p]. *)
Fixpoint strlchr (n : nat) (M : mem) (p c : Z) : option Z :=
  match n with
  | O => None
  | S n' => if M p =? c then Some p else strlchr n' M (p + 1) c
  end.

Definition ngx_strlchr (M : mem) (p last c : Z) : option Z := strlchr (Z.to_nat (last - p)) M p c.

(** The two loops of a search as one: [s1] moves on by one byte, and the rest
    of the second string is compared where the first byte of it is found; [k]
    is the number of bytes that may be looked at. *)
Fixpoint search (same : Z -> bool) (rest : Z -> bool) (stop : Z -> bool) (k : nat) (M : mem) (s1 : Z) : option Z :=
  match k with
  | O => None
  | S k' =>
      let c1 := M s1 in
      let s1 := s1 + 1 in
      if stop c1 then None
      else if same c1 && rest s1 then Some (s1 - 1)
      else search same rest stop k' M s1
  end.

(** [n] is the length of the second string less one, here and below; [last]
    moves back by it. *)
Definition ngx_strlcasestrn (M : mem) (s1 last s2 : Z) (n : nat) : option Z :=
  let c2 := ngx_tolower (M s2) in
  let s2 := s2 + 1 in
  let last := last - Z.of_nat n in
  search (fun c1 => ngx_tolower c1 =? c2) (fun s1 => ngx_strncasecmp n M s1 s2 =? 0) (fun _ => false)
    (Z.to_nat (last - s1)) M s1.

(** [fuel] is the length of the first string with its zero. *)
Definition ngx_strstrn (fuel : nat) (M : mem) (s1 s2 : Z) (n : nat) : option Z :=
  let c2 := M s2 in
  let s2 := s2 + 1 in
  search (fun c1 => c1 =? c2) (fun s1 => strncmp n M s1 s2 =? 0) (fun c1 => c1 =? 0) fuel M s1.

Definition ngx_strcasestrn (fuel : nat) (M : mem) (s1 s2 : Z) (n : nat) : option Z :=
  let c2 := ngx_tolower (M s2) in
  let s2 := s2 + 1 in
  search (fun c1 => ngx_tolower c1 =? c2) (fun s1 => ngx_strncasecmp n M s1 s2 =? 0) (fun c1 => c1 =? 0) fuel M s1.

(** [n] is [ngx_strlen(s2)]; the search ends when it is longer than what is
    left, [len]. *)
Fixpoint strnstr (len : nat) (M : mem) (s1 c2 s2 : Z) (n : nat) : option Z :=
  match len with
  | O => None
  | S len' =>
      let c1 := M s1 in
      let s1 := s1 + 1 in
      if c1 =? 0 then None
      else if negb (c1 =? c2) then strnstr len' M s1 c2 s2 n
      else if (len' <? n)%nat then None
      else if strncmp n M s1 s2 =? 0 then Some (s1 - 1)
      else strnstr len' M s1 c2 s2 n
  end.

Definition ngx_strnstr (M : mem) (s1 s2 : Z) (len strlen : nat) : option Z :=
  strnstr len M s1 (M s2) (s2 + 1) strlen.

(** ** Copying *)

(** The memory and the end of the copy. *)
Fixpoint cpystrn (n : nat) (M : mem) (dst src : Z) : mem * Z :=
  match n with
  | O => (upd M dst 0, dst)
  | S n' =>
      let M := upd M dst (M src) in
      if M dst =? 0 then (M, dst) else cpystrn n' M (dst + 1) (src + 1)
  end.

Definition ngx_cpystrn (M : mem) (dst src : Z) (n : nat) : mem * Z :=
  match n with O => (M, dst) | S n' => cpystrn n' M dst src end.

(** ** What the functions compute *)

Lemma tolower_zero c : ngx_tolower c = 0 <-> c = 0.
Proof.
  unfold ngx_tolower. destruct ((65 <=? c) && (c <=? 90)) eqn:E; [| done]. split; [| lia].
  rewrite Z.lor_eq_0_iff. lia.
Qed.

(** Two strings that are the same but for the case. *)
Definition same_nocase (a b : list Z) : Prop := ngx_strlow a = ngx_strlow b.

#[export] Instance same_nocase_dec a b : Decision (same_nocase a b).
Proof. unfold same_nocase. apply _. Defined.

Lemma strncasecmp_zero n M s1 s2 :
  Forall (fun c => c <> 0) (bytes_at M s2 n) ->
  (ngx_strncasecmp n M s1 s2 =? 0) = bool_decide (same_nocase (bytes_at M s1 n) (bytes_at M s2 n)).
Proof.
  unfold same_nocase. revert s1 s2. induction n as [| n IH]; intros s1 s2 H; [done |]. cbn [bytes_at] in H.
  apply Forall_cons_1 in H as [H0 H]. cbn [ngx_strncasecmp bytes_at ngx_strlow List.map].
  destruct (Z.eqb_spec (ngx_tolower (M s1)) (ngx_tolower (M s2))) as [E | E].
  - destruct (Z.eqb_spec (ngx_tolower (M s1)) 0) as [E0 | E0].
    { exfalso. apply H0. apply tolower_zero. congruence. }
    cbn [negb]. rewrite IH by done. fold (ngx_strlow (bytes_at M (s1 + 1) n)). fold (ngx_strlow (bytes_at M (s2 + 1) n)).
    apply bool_decide_ext. rewrite E. split; [now intros -> | now intros [= ->]].
  - rewrite bool_decide_false by (intros Q1; congruence). apply Z.eqb_neq. lia.
Qed.

Lemma strncmp_zero n M s1 s2 :
  Forall (fun c => c <> 0) (bytes_at M s2 n) ->
  (strncmp n M s1 s2 =? 0) = bool_decide (bytes_at M s1 n = bytes_at M s2 n).
Proof.
  revert s1 s2. induction n as [| n IH]; intros s1 s2 H; [done |]. cbn [bytes_at] in H.
  apply Forall_cons_1 in H as [H0 H]. cbn [strncmp bytes_at].
  destruct (Z.eqb_spec (M s1) (M s2)) as [E | E].
  - destruct (Z.eqb_spec (M s1) 0) as [E0 | E0]; [congruence |]. cbn [negb]. rewrite IH by done.
    apply bool_decide_ext. rewrite E. split; [now intros -> | now intros [= ->]].
  - rewrite bool_decide_false by (intros Q1; congruence). apply Z.eqb_neq. lia.
Qed.

(** A search without a stop gives the first place where both tests succeed. *)
Lemma search_first same rest k M s1 :
  match search same rest (fun _ => false) k M s1 with
  | Some p => s1 <= p < s1 + Z.of_nat k /\ same (M p) && rest (p + 1) = true /\
      forall q, s1 <= q < p -> same (M q) && rest (q + 1) = false
  | None => forall q, s1 <= q < s1 + Z.of_nat k -> same (M q) && rest (q + 1) = false
  end.
Proof.
  revert s1. induction k as [| k IH]; intros s1; cbn [search]; [intros q; lia |].
  destruct (same (M s1) && rest (s1 + 1)) eqn:E.
  - replace (s1 + 1 - 1) with s1 by lia. split_and!; [lia | lia | done | intros q; lia].
  - specialize (IH (s1 + 1)). destruct (search same rest _ k M (s1 + 1)) as [p |].
    + destruct IH as (H1 & H2 & H3). split_and!; [lia | lia | done |]. intros q Hq.
      destruct (decide (q = s1)) as [-> |]; [done | apply H3; lia].
    + intros q Hq. destruct (decide (q = s1)) as [-> |]; [done | apply IH; lia].
Qed.

(** The first place of [s1 .. last] where the string at [s2], of [n + 1] bytes,
    occurs, in any case. *)
Lemma strlcasestrn_spec M s1 last s2 n :
  Forall (fun c => c <> 0) (bytes_at M s2 (S n)) ->
  let occurs p := same_nocase (bytes_at M p (S n)) (bytes_at M s2 (S n)) in
  match ngx_strlcasestrn M s1 last s2 n with
  | Some p => s1 <= p /\ p + Z.of_nat (S n) <= last /\ occurs p /\ forall q, s1 <= q < p -> ~ occurs q
  | None => forall q, s1 <= q -> q + Z.of_nat (S n) <= last -> ~ occurs q
  end.
Proof.
  intros H occurs. cbn [bytes_at] in H. apply Forall_cons_1 in H as [H0 H]. unfold ngx_strlcasestrn.
  assert (forall p, (ngx_tolower (M p) =? ngx_tolower (M s2)) && (ngx_strncasecmp n M (p + 1) (s2 + 1) =? 0) =
    bool_decide (occurs p)) as Q.
  { intros p. rewrite strncasecmp_zero by done. unfold occurs, same_nocase. cbn [bytes_at ngx_strlow List.map].
    fold (ngx_strlow (bytes_at M (p + 1) n)). fold (ngx_strlow (bytes_at M (s2 + 1) n)).
    destruct (Z.eqb_spec (ngx_tolower (M p)) (ngx_tolower (M s2))) as [E | E]; cbn [andb].
    - apply bool_decide_ext. rewrite E. split; [now intros -> | now intros [= ->]].
    - symmetry. apply bool_decide_false. intros Q1. congruence. }
  pose proof (search_first (fun c1 => ngx_tolower c1 =? ngx_tolower (M s2)) (fun s1 => ngx_strncasecmp n M s1 (s2 + 1) =? 0)
    (Z.to_nat (last - Z.of_nat n - s1)) M s1) as S. cbv zeta.
  destruct (search _ _ _ _ M s1) as [p |].
  - destruct S as (H1 & H2 & H3). rewrite Q in H2. split_and!; [lia | lia | now apply bool_decide_eq_true in H2 |].
    intros q Hq. specialize (H3 q Hq). rewrite Q in H3. now apply bool_decide_eq_false in H3.
  - intros q H1 H2. specialize (S q ltac:(lia)). rewrite Q in S. now apply bool_decide_eq_false in S.
Qed.

Lemma strlchr_spec M p last c :
  match ngx_strlchr M p last c with
  | Some q => p <= q < last /\ M q = c /\ forall x, p <= x < q -> M x <> c
  | None => forall x, p <= x < last -> M x <> c
  end.
Proof.
  unfold ngx_strlchr. remember (Z.to_nat (last - p)) as n eqn:Hn. revert p Hn.
  induction n as [| n IH]; intros p Hn; cbn [strlchr]; [intros x; lia |].
  destruct (Z.eqb_spec (M p) c) as [E | E]; [split_and!; [lia | lia | done | intros x; lia] |].
  specialize (IH (p + 1) ltac:(lia)). destruct (strlchr n M (p + 1) c) as [q |].
  - destruct IH as (H1 & H2 & H3). split_and!; [lia | lia | done |]. intros x Hx.
    destruct (decide (x = p)) as [-> |]; [done | apply H3; lia].
  - intros x Hx. destruct (decide (x = p)) as [-> |]; [done | apply IH; lia].
Qed.

(** *** The order of strings *)

(** The lexicographic order, a prefix first. *)
Fixpoint lex (a b : list Z) : Z :=
  match a, b with
  | [], [] => 0
  | [], _ => -1
  | _, [] => 1
  | x :: a, y :: b => if x =? y then lex a b else Z.sgn (x - y)
  end.

Lemma memcmp_lex n M s1 s2 : Z.sgn (memcmp n M s1 s2) = lex (bytes_at M s1 n) (bytes_at M s2 n).
Proof.
  revert s1 s2. induction n as [| n IH]; intros s1 s2; [done |]. cbn [memcmp bytes_at lex].
  destruct (Z.eqb_spec (M s1) (M s2)); [apply IH | done].
Qed.

Lemma lex_app a b c d : length a = length b -> lex (a ++ c) (b ++ d) = if lex a b =? 0 then lex c d else lex a b.
Proof.
  revert b. induction a as [| x a IH]; intros [| y b] H; try done. cbn in *. destruct (Z.eqb_spec x y); [apply IH; lia |].
  destruct (Z.eqb_spec (Z.sgn (x - y)) 0); [lia | done].
Qed.

(** [ngx_memn2cmp], the order that keys are kept in, is the lexicographic order
    of the strings. *)
Theorem memn2cmp_lexicographic M s1 s2 n1 n2 :
  Z.sgn (ngx_memn2cmp M s1 s2 n1 n2) = lex (bytes_at M s1 n1) (bytes_at M s2 n2).
Proof.
  unfold ngx_memn2cmp. destruct (Nat.leb_spec n1 n2) as [H | H].
  - assert (bytes_at M s2 n2 = bytes_at M s2 n1 ++ bytes_at M (s2 + Z.of_nat n1) (n2 - n1)) as ->
      by (rewrite <- bytes_at_app; f_equal; lia).
    rewrite <- (List.app_nil_r (bytes_at M s1 n1)).
    rewrite lex_app by (now rewrite !length_bytes_at). rewrite <- memcmp_lex.
    destruct (Z.eqb_spec (memcmp n1 M s1 s2) 0) as [E | E]; cbn [negb orb].
    + rewrite E. cbn [Z.sgn Z.eqb]. destruct (Nat.eqb_spec n1 n2) as [-> | Hne]; [now rewrite Nat.sub_diag |].
      replace (n2 - n1)%nat with (S (n2 - n1 - 1)) by lia. done.
    + destruct (Z.eqb_spec (Z.sgn (memcmp n1 M s1 s2)) 0); [lia | done].
  - assert (bytes_at M s1 n1 = bytes_at M s1 n2 ++ bytes_at M (s1 + Z.of_nat n2) (n1 - n2)) as ->
      by (rewrite <- bytes_at_app; f_equal; lia).
    rewrite <- (List.app_nil_r (bytes_at M s2 n2)).
    rewrite lex_app by (now rewrite !length_bytes_at). rewrite <- memcmp_lex.
    destruct (Z.eqb_spec (memcmp n2 M s1 s2) 0) as [E | E]; cbn [negb orb].
    + rewrite E. cbn [Z.sgn Z.eqb]. destruct (Nat.eqb_spec n1 n2) as [Hne | Hne]; [lia |].
      replace (n1 - n2)%nat with (S (n1 - n2 - 1)) by lia. done.
    + destruct (Z.eqb_spec (Z.sgn (memcmp n2 M s1 s2)) 0); [lia | done].
Qed.

Example memn2cmp_prefix :
  let M := mem_of 100 (str "abcabd") in
  (ngx_memn2cmp M 100 103 3 3, ngx_memn2cmp M 100 103 2 3, ngx_memn2cmp M 100 103 3 2) = (-1, -1, 1).
Proof. reflexivity. Qed.
