(* ===== verification/HttpArgs.v ===== *)
(** The rest of http/ngx_http_parse.c: URIs that come from inside
    ([ngx_http_parse_unsafe_uri]), the arguments of a request
    ([ngx_http_arg], [ngx_http_split_args]) and values in header lines. *)
From S2P Require Import Prelude HttpRequest NgxEscape.
From S2P Require Export NgxStrings.
Import Escape.
From stdpp Require Import base list option.
#[global] Open Scope Z_scope.

(** ** [ngx_http_parse_unsafe_uri] *)

Definition ngx_path_separator (c : Z) : bool := c =? chr "/".

(** [p[0] == '.' && p[1] == '.' && (len == n || ngx_path_separator(p[2]))] *)
Definition dots_at (M : mem) (p len n : Z) : bool :=
  (M p =? chr ".") && (M (p + 1) =? chr ".") && ((len =? n) || ngx_path_separator (M (p + 2))).

(** What the first loop ends with: [goto unsafe], or whether there is a "%" and
    [p] and [len] at the question mark, if there is one. *)
Inductive scan := Unsafe | Safe (quoted : bool) (mark : option (Z * Z)).

(** [n] is [len]. *)
Fixpoint unsafe_loop (n : nat) (M : mem) (p : Z) (quoted : bool) : scan :=
  match n with
  | O => Safe quoted None
  | S n' =>
      let len := Z.of_nat n in
      let ch := M p in
      let p := p + 1 in
      if ch =? chr "%" then unsafe_loop n' M p true
      else if is_usual ch then unsafe_loop n' M p quoted
      else if ch =? chr "?" then Safe quoted (Some (p, len))
      else if ch =? 0 then Unsafe
      else if ngx_path_separator ch && (2 <? len) && dots_at M p len 3 then Unsafe
      else unsafe_loop n' M p quoted
  end.

(** The loop over the unescaped text: [false] is [goto unsafe]. *)
Fixpoint unescaped_loop (n : nat) (M : mem) (p : Z) : bool :=
  match n with
  | O => true
  | S n' =>
      let len := Z.of_nat n in
      let ch := M p in
      let p := p + 1 in
      if ch =? 0 then false
      else if ngx_path_separator ch && (2 <? len) && dots_at M p len 3 then false
      else unescaped_loop n' M p
  end.

(** The return code, the memory, [*uri] and [*args]; [alloc] is the answer of
    [ngx_pnalloc]. *)
Definition ngx_http_parse_unsafe_uri (M : mem) (alloc : Z) (uri args : ngx_str) : Z * mem * ngx_str * ngx_str :=
  let p := data uri in
  if (len uri =? 0) || (M p =? chr "?") then (NGX_ERROR, M, uri, args)
  else if (1 <? len uri) && dots_at M p (len uri) 2 then (NGX_ERROR, M, uri, args)
  else
    match unsafe_loop (Z.to_nat (len uri)) M p false with
    | Unsafe => (NGX_ERROR, M, uri, args)
    | Safe quoted mark =>
        let '(uri, args) :=
          match mark with
          | Some (p, n) => (mk_str (len uri - n) (data uri), mk_str (n - 1) p)
          | None => (uri, args)
          end in
        if negb quoted then (NGX_OK, M, uri, args)
        else if alloc =? NULL then (NGX_ERROR, M, uri, args)
        else
          let '(M, dst, _) := ngx_unescape_uri M alloc (data uri) (Z.to_nat (len uri)) 0 in
          let uri := mk_str (dst - alloc) alloc in
          let p := data uri in
          if (1 <? len uri) && dots_at M p (len uri) 2 then (NGX_ERROR, M, uri, args)
          else if unescaped_loop (Z.to_nat (len uri)) M p then (NGX_OK, M, uri, args)
          else (NGX_ERROR, M, uri, args)
    end.

(** ** Arguments *)

(** The loop over the places where the name occurs; [n] is [last - p]. *)
Fixpoint arg_loop (n : nat) (M : mem) (args : ngx_str) (p name : Z) (len_ : nat) : option ngx_str :=
  match n with
  | O => None
  | S n' =>
      let last := data args + len args in
      match ngx_strlcasestrn M p (last - 1) name (Nat.pred len_) with
      | None => None
      | Some q =>
          if ((q =? data args) || (M (q - 1) =? chr "&")) && (M (q + Z.of_nat len_) =? chr "=") then
            let value := q + Z.of_nat len_ + 1 in
            let e := match ngx_strlchr M q last (chr "&") with None => last | Some e => e end in
            Some (mk_str (e - value) value)
          else arg_loop (n' - Z.to_nat (q - p)) M args (q + 1) name len_
      end
  end.

(** The return code and [*value]. *)
Definition ngx_http_arg (M : mem) (args : ngx_str) (name : Z) (len_ : nat) (value : ngx_str) : Z * ngx_str :=
  if len args =? 0 then (NGX_DECLINED, value) else
  match arg_loop (Z.to_nat (len args)) M args (data args) name len_ with
  | Some v => (NGX_OK, v)
  | None => (NGX_DECLINED, value)
  end.

Definition ngx_http_split_args (M : mem) (uri args : ngx_str) : ngx_str * ngx_str :=
  let last := data uri + len uri in
  match ngx_strlchr M (data uri) last (chr "?") with
  | Some p => (mk_str (p - data uri) (data uri), mk_str (last - (p + 1)) (p + 1))
  | None => (uri, mk_str 0 (data args))
  end.

(** ** Values in header lines *)

(** [while (start < end && *start == ' ') start++]; [n] is [end - start]. *)
Fixpoint skip_sp (n : nat) (M : mem) (p : Z) : Z :=
  match n with
  | O => p
  | S n' => if M p =? chr " " then skip_sp n' M (p + 1) else p
  end.

Definition skip_spaces (M : mem) (p e : Z) : Z := skip_sp (Z.to_nat (e - p)) M p.

(** The end of a value: the next [";"] or the end of the line. *)
Definition value_end (M : mem) (start e : Z) : Z :=
  match ngx_strlchr M start e (chr ";") with Some q => q | None => e end.

(** The label [skip]: behind the next [";"] or [","] and the spaces after it. *)
Fixpoint skip_item (n : nat) (M : mem) (p : Z) : Z :=
  match n with
  | O => p
  | S n' => if (M p =? chr ";") || (M p =? chr ",") then p + 1 else skip_item n' M (p + 1)
  end.

Definition next_item (M : mem) (p e : Z) : Z := skip_spaces M (skip_item (Z.to_nat (e - p)) M p) e.

(** One header line of [ngx_http_parse_multi_header_lines]; [Some] is [return
    h], with [*value] if it is asked for. *)
Fixpoint multi_line (fuel : nat) (M : mem) (start e : Z) (name : ngx_str) (want : bool) : option (option ngx_str) :=
  match fuel with
  | O => None
  | S fuel' =>
      if negb (start <? e) then None
      else if negb (ngx_strncasecmp (Z.to_nat (len name)) M start (data name) =? 0) then
        multi_line fuel' M (next_item M start e) e name want
      else
        let start := skip_spaces M (start + len name) e in
        if negb want then
          if (start =? e) || (M start =? chr ",") then Some None
          else multi_line fuel' M (next_item M start e) e name want
        else if start =? e then multi_line fuel' M (next_item M start e) e name want
        else if negb (M start =? chr "=") then multi_line fuel' M (next_item M (start + 1) e) e name want
        else
          let start := skip_spaces M (start + 1) e in
          let last := value_end M start e in
          Some (Some (mk_str (last - start) start))
  end.

(** The place of the line among [headers], the values of the lines, and
    [*value]. *)
Fixpoint multi_header_lines (i : nat) (M : mem) (headers : list ngx_str) (name : ngx_str) (want : bool) :
    option (nat * option ngx_str) :=
  match headers with
  | [] => None
  | h :: next =>
      if len h <? len name then multi_header_lines (S i) M next name want
      else
        match multi_line (S (Z.to_nat (len h))) M (data h) (data h + len h) name want with
        | Some v => Some (i, v)
        | None => multi_header_lines (S i) M next name want
        end
  end.

Definition ngx_http_parse_multi_header_lines (M : mem) (headers : list ngx_str) (name : ngx_str) (want : bool) :
    option (nat * option ngx_str) := multi_header_lines 0 M headers name want.

Fixpoint set_cookie_lines (i : nat) (M : mem) (headers : list ngx_str) (name : ngx_str) : option (nat * ngx_str) :=
  match headers with
  | [] => None
  | h :: next =>
      let e := data h + len h in
      if len h <=? len name then set_cookie_lines (S i) M next name
      else if negb (ngx_strncasecmp (Z.to_nat (len name)) M (data h) (data name) =? 0) then
        set_cookie_lines (S i) M next name
      else
        let start := skip_spaces M (data h + len name) e in
        if (start =? e) || negb (M start =? chr "=") then set_cookie_lines (S i) M next name
        else
          let start := skip_spaces M (start + 1) e in
          let last := value_end M start e in
          Some (i, mk_str (last - start) start)
  end.

Definition ngx_http_parse_set_cookie_lines (M : mem) (headers : list ngx_str) (name : ngx_str) : option (nat * ngx_str) :=
  set_cookie_lines 0 M headers name.

(** ** What the functions compute *)

Definition str_bytes (M : mem) (s : ngx_str) : list Z := range M (data s) (data s + len s).

(** There is a segment ".." at place [i] of a path. *)
Definition parent_at (l : list Z) (i : nat) : Prop :=
  (i = 0%nat \/ l !! pred i = Some (chr "/")) /\ l !! i = Some (chr ".") /\ l !! S i = Some (chr ".") /\
  (l !! S (S i) = None \/ l !! S (S i) = Some (chr "/")).

(** The text of a URI is a path and, after a question mark, arguments. *)
Definition path_rest (l path rest : list Z) : Prop :=
  l = path ++ rest /\ chr "?" ∉ path /\ (rest = [] \/ head rest = Some (chr "?")).

Lemma path_rest_cons c l path rest :
  path_rest (c :: l) path rest ->
  (c = chr "?" /\ path = [] /\ rest = c :: l) \/
  (c <> chr "?" /\ exists path', path = c :: path' /\ path_rest l path' rest).
Proof.
  intros (E & H & R). destruct path as [| x path].
  - left. cbn in E. destruct R as [-> | R]; [done |]. rewrite <- E in R. cbn in R. split_and!; congruence.
  - right. cbn in E. injection E as -> E. apply not_elem_of_cons in H as [H1 H2]. split; [congruence |]. exists path. done.
Qed.

Lemma usual_not_special c : is_usual c = true -> c <> 0 /\ c <> chr "?" /\ c <> chr "/".
Proof. intros H. split_and!; intros ->; vm_compute in H; done. Qed.

(** The path begins with a segment "..". *)
Definition starts_parent (l : list Z) : bool :=
  match l with
  | a :: b :: l => (a =? chr ".") && (b =? chr ".") && (match l with [] => true | c :: _ => ngx_path_separator c end)
  | _ => false
  end.

(** Both forms of the test: with the length of the rest, and with one more. *)
Lemma dots_start n M p :
  (1 <? Z.of_nat n) && dots_at M p (Z.of_nat n) 2 = starts_parent (bytes_at M p n) /\
  (2 <? Z.of_nat (S n)) && dots_at M p (Z.of_nat (S n)) 3 = starts_parent (bytes_at M p n).
Proof.
  unfold dots_at. destruct n as [| [| n]]; [done | done |].
  destruct (Z.ltb_spec 1 (Z.of_nat (S (S n)))); [| lia]. destruct (Z.ltb_spec 2 (Z.of_nat (S (S (S n))))); [| lia].
  cbn [andb bytes_at starts_parent]. replace (p + 1 + 1) with (p + 2) by lia.
  destruct (Z.eqb_spec (Z.of_nat (S (S n))) 2), (Z.eqb_spec (Z.of_nat (S (S (S n)))) 3), n as [| n]; try lia; cbn [bytes_at orb];
    by rewrite <- !andb_assoc.
Qed.

(** What both loops look for in the first [k] bytes: a zero byte, or a separator
    with a segment ".." behind it. *)
Fixpoint clean (k : nat) (l : list Z) : bool :=
  match k, l with
  | S k, c :: l => negb (c =? 0) && negb (ngx_path_separator c && starts_parent l) && clean k l
  | _, _ => true
  end.

Lemma unescaped_loop_clean n M p : unescaped_loop n M p = clean n (bytes_at M p n).
Proof.
  revert p. induction n as [| n IH]; intros p; [done |]. cbn [unescaped_loop bytes_at clean]. rewrite IH.
  destruct (M p =? 0); [done |]. rewrite <- andb_assoc, (proj2 (dots_start n M (p + 1))). cbn [negb andb]. by destruct (_ && _).
Qed.

Lemma unsafe_loop_clean n M p q path rest :
  path_rest (bytes_at M p n) path rest ->
  unsafe_loop n M p q =
  if clean (length path) (bytes_at M p n)
  then Safe (q || bool_decide (chr "%" ∈ path))
         (if rest is [] then None else Some (p + Z.of_nat (length path) + 1, Z.of_nat (length rest)))
  else Unsafe.
Proof.
  revert p q path. induction n as [| n IH]; intros p q path HP.
  { destruct HP as (E & _ & _). destruct path, rest; try done. cbn. by rewrite orb_false_r. }
  cbn [bytes_at] in *. apply path_rest_cons in HP as [(E1 & -> & ->) | (E1 & path' & -> & HP)].
  { cbn [unsafe_loop length clean]. rewrite E1. cbn. rewrite orb_false_r, length_bytes_at. do 3 f_equal. lia. }
  cbn [unsafe_loop length clean].
  assert (forall q0, q0 = q || (M p =? chr "%") -> unsafe_loop n M (p + 1) q0 =
    if clean (length path') (bytes_at M (p + 1) n)
    then Safe (q || bool_decide (chr "%" ∈ M p :: path'))
           (if rest is [] then None else Some (p + Z.of_nat (S (length path')) + 1, Z.of_nat (length rest)))
    else Unsafe) as G.
  { intros q0 ->. rewrite (IH _ _ _ HP). destruct (clean _ _); [| done]. f_equal.
    - rewrite <- orb_assoc. f_equal. destruct (Z.eqb_spec (M p) (chr "%")) as [E | E]; cbn [orb].
      + symmetry. apply bool_decide_eq_true. rewrite E. apply list_elem_of_here.
      + apply bool_decide_ext. rewrite elem_of_cons. split; [tauto | intros [|]; [congruence | done]].
    - destruct rest; [done |]. do 2 f_equal. lia. }
  destruct (Z.eqb_spec (M p) (chr "%")) as [E | E].
  { replace (M p =? 0) with false by (rewrite E; done). replace (ngx_path_separator (M p)) with false by (rewrite E; done).
    cbn [negb andb]. apply G. by rewrite orb_true_r. }
  destruct (is_usual (M p)) eqn:U.
  { apply usual_not_special in U as (U1 & U2 & U3). unfold ngx_path_separator. apply Z.eqb_neq in U1, U3. rewrite U1, U3.
    apply G. by rewrite orb_false_r. }
  destruct (Z.eqb_spec (M p) (chr "?")); [done |]. destruct (Z.eqb_spec (M p) 0); [done |].
  rewrite <- andb_assoc, (proj2 (dots_start n M (p + 1))). cbn [negb andb]. destruct (_ && starts_parent _); [done |].
  cbn [negb andb]. apply G. by rewrite orb_false_r.
Qed.

Lemma starts_parent_spec l :
  starts_parent l = true <-> l !! 0%nat = Some (chr ".") /\ l !! 1%nat = Some (chr ".") /\ (l !! 2%nat = None \/ l !! 2%nat = Some (chr "/")).
Proof.
  destruct l as [| a [| b l]]; cbn; [naive_solver | naive_solver |]. rewrite !andb_true_iff, !Z.eqb_eq. destruct l as [| c l]; cbn; [naive_solver |].
  unfold ngx_path_separator. rewrite Z.eqb_eq. naive_solver.
Qed.

(** The test at the start and the loop find the segments ".." at the first [k]
    places and the one behind. *)
Lemma clean_spec k l :
  negb (starts_parent l) && clean k l = true <-> 0 ∉ take k l /\ forall i, (i <= k)%nat -> ~ parent_at l i.
Proof.
  assert (forall l, starts_parent l = true <-> parent_at l 0) as P0.
  { intros m. rewrite starts_parent_spec. unfold parent_at. naive_solver. }
  assert (forall c l i, parent_at (c :: l) (S (S i)) <-> parent_at l (S i)) as PS.
  { intros c m i. unfold parent_at. cbn [pred]. naive_solver. }
  assert (forall c l, parent_at (c :: l) 1 <-> c = chr "/" /\ starts_parent l = true) as P1.
  { intros c m. rewrite starts_parent_spec. unfold parent_at. cbn. naive_solver. }
  enough (clean k l = true <-> 0 ∉ take k l /\ forall i, (i < k)%nat -> ~ parent_at l (S i)) as E.
  { rewrite andb_true_iff, negb_true_iff, E, <- not_true_iff_false, P0. split.
    - intros (H1 & H2 & H3). split; [done |]. intros [| i] Hi; [done |]. apply H3. lia.
    - intros [H1 H2]. split; [apply H2; lia |]. split; [done |]. intros i Hi. apply H2. lia. }
  revert l. induction k as [| k IH]; intros [| c m]; cbn [clean take].
  - split; [intros _; split; [apply not_elem_of_nil | lia] | done].
  - split; [intros _; split; [apply not_elem_of_nil | lia] | done].
  - split; [intros _; split; [apply not_elem_of_nil | intros i _ (_ & H & _); done] | done].
  - rewrite !andb_true_iff, IH, !negb_true_iff, not_elem_of_cons, andb_false_iff, Z.eqb_neq. unfold ngx_path_separator.
    rewrite Z.eqb_neq, <- not_true_iff_false. split.
    + intros ((H1 & H2) & H3 & H4). split; [split; [congruence | done] |].
      intros [| i] Hi; [rewrite P1; tauto | rewrite PS; apply H4; lia].
    + intros ((H1 & H2) & H3). pose proof (H3 0%nat ltac:(lia)) as H4. rewrite P1 in H4. split_and!; [congruence | | done |].
      * destruct (decide (c = chr "/")); tauto.
      * intros i Hi. rewrite <- (PS c). apply H3. lia.
Qed.

Lemma bytes_at_lookup M p n i : bytes_at M p n !! i = if decide (i < n)%nat then Some (M (p + Z.of_nat i)) else None.
Proof.
  destruct (decide (i < n)%nat).
  - replace (bytes_at M p n) with (range M p (p + Z.of_nat n)) by (unfold range; f_equal; lia). apply range_lookup. lia.
  - apply lookup_ge_None. rewrite length_bytes_at. lia.
Qed.

(** What unescaping a path gives. *)
Lemma unescape_path M dst src n M' d' s' :
  dst <= src \/ src + Z.of_nat n <= dst ->
  ngx_unescape_uri M dst src n 0 = (M', d', s') ->
  let out := fst (unescape 0 (bytes_at M src n)) in M' = write M dst out /\ d' = dst + Z.of_nat (length out).
Proof.
  intros Ha H out. destruct (un_loop_spec 0 (or_introl eq_refl) n (mk_un M dst src sw_usual 0)) as (Em & Ed & _); [done | unfold apart; cbn; lia |].
  unfold ngx_unescape_uri in H. injection H as <- <- _. rewrite Em, Ed. unfold out, text. cbn [un_st un_m un_d un_s pending app].
  replace (range M src (src + Z.of_nat n)) with (bytes_at M src n) by (unfold range; f_equal; lia). done.
Qed.

Lemma written M p l : bytes_at (write M p l) p (length l) = l.
Proof.
  transitivity (range (write M p l) p (p + Z.of_nat (length l))); [unfold range; f_equal; lia | apply range_write].
Qed.

(** A path that stands: no zero bytes, and no segment ".." at the first [k]
    places of the text [l] and the one behind. *)
Definition standing (k : nat) (l : list Z) : Prop := 0 ∉ take k l /\ forall i, (i <= k)%nat -> ~ parent_at l i.

(** What makes a URI with a path and a text safe, when [out] is the path without
    its escapes. *)
Definition safe_uri (alloc : Z) (text path out : list Z) : Prop :=
  path <> [] /\ standing (length path) text /\ (chr "%" ∈ path -> alloc <> NULL /\ standing (length out) out).

(** The segments ".." that are left in the path of a text. *)
Lemma standing_left text path rest i :
  path_rest text path rest -> standing (length path) text -> parent_at path i -> S (S i) = length path /\ rest <> [].
Proof.
  intros (-> & _ & _) [_ H] P. pose proof P as (P1 & P2 & P3 & P4). apply lookup_lt_Some in P3 as L.
  assert (forall j, (j < length path)%nat -> (path ++ rest) !! j = path !! j) as Q by (intros j Hj; by apply lookup_app_l).
  destruct (decide (S (S i) = length path /\ rest <> [])) as [D | D]; [done |]. exfalso. apply (H i); [lia |].
  split_and!; [destruct P1 as [-> | P1]; [by left | right; rewrite Q; [done | lia]] | rewrite Q; [done | lia] | by rewrite Q |].
  destruct P4 as [P4 | P4]; [| right; rewrite Q; [done | by apply lookup_lt_Some in P4]].
  left. apply lookup_ge_None in P4. apply lookup_ge_None. rewrite length_app. destruct rest; [cbn; lia | exfalso; apply D; split; [lia | done]].
Qed.

Lemma standing_none l i : standing (length l) l -> ~ parent_at l i.
Proof. intros [_ H] P. pose proof P as (_ & _ & P3 & _). apply lookup_lt_Some in P3. apply (H i); [lia | done]. Qed.

Lemma path_bytes M p n path rest : path_rest (bytes_at M p n) path rest -> bytes_at M p (length path) = path.
Proof.
  intros (E & _ & _). pose proof (f_equal length E) as EL. rewrite length_bytes_at, length_app in EL.
  pose proof (f_equal (take (length path)) E) as E1. rewrite EL, bytes_at_app, take_app_length in E1.
  rewrite take_app_length' in E1; [done | symmetry; apply length_bytes_at].
Qed.

Lemma str_bytes_at M n p : str_bytes M (mk_str (Z.of_nat n) p) = bytes_at M p n.
Proof. unfold str_bytes, range. cbn [len data]. f_equal. lia. Qed.

(** What happens to the path behind the loop. *)
Lemma unsafe_uri_unescape (M : mem) (alloc p : Z) (path : list Z) (args : ngx_str) :
  bytes_at M p (length path) = path -> p + Z.of_nat (length path) <= alloc \/ alloc <= p ->
  let out := fst (unescape 0 path) in
  (let '(M, dst, _) := ngx_unescape_uri M alloc p (length path) 0 in
   let uri := mk_str (dst - alloc) alloc in
   let p := data uri in
   if (1 <? len uri) && dots_at M p (len uri) 2 then (NGX_ERROR, M, uri, args)
   else if unescaped_loop (Z.to_nat (len uri)) M p then (NGX_OK, M, uri, args) else (NGX_ERROR, M, uri, args)) =
  (if negb (starts_parent out) && clean (length out) out then NGX_OK else NGX_ERROR, write M alloc out,
   mk_str (Z.of_nat (length out)) alloc, args).
Proof.
  intros EP HA out. destruct (ngx_unescape_uri _ _ _ _ _) as [[M1 dst] src] eqn:EU.
  apply unescape_path in EU as [-> ->]; [| lia]. rewrite EP. fold out. cbn [len data].
  replace (alloc + Z.of_nat (length out) - alloc) with (Z.of_nat (length out)) by lia. cbv zeta. cbn [len data].
  rewrite (proj1 (dots_start _ _ _)), Nat2Z.id, unescaped_loop_clean, written. by destruct (starts_parent out), (clean (length out) out).
Qed.

(** The function in terms of the path. *)
Lemma unsafe_uri_run M alloc k p args path rest :
  path_rest (bytes_at M p k) path rest -> p + Z.of_nat k <= alloc \/ alloc <= p ->
  let out := fst (unescape 0 path) in
  let quoted := bool_decide (chr "%" ∈ path) in
  let uri1 := mk_str (Z.of_nat (length path)) p in
  let args1 := if rest is [] then args else mk_str (Z.of_nat (length rest) - 1) (p + Z.of_nat (length path) + 1) in
  ngx_http_parse_unsafe_uri M alloc (mk_str (Z.of_nat k) p) args =
    if bool_decide (path = []) || starts_parent (bytes_at M p k) || negb (clean (length path) (bytes_at M p k))
    then (NGX_ERROR, M, mk_str (Z.of_nat k) p, args)
    else if negb quoted then (NGX_OK, M, uri1, args1)
    else if alloc =? NULL then (NGX_ERROR, M, uri1, args1)
    else (if negb (starts_parent out) && clean (length out) out then NGX_OK else NGX_ERROR, write M alloc out,
      mk_str (Z.of_nat (length out)) alloc, args1).
Proof.
  intros HP HA out quoted uri1 args1. pose proof (path_bytes _ _ _ _ _ HP) as EP.
  pose proof HP as (E & HQ & HR). pose proof (f_equal length E) as EL. rewrite length_bytes_at, length_app in EL.
  unfold ngx_http_parse_unsafe_uri. cbn [len data].
  assert ((Z.of_nat k =? 0) || (M p =? chr "?") = bool_decide (path = [])) as ->.
  { destruct k as [| k]; cbn [bytes_at] in E.
    - symmetry in E. apply app_eq_nil in E as [-> _]. done.
    - destruct (Z.eqb_spec (Z.of_nat (S k)) 0); [lia |]. cbn [orb]. destruct path as [| c path]; cbn in E.
      + destruct HR as [-> | HR]; [done |]. rewrite <- E in HR. cbn in HR. injection HR as ->. done.
      + injection E as -> _. apply not_elem_of_cons in HQ as [HQ _]. rewrite (proj2 (Z.eqb_neq c (chr "?"))) by congruence. done. }
  destruct (bool_decide (path = [])); [done |]. cbn [orb]. rewrite (proj1 (dots_start _ _ _)). destruct (starts_parent _); [done |]. cbn [orb].
  rewrite Nat2Z.id, (unsafe_loop_clean _ _ _ _ _ _ HP). destruct (clean _ _); [| done]. cbn [negb orb]. fold quoted.
  match goal with |- context [match ?x with None => (mk_str _ _, args) | Some _ => _ end] =>
    replace (match x with None => (mk_str (Z.of_nat k) p, args) | Some (q, n) => (mk_str (Z.of_nat k - n) p, mk_str (n - 1) q) end)
      with (uri1, args1) end.
  2: { unfold uri1, args1. destruct rest as [| c rest]; cbn in *; repeat f_equal; lia. }
  destruct (negb quoted); [done |]. destruct (alloc =? NULL); [done |]. unfold uri1. cbn [len data]. rewrite Nat2Z.id.
  apply unsafe_uri_unescape; [done | lia].
Qed.

(** C26: [ngx_http_parse_unsafe_uri] accepts a URI exactly if its path is not empty,
    has no zero byte and no segment ".." that is seen, and, when it has a "%",
    memory is there for the path without its escapes, which has no zero byte and
    no segment ".." either.  It then gives this path, unescaped when there was a
    "%", and the arguments behind the question mark, and changes no other memory.
    A segment ".." is left in the path only where it ends a path without
    escapes just before the question mark. *)
Theorem unsafe_uri_safe M alloc uri args path rest :
  0 <= len uri -> path_rest (str_bytes M uri) path rest -> data uri + len uri <= alloc \/ alloc <= data uri ->
  let out := fst (unescape 0 path) in
  let quoted := bool_decide (chr "%" ∈ path) in
  let '(rc, M', uri', args') := ngx_http_parse_unsafe_uri M alloc uri args in
  (rc = NGX_OK <-> safe_uri alloc (str_bytes M uri) path out) /\ (rc <> NGX_OK -> rc = NGX_ERROR) /\
  (rc = NGX_OK ->
     M' = (if quoted then write M alloc out else M) /\
     str_bytes M' uri' = (if quoted then out else path) /\
     args' = (if rest is [] then args else mk_str (Z.of_nat (length rest) - 1) (data uri + Z.of_nat (length path) + 1)) /\
     forall i, parent_at (str_bytes M' uri') i -> quoted = false /\ S (S i) = length path /\ rest <> []).
Proof.
  intros L0 HP HA out quoted. destruct uri as [n p]. cbn [len data] in *. rewrite <- (Z2Nat.id n L0) in HP, HA |- *. set (k := Z.to_nat n) in *.
  clearbody k. clear L0 n. rewrite str_bytes_at in *. pose proof (path_bytes _ _ _ _ _ HP) as EP.
  set (uri1 := mk_str (Z.of_nat (length path)) p).
  set (args1 := if rest is [] then args else mk_str (Z.of_nat (length rest) - 1) (p + Z.of_nat (length path) + 1)).
  rewrite (unsafe_uri_run M alloc k p args path rest HP HA). fold out quoted uri1 args1.
  assert (forall k l, negb (starts_parent l) && clean k l = true <-> standing k l) as S by exact clean_spec.
  assert (bool_decide (path = []) || starts_parent (bytes_at M p k) || negb (clean (length path) (bytes_at M p k)) = false <->
    path <> [] /\ standing (length path) (bytes_at M p k)) as B1.
  { rewrite <- S, !orb_false_iff, bool_decide_eq_false, negb_false_iff, andb_true_iff, negb_true_iff. tauto. }
  unfold safe_uri. destruct (_ || _ || _).
  { split; [| split; [done | discriminate]]. split; [discriminate |]. intros (H1 & H2 & _). destruct B1 as [_ B1]. discriminate B1; done. }
  destruct B1 as [B1 _]. specialize (B1 eq_refl) as [B1 B2]. destruct (bool_decide_reflect (chr "%" ∈ path)) as [Q | Q]; subst quoted; cbn [negb].
  - destruct (Z.eqb_spec alloc NULL) as [-> | Na].
    { split; [| split; [done | discriminate]]. split; [discriminate |]. intros (_ & _ & H). by destruct (H Q). }
    specialize (S (length out) out). destruct (negb (starts_parent out) && _).
    + pose proof (proj1 S eq_refl) as So. split; [split; [tauto | done] |]. split; [done |]. intros _.
      rewrite str_bytes_at, written. split_and!; try done. intros i Hi. by apply standing_none in Hi.
    + split; [| split; [done | discriminate]]. split; [discriminate |]. intros (_ & _ & H). destruct S as [_ S]. discriminate S. by apply H.
  - split; [split; [tauto | done] |]. split; [done |]. intros _. unfold uri1. rewrite str_bytes_at, EP. split_and!; try done.
    intros i Hi. split; [done |]. by apply (standing_left _ _ _ _ HP).
Qed.

(** *** Header lines *)

Lemma skip_sp_range n M p : p <= skip_sp n M p <= p + Z.of_nat n.
Proof.
  revert p. induction n as [| n IH]; intros p; cbn [skip_sp]; [lia |]. destruct (_ =? _); [specialize (IH (p + 1)); lia | lia].
Qed.

Lemma skip_item_range n M p : p <= skip_item n M p <= p + Z.of_nat n /\ (n <> 0%nat -> p < skip_item n M p).
Proof.
  revert p. induction n as [| n IH]; intros p; cbn [skip_item]; [lia |]. destruct (_ || _); [lia |]. specialize (IH (p + 1)). lia.
Qed.

Lemma next_item_moves M start p e : start <= p -> start < e -> start < next_item M p e.
Proof.
  intros H1 H2. unfold next_item, skip_spaces. pose proof (skip_item_range (Z.to_nat (e - p)) M p) as [I1 I2].
  pose proof (skip_sp_range (Z.to_nat (e - skip_item (Z.to_nat (e - p)) M p)) M (skip_item (Z.to_nat (e - p)) M p)). lia.
Qed.

(** The fuel is enough: each turn of the loop moves on. *)
Lemma multi_line_fuel M e name want f1 f2 start :
  0 <= len name -> e - start < Z.of_nat f1 -> e - start < Z.of_nat f2 ->
  multi_line f1 M start e name want = multi_line f2 M start e name want.
Proof.
  intros L0. revert f2 start. induction f1 as [| f1 IH]; intros [| f2] start H1 H2; cbn [multi_line]; try done.
  - destruct (Z.ltb_spec start e); [lia | done].
  - destruct (Z.ltb_spec start e); [lia | done].
  - destruct (Z.ltb_spec start e) as [Hs | Hs]; [| done]. cbn [negb].
    assert (forall p, start <= p -> multi_line f1 M (next_item M p e) e name want = multi_line f2 M (next_item M p e) e name want) as Q.
    { intros p Hp. pose proof (next_item_moves M start p e Hp Hs). apply IH; lia. }
    pose proof (skip_sp_range (Z.to_nat (e - (start + len name))) M (start + len name)) as R.
    fold (skip_spaces M (start + len name) e) in R.
    repeat case_match; try done; apply Q; lia.
Qed.

(** *** Arguments *)

(** The parts of a text between the bytes [c0]. *)
Fixpoint split (c0 : Z) (l : list Z) : list (list Z) :=
  match l with
  | [] => [[]]
  | c :: l' =>
      if c =? c0 then [] :: split c0 l'
      else match split c0 l' with s :: r => (c :: s) :: r | [] => [] end
  end.

(** A parameter "name=value" of this name. *)
Definition named (name s : list Z) : bool :=
  bool_decide (same_nocase (take (length name) s) name) && bool_decide (s !! length name = Some (chr "=")).

(** The value of the first parameter of this name. *)
Fixpoint param_value (name : list Z) (params : list (list Z)) : option (list Z) :=
  match params with
  | [] => None
  | s :: params => if named name s then Some (drop (S (length name)) s) else param_value name params
  end.

Lemma split_none c0 s : c0 ∉ s -> split c0 s = [s].
Proof.
  induction s as [| c s IH]; [done |]. intros H. apply not_elem_of_cons in H as [H1 H2]. cbn [split].
  rewrite IH by done. destruct (Z.eqb_spec c c0); [congruence | done].
Qed.

Lemma split_some c0 s l : c0 ∉ s -> split c0 (s ++ c0 :: l) = s :: split c0 l.
Proof.
  induction s as [| c s IH]; intros H; cbn [split app]; [by rewrite Z.eqb_refl |].
  apply not_elem_of_cons in H as [H1 H2]. rewrite IH by done. destruct (Z.eqb_spec c c0); [congruence | done].
Qed.

(** Induction over the parts of a text. *)
Lemma split_ind c0 (P : list Z -> Prop) :
  (forall s, c0 ∉ s -> P s) -> (forall s l, c0 ∉ s -> P l -> P (s ++ c0 :: l)) -> forall l, P l.
Proof.
  intros H1 H2 l. enough (forall s, c0 ∉ s -> P (s ++ l)) as G by (apply (G []), not_elem_of_nil).
  induction l as [| c l IH]; intros s Hs; [rewrite app_nil_r; by apply H1 |].
  destruct (decide (c = c0)) as [-> | N].
  - apply H2; [done |]. apply (IH []), not_elem_of_nil.
  - rewrite cons_middle, app_assoc. apply IH. rewrite elem_of_app, list_elem_of_singleton. intros [|]; congruence.
Qed.

(** A parameter of the name starts at place [q]. *)
Definition param_at (name l : list Z) (q : nat) : Prop :=
  (q = 0%nat \/ l !! pred q = Some (chr "&")) /\ named name (drop q l) = true.

Lemma not_in_drop (c : Z) n s : c ∉ s -> c ∉ drop n s.
Proof. intros H Q. apply H. rewrite <- (take_drop n s), elem_of_app. by right. Qed.

Lemma tolower_amp c : ngx_tolower c = chr "&" -> c = chr "&".
Proof.
  intros Q. destruct (decide (byte c)) as [B | B].
  - assert (Bool.eqb (ngx_tolower c =? chr "&") (c =? chr "&") = true) as E; [| apply Bool.eqb_prop in E; lia].
    clear Q. revert c B. byte_cases (fun c => Bool.eqb (ngx_tolower c =? chr "&") (c =? chr "&")).
  - unfold ngx_tolower, byte in *. destruct ((65 <=? c) && (c <=? 90)) eqn:R; [lia | done].
Qed.

Section Param.
Context (name : list Z) (Hamp : chr "&" ∉ name).

Lemma nocase_amp a : same_nocase a name -> chr "&" ∉ a.
Proof using Hamp.
  unfold same_nocase. intros E Ha. apply Hamp. apply list_elem_of_lookup in Ha as [i Hi].
  assert (ngx_strlow a !! i = Some (chr "&")) as Q by (unfold ngx_strlow; rewrite list_lookup_fmap, Hi; done).
  rewrite E in Q. unfold ngx_strlow in Q. rewrite list_lookup_fmap in Q. destruct (name !! i) as [c |] eqn:Ec; [| done].
  cbn in Q. injection Q as Q. apply list_elem_of_lookup. exists i. rewrite Ec. f_equal. by apply tolower_amp.
Qed.

Lemma named_part s l : chr "&" ∉ s -> named name (s ++ chr "&" :: l) = named name s.
Proof using Hamp.
  intros Hs. unfold named. destruct (decide (length name < length s)%nat) as [L | L].
  - rewrite take_app_le, lookup_app_l by lia. done.
  - rewrite (bool_decide_false (s !! _ = _)) by (rewrite lookup_ge_None_2 by lia; done). rewrite andb_false_r.
    destruct (decide (length name = length s)) as [E | E].
    + rewrite E, list_lookup_middle by done. apply andb_false_r.
    + rewrite bool_decide_false; [done |]. intros Q. apply nocase_amp in Q. apply Q. apply list_elem_of_lookup. exists (length s).
      rewrite lookup_take_lt, list_lookup_middle by lia. done.
Qed.

Lemma param_at_part s l q :
  chr "&" ∉ s -> param_at name (s ++ chr "&" :: l) q <->
  (q = 0%nat /\ named name s = true) \/ (exists q', q = (length s + S q')%nat /\ param_at name l q').
Proof using Hamp.
  intros Hs. unfold param_at. destruct (decide (q = 0%nat)) as [-> | N].
  { rewrite drop_0, named_part by done. split; [tauto |]. intros [[_ ?] | (q' & ? & _)]; [auto | lia]. }
  destruct (decide (q <= length s)%nat) as [L | L].
  { rewrite lookup_app_l by lia. split; [intros [[| Q] _]; [done |]; exfalso | intros [[]| (q' & ? & _)]; lia].
    apply Hs, list_elem_of_lookup. by exists (pred q). }
  assert (exists q', q = (length s + S q')%nat) as [z Ez] by (exists (q - length s - 1)%nat; lia).
  rename z into q'. subst q.
  rewrite drop_app_add. cbn [drop]. replace (pred (length s + S q')) with (length s + q')%nat by lia.
  rewrite lookup_app_r by lia. replace (length s + q' - length s)%nat with q' by lia.
  split.
  - intros [[| Q] W]; [lia |]. right. exists q'. split; [done |]. split; [| done]. destruct q'; [by left | right; done].
  - intros [[]| (q2 & E & [H1 H2])]; [lia |]. assert (q2 = q') as -> by lia. split; [right | done].
    destruct q'; [done |]. destruct H1 as [| H1]; [lia | done].
Qed.

(** The value is that of the first place where a parameter of the name starts. *)
Lemma param_value_first l :
  match param_value name (split (chr "&") l) with
  | Some v => exists q, param_at name l q /\ (forall q', (q' < q)%nat -> ~ param_at name l q') /\
      exists rest, drop q l = take (S (length name)) (drop q l) ++ v ++ rest /\ chr "&" ∉ v /\ (rest = [] \/ head rest = Some (chr "&"))
  | None => forall q, ~ param_at name l q
  end.
Proof using Hamp.
  induction l as [s Hs | s l Hs IH] using (split_ind (chr "&")).
  - rewrite split_none by done. cbn [param_value]. destruct (named name s) eqn:E.
    + exists 0%nat. rewrite drop_0. split_and!; [split; [by left | by rewrite drop_0] | lia |]. exists [].
      rewrite app_nil_r, take_drop. split_and!; [done | | by left]; by apply not_in_drop.
    + intros [| q] [Q1 Q2]; [rewrite drop_0 in Q2; congruence |]. destruct Q1 as [| Q1]; [done |].
      apply Hs, list_elem_of_lookup. by exists q.
  - rewrite split_some by done. cbn [param_value]. destruct (named name s) eqn:E.
    + exists 0%nat. rewrite drop_0. split_and!; [apply param_at_part; auto | lia |].
      exists (chr "&" :: l). split_and!; [| | by right].
      * rewrite app_assoc. f_equal. unfold named in E. apply andb_prop in E as [_ E]. apply bool_decide_eq_true in E.
        apply lookup_lt_Some in E. rewrite take_app_le by lia. by rewrite take_drop.
      * by apply not_in_drop.
    + destruct (param_value name (split (chr "&") l)) as [v |].
      * destruct IH as (q & H1 & H2 & rest & H3). exists (length s + S q)%nat. split_and!.
        -- apply param_at_part; [done |]. right. by exists q.
        -- intros q' L Q. apply param_at_part in Q as [[-> Q] | (q2 & -> & Q)]; [congruence | | done]. apply (H2 q2); [lia | done].
        -- exists rest. rewrite drop_app_add. exact H3.
      * intros q Q. apply param_at_part in Q as [[-> Q] | (q2 & -> & Q)]; [congruence | | done]. by apply (IH q2).
Qed.
End Param.

Section Args.
Context (M : mem) (args : ngx_str) (name : Z) (len_ : nat).
Context (Hlen : 0 <= len args) (H0 : (0 < len_)%nat).
Let nm := bytes_at M name len_.
Let l := str_bytes M args.
Context (Hamp : chr "&" ∉ nm) (Hzero : 0 ∉ nm).

Lemma str_bytes_lookup i : l !! i = if decide (Z.of_nat i < len args) then Some (M (data args + Z.of_nat i)) else None.
Proof using Hlen H0.
  unfold l, str_bytes, range. rewrite bytes_at_lookup. repeat case_decide; try done; lia.
Qed.

Lemma bytes_at_take n i : (i + n <= Z.to_nat (len args))%nat -> take n (drop i l) = bytes_at M (data args + Z.of_nat i) n.
Proof using Hlen H0.
  intros L. apply list_eq. intros j. rewrite bytes_at_lookup. case_decide.
  - rewrite lookup_take_lt, lookup_drop, str_bytes_lookup by done. case_decide; [do 2 f_equal; lia | lia].
  - apply lookup_ge_None. rewrite length_take. lia.
Qed.

Lemma param_at_mem q :
  param_at nm l q <->
  (q = 0%nat \/ M (data args + Z.of_nat q - 1) = chr "&") /\ Z.of_nat q + Z.of_nat len_ < len args /\
  same_nocase (bytes_at M (data args + Z.of_nat q) len_) nm /\ M (data args + Z.of_nat q + Z.of_nat len_) = chr "=".
Proof using Hlen H0.
  unfold param_at, named. rewrite andb_true_iff, !bool_decide_eq_true. unfold nm at 1 3. rewrite length_bytes_at.
  rewrite lookup_drop, !str_bytes_lookup. destruct (decide (Z.of_nat (q + len_) < len args)) as [L | L].
  - rewrite bytes_at_take by lia. rewrite decide_True by lia.
    replace (data args + Z.of_nat (q + len_)) with (data args + Z.of_nat q + Z.of_nat len_) by lia.
    assert (q <> 0%nat -> data args + Z.of_nat (pred q) = data args + Z.of_nat q - 1) as E by lia.
    split.
    + intros ([-> | Q1] & Q2 & Q3); (split; [| split_and!; [lia | done | congruence]]); [by left |].
      destruct (decide (q = 0%nat)) as [| N]; [by left | right]. rewrite <- E by done. congruence.
    + intros ([-> | Q1] & Q2 & Q3 & Q4); (split; [| split; congruence]); [by left |].
      destruct (decide (q = 0%nat)) as [| N]; [by left | right]. rewrite E by done. congruence.
  - split; [intros (_ & _ & Q); done | intros (_ & Q & _); lia].
Qed.

(** The loop stops at the first parameter of the name from [p] on. *)
Lemma arg_loop_first n i :
  Z.of_nat n = len args - Z.of_nat i ->
  match arg_loop n M args (data args + Z.of_nat i) name len_ with
  | Some v => exists q, (i <= q)%nat /\ param_at nm l q /\ (forall q', (i <= q' < q)%nat -> ~ param_at nm l q') /\
      let value := data args + Z.of_nat q + Z.of_nat len_ + 1 in
      let last := data args + len args in
      v = mk_str (match ngx_strlchr M (data args + Z.of_nat q) last (chr "&") with None => last | Some e => e end - value) value
  | None => forall q, (i <= q)%nat -> ~ param_at nm l q
  end.
Proof using Hlen H0 Hzero.
  revert i. induction n as [n IH] using lt_wf_ind. intros i En. destruct n as [| n]; cbn [arg_loop].
  { intros q Hq Q. apply param_at_mem in Q as (_ & Q & _). lia. }
  pose proof (strlcasestrn_spec M (data args + Z.of_nat i) (data args + len args - 1) name (pred len_)) as W.
  replace (S (pred len_)) with len_ in W by lia. cbv zeta in W.
  assert (Forall (fun c => c <> 0) (bytes_at M name len_)) as NZ by (apply List.Forall_forall; intros c Hc ->; by apply list_elem_of_In in Hc).
  destruct (ngx_strlcasestrn _ _ _ _ _) as [q |].
  - destruct W as (S1 & S2 & S3 & S4); [exact NZ |].
    assert (exists j, q = data args + Z.of_nat j) as [j ->] by (exists (Z.to_nat (q - data args)); lia).
    assert (forall q', (i <= q' < j)%nat -> ~ param_at nm l q') as S5.
    { intros q' Hq Q. apply param_at_mem in Q as (_ & _ & Q & _). apply (S4 (data args + Z.of_nat q')); [lia | done]. }
    destruct (_ && _) eqn:B.
    + exists j. split_and!; [lia | | done | done]. apply param_at_mem.
      apply andb_prop in B as [B1 B2]. apply Z.eqb_eq in B2. split_and!; [| lia | done | done].
      apply orb_prop in B1 as [B1 | B1]; apply Z.eqb_eq in B1; [left; lia | by right].
    + specialize (IH (n - Z.to_nat (data args + Z.of_nat j - (data args + Z.of_nat i)))%nat ltac:(lia) (S j) ltac:(lia)).
      replace (data args + Z.of_nat j + 1) with (data args + Z.of_nat (S j)) by lia.
      assert (~ param_at nm l j) as S6.
      { intros Q. apply param_at_mem in Q as (Q1 & _ & _ & Q2). rewrite Q2, Z.eqb_refl, andb_true_r in B.
        apply orb_false_elim in B as [B1 B2]. apply Z.eqb_neq in B1, B2. destruct Q1; [lia | done]. }
      assert (forall q', (i <= q')%nat -> (q' < S j)%nat -> ~ param_at nm l q') as S7.
      { intros q' Q1 Q2. destruct (decide (q' = j)) as [-> |]; [done | apply S5; lia]. }
      destruct (arg_loop _ _ _ _ _ _) as [v |].
      * destruct IH as (q & I1 & I2 & I3 & I4). exists q. split_and!; [lia | done | | done].
        intros q' Hq. destruct (decide (q' < S j)%nat); [apply S7; lia | apply I3; lia].
      * intros q Hq. destruct (decide (q < S j)%nat); [apply S7; lia | apply IH; lia].
  - intros q Hq Q. apply param_at_mem in Q as (_ & Q1 & Q2 & _).
    apply (W NZ (data args + Z.of_nat q)); [lia | lia | done].
Qed.

(** The end of a value at its "&". *)
Lemma value_bytes q v rest :
  param_at nm l q -> drop q l = take (S len_) (drop q l) ++ v ++ rest -> chr "&" ∉ v -> (rest = [] \/ head rest = Some (chr "&")) ->
  let value := data args + Z.of_nat q + Z.of_nat len_ + 1 in
  let last := data args + len args in
  str_bytes M (mk_str (match ngx_strlchr M (data args + Z.of_nat q) last (chr "&") with None => last | Some e => e end - value) value) = v.
Proof using Hlen H0 Hamp.
  intros P E Hv R value last0. apply param_at_mem in P as (_ & P1 & P2 & P3).
  assert (bytes_at M value (Z.to_nat (last0 - value)) = v ++ rest) as EV.
  { replace value with (data args + Z.of_nat (q + S len_)) by (unfold value; lia).
    rewrite <- bytes_at_take by (unfold last0, value; lia). rewrite take_ge.
    - rewrite <- drop_drop. rewrite E at 1. rewrite drop_app_length'; [done |]. rewrite length_take, length_drop. unfold l, str_bytes.
      rewrite length_range. lia.
    - unfold l, str_bytes. rewrite length_drop, length_range. unfold last0, value. lia. }
  pose proof (f_equal length EV) as EL. rewrite length_bytes_at, length_app in EL.
  assert (forall i c, (v ++ rest) !! i = Some c -> M (value + Z.of_nat i) = c) as LV.
  { intros i c Hi. rewrite <- EV, bytes_at_lookup in Hi. case_decide; congruence. }
  assert (forall x, data args + Z.of_nat q <= x < value + Z.of_nat (length v) -> M x <> chr "&") as NA.
  { intros x Hx Q. destruct (decide (x < value - 1)) as [L | L]; [| destruct (decide (x = value - 1)) as [L2 | L2]].
    - apply (nocase_amp nm Hamp _ P2), list_elem_of_lookup. exists (Z.to_nat (x - (data args + Z.of_nat q))).
      rewrite bytes_at_lookup, decide_True by (unfold value in *; lia). rewrite <- Q. do 2 f_equal. lia.
    - replace x with (data args + Z.of_nat q + Z.of_nat len_) in Q by (unfold value in *; lia). congruence.
    - destruct (lookup_lt_is_Some_2 v (Z.to_nat (x - value)) ltac:(lia)) as [c Hc].
      pose proof (LV _ _ (lookup_app_l_Some v rest _ _ Hc)) as W. replace (value + Z.of_nat _) with x in W by lia.
      apply Hv, list_elem_of_lookup. exists (Z.to_nat (x - value)). congruence. }
  assert (match ngx_strlchr M (data args + Z.of_nat q) last0 (chr "&") with None => last0 | Some e => e end = value + Z.of_nat (length v)) as ->.
  { pose proof (strlchr_spec M (data args + Z.of_nat q) last0 (chr "&")) as W.
    destruct R as [-> | R].
    - cbn [length] in EL. destruct (ngx_strlchr _ _ _ _) as [e |]; [| unfold last0, value in *; lia].
      destruct W as (W1 & W2 & _). exfalso. apply (NA e); [unfold last0, value in *; lia | done].
    - destruct rest as [| c rest]; [done |]. injection R as ->. cbn [length] in EL.
      assert (M (value + Z.of_nat (length v)) = chr "&") as W3 by (apply LV; by apply list_lookup_middle).
      destruct (ngx_strlchr _ _ _ _) as [e |].
      + destruct W as (W1 & W2 & W4). destruct (Z.lt_trichotomy e (value + Z.of_nat (length v))) as [L | [L | L]]; [| done |].
        * exfalso. apply (NA e); [lia | done].
        * exfalso. apply (W4 (value + Z.of_nat (length v))); [unfold value in *; lia | done].
      + exfalso. apply (W (value + Z.of_nat (length v))); [unfold last0, value in *; lia | done]. }
  unfold str_bytes, range. cbn [Prelude.len Prelude.data].
  replace (Z.to_nat _) with (length v) by lia. pose proof (f_equal (take (length v)) EV) as EV1.
  rewrite take_app_length in EV1. rewrite <- EV1 at 2. rewrite EL.
  rewrite bytes_at_app, take_app_length'; [done | symmetry; apply length_bytes_at].
Qed.

Lemma ngx_http_arg_first v0 :
  match param_value nm (split (chr "&") l), ngx_http_arg M args name len_ v0 with
  | Some v, (rc, value) => rc = NGX_OK /\ str_bytes M value = v
  | None, (rc, value) => rc = NGX_DECLINED /\ value = v0
  end.
Proof using Hlen H0 Hzero Hamp.
  unfold ngx_http_arg. pose proof (param_value_first nm Hamp l) as P.
  destruct (Z.eqb_spec (len args) 0) as [E | E].
  { destruct (param_value _ _); [| done]. destruct P as (q & P & _). apply param_at_mem in P as (_ & P & _). lia. }
  pose proof (arg_loop_first (Z.to_nat (len args)) 0 ltac:(lia)) as A. replace (data args + Z.of_nat 0) with (data args) in A by lia.
  destruct (arg_loop _ _ _ _ _ _) as [value |].
  - destruct A as (q & _ & A1 & A2 & ->). destruct (param_value _ _) as [v |]; [| by apply P in A1].
    destruct P as (q2 & P1 & P2 & rest & P3 & P4 & P5). split; [done |].
    assert (q2 = q) as ->.
    { destruct (Nat.lt_trichotomy q q2) as [L | [L | L]]; [by apply P2 in L | done | exfalso; apply (A2 q2); [lia | done]]. }
    eapply value_bytes; [done | | done | done]. unfold nm in P3. rewrite length_bytes_at in P3. exact P3.
  - destruct (param_value _ _) as [v |]; [| done]. destruct P as (q & P & _). exfalso. apply (A q); [lia | done].
Qed.
End Args.

(** [ngx_http_arg] finds the value of the first of the parameters, the parts
    of [r->args] between "&", whose name is the one asked for but for case and
    that has a value, or declines and leaves [*value] alone when there is
    none. *)
Theorem http_arg_first M args name len_ v0 :
  0 <= len args -> (0 < len_)%nat -> chr "&" ∉ bytes_at M name len_ -> 0 ∉ bytes_at M name len_ ->
  match param_value (bytes_at M name len_) (split (chr "&") (str_bytes M args)), ngx_http_arg M args name len_ v0 with
  | Some v, (rc, value) => rc = NGX_OK /\ str_bytes M value = v
  | None, (rc, value) => rc = NGX_DECLINED /\ value = v0
  end.
Proof. intros Hlen H0 Hamp Hzero. by apply ngx_http_arg_first. Qed.

Lemma http_arg_first_witness :
  let M := fun x => if x <? 200 then mem_of 100 (str "xname=1&na=2&Name=a?b&name=c") x else mem_of 200 (str "name") x in
  param_value (bytes_at M 200 4) (split (chr "&") (str_bytes M (mk_str 28 100))) = Some (str "a?b") /\
  match ngx_http_arg M (mk_str 28 100) 200 4 (mk_str 0 0) with
  | (rc, value) => rc = NGX_OK /\ str_bytes M value = str "a?b"
  end.
Proof.
  intros M. split; [vm_compute; reflexivity |].
  exact (http_arg_first M (mk_str 28 100) 200 4 (mk_str 0 0) ltac:(now vm_compute) ltac:(lia)
    (bool_decide_unpack (chr "&" ∉ bytes_at M 200 4) I) (bool_decide_unpack (0 ∉ bytes_at M 200 4) I)).
Defined.

(** [ngx_http_split_args] cuts at the first question mark. *)
Lemma split_args_path M uri args path rest :
  0 <= len uri -> path_rest (str_bytes M uri) path rest ->
  ngx_http_split_args M uri args =
  if rest is [] then (uri, mk_str 0 (data args))
  else (mk_str (Z.of_nat (length path)) (data uri),
        mk_str (Z.of_nat (length rest) - 1) (data uri + Z.of_nat (length path) + 1)).
Proof.
  intros L0 (E & H & R). unfold ngx_http_split_args. pose proof (f_equal length E) as EL.
  unfold str_bytes in EL. rewrite length_range, length_app in EL.
  assert (forall i, (path ++ rest) !! i = if decide (i < length path + length rest)%nat then Some (M (data uri + Z.of_nat i)) else None) as LK.
  { intros i. rewrite <- E. unfold str_bytes, range. rewrite bytes_at_lookup. repeat case_decide; try done; lia. }
  assert (forall x, data uri <= x < data uri + Z.of_nat (length path) -> M x <> chr "?") as NM.
  { intros x Hx Q. apply H, list_elem_of_lookup. exists (Z.to_nat (x - data uri)). specialize (LK (Z.to_nat (x - data uri))).
    rewrite lookup_app_l, decide_True in LK by lia. rewrite LK, <- Q. do 2 f_equal. lia. }
  pose proof (strlchr_spec M (data uri) (data uri + len uri) (chr "?")) as W.
  destruct (ngx_strlchr _ _ _ _) as [p |].
  - destruct W as (W1 & W2 & W3). destruct rest as [| c rest].
    { exfalso. apply (NM p); [cbn in EL; lia | done]. }
    destruct R as [R | R]; [done |]. injection R as ->. specialize (LK (length path)).
    rewrite list_lookup_middle, decide_True in LK by (cbn; lia). injection LK as LK.
    assert (p = data uri + Z.of_nat (length path)) as ->.
    { destruct (Z.lt_trichotomy p (data uri + Z.of_nat (length path))) as [L | [L | L]]; [| done |].
      - exfalso. apply (NM p); [lia | done].
      - exfalso. apply (W3 (data uri + Z.of_nat (length path))); [lia | done]. }
    cbn [length] in *. do 2 f_equal; lia.
  - destruct rest as [| c rest]; [done |]. destruct R as [R | R]; [done |]. injection R as ->. exfalso.
    specialize (LK (length path)). rewrite list_lookup_middle, decide_True in LK by (cbn; lia). injection LK as LK.
    apply (W (data uri + Z.of_nat (length path))); [cbn in EL; lia | done].
Qed.

Lemma unsafe_uri_safe_witness :
  let M := mem_of 100 (str "/a%2f..b?x=1") in
  let '(rc, M', uri', args') := ngx_http_parse_unsafe_uri M 200 (mk_str 12 100) (mk_str 0 0) in
  let l := str_bytes M' uri' in
  rc = NGX_OK /\ l = str "/a/..b" /\ args' = mk_str 3 109 /\
  forall i, parent_at l i -> chr "%" ∉ str "/a%2f..b" /\ S (S i) = 8%nat /\ str "?x=1" <> [].
Proof.
  intros M.
  assert (path_rest (str_bytes M (mk_str 12 100)) (str "/a%2f..b") (str "?x=1")) as HP.
  { split_and!; [vm_compute; reflexivity | exact (bool_decide_unpack (chr "?" ∉ str "/a%2f..b") I) | right; reflexivity]. }
  assert (fst (fst (fst (ngx_http_parse_unsafe_uri M 200 (mk_str 12 100) (mk_str 0 0)))) = NGX_OK) as R by (vm_compute; reflexivity).
  pose proof (unsafe_uri_safe M 200 (mk_str 12 100) (mk_str 0 0) _ _
    (Zle_bool_imp_le 0 12 eq_refl) HP (or_introl (Zle_bool_imp_le 112 200 eq_refl))) as H.
  destruct (ngx_http_parse_unsafe_uri _ _ _ _) as [[[rc M'] uri'] args']. cbn [fst] in R. subst rc.
  destruct H as (_ & _ & H). destruct (H eq_refl) as (_ & H1 & H2 & H3).
  split_and!; [reflexivity | rewrite H1; vm_compute; reflexivity | rewrite H2; reflexivity |].
  intros i Hi. destruct (H3 i Hi) as (E & G). split; [apply bool_decide_eq_false in E; exact E | exact G].
Defined.

(** A ".." just before the arguments is not seen. *)
Example unsafe_uri_parent_before_args :
  let M := mem_of 100 (str "/a/..?x") in
  ngx_http_parse_unsafe_uri M 200 (mk_str 7 100) (mk_str 0 0) = (NGX_OK, M, mk_str 5 100, mk_str 1 106) /\
  ngx_http_parse_unsafe_uri M 200 (mk_str 5 100) (mk_str 0 0) = (NGX_ERROR, M, mk_str 5 100, mk_str 0 0).
Proof. split; reflexivity. Qed.
