(* ===== verification/Sm2Bn.v ===== *)
(** The 256-bit integers of SM2 (src/sm2_alg.c of GmSSL): [SM2_BN] is an array
    of eight 64-bit words of 32 bits each, least significant first.  Copies
    ([sm2_bn_copy]) and the clearing of temporaries are not visible in a
    functional model. *)
From S2P Require Import Prelude.
From S2P Require Export GmWord.
From stdpp Require Import base list option.
Export Word.
#[global] Open Scope Z_scope.

(** The base of the words. *)
Abbreviation W := 4294967296.

(** [x & 0xffffffff] *)
Definition mask32 (x : Z) : Z := Z.land x 0xffffffff.

(** [typedef uint64_t SM2_BN[8]] *)
Abbreviation SM2_BN := (list Z).

Definition SM2_P : SM2_BN :=
  [0xffffffff; 0xffffffff; 0x00000000; 0xffffffff; 0xffffffff; 0xffffffff; 0xffffffff; 0xfffffffe].
Definition SM2_B : SM2_BN :=
  [0x4d940e93; 0xddbcbd41; 0x15ab8f92; 0xf39789f5; 0xcf6509a7; 0x4d5a9e4b; 0x9d9f5e34; 0x28e9fa9e].
Definition SM2_N : SM2_BN :=
  [0x39d54123; 0x53bbf409; 0x21c6052b; 0x7203df6b; 0xffffffff; 0xffffffff; 0xffffffff; 0xfffffffe].
Definition SM2_U_PLUS_ONE : SM2_BN :=
  [0x00000000; 0x40000000; 0xc0000000; 0xffffffff; 0xffffffff; 0xffffffff; 0xbfffffff; 0x3fffffff].
Definition SM2_ONE : SM2_BN := [1; 0; 0; 0; 0; 0; 0; 0].
Definition SM2_TWO : SM2_BN := [2; 0; 0; 0; 0; 0; 0; 0].
Definition SM2_THREE : SM2_BN := [3; 0; 0; 0; 0; 0; 0; 0].

(** [1] or [-1] *)
Definition sm2_bn_check (a : SM2_BN) : Z := if List.existsb (fun w => 0xffffffff <? w) a then -1 else 1.

Definition sm2_bn_is_zero (a : SM2_BN) : bool := List.forallb (fun w => w =? 0) a.

Definition sm2_bn_is_one (a : SM2_BN) : bool :=
  match a with
  | a0 :: rest => (a0 =? 1) && List.forallb (fun w => w =? 0) rest
  | [] => false
  end.

Definition sm2_bn_is_odd (a : SM2_BN) : bool := negb (Z.land (nthb a 0) 1 =? 0).

Definition sm2_bn_set_word (a : Z) : SM2_BN := [a; 0; 0; 0; 0; 0; 0; 0].

(** ** Bytes, hexadecimal digits and bits *)

Definition sm2_bn_to_bytes (a : SM2_BN) : list Z := List.flat_map (fun w => PUTU32 (w mod W)) (List.rev a).

Definition sm2_bn_from_bytes (in_ : list Z) : SM2_BN :=
  List.rev (List.map (fun i => GETU32 in_ (4 * i)) (List.seq 0 8)).

Definition hexchar2int (c : Z) : Z :=
  if (chr "0" <=? c) && (c <=? chr "9") then c - chr "0"
  else if (chr "a" <=? c) && (c <=? chr "f") then c - chr "a" + 10
  else if (chr "A" <=? c) && (c <=? chr "F") then c - chr "A" + 10
  else -1.

(** [None] is [-1]. *)
Fixpoint hex2bin_loop (in_ : list Z) : option (list Z) :=
  match in_ with
  | [] => Some []
  | h :: l :: in_ =>
      let h := hexchar2int h in
      if h <? 0 then None else
      let l := hexchar2int l in
      if l <? 0 then None else
      option_map (cons (Z.lor (Z.shiftl h 4 mod 256) l)) (hex2bin_loop in_)
  | [_] => None
  end.

Definition hex2bin (in_ : list Z) : option (list Z) :=
  if (length in_ mod 2 =? 0)%nat then hex2bin_loop in_ else None.

(** A digit of ["%08x"]. *)
Definition hex_digit_char (d : Z) : Z := if d <? 10 then chr "0" + d else chr "a" + (d - 10).

Definition sprintf_08x (w : Z) : list Z :=
  List.map (fun i => hex_digit_char (Z.land (Z.shiftr w (4 * i)) 15)) [7; 6; 5; 4; 3; 2; 1; 0].

Definition sm2_bn_to_hex (a : SM2_BN) : list Z := List.flat_map (fun w => sprintf_08x (w mod W)) (List.rev a).

Definition sm2_bn_from_hex (hex : list Z) : option SM2_BN := option_map sm2_bn_from_bytes (hex2bin hex).

Definition sm2_bn_equ_hex (a : SM2_BN) (hex : list Z) : bool := bool_decide (sm2_bn_to_hex a = hex).

(** [None] is [-1]. *)
Definition sm2_bn_from_asn1_integer (d : list Z) : option SM2_BN :=
  if (length d =? 0)%nat then None
  else if (32 <? length d)%nat then None
  else Some (sm2_bn_from_bytes (repeat 0 (32 - length d) ++ d)).

(** The bits of a word, most significant first: the inner loop. *)
Fixpoint bits_of_word (n : nat) (w : Z) : list bool :=
  match n with
  | O => []
  | S n' => negb (Z.land w 0x80000000 =? 0) :: bits_of_word n' (u64 (Z.shiftl w 1))
  end.

Definition sm2_bn_to_bits (a : SM2_BN) : list bool := List.flat_map (bits_of_word 32) (List.rev a).

(** ** Arithmetic *)

(** From the most significant word on. *)
Fixpoint cmp_words (a b : list Z) : Z :=
  match a, b with
  | x :: a, y :: b => if y <? x then 1 else if x <? y then -1 else cmp_words a b
  | _, _ => 0
  end.

Definition sm2_bn_cmp (a b : SM2_BN) : Z := cmp_words (List.rev a) (List.rev b).

(** [prev] is [r[i - 1]], before it is masked. *)
Fixpoint add_rest (prev : Z) (a b : list Z) : list Z :=
  match a, b with
  | x :: a, y :: b => mask32 prev :: add_rest (u64 (x + y + Z.shiftr prev 32)) a b
  | _, _ => [prev]
  end.

Definition sm2_bn_add (a b : SM2_BN) : SM2_BN :=
  match a, b with
  | x :: a, y :: b => add_rest (u64 (x + y)) a b
  | _, _ => []
  end.

(** The last word has no [0xffffffff]: the carry of the words before is taken
    back. *)
Fixpoint sub_rest (prev : Z) (a b : list Z) : list Z :=
  match a, b with
  | [x], [y] => [mask32 prev; u64 (x - y + Z.shiftr prev 32 - 1)]
  | x :: a, y :: b => mask32 prev :: sub_rest (u64 (0xffffffff + x - y + Z.shiftr prev 32)) a b
  | _, _ => [prev]
  end.

Definition sm2_bn_sub (a b : SM2_BN) : SM2_BN :=
  match a, b with
  | x :: a, y :: b => sub_rest (u64 (Z.shiftl 1 32 + x - y)) a b
  | _, _ => []
  end.

(** The words above each word are [a[i + 1]]. *)
Fixpoint shift_words (nbits : Z) (a : list Z) : list Z :=
  match a with
  | [] => []
  | [x] => [Z.shiftr x nbits]
  | x :: (y :: _) as rest =>
      Z.lor (Z.shiftr x nbits) (Z.land (u64 (Z.shiftl y (32 - nbits))) 0xffffffff) :: shift_words nbits rest
  end.

Definition sm2_bn_rshift (a : SM2_BN) (nbits : Z) : option SM2_BN :=
  if 31 <? nbits then None else Some (shift_words nbits a).

(** [bufs] are the answers of [rand_bytes], [None] a failure. *)
Fixpoint sm2_bn_rand_range (bufs : list (option (list Z))) (range : SM2_BN) : option SM2_BN :=
  match bufs with
  | Some buf :: bufs =>
      let r := sm2_bn_from_bytes buf in
      if 0 <=? sm2_bn_cmp r range then sm2_bn_rand_range bufs range else Some r
  | _ => None
  end.

(** ** Products *)

(** A row of the product: [s[i + j] + a[i] * b[j] + u] for all [j]; the words
    and the last [u]. *)
Fixpoint mul_row (ai : Z) (b s : list Z) (u : Z) : list Z * Z :=
  match b, s with
  | bj :: b, sj :: s =>
      let u := u64 (sj + u64 (ai * bj) + u) in
      let '(row, last) := mul_row ai b s (Z.shiftr u 32) in
      (mask32 u :: row, last)
  | _, _ => ([], u)
  end.

(** [s] are the words from [i] on that the next row adds to; the first word of
    the row is not touched again. *)
Fixpoint mul_rows (a b s : list Z) : list Z :=
  match a with
  | [] => s
  | ai :: a =>
      let '(row, u) := mul_row ai b s 0 in
      match row ++ [u] with
      | w :: rest => w :: mul_rows a b rest
      | [] => []
      end
  end.

Definition mul_words (a b : list Z) : list Z := mul_rows a b (repeat 0 (length b)).

(** The carries of a sum that was made word by word; [prev] as above. *)
Fixpoint carry_rest (prev : Z) (r : list Z) : list Z :=
  match r with
  | x :: r => mask32 prev :: carry_rest (u64 (x + Z.shiftr prev 32)) r
  | [] => [prev]
  end.

Definition carry_words (r : list Z) : list Z := match r with x :: r => carry_rest x r | [] => [] end.

(** [while (sm2_bn_cmp(r, m) >= 0) sm2_bn_sub(r, r, m)] *)
Fixpoint reduce_loop (fuel : nat) (m r : SM2_BN) : SM2_BN :=
  match fuel with
  | O => r
  | S fuel' => if 0 <=? sm2_bn_cmp r m then reduce_loop fuel' m (sm2_bn_sub r m) else r
  end.

Section Exp.
Context (sqr : SM2_BN -> SM2_BN) (mul : SM2_BN -> SM2_BN -> SM2_BN).

(** The loop over the bits of a word [w] of the exponent. *)
Fixpoint exp_word (n : nat) (a t : SM2_BN) (w : Z) : SM2_BN :=
  match n with
  | O => t
  | S n' =>
      let t := sqr t in
      let t := if negb (Z.land w 0x80000000 =? 0) then mul t a else t in
      exp_word n' a t (Z.shiftl w 1 mod W)
  end.

Definition exp_words (a e : SM2_BN) : SM2_BN :=
  List.fold_left (fun t w => exp_word 32 a t (w mod W)) (List.rev e) SM2_ONE.
End Exp.

(** ** The numbers *)

Fixpoint val (a : list Z) : Z :=
  match a with
  | [] => 0
  | w :: a => w + W * val a
  end.

Abbreviation words := (Forall u32).

(** All the words but the last are of 32 bits; the last is below [top]. *)
Fixpoint wide (top : Z) (a : list Z) : Prop :=
  match a with
  | [] => False
  | [t] => 0 <= t < top
  | w :: a => u32 w /\ wide top a
  end.

(** An integer of 256 bits. *)
Record bn (a : SM2_BN) : Prop := { bn_length : length a = 8%nat; bn_words : words a }.

(** Reduced modulo [m]. *)
Record below (m : Z) (a : SM2_BN) : Prop := { below_bn : bn a; below_lt : val a < m }.

Lemma mask32_mod x : mask32 x = x mod W.
Proof. unfold mask32. change 0xffffffff with (Z.ones 32). now rewrite Z.land_ones by lia. Qed.

Lemma shiftr32 x : Z.shiftr x 32 = x / W.
Proof. now rewrite Z.shiftr_div_pow2 by lia. Qed.

Lemma u64_id x : 0 <= x < 2 ^ 64 -> u64 x = x.
Proof. intros. unfold u64. now apply Z.mod_small. Qed.

Lemma mask_u32 x : u32 (mask32 x).
Proof. rewrite mask32_mod. unfold u32. change (2 ^ 32) with W. now apply Z.mod_pos_bound. Qed.

Lemma split32 x : mask32 x + W * (x / W) = x.
Proof. rewrite mask32_mod. pose proof (Z.div_mod x W ltac:(lia)). lia. Qed.

Lemma div32_range x n : 0 <= x < n * W -> 0 <= x / W < n.
Proof. intros H. split; [apply Z.div_pos; lia | apply Z.div_lt_upper_bound; lia]. Qed.

Lemma val_range a : words a -> 0 <= val a < W ^ Z.of_nat (length a).
Proof.
  induction 1 as [| w a Hw Ha IH]; cbn [val length]; [done |]. unfold u32 in Hw. change (2 ^ 32) with W in Hw.
  rewrite Nat2Z.inj_succ, Z.pow_succ_r by lia. nia.
Qed.

Lemma val_app a b : val (a ++ b) = val a + W ^ Z.of_nat (length a) * val b.
Proof.
  induction a as [| w a IH]; cbn [val length app]; [change (W ^ Z.of_nat 0) with 1; lia |].
  rewrite Nat2Z.inj_succ, Z.pow_succ_r, IH by lia. ring.
Qed.

Lemma val_inj a b : words a -> words b -> length a = length b -> val a = val b -> a = b.
Proof.
  intros Ha. revert b. induction Ha as [| x a Hx Ha IH]; intros [| y b] Hb L E; try done.
  apply Forall_cons_1 in Hb as [Hy Hb]. cbn [val length] in *. unfold u32 in *. change (2 ^ 32) with W in *.
  assert (x = y) as <- by lia. f_equal. apply IH; [done | lia | lia].
Qed.

Lemma wide_words a : words a -> a <> [] -> wide W a.
Proof.
  induction 1 as [| w a Hw Ha IH]; [done |]. intros _. destruct a; [exact Hw | split; [done | by apply IH]].
Qed.

Lemma wide_weaken t t' a : t <= t' -> wide t a -> wide t' a.
Proof.
  intros L. induction a as [| w [| w' a] IH]; cbn; [done | lia |]. intros [H1 H2]. split; [done | by apply IH].
Qed.

Lemma words_wide a : wide W a -> words a.
Proof.
  induction a as [| w a IH]; [done |]. destruct a as [| w' a].
  - intros H. apply Forall_singleton. exact H.
  - intros [H1 H2]. apply Forall_cons; [done | by apply IH].
Qed.

Lemma wide_nonneg t a : wide t a -> 0 <= val a.
Proof.
  induction a as [| w [| w' a] IH]; [done | cbn; lia |]. intros [H1 H2]. specialize (IH H2).
  change (val (w :: w' :: a)) with (w + W * val (w' :: a)). unfold u32 in H1. lia.
Qed.

Lemma wide_cons t w a : a <> [] -> wide t (w :: a) <-> u32 w /\ wide t a.
Proof. by destruct a. Qed.

(** A number whose value fits has 32 bits in its last word too. *)
Lemma wide_small t a : wide t a -> val a < W ^ Z.of_nat (length a) -> words a.
Proof.
  induction a as [| w a IH]; [done |]. destruct a as [| w' a].
  - intros H1 H2. cbn in H1, H2. apply Forall_singleton. unfold u32. change (2 ^ 32) with W. lia.
  - intros [H1 H2] H3. apply Forall_cons; [done |]. apply IH; [done |].
    change (val (w :: w' :: a)) with (w + W * val (w' :: a)) in H3.
    cbn [length] in *. rewrite Nat2Z.inj_succ, Z.pow_succ_r in H3 by lia. unfold u32 in H1.
    set (v := val (w' :: a)) in *. set (P := W ^ Z.of_nat (S (length a))) in *. lia.
Qed.

Lemma is_zero_spec a : words a -> sm2_bn_is_zero a = (val a =? 0).
Proof.
  induction 1 as [| w a Hw Ha IH]; [done |]. unfold sm2_bn_is_zero in *. cbn [List.forallb val]. rewrite IH.
  pose proof (val_range a Ha). unfold u32 in Hw. destruct (Z.eqb_spec w 0), (Z.eqb_spec (val a) 0); cbn [andb]; lia.
Qed.

Lemma bn_check a : length a = 8%nat -> List.forallb (fun w => (0 <=? w) && (w <? W)) a = true -> bn a.
Proof.
  intros L H. split; [done |]. apply List.Forall_forall. intros w Hw. rewrite List.forallb_forall in H. specialize (H w Hw).
  unfold u32. change (2 ^ 32) with W. lia.
Qed.

(** *** Comparison *)

Lemma cmp_words_snoc a b x y : length a = length b ->
  cmp_words (List.rev (a ++ [x])) (List.rev (b ++ [y])) =
  if y <? x then 1 else if x <? y then -1 else cmp_words (List.rev a) (List.rev b).
Proof. intros L. by rewrite !List.rev_app_distr. Qed.

Lemma cmp_rev a b : words a -> words b -> length a = length b ->
  cmp_words (List.rev a) (List.rev b) = Z.sgn (val a - val b).
Proof.
  revert b. induction a as [| x a IH] using rev_ind; intros b Ha Hb L.
  { destruct b; [done | cbn in L; lia]. }
  destruct b as [| y b _] using rev_ind; [rewrite length_app in L; cbn in L; lia |].
  rewrite !length_app in L. cbn in L. apply Forall_app in Ha as [Ha Hx]. apply Forall_app in Hb as [Hb Hy].
  rewrite cmp_words_snoc, IH by (done || lia). rewrite !val_app. cbn [val].
  pose proof (val_range a Ha) as Ra. pose proof (val_range b Hb) as Rb.
  replace (length b) with (length a) in * by lia. set (P := W ^ Z.of_nat (length a)) in *.
  destruct (Z.ltb_spec y x); [symmetry; apply Z.sgn_pos; nia |].
  destruct (Z.ltb_spec x y); [symmetry; apply Z.sgn_neg; nia |]. assert (x = y) as <- by lia. f_equal. lia.
Qed.

(** Also when the last words are larger. *)
Lemma wide_snoc t a : wide t a -> exists l x, a = l ++ [x] /\ words l /\ 0 <= x < t.
Proof.
  induction a as [| w a IH]; [done |]. destruct a as [| w' a]; [intros H; exists [], w; split_and!; [done | by apply Forall_nil | apply H..] |].
  intros [H1 H2]. destruct (IH H2) as (l & x & E & Hl & Hx). rewrite E. exists (w :: l), x. split_and!; [done | by apply Forall_cons | lia..].
Qed.

Lemma cmp_wide t t' a b : wide t a -> wide t' b -> length a = length b -> sm2_bn_cmp a b = Z.sgn (val a - val b).
Proof.
  intros Ha Hb L. apply wide_snoc in Ha as (la & x & -> & Ha & Hx). apply wide_snoc in Hb as (lb & y & -> & Hb & Hy).
  rewrite !length_app in L. cbn in L. unfold sm2_bn_cmp. rewrite cmp_words_snoc, cmp_rev by (done || lia).
  rewrite !val_app. cbn [val]. pose proof (val_range la Ha) as Ra. pose proof (val_range lb Hb) as Rb.
  replace (length lb) with (length la) in * by lia. set (P := W ^ Z.of_nat (length la)) in *.
  destruct (Z.ltb_spec y x); [symmetry; apply Z.sgn_pos; nia |].
  destruct (Z.ltb_spec x y); [symmetry; apply Z.sgn_neg; nia |]. assert (x = y) as <- by lia. f_equal. lia.
Qed.

(** *** Addition and subtraction *)

Lemma add_rest_spec a b prev n :
  words a -> words b -> length a = length b -> 0 <= prev < n * W -> 2 <= n <= W ->
  wide (n * W) (add_rest prev a b) /\ length (add_rest prev a b) = S (length a) /\
  val (add_rest prev a b) = prev + W * (val a + val b).
Proof.
  intros Ha. revert b prev n. induction Ha as [| x a Hx Ha IH]; intros [| y b] prev n Hb L Hp Hn; try (cbn in L; lia).
  { split_and!; [exact Hp | done | cbn [add_rest val]; lia]. }
  apply Forall_cons_1 in Hb as [Hy Hb]. cbn in L. cbn [add_rest val length]. rewrite shiftr32.
  pose proof (div32_range prev n Hp). unfold u32 in Hx, Hy. change (2 ^ 32) with W in *.
  rewrite u64_id by lia.
  assert (0 <= x + y + prev / W < n * W) as Hq. { destruct (decide (n = 2)); [subst n; lia |]. nia. }
  destruct (IH b (x + y + prev / W) n Hb ltac:(lia) Hq Hn) as (I1 & I2 & I3).
  rewrite I2, I3. split_and!; [apply wide_cons; [by intros E; rewrite E in I2 | split; [apply mask_u32 | done]] | lia |].
  pose proof (split32 prev). lia.
Qed.

Lemma bn_add_spec a b :
  bn a -> bn b -> wide (2 * W) (sm2_bn_add a b) /\ length (sm2_bn_add a b) = 8%nat /\ val (sm2_bn_add a b) = val a + val b.
Proof.
  intros [La Ha] [Lb Hb]. destruct a as [| x a], b as [| y b]; try (cbn in *; lia). cbn [length] in *.
  apply Forall_cons_1 in Ha as [Hx Ha]. apply Forall_cons_1 in Hb as [Hy Hb]. cbn [sm2_bn_add val].
  unfold u32 in Hx, Hy. change (2 ^ 32) with W in *. rewrite u64_id by lia.
  destruct (add_rest_spec a b (x + y) 2 Ha Hb ltac:(lia) ltac:(lia) ltac:(lia)) as (H1 & H2 & H3).
  split_and!; [done | lia | lia].
Qed.

(** The difference with its last word not yet reduced to 64 bits. *)
Lemma sub_rest_spec t a b prev :
  wide t a -> words b -> length a = length b -> 0 <= prev < 2 * W -> W <= t <= 2 ^ 63 ->
  exists low d, sub_rest prev a b = low ++ [u64 d] /\ words low /\ length low = length a /\ - W - 1 <= d < t /\
    val low + W ^ Z.of_nat (length low) * d = prev - W + W * (val a - val b).
Proof.
  revert b prev. induction a as [| x a IH]; intros [| y b] prev Ha Hb L Hp Ht; try done; try (cbn in L; lia). cbn [length] in L.
  apply Forall_cons_1 in Hb as [Hy Hb]. unfold u32 in Hy. change (2 ^ 32) with W in *.
  pose proof (div32_range prev 2 Hp). pose proof (split32 prev).
  destruct a as [| x' a], b as [| y' b]; try done.
  - cbn in Ha. cbn [sub_rest]. rewrite shiftr32. exists [mask32 prev], (x - y + prev / W - 1).
    split_and!; [done | apply Forall_singleton, mask_u32 | done | lia | lia |].
    cbn [val length]. change (W ^ Z.of_nat 1) with W. lia.
  - destruct Ha as [Hx Ha]. unfold u32 in Hx. change (2 ^ 32) with W in *.
    change (sub_rest prev (x :: x' :: a) (y :: y' :: b)) with
      (mask32 prev :: sub_rest (u64 (0xffffffff + x - y + Z.shiftr prev 32)) (x' :: a) (y' :: b)).
    rewrite shiftr32, u64_id by lia.
    destruct (IH (y' :: b) (0xffffffff + x - y + prev / W) Ha Hb ltac:(lia) ltac:(lia) Ht) as (low & d & E & H1 & H2 & H3 & H4).
    exists (mask32 prev :: low), d. rewrite E. split_and!; [done | apply Forall_cons; [apply mask_u32 | done] | cbn [length] in *; lia | lia | lia |].
    cbn [length]. rewrite Nat2Z.inj_succ, Z.pow_succ_r by lia.
    change (val (mask32 prev :: low)) with (mask32 prev + W * val low).
    change (val (x :: x' :: a)) with (x + W * val (x' :: a)). change (val (y :: y' :: b)) with (y + W * val (y' :: b)).
    set (va := val (x' :: a)) in *. set (vb := val (y' :: b)) in *. set (P := W ^ Z.of_nat (length low)) in *.
    replace (W * P * d) with (W * (P * d)) by ring. lia.
Qed.

Lemma sub_words_spec t a b :
  wide t a -> words b -> length a = length b -> (2 <= length a)%nat -> W <= t <= 2 ^ 63 ->
  exists low d, sm2_bn_sub a b = low ++ [u64 d] /\ words low /\ length a = S (length low) /\ - W - 1 <= d < t /\
    val low + W ^ Z.of_nat (length low) * d = val a - val b.
Proof.
  intros Ha Hb L L2 Ht. destruct a as [| x [| x' a]], b as [| y [| y' b]]; try (cbn [length] in *; lia).
  destruct Ha as [Hx Ha]. apply Forall_cons_1 in Hb as [Hy Hb]. unfold u32 in Hx, Hy. change (2 ^ 32) with W in *.
  change (sm2_bn_sub (x :: x' :: a) (y :: y' :: b)) with (sub_rest (u64 (W + x - y)) (x' :: a) (y' :: b)).
  rewrite u64_id by lia. cbn [length] in *.
  destruct (sub_rest_spec t (x' :: a) (y' :: b) (W + x - y) Ha Hb ltac:(cbn [length]; lia) ltac:(lia) Ht) as (low & d & E & H1 & H2 & H3 & H4).
  exists low, d. cbn [length] in *. split_and!; [done | done | lia | lia | lia |]. rewrite H4.
  change (val (x :: x' :: a)) with (x + W * val (x' :: a)). change (val (y :: y' :: b)) with (y + W * val (y' :: b)). lia.
Qed.

Lemma wide_app_snoc t l x : words l -> 0 <= x < t -> wide t (l ++ [x]).
Proof.
  induction 1 as [| w l Hw Hl IH]; intros Hx; [done |]. cbn [app]. apply wide_cons; [by destruct l |]. split; [done | by apply IH].
Qed.

(** What is taken away is not more than what there is. *)
Lemma bn_sub_spec t a b :
  wide t a -> words b -> length a = 8%nat -> length b = 8%nat -> W <= t <= 2 ^ 63 -> val b <= val a ->
  wide t (sm2_bn_sub a b) /\ length (sm2_bn_sub a b) = 8%nat /\ val (sm2_bn_sub a b) = val a - val b.
Proof.
  intros Ha Hb La Lb Ht Hv. destruct (sub_words_spec t a b Ha Hb ltac:(lia) ltac:(lia) Ht) as (low & d & -> & H1 & H2 & H3 & H4).
  assert (length low = 7%nat) as L by lia. rewrite L in H4. pose proof (val_range low H1) as R. rewrite L in R.
  change (Z.of_nat 7) with 7 in *.
  assert (0 <= d) by nia. rewrite u64_id by lia. split_and!.
  - apply wide_app_snoc; [done | lia].
  - rewrite length_app, L. done.
  - rewrite val_app, L. cbn [val]. change (Z.of_nat 7) with 7. lia.
Qed.

Lemma wide_below t m r : wide t r -> length r = 8%nat -> val r < m -> m <= W ^ 8 -> below m r.
Proof.
  intros H1 H2 H3 H4. split; [| done]. split; [done |]. eapply wide_small; [done |]. rewrite H2. change (Z.of_nat 8) with 8. lia.
Qed.

(** The loop ends with the remainder, after as many turns as the modulus goes
    into the number. *)
Lemma reduce_loop_spec fuel t m r :
  wide t r -> length r = 8%nat -> W <= t <= 2 ^ 63 -> bn m -> 0 < val m -> val r < Z.of_nat (S fuel) * val m ->
  below (val m) (reduce_loop fuel m r) /\ val (reduce_loop fuel m r) = val r mod val m.
Proof.
  intros Hr Lr Ht [Lm Hm] Hm0. pose proof (val_range m Hm) as Rm. rewrite Lm in Rm. change (Z.of_nat 8) with 8 in Rm.
  revert r Hr Lr. induction fuel as [| fuel IH]; intros r Hr Lr Hv; cbn [reduce_loop].
  - pose proof (wide_nonneg t r Hr). rewrite Z.mod_small by lia. split; [| done]. apply (wide_below t); [done | done | lia | lia].
  - assert (sm2_bn_cmp r m = Z.sgn (val r - val m)) as ->.
    { apply (cmp_wide t W); [done | | lia]. apply wide_words; [done |]. by intros ->. }
    destruct (Z.leb_spec 0 (Z.sgn (val r - val m))) as [L | L].
    + destruct (bn_sub_spec t r m Hr Hm Lr Lm Ht ltac:(lia)) as (S1 & S2 & S3).
      destruct (IH _ S1 S2) as [I1 I2]; [rewrite S3; lia |]. split; [done |]. rewrite I2, S3.
      rewrite <- (Z_mod_plus_full (val r - val m) 1 (val m)). f_equal. lia.
    + pose proof (wide_nonneg t r Hr). rewrite Z.mod_small by lia. split; [| done]. apply (wide_below t); [done | done | lia | lia].
Qed.

(** *** Products *)

Lemma mul_row_spec ai b s u :
  u32 ai -> words b -> words s -> length b = length s -> u32 u ->
  let '(row, last) := mul_row ai b s u in
  words row /\ length row = length b /\ u32 last /\
  val row + W ^ Z.of_nat (length b) * last = val s + ai * val b + u.
Proof.
  intros Ha Hb. revert s u. induction Hb as [| bj b Hbj Hb IH]; intros [| sj s] u Hs L Hu; try (cbn in L; lia).
  { cbn [mul_row val length]. split_and!; [by apply Forall_nil | done | done | change (W ^ Z.of_nat 0) with 1; lia]. }
  apply Forall_cons_1 in Hs as [Hsj Hs]. cbn [length mul_row] in *. unfold u32 in *. change (2 ^ 32) with W in *.
  rewrite (u64_id (ai * bj)) by nia. rewrite u64_id by nia. rewrite shiftr32.
  assert (0 <= sj + ai * bj + u < W * W) as Hr by nia.
  pose proof (div32_range (sj + ai * bj + u) W Hr) as Hd.
  specialize (IH s ((sj + ai * bj + u) / W) Hs ltac:(lia) Hd). destruct (mul_row ai b s _) as [row last].
  destruct IH as (I1 & I2 & I3 & I4). cbn [val length].
  split_and!; [apply Forall_cons; [apply mask_u32 | done] | lia | lia | lia |].
  rewrite Nat2Z.inj_succ, Z.pow_succ_r by lia. pose proof (split32 (sj + ai * bj + u)).
  replace (W * W ^ Z.of_nat (length b) * last) with (W * (W ^ Z.of_nat (length b) * last)) by ring. lia.
Qed.

Lemma mul_rows_spec a b s :
  words a -> words b -> words s -> length s = length b -> b <> [] ->
  words (mul_rows a b s) /\ length (mul_rows a b s) = (length a + length b)%nat /\
  val (mul_rows a b s) = val s + val a * val b.
Proof.
  intros Ha. revert s. induction Ha as [| ai a Hai Ha IH]; intros s Hb Hs L N; cbn [mul_rows].
  { split_and!; [done | cbn [length]; lia | cbn [val]; lia]. }
  pose proof (mul_row_spec ai b s 0 Hai Hb Hs ltac:(lia) ltac:(done)) as H. destruct (mul_row ai b s 0) as [row u].
  destruct H as (H1 & H2 & H3 & H4). assert (words (row ++ [u])) as Hw by (apply Forall_app; split; [done | by apply Forall_singleton]).
  assert (val (row ++ [u]) = val s + ai * val b) as Hv by (rewrite val_app, H2; cbn [val]; lia).
  assert (length (row ++ [u]) = S (length b)) as Hl by (rewrite length_app; cbn; lia).
  destruct (row ++ [u]) as [| w rest]; [done |]. apply Forall_cons_1 in Hw as [Hw Hrest]. cbn [length val] in Hl, Hv.
  destruct (IH rest Hb Hrest ltac:(lia) N) as (I1 & I2 & I3). cbn [length val].
  split_and!; [by apply Forall_cons | lia |]. rewrite I3. nia.
Qed.

Lemma val_zeros n : val (repeat 0 n) = 0.
Proof. induction n as [| n IH]; cbn [repeat val]; [done | lia]. Qed.

Lemma words_zeros n : words (repeat 0 n).
Proof. induction n; [by apply Forall_nil | by apply Forall_cons]. Qed.

Lemma mul_words_spec a b :
  words a -> words b -> b <> [] ->
  words (mul_words a b) /\ length (mul_words a b) = (length a + length b)%nat /\ val (mul_words a b) = val a * val b.
Proof.
  intros Ha Hb N. destruct (mul_rows_spec a b (repeat 0 (length b)) Ha Hb (words_zeros _) (repeat_length _ _) N) as (H1 & H2 & H3).
  rewrite val_zeros in H3. done.
Qed.

Lemma carry_rest_spec r prev n :
  Forall (fun w => 0 <= w < n * W) r -> 0 <= prev < 2 * n * W -> 1 <= n <= 1000 ->
  wide (2 * n * W) (carry_rest prev r) /\ length (carry_rest prev r) = S (length r) /\
  val (carry_rest prev r) = prev + W * val r.
Proof.
  intros Hr. revert prev. induction Hr as [| x r Hx Hr IH]; intros prev Hp Hn; [split_and!; [exact Hp | done | cbn [carry_rest val]; lia] |].
  cbn [carry_rest val length]. rewrite shiftr32. pose proof (div32_range prev (2 * n) Hp). rewrite u64_id by lia.
  destruct (IH (x + prev / W) ltac:(lia) Hn) as (I1 & I2 & I3). rewrite I2, I3.
  split_and!; [apply wide_cons; [by intros E; rewrite E in I2 | split; [apply mask_u32 | done]] | lia |].
  pose proof (split32 prev). lia.
Qed.

Lemma carry_words_spec r n :
  Forall (fun w => 0 <= w < n * W) r -> r <> [] -> 1 <= n <= 1000 ->
  wide (2 * n * W) (carry_words r) /\ length (carry_words r) = length r /\ val (carry_words r) = val r.
Proof.
  intros Hr N Hn. destruct r as [| x r]; [done |]. apply Forall_cons_1 in Hr as [Hx Hr].
  destruct (carry_rest_spec r x n Hr ltac:(lia) Hn) as (H1 & H2 & H3). done.
Qed.

(** *** Bytes and bits *)

Lemma horner_app base a b : horner base (a ++ b) = horner base a * base ^ Z.of_nat (length b) + horner base b.
Proof. unfold horner. rewrite List.fold_left_app, horner_acc. done. Qed.

Lemma from_bytes_aux n in_ :
  Forall byte in_ -> length in_ = (4 * n)%nat ->
  words (List.map (fun i => GETU32 in_ (4 * i)) (List.seq 0 n)) /\
  val (List.rev (List.map (fun i => GETU32 in_ (4 * i)) (List.seq 0 n))) = horner 256 in_.
Proof.
  revert in_. induction n as [| n IH]; intros in_ H L.
  { destruct in_; [split; [by apply Forall_nil | done] | cbn in L; lia]. }
  destruct in_ as [| a [| b [| c [| d rest]]]]; try (cbn in L; lia).
  apply Forall_cons_1 in H as [Ha H]. apply Forall_cons_1 in H as [Hb H]. apply Forall_cons_1 in H as [Hc H]. apply Forall_cons_1 in H as [Hd H].
  cbn [length] in L. destruct (IH rest H ltac:(lia)) as [I1 I2].
  assert (List.map (fun i => GETU32 (a :: b :: c :: d :: rest) (4 * i)) (List.seq 0 (S n)) =
    be32 a b c d :: List.map (fun i => GETU32 rest (4 * i)) (List.seq 0 n)) as ->.
  { cbn [List.seq List.map]. f_equal. rewrite <- List.seq_shift, List.map_map. apply List.map_ext. intros i.
    replace (4 * S i)%nat with (S (S (S (S (4 * i))))) by lia. done. }
  split; [apply Forall_cons; [by apply be32_range | done] |]. cbn [List.rev]. rewrite val_app, I2, List.length_rev, List.length_map, List.length_seq.
  cbn [val]. rewrite be32_value by done. change (a :: b :: c :: d :: rest) with ([a; b; c; d] ++ rest). rewrite horner_app.
  replace (Z.of_nat (length rest)) with (4 * Z.of_nat n) by lia. rewrite (Z.pow_mul_r 256 4) by lia.
  change (256 ^ 4) with W. unfold horner at 2. cbn [List.fold_left]. ring.
Qed.

Lemma from_bytes_spec in_ :
  Forall byte in_ -> length in_ = 32%nat -> bn (sm2_bn_from_bytes in_) /\ val (sm2_bn_from_bytes in_) = horner 256 in_.
Proof.
  intros H L. destruct (from_bytes_aux 8 in_ H L) as [H1 H2]. split; [| done]. split; [done |].
  apply Forall_rev in H1. exact H1.
Qed.

Lemma to_bytes_spec a :
  words a ->
  Forall byte (sm2_bn_to_bytes a) /\ length (sm2_bn_to_bytes a) = (4 * length a)%nat /\ horner 256 (sm2_bn_to_bytes a) = val a.
Proof.
  unfold sm2_bn_to_bytes. induction 1 as [| w a Hw Ha (I1 & I2 & I3)]; [split_and!; [by apply Forall_nil | done | done] |].
  cbn [List.rev]. rewrite List.flat_map_app. cbn [List.flat_map]. rewrite List.app_nil_r.
  unfold u32 in Hw. change (2 ^ 32) with W in Hw. rewrite (Z.mod_small w W) by done. split_and!.
  - apply Forall_app. split; [done | apply PUTU32_bytes].
  - rewrite length_app, I2. cbn. lia.
  - rewrite horner_app, I3. cbn [val]. change (256 ^ Z.of_nat (length (PUTU32 w))) with W.
    pose proof (be32_PUTU32 w Hw) as E. unfold PUTU32, horner. cbn [List.fold_left].
    rewrite be32_value in E by (unfold byte; apply Z.mod_pos_bound; lia). lia.
Qed.

Lemma bit31 w : negb (Z.land w 0x80000000 =? 0) = Z.testbit w 31.
Proof.
  change 0x80000000 with (2 ^ 31). destruct (Z.testbit w 31) eqn:B.
  - apply negb_true_iff, Z.eqb_neq. intros Q. apply (f_equal (fun x => Z.testbit x 31)) in Q.
    rewrite Z.land_spec, B, Z.pow2_bits_true in Q by lia. done.
  - apply negb_false_iff, Z.eqb_eq. apply Z.bits_inj'. intros i Hi. rewrite Z.land_spec, Z.bits_0.
    destruct (decide (i = 31)) as [-> |]; [by rewrite B | rewrite Z.pow2_bits_false by done; apply andb_false_r].
Qed.

(** The bit that a loop over the bits of a word looks at when [v] are those that
    are left, and what is left then. *)
Lemma next_bit n w v :
  (S n <= 32)%nat -> w mod 2 ^ 32 = v * 2 ^ (32 - Z.of_nat (S n)) -> 0 <= v < 2 ^ Z.of_nat (S n) ->
  Z.b2z (negb (Z.land w 0x80000000 =? 0)) = v / 2 ^ Z.of_nat n /\
  Z.shiftl w 1 mod 2 ^ 32 = v mod 2 ^ Z.of_nat n * 2 ^ (32 - Z.of_nat n).
Proof.
  intros Hn E Hv. rewrite bit31. split.
  - rewrite <- (Z.mod_pow2_bits_low w 32 31) by lia. rewrite E, Z.testbit_spec' by lia.
    replace (v * 2 ^ (32 - Z.of_nat (S n)) / 2 ^ 31) with (v / 2 ^ Z.of_nat n).
    + apply Z.mod_small. split; [apply Z.div_pos; lia |]. apply Z.div_lt_upper_bound; [lia |].
      rewrite Nat2Z.inj_succ, Z.pow_succ_r in Hv by lia. lia.
    + replace 31 with (Z.of_nat n + (32 - Z.of_nat (S n))) by lia. rewrite Z.pow_add_r by lia. rewrite Z.div_mul_cancel_r by lia. done.
  - rewrite Z.shiftl_mul_pow2 by lia. change (2 ^ 1) with 2. rewrite <- Z.mul_mod_idemp_l, E by lia.
    replace (v * 2 ^ (32 - Z.of_nat (S n)) * 2) with (v * 2 ^ (32 - Z.of_nat n)).
    2: { replace (32 - Z.of_nat n) with (Z.succ (32 - Z.of_nat (S n))) by lia. rewrite Z.pow_succ_r by lia. ring. }
    replace (2 ^ 32) with (2 ^ Z.of_nat n * 2 ^ (32 - Z.of_nat n)) by (rewrite <- Z.pow_add_r by lia; f_equal; lia).
    apply Z.mul_mod_distr_r; lia.
Qed.

Lemma bits_of_word_spec n w v :
  (n <= 32)%nat -> w mod 2 ^ 32 = v * 2 ^ (32 - Z.of_nat n) -> 0 <= v < 2 ^ Z.of_nat n ->
  length (bits_of_word n w) = n /\ horner 2 (List.map Z.b2z (bits_of_word n w)) = v.
Proof.
  revert w v. induction n as [| n IH]; intros w v Hn E Hv; [cbn in Hv; cbn; lia |]. cbn [bits_of_word length List.map].
  destruct (next_bit n w v Hn E Hv) as [Eb Es].
  destruct (IH (u64 (Z.shiftl w 1)) (v mod 2 ^ Z.of_nat n) ltac:(lia)) as [I1 I2].
  - unfold u64. rewrite (Z.mod_mod_divide _ (2 ^ 64) (2 ^ 32)) by (by exists (2 ^ 32)). exact Es.
  - apply Z.mod_pos_bound. lia.
  - rewrite I1. split; [done |]. rewrite horner_cons, I2, List.length_map, I1, Eb.
    pose proof (Z.div_mod v (2 ^ Z.of_nat n) ltac:(lia)). lia.
Qed.

Lemma to_bits_spec a :
  words a -> length (sm2_bn_to_bits a) = (32 * length a)%nat /\ horner 2 (List.map Z.b2z (sm2_bn_to_bits a)) = val a.
Proof.
  unfold sm2_bn_to_bits. induction 1 as [| w a Hw Ha (I1 & I2)]; [done |].
  cbn [List.rev]. rewrite List.flat_map_app. cbn [List.flat_map]. rewrite List.app_nil_r, List.map_app, horner_app, I2.
  unfold u32 in Hw. destruct (bits_of_word_spec 32 w w ltac:(lia)) as [B1 B2].
  - rewrite Z.mod_small by done. change (2 ^ (32 - Z.of_nat 32)) with 1. lia.
  - exact Hw.
  - rewrite length_app, I1, B1, B2, List.length_map, B1. cbn [length val]. change (2 ^ Z.of_nat 32) with W. lia.
Qed.

(** *** Congruence *)

Definition congr (m a b : Z) : Prop := a mod m = b mod m.

#[export] Instance congr_equiv m : Equivalence (congr m).
Proof. split; unfold congr; [intros a | intros a b | intros a b c]; congruence. Qed.

#[export] Instance congr_add m : Proper (congr m ==> congr m ==> congr m) Z.add.
Proof. intros a a' Ha b b' Hb. unfold congr in *. by rewrite Zplus_mod, Ha, Hb, <- Zplus_mod. Qed.

#[export] Instance congr_sub m : Proper (congr m ==> congr m ==> congr m) Z.sub.
Proof. intros a a' Ha b b' Hb. unfold congr in *. by rewrite Zminus_mod, Ha, Hb, <- Zminus_mod. Qed.

#[export] Instance congr_mul m : Proper (congr m ==> congr m ==> congr m) Z.mul.
Proof. intros a a' Ha b b' Hb. unfold congr in *. by rewrite Zmult_mod, Ha, Hb, <- Zmult_mod. Qed.

#[export] Instance congr_opp m : Proper (congr m ==> congr m) Z.opp.
Proof. intros a a' Ha. rewrite <- !Z.sub_0_l. by rewrite Ha. Qed.

#[export] Instance congr_pow m : Proper (congr m ==> eq ==> congr m) Z.pow.
Proof.
  intros a a' Ha k _ <-. destruct (Z_lt_le_dec k 0) as [| Hk]; [by rewrite !Z.pow_neg_r |].
  revert k Hk. apply natlike_ind; [done |]. intros k Hk IH. rewrite !Z.pow_succ_r by lia. by rewrite IH, Ha.
Qed.

Lemma congr_mod m a : congr m (a mod m) a.
Proof. apply Zmod_mod. Qed.

Lemma congr_eq m a b : a = b -> congr m a b.
Proof. by intros ->. Qed.

(** *** Powers *)

Section ExpSpec.
Context (m : Z) (Hm1 : 1 < m) (sqr : SM2_BN -> SM2_BN) (mul : SM2_BN -> SM2_BN -> SM2_BN).
Context (sqr_ok : forall a, below m a -> below m (sqr a) /\ val (sqr a) = (val a * val a) mod m).
Context (mul_ok : forall a b, below m a -> below m b -> below m (mul a b) /\ val (mul a b) = (val a * val b) mod m).
Context (a : SM2_BN) (Ha : below m a).

Lemma exp_word_spec n t w v :
  below m t -> (n <= 32)%nat -> w mod 2 ^ 32 = v * 2 ^ (32 - Z.of_nat n) -> 0 <= v < 2 ^ Z.of_nat n ->
  below m (exp_word sqr mul n a t w) /\ congr m (val (exp_word sqr mul n a t w)) (val t ^ 2 ^ Z.of_nat n * val a ^ v).
Proof using Ha mul_ok sqr_ok.
  revert t w v. induction n as [| n IH]; intros t w v Ht Hn E Hv.
  { cbn [exp_word]. change (2 ^ Z.of_nat 0) with 1 in *. assert (v = 0) as -> by lia. split; [done |].
    apply congr_eq. rewrite Z.pow_1_r, Z.pow_0_r. lia. }
  cbn [exp_word]. destruct (next_bit n w v Hn E Hv) as [Eb Es]. destruct (sqr_ok t Ht) as [S1 S2].
  set (bit := negb _) in *. set (t' := if bit then mul (sqr t) a else sqr t).
  assert (below m t' /\ congr m (val t') (val t ^ 2 * val a ^ Z.b2z bit)) as [T1 T2].
  { unfold t'. destruct bit; cbn [Z.b2z].
    - destruct (mul_ok (sqr t) a S1 Ha) as [M1 M2]. split; [done |]. rewrite M2, congr_mod, S2, congr_mod. apply congr_eq. ring.
    - split; [done |]. rewrite S2, congr_mod. apply congr_eq. ring. }
  destruct (IH t' (Z.shiftl w 1 mod W) (v mod 2 ^ Z.of_nat n) T1 ltac:(lia)) as [I1 I2].
  - change W with (2 ^ 32). rewrite Zmod_mod. exact Es.
  - apply Z.mod_pos_bound. lia.
  - split; [done |]. rewrite I2, T2. apply congr_eq. rewrite Eb.
    rewrite Z.pow_mul_l, <- !Z.pow_mul_r by (try lia; apply Z.div_pos; lia).
    replace (2 * 2 ^ Z.of_nat n) with (2 ^ Z.of_nat (S n)) by (rewrite Nat2Z.inj_succ, Z.pow_succ_r by lia; lia).
    rewrite <- Z.mul_assoc, <- Z.pow_add_r by (try (apply Z.mul_nonneg_nonneg; [apply Z.div_pos |]); try (apply Z.mod_pos_bound); lia).
    do 2 f_equal. pose proof (Z.div_mod v (2 ^ Z.of_nat n) ltac:(lia)). lia.
Qed.

Lemma exp_words_spec e :
  words e -> below m (exp_words sqr mul a e) /\ congr m (val (exp_words sqr mul a e)) (val a ^ val e).
Proof using Ha Hm1 mul_ok sqr_ok.
  unfold exp_words. induction 1 as [| w e Hw He (I1 & I2)].
  { cbn [List.rev List.fold_left val]. split; [| done]. split; [split; [done |] | exact Hm1].
    repeat (apply Forall_cons; [done |]). by apply Forall_nil. }
  cbn [List.rev]. rewrite List.fold_left_app. cbn [List.fold_left].
  set (t := List.fold_left _ _ _) in *. unfold u32 in Hw. change (2 ^ 32) with W in Hw. rewrite (Z.mod_small w W) by done.
  destruct (exp_word_spec 32 t w w I1 ltac:(lia)) as [E1 E2].
  - change (2 ^ (32 - Z.of_nat 32)) with 1. change (2 ^ 32) with W. rewrite Z.mod_small by done. lia.
  - exact Hw.
  - split; [done |]. rewrite E2, I2. apply congr_eq. change (2 ^ Z.of_nat 32) with W. pose proof (val_range e He).
    cbn [val]. rewrite <- Z.pow_mul_r, <- Z.pow_add_r by lia. f_equal. lia.
Qed.
End ExpSpec.
