(* ===== verification/Sm2Fp.v ===== *)
(** Arithmetic modulo the prime [SM2_P] (src/sm2_alg.c of GmSSL): the functions
    [sm2_fp_*], and what each computes. *)
From S2P Require Import Prelude.
From S2P Require Export Sm2Bn.
From stdpp Require Import base list option.
#[global] Open Scope Z_scope.

Definition sm2_fp_add (a b : SM2_BN) : SM2_BN :=
  let r := sm2_bn_add a b in
  if 0 <=? sm2_bn_cmp r SM2_P then sm2_bn_sub r SM2_P else r.

Definition sm2_fp_sub (a b : SM2_BN) : SM2_BN :=
  if 0 <=? sm2_bn_cmp a b then sm2_bn_sub a b
  else let t := sm2_bn_sub SM2_P b in sm2_bn_add t a.

Definition sm2_fp_dbl (a : SM2_BN) : SM2_BN := sm2_fp_add a a.

Definition sm2_fp_tri (a : SM2_BN) : SM2_BN :=
  let t := sm2_fp_dbl a in sm2_fp_add t a.

(** [(r[i] >> 1) | ((r[i + 1] & 0x01) << 31)] *)
Fixpoint halve_words (r : list Z) : list Z :=
  match r with
  | [] => []
  | [x] => [Z.shiftr x 1]
  | x :: (y :: _) as rest => Z.lor (Z.shiftr x 1) (Z.shiftl (Z.land y 1) 31) :: halve_words rest
  end.

Definition sm2_fp_div2 (a : SM2_BN) : SM2_BN :=
  let r := a in
  let r := if negb (Z.land (nthb r 0) 1 =? 0) then sm2_bn_add r SM2_P else r in
  halve_words r.

Definition sm2_fp_neg (a : SM2_BN) : SM2_BN := if sm2_bn_is_zero a then a else sm2_bn_sub SM2_P a.

#[local] Notation "s .[ i ]" := (nthb s i%nat) (at level 1, format "s .[ i ]").

(** The eight sums of the fast reduction. *)
Definition fold_sums (s : list Z) : list Z :=
  [ u64 (s.[0] + s.[8] + s.[9] + s.[10] + s.[11] + s.[12] + u64 (Z.shiftl (s.[13] + s.[14] + s.[15]) 1));
    u64 (s.[1] + s.[9] + s.[10] + s.[11] + s.[12] + s.[13] + u64 (Z.shiftl (s.[14] + s.[15]) 1));
    s.[2];
    u64 (s.[3] + s.[8] + s.[11] + s.[12] + s.[14] + s.[15] + u64 (Z.shiftl (s.[13]) 1));
    u64 (s.[4] + s.[9] + s.[12] + s.[13] + s.[15] + u64 (Z.shiftl (s.[14]) 1));
    u64 (s.[5] + s.[10] + s.[13] + s.[14] + u64 (Z.shiftl (s.[15]) 1));
    u64 (s.[6] + s.[11] + s.[14] + s.[15]);
    u64 (s.[7] + s.[8] + s.[9] + s.[10] + s.[11] + s.[15] + u64 (Z.shiftl (s.[12] + s.[13] + s.[14] + s.[15]) 1)) ].

(** What is subtracted from them. *)
Definition fold_diff (s : list Z) : SM2_BN :=
  let d2 := u64 (s.[8] + s.[9] + s.[13] + s.[14]) in
  [0; 0; mask32 d2; Z.shiftr d2 32; 0; 0; 0; 0].

Definition sm2_fp_mul (a b : SM2_BN) : SM2_BN :=
  let s := mul_words a b in
  let r := carry_words (fold_sums s) in
  let r := sm2_bn_sub r (fold_diff s) in
  reduce_loop 14 SM2_P r.

Definition sm2_fp_sqr (a : SM2_BN) : SM2_BN := sm2_fp_mul a a.

Definition sm2_fp_exp (a e : SM2_BN) : SM2_BN := exp_words sm2_fp_sqr sm2_fp_mul a e.

(** [for (i = 0; i < n; i++)] of a step. *)
Fixpoint times (step : SM2_BN -> SM2_BN) (n : nat) (a : SM2_BN) : SM2_BN :=
  match n with
  | O => a
  | S n' => times step n' (step a)
  end.

Definition sqr_times (n : nat) (a : SM2_BN) : SM2_BN := times sm2_fp_sqr n a.

Definition sm2_fp_inv (a : SM2_BN) : SM2_BN :=
  let a1 := sm2_fp_sqr a in
  let a2 := sm2_fp_mul a1 a in
  let a3 := sm2_fp_sqr a2 in
  let a3 := sm2_fp_sqr a3 in
  let a3 := sm2_fp_mul a3 a2 in
  let a4 := sm2_fp_sqr a3 in
  let a4 := sm2_fp_sqr a4 in
  let a4 := sm2_fp_sqr a4 in
  let a4 := sm2_fp_sqr a4 in
  let a4 := sm2_fp_mul a4 a3 in
  let a5 := sm2_fp_sqr a4 in
  let a5 := sqr_times 7 a5 in
  let a5 := sm2_fp_mul a5 a4 in
  let a5 := sqr_times 8 a5 in
  let a5 := sm2_fp_mul a5 a4 in
  let a5 := sqr_times 4 a5 in
  let a5 := sm2_fp_mul a5 a3 in
  let a5 := sm2_fp_sqr a5 in
  let a5 := sm2_fp_sqr a5 in
  let a5 := sm2_fp_mul a5 a2 in
  let a5 := sm2_fp_sqr a5 in
  let a5 := sm2_fp_mul a5 a in
  let a4 := sm2_fp_sqr a5 in
  let a3 := sm2_fp_mul a4 a1 in
  let a5 := sm2_fp_sqr a4 in
  let a5 := sqr_times 30 a5 in
  let a4 := sm2_fp_mul a5 a4 in
  let a4 := sm2_fp_sqr a4 in
  let a4 := sm2_fp_mul a4 a in
  let a3 := sm2_fp_mul a4 a2 in
  let a5 := sqr_times 33 a5 in
  let a2 := sm2_fp_mul a5 a3 in
  let a3 := sm2_fp_mul a2 a3 in
  let a5 := sqr_times 32 a5 in
  let a2 := sm2_fp_mul a5 a3 in
  let a3 := sm2_fp_mul a2 a3 in
  let a4 := sm2_fp_mul a2 a4 in
  let a5 := sqr_times 32 a5 in
  let a2 := sm2_fp_mul a5 a3 in
  let a3 := sm2_fp_mul a2 a3 in
  let a4 := sm2_fp_mul a2 a4 in
  let a5 := sqr_times 32 a5 in
  let a2 := sm2_fp_mul a5 a3 in
  let a3 := sm2_fp_mul a2 a3 in
  let a4 := sm2_fp_mul a2 a4 in
  let a5 := sqr_times 32 a5 in
  let a2 := sm2_fp_mul a5 a3 in
  let a3 := sm2_fp_mul a2 a3 in
  let a4 := sm2_fp_mul a2 a4 in
  let a5 := sqr_times 32 a5 in
  sm2_fp_mul a4 a5.

(** [None] is [-1]: there is no square root. *)
Definition sm2_fp_sqrt (a : SM2_BN) : option SM2_BN :=
  let u := sm2_bn_add SM2_P SM2_ONE in
  match sm2_bn_rshift u 2 with
  | None => None
  | Some u =>
      let y := sm2_fp_exp a u in
      let u := sm2_fp_sqr y in
      if negb (sm2_bn_cmp u a =? 0) then None else Some y
  end.

Definition sm2_fp_rand (bufs : list (option (list Z))) : option SM2_BN := sm2_bn_rand_range bufs SM2_P.

(** ** The prime *)

Definition sm2_p := Eval vm_compute in val SM2_P.

Lemma p_value : sm2_p = 2 ^ 256 - 2 ^ 224 - 2 ^ 96 + 2 ^ 64 - 1.
Proof. reflexivity. Qed.

Lemma val_P : val SM2_P = sm2_p.
Proof. reflexivity. Qed.

Lemma bn_P : bn SM2_P.
Proof. split; [done |]. repeat (apply Forall_cons; [done |]). by apply Forall_nil. Qed.

(** Reduced numbers. *)
Abbreviation fp := (below sm2_p).

Lemma fp_range a : fp a -> 0 <= val a < sm2_p.
Proof. intros [[_ H] L]. pose proof (val_range a H). lia. Qed.

Lemma fp_wide a : bn a -> wide W a.
Proof. intros [L H]. apply wide_words; [done |]. by intros ->. Qed.

Lemma P_wide : wide W SM2_P.
Proof. apply fp_wide, bn_P. Qed.

Lemma fp_add_spec a b : fp a -> fp b -> fp (sm2_fp_add a b) /\ val (sm2_fp_add a b) = (val a + val b) mod sm2_p.
Proof.
  intros Ha Hb. pose proof (fp_range a Ha). pose proof (fp_range b Hb). destruct Ha as [Ha _], Hb as [Hb _].
  destruct (bn_add_spec a b Ha Hb) as (H1 & H2 & H3). unfold sm2_fp_add.
  rewrite (cmp_wide _ W _ SM2_P H1 P_wide H2), H3, val_P. destruct (Z.leb_spec 0 (Z.sgn (val a + val b - sm2_p))) as [L | L].
  - destruct (bn_sub_spec (2 * W) (sm2_bn_add a b) SM2_P H1 (bn_words _ bn_P) H2 eq_refl ltac:(lia)) as (S1 & S2 & S3).
    { rewrite H3, val_P. lia. }
    rewrite H3, val_P in S3. split; [apply (wide_below (2 * W)); [done | done | lia | by vm_compute] |].
    rewrite S3. symmetry. rewrite <- (Z_mod_plus_full _ (-1)). rewrite Z.mod_small; lia.
  - split; [apply (wide_below (2 * W)); [done | done | lia | by vm_compute] |]. rewrite H3, Z.mod_small; lia.
Qed.

Lemma fp_sub_spec a b : fp a -> fp b -> fp (sm2_fp_sub a b) /\ val (sm2_fp_sub a b) = (val a - val b) mod sm2_p.
Proof.
  intros Ha Hb. pose proof (fp_range a Ha). pose proof (fp_range b Hb). destruct Ha as [Ha _], Hb as [Hb _].
  unfold sm2_fp_sub. rewrite (cmp_wide W W a b (fp_wide a Ha) (fp_wide b Hb)) by (by rewrite (bn_length a Ha), (bn_length b Hb)).
  destruct (Z.leb_spec 0 (Z.sgn (val a - val b))) as [L | L].
  - destruct (bn_sub_spec W a b (fp_wide a Ha) (bn_words b Hb) (bn_length a Ha) (bn_length b Hb) ltac:(lia) ltac:(lia)) as (S1 & S2 & S3).
    split; [apply (wide_below W); [done | done | lia | by vm_compute] |]. rewrite S3, Z.mod_small; lia.
  - destruct (bn_sub_spec W SM2_P b P_wide (bn_words b Hb) eq_refl (bn_length b Hb) ltac:(lia)) as (S1 & S2 & S3); [rewrite val_P; lia |].
    rewrite val_P in S3.
    destruct (bn_add_spec (sm2_bn_sub SM2_P b) a) as (A1 & A2 & A3); [split; [done | by apply words_wide] | done |].
    split; [apply (wide_below (2 * W)); [done | done | lia | by vm_compute] |].
    rewrite A3, S3. symmetry. rewrite <- (Z_mod_plus_full _ 1). rewrite Z.mod_small; lia.
Qed.

Lemma fp_dbl_spec a : fp a -> fp (sm2_fp_dbl a) /\ val (sm2_fp_dbl a) = (2 * val a) mod sm2_p.
Proof. intros Ha. destruct (fp_add_spec a a Ha Ha) as [H1 H2]. split; [done |]. unfold sm2_fp_dbl. rewrite H2. f_equal. lia. Qed.

Lemma fp_tri_spec a : fp a -> fp (sm2_fp_tri a) /\ val (sm2_fp_tri a) = (3 * val a) mod sm2_p.
Proof.
  intros Ha. destruct (fp_dbl_spec a Ha) as [H1 H2]. destruct (fp_add_spec _ _ H1 Ha) as [H3 H4]. split; [done |].
  unfold sm2_fp_tri. rewrite H4, H2, Z.add_mod_idemp_l by (by vm_compute). f_equal. lia.
Qed.


Lemma fp_neg_spec a : fp a -> fp (sm2_fp_neg a) /\ val (sm2_fp_neg a) = (- val a) mod sm2_p.
Proof.
  intros Ha. pose proof (fp_range a Ha). pose proof Ha as [Hb _]. unfold sm2_fp_neg. rewrite is_zero_spec by apply (bn_words a Hb).
  destruct (Z.eqb_spec (val a) 0) as [E | E]; [split; [done |]; by rewrite E |].
  destruct (bn_sub_spec W SM2_P a P_wide (bn_words a Hb) eq_refl (bn_length a Hb) ltac:(lia)) as (S1 & S2 & S3); [rewrite val_P; lia |].
  rewrite val_P in S3. split; [apply (wide_below W); [done | done | lia | by vm_compute] |].
  rewrite S3. symmetry. rewrite <- (Z_mod_plus_full _ 1). rewrite Z.mod_small; lia.
Qed.

(** *** Multiplication *)

(** The words of [val s] above 256 bits, each with the multiple of the prime
    that the fast reduction takes away with it. *)
Definition fold_coefficient (i : nat) : Z :=
  let r := val (fold_sums (repeat 0 i ++ [1] ++ repeat 0 (15 - i))) - val (fold_diff (repeat 0 i ++ [1] ++ repeat 0 (15 - i))) in
  (W ^ Z.of_nat i - r) / sm2_p.

Lemma list16 (s : list Z) : length s = 16%nat ->
  exists s0 s1 s2 s3 s4 s5 s6 s7 s8 s9 s10 s11 s12 s13 s14 s15, s = [s0; s1; s2; s3; s4; s5; s6; s7; s8; s9; s10; s11; s12; s13; s14; s15].
Proof.
  intros L. do 16 (destruct s as [| ? s]; [done |]). destruct s; [| done]. repeat eexists.
Qed.

Lemma shl1 x : Z.shiftl x 1 = 2 * x.
Proof. rewrite Z.shiftl_mul_pow2 by lia. lia. Qed.

Lemma fold_spec s : words s -> length s = 16%nat ->
  Forall (fun w => 0 <= w < 14 * W) (fold_sums s) /\ length (fold_sums s) = 8%nat /\
  bn (fold_diff s) /\ 0 <= val (fold_sums s) - val (fold_diff s) < 15 * sm2_p /\
  exists q, val (fold_sums s) - val (fold_diff s) = val s + q * sm2_p.
Proof.
  intros Hs L. destruct (list16 s L) as (s0 & s1 & s2 & s3 & s4 & s5 & s6 & s7 & s8 & s9 & s10 & s11 & s12 & s13 & s14 & s15 & ->).
  repeat match goal with H : Forall _ (_ :: _) |- _ => apply Forall_cons_1 in H as [? H] end. clear Hs L. unfold u32 in *. change (2 ^ 32) with W in *.
  unfold fold_sums, fold_diff, nthb. cbn [List.nth]. rewrite !shl1, !mask32_mod, !shiftr32. rewrite !(u64_id (2 * _)) by lia. rewrite !u64_id by lia.
  set (d2 := s8 + s9 + s13 + s14). assert (0 <= d2 < 4 * W) as Hd by lia. pose proof (Z.div_mod d2 W ltac:(lia)) as Ed.
  pose proof (Z.mod_pos_bound d2 W ltac:(lia)) as Rm. pose proof (div32_range d2 4 Hd) as Rd.
  split_and!.
  - repeat (apply Forall_cons; [lia |]). by apply Forall_nil.
  - done.
  - split; [done |]. repeat (apply Forall_cons; [unfold u32; lia |]). by apply Forall_nil.
  - cbn [val]. unfold sm2_p. lia.
  - cbn [val]. unfold sm2_p. lia.
  - exists (- (s8 * fold_coefficient 8 + s9 * fold_coefficient 9 + s10 * fold_coefficient 10 + s11 * fold_coefficient 11 +
      s12 * fold_coefficient 12 + s13 * fold_coefficient 13 + s14 * fold_coefficient 14 + s15 * fold_coefficient 15)).
    repeat match goal with |- context [fold_coefficient ?i] => let v := eval vm_compute in (fold_coefficient i) in change (fold_coefficient i) with v end.
    cbn [val]. unfold sm2_p. lia.
Qed.

(** Also for numbers that are not reduced. *)
Lemma fp_mul_spec a b : bn a -> bn b -> fp (sm2_fp_mul a b) /\ val (sm2_fp_mul a b) = (val a * val b) mod sm2_p.
Proof.
  intros [La Ha] [Lb Hb]. destruct (mul_words_spec a b Ha Hb) as (M1 & M2 & M3); [by intros -> |].
  unfold sm2_fp_mul. set (s := mul_words a b) in *. clearbody s. rewrite La, Lb in M2.
  destruct (fold_spec s M1 M2) as (F1 & F2 & [F3 F4] & F5 & q & F6).
  destruct (carry_words_spec (fold_sums s) 14 F1) as (C1 & C2 & C3); [by intros E; rewrite E in F2 | lia |].
  destruct (bn_sub_spec (2 * 14 * W) (carry_words (fold_sums s)) (fold_diff s) C1 F4) as (S1 & S2 & S3); [lia | done | lia | lia |].
  destruct (reduce_loop_spec 14 (2 * 14 * W) SM2_P (sm2_bn_sub (carry_words (fold_sums s)) (fold_diff s)) S1 S2 ltac:(lia) bn_P) as [R1 R2];
    [done | rewrite val_P, S3, C3; lia |].
  rewrite val_P in R1, R2. split; [done |]. rewrite R2, S3, C3, F6, M3. apply Z_mod_plus_full.
Qed.

Lemma fp_sqr_spec a : bn a -> fp (sm2_fp_sqr a) /\ val (sm2_fp_sqr a) = (val a * val a) mod sm2_p.
Proof. intros Ha. unfold sm2_fp_sqr. exact (fp_mul_spec a a Ha Ha). Qed.

(** *** Halving *)

Lemma halve_words_spec t r : wide t r -> t <= 2 * W ->
  words (halve_words r) /\ length (halve_words r) = length r /\ val (halve_words r) = val r / 2.
Proof.
  induction r as [| x r IH]; [done |]. intros Hr Ht. destruct r as [| y r].
  - cbn in Hr. cbn [halve_words val length]. rewrite Z.shiftr_div_pow2 by lia. change (2 ^ 1) with 2.
    rewrite !Z.mul_0_r, !Z.add_0_r.
    split_and!; [apply Forall_singleton; unfold u32; change (2 ^ 32) with W | done | done].
    split; [apply Z.div_pos; lia | apply Z.div_lt_upper_bound; lia].
  - destruct Hr as [Hx Hr]. destruct (IH Hr Ht) as (I1 & I2 & I3).
    change (halve_words (x :: y :: r)) with (Z.lor (Z.shiftr x 1) (Z.shiftl (Z.land y 1) 31) :: halve_words (y :: r)).
    unfold u32 in Hx. change (2 ^ 32) with W in Hx.
    assert (Z.lor (Z.shiftr x 1) (Z.shiftl (Z.land y 1) 31) = x / 2 + 2 ^ 31 * (y mod 2)) as E.
    { rewrite Z.lor_comm, Z.shiftr_div_pow2 by lia. change (2 ^ 1) with 2. rewrite lor_shiftl_add.
      - change 1 with (Z.ones 1) at 1. rewrite Z.land_ones by lia. change (2 ^ 1) with 2. lia.
      - lia.
      - change (2 ^ 31) with 2147483648. split; [apply Z.div_pos; lia | apply Z.div_lt_upper_bound; lia]. }
    rewrite E. cbn [length]. pose proof (Z.div_mod x 2 ltac:(lia)). pose proof (Z.mod_pos_bound x 2 ltac:(lia)). pose proof (Z.mod_pos_bound y 2 ltac:(lia)).
    change (2 ^ 31) with 2147483648 in *.
    split_and!; [apply Forall_cons; [unfold u32; change (2 ^ 32) with W; lia | done] | cbn [length] in *; lia |].
    change (val (x / 2 + 2147483648 * (y mod 2) :: halve_words (y :: r))) with (x / 2 + 2147483648 * (y mod 2) + W * val (halve_words (y :: r))).
    rewrite I3. change (val (x :: y :: r)) with (x + W * val (y :: r)).
    assert (val (y :: r) mod 2 = y mod 2) as Ey.
    { change (val (y :: r)) with (y + W * val r). replace (y + W * val r) with (y + (2147483648 * val r) * 2) by lia. apply Z_mod_plus_full. }
    pose proof (Z.div_mod (val (y :: r)) 2 ltac:(lia)). set (v := val (y :: r)) in *. clearbody v.
    apply (Z.div_unique _ _ _ (x mod 2)); lia.
Qed.

Lemma fp_div2_spec a : fp a -> fp (sm2_fp_div2 a) /\ (2 * val (sm2_fp_div2 a)) mod sm2_p = val a.
Proof.
  intros Ha. pose proof (fp_range a Ha) as R. destruct Ha as [Hb _]. pose proof Hb as [L H]. unfold sm2_fp_div2.
  assert (negb (Z.land (nthb a 0) 1 =? 0) = negb (val a mod 2 =? 0)) as ->.
  { destruct a as [| x a]; [done |]. unfold nthb. cbn [List.nth val]. change 1 with (Z.ones 1) at 1. rewrite Z.land_ones by lia.
    change (2 ^ 1) with 2. replace (x + W * val a) with (x + (2147483648 * val a) * 2) by lia. by rewrite Z_mod_plus_full. }
  pose proof (Z.div_mod (val a) 2 ltac:(lia)). destruct (Z.eqb_spec (val a mod 2) 0) as [E | E]; cbn [negb].
  - destruct (halve_words_spec W a (fp_wide a Hb)) as (H1 & H2 & H3); [lia |].
    split; [split; [split; [lia | done] | lia] |]. rewrite H3. rewrite Z.mod_small; lia.
  - destruct (bn_add_spec a SM2_P Hb bn_P) as (A1 & A2 & A3). rewrite val_P in A3.
    destruct (halve_words_spec (2 * W) (sm2_bn_add a SM2_P) A1) as (H1 & H2 & H3); [lia |].
    assert (val (halve_words (sm2_bn_add a SM2_P)) * 2 = val a + sm2_p) as V.
    { rewrite H3, A3. pose proof (Z.mod_pos_bound (val a) 2 ltac:(lia)). pose proof (Z.div_mod (val a + sm2_p) 2 ltac:(lia)).
      pose proof (Z.mod_pos_bound (val a + sm2_p) 2 ltac:(lia)). clear R H3 A3. unfold sm2_p in *. lia. }
    split; [split; [split; [lia | done] | lia] |]. replace (2 * val (halve_words (sm2_bn_add a SM2_P))) with (val a + 1 * sm2_p) by lia.
    rewrite Z_mod_plus_full. by apply Z.mod_small.
Qed.

(** *** Powers *)

Lemma fp_one : fp SM2_ONE.
Proof. split; [split; [done |] | done]. repeat (apply Forall_cons; [done |]). by apply Forall_nil. Qed.

Lemma fp_exp_spec a e : fp a -> words e -> fp (sm2_fp_exp a e) /\ val (sm2_fp_exp a e) = (val a ^ val e) mod sm2_p.
Proof.
  intros Ha He. destruct (exp_words_spec sm2_p eq_refl sm2_fp_sqr sm2_fp_mul) with (a := a) (e := e) as [H1 H2]; [| | done | done |].
  - intros x [Hx _]. by apply fp_sqr_spec.
  - intros x y [Hx _] [Hy _]. by apply fp_mul_spec.
  - split; [done |]. rewrite <- H2. symmetry. apply Z.mod_small. by apply fp_range.
Qed.

#[local] Opaque sm2_fp_mul.

(** [v] is the power [k] of [a]. *)
Record power (a : SM2_BN) (k : Z) (v : SM2_BN) : Prop := { power_fp : fp v; power_val : val v = (val a ^ k) mod sm2_p; power_pos : 0 <= k }.

Lemma power_self a : fp a -> power a 1 a.
Proof. intros Ha. split; [done | | done]. rewrite Z.pow_1_r. symmetry. apply Z.mod_small. by apply fp_range. Qed.

Lemma power_mul a k l v w : power a k v -> power a l w -> power a (k + l) (sm2_fp_mul v w).
Proof.
  intros [Hv Ev Hk] [Hw Ew Hl]. destruct (fp_mul_spec v w (below_bn _ _ Hv) (below_bn _ _ Hw)) as [H1 H2].
  split; [done | | lia]. rewrite H2, Ev, Ew, <- Zmult_mod, Z.pow_add_r by done. done.
Qed.

Lemma power_sqr a k v : power a k v -> power a (2 * k) (sm2_fp_sqr v).
Proof. intros H. replace (2 * k) with (k + k) by lia. unfold sm2_fp_sqr. by apply power_mul. Qed.

Lemma power_times step a n k v :
  (forall k v, power a k v -> power a (2 * k) (step v)) -> power a k v -> power a (2 ^ Z.of_nat n * k) (times step n v).
Proof.
  intros Hs. revert k v. induction n as [| n IH]; intros k v H; cbn [times].
  - change (2 ^ Z.of_nat 0) with 1. by rewrite Z.mul_1_l.
  - rewrite Nat2Z.inj_succ, Z.pow_succ_r by lia. replace (2 * 2 ^ Z.of_nat n * k) with (2 ^ Z.of_nat n * (2 * k)) by ring.
    by apply IH, Hs.
Qed.

Lemma power_sqr_times a n k v : power a k v -> power a (2 ^ Z.of_nat n * k) (sqr_times n v).
Proof. intros H. apply (power_times sm2_fp_sqr); [intros ? ?; apply power_sqr | exact H]. Qed.

Lemma let_power a (body : SM2_BN -> SM2_BN) k l e :
  power a k e -> (forall v, power a k v -> power a l (body v)) -> power a l (let x := e in body x).
Proof. intros H G. exact (G e H). Qed.

(** One step of an addition chain: the power of the next variable from those of
    the variables it is computed from. *)
Ltac chain_step :=
  lazymatch goal with
  | |- power ?a ?l (let x := sm2_fp_sqr ?v in @?body x) =>
      match goal with H : power a ?k v |- _ =>
        let k' := eval vm_compute in (2 * k) in
        refine (let_power a body k' l (sm2_fp_sqr v) (power_sqr a k v H) _); cbv beta; intros ? ?
      end
  | |- power ?a ?l (let x := sqr_times ?n ?v in @?body x) =>
      match goal with H : power a ?k v |- _ =>
        let k' := eval vm_compute in (2 ^ Z.of_nat n * k) in
        refine (let_power a body k' l (sqr_times n v) (power_sqr_times a n k v H) _); cbv beta; intros ? ?
      end
  | |- power ?a ?l (let x := sm2_fp_mul ?v ?w in @?body x) =>
      match goal with H : power a ?k v, H' : power a ?m w |- _ =>
        let k' := eval vm_compute in (k + m) in
        refine (let_power a body k' l (sm2_fp_mul v w) (power_mul a k m v w H H') _); cbv beta; intros ? ?
      end
  end.

(** The chain of [sm2_fp_inv] ends at the power [sm2_p - 2]. *)
Lemma fp_inv_power a : fp a -> power a (sm2_p - 2) (sm2_fp_inv a).
Proof.
  intros Ha. pose proof (power_self a Ha) as P. cbv beta delta [sm2_fp_inv]. repeat chain_step.
  match goal with H : power a ?k ?v, H' : power a ?m ?w |- power _ ?l (sm2_fp_mul ?v ?w) =>
    exact (power_mul a k m v w H H') end.
Qed.

Lemma fp_inv_spec a : fp a -> fp (sm2_fp_inv a) /\ val (sm2_fp_inv a) = (val a ^ (sm2_p - 2)) mod sm2_p.
Proof. intros Ha. destruct (fp_inv_power a Ha) as [H1 H2 _]. exact (conj H1 H2). Qed.

(** *** Square roots *)

Definition quarter : SM2_BN := Eval vm_compute in match sm2_bn_rshift (sm2_bn_add SM2_P SM2_ONE) 2 with Some u => u | None => [] end.

Lemma words_quarter : words quarter.
Proof. repeat (apply Forall_cons; [done |]). by apply Forall_nil. Qed.

(** A result is a square root, and it is the power [(sm2_p + 1) / 4]. *)
Lemma fp_sqrt_spec a : fp a ->
  let y := (val a ^ ((sm2_p + 1) / 4)) mod sm2_p in
  match sm2_fp_sqrt a with
  | Some r => fp r /\ val r = y /\ (y * y) mod sm2_p = val a
  | None => (y * y) mod sm2_p <> val a
  end.
Proof.
  intros Ha y. assert (sm2_bn_rshift (sm2_bn_add SM2_P SM2_ONE) 2 = Some quarter) as E by (vm_compute; reflexivity).
  unfold sm2_fp_sqrt. rewrite E.
  destruct (fp_exp_spec a quarter Ha words_quarter) as [E1 E2]. change (val quarter) with ((sm2_p + 1) / 4) in E2. fold y in E2.
  set (r := sm2_fp_exp a quarter) in *. clearbody r. destruct (fp_sqr_spec r (below_bn _ _ E1)) as [S1 S2].
  rewrite (cmp_wide W W _ a (fp_wide _ (below_bn _ _ S1)) (fp_wide a (below_bn _ _ Ha))), S2, E2.
  2: { by rewrite (bn_length _ (below_bn _ _ S1)), (bn_length _ (below_bn _ _ Ha)). }
  destruct (Z.eqb_spec (Z.sgn ((y * y) mod sm2_p - val a)) 0); cbn [negb]; [split_and!; [done | done | lia] | lia].
Qed.

(** C16: The arithmetic modulo the prime: sums, differences, negation, doubling,
    tripling, halving, products (by the fast reduction, which never goes below
    zero and needs at most fourteen subtractions at the end), powers, the
    inverse, which is the power [p - 2], and square roots are reduced and
    exact; factors need not be reduced. *)
Theorem sm2_fp_exact a b e :
  fp a -> fp b -> words e ->
  (fp (sm2_fp_add a b) /\ val (sm2_fp_add a b) = (val a + val b) mod sm2_p) /\
  (fp (sm2_fp_sub a b) /\ val (sm2_fp_sub a b) = (val a - val b) mod sm2_p) /\
  (fp (sm2_fp_neg a) /\ val (sm2_fp_neg a) = (- val a) mod sm2_p) /\
  (fp (sm2_fp_tri a) /\ val (sm2_fp_tri a) = (3 * val a) mod sm2_p) /\
  (fp (sm2_fp_div2 a) /\ (2 * val (sm2_fp_div2 a)) mod sm2_p = val a) /\
  (forall c d, bn c -> bn d -> fp (sm2_fp_mul c d) /\ val (sm2_fp_mul c d) = (val c * val d) mod sm2_p) /\
  (fp (sm2_fp_exp a e) /\ val (sm2_fp_exp a e) = (val a ^ val e) mod sm2_p) /\
  (fp (sm2_fp_inv a) /\ val (sm2_fp_inv a) = (val a ^ (sm2_p - 2)) mod sm2_p) /\
  (let y := (val a ^ ((sm2_p + 1) / 4)) mod sm2_p in
   match sm2_fp_sqrt a with
   | Some r => fp r /\ val r = y /\ (y * y) mod sm2_p = val a
   | None => (y * y) mod sm2_p <> val a
   end).
Proof.
  intros Ha Hb He.
  exact (conj (fp_add_spec a b Ha Hb) (conj (fp_sub_spec a b Ha Hb) (conj (fp_neg_spec a Ha) (conj (fp_tri_spec a Ha)
    (conj (fp_div2_spec a Ha) (conj fp_mul_spec (conj (fp_exp_spec a e Ha He) (conj (fp_inv_spec a Ha) (fp_sqrt_spec a Ha))))))))).
Qed.

Definition ex_c : SM2_BN := [0xfffffffe; 0xffffffff; 0x00000000; 0xffffffff; 0xffffffff; 0xffffffff; 0xffffffff; 0xfffffffe].
Definition ex_d : SM2_BN := [3; 0; 0; 0; 0; 0; 0; 0x80000000].

Lemma ex_c_fp : fp ex_c.
Proof. split; [by apply bn_check | done]. Qed.

Lemma ex_d_fp : fp ex_d.
Proof. split; [by apply bn_check | done]. Qed.

Lemma sm2_fp_exact_witness :
  (fp (sm2_fp_div2 ex_c) /\ (2 * val (sm2_fp_div2 ex_c)) mod sm2_p = val ex_c) /\
  sm2_fp_mul ex_c ex_d = sm2_fp_neg ex_d /\ val (sm2_fp_inv ex_c) = (val ex_c ^ (sm2_p - 2)) mod sm2_p.
Proof.
  pose proof (sm2_fp_exact ex_c ex_d SM2_ONE ex_c_fp ex_d_fp (bn_words _ (below_bn _ _ fp_one))) as (_ & _ & _ & _ & H5 & _ & _ & [_ H8] & _).
  split; [exact H5 | split; [vm_compute; reflexivity | exact H8]].
Defined.
