(* ===== verification/Sm2Fn.v ===== *)
(** Arithmetic modulo the order [SM2_N] of the group (src/sm2_alg.c of GmSSL):
    the functions [sm2_fn_*], with Barrett's reduction of a product on 288-bit
    integers. *)
From S2P Require Import Prelude.
From S2P Require Export Sm2Bn.
From stdpp Require Import base list option.
#[global] Open Scope Z_scope.

Definition sm2_fn_add (a b : SM2_BN) : SM2_BN :=
  let r := sm2_bn_add a b in
  if 0 <=? sm2_bn_cmp r SM2_N then sm2_bn_sub r SM2_N else r.

Definition sm2_fn_sub (a b : SM2_BN) : SM2_BN :=
  if 0 <=? sm2_bn_cmp a b then sm2_bn_sub a b
  else let t := sm2_bn_add a SM2_N in sm2_bn_sub t b.

Definition sm2_fn_neg (a : SM2_BN) : SM2_BN := if sm2_bn_is_zero a then a else sm2_bn_sub SM2_N a.

(** The functions on nine words are those on eight. *)
Definition sm2_bn288_cmp (a b : list Z) : Z := cmp_words (List.rev a) (List.rev b).
Definition sm2_bn288_add (a b : list Z) : list Z := sm2_bn_add a b.
Definition sm2_bn288_sub (a b : list Z) : list Z := sm2_bn_sub a b.

Definition mu : list Z := [0xf15149a0; 0x12ac6361; 0xfa323c01; 0x8dfc2096; 1; 1; 1; 1; 1].

(** [r[7] += zl[8] << 32] *)
Definition join_last (zl : list Z) : SM2_BN :=
  take 7 zl ++ [u64 (nthb zl 7 + u64 (Z.shiftl (nthb zl 8) 32))].

Definition sm2_fn_mul (a b : SM2_BN) : SM2_BN :=
  (* z = a * b *)
  let s := mul_words a b in
  let zl := take 9 s in
  let zh := drop 7 s in
  (* q = zh * mu // (2^32)^9 *)
  let s := mul_words zh mu in
  let q := take 8 (drop 9 s) in
  (* q = q * n mod (2^32)^9 *)
  let s := mul_words q SM2_N in
  let q := take 9 s in
  (* r = zl - q (mod (2^32)^9) *)
  let zl :=
    if negb (sm2_bn288_cmp zl q =? 0) then sm2_bn288_sub zl q
    else
      let c := [0; 0; 0; 0; 0; 0; 0; 0; 0x100000000] in
      let q := sm2_bn288_sub c q in
      sm2_bn288_add q zl in
  let r := join_last zl in
  reduce_loop 2 SM2_N r.

Definition sm2_fn_mul_word (a : SM2_BN) (b : Z) : SM2_BN := sm2_fn_mul a (sm2_bn_set_word b).

Definition sm2_fn_sqr (a : SM2_BN) : SM2_BN := sm2_fn_mul a a.

Definition sm2_fn_exp (a e : SM2_BN) : SM2_BN := exp_words sm2_fn_sqr sm2_fn_mul a e.

Definition sm2_fn_inv (a : SM2_BN) : SM2_BN := let e := sm2_bn_sub SM2_N SM2_TWO in sm2_fn_exp a e.

Definition sm2_fn_rand (bufs : list (option (list Z))) : option SM2_BN := sm2_bn_rand_range bufs SM2_N.

(** ** The order *)

Definition sm2_n := Eval vm_compute in val SM2_N.

Lemma val_N : val SM2_N = sm2_n.
Proof. reflexivity. Qed.

Lemma bn_N : bn SM2_N.
Proof. split; [done |]. repeat (apply Forall_cons; [done |]). by apply Forall_nil. Qed.

Abbreviation fn := (below sm2_n).

Lemma fn_range a : fn a -> 0 <= val a < sm2_n.
Proof. intros [[_ H] L]. pose proof (val_range a H). lia. Qed.

Lemma bn_wide a : bn a -> wide W a.
Proof. intros [L H]. apply wide_words; [done |]. by intros ->. Qed.

Lemma fn_add_spec a b : fn a -> fn b -> fn (sm2_fn_add a b) /\ val (sm2_fn_add a b) = (val a + val b) mod sm2_n.
Proof.
  intros Ha Hb. pose proof (fn_range a Ha). pose proof (fn_range b Hb). destruct Ha as [Ha _], Hb as [Hb _].
  destruct (bn_add_spec a b Ha Hb) as (H1 & H2 & H3). unfold sm2_fn_add.
  rewrite (cmp_wide _ W _ SM2_N H1 (bn_wide _ bn_N) H2), H3, val_N. destruct (Z.leb_spec 0 (Z.sgn (val a + val b - sm2_n))) as [L | L].
  - destruct (bn_sub_spec (2 * W) (sm2_bn_add a b) SM2_N H1 (bn_words _ bn_N) H2 eq_refl ltac:(lia)) as (S1 & S2 & S3).
    { rewrite H3, val_N. lia. }
    rewrite H3, val_N in S3. split; [apply (wide_below (2 * W)); [done | done | lia | by vm_compute] |].
    rewrite S3. symmetry. rewrite <- (Z_mod_plus_full _ (-1)). rewrite Z.mod_small; lia.
  - split; [apply (wide_below (2 * W)); [done | done | lia | by vm_compute] |]. rewrite H3, Z.mod_small; lia.
Qed.

Lemma fn_sub_spec a b : fn a -> fn b -> fn (sm2_fn_sub a b) /\ val (sm2_fn_sub a b) = (val a - val b) mod sm2_n.
Proof.
  intros Ha Hb. pose proof (fn_range a Ha). pose proof (fn_range b Hb). destruct Ha as [Ha _], Hb as [Hb _].
  unfold sm2_fn_sub. rewrite (cmp_wide W W a b (bn_wide a Ha) (bn_wide b Hb)) by (by rewrite (bn_length a Ha), (bn_length b Hb)).
  destruct (Z.leb_spec 0 (Z.sgn (val a - val b))) as [L | L].
  - destruct (bn_sub_spec W a b (bn_wide a Ha) (bn_words b Hb) (bn_length a Ha) (bn_length b Hb) ltac:(lia) ltac:(lia)) as (S1 & S2 & S3).
    split; [apply (wide_below W); [done | done | lia | by vm_compute] |]. rewrite S3, Z.mod_small; lia.
  - destruct (bn_add_spec a SM2_N Ha bn_N) as (A1 & A2 & A3). rewrite val_N in A3.
    destruct (bn_sub_spec (2 * W) (sm2_bn_add a SM2_N) b A1 (bn_words b Hb) A2 (bn_length b Hb) ltac:(lia) ltac:(lia)) as (S1 & S2 & S3).
    split; [apply (wide_below (2 * W)); [done | done | lia | by vm_compute] |].
    rewrite S3, A3. symmetry. rewrite <- (Z_mod_plus_full _ 1). rewrite Z.mod_small; lia.
Qed.

Lemma fn_neg_spec a : fn a -> fn (sm2_fn_neg a) /\ val (sm2_fn_neg a) = (- val a) mod sm2_n.
Proof.
  intros Ha. pose proof (fn_range a Ha). pose proof Ha as [Hb _]. unfold sm2_fn_neg. rewrite is_zero_spec by apply (bn_words a Hb).
  destruct (Z.eqb_spec (val a) 0) as [E | E]; [split; [done |]; by rewrite E |].
  destruct (bn_sub_spec W SM2_N a (bn_wide _ bn_N) (bn_words a Hb) eq_refl (bn_length a Hb) ltac:(lia)) as (S1 & S2 & S3); [rewrite val_N; lia |].
  rewrite val_N in S3. split; [apply (wide_below W); [done | done | lia | by vm_compute] |].
  rewrite S3. symmetry. rewrite <- (Z_mod_plus_full _ 1). rewrite Z.mod_small; lia.
Qed.

(** *** Barrett's reduction *)

Lemma mu_value : val mu = W ^ 16 / sm2_n.
Proof. vm_compute. reflexivity. Qed.

(** The quotient is never too large and at most two too small. *)
Lemma barrett z q :
  0 <= z < sm2_n * W ^ 8 -> q = z / W ^ 7 * val mu / W ^ 9 -> 0 <= q < W ^ 8 /\ 0 <= z - q * sm2_n < 3 * sm2_n.
Proof.
  intros Hz Eq. rewrite mu_value in Eq.
  pose proof (Z.div_mod z (W ^ 7) ltac:(lia)) as Dz. pose proof (Z.mod_pos_bound z (W ^ 7) ltac:(lia)) as Rz.
  pose proof (Z.div_mod (W ^ 16) sm2_n ltac:(done)) as Dm. pose proof (Z.mod_pos_bound (W ^ 16) sm2_n ltac:(done)) as Rm.
  set (zh := z / W ^ 7) in *. assert (0 <= W ^ 16 / sm2_n) as Hm by (by vm_compute). set (m := W ^ 16 / sm2_n) in *. set (z0 := z mod W ^ 7) in *. set (m0 := W ^ 16 mod sm2_n) in *.
  pose proof (Z.div_mod (zh * m) (W ^ 9) ltac:(lia)) as Dq. pose proof (Z.mod_pos_bound (zh * m) (W ^ 9) ltac:(lia)) as Rq.
  rewrite <- Eq in Dq. set (q0 := (zh * m) mod W ^ 9) in *. clearbody zh m z0 m0 q0.
  assert (0 < sm2_n) as Hn by done. assert (W ^ 7 <= sm2_n) as Hn7 by (by vm_compute). assert (sm2_n < W ^ 8) as Hn8 by (by vm_compute).
  assert (W ^ 9 * (z - q * sm2_n) = zh * m0 + W ^ 9 * z0 + sm2_n * q0) as K.
  { transitivity (W ^ 9 * z - sm2_n * (W ^ 9 * q)); [ring |]. replace (W ^ 9 * q) with (zh * m - q0) by lia.
    rewrite Dz at 1. replace (W ^ 9 * (W ^ 7 * zh + z0)) with (zh * W ^ 16 + W ^ 9 * z0) by ring. rewrite Dm. ring. }
  assert (0 <= zh < W ^ 9) as Hzh by nia. assert (0 <= q) as Hq by (rewrite Eq; apply Z.div_pos; [apply Z.mul_nonneg_nonneg; lia | lia]).
  clear Dz Dm Dq Eq.
  assert (0 <= zh * m0 < W ^ 9 * sm2_n) as K1 by nia. assert (0 <= sm2_n * q0 < sm2_n * W ^ 9) as K2 by nia.
  assert (0 <= z - q * sm2_n < 3 * sm2_n) as K3 by nia. split; [| done].
  split; [done |]. apply Z.nle_gt. intros C. assert (W ^ 8 * sm2_n <= q * sm2_n) by (apply Z.mul_le_mono_nonneg_r; lia). lia.
Qed.

Lemma shl32_u64 x : u64 (Z.shiftl (u64 x) 32) = x mod W * W.
Proof.
  unfold u64. rewrite Z.shiftl_mul_pow2 by lia. change (2 ^ 64) with (W * W). change (2 ^ 32) with W.
  rewrite Z.mul_mod_distr_r by lia. f_equal. apply Z.mod_mod_divide. by exists W.
Qed.

(** The nine words of a difference modulo [W ^ 9] as eight. *)
Lemma join_last_spec low d R :
  words low -> length low = 8%nat -> 0 <= R < 4 * W ^ 8 -> (val low + W ^ 8 * d) mod W ^ 9 = R ->
  wide (4 * W) (join_last (low ++ [u64 d])) /\ length (join_last (low ++ [u64 d])) = 8%nat /\ val (join_last (low ++ [u64 d])) = R.
Proof.
  intros Hl L HR E. unfold join_last, nthb.
  rewrite take_app_le by lia. rewrite (List.app_nth1 low) by lia. rewrite (List.app_nth2 low) by lia. rewrite L. cbn [List.nth Nat.sub].
  rewrite shl32_u64. pose proof (val_range low Hl) as Rl. rewrite L in Rl. change (Z.of_nat 8) with 8 in Rl.
  assert (val low + W ^ 8 * (d mod W) = R) as E'.
  { rewrite <- E. rewrite (Z.div_mod d W) at 2 by lia. pose proof (Z.mod_pos_bound d W ltac:(lia)).
    replace (val low + W ^ 8 * (W * (d / W) + d mod W)) with (val low + W ^ 8 * (d mod W) + (d / W) * W ^ 9) by ring.
    rewrite Z_mod_plus_full. symmetry. apply Z.mod_small. nia. }
  pose proof (Z.mod_pos_bound d W ltac:(lia)). assert (d mod W < 4) as Hd by nia.
  destruct (wide_snoc W low) as (l & x & -> & H1 & H2); [apply wide_words; [done | by intros ->] |].
  rewrite length_app in L. cbn in L. assert (length l = 7%nat) as L7 by lia.
  rewrite take_app_length' by done. rewrite List.app_nth2 by lia. rewrite L7. cbn [List.nth Nat.sub].
  rewrite u64_id by lia. rewrite length_app, L7. split_and!; [apply wide_app_snoc; [done | lia] | done |].
  rewrite <- E'. rewrite !val_app, L7. cbn [val]. change (Z.of_nat 7) with 7. ring.
Qed.


Lemma val_take_drop k s : words s -> (k <= length s)%nat ->
  val (take k s) = val s mod W ^ Z.of_nat k /\ val (drop k s) = val s / W ^ Z.of_nat k.
Proof.
  intros Hs L. pose proof (val_app (take k s) (drop k s)) as E. rewrite take_drop, length_take_le in E by done.
  pose proof (val_range (take k s) (Forall_take _ _ _ Hs)) as R. rewrite length_take_le in R by done.
  split; [apply (Z.mod_unique _ _ (val (drop k s))) | apply (Z.div_unique _ _ _ (val (take k s)))]; lia.
Qed.

Lemma bn_firstn8 s : words s -> length s = 8%nat -> bn s.
Proof. by split. Qed.

(** The subtraction, in both branches. *)
Lemma sub288_spec zl q R :
  words zl -> words q -> length zl = 9%nat -> length q = 9%nat ->
  0 <= R < 4 * W ^ 8 -> (val zl - val q) mod W ^ 9 = R ->
  let r := if negb (sm2_bn288_cmp zl q =? 0) then sm2_bn288_sub zl q
           else sm2_bn288_add (sm2_bn288_sub [0; 0; 0; 0; 0; 0; 0; 0; 0x100000000] q) zl in
  wide (4 * W) (join_last r) /\ length (join_last r) = 8%nat /\ val (join_last r) = R.
Proof.
  intros Hz Hq Lz Lq HR E. assert (sm2_bn288_cmp zl q = Z.sgn (val zl - val q)) as ->.
  { unfold sm2_bn288_cmp. apply cmp_rev; [done | done | lia]. }
  destruct (Z.eqb_spec (Z.sgn (val zl - val q)) 0) as [E0 | E0]; cbn [negb].
  - assert (zl = q) as -> by (apply val_inj; [done | done | lia | lia]).
    rewrite Z.sub_diag in E. change (0 mod W ^ 9) with 0 in E. subst R. unfold sm2_bn288_add, sm2_bn288_sub.
    destruct (decide (val q = 0)) as [Q0 | Q0].
    { assert (q = repeat 0 9) as -> by (apply val_inj; [done | apply words_zeros | by rewrite repeat_length | by rewrite val_zeros]).
      cbn zeta. split_and!; [vm_compute; repeat split; discriminate | reflexivity | reflexivity]. }
    destruct (sub_words_spec (W + 1) [0; 0; 0; 0; 0; 0; 0; 0; W] q) as (low & d & -> & H1 & H2 & H3 & H4); [| done | by rewrite Lq | cbn; lia | lia |].
    { repeat (split; [done |]). done. }
    change (val [0; 0; 0; 0; 0; 0; 0; 0; W]) with (W ^ 9) in H4. assert (length low = 8%nat) as Ll by (cbn [length] in H2; lia).
    rewrite Ll in H4. change (Z.of_nat 8) with 8 in H4. pose proof (val_range q Hq) as Rq. rewrite Lq in Rq. change (Z.of_nat 9) with 9 in Rq.
    pose proof (val_range low H1) as Rl. rewrite Ll in Rl. change (Z.of_nat 8) with 8 in Rl.
    assert (0 <= d < W) as Hd by nia. rewrite u64_id by lia.
    assert (words (low ++ [d])) as Hw by (apply Forall_app; split; [done | by apply Forall_singleton]).
    assert (val (low ++ [d]) = W ^ 9 - val q) as Ev by (rewrite val_app, Ll; cbn [val]; change (Z.of_nat 8) with 8; lia).
    assert (length (low ++ [d]) = 9%nat) as Lw by (rewrite length_app, Ll; done).
    destruct (low ++ [d]) as [| x a]; [done |]. destruct q as [| y b]; [done |]. cbn [sm2_bn_add length val] in *.
    apply Forall_cons_1 in Hw as [Hx Ha]. apply Forall_cons_1 in Hq as [Hy Hb]. unfold u32 in Hx, Hy. change (2 ^ 32) with W in *.
    rewrite u64_id by lia. destruct (add_rest_spec a b (x + y) 2 Ha Hb ltac:(lia) ltac:(lia) ltac:(lia)) as (A1 & A2 & A3).
    apply wide_snoc in A1 as (l & t & Er & T1 & T2). rewrite Er in *. rewrite length_app in A2. cbn in A2.
    assert (length l = 8%nat) as L8 by lia. rewrite <- (u64_id t) by lia. apply join_last_spec; [done | done | lia |].
    rewrite val_app, L8 in A3. cbn [val] in A3. change (Z.of_nat 8) with 8 in A3.
    replace (val l + W ^ 8 * t) with (1 * W ^ 9) by lia. by vm_compute.
  - unfold sm2_bn288_sub. destruct (sub_words_spec W zl q) as (low & d & -> & H1 & H2 & H3 & H4); [| done | lia | lia | lia |].
    { apply wide_words; [done | by intros ->]. }
    assert (length low = 8%nat) as L8 by lia. rewrite L8 in H4. change (Z.of_nat 8) with 8 in H4.
    apply join_last_spec; [done | done | done |]. by rewrite H4.
Qed.

Lemma fn_mul_spec a b : bn a -> bn b -> val a * val b < sm2_n * W ^ 8 ->
  fn (sm2_fn_mul a b) /\ val (sm2_fn_mul a b) = (val a * val b) mod sm2_n.
Proof.
  intros [La Ha] [Lb Hb] Hz. pose proof (val_range a Ha). pose proof (val_range b Hb).
  destruct (mul_words_spec a b Ha Hb) as (M1 & M2 & M3); [by intros -> |]. unfold sm2_fn_mul.
  set (s := mul_words a b) in *. clearbody s. rewrite La, Lb in M2. rewrite <- M3 in *. set (z := val s) in *.
  destruct (val_take_drop 9 s M1 ltac:(lia)) as [T1 _]. destruct (val_take_drop 7 s M1 ltac:(lia)) as [_ T2].
  destruct (mul_words_spec (drop 7 s) mu) as (N1 & N2 & N3); [by apply Forall_drop | | done |].
  { repeat (apply Forall_cons; [done |]). by apply Forall_nil. }
  set (s2 := mul_words (drop 7 s) mu) in *. clearbody s2. rewrite length_drop, M2 in N2. cbn in N2.
  destruct (barrett z (val s2 / W ^ 9)) as [B1 B2]; [subst z; lia | by rewrite N3, T2 |].
  destruct (val_take_drop 9 s2 N1 ltac:(lia)) as [_ T3].
  destruct (val_take_drop 8 (drop 9 s2) (Forall_drop _ _ _ N1)) as [T4 _]; [rewrite length_drop; lia |].
  rewrite T3, Z.mod_small in T4 by exact B1.
  destruct (mul_words_spec (take 8 (drop 9 s2)) SM2_N) as (P1 & P2 & P3); [by apply Forall_take, Forall_drop | apply bn_N | done |].
  set (s3 := mul_words (take 8 (drop 9 s2)) SM2_N) in *. clearbody s3. rewrite length_take_le in P2 by (rewrite length_drop; lia). cbn in P2.
  rewrite T4, val_N in P3. destruct (val_take_drop 9 s3 P1 ltac:(lia)) as [T5 _].
  change (Z.of_nat 9) with 9 in *. set (q := val s2 / W ^ 9) in *. clearbody q.
  assert (sm2_n < W ^ 8) as Hn8 by (by vm_compute). assert (0 < sm2_n) as Hn by done.
  destruct (sub288_spec (take 9 s) (take 9 s3) (z - q * sm2_n)) as (R1 & R2 & R3);
    [by apply Forall_take | by apply Forall_take | rewrite length_take; lia | rewrite length_take; lia | lia | |].
  { rewrite T1, T5, P3, <- Zminus_mod. apply Z.mod_small. split; [lia |]. change (W ^ 9) with (W * W ^ 8). lia. }
  cbv zeta. cbv zeta in R1, R2, R3. set (r := join_last _) in *. clearbody r.
  destruct (reduce_loop_spec 2 (4 * W) SM2_N r R1 R2 ltac:(lia) bn_N) as [Q1 Q2]; [done | rewrite val_N, R3; lia |].
  rewrite val_N in Q1, Q2. split; [done |]. rewrite Q2, R3. rewrite <- (Z_mod_plus_full z (- q)). f_equal. lia.
Qed.

Lemma fn_product a b : fn a -> fn b -> val a * val b < sm2_n * W ^ 8.
Proof.
  intros Ha Hb. pose proof (fn_range a Ha). pose proof (fn_range b Hb). assert (sm2_n < W ^ 8) by (by vm_compute). nia.
Qed.

Lemma fn_sqr_spec a : fn a -> fn (sm2_fn_sqr a) /\ val (sm2_fn_sqr a) = (val a * val a) mod sm2_n.
Proof. intros Ha. unfold sm2_fn_sqr. exact (fn_mul_spec a a (below_bn _ _ Ha) (below_bn _ _ Ha) (fn_product a a Ha Ha)). Qed.

Lemma fn_mul_word_spec a b : fn a -> u32 b ->
  fn (sm2_fn_mul_word a b) /\ val (sm2_fn_mul_word a b) = (val a * b) mod sm2_n.
Proof.
  intros Ha Hb. assert (bn (sm2_bn_set_word b)) as Hw.
  { split; [done |]. unfold sm2_bn_set_word. repeat (apply Forall_cons; [done |]). by apply Forall_nil. }
  assert (val (sm2_bn_set_word b) = b) as Ew by (unfold sm2_bn_set_word; cbn [val]; lia).
  unfold sm2_fn_mul_word. rewrite <- Ew at 3. apply fn_mul_spec; [apply Ha | done |]. rewrite Ew. pose proof (fn_range a Ha).
  unfold u32 in Hb. change (2 ^ 32) with W in Hb. assert (0 < sm2_n) by done. assert (W <= W ^ 8) by (by vm_compute). nia.
Qed.

Lemma fn_one : fn SM2_ONE.
Proof. split; [split; [done |] | done]. repeat (apply Forall_cons; [done |]). by apply Forall_nil. Qed.

Lemma fn_exp_spec a e : fn a -> words e -> fn (sm2_fn_exp a e) /\ val (sm2_fn_exp a e) = (val a ^ val e) mod sm2_n.
Proof.
  intros Ha He. destruct (exp_words_spec sm2_n eq_refl sm2_fn_sqr sm2_fn_mul) with (a := a) (e := e) as [H1 H2]; [| | done | done |].
  - intros x Hx. by apply fn_sqr_spec.
  - intros x y Hx Hy. apply fn_mul_spec; [apply Hx | apply Hy | by apply fn_product].
  - split; [done |]. rewrite <- H2. symmetry. apply Z.mod_small. by apply fn_range.
Qed.

Definition n_minus_2 : SM2_BN := Eval vm_compute in sm2_bn_sub SM2_N SM2_TWO.

Lemma words_n_minus_2 : words n_minus_2.
Proof. repeat (apply Forall_cons; [done |]). by apply Forall_nil. Qed.

Lemma fn_inv_spec a : fn a -> fn (sm2_fn_inv a) /\ val (sm2_fn_inv a) = (val a ^ (sm2_n - 2)) mod sm2_n.
Proof.
  intros Ha. unfold sm2_fn_inv. assert (sm2_bn_sub SM2_N SM2_TWO = n_minus_2) as -> by (vm_compute; reflexivity).
  exact (fn_exp_spec a n_minus_2 Ha words_n_minus_2).
Qed.

(** C17: The arithmetic modulo the order of the group: sums, differences,
    products (by Barrett's reduction, with at most two subtractions at the
    end), powers and the inverse, which is the power [n - 2], are reduced and
    exact; a product is exact as soon as it is less than [n * 2^256], so one of
    the factors need not be reduced. *)
Theorem sm2_fn_exact a b e :
  fn a -> fn b -> words e ->
  (fn (sm2_fn_add a b) /\ val (sm2_fn_add a b) = (val a + val b) mod sm2_n) /\
  (fn (sm2_fn_sub a b) /\ val (sm2_fn_sub a b) = (val a - val b) mod sm2_n) /\
  (fn (sm2_fn_neg a) /\ val (sm2_fn_neg a) = (- val a) mod sm2_n) /\
  (forall c, bn c -> fn (sm2_fn_mul a c) /\ val (sm2_fn_mul a c) = (val a * val c) mod sm2_n) /\
  (fn (sm2_fn_exp a e) /\ val (sm2_fn_exp a e) = (val a ^ val e) mod sm2_n) /\
  (fn (sm2_fn_inv a) /\ val (sm2_fn_inv a) = (val a ^ (sm2_n - 2)) mod sm2_n) /\
  (forall x c, bn x -> bn c -> val x * val c < sm2_n * 2 ^ 256 ->
     fn (sm2_fn_mul x c) /\ val (sm2_fn_mul x c) = (val x * val c) mod sm2_n).
Proof.
  intros Ha Hb He.
  refine (conj (fn_add_spec a b Ha Hb) (conj (fn_sub_spec a b Ha Hb) (conj (fn_neg_spec a Ha) (conj _
    (conj (fn_exp_spec a e Ha He) (conj (fn_inv_spec a Ha) fn_mul_spec)))))).
  intros c Hc. apply (fn_mul_spec a c (below_bn _ _ Ha) Hc). pose proof (fn_range a Ha).
  destruct Hc as [Lc Hc]. pose proof (val_range c Hc) as Rc. rewrite Lc in Rc. change (Z.of_nat 8) with 8 in Rc. nia.
Qed.

Definition ex_a : SM2_BN := [0x39d54122; 0x53bbf409; 0x21c6052b; 0x7203df6b; 0xffffffff; 0xffffffff; 0xffffffff; 0xfffffffe].
Definition ex_b : SM2_BN := [5; 0; 0; 0; 0; 0; 0; 0x80000000].

Lemma ex_a_fn : fn ex_a.
Proof. split; [by apply bn_check | done]. Qed.

Lemma ex_b_fn : fn ex_b.
Proof. split; [by apply bn_check | done]. Qed.

Lemma sm2_fn_exact_witness :
  (forall c, bn c -> val (sm2_fn_mul ex_a c) = (val ex_a * val c) mod sm2_n) /\
  sm2_fn_mul ex_a ex_b = sm2_fn_neg ex_b /\ val (sm2_fn_inv ex_a) = (val ex_a ^ (sm2_n - 2)) mod sm2_n.
Proof.
  pose proof (sm2_fn_exact ex_a ex_b SM2_ONE ex_a_fn ex_b_fn (bn_words _ (below_bn _ _ fn_one))) as (_ & _ & _ & H4 & _ & [_ H6] & _).
  split; [intros c Hc; exact (proj2 (H4 c Hc)) | split; [vm_compute; reflexivity | exact H6]].
Defined.
