(* ===== verification/Sm2Prime.v ===== *)
(** The modulus and the order of SM2 are prime: Pocklington's criterion, with
    certificates that are checked by computation. *)
From S2P Require Import Prelude.
From S2P Require Export Sm2Fp Sm2Fn.
From Stdlib Require Import Znumtheory Finite.
From Bignums Require Import BigN.
From stdpp Require Import base list option.
#[global] Open Scope Z_scope.

(** ** Fermat's little theorem *)

Definition product (l : list Z) : Z := fold_right Z.mul 1 l.

Lemma product_perm l l' : l ≡ₚ l' -> product l = product l'.
Proof.
  unfold product. induction 1 as [| x l l' _ IH | x y l | l1 l2 l3 _ I1 _ I2]; cbn [fold_right]; [done | by rewrite IH | ring | congruence].
Qed.

Lemma product_map r (f : Z -> Z) a l :
  (forall x, congr r (f x) (a * x)) -> congr r (product (List.map f l)) (a ^ Z.of_nat (length l) * product l).
Proof.
  intros H. induction l as [| x l IH]; [done |]. cbn [List.map product fold_right length]. unfold product in *.
  rewrite Nat2Z.inj_succ, Z.pow_succ_r by lia. rewrite H, IH. apply congr_eq. ring.
Qed.

Definition residues (r : Z) : list Z := List.map Z.of_nat (List.seq 1 (Z.to_nat (r - 1))).

Lemma residues_in r x : x ∈ residues r <-> 0 < x < r.
Proof.
  unfold residues. rewrite list_elem_of_In, List.in_map_iff. split.
  - intros (k & <- & H). apply List.in_seq in H. lia.
  - intros H. exists (Z.to_nat x). rewrite List.in_seq. lia.
Qed.

Lemma residues_nodup r : NoDup (residues r).
Proof.
  unfold residues. apply NoDup_ListNoDup. apply Finite.Injective_map_NoDup; [intros x y; lia | apply List.seq_NoDup].
Qed.

Lemma length_residues r : length (residues r) = Z.to_nat (r - 1).
Proof. unfold residues. by rewrite List.length_map, List.length_seq. Qed.

Lemma rel_prime_product r l : Forall (rel_prime r) l -> rel_prime r (product l).
Proof.
  induction 1 as [| x l Hx Hl IH]; cbn [product fold_right]; [apply rel_prime_1 || (apply rel_prime_sym, rel_prime_1) | by apply rel_prime_mult].
Qed.

Lemma fermat r a : prime r -> ~ (r | a) -> congr r (a ^ (r - 1)) 1.
Proof.
  intros Hr Ha. pose proof (prime_ge_2 r Hr) as R2. set (f := fun x => (a * x) mod r).
  assert (forall x, 0 < x < r -> ~ (r | x)) as ND by (intros x Hx D; apply Z.divide_pos_le in D; lia).
  assert (residues r ≡ₚ List.map f (residues r)) as P.
  { symmetry. apply submseteq_length_Permutation; [| by rewrite List.length_map]. apply NoDup_submseteq.
    - apply NoDup_ListNoDup. apply List.NoDup_map_NoDup_ForallPairs; [| apply NoDup_ListNoDup, residues_nodup].
      intros x y Hx Hy E. apply list_elem_of_In, residues_in in Hx, Hy. unfold f in E.
      assert (r | a * (x - y)) as D.
      { apply Z.mod_divide; [lia |]. rewrite Z.mul_sub_distr_l, Zminus_mod, E, Z.sub_diag. by apply Z.mod_0_l; lia. }
      apply prime_mult in D as [D | D]; [done | | done]. destruct (Z.lt_trichotomy x y) as [L | [L | L]]; [| done |].
      + exfalso. apply (ND (y - x)); [lia |]. replace (y - x) with (- (x - y)) by lia. by apply Z.divide_opp_r.
      + exfalso. apply (ND (x - y)); [lia | done].
    - intros y Hy. apply list_elem_of_In, List.in_map_iff in Hy as (x & <- & Hx). apply list_elem_of_In, residues_in in Hx.
      apply residues_in. unfold f. pose proof (Z.mod_pos_bound (a * x) r ltac:(lia)) as B. destruct (decide ((a * x) mod r = 0)) as [E | E]; [| lia].
      exfalso. apply Z.mod_divide in E; [| lia]. apply prime_mult in E as [E | E]; [done | by apply (ND x) | done]. }
  assert (congr r (a ^ (r - 1) * product (residues r)) (1 * product (residues r))) as C.
  { rewrite Z.mul_1_l. transitivity (product (List.map f (residues r))); [| by rewrite <- (product_perm _ _ P)].
    rewrite (product_map r f a) by (intros x; apply congr_mod). rewrite length_residues, Z2Nat.id by lia. done. }
  assert (rel_prime r (product (residues r))) as RP.
  { apply rel_prime_product. apply List.Forall_forall. intros x Hx. apply list_elem_of_In, residues_in in Hx.
    apply rel_prime_sym, rel_prime_le_prime; [done | lia]. }
  unfold congr in C |- *. apply Z.cong_iff_0 in C. apply Z.mod_divide in C; [| lia].
  rewrite <- Z.mul_sub_distr_r in C. rewrite Z.mul_comm in C. apply Gauss in C; [| done].
  apply Z.cong_iff_0. apply Z.mod_divide; [lia | done].
Qed.

(** ** Pocklington's criterion *)

(** A number that is not prime has a prime divisor that is not above its square
    root. *)
Lemma prime_divisor n : 1 < n -> exists r, prime r /\ (r | n).
Proof.
  intros H. assert (0 <= n) as H0 by lia. revert n H0 H. apply (Zlt_0_ind (fun n => 1 < n -> exists r, prime r /\ (r | n))).
  intros n IH _ H. destruct (prime_dec n) as [P | P]; [exists n; split; [done | apply Z.divide_refl] |].
  apply not_prime_divide in P as (d & Hd & D); [| done]. destruct (IH d ltac:(lia) ltac:(lia)) as (r & R1 & R2).
  exists r. split; [done | by apply Z.divide_trans with d].
Qed.

Lemma prime_sqrt n : 1 < n -> (forall r, prime r -> (r | n) -> n < r * r) -> prime n.
Proof.
  intros H Hr. destruct (prime_dec n) as [P | P]; [done |]. exfalso. apply not_prime_divide in P as (d & Hd & e & E); [| done].
  assert (exists d', 1 < d' /\ (d' | n) /\ d' * d' <= n) as (d' & D1 & D2 & D3).
  { destruct (Z_le_gt_dec d e) as [L | L]; [exists d; split_and!; [lia | by exists e | nia] | exists e].
    split_and!; [nia | exists d; lia | nia]. }
  destruct (prime_divisor d' D1) as (r & R1 & R2). specialize (Hr r R1 (Z.divide_trans _ _ _ R2 D2)).
  apply Z.divide_pos_le in R2; [| lia]. pose proof (prime_ge_2 r R1). nia.
Qed.

Lemma congr_pow_mul r a m u : 0 <= m -> 0 <= u -> congr r (a ^ m) 1 -> congr r (a ^ (m * u)) 1.
Proof. intros Hm Hu H. rewrite Z.pow_mul_r by done. rewrite H. by rewrite Z.pow_1_l. Qed.

Lemma congr_cancel r x y : congr r y 1 -> congr r (x * y) 1 -> congr r x 1.
Proof. intros Hy H. rewrite Hy, Z.mul_1_r in H. done. Qed.

Lemma congr_pow_gcd r a m k : 0 <= m -> 0 <= k -> congr r (a ^ m) 1 -> congr r (a ^ k) 1 -> congr r (a ^ Z.gcd m k) 1.
Proof.
  intros Hm Hk H1 H2. destruct (Z.gcd_bezout m k _ eq_refl) as (u & v & B). pose proof (Z.gcd_nonneg m k) as G. set (g := Z.gcd m k) in *. clearbody g.
  destruct (Z_le_gt_dec 0 u) as [U | U], (Z_le_gt_dec 0 v) as [V | V].
  - replace g with (m * u + k * v) by lia. rewrite Z.pow_add_r by nia. by rewrite !congr_pow_mul.
  - assert (a ^ (m * u) = a ^ g * a ^ (k * - v)) as E by (rewrite <- Z.pow_add_r by nia; f_equal; lia).
    apply (congr_cancel r _ (a ^ (k * - v))); [apply congr_pow_mul; [done | lia | done] | rewrite <- E; by apply congr_pow_mul].
  - assert (a ^ (k * v) = a ^ g * a ^ (m * - u)) as E by (rewrite <- Z.pow_add_r by nia; f_equal; lia).
    apply (congr_cancel r _ (a ^ (m * - u))); [apply congr_pow_mul; [done | lia | done] | rewrite <- E; by apply congr_pow_mul].
  - assert (g = 0) as -> by nia. done.
Qed.

Lemma pocklington_divisor n a q r :
  1 < n -> prime q -> (q | n - 1) -> a ^ (n - 1) mod n = 1 -> Z.gcd (a ^ ((n - 1) / q) mod n - 1) n = 1 ->
  prime r -> (r | n) -> (q | r - 1).
Proof.
  intros Hn Hq [M EM] Ha Hg Hr Dr. pose proof (prime_ge_2 q Hq). pose proof (prime_ge_2 r Hr).
  rewrite EM, Z.div_mul in Hg by lia. assert (0 <= M) as HM by nia.
  assert (congr r (a ^ (n - 1)) 1) as A1.
  { unfold congr. rewrite <- (Z.mod_mod_divide _ n r) by done. by rewrite Ha. }
  destruct (Znumtheory.Zdivide_dec q (r - 1)) as [D | D]; [done | exfalso].
  assert (congr r (a ^ (r - 1)) 1) as A2.
  { apply fermat; [done |]. intros [c Ec]. assert (congr r a 0) as A0 by (unfold congr; rewrite Ec, Z.mod_mul; [by rewrite Z.mod_0_l by lia | lia]).
    rewrite A0, Z.pow_0_l in A1 by lia. unfold congr in A1. rewrite Z.mod_0_l, Z.mod_1_l in A1; lia. }
  pose proof (congr_pow_gcd r a (n - 1) (r - 1) ltac:(lia) ltac:(lia) A1 A2) as A3. set (g := Z.gcd (n - 1) (r - 1)) in *.
  assert ((g | M)) as DM.
  { apply (Gauss g q M); [rewrite <- (Z.mul_comm M), <- EM; apply Z.gcd_divide_l |].
    apply rel_prime_sym, prime_rel_prime; [done |]. intros Dq. apply D. apply Z.divide_trans with g; [done | apply Z.gcd_divide_r]. }
  destruct DM as [c Ec]. pose proof (Z.gcd_nonneg (n - 1) (r - 1)) as G0. fold g in G0.
  assert (congr r (a ^ M) 1) as A4.
  { rewrite Ec, Z.mul_comm. apply congr_pow_mul; [done | | done]. destruct (decide (g = 0)); [| nia]. 
    assert (r - 1 = 0) by (eapply Z.gcd_eq_0_r; done). lia. }
  assert ((r | 1)) as D1.
  { rewrite <- Hg. apply Z.gcd_greatest; [| done]. apply Z.mod_divide; [lia |]. unfold congr in A4.
    rewrite Zminus_mod, (Z.mod_mod_divide _ n r) by done. rewrite A4, Z.sub_diag. apply Z.mod_0_l. lia. }
  apply Z.divide_pos_le in D1; lia.
Qed.

Lemma primes_divide l x : NoDup l -> Forall prime l -> Forall (fun q => (q | x)) l -> (product l | x).
Proof.
  unfold product. intros Hn Hp Hd. induction l as [| q l IH]; cbn [fold_right]; [apply Z.divide_1_l |].
  inversion_clear Hn as [| ? ? N1 N2]. apply Forall_cons_1 in Hp as [P1 P2]. apply Forall_cons_1 in Hd as [D1 D2].
  destruct D1 as [c ->]. rewrite (Z.mul_comm c q). apply Z.mul_divide_mono_l.
  assert (rel_prime (fold_right Z.mul 1 l) q) as RP.
  { apply rel_prime_sym. apply (rel_prime_product q l). apply List.Forall_forall. intros y Hy. apply prime_rel_prime; [done |].
    intros Dy. rewrite List.Forall_forall in P2. apply prime_div_prime in Dy; [| done | by apply P2]. subst. by apply N1, list_elem_of_In. }
  apply (Gauss _ q c); [| done]. rewrite Z.mul_comm. by apply IH.
Qed.

Lemma pocklington n a qs :
  1 < n -> NoDup qs -> Forall prime qs -> Forall (fun q => (q | n - 1)) qs -> n < product qs * product qs ->
  a ^ (n - 1) mod n = 1 -> Forall (fun q => Z.gcd (a ^ ((n - 1) / q) mod n - 1) n = 1) qs -> prime n.
Proof.
  intros Hn Hd Hp Hq HF Ha Hg. apply prime_sqrt; [done |]. intros r Hr Dr. pose proof (prime_ge_2 r Hr).
  assert ((product qs | r - 1)) as D.
  { apply primes_divide; [done | done |]. apply List.Forall_forall. intros q Hin. rewrite List.Forall_forall in Hp, Hq, Hg.
    apply (pocklington_divisor n a q r); auto. }
  apply Z.divide_pos_le in D; [| lia]. assert (0 <= product qs) as F0.
  { clear - Hp. unfold product. induction Hp as [| q l Hq Hl IH]; cbn; [lia |]. pose proof (prime_ge_2 q Hq). nia. }
  nia.
Qed.

(** ** Certificates *)

(** On arbitrary-precision integers of machine words. *)
Fixpoint powmod (n a : BigN.t) (e : positive) : BigN.t :=
  match e with
  | xH => BigN.modulo a n
  | xO e => let t := powmod n a e in BigN.modulo (BigN.mul t t) n
  | xI e => let t := powmod n a e in BigN.modulo (BigN.mul (BigN.modulo (BigN.mul t t) n) a) n
  end.

Lemma powmod_spec n a e : BigN.to_Z (powmod n a e) = BigN.to_Z a ^ Zpos e mod BigN.to_Z n.
Proof.
  set (n' := BigN.to_Z n). set (a' := BigN.to_Z a).
  assert (forall t k, 0 <= k -> t = a' ^ k mod n' -> (t * t) mod n' = a' ^ (2 * k) mod n') as G.
  { intros t k Hk ->. rewrite <- Zmult_mod, <- Z.pow_add_r by lia. do 2 f_equal. lia. }
  induction e as [e IH | e IH |]; cbn [powmod]; rewrite ?BigN.spec_modulo, ?BigN.spec_mul; fold n' a';
    [| by rewrite (G _ (Zpos e)) | by rewrite Z.pow_1_r].
  rewrite BigN.spec_modulo, BigN.spec_mul. fold n'.
  rewrite (G _ (Zpos e)) by done. rewrite (Z.mul_comm _ a'), Zmult_mod, Zmod_mod, <- Zmult_mod.
  rewrite <- Z.pow_succ_r by lia. reflexivity.
Qed.

(** A number, the base, and the prime factors of the number less one that are
    used. *)
Record certificate := cert { c_n : Z; c_a : Z; c_qs : list Z }.

Definition big (x : Z) : BigN.t := BigN.of_N (Z.to_N x).

Definition pow_to (n a e : Z) : Z :=
  match e with Zpos e => BigN.to_Z (powmod (big n) (big a) e) | _ => 1 mod n end.

(** [known] are numbers that are prime already. *)
(** [a] to the power [n - 1], from its power [(n - 1) / q]. *)
Definition fermat_test (n q t : Z) : bool := pow_to n t q =? 1.

Definition check (known : list Z) (c : certificate) : bool :=
  let '(cert n a qs) := c in
  let ts := List.map (fun q => pow_to n a ((n - 1) / q)) qs in
  (1 <? n) && (0 <=? a) && bool_decide (NoDup qs) && List.forallb (fun q => List.existsb (Z.eqb q) known) qs &&
  List.forallb (fun q => (n - 1) mod q =? 0) qs && (n <? product qs * product qs) &&
  match qs, ts with q :: _, t :: _ => fermat_test n q t | _, _ => false end && List.forallb (fun t => Z.gcd (t - 1) n =? 1) ts.

(** Small numbers by trial division up to 100. *)
Definition check_small (n : Z) : bool :=
  (1 <? n) && (n <? 10000) && List.forallb (fun d => (n <=? d) || negb (n mod d =? 0)) (List.map Z.of_nat (List.seq 2 99)).

Fixpoint check_all (known : list Z) (l : list certificate) : bool :=
  match l with
  | [] => true
  | c :: l => (check_small (c_n c) || check known c) && check_all (c_n c :: known) l
  end.

Lemma check_small_prime n : check_small n = true -> prime n.
Proof.
  unfold check_small. rewrite !andb_true_iff. intros [[H1 H2] H]. apply prime_sqrt; [lia |]. intros r Hr Dr.
  pose proof (prime_ge_2 r Hr). destruct (Z_lt_le_dec 100 r); [nia |]. rewrite List.forallb_forall in H.
  specialize (H r). destruct (Z_lt_le_dec r n) as [L | L]; [| nia]. exfalso.
  assert (In r (List.map Z.of_nat (List.seq 2 99))) as Hin.
  { apply List.in_map_iff. exists (Z.to_nat r). rewrite List.in_seq. lia. }
  specialize (H Hin). apply Z.mod_divide in Dr; [| lia]. rewrite Dr in H. cbn in H. lia.
Qed.

Lemma big_spec x : 0 <= x -> BigN.to_Z (big x) = x.
Proof. intros H. unfold big. by rewrite BigN.spec_of_N, Z2N.id. Qed.

Lemma pow_to_spec n a e : 0 <= n -> 0 <= a -> 0 <= e -> pow_to n a e = a ^ e mod n.
Proof.
  intros Hn Ha He. destruct e as [| e | e]; [done | | lia]. unfold pow_to. by rewrite powmod_spec, !big_spec.
Qed.

Lemma check_prime known c : Forall prime known -> check known c = true -> prime (c_n c).
Proof.
  destruct c as [n a qs]. intros Hk. unfold check. rewrite !andb_true_iff, !List.forallb_forall, bool_decide_eq_true.
  intros (((((((H1 & Ha) & H2) & H3) & H4) & H5) & H6) & H7). cbn [c_n]. rewrite List.Forall_forall in Hk.
  assert (forall q, In q qs -> prime q) as Hp.
  { intros q Hq. specialize (H3 q Hq). apply List.existsb_exists in H3 as (q' & K1 & K2). apply Z.eqb_eq in K2 as <-. by apply Hk. }
  assert (1 < n) as Hn by lia. apply (pocklington n a qs); [done | done | by apply List.Forall_forall | | lia | |].
  - apply List.Forall_forall. intros q Hq. specialize (H4 q Hq). pose proof (prime_ge_2 q (Hp q Hq)). apply Z.mod_divide; lia.
  - destruct qs as [| q qs]; [done |]. cbn [List.map] in H6. unfold fermat_test in H6. apply Z.eqb_eq in H6.
    specialize (H4 q (or_introl eq_refl)). pose proof (prime_ge_2 q (Hp q (or_introl eq_refl))) as Q2.
    apply Z.eqb_eq, Z.mod_divide in H4 as [M EM]; [| lia]. rewrite EM, Z.div_mul in H6 by lia.
    assert (0 <= M) by nia. rewrite (pow_to_spec n a M) in H6 by lia.
    rewrite pow_to_spec in H6 by (try lia; apply Z.mod_pos_bound; lia). rewrite EM, Z.pow_mul_r by lia. rewrite <- H6.
    apply (congr_pow n); [symmetry; apply congr_mod | done].
  - apply List.Forall_forall. intros q Hq. pose proof (prime_ge_2 q (Hp q Hq)).
    specialize (H7 (pow_to n a ((n - 1) / q)) (List.in_map (fun q => pow_to n a ((n - 1) / q)) qs q Hq)).
    rewrite pow_to_spec in H7 by (try lia; apply Z.div_pos; lia). apply Z.eqb_eq in H7.
    exact H7.
Qed.

Lemma check_all_prime known l : Forall prime known -> check_all known l = true -> Forall (fun c => prime (c_n c)) l.
Proof.
  revert known. induction l as [| c l IH]; intros known Hk H; [by apply Forall_nil |]. cbn [check_all] in H.
  apply andb_prop in H as [H1 H2]. assert (prime (c_n c)) as P.
  { apply orb_prop in H1 as [H1 | H1]; [by apply check_small_prime | by apply (check_prime known)]. }
  apply Forall_cons; [done |]. apply (IH (c_n c :: known)); [by apply Forall_cons | done].
Qed.

Definition sm2_certificates : list certificate :=
  [cert 2273 0 [];
   cert 4547 2 [2273];
   cert 363761 2 [4547];
   cert 29 0 [];
   cert 17 0 [];
   cert 34511 5 [29; 17];
   cert 4773264379806847 2 [363761; 34511];
   cert 743 0 [];
   cert 54983 2 [743];
   cert 3079049 2 [54983];
   cert 6158099 2 [3079049];
   cert 66013261729388519804782124120027 2 [4773264379806847; 6158099];
   cert 97 0 [];
   cert 79 0 [];
   cert 8214737 2 [97; 79];
   cert 2473 0 [];
   cert 417514796639753 2 [8214737; 2473];
   cert 115792089210356248756420345214020892766250353991924191454421193933289684991999 2 [66013261729388519804782124120027; 417514796639753];
   cert 5 0 [];
   cert 5801 2 [29; 5];
   cert 9061163 2 [5801];
   cert 5636460199499 2 [9061163];
   cert 101456283590983 2 [5636460199499];
   cert 83 0 [];
   cert 13 0 [];
   cert 84163 2 [83; 13];
   cert 2566129871 2 [84163];
   cert 18120927127286907576013935251791662753637 2 [101456283590983; 2566129871];
   cert 125197554539772723432468576818475380947471091418362477724521 2 [18120927127286907576013935251791662753637];
   cert 115792089210356248756420345214020892766061623724957744567843809356293439045923 2 [125197554539772723432468576818475380947471091418362477724521]].

Lemma certificates_ok : check_all [] sm2_certificates = true.
Proof. vm_compute. reflexivity. Qed.

Lemma certified x : In x (List.map c_n sm2_certificates) -> prime x.
Proof.
  intros H. pose proof (check_all_prime [] sm2_certificates (Forall_nil_2 _) certificates_ok) as P.
  rewrite List.Forall_forall in P. apply List.in_map_iff in H as (c & <- & Hc). by apply P.
Qed.

Lemma sm2_p_prime : prime sm2_p.
Proof. apply certified. repeat (first [left; reflexivity | right]). Qed.

Lemma sm2_n_prime : prime sm2_n.
Proof. apply certified. repeat (first [left; reflexivity | right]). Qed.

(** ** Inverses *)

Lemma prime_inverse m a : prime m -> 0 < a < m -> (a * ((a ^ (m - 2)) mod m)) mod m = 1.
Proof.
  intros Hm Ha. pose proof (prime_ge_2 m Hm). rewrite Z.mul_mod_idemp_r by lia. rewrite <- Z.pow_succ_r by lia.
  replace (Z.succ (m - 2)) with (m - 1) by lia. rewrite (fermat m a Hm); [apply Z.mod_1_l; lia |].
  intros D. apply Z.divide_pos_le in D; lia.
Qed.

(** C18: The two moduli are prime numbers, so the inverses are inverses: the
    result of [sm2_fp_inv] or [sm2_fn_inv] times the argument is one, unless the
    argument is zero, whose "inverse" is zero. *)
Theorem sm2_inverses :
  prime (val SM2_P) /\ prime (val SM2_N) /\
  (forall a, fp a -> val (sm2_fp_mul a (sm2_fp_inv a)) = if val a =? 0 then 0 else 1) /\
  (forall a, fn a -> val (sm2_fn_mul a (sm2_fn_inv a)) = if val a =? 0 then 0 else 1).
Proof.
  split; [exact sm2_p_prime |]. split; [exact sm2_n_prime |]. split; intros a Ha.
  - pose proof (fp_range a Ha). destruct (fp_inv_spec a Ha) as [I1 I2].
    destruct (fp_mul_spec a (sm2_fp_inv a) (below_bn _ _ Ha) (below_bn _ _ I1)) as [_ ->]. rewrite I2.
    destruct (Z.eqb_spec (val a) 0) as [-> | N]; [by rewrite Z.mul_0_l | apply prime_inverse; [exact sm2_p_prime | lia]].
  - pose proof (fn_range a Ha). destruct (fn_inv_spec a Ha) as [I1 I2].
    destruct (fn_mul_spec a (sm2_fn_inv a) (below_bn _ _ Ha) (below_bn _ _ I1) (fn_product _ _ Ha I1)) as [_ ->]. rewrite I2.
    destruct (Z.eqb_spec (val a) 0) as [-> | N]; [by rewrite Z.mul_0_l | apply prime_inverse; [exact sm2_n_prime | lia]].
Qed.
