(* ===== verification/Sm2Point.v ===== *)
(** Points of the curve of SM2 in Jacobian coordinates (src/sm2_alg.c of GmSSL):
    the group operations and what they compute. *)
From S2P Require Import Prelude.
From S2P Require Export Sm2Fp.
From stdpp Require Import base list option.
From Stdlib Require Import Ring.
#[global] Open Scope Z_scope.

Record SM2_JACOBIAN_POINT := mk_point { jX : SM2_BN; jY : SM2_BN; jZ : SM2_BN }.

Definition SM2_G : SM2_JACOBIAN_POINT :=
  mk_point
    [0x334c74c7; 0x715a4589; 0xf2660be1; 0x8fe30bbf; 0x6a39c994; 0x5f990446; 0x1f198119; 0x32c4ae2c]
    [0x2139f0a0; 0x02df32e5; 0xc62a4740; 0xd0a9877c; 0x6b692153; 0x59bdcee3; 0xf4f6779c; 0xbc3736a2]
    [1; 0; 0; 0; 0; 0; 0; 0].

(** [sm2_jacobian_point_init], which is also [sm2_jacobian_point_set_infinity]. *)
Definition sm2_jacobian_point_init : SM2_JACOBIAN_POINT := mk_point SM2_ONE SM2_ONE (repeat 0 8).

Definition sm2_jacobian_point_is_at_infinity (P : SM2_JACOBIAN_POINT) : bool := sm2_bn_is_zero (jZ P).

Definition sm2_jacobian_point_set_xy (x y : SM2_BN) : SM2_JACOBIAN_POINT := mk_point x y SM2_ONE.

Definition sm2_jacobian_point_get_xy (P : SM2_JACOBIAN_POINT) : SM2_BN * SM2_BN :=
  if sm2_bn_is_one (jZ P) then (jX P, jY P)
  else
    let z_inv := sm2_fp_inv (jZ P) in
    let y := sm2_fp_mul (jY P) z_inv in
    let z_inv := sm2_fp_sqr z_inv in
    let x := sm2_fp_mul (jX P) z_inv in
    let y := sm2_fp_mul y z_inv in
    (x, y).

(** [true] is [1]. *)
Definition sm2_jacobian_point_is_on_curve (P : SM2_JACOBIAN_POINT) : bool :=
  let '(t0, t1) :=
    if sm2_bn_is_one (jZ P) then
      let t0 := sm2_fp_sqr (jY P) in
      let t0 := sm2_fp_add t0 (jX P) in
      let t0 := sm2_fp_add t0 (jX P) in
      let t0 := sm2_fp_add t0 (jX P) in
      let t1 := sm2_fp_sqr (jX P) in
      let t1 := sm2_fp_mul t1 (jX P) in
      let t1 := sm2_fp_add t1 SM2_B in
      (t0, t1)
    else
      let t0 := sm2_fp_sqr (jY P) in
      let t1 := sm2_fp_sqr (jZ P) in
      let t2 := sm2_fp_sqr t1 in
      let t1 := sm2_fp_mul t1 t2 in
      let t1 := sm2_fp_mul t1 SM2_B in
      let t2 := sm2_fp_mul t2 (jX P) in
      let t0 := sm2_fp_add t0 t2 in
      let t0 := sm2_fp_add t0 t2 in
      let t0 := sm2_fp_add t0 t2 in
      let t2 := sm2_fp_sqr (jX P) in
      let t2 := sm2_fp_mul t2 (jX P) in
      let t1 := sm2_fp_add t1 t2 in
      (t0, t1) in
  sm2_bn_cmp t0 t1 =? 0.

Definition sm2_jacobian_point_neg (P : SM2_JACOBIAN_POINT) : SM2_JACOBIAN_POINT :=
  mk_point (jX P) (sm2_fp_neg (jY P)) (jZ P).

Definition sm2_jacobian_point_dbl (P : SM2_JACOBIAN_POINT) : SM2_JACOBIAN_POINT :=
  let '(mk_point X1 Y1 Z1) := P in
  if sm2_jacobian_point_is_at_infinity P then P
  else
    let T1 := sm2_fp_sqr Z1 in
    let T2 := sm2_fp_sub X1 T1 in
    let T1 := sm2_fp_add X1 T1 in
    let T2 := sm2_fp_mul T2 T1 in
    let T2 := sm2_fp_tri T2 in
    let Y3 := sm2_fp_dbl Y1 in
    let Z3 := sm2_fp_mul Y3 Z1 in
    let Y3 := sm2_fp_sqr Y3 in
    let T3 := sm2_fp_mul Y3 X1 in
    let Y3 := sm2_fp_sqr Y3 in
    let Y3 := sm2_fp_div2 Y3 in
    let X3 := sm2_fp_sqr T2 in
    let T1 := sm2_fp_dbl T3 in
    let X3 := sm2_fp_sub X3 T1 in
    let T1 := sm2_fp_sub T3 X3 in
    let T1 := sm2_fp_mul T1 T2 in
    let Y3 := sm2_fp_sub T1 Y3 in
    mk_point X3 Y3 Z3.

(** [assert(sm2_bn_is_one(Q->Z))] aborts: [None]. *)
Definition sm2_jacobian_point_add (P Q : SM2_JACOBIAN_POINT) : option SM2_JACOBIAN_POINT :=
  let '(mk_point X1 Y1 Z1) := P in
  let '(mk_point x2 y2 _) := Q in
  if sm2_jacobian_point_is_at_infinity Q then Some P
  else if sm2_jacobian_point_is_at_infinity P then Some Q
  else if negb (sm2_bn_is_one (jZ Q)) then None
  else
    let T1 := sm2_fp_sqr Z1 in
    let T2 := sm2_fp_mul T1 Z1 in
    let T1 := sm2_fp_mul T1 x2 in
    let T2 := sm2_fp_mul T2 y2 in
    let T1 := sm2_fp_sub T1 X1 in
    let T2 := sm2_fp_sub T2 Y1 in
    if sm2_bn_is_zero T1 then
      if sm2_bn_is_zero T2 then Some (sm2_jacobian_point_dbl (sm2_jacobian_point_set_xy x2 y2))
      else Some sm2_jacobian_point_init
    else
      let Z3 := sm2_fp_mul Z1 T1 in
      let T3 := sm2_fp_sqr T1 in
      let T4 := sm2_fp_mul T3 T1 in
      let T3 := sm2_fp_mul T3 X1 in
      let T1 := sm2_fp_dbl T3 in
      let X3 := sm2_fp_sqr T2 in
      let X3 := sm2_fp_sub X3 T1 in
      let X3 := sm2_fp_sub X3 T4 in
      let T3 := sm2_fp_sub T3 X3 in
      let T3 := sm2_fp_mul T3 T2 in
      let T4 := sm2_fp_mul T4 Y1 in
      let Y3 := sm2_fp_sub T3 T4 in
      Some (mk_point X3 Y3 Z3).

Definition sm2_jacobian_point_sub (P Q : SM2_JACOBIAN_POINT) : option SM2_JACOBIAN_POINT :=
  let T := sm2_jacobian_point_neg Q in
  sm2_jacobian_point_add P T.

(** The loop over the bits of the scalar. *)
Definition mul_step (P : SM2_JACOBIAN_POINT) (Q : option SM2_JACOBIAN_POINT) (bit : bool) : option SM2_JACOBIAN_POINT :=
  match Q with
  | None => None
  | Some Q =>
      let Q := sm2_jacobian_point_dbl Q in
      if bit then sm2_jacobian_point_add Q P else Some Q
  end.

Definition sm2_jacobian_point_mul (k : SM2_BN) (P : SM2_JACOBIAN_POINT) : option SM2_JACOBIAN_POINT :=
  let P :=
    if negb (sm2_bn_is_one (jZ P)) then
      let '(x, y) := sm2_jacobian_point_get_xy P in sm2_jacobian_point_set_xy x y
    else P in
  List.fold_left (mul_step P) (sm2_bn_to_bits k) (Some sm2_jacobian_point_init).

Definition sm2_jacobian_point_to_bytes (P : SM2_JACOBIAN_POINT) : list Z :=
  let '(x, y) := sm2_jacobian_point_get_xy P in
  sm2_bn_to_bytes x ++ sm2_bn_to_bytes y.

Definition sm2_jacobian_point_from_bytes (in_ : list Z) : SM2_JACOBIAN_POINT :=
  mk_point (sm2_bn_from_bytes (take 32 in_)) (sm2_bn_from_bytes (drop 32 in_)) (sm2_bn_set_word 1).

Definition sm2_jacobian_point_mul_generator (k : SM2_BN) : option SM2_JACOBIAN_POINT := sm2_jacobian_point_mul k SM2_G.

(** R = t * P + s * G *)
Definition sm2_jacobian_point_mul_sum (t : SM2_BN) (P : SM2_JACOBIAN_POINT) (s : SM2_BN) : option SM2_JACOBIAN_POINT :=
  match sm2_jacobian_point_mul_generator s, sm2_jacobian_point_mul t P with
  | Some sG, Some R =>
      let '(x, y) := sm2_jacobian_point_get_xy R in
      let R := sm2_jacobian_point_set_xy x y in
      sm2_jacobian_point_add sG R
  | _, _ => None
  end.

(** [sm2_bn_from_hex] fails without a write and the result is not looked at: the
    coordinate of [P] stays what it was. *)
Definition sm2_jacobian_point_from_hex (P : SM2_JACOBIAN_POINT) (hex : list Z) : SM2_JACOBIAN_POINT :=
  mk_point (default (jX P) (sm2_bn_from_hex (take 64 hex))) (default (jY P) (sm2_bn_from_hex (drop 64 hex))) SM2_ONE.

(** [T] is what the local variable holds at the start. *)
Definition sm2_jacobian_point_equ_hex (T P : SM2_JACOBIAN_POINT) (hex : list Z) : bool :=
  let '(x, y) := sm2_jacobian_point_get_xy P in
  let T := sm2_jacobian_point_from_hex T hex in
  (sm2_bn_cmp x (jX T) =? 0) && (sm2_bn_cmp y (jY T) =? 0).

(** ** The ring modulo the prime *)

Abbreviation eqp := (congr sm2_p).

Lemma eqp_ring : ring_theory 0 1 Z.add Z.mul Z.sub Z.opp eqp.
Proof. split; intros; apply congr_eq; ring. Qed.

Lemma eqp_ring_ext : ring_eq_ext Z.add Z.mul Z.opp eqp.
Proof. split; [apply congr_add | apply congr_mul | apply congr_opp]. Qed.

Lemma eqp_morph : ring_morph 0 1 Z.add Z.mul Z.sub Z.opp eqp 0 1 Z.add Z.mul Z.sub Z.opp Z.eqb (fun x => x).
Proof. split; try done. intros x y H. apply Z.eqb_eq in H. by subst. Qed.

Ltac eqp_const t := lazymatch isZcst t with true => t | _ => constr:(InitialRing.NotConstant) end.

Add Ring eqp_ring : eqp_ring (setoid (congr_equiv sm2_p) eqp_ring_ext, morphism eqp_morph, constants [eqp_const]).

Lemma eqp_half a b : eqp (2 * a) (2 * b) -> eqp a b.
Proof.
  intros H. assert (eqp (2 * ((sm2_p + 1) / 2)) 1) as I by reflexivity.
  transitivity ((sm2_p + 1) / 2 * (2 * a)); [rewrite Z.mul_assoc, (Z.mul_comm _ 2), I; ring | rewrite H].
  rewrite Z.mul_assoc, (Z.mul_comm _ 2), I. ring.
Qed.

(** The operations as congruences. *)
Lemma eq_eqp v x : val v = x mod sm2_p -> eqp (val v) x.
Proof. intros ->. apply congr_mod. Qed.

Lemma mul_eqp a b : fp a -> fp b -> fp (sm2_fp_mul a b) /\ eqp (val (sm2_fp_mul a b)) (val a * val b).
Proof. intros [Ha _] [Hb _]. destruct (fp_mul_spec a b Ha Hb) as [H1 H2]. exact (conj H1 (eq_eqp _ _ H2)). Qed.

Lemma sqr_eqp a : fp a -> fp (sm2_fp_sqr a) /\ eqp (val (sm2_fp_sqr a)) (val a * val a).
Proof. intros [Ha _]. destruct (fp_sqr_spec a Ha) as [H1 H2]. exact (conj H1 (eq_eqp _ _ H2)). Qed.

Lemma add_eqp a b : fp a -> fp b -> fp (sm2_fp_add a b) /\ eqp (val (sm2_fp_add a b)) (val a + val b).
Proof. intros Ha Hb. destruct (fp_add_spec a b Ha Hb) as [H1 H2]. exact (conj H1 (eq_eqp _ _ H2)). Qed.

Lemma sub_eqp a b : fp a -> fp b -> fp (sm2_fp_sub a b) /\ eqp (val (sm2_fp_sub a b)) (val a - val b).
Proof. intros Ha Hb. destruct (fp_sub_spec a b Ha Hb) as [H1 H2]. exact (conj H1 (eq_eqp _ _ H2)). Qed.

Lemma dbl_eqp a : fp a -> fp (sm2_fp_dbl a) /\ eqp (val (sm2_fp_dbl a)) (2 * val a).
Proof. intros Ha. destruct (fp_dbl_spec a Ha) as [H1 H2]. exact (conj H1 (eq_eqp _ _ H2)). Qed.

Lemma tri_eqp a : fp a -> fp (sm2_fp_tri a) /\ eqp (val (sm2_fp_tri a)) (3 * val a).
Proof. intros Ha. destruct (fp_tri_spec a Ha) as [H1 H2]. exact (conj H1 (eq_eqp _ _ H2)). Qed.

Lemma div2_eqp a : fp a -> fp (sm2_fp_div2 a) /\ eqp (2 * val (sm2_fp_div2 a)) (val a).
Proof.
  intros Ha. destruct (fp_div2_spec a Ha) as [H1 H2]. split; [exact H1 |]. unfold congr. rewrite H2. symmetry. apply Z.mod_small. by apply fp_range.
Qed.

Lemma let_fp {A} (post : A -> Prop) (body : SM2_BN -> A) e (R : SM2_BN -> Prop) :
  R e -> (forall v, R v -> post (body v)) -> post (let x := e in body x).
Proof. intros H G. exact (G e H). Qed.

(** One step of a computation on reduced numbers: the next variable is known by
    its congruence. *)
Ltac fp_step :=
  lazymatch goal with
  | |- ?post (let x := ?e in @?body x) =>
      let go R H := refine (let_fp post body e R H _); cbv beta; intros ? [? ?] in
      lazymatch e with
      | sm2_fp_mul ?a ?b => go (fun v => fp v /\ eqp (val v) (val a * val b)) (mul_eqp a b ltac:(assumption) ltac:(assumption))
      | sm2_fp_sqr ?a => go (fun v => fp v /\ eqp (val v) (val a * val a)) (sqr_eqp a ltac:(assumption))
      | sm2_fp_add ?a ?b => go (fun v => fp v /\ eqp (val v) (val a + val b)) (add_eqp a b ltac:(assumption) ltac:(assumption))
      | sm2_fp_sub ?a ?b => go (fun v => fp v /\ eqp (val v) (val a - val b)) (sub_eqp a b ltac:(assumption) ltac:(assumption))
      | sm2_fp_dbl ?a => go (fun v => fp v /\ eqp (val v) (2 * val a)) (dbl_eqp a ltac:(assumption))
      | sm2_fp_tri ?a => go (fun v => fp v /\ eqp (val v) (3 * val a)) (tri_eqp a ltac:(assumption))
      | sm2_fp_div2 ?a => go (fun v => fp v /\ eqp (2 * val v) (val a)) (div2_eqp a ltac:(assumption))
      | _ => change (post (body e)); cbv beta
      end
  end.

(** ** The curve *)

(** [Y^2 = X^3 - 3 X Z^4 + b Z^6] *)
Definition curve (x y z : Z) : Prop :=
  eqp (y * y) (x * x * x - 3 * x * (z * z * z * z) + val SM2_B * (z * z * z * z * z * z)).

Record on_curve (P : SM2_JACOBIAN_POINT) : Prop := {
  oc_x : fp (jX P); oc_y : fp (jY P); oc_z : fp (jZ P); oc_eq : curve (val (jX P)) (val (jY P)) (val (jZ P)) }.

(** Doubling and addition as polynomials. *)
Definition dbl_formula (x y z x3 y3 z3 : Z) : Prop :=
  let t := 3 * ((x - z * z) * (x + z * z)) in
  eqp z3 (2 * y * z) /\ eqp x3 (t * t - 8 * (y * y) * x) /\ eqp y3 (t * (4 * (y * y) * x - x3) - 8 * (y * y) * (y * y)).

Definition add_formula (x y z x2 y2 x3 y3 z3 : Z) : Prop :=
  let h := z * z * x2 - x in
  let r := z * z * z * y2 - y in
  eqp z3 (z * h) /\ eqp x3 (r * r - 2 * (h * h) * x - h * h * h) /\ eqp y3 (r * (h * h * x - x3) - h * h * h * y).

Lemma fp_words a : fp a -> words a.
Proof. intros [H _]. by apply bn_words. Qed.

Lemma fp_mod a x : fp a -> eqp (val a) x -> x mod sm2_p = val a.
Proof. intros Ha H. unfold congr in H. rewrite <- H. apply Z.mod_small. by apply fp_range. Qed.

Ltac to_integers :=
  repeat match goal with H : fp _ |- _ => clear H end;
  repeat match goal with H : eqp (val ?v) _ |- _ => generalize dependent (val v); intros end.

Definition dbl_post (P R : SM2_JACOBIAN_POINT) : Prop :=
  fp (jX R) /\ fp (jY R) /\ fp (jZ R) /\
  dbl_formula (val (jX P)) (val (jY P)) (val (jZ P)) (val (jX R)) (val (jY R)) (val (jZ R)).

Lemma point_dbl_spec P : fp (jX P) -> fp (jY P) -> fp (jZ P) -> val (jZ P) <> 0 ->
  dbl_post P (sm2_jacobian_point_dbl P).
Proof.
  destruct P as [x y z]. cbn [jX jY jZ]. intros Hx Hy Hz N.
  assert (sm2_jacobian_point_is_at_infinity (mk_point x y z) = false) as I.
  { unfold sm2_jacobian_point_is_at_infinity. rewrite is_zero_spec by exact (fp_words z Hz). by apply Z.eqb_neq. }
  cbv beta iota delta [sm2_jacobian_point_dbl]. rewrite I. clear I N.
  repeat fp_step. unfold dbl_post. cbn [jX jY jZ]. do 3 (split; [assumption |]).
  rewrite H14, H10 in H18.
  assert (eqp (val v9) (8 * (val y * val y) * (val y * val y))) as E9.
  { apply eqp_half. rewrite H20, H18. ring. }
  clear H20 H18. to_integers. unfold dbl_formula. cbv zeta.
  repeat split; ring [H0 H2 H4 H6 H8 H10 H12 H14 H16 E9 H22 H24 H26 H28 H30 H32].
Qed.

Lemma dbl_formula_curve x y z x3 y3 z3 : curve x y z -> dbl_formula x y z x3 y3 z3 -> curve x3 y3 z3.
Proof. unfold curve, dbl_formula. cbv zeta. intros C (H1 & H2 & H3). ring [C H1 H2 H3]. Qed.

Lemma add_formula_curve x y z x2 y2 x3 y3 z3 :
  curve x y z -> curve x2 y2 1 -> add_formula x y z x2 y2 x3 y3 z3 -> curve x3 y3 z3.
Proof.
  unfold curve, add_formula. cbv zeta. intros C C2 (H1 & H2 & H3).
  assert (eqp (y2 * y2) (x2 * x2 * x2 - 3 * x2 + val SM2_B)) as C3 by (rewrite C2; ring).
  ring [C C3 H1 H2 H3].
Qed.

Lemma dbl_on_curve P : on_curve P -> on_curve (sm2_jacobian_point_dbl P).
Proof.
  intros HP. pose proof HP as [Hx Hy Hz C]. destruct (sm2_jacobian_point_is_at_infinity P) eqn:I.
  { destruct P as [x y z]. cbv beta iota delta [sm2_jacobian_point_dbl]. by rewrite I. }
  unfold sm2_jacobian_point_is_at_infinity in I. rewrite is_zero_spec in I by exact (fp_words _ Hz). apply Z.eqb_neq in I.
  destruct (point_dbl_spec P Hx Hy Hz I) as (H1 & H2 & H3 & F). exact (Build_on_curve _ H1 H2 H3 (dbl_formula_curve _ _ _ _ _ _ C F)).
Qed.

Lemma neg_on_curve P : on_curve P -> on_curve (sm2_jacobian_point_neg P).
Proof.
  intros [Hx Hy Hz C]. destruct (fp_neg_spec (jY P) Hy) as [H1 H2]. split; cbn [sm2_jacobian_point_neg jX jY jZ]; try assumption.
  unfold curve in *. apply eq_eqp in H2. ring [C H2].
Qed.

Lemma is_one_spec a : bn a -> sm2_bn_is_one a = true <-> a = SM2_ONE.
Proof.
  intros [L _]. split; [| by intros ->]. do 8 (destruct a as [| ? a]; [done |]). destruct a; [| done].
  cbn [sm2_bn_is_one List.forallb]. rewrite !andb_true_iff, !Z.eqb_eq. intros ?. unfold SM2_ONE. repeat f_equal; tauto.
Qed.

Lemma fp_zero : fp (repeat 0 8).
Proof. split; [by apply bn_check | done]. Qed.

Lemma infinity_on_curve : on_curve sm2_jacobian_point_init.
Proof. split; [apply fp_one | apply fp_one | apply fp_zero | reflexivity]. Qed.

(** What holds of the result, which is there. *)
Definition returns {A} (post : A -> Prop) (r : option A) : Prop := match r with Some R => post R | None => False end.

(** The general case of the addition. *)
Lemma point_add_spec P Q : fp (jX P) -> fp (jY P) -> fp (jZ P) -> val (jZ P) <> 0 -> fp (jX Q) -> fp (jY Q) -> jZ Q = SM2_ONE ->
  returns (fun R =>
    if (val (jZ P) * val (jZ P) * val (jX Q) - val (jX P)) mod sm2_p =? 0 then
      if (val (jZ P) * val (jZ P) * val (jZ P) * val (jY Q) - val (jY P)) mod sm2_p =? 0
      then R = sm2_jacobian_point_dbl (sm2_jacobian_point_set_xy (jX Q) (jY Q))
      else R = sm2_jacobian_point_init
    else
      fp (jX R) /\ fp (jY R) /\ fp (jZ R) /\
      add_formula (val (jX P)) (val (jY P)) (val (jZ P)) (val (jX Q)) (val (jY Q)) (val (jX R)) (val (jY R)) (val (jZ R)))
    (sm2_jacobian_point_add P Q).
Proof.
  destruct P as [x y z], Q as [x2 y2 z2]. cbn [jX jY jZ]. intros Hx Hy Hz N Hx2 Hy2 ->.
  assert (sm2_jacobian_point_is_at_infinity (mk_point x y z) = false) as I.
  { unfold sm2_jacobian_point_is_at_infinity. rewrite is_zero_spec by exact (fp_words z Hz). by apply Z.eqb_neq. }
  cbv beta iota delta [sm2_jacobian_point_add]. rewrite I. change (sm2_jacobian_point_is_at_infinity (mk_point x2 y2 SM2_ONE)) with false.
  cbv beta iota delta [jZ]. change (negb (sm2_bn_is_one SM2_ONE)) with false. clear I N. cbv iota.
  do 6 fp_step. rewrite (is_zero_spec v3), (is_zero_spec v4) by (apply fp_words; assumption).
  rewrite (fp_mod v3) by (assumption || (rewrite H8, H4, H0; ring)).
  rewrite (fp_mod v4) by (assumption || (rewrite H10, H6, H2, H0; ring)).
  destruct (val v3 =? 0); [by destruct (val v4 =? 0) |].
  repeat fp_step. cbn [returns jX jY jZ]. do 3 (split; [assumption |]). to_integers. unfold add_formula. cbv zeta.
  repeat split; ring [H0 H2 H4 H6 H8 H10 H12 H14 H16 H18 H20 H22 H24 H26 H28 H30 H32 H34].
Qed.

Lemma is_at_infinity_spec P : fp (jZ P) -> sm2_jacobian_point_is_at_infinity P = (val (jZ P) =? 0).
Proof. intros H. unfold sm2_jacobian_point_is_at_infinity. apply is_zero_spec. by apply fp_words. Qed.

(** A point that can be the second operand of the addition: an affine one. *)
Definition affine (P : SM2_JACOBIAN_POINT) : Prop := on_curve P /\ jZ P = SM2_ONE.

Lemma set_xy_on_curve P : affine P -> sm2_jacobian_point_set_xy (jX P) (jY P) = P.
Proof. destruct P. intros [_ H]. cbn in *. by subst. Qed.

Lemma add_infinity P Q : affine Q -> on_curve P -> val (jZ P) = 0 -> sm2_jacobian_point_add P Q = Some Q.
Proof.
  intros [HQ H1] HP Hz. destruct P as [x y z], Q as [x2 y2 z2]. cbv beta iota delta [sm2_jacobian_point_add].
  rewrite !is_at_infinity_spec by (apply HP || apply HQ). rewrite Hz, H1. reflexivity.
Qed.

Lemma add_on_curve P Q : on_curve P -> affine Q -> returns on_curve (sm2_jacobian_point_add P Q).
Proof.
  intros HP AQ. destruct (Z.eq_dec (val (jZ P)) 0) as [Z0 | N].
  { rewrite (add_infinity P Q AQ HP Z0). apply AQ. }
  pose proof HP as [Hx Hy Hz C]. pose proof AQ as [[Hx2 Hy2 Hz2 C2] H1].
  pose proof (point_add_spec P Q Hx Hy Hz N Hx2 Hy2 H1) as G. destruct (sm2_jacobian_point_add P Q) as [R |]; [| done]. cbn [returns] in *.
  destruct (_ =? 0) in G; [destruct (_ =? 0) in G |].
  - rewrite (set_xy_on_curve Q AQ) in G. subst R. apply dbl_on_curve, AQ.
  - subst R. apply infinity_on_curve.
  - destruct G as (G1 & G2 & G3 & F). rewrite H1 in C2. exact (Build_on_curve _ G1 G2 G3 (add_formula_curve _ _ _ _ _ _ _ _ C C2 F)).
Qed.

(** ** The check of the equation *)

Definition sides (x y z : Z) (t : SM2_BN * SM2_BN) : Prop :=
  fp t.1 /\ fp t.2 /\ eqp (val t.1) (y * y + 3 * x * (z * z * z * z)) /\
  eqp (val t.2) (x * x * x + val SM2_B * (z * z * z * z * z * z)).

Lemma fp_b : fp SM2_B.
Proof. split; [by apply bn_check | done]. Qed.

Lemma cmp_fp a b : fp a -> fp b -> (sm2_bn_cmp a b =? 0) = (val a =? val b).
Proof.
  intros [[La Ha] _] [[Lb Hb] _]. unfold sm2_bn_cmp. rewrite cmp_rev by (done || lia).
  destruct (Z.eqb_spec (val a) (val b)) as [-> | N]; [by rewrite Z.sub_diag |]. apply Z.eqb_neq. rewrite Z.sgn_null_iff. lia.
Qed.

Lemma eqp_eq a b : fp a -> fp b -> eqp (val a) (val b) -> val a = val b.
Proof. intros Ha Hb H. pose proof (fp_mod a _ Ha H) as E. rewrite Z.mod_small in E by by apply fp_range. by symmetry. Qed.

Lemma is_on_curve_spec P : fp (jX P) -> fp (jY P) -> fp (jZ P) ->
  sm2_jacobian_point_is_on_curve P = true <-> curve (val (jX P)) (val (jY P)) (val (jZ P)).
Proof.
  destruct P as [x y z]. cbn [jX jY jZ]. intros Hx Hy Hz. pose proof fp_b as Hb. cbv beta delta [sm2_jacobian_point_is_on_curve jX jY jZ]. cbv iota beta.
  match goal with |- (let '(_, _) := ?t in _) = true <-> _ => assert (sides (val x) (val y) (val z) t) as G; [| destruct t as [t0 t1]] end.
  { destruct (sm2_bn_is_one z) eqn:E1.
    - apply is_one_spec in E1; [| apply Hz]. rewrite E1. clear E1. repeat fp_step. unfold sides. cbn [fst snd].
      change (val SM2_ONE) with 1. do 2 (split; [assumption |]). to_integers.
      split; [rewrite H6, H4, H2, H0; ring | rewrite H12, H10, H8; ring].
    - clear E1. repeat fp_step. unfold sides. cbn [fst snd]. do 2 (split; [assumption |]). to_integers.
      split; [ring [H0 H2 H4 H10 H12 H14 H16] | ring [H2 H4 H6 H8 H18 H20 H22]]. }
  destruct G as (G1 & G2 & G3 & G4). cbn [fst snd] in *. rewrite (cmp_fp t0 t1 G1 G2), Z.eqb_eq. unfold curve. split; intros H.
  - assert (eqp (val y * val y + 3 * val x * (val z * val z * val z * val z)) (val t0)) as A by by symmetry.
    rewrite H, G4 in A. assert (forall u v w, eqp (u + v) w -> eqp u (w - v)) as B by (intros u v w <-; ring).
    apply B in A. rewrite A. ring.
  - apply (eqp_eq _ _ G1 G2). rewrite G3, G4, H. ring.
Qed.
