(* ===== verification/Sm2Group.v ===== *)
(** The group of SM2 in affine coordinates, and that the Jacobian operations of
    src/sm2_alg.c compute it. *)
From S2P Require Import Prelude Sm2Prime.
From stdpp Require Import base list option.
From Stdlib Require Import Znumtheory Zpow_facts Ring.
From S2P Require Export Sm2Point.
#[global] Open Scope Z_scope.

(** ** The group law *)

Inductive apoint := Inf | Aff (x y : Z).

Definition inv_p (a : Z) : Z := Zpow_mod a (sm2_p - 2) sm2_p.

(** The third point of the line with slope [l], reflected. *)
Definition chord (l x1 y1 x2 : Z) : apoint :=
  let x3 := (l * l - x1 - x2) mod sm2_p in
  Aff x3 ((l * (x1 - x3) - y1) mod sm2_p).

Definition gdbl (A : apoint) : apoint :=
  match A with
  | Inf => Inf
  | Aff x y => if y =? 0 then Inf else chord ((3 * x * x - 3) * inv_p (2 * y)) x y x
  end.

Definition gadd (A B : apoint) : apoint :=
  match A, B with
  | Inf, B => B
  | A, Inf => A
  | Aff x1 y1, Aff x2 y2 =>
      if x1 =? x2 then if y1 =? y2 then gdbl A else Inf
      else chord ((y2 - y1) * inv_p (x2 - x1)) x1 y1 x2
  end.

Definition gneg (A : apoint) : apoint :=
  match A with Inf => Inf | Aff x y => Aff x ((- y) mod sm2_p) end.

Fixpoint smul_pos (n : positive) (A : apoint) : apoint :=
  match n with
  | xH => A
  | xO n => gdbl (smul_pos n A)
  | xI n => gadd (gdbl (smul_pos n A)) A
  end.

Definition smul (n : Z) (A : apoint) : apoint := match n with Zpos n => smul_pos n A | _ => Inf end.

(** ** The field *)

Lemma eqp_0 a : eqp a 0 <-> (sm2_p | a).
Proof. unfold congr. rewrite Z.mod_0_l by done. split; [by apply Zmod_divide | by apply Zdivide_mod]. Qed.

Lemma eqp_0_mul a b : eqp (a * b) 0 -> eqp a 0 \/ eqp b 0.
Proof. rewrite !eqp_0. apply prime_mult, sm2_p_prime. Qed.

Lemma eqp_sub a b : eqp (a - b) 0 <-> eqp a b.
Proof. split; intros H; [| rewrite H; ring]. transitivity (b + (a - b)); [ring |]. rewrite H. ring. Qed.

Lemma eqp_small a b : 0 <= a < sm2_p -> 0 <= b < sm2_p -> eqp a b <-> a = b.
Proof. intros Ha Hb. unfold congr. rewrite !Z.mod_small by done. done. Qed.

Lemma inv_p_spec a : ~ eqp a 0 -> eqp (a * inv_p a) 1.
Proof.
  intros N. unfold inv_p. rewrite Zpow_mod_correct by done.
  assert (0 < a mod sm2_p < sm2_p) as R.
  { pose proof (Z.mod_pos_bound a sm2_p eq_refl). destruct (Z.eq_dec (a mod sm2_p) 0) as [E | E]; [| lia].
    destruct N. unfold congr. by rewrite E, Z.mod_0_l. }
  pose proof (prime_inverse sm2_p (a mod sm2_p) sm2_p_prime R) as I.
  assert (eqp (a mod sm2_p * ((a mod sm2_p) ^ (sm2_p - 2) mod sm2_p)) 1) as I'.
  { unfold congr. rewrite I. by rewrite Z.mod_1_l. }
  rewrite Zpower_mod in I' by done. rewrite Zmod_mod in I'. rewrite <- Zpower_mod in I' by done. rewrite congr_mod in I'. exact I'.
Qed.

#[local] Opaque inv_p sm2_fp_mul sm2_fp_inv sm2_fp_sqr sm2_p.

Lemma eqp_cancel a b c : ~ eqp c 0 -> eqp (a * c) (b * c) -> eqp a b.
Proof.
  intros N H. apply inv_p_spec in N. revert N. generalize (inv_p c). intros i N. transitivity (a * c * i); [ring [N] |]. rewrite H. ring [N].
Qed.

(** ** What a Jacobian point stands for *)

Definition repr (P : SM2_JACOBIAN_POINT) (A : apoint) : Prop :=
  on_curve P /\
  match A with
  | Inf => val (jZ P) = 0
  | Aff x y =>
      0 <= x < sm2_p /\ 0 <= y < sm2_p /\ val (jZ P) <> 0 /\
      eqp (val (jX P)) (x * (val (jZ P) * val (jZ P))) /\
      eqp (val (jY P)) (y * (val (jZ P) * val (jZ P) * val (jZ P)))
  end.

Lemma nonzero a : fp a -> val a <> 0 <-> ~ eqp (val a) 0.
Proof. intros Ha. rewrite eqp_small; [done | by apply fp_range | done]. Qed.

Lemma chord_range l x1 y1 x2 : exists x y, chord l x1 y1 x2 = Aff x y /\ 0 <= x < sm2_p /\ 0 <= y < sm2_p /\
  eqp x (l * l - x1 - x2) /\ eqp y (l * (x1 - x) - y1).
Proof.
  unfold chord. eexists _, _. split; [reflexivity |]. cbv zeta. pose proof Z.mod_pos_bound. split_and!; try (apply Z.mod_pos_bound; reflexivity); apply congr_mod.
Qed.

(** The formulas are the chord with the slope [t / z3] and [r / z3]. *)
Lemma repr_chord R l x1 y1 x2 : on_curve R -> val (jZ R) <> 0 ->
  eqp (val (jX R)) ((l * l - x1 - x2) * (val (jZ R) * val (jZ R))) ->
  eqp (val (jY R)) (l * (x1 * (val (jZ R) * val (jZ R)) - val (jX R)) * val (jZ R) - y1 * (val (jZ R) * val (jZ R) * val (jZ R))) ->
  repr R (chord l x1 y1 x2).
Proof.
  intros HR N EX EY. destruct (chord_range l x1 y1 x2) as (x & y & -> & Rx & Ry & Ex & Ey). split; [exact HR |].
  split_and!; try tauto.
  - rewrite EX, Ex. ring.
  - rewrite EY, Ey, EX, Ex. ring.
Qed.

Lemma gdbl_repr P A : repr P A -> repr (sm2_jacobian_point_dbl P) (gdbl A).
Proof.
  intros [HP HA]. pose proof (dbl_on_curve P HP) as HR. pose proof HP as [Hx Hy Hz C]. destruct A as [| x y].
  { destruct P as [X Y Z1]. cbn [jZ] in *. cbv beta iota delta [sm2_jacobian_point_dbl].
    rewrite is_at_infinity_spec by done. cbn [jZ]. rewrite HA. exact (conj HP HA). }
  destruct HA as (Rx & Ry & N & EX & EY). destruct (point_dbl_spec P Hx Hy Hz N) as (G1 & G2 & G3 & F1 & F2 & F3).
  set (R := sm2_jacobian_point_dbl P) in *. pose proof N as N'. rewrite nonzero in N' by done.
  assert (eqp (val (jZ R)) (2 * y * (val (jZ P) * val (jZ P) * val (jZ P) * val (jZ P)))) as E3 by (rewrite F1, EY; ring).
  cbn [gdbl]. destruct (Z.eqb_spec y 0) as [Y0 | Y0].
  { split; [exact HR |]. rewrite Y0 in E3. assert (eqp (val (jZ R)) 0) as E0 by (rewrite E3; ring).
    by rewrite eqp_small in E0 by (done || by apply fp_range). }
  assert (~ eqp (2 * y) 0) as N2.
  { intros D. apply eqp_0_mul in D as [D | D]; rewrite eqp_small in D by done; [done | lia]. }
  assert (val (jZ R) <> 0) as NZ.
  { rewrite nonzero by done. rewrite E3. intros D. repeat (apply eqp_0_mul in D as [D | D]; try contradiction). }
  pose proof (inv_p_spec _ N2) as I. revert I. generalize (inv_p (2 * y)). intros i I.
  assert (forall t, eqp t (3 * ((val (jX P) - val (jZ P) * val (jZ P)) * (val (jX P) + val (jZ P) * val (jZ P)))) ->
    eqp t ((3 * x * x - 3) * i * val (jZ R))) as ET.
  { intros t ->. rewrite E3, EX. transitivity ((3 * x * x - 3) * (val (jZ P) * val (jZ P) * val (jZ P) * val (jZ P)) * (2 * y * i)); [rewrite I; ring | ring]. }
  pose proof (ET _ (reflexivity _)) as E. clear ET I. revert E F2 F3. generalize (3 * ((val (jX P) - val (jZ P) * val (jZ P)) * (val (jX P) + val (jZ P) * val (jZ P)))).
  generalize ((3 * x * x - 3) * i). intros l t E F2 F3. apply (repr_chord R l x y x HR NZ).
  - rewrite F2, E, EX, EY. ring [E3].
  - rewrite F3, E, EX, EY. ring [E3].
Qed.

Lemma gneg_repr P A : repr P A -> repr (sm2_jacobian_point_neg P) (gneg A).
Proof.
  intros [HP HA]. split; [by apply neg_on_curve |]. destruct A as [| x y]; [exact HA |]. cbn [sm2_jacobian_point_neg gneg jX jY jZ].
  destruct HA as (Rx & Ry & N & EX & EY). destruct (fp_neg_spec (jY P) (oc_y _ HP)) as [H1 H2]. apply eq_eqp in H2.
  split_and!; try tauto; try (apply Z.mod_pos_bound; reflexivity). rewrite H2, EY. rewrite congr_mod. ring.
Qed.

Definition aff (Q : SM2_JACOBIAN_POINT) : apoint := Aff (val (jX Q)) (val (jY Q)).

Lemma affine_repr Q : affine Q -> repr Q (aff Q).
Proof.
  intros [HQ H1]. split; [exact HQ |]. rewrite H1. change (val SM2_ONE) with 1.
  split_and!; try (apply fp_range; apply HQ); [done | ring | ring].
Qed.

Lemma gadd_repr P A Q : repr P A -> affine Q -> returns (fun R => repr R (gadd A (aff Q))) (sm2_jacobian_point_add P Q).
Proof.
  intros [HP HA] AQ. pose proof (add_on_curve P Q HP AQ) as HR. destruct A as [| x1 y1].
  { rewrite (add_infinity P Q AQ HP HA) in *. by apply affine_repr. }
  destruct HA as (Rx & Ry & N & EX & EY). pose proof HP as [Hx Hy Hz C]. pose proof AQ as [[Hx2 Hy2 Hz2 C2] H1].
  pose proof (fp_range _ Hx2) as R2. pose proof (fp_range _ Hy2) as S2. pose proof N as N'. rewrite nonzero in N' by done.
  pose proof (point_add_spec P Q Hx Hy Hz N Hx2 Hy2 H1) as G. destruct (sm2_jacobian_point_add P Q) as [R |]; [| done]. cbn [returns] in *.
  unfold aff. cbn [gadd].
  assert (forall k u v, ~ eqp k 0 -> 0 <= u < sm2_p -> 0 <= v < sm2_p -> forall w, eqp w (k * (v - u)) -> (w mod sm2_p =? 0) = (u =? v)) as Test.
  { intros k u v Nk Ru Rv w E. apply Bool.eq_iff_eq_true. rewrite !Z.eqb_eq, Z.mod_divide, <- eqp_0, E by done. split.
    - intros D. apply eqp_0_mul in D as [D | D]; [done |]. rewrite eqp_sub, eqp_small in D by done. done.
    - intros ->. apply congr_eq. lia. }
  set (z := val (jZ P)) in *.
  assert (~ eqp (z * z) 0) as N2 by (intros D; apply eqp_0_mul in D; tauto).
  assert (~ eqp (z * z * z) 0) as N3 by (intros D; apply eqp_0_mul in D; tauto).
  rewrite (Test (z * z) x1 (val (jX Q)) N2 Rx R2) in G by (rewrite EX; ring).
  rewrite (Test (z * z * z) y1 (val (jY Q)) N3 Ry S2) in G by (rewrite EY; ring).
  destruct (Z.eqb_spec x1 (val (jX Q))) as [E1 | E1].
  { destruct (Z.eqb_spec y1 (val (jY Q))) as [E2 | E2]; subst R; [| exact (conj HR eq_refl)].
    rewrite (set_xy_on_curve Q AQ), E1, E2. by apply (gdbl_repr Q (aff Q)), affine_repr. }
  destruct G as (G1 & G2 & G3 & F1 & F2 & F3). fold z in F1, F2, F3.
  set (x2 := val (jX Q)) in *. set (y2 := val (jY Q)) in *.
  assert (~ eqp (x2 - x1) 0) as ND by (rewrite eqp_sub, eqp_small by done; congruence).
  assert (eqp (val (jZ R)) (z * z * z * (x2 - x1))) as E3 by (rewrite F1, EX; ring).
  assert (val (jZ R) <> 0) as NZ. { rewrite nonzero by done. rewrite E3. intros D. apply eqp_0_mul in D. tauto. }
  pose proof (inv_p_spec _ ND) as I. revert I. generalize (inv_p (x2 - x1)). intros i I.
  assert (eqp (z * z * z * y2 - val (jY P)) ((y2 - y1) * i * val (jZ R))) as E.
  { rewrite E3, EY. transitivity ((y2 - y1) * (z * z * z) * ((x2 - x1) * i)); [rewrite I; ring | ring]. }
  assert (eqp (z * z * x2 - val (jX P)) (z * z * (x2 - x1))) as EH by (rewrite EX; ring).
  clear I. revert E F2 F3. generalize (z * z * z * y2 - val (jY P)). generalize ((y2 - y1) * i). intros l r E F2 F3.
  revert EH F2 F3. generalize (z * z * x2 - val (jX P)). intros h EH F2 F3. apply (repr_chord R l x1 y1 x2 HR NZ).
  - rewrite F2, E, EX, EH. ring [E3].
  - rewrite F3, E, EX, EY, EH. ring [E3].
Qed.

(** *** Affine coordinates *)

Lemma fp_inv_eqp a : fp a -> val a <> 0 -> fp (sm2_fp_inv a) /\ eqp (val a * val (sm2_fp_inv a)) 1.
Proof.
  intros Ha N. destruct (fp_inv_spec a Ha) as [H1 H2]. split; [exact H1 |]. rewrite H2. unfold congr.
  pose proof (fp_range a Ha). rewrite (prime_inverse sm2_p (val a) sm2_p_prime) by lia. by rewrite Z.mod_1_l.
Qed.

Lemma get_xy_repr P x y : repr P (Aff x y) ->
  let xy := sm2_jacobian_point_get_xy P in fp xy.1 /\ fp xy.2 /\ val xy.1 = x /\ val xy.2 = y.
Proof.
  intros [HP (Rx & Ry & N & EX & EY)]. pose proof HP as [Hx Hy Hz C]. destruct P as [X Y Z1]. cbn [jX jY jZ] in *.
  cbv zeta beta. unfold sm2_jacobian_point_get_xy. cbn [jX jY jZ]. destruct (sm2_bn_is_one Z1) eqn:E1.
  { apply is_one_spec in E1; [| apply Hz]. subst Z1. change (val SM2_ONE) with 1 in *. cbn [fst snd].
    do 2 (split; [assumption |]). split; (rewrite <- eqp_small by (assumption || by apply fp_range)); [rewrite EX | rewrite EY]; ring. }
  clear E1. destruct (fp_inv_eqp Z1 Hz N) as [Hi I]. set (i := sm2_fp_inv Z1) in *. clearbody i. cbn [fst snd].
  destruct (mul_eqp Y i Hy Hi) as [A1 A2]. destruct (sqr_eqp i Hi) as [B1 B2].
  destruct (mul_eqp X (sm2_fp_sqr i) Hx B1) as [C1 C2]. destruct (mul_eqp (sm2_fp_mul Y i) (sm2_fp_sqr i) A1 B1) as [D1 D2].
  do 2 (split; [assumption |]). split; (rewrite <- eqp_small by (assumption || by apply fp_range)).
  - rewrite C2, B2, EX. transitivity (x * (val Z1 * val i) * (val Z1 * val i)); [ring | rewrite I; ring].
  - rewrite D2, B2, A2, EY. transitivity (y * (val Z1 * val i) * (val Z1 * val i) * (val Z1 * val i)); [ring | rewrite I; ring].
Qed.

Lemma repr_curve P x y : repr P (Aff x y) -> curve x y 1.
Proof.
  intros [HP (Rx & Ry & N & EX & EY)]. destruct HP as [Hx Hy Hz C]. unfold curve in *. rewrite nonzero in N by done.
  set (z := val (jZ P)) in *. apply (eqp_cancel _ _ (z * z * z * z * z * z)).
  { intros D. repeat (apply eqp_0_mul in D as [D | D]; try contradiction). }
  transitivity ((y * (z * z * z)) * (y * (z * z * z))); [ring |]. rewrite <- EY, C, EX. ring.
Qed.

Lemma get_xy_affine P A : repr P A -> A <> Inf ->
  let '(x, y) := sm2_jacobian_point_get_xy P in
  affine (sm2_jacobian_point_set_xy x y) /\ aff (sm2_jacobian_point_set_xy x y) = A.
Proof.
  destruct A as [| x y]; [done |]. intros H _. pose proof (get_xy_repr P x y H) as G. destruct (sm2_jacobian_point_get_xy P) as [X Y].
  cbn [fst snd] in G. destruct G as (G1 & G2 & <- & <-). split; [| reflexivity]. split; [| reflexivity].
  apply repr_curve in H. exact (Build_on_curve (sm2_jacobian_point_set_xy X Y) G1 G2 fp_one H).
Qed.

(** *** Multiplication by a scalar *)

Lemma smul_double n A : 0 <= n -> smul (2 * n) A = gdbl (smul n A).
Proof. destruct n as [| n | n]; [done | done | lia]. Qed.

Lemma smul_odd n A : 0 <= n -> smul (2 * n + 1) A = gadd (gdbl (smul n A)) A.
Proof. destruct n as [| n | n]; [done | done | lia]. Qed.

Lemma mul_bits Q bits : affine Q ->
  forall R n, repr R (smul n (aff Q)) -> 0 <= n ->
  returns (fun R => repr R (smul (List.fold_left (fun s d => s * 2 + d) (List.map Z.b2z bits) n) (aff Q)))
    (List.fold_left (mul_step Q) bits (Some R)).
Proof.
  intros AQ. induction bits as [| b bits IH]; intros R n HR Hn; [exact HR |]. cbn [List.fold_left List.map mul_step].
  pose proof (gdbl_repr _ _ HR) as HD. rewrite <- smul_double in HD by done. destruct b.
  - pose proof (gadd_repr _ _ Q HD AQ) as HA. destruct (sm2_jacobian_point_add _ Q) as [R' |]; [| done]. cbn [returns] in HA.
    apply IH; [| cbn; lia]. rewrite smul_double in HA by done. rewrite <- smul_odd in HA by done. by rewrite Z.mul_comm.
  - apply IH; [| cbn; lia]. cbn [Z.b2z]. by rewrite Z.add_0_r, Z.mul_comm.
Qed.

Lemma mul_repr k P A : words k -> repr P A -> A <> Inf ->
  returns (fun R => repr R (smul (val k) A)) (sm2_jacobian_point_mul k P).
Proof.
  intros Hk HP HA. unfold sm2_jacobian_point_mul.
  assert (exists Q, affine Q /\ aff Q = A /\
    (if negb (sm2_bn_is_one (jZ P)) then let '(x, y) := sm2_jacobian_point_get_xy P in sm2_jacobian_point_set_xy x y else P) = Q) as (Q & AQ & EQ & ->).
  { eexists. split; [| split; [| reflexivity]].
    - destruct (sm2_bn_is_one (jZ P)) eqn:E; cbn [negb].
      + apply is_one_spec in E; [| apply HP]. by destruct HP.
      + pose proof (get_xy_affine P A HP HA) as G. destruct (sm2_jacobian_point_get_xy P). apply G.
    - destruct (sm2_bn_is_one (jZ P)) eqn:E; cbn [negb].
      + pose proof (get_xy_affine P A HP HA) as G. unfold sm2_jacobian_point_get_xy in G. rewrite E in G. destruct G as [_ G]. rewrite <- G. reflexivity.
      + pose proof (get_xy_affine P A HP HA) as G. destruct (sm2_jacobian_point_get_xy P). apply G. }
  pose proof (mul_bits Q (sm2_bn_to_bits k) AQ sm2_jacobian_point_init 0) as G. rewrite EQ in G. destruct (to_bits_spec k Hk) as [_ <-].
  apply G; [split; [apply infinity_on_curve | reflexivity] | done].
Qed.

Lemma affine_g : affine SM2_G.
Proof.
  assert (fp (jX SM2_G) /\ fp (jY SM2_G)) as [Hx Hy] by (split; (split; [by apply bn_check | done])).
  split; [| reflexivity]. refine (Build_on_curve SM2_G Hx Hy fp_one _). apply (is_on_curve_spec SM2_G Hx Hy fp_one). vm_compute. reflexivity.
Qed.

Lemma sub_repr P A Q : repr P A -> affine Q ->
  returns (fun R => repr R (gadd A (gneg (aff Q)))) (sm2_jacobian_point_sub P Q).
Proof.
  intros HP AQ. unfold sm2_jacobian_point_sub. assert (affine (sm2_jacobian_point_neg Q)) as AN.
  { destruct AQ as [HQ H1]. split; [by apply neg_on_curve | exact H1]. }
  replace (gneg (aff Q)) with (aff (sm2_jacobian_point_neg Q)); [by apply gadd_repr |].
  unfold aff, gneg. cbn [sm2_jacobian_point_neg jX jY]. destruct AQ as [[_ Hy _ _] _]. destruct (fp_neg_spec (jY Q) Hy) as [_ ->]. reflexivity.
Qed.

(** *** The point at infinity as an operand

    It has no affine coordinates: the conversion gives the pair of zeros, which is
    not on the curve. *)

Definition no_point : SM2_JACOBIAN_POINT := sm2_jacobian_point_set_xy (repeat 0 8) (repeat 0 8).

Lemma fp_val_0 a : fp a -> val a = 0 -> a = repeat 0 8.
Proof. intros [[La Ha] _] E. apply val_inj; [done | by apply (bn_check (repeat 0 8)) | done | exact E]. Qed.

Lemma get_xy_infinity P : repr P Inf -> sm2_jacobian_point_get_xy P = (repeat 0 8, repeat 0 8).
Proof.
  intros [[Hx Hy Hz _] H0]. destruct P as [X Y Z1]. cbn [jX jY jZ] in *. unfold sm2_jacobian_point_get_xy. cbn [jX jY jZ].
  rewrite (fp_val_0 Z1 Hz H0). change (sm2_bn_is_one (repeat 0 8)) with false. cbv iota.
  replace (sm2_fp_inv (repeat 0 8)) with (repeat 0 8) by (vm_compute; reflexivity).
  replace (sm2_fp_sqr (repeat 0 8)) with (repeat 0 8) by (vm_compute; reflexivity).
  assert (forall a, fp a -> sm2_fp_mul a (repeat 0 8) = repeat 0 8) as M0; [| by rewrite (M0 X Hx), (M0 Y Hy), (M0 _ fp_zero)].
  intros a Ha. destruct (mul_eqp a _ Ha fp_zero) as [H1 H2]. apply (fp_val_0 _ H1).
  rewrite <- eqp_small by (by apply fp_range || apply (fp_range _ fp_zero)). rewrite H2. apply congr_eq, Z.mul_0_r.
Qed.

(** Twice that pair is the point at infinity again. *)
Lemma dbl_no_point : repr (sm2_jacobian_point_dbl no_point) Inf.
Proof.
  replace (sm2_jacobian_point_dbl no_point) with (mk_point (sm2_bn_set_word 9) (sm2_bn_set_word 27) (repeat 0 8)) by (vm_compute; reflexivity).
  split; [| reflexivity]. split; cbn [jX jY jZ]; [split; [by apply bn_check | done] .. | reflexivity].
Qed.

Lemma add_no_point P : repr P Inf -> sm2_jacobian_point_add P no_point = Some no_point.
Proof.
  intros [[_ _ Hz _] H0]. destruct P as [X Y Z1]. cbv beta iota delta [sm2_jacobian_point_add no_point sm2_jacobian_point_set_xy].
  rewrite (is_at_infinity_spec (mk_point X Y Z1)) by done. cbn [jZ] in *. by rewrite H0.
Qed.

(** The pair for the odd multiples and the point at infinity for the others. *)
Definition repr_no_point (n : Z) (R : SM2_JACOBIAN_POINT) : Prop := if Z.odd n then R = no_point else repr R Inf.

Lemma mul_bits_no_point bits : forall R n, repr_no_point n R ->
  returns (repr_no_point (List.fold_left (fun s d => s * 2 + d) (List.map Z.b2z bits) n))
    (List.fold_left (mul_step no_point) bits (Some R)).
Proof.
  induction bits as [| b bits IH]; intros R n HR; [exact HR |]. cbn [List.fold_left List.map mul_step].
  assert (repr (sm2_jacobian_point_dbl R) Inf) as HD.
  { unfold repr_no_point in HR. destruct (Z.odd n); [subst R; exact dbl_no_point | exact (gdbl_repr R Inf HR)]. }
  assert (Z.odd (n * 2 + Z.b2z b) = b) as Hodd by (rewrite Z.mul_comm, Z.add_comm, Z.odd_add_mul_2; by destruct b).
  destruct b; [rewrite add_no_point by exact HD |]; apply IH; unfold repr_no_point; rewrite Hodd; done.
Qed.

Lemma mul_infinity_repr k P : words k -> repr P Inf -> returns (repr_no_point (val k)) (sm2_jacobian_point_mul k P).
Proof.
  intros Hk HP. unfold sm2_jacobian_point_mul. rewrite get_xy_infinity by done.
  replace (sm2_bn_is_one (jZ P)) with false.
  2: { destruct HP as [[_ _ Hz _] H0]. by rewrite (fp_val_0 _ Hz H0). }
  cbn [negb]. destruct (to_bits_spec k Hk) as [_ <-]. apply mul_bits_no_point. split; [apply infinity_on_curve | reflexivity].
Qed.

(** C12: the Jacobian operations refine the group of the curve: on points of the
    curve, doubling, negation, addition and subtraction give points of the curve
    that stand for the double, the opposite, the sum and the difference, also
    when an operand or the result is the point at infinity; the assertion of the
    addition does not fail when the second operand is affine. *)
Theorem sm2_point_refines_group P A :
  repr P A ->
  repr (sm2_jacobian_point_dbl P) (gdbl A) /\ repr (sm2_jacobian_point_neg P) (gneg A) /\
  forall Q, affine Q ->
    returns (fun R => repr R (gadd A (aff Q))) (sm2_jacobian_point_add P Q) /\
    returns (fun R => repr R (gadd A (gneg (aff Q)))) (sm2_jacobian_point_sub P Q).
Proof.
  intros HP. split; [exact (gdbl_repr P A HP) |]. split; [exact (gneg_repr P A HP) |].
  intros Q AQ. split; [exact (gadd_repr P A Q HP AQ) | exact (sub_repr P A Q HP AQ)].
Qed.

Lemma sm2_point_refines_group_witness :
  repr (sm2_jacobian_point_dbl SM2_G) (gdbl (aff SM2_G)) /\
  returns (fun R => repr R (gadd (aff SM2_G) (gneg (aff SM2_G)))) (sm2_jacobian_point_sub SM2_G SM2_G).
Proof.
  pose proof (sm2_point_refines_group SM2_G (aff SM2_G) (affine_repr SM2_G affine_g)) as [H1 [_ H2]].
  exact (conj H1 (proj2 (H2 SM2_G affine_g))).
Defined.

(** C13: multiplication by a scalar of any 256 bits always gives a result (the
    assertion of the addition never fails).  For a point with affine
    coordinates it is a point of the curve that stands for the multiple, and
    the sum [t P + s G] of the signature check stands for the sum of the two
    multiples.  For the point at infinity it is wrong half of the time: its
    multiples by odd scalars come out as the pair of zeros, which is not on the
    curve; and where [t P] is the point at infinity, this pair is what the sum
    adds to [s G]. *)
Theorem sm2_mul_refines k P A :
  words k -> repr P A ->
  (A <> Inf -> returns (fun R => repr R (smul (val k) A)) (sm2_jacobian_point_mul k P)) /\
  (A = Inf -> returns (fun R => if Z.odd (val k) then R = no_point /\ sm2_jacobian_point_is_on_curve R = false else repr R Inf)
    (sm2_jacobian_point_mul k P)) /\
  returns (fun R => repr R (smul (val k) (aff SM2_G))) (sm2_jacobian_point_mul_generator k) /\
  forall t, words t -> A <> Inf ->
    (smul (val t) A <> Inf ->
      returns (fun R => repr R (gadd (smul (val k) (aff SM2_G)) (smul (val t) A))) (sm2_jacobian_point_mul_sum t P k)) /\
    (smul (val t) A = Inf ->
      sm2_jacobian_point_mul_sum t P k = (sG ← sm2_jacobian_point_mul_generator k; sm2_jacobian_point_add sG no_point)).
Proof.
  intros Hk HP. pose proof (mul_repr k SM2_G (aff SM2_G) Hk (affine_repr SM2_G affine_g) ltac:(discriminate)) as HG.
  split; [exact (mul_repr k P A Hk HP) |]. split; [| split; [exact HG |]].
  { intros ->. pose proof (mul_infinity_repr k P Hk HP) as G. destruct (sm2_jacobian_point_mul k P) as [R |]; [| done]. cbn [returns] in *.
    unfold repr_no_point in G. destruct (Z.odd (val k)); [| done]. subst R. split; [done |]. vm_compute. reflexivity. }
  intros t Ht HA. pose proof (mul_repr t P A Ht HP HA) as HT. cbv beta delta [sm2_jacobian_point_mul_sum sm2_jacobian_point_mul_generator].
  destruct (sm2_jacobian_point_mul k SM2_G) as [sG |]; [| done]. destruct (sm2_jacobian_point_mul t P) as [R |]; [| done]. cbn [returns] in HG, HT.
  split; intros N.
  - pose proof (get_xy_affine R _ HT N) as G. destruct (sm2_jacobian_point_get_xy R) as [x y]. destruct G as [G1 <-].
    exact (gadd_repr sG _ _ HG G1).
  - rewrite N in HT. by rewrite (get_xy_infinity R HT).
Qed.

Lemma sm2_mul_refines_witness :
  returns (fun R => repr R (smul 3 (aff SM2_G))) (sm2_jacobian_point_mul (sm2_bn_set_word 3) SM2_G).
Proof.
  assert (words (sm2_bn_set_word 3)) as Hk by (by apply (bn_check (sm2_bn_set_word 3))).
  exact (proj1 (sm2_mul_refines (sm2_bn_set_word 3) SM2_G (aff SM2_G) Hk (affine_repr SM2_G affine_g)) ltac:(discriminate)).
Defined.
