(* ===== verification/Sm2Octets.v ===== *)
(** Points of SM2 as bytes (src/sm2_alg.c of GmSSL): the operations on encoded
    points, compressed and uncompressed octets. *)
From S2P Require Import Prelude GmWord Sm2Prime.
From S2P Require Sm3.
From stdpp Require Import base list option.
From Stdlib Require Import Znumtheory Zpow_facts Ring.
From S2P Require Export Sm2Group.
#[global] Open Scope Z_scope.

(** [SM2_POINT]: two numbers of 32 bytes, big-endian. *)
Record SM2_POINT := mk_sm2_point { pt_x : list Z; pt_y : list Z }.

(** The cast to [uint8_t *], and the other way round. *)
Definition point_bytes (P : SM2_POINT) : list Z := pt_x P ++ pt_y P.
Definition bytes_point (l : list Z) : SM2_POINT := mk_sm2_point (take 32 l) (drop 32 l).

Definition mem_is_zero (buf : list Z) : bool := List.forallb (fun b => b =? 0) buf.

Definition sm2_point_is_on_curve (P : SM2_POINT) : bool :=
  let T := sm2_jacobian_point_from_bytes (point_bytes P) in
  sm2_jacobian_point_is_on_curve T.

Definition sm2_point_is_at_infinity (P : SM2_POINT) : bool := mem_is_zero (point_bytes P).

(** [None] is [-1]. *)
Definition sm2_point_from_x (x : list Z) (y : Z) : option SM2_POINT :=
  let _x := sm2_bn_from_bytes x in
  let _g := sm2_fp_sqr _x in
  let _g := sm2_fp_sub _g SM2_THREE in
  let _g := sm2_fp_mul _g _x in
  let _g := sm2_fp_add _g SM2_B in
  let _y := sm2_fp_exp _g SM2_U_PLUS_ONE in
  let _z := sm2_fp_sqr _y in
  if negb (sm2_bn_cmp _z _g =? 0) then None
  else
    let _y :=
      if ((y =? 0x02) && sm2_bn_is_odd _y) || ((y =? 0x03) && negb (sm2_bn_is_odd _y)) then sm2_fp_neg _y
      else _y in
    let P := mk_sm2_point (sm2_bn_to_bytes _x) (sm2_bn_to_bytes _y) in
    if negb (sm2_point_is_on_curve P) then None else Some P.

(** The point is written whatever the check says. *)
Definition sm2_point_from_xy (x y : list Z) : SM2_POINT * bool :=
  let P := mk_sm2_point x y in
  (P, sm2_point_is_on_curve P).

Definition sm2_point_add (P Q : SM2_POINT) : option SM2_POINT :=
  let P_ := sm2_jacobian_point_from_bytes (point_bytes P) in
  let Q_ := sm2_jacobian_point_from_bytes (point_bytes Q) in
  option_map (fun R => bytes_point (sm2_jacobian_point_to_bytes R)) (sm2_jacobian_point_add P_ Q_).

Definition sm2_point_sub (P Q : SM2_POINT) : option SM2_POINT :=
  let P_ := sm2_jacobian_point_from_bytes (point_bytes P) in
  let Q_ := sm2_jacobian_point_from_bytes (point_bytes Q) in
  option_map (fun R => bytes_point (sm2_jacobian_point_to_bytes R)) (sm2_jacobian_point_sub P_ Q_).

Definition sm2_point_neg (P : SM2_POINT) : SM2_POINT :=
  let P_ := sm2_jacobian_point_from_bytes (point_bytes P) in
  bytes_point (sm2_jacobian_point_to_bytes (sm2_jacobian_point_neg P_)).

Definition sm2_point_dbl (P : SM2_POINT) : SM2_POINT :=
  let P_ := sm2_jacobian_point_from_bytes (point_bytes P) in
  bytes_point (sm2_jacobian_point_to_bytes (sm2_jacobian_point_dbl P_)).

Definition sm2_point_mul (k : list Z) (P : SM2_POINT) : option SM2_POINT :=
  let _k := sm2_bn_from_bytes k in
  let _P := sm2_jacobian_point_from_bytes (point_bytes P) in
  option_map (fun R => bytes_point (sm2_jacobian_point_to_bytes R)) (sm2_jacobian_point_mul _k _P).

Definition sm2_point_mul_generator (k : list Z) : option SM2_POINT :=
  let _k := sm2_bn_from_bytes k in
  option_map (fun R => bytes_point (sm2_jacobian_point_to_bytes R)) (sm2_jacobian_point_mul_generator _k).

Definition sm2_point_mul_sum (k : list Z) (P : SM2_POINT) (s : list Z) : option SM2_POINT :=
  let _k := sm2_bn_from_bytes k in
  let _P := sm2_jacobian_point_from_bytes (point_bytes P) in
  let _s := sm2_bn_from_bytes s in
  option_map (fun R => bytes_point (sm2_jacobian_point_to_bytes R)) (sm2_jacobian_point_mul_sum _k _P _s).

Definition sm2_point_to_compressed_octets (P : SM2_POINT) : list Z :=
  (if negb (Z.land (nthb (pt_y P) 31) 0x01 =? 0) then 0x03 else 0x02) :: pt_x P.

Definition sm2_point_to_uncompressed_octets (P : SM2_POINT) : list Z := 0x04 :: point_bytes P.

(** [in_] holds [inlen] bytes; the first is read whatever [inlen] is, so an empty
    input is not a call. *)
Definition sm2_point_from_octets (in_ : list Z) : option SM2_POINT :=
  match in_ with
  | [] => None
  | tag :: rest =>
      if ((tag =? 0x02) || (tag =? 0x03)) && (length in_ =? 33)%nat then sm2_point_from_x rest tag
      else if (tag =? 0x04) && (length in_ =? 65)%nat then
        let '(P, ok) := sm2_point_from_xy (take 32 rest) (drop 32 rest) in
        if ok then Some P else None
      else None
  end.

(** [do ... while]: the data of the next round is the digest; [fuel] bounds the
    rounds, each of which finds a point for about half of the digests. *)
Fixpoint hash_loop (fuel : nat) (u : SM2_BN) (data : list Z) : option (SM2_BN * SM2_BN) :=
  match fuel with
  | O => None
  | S fuel =>
      let dgst := Sm3.Sm3.sm3_digest data in
      let x := sm2_bn_from_bytes dgst in
      let x := if 0 <=? sm2_bn_cmp x SM2_P then sm2_bn_sub x SM2_P else x in
      let s := sm2_fp_sqr x in
      let s := sm2_fp_sub s SM2_THREE in
      let s := sm2_fp_mul s x in
      let s := sm2_fp_add s SM2_B in
      let y := sm2_fp_exp s u in
      let s_ := sm2_fp_sqr y in
      if negb (sm2_bn_cmp s s_ =? 0) then hash_loop fuel u dgst else Some (x, y)
  end.

Definition sm2_point_from_hash (fuel : nat) (data : list Z) : option SM2_POINT :=
  let u := sm2_bn_add SM2_P SM2_ONE in
  match sm2_bn_rshift u 2 with
  | None => None
  | Some u => option_map (fun '(x, y) => mk_sm2_point (sm2_bn_to_bytes x) (sm2_bn_to_bytes y)) (hash_loop fuel u data)
  end.

#[local] Opaque inv_p sm2_fp_mul sm2_fp_inv sm2_fp_sqr sm2_p sm2_fp_exp.

(** ** Encodings *)

Definition octets32 (l : list Z) : Prop := Forall byte l /\ length l = 32%nat.

(** The point [A] of the group as 64 bytes; zeros are the point at infinity. *)
Definition encodes (P : SM2_POINT) (A : apoint) : Prop :=
  octets32 (pt_x P) /\ octets32 (pt_y P) /\
  match A with
  | Inf => sm2_point_is_at_infinity P = true
  | Aff x y => horner 256 (pt_x P) = x /\ horner 256 (pt_y P) = y /\ x < sm2_p /\ y < sm2_p /\ curve x y 1
  end.

Lemma octets_inj l l' : octets32 l -> octets32 l' -> horner 256 l = horner 256 l' -> l = l'.
Proof.
  intros [H L] [H' L'] E. rewrite <- (be_bytes_horner l H), <- (be_bytes_horner l' H'), L, L', E. reflexivity.
Qed.

Lemma from_octets_bn l : octets32 l -> bn (sm2_bn_from_bytes l) /\ val (sm2_bn_from_bytes l) = horner 256 l.
Proof. intros [H L]. exact (from_bytes_spec l H L). Qed.

Lemma to_octets a : bn a -> octets32 (sm2_bn_to_bytes a) /\ horner 256 (sm2_bn_to_bytes a) = val a.
Proof.
  intros [L H]. destruct (to_bytes_spec a H) as (H1 & H2 & H3). split; [| exact H3]. split; [exact H1 |]. by rewrite H2, L.
Qed.

Lemma to_from_octets l : octets32 l -> sm2_bn_to_bytes (sm2_bn_from_bytes l) = l.
Proof.
  intros H. destruct (from_octets_bn l H) as [H1 H2]. destruct (to_octets _ H1) as [H3 H4]. apply octets_inj; [done.. |]. by rewrite H4, H2.
Qed.

Lemma from_bytes_point P : octets32 (pt_x P) ->
  sm2_jacobian_point_from_bytes (point_bytes P) =
  sm2_jacobian_point_set_xy (sm2_bn_from_bytes (pt_x P)) (sm2_bn_from_bytes (pt_y P)).
Proof.
  intros [_ L]. unfold sm2_jacobian_point_from_bytes, point_bytes. rewrite take_app_length', drop_app_length' by done. reflexivity.
Qed.

Lemma decode P x y : encodes P (Aff x y) ->
  let J := sm2_jacobian_point_from_bytes (point_bytes P) in affine J /\ aff J = Aff x y.
Proof.
  intros (Hx & Hy & <- & <- & Rx & Ry & C). cbv zeta. rewrite from_bytes_point by done.
  destruct (from_octets_bn _ Hx) as [Bx Vx]. destruct (from_octets_bn _ Hy) as [By Vy].
  unfold aff. cbn [sm2_jacobian_point_set_xy jX jY]. rewrite Vx, Vy. split; [| done]. split; [| done].
  apply (Build_on_curve (sm2_jacobian_point_set_xy _ _)); cbn [sm2_jacobian_point_set_xy jX jY jZ]; [by split; [| rewrite Vx] | by split; [| rewrite Vy] | apply fp_one |].
  by rewrite Vx, Vy.
Qed.

Lemma bytes_point_app x y : length x = 32%nat -> bytes_point (x ++ y) = mk_sm2_point x y.
Proof. intros L. unfold bytes_point. by rewrite take_app_length', drop_app_length' by done. Qed.

Lemma to_bytes_encodes J A : repr J A -> encodes (bytes_point (sm2_jacobian_point_to_bytes J)) A.
Proof.
  intros HJ. unfold sm2_jacobian_point_to_bytes. destruct A as [| x y].
  { rewrite get_xy_infinity by done. split_and!; [| | done]; (split; [| done]); repeat (apply Forall_cons; [done |]); by apply Forall_nil. }
  pose proof (get_xy_repr J x y HJ) as G. pose proof (repr_curve J x y HJ) as C. destruct HJ as [_ (Rx & Ry & _)].
  destruct (sm2_jacobian_point_get_xy J) as [X Y]. cbn [fst snd] in G. destruct G as (G1 & G2 & <- & <-).
  destruct (to_octets X (below_bn _ _ G1)) as [X1 X2]. destruct (to_octets Y (below_bn _ _ G2)) as [Y1 Y2].
  rewrite bytes_point_app by apply X1. split_and!; cbn [pt_x pt_y]; try done; lia.
Qed.

Lemma encodes_map J A : returns (fun R => repr R A) J ->
  exists R, option_map (fun R => bytes_point (sm2_jacobian_point_to_bytes R)) J = Some R /\ encodes R A.
Proof. destruct J as [J |]; [| done]. intros H. eexists. split; [reflexivity |]. by apply to_bytes_encodes. Qed.

(** C15: the operations on encoded points compute the group of the curve: for the
    encodings of two points of the curve other than the point at infinity, and
    scalars of 32 bytes, every operation returns, with the encoding of the sum,
    difference, opposite, double and multiples; a result that is the point at
    infinity is encoded by 64 zeros. *)
Theorem sm2_point_ops_encode P Q x1 y1 x2 y2 :
  encodes P (Aff x1 y1) -> encodes Q (Aff x2 y2) ->
  (exists R, sm2_point_add P Q = Some R /\ encodes R (gadd (Aff x1 y1) (Aff x2 y2))) /\
  (exists R, sm2_point_sub P Q = Some R /\ encodes R (gadd (Aff x1 y1) (gneg (Aff x2 y2)))) /\
  encodes (sm2_point_neg P) (gneg (Aff x1 y1)) /\
  encodes (sm2_point_dbl P) (gdbl (Aff x1 y1)) /\
  (forall k, octets32 k -> exists R, sm2_point_mul k P = Some R /\ encodes R (smul (horner 256 k) (Aff x1 y1))) /\
  (forall k, octets32 k -> exists R, sm2_point_mul_generator k = Some R /\ encodes R (smul (horner 256 k) (aff SM2_G))).
Proof.
  intros HP HQ. destruct (decode P x1 y1 HP) as [AP EP]. destruct (decode Q x2 y2 HQ) as [AQ EQ].
  pose proof (affine_repr _ AP) as RP. rewrite EP in RP. rewrite <- EQ. split_and!.
  - exact (encodes_map _ _ (gadd_repr _ _ _ RP AQ)).
  - exact (encodes_map _ _ (sub_repr _ _ _ RP AQ)).
  - exact (to_bytes_encodes _ _ (gneg_repr _ _ RP)).
  - exact (to_bytes_encodes _ _ (gdbl_repr _ _ RP)).
  - intros k Hk. destruct (from_octets_bn k Hk) as [[_ Bk] <-]. exact (encodes_map _ _ (mul_repr _ _ _ Bk RP ltac:(discriminate))).
  - intros k Hk. destruct (from_octets_bn k Hk) as [[_ Bk] <-].
    exact (encodes_map _ _ (mul_repr _ _ _ Bk (affine_repr SM2_G affine_g) ltac:(discriminate))).
Qed.

Definition ex_g : SM2_POINT := mk_sm2_point (sm2_bn_to_bytes (jX SM2_G)) (sm2_bn_to_bytes (jY SM2_G)).

Lemma ex_g_encodes : encodes ex_g (aff SM2_G).
Proof.
  destruct affine_g as [[Hx Hy _ C] _]. destruct (to_octets _ (below_bn _ _ Hx)) as [X1 X2]. destruct (to_octets _ (below_bn _ _ Hy)) as [Y1 Y2].
  pose proof (fp_range _ Hx). pose proof (fp_range _ Hy). unfold aff. split_and!; cbn [ex_g pt_x pt_y]; try done; lia.
Qed.

Lemma sm2_point_ops_encode_witness : exists R, sm2_point_add ex_g ex_g = Some R /\ encodes R (gadd (aff SM2_G) (aff SM2_G)).
Proof. exact (proj1 (sm2_point_ops_encode ex_g ex_g _ _ _ _ ex_g_encodes ex_g_encodes)). Defined.

(** ** Compressed points *)

(** Square roots: [p = 3] modulo [4]. *)
Lemma quarter_half : exists k h, (sm2_p + 1) / 4 = k /\ 0 <= k /\ 0 <= h /\ k + k = h + 1 /\ 2 * h = sm2_p - 1.
Proof. exists ((sm2_p + 1) / 4), ((sm2_p - 1) / 2). split; [reflexivity |]. vm_compute. by repeat split. Qed.

Lemma sqrt_power g y : 0 <= y < sm2_p -> eqp (y * y) g -> let r := g ^ ((sm2_p + 1) / 4) in eqp (r * r) g.
Proof.
  intros Hy E. cbv zeta. destruct quarter_half as (k & h & -> & Hk & Hh & E1 & E2).
  rewrite <- Z.pow_add_r, E1, Z.pow_add_r, Z.pow_1_r by lia.
  destruct (Z.eq_dec y 0) as [-> | N]; [rewrite <- E at 2 3; ring |].
  assert (eqp (g ^ h) 1) as ->; [| ring]. rewrite <- E, <- Z.pow_2_r, <- Z.pow_mul_r, E2 by lia.
  apply fermat; [exact sm2_p_prime |]. intros D. apply Z.divide_pos_le in D; lia.
Qed.

Lemma square_roots a b : eqp (a * a) (b * b) -> eqp a b \/ eqp a (- b).
Proof.
  intros H. assert (eqp ((a - b) * (a - (- b))) 0) as D by (transitivity (a * a - b * b); [ring | rewrite H; ring]).
  apply eqp_0_mul in D as [D | D]; apply (proj1 (eqp_sub _ _)) in D; tauto.
Qed.

Lemma land_odd w : negb (Z.land w 1 =? 0) = Z.odd w.
Proof. change 1 with (Z.ones 1) at 1. rewrite Z.land_ones, Z.pow_1_r, Zmod_odd by done. by destruct (Z.odd w). Qed.

Lemma parity_octet l : octets32 l -> negb (Z.land (nthb l 31) 1 =? 0) = Z.odd (horner 256 l).
Proof.
  intros [_ L]. destruct l as [| d l _] using rev_ind; [done |]. rewrite length_app in L. cbn in L. unfold nthb. rewrite app_nth2 by lia.
  replace (31 - length l)%nat with 0%nat by lia. cbn [List.nth]. rewrite horner_snoc, Z.odd_add, Z.odd_mul, andb_false_r, xorb_false_l.
  apply land_odd.
Qed.

Lemma is_odd_spec a : bn a -> sm2_bn_is_odd a = Z.odd (val a).
Proof.
  intros [L H]. destruct a as [| w a]; [done |]. unfold sm2_bn_is_odd. cbn [nthb List.nth val]. rewrite Z.odd_add, Z.odd_mul. cbn [Z.odd andb].
  rewrite xorb_false_r. apply land_odd.
Qed.

(** The root with the parity that the tag asks for. *)
Lemma pick_root r y : fp r -> 0 <= y < sm2_p -> eqp (val r * val r) (y * y) ->
  let tag := if Z.odd y then 0x03 else 0x02 in
  let r' := if ((tag =? 0x02) && sm2_bn_is_odd r) || ((tag =? 0x03) && negb (sm2_bn_is_odd r)) then sm2_fp_neg r else r in
  fp r' /\ val r' = y.
Proof.
  intros Hr Hy E. cbv zeta. rewrite (is_odd_spec r (below_bn _ _ Hr)). destruct (fp_neg_spec r Hr) as [N1 N2]. pose proof (fp_range r Hr) as Rr.
  assert (val r = y \/ val r = (- y) mod sm2_p /\ y <> 0) as [V | [V N]].
  { apply square_roots in E as [E | E]; [left; by apply eqp_small |].
    destruct (Z.eq_dec y 0) as [-> | N]; [left; by apply eqp_small | right]. split; [| done].
    unfold congr in E. rewrite Z.mod_small in E by done. done. }
  - rewrite V. destruct (Z.odd y); cbn [Z.eqb Pos.eqb andb orb negb]; by split.
  - rewrite (Z.mod_opp_l_nz y) in V by (done || rewrite Z.mod_small; done). rewrite Z.mod_small in V by done.
    assert (Z.odd (val r) = negb (Z.odd y)) as ->. { rewrite V, Z.odd_sub. reflexivity. }
    assert (val (sm2_fp_neg r) = y) as V'. { rewrite N2, V, Z.mod_opp_l_nz; rewrite ?Z.mod_small; lia. }
    destruct (Z.odd y); cbn [Z.eqb Pos.eqb andb orb negb]; by split.
Qed.

Lemma encodes_on_curve P x y : encodes P (Aff x y) -> sm2_point_is_on_curve P = true.
Proof.
  intros HP. unfold sm2_point_is_on_curve. destruct (decode P x y HP) as [[[Hx Hy Hz C] _] _]. by apply is_on_curve_spec.
Qed.

Lemma octets_range l : octets32 l -> 0 <= horner 256 l.
Proof. intros [H _]. apply horner_range; [done | exact H]. Qed.

Lemma fp_three : fp SM2_THREE.
Proof. split; [by apply bn_check | done]. Qed.

Lemma exp_root g : fp g ->
  fp (sm2_fp_exp g SM2_U_PLUS_ONE) /\ eqp (val (sm2_fp_exp g SM2_U_PLUS_ONE)) (val g ^ ((sm2_p + 1) / 4)).
Proof.
  intros Hg. assert (words SM2_U_PLUS_ONE) as W1 by (by apply (bn_check SM2_U_PLUS_ONE)).
  destruct (fp_exp_spec g SM2_U_PLUS_ONE Hg W1) as [E1 E2]. change (val SM2_U_PLUS_ONE) with ((sm2_p + 1) / 4) in E2.
  exact (conj E1 (eq_eqp _ _ E2)).
Qed.

Lemma from_x_root P x y : encodes P (Aff x y) ->
  sm2_point_from_x (pt_x P) (if Z.odd y then 0x03 else 0x02) = Some P.
Proof.
  intros HP. pose proof HP as (Hx & Hy & Ex & Ey & Rx & Ry & C). pose proof (octets_range _ Hy) as Y0. rewrite Ey in Y0.
  destruct (from_octets_bn _ Hx) as [Bx Vx]. rewrite Ex in Vx. symmetry. cbv beta delta [sm2_point_from_x].
  match goal with |- ?post (let x := ?e in @?body x) => change (post (body e)); cbv beta end.
  rewrite (to_from_octets _ Hx). set (X := sm2_bn_from_bytes (pt_x P)) in *.
  assert (fp X) as FX by (split; [exact Bx | by rewrite Vx]). pose proof fp_three as F3. pose proof fp_b as FB.
  do 4 fp_step. lazymatch goal with |- ?post (let x := ?e in @?body x) =>
    refine (let_fp post body e (fun r => fp r /\ eqp (val r) (val v2 ^ ((sm2_p + 1) / 4))) (exp_root v2 ltac:(assumption)) _) end.
  cbv beta. intros r [Hr Er]. fp_step.
  assert (eqp (y * y) (val v2)) as Eg.
  { unfold curve in C. rewrite C. rewrite H6, H4, H2, H0, Vx. change (val SM2_THREE) with 3. ring. }
  pose proof (sqrt_power (val v2) y (conj Y0 Ry) Eg) as Root. cbv zeta in Root. rewrite <- Er in Root.
  assert (val v3 = val v2) as EZ by (apply eqp_eq; [assumption.. | by rewrite H8]).
  rewrite cmp_fp, EZ, Z.eqb_refl by assumption. cbn [negb]. rewrite <- Eg in Root.
  destruct (pick_root r y Hr (conj Y0 Ry) Root) as [P1 P2]. cbv zeta in P1, P2.
  match goal with |- context [if ?c then sm2_fp_neg r else r] => set (r' := if c then sm2_fp_neg r else r) in * end.
  destruct (to_octets r' (below_bn _ _ P1)) as [O1 O2]. rewrite P2 in O2.
  assert (sm2_bn_to_bytes r' = pt_y P) as -> by (apply octets_inj; [done.. | by rewrite O2]).
  destruct P as [px py]. cbn [pt_x pt_y] in *. cbv zeta. by rewrite (encodes_on_curve _ _ _ HP).
Qed.

Lemma from_x_sound x tag Q : octets32 x -> sm2_point_from_x x tag = Some Q -> sm2_point_is_on_curve Q = true /\ pt_x Q = x.
Proof.
  intros Hx. cbv beta delta [sm2_point_from_x]. cbv zeta. rewrite (to_from_octets x Hx).
  match goal with |- (if ?b then _ else _) = _ -> _ => destruct b; [done |] end.
  match goal with |- (if negb (sm2_point_is_on_curve ?P) then _ else _) = _ -> _ => destruct (sm2_point_is_on_curve P) eqn:E; [| done] end.
  intros [= <-]. exact (conj E eq_refl).
Qed.

Lemma from_octets_sound in_ Q : Forall byte in_ -> sm2_point_from_octets in_ = Some Q ->
  sm2_point_is_on_curve Q = true /\
  (length in_ = 33%nat /\ (exists t, (t = 2 \/ t = 3) /\ in_ = t :: pt_x Q) \/ in_ = sm2_point_to_uncompressed_octets Q).
Proof.
  intros HB. destruct in_ as [| tag rest]; [done |]. apply Forall_cons_1 in HB as [Ht HB]. cbv beta iota delta [sm2_point_from_octets].
  destruct (((tag =? 2) || (tag =? 3)) && (length (tag :: rest) =? 33)%nat) eqn:E1.
  { apply andb_prop in E1 as [E1 L]. apply orb_prop in E1. rewrite !Z.eqb_eq in E1. apply Nat.eqb_eq in L. intros H.
    destruct (from_x_sound rest tag Q) as [G1 <-]; [split; [exact HB | by injection L] | exact H |].
    split; [exact G1 |]. left. split; [exact L |]. exists tag. exact (conj E1 eq_refl). }
  clear E1. destruct ((tag =? 4) && (length (tag :: rest) =? 65)%nat) eqn:E2; [| done].
  apply andb_prop in E2 as [E2 L]. apply Z.eqb_eq in E2. unfold sm2_point_from_xy.
  destruct (sm2_point_is_on_curve _) eqn:E3; [| done]. intros [= <-]. split; [exact E3 |]. right.
  unfold sm2_point_to_uncompressed_octets, point_bytes. cbn [pt_x pt_y]. by rewrite take_drop, E2.
Qed.

(** C14: octets of points round trip: the compressed and the uncompressed form of
    a point of the curve are both read back as that point; a form with another
    length or another first byte is refused, and a point that is accepted
    satisfies the equation of the curve. *)
Theorem sm2_octets_round_trip P x y :
  encodes P (Aff x y) ->
  sm2_point_from_octets (sm2_point_to_compressed_octets P) = Some P /\
  sm2_point_from_octets (sm2_point_to_uncompressed_octets P) = Some P /\
  forall in_ Q, Forall byte in_ -> sm2_point_from_octets in_ = Some Q ->
    sm2_point_is_on_curve Q = true /\
    (length in_ = 33%nat /\ (exists t, (t = 2 \/ t = 3) /\ in_ = t :: pt_x Q) \/ in_ = sm2_point_to_uncompressed_octets Q).
Proof.
  intros HP. pose proof HP as (Hx & Hy & Ex & Ey & _). split; [| split].
  - unfold sm2_point_to_compressed_octets, sm2_point_from_octets. rewrite (parity_octet _ Hy), Ey. cbn [length]. rewrite (proj2 Hx).
    pose proof (from_x_root P x y HP) as G. destruct (Z.odd y); exact G.
  - unfold sm2_point_to_uncompressed_octets, sm2_point_from_octets, point_bytes. cbn [length]. rewrite length_app, (proj2 Hx), (proj2 Hy).
    cbn [Z.eqb Pos.eqb andb orb Nat.eqb Nat.add]. rewrite take_app_length', drop_app_length' by (symmetry; apply Hx).
    unfold sm2_point_from_xy. destruct P as [px py]. cbn [pt_x pt_y] in *. by rewrite (encodes_on_curve _ _ _ HP).
  - intros in_ Q HB HQ. exact (from_octets_sound in_ Q HB HQ).
Qed.

Lemma sm2_octets_round_trip_witness :
  sm2_point_from_octets (sm2_point_to_compressed_octets ex_g) = Some ex_g /\
  sm2_point_from_octets (sm2_point_to_uncompressed_octets ex_g) = Some ex_g.
Proof.
  pose proof (sm2_octets_round_trip ex_g _ _ ex_g_encodes) as [H1 [H2 _]]. exact (conj H1 H2).
Defined.

(** ** Points from a hash *)

Lemma put_regs_octets r : octets32 (Sm3.Sm3.put_regs r).
Proof. split; [| reflexivity]. unfold Sm3.Sm3.put_regs. cbn [List.flat_map]. rewrite !Forall_app. split_and!; try apply PUTU32_bytes. by apply Forall_nil. Qed.

Lemma digest_octets m : octets32 (Sm3.Sm3.sm3_digest m).
Proof.
  unfold Sm3.Sm3.sm3_digest, Sm3.Sm3.sm3_finish. cbv zeta. destruct (if (_ <=? _)%nat then _ else _) as [d block]. exact (put_regs_octets _).
Qed.

Lemma reduce_fp x : bn x -> val x < 2 * sm2_p -> fp (if 0 <=? sm2_bn_cmp x SM2_P then sm2_bn_sub x SM2_P else x).
Proof.
  intros [L Hx] R. assert (bn SM2_P) as [LP HP] by (by apply bn_check). change (val SM2_P) with sm2_p in *.
  unfold sm2_bn_cmp. rewrite cmp_rev by (done || by rewrite L). change (val SM2_P) with sm2_p.
  destruct (Z.leb_spec 0 (Z.sgn (val x - sm2_p))) as [C | C]; [| split; [done | lia]].
  destruct (bn_sub_spec W x SM2_P) as (S1 & S2 & S3); [apply bn_wide; done | done.. | lia | change (val SM2_P) with sm2_p; lia |].
  change (val SM2_P) with sm2_p in S3. apply (wide_below W); [done | done | lia | by vm_compute].
Qed.

Lemma hash_loop_on_curve fuel u data x y : words u -> hash_loop fuel u data = Some (x, y) -> fp x /\ fp y /\ curve (val x) (val y) 1.
Proof.
  intros Hu. revert data. induction fuel as [| fuel IH]; intros data; [done |]. cbn [hash_loop].
  set (dgst := Sm3.Sm3.sm3_digest data). destruct (from_octets_bn dgst (digest_octets data)) as [Bx Vx].
  pose proof (val_range _ (bn_words _ Bx)) as R. rewrite (bn_length _ Bx) in R.
  pose proof (reduce_fp _ Bx ltac:(change (W ^ Z.of_nat 8) with (2 ^ 256) in R; rewrite p_value; lia)) as FX.
  set (X := if 0 <=? _ then _ else _) in *. clearbody X.
  destruct (sqr_eqp X FX) as [A1 A2]. destruct (sub_eqp _ _ A1 fp_three) as [B1 B2]. destruct (mul_eqp _ _ B1 FX) as [C1 C2].
  destruct (add_eqp _ _ C1 fp_b) as [D1 D2]. destruct (fp_exp_spec _ u D1 Hu) as [E1 _]. destruct (sqr_eqp _ E1) as [F1 F2].
  destruct (negb _) eqn:E; [apply IH |]. intros [= <- <-]. split; [exact FX |]. split; [exact E1 |].
  apply negb_false_iff in E. rewrite (cmp_fp _ _ D1 F1) in E. apply Z.eqb_eq in E. unfold curve. rewrite <- F2, <- E, D2, C2, B2, A2.
  change (val SM2_THREE) with 3. ring.
Qed.

(** Whatever is hashed, the point that comes out is on the curve. *)
Lemma sm2_point_from_hash_on_curve fuel data P :
  sm2_point_from_hash fuel data = Some P -> exists x y, encodes P (Aff x y).
Proof.
  unfold sm2_point_from_hash. assert (sm2_bn_rshift (sm2_bn_add SM2_P SM2_ONE) 2 = Some SM2_U_PLUS_ONE) as -> by (vm_compute; reflexivity).
  assert (words SM2_U_PLUS_ONE) as W1 by (by apply (bn_check SM2_U_PLUS_ONE)).
  destruct (hash_loop fuel SM2_U_PLUS_ONE data) as [[x y] |] eqn:E; [| done]. intros [= <-].
  destruct (hash_loop_on_curve fuel _ data x y W1 E) as (Hx & Hy & C). exists (val x), (val y).
  destruct (to_octets x (below_bn _ _ Hx)) as [X1 X2]. destruct (to_octets y (below_bn _ _ Hy)) as [Y1 Y2].
  pose proof (fp_range _ Hx). pose proof (fp_range _ Hy). split_and!; cbn [pt_x pt_y]; try done; lia.
Qed.

(** Sixty-four zeros are the point at infinity for [sm2_point_is_at_infinity], and
    it is what the operations write for it, but they read them as the pair (0, 0)
    with [Z = 1], which is not a point of the curve. *)
Example encoded_infinity :
  let O := mk_sm2_point (repeat 0 32) (repeat 0 32) in
  sm2_point_is_at_infinity O = true /\ sm2_point_is_on_curve O = false /\
  sm2_jacobian_point_is_at_infinity (sm2_jacobian_point_from_bytes (point_bytes O)) = false.
Proof. vm_compute. repeat split. Qed.
